(* ===== verification/_CoqProject ===== *)
-Q . S2P
Prelude.v
JsRuntime.v
JsText.v
Json.v
JsonSpec.v
JsObject.v
Base64.v
Types.v
DaemonClient.v
P2WBuffer.v
P2WPayload.v
P2WPayloadProofs.v
P2WPayloadSpec.v
P2WFile.v
P2WFileSpec.v
CryptoUtils.v
CardUtils.v
PasswordHealth.v
ClipboardGuard.v
Generator.v
CredentialForm.v
JsDate.v
Mfa.v
MfaSpec.v
MfaSetup.v
Keystore.v
VaultSync.v
LocalCrypto.v
JsDyn.v
Csv.v
JsonFormats.v
XmlFormats.v
XmlSpec.v
CsvSpec.v
Zip.v
Kdbx.v
ImportFile.v
ReimportSpec.v
ReimportClaims.v
VaultSyncSpec.v
SettingsTransfer.v
FolderPage.v
FormSpec.v
FormReopen.v
VaultPage.v
SecurityModes.v
SecurityModesSpec.v
LoginPage.v
LoginPageSpec.v
FileCrypto.v
StateStore.v
RateLimiter.v
SsrfGuard.v
ServerState.v
LoginRoute.v
AccountRoutes.v
ServerLogic.v
LoginSpec.v
ServerAudit.v
VaultRoutes.v
MailRoutes.v
ClientApi.v
AccountMachine.v
AccountRefine.v
ServerToy.v
AccountClaims.v
Sharing.v
AccountPages.v
AppSession.v
EmergencyPages.v
MailSpec.v
ModesPage.v
AuthClaims.v
Kms.v
PgRepository.v
PgRepositorySpec.v
PgSimulation.v
DualWrite.v
