(* ===== verification/Prelude.v ===== *)
(** * PWDnow: a verification development of the web client and its server

    PWDnow is a password manager.  Its web client (TypeScript, [web/src]) keeps a
    vault of folders and credentials, encrypts it in the browser and stores it on
    a server, or hands it to a local daemon.  The server (JavaScript, [web/lib],
    [web/routes]) keeps accounts, sessions and opaque encrypted resources.  This
    library models the parts of both that carry their own logic and proves the
    theorems that make them correct, or show where they are not.

    ** How the parts interact

    A login derives the keys of the tab ([crypto/keystore.ts]).  Values are
    encrypted with them for the server and for [localStorage]
    ([utils/localCrypto.ts]).  The vault context ([context/VaultContext.tsx]) holds
    the vault on the screen, writes every change through, and falls back to an
    encrypted outbox ([utils/offlineQueue.ts]) when the network is down.  Lockout,
    duress and travel mode ([utils/securityModes.ts]) guard the login and hide part
    of the vault; second factors are in [utils/mfa.ts].  A vault is exported and
    imported as an encrypted [.p2w] file ([utils/p2wFormat.ts]) or in the formats of
    other managers ([utils/importExport.ts]).

    On the server a request passes the session middleware ([lib/session.js]) and the
    CSRF check ([lib/csrf.js]) and reaches a handler of [routes/auth] or
    [routes/vaultRoutes.js].  Handlers share the users, sessions and resources, which
    a repository keeps in encrypted files ([lib/vaultRepository.js],
    [lib/fileCrypto.js]), counters in a store with expiry ([lib/stateStore.js],
    [lib/redisStateStore.js]) that rate limits and lockouts use
    ([lib/rateLimiter.js]), and an audit log chained by hashes ([lib/audit.js]).

    ** Files

    - [Prelude]: results of code that may throw, tactics, list and integer lemmas.
    - [JsRuntime], [JsText], [Base64]: what the source uses of the language: 32-bit
      integer operators, typed arrays, strings as UTF-16 units, UTF-8, decimal and
      hexadecimal text, [btoa] and [atob].  Also [bytesToHex], [hexToBytes] of
      [utils/crypto.ts] and [bufToB64url], [b64urlToBuf] of [utils/mfa.ts].
    - [Types]: the data model of [types.ts].
    - [P2WBuffer], [P2WPayload], [P2WFile]: [utils/p2wFormat.ts], one definition per
      function: [BufWriter], [BufReader] and the TLV fields; record encoding,
      [buildPayload] and the state machine of [parsePayload]; header, key
      derivation, double encryption, [exportToP2W], [importFromP2W].
      [P2WPayloadProofs], [P2WPayloadSpec], [P2WFileSpec] hold the proofs: round
      trips of payload and file, the record order and the limits of what the
      parser accepts, size masking, authentication before use, uniform errors,
      and that the default export is refused by the importer.
    - [CryptoUtils]: [utils/crypto.ts]: hashes, comparison, recovery keys, UUIDs.
    - [CardUtils]: [utils/cardUtils.ts], the card number field of
      [pages/AddCredential.tsx], [utils/passwordStrength.ts]: error detection of the
      Luhn check, masking, the reachable lengths of the field, the score.
    - [Generator]: the generators of [pages/PasswordGenerator.tsx] and
      [pages/AddCredential.tsx] over the words the platform draws; passwords are
      uniformly distributed.
    - [CredentialForm], [FormSpec], [FormReopen]: the state, the handlers and
      the submission of [pages/AddCredential.tsx], with the vault it saves to; the type of
      what it saves, saving again what was saved, and what an edit loses.
    - [JsDate], [VaultPage]: the date functions of the language and
      [pages/Vault.tsx]: expiry and its notices, search and its order, scores, dialogs.
    - [FolderPage]: [pages/ManageFolders.tsx] and [components/CreateFolderModal.tsx]:
      dragging, selection, moves and deletion over [VaultSync]; what is dragged away
      from a folder survives its deletion.
    - [PasswordHealth], [ClipboardGuard]: the report of
      [pages/VaultHealth.tsx], the lookup of [utils/hibp.ts] and the countdowns of
      [utils/clipboardGuard.ts].
    - [DaemonClient]: the commands of [utils/daemonClient.ts] and the
      route [/api/rpc] of [server.js] that forwards them: who may call, and what becomes
      of ids and refusals on the way.
    - [Mfa], [MfaSpec]: [utils/mfa.ts]: base32, HOTP and TOTP with the replay cache,
      e-mail codes, WebAuthn counters and registration.  [session] is the relation
      of all sequences of TOTP calls; no code is accepted twice in any of them.
    - [MfaSetup]: the enrolment of second factors in
      [pages/Settings/hooks/useMfaSetup.ts]: the saved configuration stays well formed
      and the hints for the login page agree with it on codes.
    - [Keystore]: [crypto/keystore.ts]: the keys of a tab and the
      sealed copy in [sessionStorage].  A run of [persistToSessionStorage] is a [job]
      that advances in steps between the other operations; [run] is the relation
      of all interleavings.
    - [LocalCrypto]: [utils/localCrypto.ts] byte for byte: round
      trips, what an accepted token guarantees, and the refinement of the symbolic
      encryption of [VaultSync].
    - [Csv], [CsvSpec], [Zip]: [utils/importExport.ts]: the CSV parser and escaping,
      every CSV importer and exporter, the choice of the importer, and the ZIP
      archive of the 1PUX export.
    - [JsDyn]: reading parsed JSON of unknown shape, with the errors it may throw.
    - [JsonFormats], [XmlFormats], [Kdbx], [ImportFile]: the other formats of
      [utils/importExport.ts] and [utils/kdbxFormat.ts]: every JSON importer and
      exporter, the regular expressions of the XML readers as searches, the walk
      over a KeePass database, the table of formats, the protected export and
      [importFromFile].  [XmlSpec], [ReimportSpec], [ReimportClaims] show what every
      export becomes when it is imported again, and that the walks end.
    - [SettingsTransfer]: export and import of [pages/Settings.tsx]
      over [VaultSync].  A callback holds the state of its rendering ([captured]),
      which is why an import over the server keeps one credential.
    - [VaultSync], [VaultSyncSpec]: [context/VaultContext.tsx] and
      [utils/offlineQueue.ts].  [world] is the server, the stores of the browser and
      the keys, [app] the state of the provider; [engine] says which values the
      JavaScript engine can encrypt in one call.  The specification of the
      component is the invariant that every collection on the screen is on the
      server or queued.
    - [SecurityModes], [SecurityModesSpec]: [utils/securityModes.ts] over a store
      with a list of request outcomes: lockout, the duress counter and password,
      travel mode on and off.
    - [ModesPage]: the dialogs of [pages/Settings/SecurityModesSection.tsx] over both of
      them: what travel mode shows, and that an edit meanwhile loses what is hidden.
    - [LoginPage], [LoginPageSpec]: [pages/Login.tsx] with [wipeVaultData]: the keys a
      login leaves, the lockout, and what second factors the page can complete.
    - [AccountPages]: [pages/Register.tsx], [pages/ForgotPassword.tsx]: the key that
      registration stores is the one the first login derives.
    - [AppSession]: [layouts/AppLayout.tsx], [context/UserContext.tsx],
      [context/NotificationContext.tsx], [utils/sessionTracker.ts], logging out:
      automatic locking as a machine of timers and events, and what survives a login.
    - [ClientApi], [Sharing], [EmergencyPages]: the requests of [utils/api.ts], sharing
      ([components/ShareModal.tsx], [pages/ShareView.tsx], [SharesModal.tsx]) and emergency
      access ([components/EmergencyAccessModal.tsx], [pages/EmergencyRequest.tsx]), each
      composed with the handlers of the server that answer them.
    - [Json], [JsonSpec], [JsObject]: [JSON.stringify] and [JSON.parse] on a type of JSON values,
      and that parsing a printed value gives it back,
      also after UTF-8; objects as lists of properties and values up to their order.
    - [FileCrypto]: [lib/fileCrypto.js], [lib/vaultRepository.js]: a
      file system as a map from paths to bytes, a write as its steps: truncate the
      temporary file, append byte by byte, rename.
      The operations on the encrypted users file refine those on a list of users;
      a crash at any step leaves the old or the new value; resources do not mix.
    - [Kms], [PgRepository], [PgRepositorySpec], [PgSimulation]: key management and the
      PostgreSQL repository ([lib/kms], [lib/envelope.js], [lib/postgresVaultRepository.js]):
      [Pg] is the tables and the cache of keys; it implements a map of users and a map of
      resources.  [DualWrite]: the repository over two back ends
      ([lib/dualWriteVaultRepository.js]) and what its mirror holds.
    - [StateStore]: the two stores as instances of [StateStore], with the contract
      [StateStoreSpec] that their clients are proved against.
    - [RateLimiter]: windows, lockouts, client identities and the
      log of fingerprints, on every store that meets the contract.
    - [SsrfGuard]: the patterns against internal mail hosts, equal to
      the address blocks they stand for.
    - [ServerState]: the record [Server] of everything the handlers share, the monad
      [H] of handlers with early replies, and the helpers of [lib/session.js],
      [lib/csrf.js] and [routes/auth/utils.js].
    - [LoginRoute], [AccountRoutes], [VaultRoutes], [ServerAudit]: one definition per
      handler of [routes/auth/login.js], [register.js], [sessions.js], [mfa.js],
      [routes/vaultRoutes.js], and [lib/audit.js].  A handler that waits for the hash of a
      password takes what other requests do meanwhile as an argument.
    - [MailRoutes], [MailSpec]: [lib/smtpConfig.js], [routes/auth/smtp.js], the expiry mail of
      [routes/vaultRoutes.js], the DNS check of [server.js]: which hosts the server connects to.
    - [ServerLogic]: weakest preconditions and stability lemmas for handlers.
    - [LoginSpec], [ServerToy], [AuthClaims]: what logins answer and change, second factors, one-time
      passwords, the duress counter, shares, the audit chain; [ServerToy] has
      concrete library instances for witnesses.
    - [AccountMachine], [AccountRefine], [AccountClaims]: an
      abstract machine of accounts with its invariants; [request] and [handle] put
      all handlers together, with the requests answered while one waits for a hash;
      every sequence of requests refines the machine, and guarded requests are refused
      without effect or stay within their user ([untouched], [apart]).

    ** Conventions

    Numbers are [Z]; the bit operators of the language wrap to 32 bits ([JsRuntime]).
    Strings are lists of UTF-16 units, bytes are lists of [Z] with the predicate
    [Bytes].  Code that throws returns [result] or [option].  Time, random bytes,
    generated ids and the outcomes of requests are arguments.  Ciphers, MACs, KDFs,
    URL parsing and Unicode case mapping are class parameters ([P2WCrypto],
    [OtpHmac], [SessionCrypto], [TravelCrypto], [ShareCrypto], [JsUrl], [JsCase], ...) with the laws
    that are documented of them; every theorem that uses laws has a witness at a
    concrete instance.

    Fuel: [parse_loop] and [readFields_loop] get one unit per byte and each turn
    consumes a byte, [zip_scan] one per byte plus one ([zip_reader_total]), [processGroup]
    one per nested value plus one ([processGroup_ends]), the
    searches for a free id one per id in use plus one; in each case a lemma shows
    it is enough.  The JSON parser gets two units per unit of text; the round trip
    shows it is enough for every printed value.

    ** What is not modelled

    The opening of a [kdbx] file, the storage of the MFA configuration, quick unlock, the
    rest of the load from the daemon, the transport of requests, the markdown editor of
    the form and floating-point display values: library calls, platform glue or display.
    The remaining pages ([Setup.tsx], [Dashboard.tsx], [BreachMonitor.tsx]
    and others) render what the modelled components hold or
    call their operations.  Of the server, the process, metrics and logging.  Handlers run one after the other except where [during] says otherwise,
    that is while a password is hashed;
    files that can not be written are not modelled.  The daemon and the monitor are other
    programs.  The depth of nested calls is not bounded as an engine's stack is. *)
From Stdlib Require Export ZArith Lia.
From stdpp Require Export base numbers gmap strings list.

#[global] Open Scope Z_scope.

#[global] Arguments Z.eqb : simpl never.
#[global] Arguments Z.leb : simpl never.
#[global] Arguments Z.ltb : simpl never.
#[global] Arguments Z.gtb : simpl never.
#[global] Arguments Z.geb : simpl never.
#[global] Arguments Z.add : simpl never.
#[global] Arguments Z.sub : simpl never.
#[global] Arguments Z.mul : simpl never.
#[global] Arguments Z.div : simpl never.
#[global] Arguments Z.modulo : simpl never.
#[global] Arguments Z.pow : simpl never.
#[global] Arguments Z.of_nat : simpl never.

(** [lia] with division and modulo by constants. *)
#[global] Ltac Zify.zify_post_hook ::= Z.div_mod_to_equations.

(** ** Results of fallible code

    JavaScript code that may [throw] returns [result E A]: [Ok a] for a value,
    [Throw e] for the thrown error. *)

Inductive result (E A : Type) : Type :=
| Ok (a : A)
| Throw (e : E).
Arguments Ok {E A} a.
Arguments Throw {E A} e.

#[export] Instance result_ret E : MRet (result E) := λ A a, Ok a.
#[export] Instance result_bind E : MBind (result E) := λ A B f m,
  match m with Ok a => f a | Throw e => Throw e end.
#[export] Instance result_fmap E : FMap (result E) := λ A B f m,
  match m with Ok a => Ok (f a) | Throw e => Throw e end.

Definition is_ok {E A} (r : result E A) : bool :=
  match r with Ok _ => true | Throw _ => false end.

(** [if (b) throw e;] *)
Definition throw_if {E} (b : bool) (e : E) : result E unit :=
  if b then Throw e else Ok tt.

(** [try { m } catch { throw e }] *)
Definition rethrow {E E' A} (m : result E A) (e : E') : result E' A :=
  match m with Ok a => Ok a | Throw _ => Throw e end.

Lemma bind_Ok_inv {E A B} (m : result E A) (f : A → result E B) b :
  m ≫= f = Ok b → ∃ a, m = Ok a ∧ f a = Ok b.
Proof. destruct m; simpl; naive_solver. Qed.

Lemma bind_Throw_inv {E A B} (m : result E A) (f : A → result E B) e :
  m ≫= f = Throw e → m = Throw e ∨ ∃ a, m = Ok a ∧ f a = Throw e.
Proof. destruct m; simpl; naive_solver. Qed.

Lemma throw_if_Ok {E} b (e : E) u : throw_if b e = Ok u → b = false.
Proof. by destruct b. Qed.

Lemma throw_if_Throw {E} b (e e' : E) : throw_if b e = Throw e' → b = true ∧ e' = e.
Proof. destruct b; simpl; naive_solver. Qed.

(** A chain of guards that all throw [e] ends in [e]. *)
Lemma bind_throw_if {E A} b (e : E) (f : unit → result E A) :
  (b = false → f tt = Throw e) → throw_if b e ≫= f = Throw e.
Proof. destruct b; [done|]. intros H. by apply H. Qed.

(** [mapM] that stops at the first error, the shape of a [for] loop that pushes. *)
Fixpoint result_map {E A B} (f : A → result E B) (l : list A) : result E (list B) :=
  match l with
  | [] => Ok []
  | x :: l' => y ← f x; ys ← result_map f l'; Ok (y :: ys)
  end.

(** ** Tactics *)

(** Split every success of a chain of binds into its steps. *)
Ltac inv_ok :=
  repeat match goal with
  | H : _ ≫= _ = Ok _ |- _ => apply bind_Ok_inv in H as (? & ? & ?)
  | H : Ok _ = Ok _ |- _ => injection H as H
  | H : throw_if _ _ = Ok _ |- _ => apply throw_if_Ok in H
  | H : Throw _ = Ok _ |- _ => discriminate H
  | H : Ok _ = Throw _ |- _ => discriminate H
  end.

(** Turn boolean tests of the code into propositions. *)
Ltac to_prop :=
  repeat match goal with
  | H : (_ && _)%bool = true |- _ => apply andb_prop in H as [? ?]
  | H : (_ || _)%bool = false |- _ => apply orb_false_elim in H as [? ?]
  | H : negb _ = true |- _ => apply negb_true_iff in H
  | H : negb _ = false |- _ => apply negb_false_iff in H
  | H : (_ =? _) = true |- _ => apply Z.eqb_eq in H
  | H : (_ =? _) = false |- _ => apply Z.eqb_neq in H
  | H : (_ <? _) = true |- _ => apply Z.ltb_lt in H
  | H : (_ <? _) = false |- _ => apply Z.ltb_ge in H
  | H : (_ <=? _) = true |- _ => apply Z.leb_le in H
  | H : (_ <=? _) = false |- _ => apply Z.leb_gt in H
  | H : (_ >? _) = _ |- _ => rewrite Z.gtb_ltb in H
  | H : (_ >=? _) = _ |- _ => rewrite Z.geb_leb in H
  | H : bool_decide _ = true |- _ => apply bool_decide_eq_true in H
  | H : bool_decide _ = false |- _ => apply bool_decide_eq_false in H
  end.

(** Case analysis on the first conditional of the goal, with its equation. *)
Ltac case_if :=
  match goal with |- context [if ?b then _ else _] => destruct b eqn:? end.

Create HintDb pwd.
#[export] Hint Extern 5 => lia : pwd.

(** ** Lists *)

Section lists.
Context {A : Type}.
Implicit Types l : list A.

Lemma drop_cons_inv n l x l' : drop n l = x :: l' → l !! n = Some x ∧ drop (S n) l = l'.
Proof.
  intros H. split.
  - pose proof (lookup_drop l n 0) as E. rewrite H in E. simpl in E.
    by rewrite Nat.add_0_r in E.
  - replace (S n) with (n + 1)%nat by lia. rewrite <- drop_drop. by rewrite H.
Qed.

Lemma take_drop_app n l l1 l2 :
  drop n l = l1 ++ l2 → take (length l1) (drop n l) = l1 ∧ drop (n + length l1) l = l2.
Proof.
  intros H. split.
  - rewrite H. by rewrite take_app_length.
  - rewrite <- drop_drop, H. by rewrite drop_app_length.
Qed.

Lemma length_zero_nil l : Z.of_nat (length l) = 0 → l = [].
Proof. destruct l; simpl; [done | lia]. Qed.

Lemma filter_partition_perm (P : A → Prop) `{!∀ x, Decision (P x)} l :
  filter (λ x, ¬ P x) l ++ filter P l ≡ₚ l.
Proof.
  induction l as [|x l IH]; [done|].
  rewrite !filter_cons. destruct (decide (P x)), (decide (¬ P x)); try tauto; simpl.
  - rewrite <- Permutation_middle. by rewrite IH.
  - by rewrite IH.
Qed.
End lists.

(** ** Integers *)

Lemma lor_add_disjoint a b n :
  0 <= n → 0 <= b < 2 ^ n → Z.lor (a * 2 ^ n) b = a * 2 ^ n + b.
Proof.
  intros Hn Hb. symmetry. apply Z.add_nocarry_lor.
  rewrite <- Z.shiftl_mul_pow2 by done.
  apply Z.bits_inj'; intros i Hi. rewrite Z.land_spec, Z.bits_0.
  destruct (Z.ltb_spec i n).
  - by rewrite Z.shiftl_spec_low.
  - assert (Z.testbit b i = false) as ->; [|by rewrite andb_false_r].
    destruct (Z.eq_dec b 0) as [->|]; [apply Z.bits_0|].
    apply Z.bits_above_log2; [lia|]. apply Z.log2_lt_pow2; [lia|].
    apply Z.lt_le_trans with (2 ^ n); [lia|]. by apply Z.pow_le_mono_r.
Qed.
