(* ===== verification/JsRuntime.v ===== *)
(** * The part of the JavaScript runtime the client uses

    Bytes and typed arrays, the 32-bit integer operators, strings as lists of
    UTF-16 code units, [TextEncoder]/[TextDecoder] (UTF-8), decimal and
    hexadecimal printing.  Every definition computes. *)
From S2P Require Import Prelude.

(** ** Bytes and typed arrays *)

Abbreviation bytes := (list Z).

Definition is_byte (b : Z) : Prop := 0 <= b < 256.
Definition Bytes (l : bytes) : Prop := Forall is_byte l.

(** [arr.length] *)
Definition len {A} (l : list A) : Z := Z.of_nat (length l).

Arguments len : simpl never.

Lemma len_nonneg {A} (l : list A) : 0 <= len l.
Proof. unfold len. lia. Qed.
Lemma len_app {A} (l k : list A) : len (l ++ k) = len l + len k.
Proof. unfold len. rewrite length_app. lia. Qed.
Lemma len_cons {A} (x : A) l : len (x :: l) = 1 + len l.
Proof. unfold len. simpl. lia. Qed.
Lemma len_nil {A} : len (@nil A) = 0.
Proof. done. Qed.
Create Rewrite HintDb len.
#[export] Hint Rewrite @len_app @len_cons @len_nil : len.

(** [arr.slice(a, b)] for [0 <= a]; the end is clamped to the length. *)
Definition slice {A} (l : list A) (a b : nat) : list A := take (b - a) (drop a l).
Arguments slice : simpl never.

(** [s.slice(0, n)] *)
Definition slice0 {A} (n : Z) (l : list A) : list A := take (Z.to_nat n) l.
Arguments slice0 : simpl never.

Lemma slice0_all {A} n (l : list A) : len l <= n → slice0 n l = l.
Proof. intros. unfold slice0, len in *. apply take_ge. lia. Qed.

(** [new Uint8Array(n)] *)
Definition zeros (n : nat) : bytes := replicate n 0.

Lemma zeros_length n : length (zeros n) = n.
Proof. apply length_replicate. Qed.

(** [out.set(p, off)]: writes [p] at [off]; the source only calls it in range. *)
Definition set_at (out p : bytes) (off : nat) : bytes :=
  take off out ++ p ++ drop (off + length p) out.

Lemma set_at_length out p off :
  (off + length p <= length out)%nat → length (set_at out p off) = length out.
Proof.
  intros. unfold set_at. rewrite !length_app, length_take, length_drop. lia.
Qed.

Lemma set_at_append pre p n :
  (length p <= n)%nat →
  set_at (pre ++ zeros n) p (length pre) = (pre ++ p) ++ zeros (n - length p).
Proof.
  intros. unfold set_at, zeros. rewrite take_app_length, <- app_assoc. do 2 f_equal.
  rewrite <- drop_drop, drop_app_length.
  by rewrite drop_replicate.
Qed.

Lemma Bytes_app l k : Bytes (l ++ k) ↔ Bytes l ∧ Bytes k.
Proof. apply Forall_app. Qed.
Lemma Bytes_cons b l : Bytes (b :: l) ↔ is_byte b ∧ Bytes l.
Proof. apply Forall_cons_iff. Qed.
Lemma Bytes_nil : Bytes [].
Proof. constructor. Qed.
Lemma Bytes_take n l : Bytes l → Bytes (take n l).
Proof. apply Forall_take. Qed.
Lemma Bytes_drop n l : Bytes l → Bytes (drop n l).
Proof. apply Forall_drop. Qed.
Lemma Bytes_slice l a b : Bytes l → Bytes (slice l a b).
Proof. intros. unfold slice. by apply Bytes_take, Bytes_drop. Qed.
Lemma Bytes_zeros n : Bytes (zeros n).
Proof. apply Forall_replicate. unfold is_byte. lia. Qed.
#[export] Hint Resolve Bytes_nil Bytes_take Bytes_drop Bytes_slice Bytes_zeros : pwd.

(** ** The 32-bit operators of the language *)

Definition to_uint32 (x : Z) : Z := x mod 2 ^ 32.
Definition to_int32 (x : Z) : Z :=
  let u := to_uint32 x in if u <? 2 ^ 31 then u else u - 2 ^ 32.

Definition shl (x n : Z) : Z := to_int32 (Z.shiftl (to_int32 x) (n mod 32)).   (* x << n  *)
Definition sar (x n : Z) : Z := Z.shiftr (to_int32 x) (n mod 32).              (* x >> n  *)
Definition shr (x n : Z) : Z := Z.shiftr (to_uint32 x) (n mod 32).             (* x >>> n *)
Definition band (a b : Z) : Z := Z.land (to_int32 a) (to_int32 b).             (* a & b   *)
Definition bor (a b : Z) : Z := Z.lor (to_int32 a) (to_int32 b).               (* a | b   *)
Definition bxor (a b : Z) : Z := Z.lxor (to_int32 a) (to_int32 b).             (* a ^ b   *)

Arguments to_uint32 : simpl never.
Arguments to_int32 : simpl never.
Arguments shl : simpl never.
Arguments sar : simpl never.
Arguments shr : simpl never.
Arguments band : simpl never.
Arguments bor : simpl never.
Arguments bxor : simpl never.

Lemma to_uint32_range x : 0 <= to_uint32 x < 2 ^ 32.
Proof. unfold to_uint32. apply Z.mod_pos_bound. lia. Qed.
Lemma to_uint32_id x : 0 <= x < 2 ^ 32 → to_uint32 x = x.
Proof. intros. unfold to_uint32. apply Z.mod_small. lia. Qed.
Lemma to_int32_id x : 0 <= x < 2 ^ 31 → to_int32 x = x.
Proof.
  intros. unfold to_int32. rewrite to_uint32_id by lia.
  by rewrite (proj2 (Z.ltb_lt _ _)) by lia.
Qed.
Lemma to_uint32_to_int32 x : to_uint32 (to_int32 x) = to_uint32 x.
Proof.
  unfold to_int32. destruct (Z.ltb_spec (to_uint32 x) (2 ^ 31)).
  - apply to_uint32_id, to_uint32_range.
  - unfold to_uint32. rewrite <- (Z.mod_add (x mod 2 ^ 32 - 2 ^ 32) 1 (2 ^ 32)) by lia.
    replace (x mod 2 ^ 32 - 2 ^ 32 + 1 * 2 ^ 32) with (x mod 2 ^ 32) by lia.
    by rewrite Z.mod_mod by lia.
Qed.

Lemma to_uint32_lor a b : to_uint32 (Z.lor a b) = Z.lor (to_uint32 a) (to_uint32 b).
Proof.
  unfold to_uint32. rewrite <- !Z.land_ones by lia. apply Z.land_lor_distr_l.
Qed.

Lemma to_uint32_bor a b : to_uint32 (bor a b) = Z.lor (to_uint32 a) (to_uint32 b).
Proof. unfold bor. by rewrite to_uint32_lor, !to_uint32_to_int32. Qed.

Lemma to_uint32_shl x n :
  0 <= n < 32 → to_uint32 (shl x n) = to_uint32 (x * 2 ^ n).
Proof.
  intros. unfold shl. rewrite to_uint32_to_int32, (Z.mod_small n) by lia.
  rewrite Z.shiftl_mul_pow2 by lia. unfold to_uint32.
  rewrite Z.mul_mod by lia. fold (to_uint32 (to_int32 x)).
  rewrite to_uint32_to_int32. unfold to_uint32. by rewrite <- Z.mul_mod by lia.
Qed.

Lemma shr_0 x : shr x 0 = to_uint32 x.
Proof. done. Qed.

(** [x & (2^k - 1)] keeps the [k] low bits, also of a negative int32. *)
Lemma band_ones x k : 0 <= k <= 30 → band x (Z.ones k) = x mod 2 ^ k.
Proof.
  intros Hk. unfold band.
  assert (2 ^ k <= 2 ^ 30) by (apply Z.pow_le_mono_r; lia).
  assert (0 < 2 ^ k) by (apply Z.pow_pos_nonneg; lia).
  rewrite (to_int32_id (Z.ones k)) by (rewrite Z.ones_equiv; lia).
  rewrite Z.land_ones by lia.
  assert (Hdiv : 2 ^ 32 = 2 ^ (32 - k) * 2 ^ k) by (rewrite <- Z.pow_add_r by lia; f_equal; lia).
  assert (Hmm : ∀ y, (y mod 2 ^ 32) mod 2 ^ k = y mod 2 ^ k).
  { intros y. rewrite Hdiv, Z.mul_comm. rewrite Z.rem_mul_r by lia.
    rewrite Z.mul_comm, Z.mod_add by lia. apply Z.mod_mod. lia. }
  unfold to_int32. case_if; unfold to_uint32; rewrite ?Hmm; [done|].
  rewrite Zminus_mod, Hmm, (Hdiv), Z.mod_mul by lia.
  rewrite Z.sub_0_r. apply Z.mod_mod. lia.
Qed.

Lemma band_255 x : band x 255 = x mod 256.
Proof. apply (band_ones x 8). lia. Qed.
Lemma band_31 x : band x 31 = x mod 32.
Proof. apply (band_ones x 5). lia. Qed.

(** Big-endian composition as the readers write it:
    [((a << 24) | (b << 16) | (c << 8) | d) >>> 0]. *)
Definition be32 (a b c d : Z) : Z :=
  shr (bor (bor (bor (shl a 24) (shl b 16)) (shl c 8)) d) 0.

Arguments be32 : simpl never.

Lemma be32_spec a b c d :
  is_byte a → is_byte b → is_byte c → is_byte d →
  be32 a b c d = a * 2 ^ 24 + b * 2 ^ 16 + c * 2 ^ 8 + d.
Proof.
  unfold is_byte. intros. unfold be32.
  rewrite shr_0, !to_uint32_bor, !to_uint32_shl by lia.
  rewrite !(to_uint32_id) by lia.
  rewrite <- Z.lor_assoc, <- Z.lor_assoc.
  rewrite (lor_add_disjoint c d 8) by lia.
  rewrite (lor_add_disjoint b (c * 2 ^ 8 + d) 16) by lia.
  rewrite (lor_add_disjoint a _ 24) by lia. lia.
Qed.

(** [(v >>> k) & 0xFF] *)
Lemma byte_of_shr v k :
  0 <= v < 2 ^ 32 → 0 <= k < 32 → band (shr v k) 255 = (v / 2 ^ k) mod 256.
Proof.
  intros. rewrite band_255. unfold shr.
  rewrite (Z.mod_small k), to_uint32_id, Z.shiftr_div_pow2 by lia. done.
Qed.

(** ** Strings: lists of UTF-16 code units *)

Abbreviation jsstr := (list Z).

(** An ASCII literal of the source. *)
Definition js (s : string) : jsstr :=
  map (λ c, Z.of_N (Ascii.N_of_ascii c)) (String.list_ascii_of_string s).

(** [!s] on a string. *)
Definition str_empty (s : jsstr) : bool := match s with [] => true | _ => false end.

(** [v || undefined] *)
Definition or_undefined (s : jsstr) : option jsstr :=
  match s with [] => None | _ => Some s end.

(** [a || b] on strings *)
Definition str_or (a b : jsstr) : jsstr := match a with [] => b | _ => a end.

(** [s ?? ''] *)
Definition or_empty (s : option jsstr) : jsstr := match s with Some s => s | None => [] end.

(** [s === t] *)
Definition str_eqb (s t : jsstr) : bool := bool_decide (s = t).

Lemma str_eqb_eq s t : str_eqb s t = true ↔ s = t.
Proof. unfold str_eqb. apply bool_decide_eq_true. Qed.

(** [s.includes(c)] for a one-unit string. *)
Definition has_unit (c : Z) (s : jsstr) : bool := existsb (Z.eqb c) s.

Lemma has_unit_false c s : has_unit c s = false ↔ c ∉ s.
Proof.
  unfold has_unit. induction s as [|x s IH]; simpl.
  - split; [intros _; apply not_elem_of_nil | done].
  - rewrite orb_false_iff, IH, Z.eqb_neq, not_elem_of_cons. done.
Qed.

(** [s.startsWith(p)] *)
Fixpoint starts_with (p s : jsstr) : bool :=
  match p, s with
  | [], _ => true
  | x :: p', y :: s' => (x =? y) && starts_with p' s'
  | _ :: _, [] => false
  end.

Lemma starts_with_spec p s : starts_with p s = true ↔ ∃ k, s = p ++ k.
Proof.
  revert s. induction p as [|x p IH]; intros s; simpl.
  - split; [eauto | done].
  - destruct s as [|y s].
    + split; [done | by intros [k ?]].
    + rewrite andb_true_iff, Z.eqb_eq, IH. split.
      * intros [-> [k ->]]. by exists k.
      * intros [k [= -> ->]]. eauto.
Qed.

(** [s.includes(p)] *)
Fixpoint includes (p s : jsstr) : bool :=
  starts_with p s || match s with [] => false | _ :: s' => includes p s' end.

(** [s.split(c)] for a one-unit separator: always at least one piece. *)
Fixpoint split_unit (c : Z) (s : jsstr) : list jsstr :=
  match s with
  | [] => [[]]
  | x :: s' =>
      if x =? c then [] :: split_unit c s'
      else match split_unit c s' with
           | p :: ps => (x :: p) :: ps
           | [] => [[x]]
           end
  end.

(** [parts.join(c)] *)
Fixpoint join_unit (c : jsstr) (l : list jsstr) : jsstr :=
  match l with
  | [] => []
  | [s] => s
  | s :: l' => s ++ c ++ join_unit c l'
  end.

Lemma split_unit_nonnil c s : split_unit c s ≠ [].
Proof. destruct s as [|x s]; simpl; [done|]. case_if; [done|]. by destruct (split_unit c s). Qed.

Lemma split_unit_clean c s : c ∉ s → split_unit c s = [s].
Proof.
  induction s as [|x s IH]; [done|]. rewrite not_elem_of_cons. intros [? Hs]. simpl.
  rewrite (proj2 (Z.eqb_neq x c)) by congruence. by rewrite IH.
Qed.

Lemma split_unit_app c p s :
  c ∉ p → split_unit c (p ++ c :: s) = p :: split_unit c s.
Proof.
  induction p as [|x p IH]; simpl.
  - intros _. by rewrite Z.eqb_refl.
  - rewrite not_elem_of_cons. intros [? Hp].
    rewrite (proj2 (Z.eqb_neq x c)) by congruence. by rewrite IH.
Qed.

(** Splitting what was joined gives the pieces back, when no piece contains
    the separator. *)
Lemma split_join_unit c l :
  l ≠ [] → Forall (λ s, c ∉ s) l → split_unit c (join_unit [c] l) = l.
Proof.
  induction l as [|s l IH]; [done|]. intros _ [Hs Hl]%Forall_cons_iff.
  destruct l as [|s' l]; [by apply split_unit_clean|].
  change (join_unit [c] (s :: s' :: l)) with (s ++ c :: join_unit [c] (s' :: l)).
  rewrite split_unit_app by done. by rewrite IH.
Qed.

Lemma join_unit_has c s s' l : has_unit c (join_unit [c] (s :: s' :: l)) = true.
Proof.
  unfold has_unit. simpl. rewrite existsb_app. simpl. rewrite Z.eqb_refl.
  by rewrite orb_true_r.
Qed.

(** White space of [trim] and of [\s]. *)
Definition is_space (c : Z) : bool :=
  existsb (Z.eqb c) [9; 10; 11; 12; 13; 32; 160; 0x1680; 0x2028; 0x2029; 0x202F; 0x205F; 0x3000; 0xFEFF]
  || (0x2000 <=? c) && (c <=? 0x200A).

Fixpoint trim_start (s : jsstr) : jsstr :=
  match s with
  | c :: s' => if is_space c then trim_start s' else s
  | [] => []
  end.
Definition trim (s : jsstr) : jsstr := reverse (trim_start (reverse (trim_start s))).

(** [s.replace(/\s/g, '')] *)
Definition strip_spaces (s : jsstr) : jsstr := List.filter (λ c, negb (is_space c)) s.

Definition is_digit (c : Z) : bool := (48 <=? c) && (c <=? 57).
Definition is_upper (c : Z) : bool := (65 <=? c) && (c <=? 90).
Definition is_lower (c : Z) : bool := (97 <=? c) && (c <=? 122).

(** [s.replace(/\D/g, '')] *)
Definition digits_only (s : jsstr) : jsstr := List.filter is_digit s.

Definition ascii_lower_unit (c : Z) : Z := if is_upper c then c + 32 else c.
Definition ascii_upper_unit (c : Z) : Z := if is_lower c then c - 32 else c.

(** ** The bits of a positive number, one per byte

    Used by the sample ciphers. *)

Fixpoint pos_bits (p : positive) : bytes :=
  match p with xH => [] | xO q => 0 :: pos_bits q | xI q => 1 :: pos_bits q end.
Fixpoint bits_pos (l : bytes) : positive :=
  match l with [] => xH | b :: l => if b =? 0 then xO (bits_pos l) else xI (bits_pos l) end.
Lemma bits_pos_bits p : bits_pos (pos_bits p) = p.
Proof. induction p; cbn; by rewrite ?IHp. Qed.
Lemma pos_bits_bytes p : Bytes (pos_bits p).
Proof. induction p; cbn; [constructor; [unfold is_byte; lia|done]..|constructor]. Qed.
