(* ===== verification/JsText.v ===== *)
(** * Text codecs of the platform: UTF-8, decimal and hexadecimal

    [TextEncoder.encode] and [TextDecoder.decode] (WHATWG Encoding, non-fatal
    mode, BOM stripped), [String(n)] for integers, [n.toString(16).padStart(2,'0')]
    and its inverse. *)
From S2P Require Import Prelude JsRuntime.

(** ** UTF-16 code units and scalar values *)

Definition is_high (u : Z) : bool := (0xD800 <=? u) && (u <=? 0xDBFF).
Definition is_low (u : Z) : bool := (0xDC00 <=? u) && (u <=? 0xDFFF).
Definition is_surrogate (u : Z) : bool := (0xD800 <=? u) && (u <=? 0xDFFF).

Definition REPLACEMENT : Z := 0xFFFD.
Definition BOM : Z := 0xFEFF.

(** Conversion to scalar values: unpaired surrogates become U+FFFD. *)
Fixpoint to_scalars (s : jsstr) : list Z :=
  match s with
  | [] => []
  | u :: s' =>
      if is_high u then
        match s' with
        | v :: s'' =>
            if is_low v then (0x10000 + (u - 0xD800) * 0x400 + (v - 0xDC00)) :: to_scalars s''
            else REPLACEMENT :: to_scalars s'
        | [] => [REPLACEMENT]
        end
      else (if is_low u then REPLACEMENT else u) :: to_scalars s'
  end.

Definition of_scalar (c : Z) : jsstr :=
  if c <? 0x10000 then [c]
  else [0xD800 + (c - 0x10000) / 0x400; 0xDC00 + (c - 0x10000) mod 0x400].

Definition of_scalars (cs : list Z) : jsstr := concat (map of_scalar cs).

(** Strings without unpaired surrogates. *)
Fixpoint well_formed (s : jsstr) : bool :=
  match s with
  | [] => true
  | u :: s' =>
      if is_high u then
        match s' with v :: s'' => is_low v && well_formed s'' | [] => false end
      else negb (is_low u) && (0 <=? u) && (u <? 0x10000) && well_formed s'
  end.

(** ** UTF-8 *)

Definition utf8_scalar (c : Z) : bytes :=
  if c <? 0x80 then [c]
  else if c <? 0x800 then [0xC0 + c / 64; 0x80 + c mod 64]
  else if c <? 0x10000 then [0xE0 + c / 4096; 0x80 + (c / 64) mod 64; 0x80 + c mod 64]
  else [0xF0 + c / 262144; 0x80 + (c / 4096) mod 64; 0x80 + (c / 64) mod 64; 0x80 + c mod 64].

(** [new TextEncoder().encode(s)] *)
Definition utf8_encode (s : jsstr) : bytes := concat (map utf8_scalar (to_scalars s)).

(** State of the decoder between two bytes. *)
Record utf8_state := Utf8State { needed : nat; cp : Z; lower : Z; upper : Z }.
Definition utf8_init : utf8_state := Utf8State 0 0 0x80 0xBF.

Definition utf8_lead (b : Z) : list Z * utf8_state :=
  if b <=? 0x7F then ([b], utf8_init)
  else if (0xC2 <=? b) && (b <=? 0xDF) then ([], Utf8State 1 (b - 0xC0) 0x80 0xBF)
  else if (0xE0 <=? b) && (b <=? 0xEF) then
    ([], Utf8State 2 (b - 0xE0) (if b =? 0xE0 then 0xA0 else 0x80) (if b =? 0xED then 0x9F else 0xBF))
  else if (0xF0 <=? b) && (b <=? 0xF4) then
    ([], Utf8State 3 (b - 0xF0) (if b =? 0xF0 then 0x90 else 0x80) (if b =? 0xF4 then 0x8F else 0xBF))
  else ([REPLACEMENT], utf8_init).

Definition utf8_step (st : utf8_state) (b : Z) : list Z * utf8_state :=
  match needed st with
  | O => utf8_lead b
  | S k =>
      if (lower st <=? b) && (b <=? upper st) then
        let c := cp st * 64 + (b - 0x80) in
        match k with
        | O => ([c], utf8_init)
        | S _ => ([], Utf8State k c 0x80 0xBF)
        end
      else let '(out, st') := utf8_lead b in (REPLACEMENT :: out, st')
  end.

Fixpoint utf8_run (st : utf8_state) (bs : bytes) : list Z :=
  match bs with
  | [] => match needed st with O => [] | S _ => [REPLACEMENT] end
  | b :: bs' => let '(out, st') := utf8_step st b in out ++ utf8_run st' bs'
  end.

Definition strip_bom (cs : list Z) : list Z :=
  match cs with c :: cs' => if c =? BOM then cs' else cs | [] => [] end.

(** [new TextDecoder().decode(bs)] *)
Definition utf8_decode (bs : bytes) : jsstr := of_scalars (strip_bom (utf8_run utf8_init bs)).

Definition is_scalar (c : Z) : Prop :=
  0 <= c < 0x110000 ∧ ¬ (0xD800 <= c <= 0xDFFF).

Lemma utf8_lead_1 b : b <= 0x7F → utf8_lead b = ([b], utf8_init).
Proof. intros. unfold utf8_lead. by rewrite (proj2 (Z.leb_le b 127)) by lia. Qed.

Lemma utf8_lead_2 b : 0xC2 <= b <= 0xDF → utf8_lead b = ([], Utf8State 1 (b - 0xC0) 0x80 0xBF).
Proof.
  intros. unfold utf8_lead. rewrite (proj2 (Z.leb_gt b 127)) by lia.
  by rewrite !(proj2 (Z.leb_le _ _)) by lia.
Qed.

Lemma utf8_lead_3 b :
  0xE0 <= b <= 0xEF →
  utf8_lead b = ([], Utf8State 2 (b - 0xE0) (if b =? 0xE0 then 0xA0 else 0x80)
                                 (if b =? 0xED then 0x9F else 0xBF)).
Proof.
  intros. unfold utf8_lead.
  rewrite (proj2 (Z.leb_gt b 127)), (proj2 (Z.leb_gt b 223)), andb_false_r by lia.
  by rewrite !(proj2 (Z.leb_le _ _)) by lia.
Qed.

Lemma utf8_lead_4 b :
  0xF0 <= b <= 0xF4 →
  utf8_lead b = ([], Utf8State 3 (b - 0xF0) (if b =? 0xF0 then 0x90 else 0x80)
                                 (if b =? 0xF4 then 0x8F else 0xBF)).
Proof.
  intros. unfold utf8_lead.
  rewrite (proj2 (Z.leb_gt b 127)), (proj2 (Z.leb_gt b 223)), (proj2 (Z.leb_gt b 239)) by lia.
  rewrite !andb_false_r. by rewrite !(proj2 (Z.leb_le _ _)) by lia.
Qed.

(** A continuation byte in range extends the pending code point. *)
Lemma utf8_run_cont k c lo hi b bs :
  lo <= b <= hi →
  utf8_run (Utf8State (S k) c lo hi) (b :: bs) =
    match k with
    | O => (c * 64 + (b - 0x80)) :: utf8_run utf8_init bs
    | S _ => utf8_run (Utf8State k (c * 64 + (b - 0x80)) 0x80 0xBF) bs
    end.
Proof.
  intros. cbn [utf8_run]. unfold utf8_step. cbn [needed lower upper cp].
  rewrite !(proj2 (Z.leb_le _ _)) by lia. by destruct k.
Qed.

Lemma utf8_run_lead b bs :
  utf8_run utf8_init (b :: bs) = (utf8_lead b).1 ++ utf8_run (utf8_lead b).2 bs.
Proof. cbn [utf8_run]. unfold utf8_step. simpl. by destruct (utf8_lead b). Qed.

(** Feeding the bytes of one scalar value to the decoder emits it. *)
Lemma utf8_run_scalar c bs :
  is_scalar c → utf8_run utf8_init (utf8_scalar c ++ bs) = c :: utf8_run utf8_init bs.
Proof.
  intros [Hc Hs]. unfold utf8_scalar.
  destruct (Z.ltb_spec c 0x80); [|destruct (Z.ltb_spec c 0x800); [|destruct (Z.ltb_spec c 0x10000)]];
    cbn [app]; rewrite utf8_run_lead.
  - by rewrite utf8_lead_1 by lia.
  - rewrite utf8_lead_2 by lia. cbn [fst snd app]. rewrite utf8_run_cont by lia. f_equal. lia.
  - rewrite utf8_lead_3 by lia. cbn [fst snd app].
    rewrite utf8_run_cont by (repeat case_if; to_prop; lia).
    rewrite utf8_run_cont by lia. f_equal. lia.
  - rewrite utf8_lead_4 by lia. cbn [fst snd app].
    rewrite utf8_run_cont by (repeat case_if; to_prop; lia).
    rewrite !utf8_run_cont by lia. f_equal. lia.
Qed.

Lemma utf8_run_scalars cs :
  Forall is_scalar cs → utf8_run utf8_init (concat (map utf8_scalar cs)) = cs.
Proof.
  induction 1 as [|c cs Hc Hcs IH]; [done|]. simpl.
  rewrite utf8_run_scalar by done. by rewrite IH.
Qed.

(** Induction that follows the surrogate pairs of a string. *)
Lemma well_formed_ind (P : jsstr → Prop) :
  P [] →
  (∀ u s, is_high u = false → is_low u = false → 0 <= u < 0x10000 → well_formed s = true → P s → P (u :: s)) →
  (∀ u v s, is_high u = true → is_low v = true → well_formed s = true → P s → P (u :: v :: s)) →
  ∀ s, well_formed s = true → P s.
Proof.
  intros Hnil Hone Htwo s. remember (length s) as n eqn:Hn.
  revert s Hn. induction (lt_wf n) as [n _ IH]. intros s ->.
  destruct s as [|u s]; [done|]. simpl. destruct (is_high u) eqn:Hu.
  - destruct s as [|v s]; [done|]. intros Hw. to_prop.
    apply Htwo; try done. apply (IH (length s)); simpl; auto with lia.
  - intros Hw. to_prop. apply Hone; try done. apply (IH (length s)); simpl; auto with lia.
Qed.

Lemma to_scalars_scalar s : well_formed s = true → Forall is_scalar (to_scalars s).
Proof.
  revert s. apply well_formed_ind; simpl.
  - constructor.
  - intros u s Hh Hl Hr _ IH. rewrite Hh, Hl. constructor; [|done].
    unfold is_high, is_low in *. split; [lia|].
    intros ?. destruct (Z.leb_spec 0xDC00 u);
      rewrite ?(proj2 (Z.leb_le _ _)) in Hh, Hl by lia; simpl in *; try discriminate;
      destruct (Z.leb_spec u 0xDBFF), (Z.leb_spec u 0xDFFF); simpl in *; try discriminate; lia.
  - intros u v s Hh Hl _ IH. rewrite Hh, Hl. constructor; [|done].
    unfold is_high, is_low in *. to_prop. split; lia.
Qed.

Lemma of_to_scalars s : well_formed s = true → of_scalars (to_scalars s) = s.
Proof.
  unfold of_scalars. revert s. apply well_formed_ind; simpl.
  - done.
  - intros u s Hh Hl Hr _ IH. rewrite Hh, Hl. simpl. rewrite IH. unfold of_scalar.
    by rewrite (proj2 (Z.ltb_lt u 0x10000)) by lia.
  - intros u v s Hh Hl _ IH. rewrite Hh, Hl. simpl. rewrite IH. unfold of_scalar.
    unfold is_high, is_low in *. to_prop.
    rewrite (proj2 (Z.ltb_ge _ 0x10000)) by lia. simpl. do 2 f_equal; [lia|]. f_equal. lia.
Qed.

(** Strings the codec transports unchanged: no unpaired surrogate, and not
    starting with a byte-order mark, which the decoder drops. *)
Definition transportable (s : jsstr) : bool :=
  well_formed s && negb (starts_with [BOM] s).

Lemma strip_bom_scalars s : transportable s = true → strip_bom (to_scalars s) = to_scalars s.
Proof.
  unfold transportable. intros H. to_prop. destruct s as [|u s]; [done|].
  simpl in *. rewrite andb_true_r in *. to_prop.
  destruct (is_high u) eqn:Hu.
  - destruct s as [|v s]; [done|]. to_prop.
    destruct (is_low v) eqn:Hv; [|done]. simpl. unfold BOM, is_high, is_low in *.
    to_prop. by rewrite (proj2 (Z.eqb_neq _ _)) by lia.
  - to_prop. destruct (is_low u) eqn:Hl; [done|]. simpl.
    by rewrite (proj2 (Z.eqb_neq u BOM)) by lia.
Qed.

Lemma utf8_roundtrip s : transportable s = true → utf8_decode (utf8_encode s) = s.
Proof.
  intros H. unfold utf8_decode, utf8_encode.
  assert (well_formed s = true) by (unfold transportable in H; by to_prop).
  rewrite utf8_run_scalars by by apply to_scalars_scalar.
  rewrite strip_bom_scalars by done. by apply of_to_scalars.
Qed.

Lemma utf8_scalar_bytes c : 0 <= c < 0x110000 → Bytes (utf8_scalar c).
Proof.
  intros. unfold utf8_scalar. repeat case_if; to_prop;
    repeat apply Forall_cons_2; try apply Forall_nil_2; unfold is_byte; lia.
Qed.

(** Any string encodes to bytes: its units only have to be 16-bit. *)
Definition is_u16 (u : Z) : Prop := 0 <= u < 0x10000.

Lemma to_scalars_range s : Forall is_u16 s → Forall (λ c, 0 <= c < 0x110000) (to_scalars s).
Proof.
  remember (length s) as n eqn:Hn. revert s Hn.
  induction (lt_wf n) as [n _ IH]. intros s -> Hs.
  destruct s as [|u s]; [constructor|]. apply Forall_cons_iff in Hs as [Hu Hs]. unfold is_u16 in Hu.
  assert (IHs : Forall (λ c, 0 <= c < 0x110000) (to_scalars s)).
  { apply (IH (length s)); simpl; auto with lia. }
  simpl. destruct (is_high u) eqn:Hh.
  - destruct s as [|v s]; [repeat constructor; unfold REPLACEMENT; lia|].
    destruct (is_low v) eqn:Hl.
    + apply Forall_cons_iff in Hs as [_ Hs]. constructor.
      * unfold is_high, is_low in *. to_prop. lia.
      * apply (IH (length s)); simpl; auto with lia.
    + constructor; [unfold REPLACEMENT; lia|done].
  - constructor; [|done]. destruct (is_low u); unfold REPLACEMENT; lia.
Qed.

Lemma utf8_encode_bytes s : Forall is_u16 s → Bytes (utf8_encode s).
Proof.
  intros H. unfold utf8_encode. apply to_scalars_range in H.
  induction H as [|c cs Hc _ IH]; [constructor|]. simpl.
  apply Bytes_app; split; [by apply utf8_scalar_bytes | done].
Qed.

Lemma well_formed_u16 s : well_formed s = true → Forall is_u16 s.
Proof.
  revert s. apply well_formed_ind.
  - constructor.
  - intros. constructor; [done|done].
  - intros u v s Hu Hv _ IH. unfold is_high, is_low in *. to_prop.
    repeat constructor; unfold is_u16; try lia. done.
Qed.

Lemma utf8_encode_nil s : utf8_encode s = [] → s = [].
Proof.
  destruct s as [|u s]; [done|]. unfold utf8_encode. simpl.
  assert (H : ∀ c cs, concat (map utf8_scalar (c :: cs)) ≠ []).
  { intros c cs. simpl. unfold utf8_scalar. by repeat case_if. }
  destruct (is_high u); [|intros E; by apply H in E].
  destruct s as [|v s]; [intros E; by apply H in E|].
  destruct (is_low v); intros E; by apply H in E.
Qed.

(** ASCII text is its own encoding. *)
Definition is_ascii (c : Z) : bool := (0 <=? c) && (c <? 128).

Lemma to_scalars_ascii s : forallb is_ascii s = true → to_scalars s = s.
Proof.
  induction s as [|c s IH]; [done|]. cbn [forallb to_scalars]. intros H. to_prop.
  unfold is_ascii, is_high, is_low in *. to_prop.
  rewrite !(proj2 (Z.leb_gt _ c)) by lia. cbn [andb]. by rewrite IH.
Qed.

Lemma utf8_ascii s : forallb is_ascii s = true → utf8_encode s = s.
Proof.
  intros H. unfold utf8_encode. rewrite to_scalars_ascii by done.
  induction s as [|c s IH]; [done|]. simpl in *. to_prop. rewrite IH by done.
  unfold utf8_scalar, is_ascii in *. to_prop. by rewrite (proj2 (Z.ltb_lt c 0x80)) by lia.
Qed.

(** ** Decimal numerals: [String(n)] for an integer *)

Fixpoint dec_loop (fuel : nat) (n : Z) (acc : jsstr) : jsstr :=
  match fuel with
  | O => acc
  | S f =>
      let acc' := (48 + n mod 10) :: acc in
      if n / 10 =? 0 then acc' else dec_loop f (n / 10) acc'
  end.

Definition dec_nonneg (n : Z) : jsstr := dec_loop (S (Z.to_nat (Z.log2 n))) n [].
Definition dec (n : Z) : jsstr := if n <? 0 then 45 :: dec_nonneg (- n) else dec_nonneg n.

Definition dec_value (s : jsstr) : Z := fold_left (λ a c, a * 10 + (c - 48)) s 0.

(** [parseInt(s, 10)]: spaces, a sign, then digits; [None] is NaN. *)
Fixpoint leading_digits (s : jsstr) : jsstr :=
  match s with c :: s => if is_digit c then c :: leading_digits s else [] | [] => [] end.
Definition parse_digits (s : jsstr) : option Z :=
  match leading_digits s with [] => None | ds => Some (dec_value ds) end.
Definition parseInt10 (s : jsstr) : option Z :=
  match trim_start s with
  | 45 :: s => Z.opp <$> parse_digits s
  | 43 :: s => parse_digits s
  | s => parse_digits s
  end.

Lemma dec_value_app s k : dec_value (s ++ k) = fold_left (λ a c, a * 10 + (c - 48)) k (dec_value s).
Proof. unfold dec_value. by rewrite fold_left_app. Qed.

Lemma dec_loop_spec fuel n acc :
  0 <= n < 2 ^ Z.of_nat fuel → (fuel ≠ O) →
  ∃ d, dec_loop fuel n acc = d ++ acc ∧ dec_value d = n ∧ Forall (λ c, is_digit c = true) d ∧ d ≠ [].
Proof.
  assert (Hdig : ∀ m, is_digit (48 + m mod 10) = true).
  { intros m. unfold is_digit. apply andb_true_iff; split; apply Z.leb_le; lia. }
  revert n acc. induction fuel as [|f IH]; intros n acc Hn Hf; [done|]. cbn [dec_loop].
  destruct (Z.eqb_spec (n / 10) 0) as [E|E].
  - exists [48 + n mod 10]. repeat split; try done; [|by repeat constructor].
    unfold dec_value; simpl. lia.
  - assert (f ≠ O) as Hf' by (intros ->; simpl in Hn; lia).
    destruct (IH (n / 10) ((48 + n mod 10) :: acc)) as (d & Hd & Hv & Hall & Hne).
    { rewrite Nat2Z.inj_succ, Z.pow_succ_r in Hn by lia. lia. }
    { done. }
    exists (d ++ [48 + n mod 10]). rewrite Hd, <- app_assoc. repeat split; try done.
    + rewrite dec_value_app, Hv. simpl. lia.
    + apply Forall_app; split; [done|]. by repeat constructor.
    + by destruct d.
Qed.

Lemma dec_nonneg_spec n :
  0 <= n → dec_value (dec_nonneg n) = n ∧ Forall (λ c, is_digit c = true) (dec_nonneg n) ∧ dec_nonneg n ≠ [].
Proof.
  intros Hn. unfold dec_nonneg.
  destruct (dec_loop_spec (S (Z.to_nat (Z.log2 n))) n []) as (d & Hd & Hv & Hall & Hne); try done.
  - split; [done|]. destruct (Z.eq_dec n 0) as [->|]; [done|].
    pose proof (Z.log2_spec n). pose proof (Z.log2_nonneg n).
    rewrite Nat2Z.inj_succ, Z2Nat.id by lia. lia.
  - rewrite Hd, app_nil_r. done.
Qed.

(** ** Hexadecimal: [b.toString(16).padStart(2, '0')] and [parseInt(h, 16)] *)

Definition hex_digit (d : Z) : Z := if d <? 10 then 48 + d else 87 + d.
Definition hex_byte (b : Z) : jsstr := [hex_digit (b / 16); hex_digit (b mod 16)].
Definition hex_value (c : Z) : Z :=
  if is_digit c then c - 48
  else if (97 <=? c) && (c <=? 102) then c - 87
  else c - 55.
Definition is_hex (c : Z) : bool :=
  is_digit c || (97 <=? c) && (c <=? 102) || (65 <=? c) && (c <=? 70).

(** [Array.from(bytes, b => b.toString(16).padStart(2, '0')).join('')] *)
Definition bytesToHex (bs : bytes) : jsstr := concat (map hex_byte bs).

(** [parseInt(hex.slice(i, i+2), 16)] over the pairs of a hexadecimal string. *)
Fixpoint hexToBytes (h : jsstr) : bytes :=
  match h with
  | a :: b :: h' => (hex_value a * 16 + hex_value b) :: hexToBytes h'
  | _ => []
  end.

Lemma hex_value_digit d : 0 <= d < 16 → hex_value (hex_digit d) = d.
Proof.
  intros. unfold hex_value, hex_digit, is_digit. destruct (Z.ltb_spec d 10).
  - rewrite !(proj2 (Z.leb_le _ _)) by lia. simpl. lia.
  - rewrite (proj2 (Z.leb_le 48 _)), (proj2 (Z.leb_gt _ 57)) by lia. simpl.
    rewrite !(proj2 (Z.leb_le _ _)) by lia. simpl. lia.
Qed.

Lemma hex_roundtrip bs : Bytes bs → hexToBytes (bytesToHex bs) = bs.
Proof.
  induction 1 as [|b bs Hb _ IH]; [done|]. unfold bytesToHex in *. simpl. rewrite IH.
  unfold is_byte in Hb. rewrite !hex_value_digit by lia. f_equal. lia.
Qed.

Lemma is_hex_digit d : 0 <= d < 16 → is_hex (hex_digit d) = true.
Proof.
  intros. unfold is_hex, hex_digit, is_digit. destruct (Z.ltb_spec d 10).
  - by rewrite !(proj2 (Z.leb_le _ _)) by lia.
  - rewrite (proj2 (Z.leb_gt _ 57)), !(proj2 (Z.leb_le _ _)) by lia. done.
Qed.

Lemma bytesToHex_length bs : length (bytesToHex bs) = (2 * length bs)%nat.
Proof. induction bs as [|b bs IH]; [done|]. unfold bytesToHex in *. simpl. lia. Qed.

Lemma bytesToHex_hex bs : Bytes bs → Forall (λ c, is_hex c = true) (bytesToHex bs).
Proof.
  induction 1 as [|b bs Hb _ IH]; [constructor|]. unfold bytesToHex in *. simpl.
  unfold is_byte in Hb. repeat constructor; try (apply is_hex_digit; lia). done.
Qed.
