(* ===== verification/Json.v ===== *)
(** * JSON: values, [JSON.stringify] and [JSON.parse]

    Part of the language.  A value is a tree; an object is the list of its own
    properties in enumeration order.  [ser] is the serialisation of the language,
    compact or indented, [parse] the grammar of [JSON.parse]. *)
From S2P Require Import Prelude JsRuntime JsText.

(** ** Values *)

(** A number: a safe integer, or the text of another double as the language
    prints it. *)
Inductive jnum := Int (n : Z) | Float (lit : jsstr).

Inductive json :=
| JNull
| JBool (b : bool)
| JNum (n : jnum)
| JStr (s : jsstr)
| JArr (l : list json)
| JObj (l : list (jsstr * json)).

#[export] Instance jnum_eq_dec : EqDecision jnum.
Proof. solve_decision. Defined.

Section json_ind.
Context (P : json → Prop).
Context (Hnull : P JNull) (Hbool : ∀ b, P (JBool b)) (Hnum : ∀ n, P (JNum n)) (Hstr : ∀ s, P (JStr s)).
Context (Harr : ∀ l, Forall P l → P (JArr l)) (Hobj : ∀ l, Forall (λ kv, P kv.2) l → P (JObj l)).

Fixpoint json_ind' (j : json) : P j :=
  match j with
  | JNull => Hnull
  | JBool b => Hbool b
  | JNum n => Hnum n
  | JStr s => Hstr s
  | JArr l => Harr l ((fix go l : Forall P l :=
      match l with [] => List.Forall_nil _ | x :: l' => List.Forall_cons _ _ _ (json_ind' x) (go l') end) l)
  | JObj l => Hobj l ((fix go l : Forall (λ kv, P kv.2) l :=
      match l with [] => List.Forall_nil _ | x :: l' => List.Forall_cons _ _ _ (json_ind' x.2) (go l') end) l)
  end.
End json_ind.

Fixpoint json_eqb (a b : json) {struct a} : bool :=
  match a, b with
  | JNull, JNull => true
  | JBool x, JBool y => Bool.eqb x y
  | JNum x, JNum y => bool_decide (x = y)
  | JStr x, JStr y => bool_decide (x = y)
  | JArr x, JArr y =>
      (fix go x y := match x, y with
                     | [], [] => true
                     | a :: x', b :: y' => json_eqb a b && go x' y'
                     | _, _ => false
                     end) x y
  | JObj x, JObj y =>
      (fix go (x y : list (jsstr * json)) :=
         match x, y with
         | [], [] => true
         | (k, a) :: x', (k', b) :: y' => bool_decide (k = k') && json_eqb a b && go x' y'
         | _, _ => false
         end) x y
  | _, _ => false
  end.

Lemma json_eqb_eq a b : json_eqb a b = true ↔ a = b.
Proof.
  revert b. induction a as [|x|x|x|x IH|x IH] using json_ind'; intros [|y|y|y|y|y]; cbn; try (split; done).
  - rewrite eqb_true_iff. naive_solver.
  - rewrite bool_decide_eq_true. naive_solver.
  - rewrite bool_decide_eq_true. naive_solver.
  - revert y. induction IH as [|a x Ha _ IHx]; intros [|b y]; try (split; done).
    rewrite andb_true_iff, Ha, IHx. naive_solver.
  - revert y. induction IH as [|[k a] x Ha _ IHx]; intros [|[k' b] y]; try (split; done).
    rewrite !andb_true_iff, bool_decide_eq_true, Ha, IHx. cbn. naive_solver.
Qed.

#[export] Instance json_eq_dec : EqDecision json.
Proof.
  intros a b. destruct (json_eqb a b) eqn:E; [left; by apply json_eqb_eq|right].
  intros Hab. apply json_eqb_eq in Hab. congruence.
Defined.

(** ** Reading values *)

Fixpoint lookup_key (k : jsstr) (l : list (jsstr * json)) : option json :=
  match l with [] => None | (k', v) :: l' => if str_eqb k k' then Some v else lookup_key k l' end.

(** [v.k]; [None] is [undefined].  Reading a property of [null] throws: callers
    use it where the code has tested the value or uses [?.]. *)
Definition prop (k : string) (v : json) : option json :=
  match v with JObj l => lookup_key (js k) l | _ => None end.

(** [v?.k] on a value that may be [undefined]. *)
Definition opt_prop (k : string) (v : option json) : option json := v ≫= prop k.

(** [typeof v === 'string'] and the string. *)
Definition as_string (v : option json) : option jsstr :=
  match v with Some (JStr s) => Some s | _ => None end.

Definition as_bool (v : option json) : option bool :=
  match v with Some (JBool b) => Some b | _ => None end.

Definition as_array (v : option json) : option (list json) :=
  match v with Some (JArr l) => Some l | _ => None end.

Definition truthy (v : option json) : bool :=
  match v with
  | None | Some JNull => false
  | Some (JBool b) => b
  | Some (JNum (Int n)) => negb (n =? 0)
  | Some (JNum (Float _)) => true
  | Some (JStr s) => negb (str_empty s)
  | Some (JArr _) | Some (JObj _) => true
  end.

(** [a ?? b] *)
Definition nullish (a : option json) (b : json) : json :=
  match a with None | Some JNull => b | Some v => v end.

(** [v === true] *)
Definition is_true (v : option json) : bool := match v with Some (JBool true) => true | _ => false end.
Definition is_false (v : option json) : bool := match v with Some (JBool false) => true | _ => false end.

(** ** Properties of an object, in enumeration order *)

(** A canonical array index: such keys come first, in ascending order. *)
Definition index_of_key (k : jsstr) : option Z :=
  let n := dec_value k in
  if forallb is_digit k && negb (str_empty k) && str_eqb (dec n) k && (n <? 2 ^ 32 - 1) then Some n else None.

(** The place of a new index key. *)
Fixpoint put_index (n : Z) (k : jsstr) (v : json) (l : list (jsstr * json)) : list (jsstr * json) :=
  match l with
  | [] => [(k, v)]
  | (k', v') :: l' =>
      match index_of_key k' with
      | Some n' => if n' <? n then (k', v') :: put_index n k v l' else (k, v) :: l
      | None => (k, v) :: l
      end
  end.

Fixpoint replace_key (k : jsstr) (v : json) (l : list (jsstr * json)) : option (list (jsstr * json)) :=
  match l with
  | [] => None
  | (k', v') :: l' => if str_eqb k k' then Some ((k', v) :: l') else cons (k', v') <$> replace_key k v l'
  end.

(** [o[k] = v] *)
Definition put (k : jsstr) (v : json) (l : list (jsstr * json)) : list (jsstr * json) :=
  match replace_key k v l with
  | Some l' => l'
  | None => match index_of_key k with Some n => put_index n k v l | None => l ++ [(k, v)] end
  end.

Definition build (l : list (jsstr * json)) : list (jsstr * json) := fold_left (λ acc kv, put kv.1 kv.2 acc) l [].

(** ** [JSON.stringify] *)

Definition hex4 (c : Z) : jsstr :=
  [hex_digit (c / 4096 mod 16); hex_digit (c / 256 mod 16); hex_digit (c / 16 mod 16); hex_digit (c mod 16)].

Definition u_escape (c : Z) : jsstr := js "\u" ++ hex4 c.

(** A unit that is no surrogate. *)
Definition quote_unit (c : Z) : jsstr :=
  if c =? 8 then js "\b" else if c =? 9 then js "\t" else if c =? 10 then js "\n" else if c =? 12 then js "\f"
  else if c =? 13 then js "\r" else if c =? 34 then [92; 34] else if c =? 92 then [92; 92]
  else if c <? 32 then u_escape c else [c].

Fixpoint quote_units (s : jsstr) : jsstr :=
  match s with
  | [] => []
  | c :: s' =>
      if is_high c then
        match s' with
        | d :: s'' => if is_low d then c :: d :: quote_units s'' else u_escape c ++ quote_units s'
        | [] => u_escape c
        end
      else if is_low c then u_escape c ++ quote_units s'
      else quote_unit c ++ quote_units s'
  end.

Definition quote (s : jsstr) : jsstr := [34] ++ quote_units s ++ [34].

Definition num_text (n : jnum) : jsstr := match n with Int z => dec z | Float lit => lit end.

(** The separators of one level: [gap] is the third argument, [ind] the
    indentation of the enclosing level. *)
Definition wrap (gap ind : jsstr) (opening closing : Z) (items : list jsstr) : jsstr :=
  match items, gap with
  | [], _ => [opening; closing]
  | _, [] => [opening] ++ join_unit [44] items ++ [closing]
  | _, _ => [opening; 10] ++ (ind ++ gap) ++ join_unit ([44; 10] ++ ind ++ gap) items ++ [10] ++ ind ++ [closing]
  end.

Definition colon (gap : jsstr) : jsstr := match gap with [] => [58] | _ => [58; 32] end.

Fixpoint ser (gap ind : jsstr) (j : json) : jsstr :=
  match j with
  | JNull => js "null"
  | JBool b => if b then js "true" else js "false"
  | JNum n => num_text n
  | JStr s => quote s
  | JArr l => wrap gap ind 91 93 (map (ser gap (ind ++ gap)) l)
  | JObj l => wrap gap ind 123 125 (map (λ kv, quote kv.1 ++ colon gap ++ ser gap (ind ++ gap) kv.2) l)
  end.

(** [JSON.stringify(j)] and [JSON.stringify(j, null, 2)] *)
Definition stringify (j : json) : jsstr := ser [] [] j.
Definition stringify_2 (j : json) : jsstr := ser (js "  ") [] j.

(** ** [JSON.parse] *)

(** The number of a literal that is no safe integer. *)
Class JsFloat := { to_number : jsstr → jnum }.

Definition is_json_space (c : Z) : bool := (c =? 32) || (c =? 9) || (c =? 10) || (c =? 13).

Fixpoint skip (s : jsstr) : jsstr :=
  match s with c :: s' => if is_json_space c then skip s' else s | [] => [] end.

Definition unescape (c : Z) : option Z :=
  if c =? 34 then Some 34 else if c =? 92 then Some 92 else if c =? 47 then Some 47
  else if c =? 98 then Some 8 else if c =? 102 then Some 12 else if c =? 110 then Some 10
  else if c =? 114 then Some 13 else if c =? 116 then Some 9 else None.

(** The body of a string after its opening quote, and the rest. *)
Fixpoint string_body (s : jsstr) : option (jsstr * jsstr) :=
  match s with
  | [] => None
  | c :: s' =>
      if c =? 34 then Some ([], s')
      else if c =? 92 then
        match s' with
        | 117 :: a :: b :: d :: e :: s'' =>
            if is_hex a && is_hex b && is_hex d && is_hex e then
              '(t, r) ← string_body s'';
              Some (hex_value a * 4096 + hex_value b * 256 + hex_value d * 16 + hex_value e :: t, r)
            else None
        | k :: s'' => x ← unescape k; '(t, r) ← string_body s''; Some (x :: t, r)
        | [] => None
        end
      else if c <? 32 then None
      else '(t, r) ← string_body s'; Some (c :: t, r)
  end.

Definition is_num_unit (c : Z) : bool := is_digit c || (c =? 45) || (c =? 43) || (c =? 46) || (c =? 101) || (c =? 69).

Fixpoint span_num (s : jsstr) : jsstr * jsstr :=
  match s with
  | c :: s' => if is_num_unit c then let '(a, r) := span_num s' in (c :: a, r) else ([], s)
  | [] => ([], [])
  end.

Fixpoint drop_digits (s : jsstr) : jsstr :=
  match s with c :: s' => if is_digit c then drop_digits s' else s | [] => [] end.

Definition digits1 (s : jsstr) : option jsstr :=
  match s with c :: s' => if is_digit c then Some (drop_digits s') else None | [] => None end.

(** The grammar of numbers: a sign, [0] or digits with no leading zero, a
    fraction, an exponent. *)
Definition int_part (s : jsstr) : option jsstr :=
  match s with
  | c :: s' => if c =? 48 then Some s' else if is_digit c then Some (drop_digits s') else None
  | [] => None
  end.
Definition minus_part (s : jsstr) : jsstr := match s with c :: s' => if c =? 45 then s' else s | [] => [] end.
Definition frac_part (s : jsstr) : option jsstr :=
  match s with c :: s' => if c =? 46 then digits1 s' else Some s | [] => Some [] end.
Definition exp_part (s : jsstr) : option jsstr :=
  match s with
  | c :: s' =>
      if (c =? 101) || (c =? 69) then
        match s' with d :: s'' => if (d =? 43) || (d =? 45) then digits1 s'' else digits1 s' | [] => None end
      else Some s
  | [] => Some []
  end.

Definition is_number (lit : jsstr) : bool :=
  match (r ← int_part (minus_part lit); r ← frac_part r; exp_part r) with Some [] => true | _ => false end.

Definition signed_value (lit : jsstr) : Z :=
  match lit with c :: s => if c =? 45 then - dec_value s else dec_value lit | [] => 0 end.

Definition MAX_SAFE : Z := 2 ^ 53 - 1.

Definition is_int_text (lit : jsstr) : bool :=
  forallb is_digit (minus_part lit) && (Z.abs (signed_value lit) <=? MAX_SAFE).

Definition number_of `{JsFloat} (lit : jsstr) : option json :=
  if is_number lit then Some (JNum (if is_int_text lit then Int (signed_value lit) else to_number lit)) else None.

Fixpoint strip_prefix (p s : jsstr) : option jsstr :=
  match p, s with
  | [], _ => Some s
  | c :: p', d :: s' => if c =? d then strip_prefix p' s' else None
  | _, _ => None
  end.

Section parse.
Context `{JsFloat}.

Fixpoint parse_value (f : nat) (s : jsstr) : option (json * jsstr) :=
  match f with
  | O => None
  | S f =>
      match skip s with
      | 34 :: r => '(x, r) ← string_body r; Some (JStr x, r)
      | 91 :: r => match skip r with 93 :: r' => Some (JArr [], r') | _ => parse_elems f [] r end
      | 123 :: r => match skip r with 125 :: r' => Some (JObj [], r') | _ => parse_members f [] r end
      | 110 :: _ => r ← strip_prefix (js "null") (skip s); Some (JNull, r)
      | 116 :: _ => r ← strip_prefix (js "true") (skip s); Some (JBool true, r)
      | 102 :: _ => r ← strip_prefix (js "false") (skip s); Some (JBool false, r)
      | _ => let '(lit, r) := span_num (skip s) in v ← number_of lit; Some (v, r)
      end
  end
with parse_elems (f : nat) (acc : list json) (s : jsstr) : option (json * jsstr) :=
  match f with
  | O => None
  | S f =>
      '(v, r) ← parse_value f s;
      match skip r with
      | 44 :: r' => parse_elems f (acc ++ [v]) r'
      | 93 :: r' => Some (JArr (acc ++ [v]), r')
      | _ => None
      end
  end
with parse_members (f : nat) (acc : list (jsstr * json)) (s : jsstr) : option (json * jsstr) :=
  match f with
  | O => None
  | S f =>
      match skip s with
      | 34 :: r =>
          '(k, r) ← string_body r;
          match skip r with
          | 58 :: r' =>
              '(v, r) ← parse_value f r';
              match skip r with
              | 44 :: r' => parse_members f (put k v acc) r'
              | 125 :: r' => Some (JObj (put k v acc), r')
              | _ => None
              end
          | _ => None
          end
      | _ => None
      end
  end.

(** Every turn consumes a unit, so two units of fuel per unit of text are enough. *)
Definition parse (s : jsstr) : option json :=
  '(v, r) ← parse_value (2 * length s + 2) s; match skip r with [] => Some v | _ => None end.
End parse.
