(* ===== verification/JsonSpec.v ===== *)
(** * [JSON.parse] inverts [JSON.stringify]

    For every value the language can hold, compact or indented; in particular
    [JSON.stringify] is injective. *)
From S2P Require Import Prelude JsRuntime JsText Json.

(** ** Strings *)

Lemma hex4_parts c :
  is_u16 c →
  is_hex (hex_digit (c / 4096 mod 16)) && is_hex (hex_digit (c / 256 mod 16)) &&
  is_hex (hex_digit (c / 16 mod 16)) && is_hex (hex_digit (c mod 16)) = true ∧
  hex_value (hex_digit (c / 4096 mod 16)) * 4096 + hex_value (hex_digit (c / 256 mod 16)) * 256
    + hex_value (hex_digit (c / 16 mod 16)) * 16 + hex_value (hex_digit (c mod 16)) = c.
Proof.
  intros Hc. rewrite !hex_value_digit, !is_hex_digit by lia. split; [done|]. unfold is_u16 in Hc. lia.
Qed.

Lemma string_body_u_escape c r : is_u16 c → string_body (u_escape c ++ r) = '(t, r) ← string_body r; Some (c :: t, r).
Proof.
  intros Hc. destruct (hex4_parts c Hc) as [Hh Hv]. unfold u_escape.
  change ((js "\u" ++ hex4 c) ++ r) with
    (92 :: 117 :: hex_digit (c / 4096 mod 16) :: hex_digit (c / 256 mod 16) :: hex_digit (c / 16 mod 16) :: hex_digit (c mod 16) :: r).
  cbn [string_body]. change (92 =? 34) with false. change (92 =? 92) with true. cbv iota. by rewrite Hh, Hv.
Qed.

Lemma string_body_raw c r :
  c ≠ 34 → c ≠ 92 → 32 <= c → string_body (c :: r) = '(t, r) ← string_body r; Some (c :: t, r).
Proof.
  intros. cbn [string_body]. by rewrite (proj2 (Z.eqb_neq c 34)), (proj2 (Z.eqb_neq c 92)), (proj2 (Z.ltb_ge c 32)) by done.
Qed.

Lemma string_body_unit c r :
  is_u16 c → string_body (quote_unit c ++ r) = '(t, r) ← string_body r; Some (c :: t, r).
Proof.
  intros Hc. unfold quote_unit.
  repeat match goal with |- context [if ?a =? ?b then _ else _] => destruct (Z.eqb_spec a b); [subst; reflexivity|] end.
  destruct (Z.ltb_spec c 32); [by apply string_body_u_escape|]. by apply string_body_raw.
Qed.

Lemma string_body_quote s r : Forall is_u16 s → string_body (quote_units s ++ 34 :: r) = Some (s, r).
Proof.
  remember (length s) as n eqn:En. revert s En. induction (lt_wf n) as [n _ IH]. intros s -> Hs.
  destruct s as [|c s]; [done|]. inversion Hs as [|? ? Hc Hs']; subst. cbn [quote_units].
  assert (Hrest : string_body (quote_units s ++ 34 :: r) = Some (s, r)) by (by apply (IH (length s)); [cbn; lia|..]).
  destruct (is_high c) eqn:Eh.
  - unfold is_high in Eh. to_prop. destruct s as [|d s].
    { rewrite string_body_u_escape by done. reflexivity. }
    destruct (is_low d) eqn:El.
    + unfold is_low in El. to_prop. inversion Hs'; subst. cbn [app].
      rewrite !string_body_raw by lia. rewrite (IH (length s)); [done|cbn; lia|done|done].
    + rewrite <- app_assoc, string_body_u_escape by done. by rewrite Hrest.
  - destruct (is_low c).
    + rewrite <- app_assoc, string_body_u_escape by done. by rewrite Hrest.
    + rewrite <- app_assoc, string_body_unit by done. by rewrite Hrest.
Qed.

(** ** Numbers *)

#[local] Arguments dec_nonneg : simpl never.
#[local] Arguments dec_value : simpl never.

(** What may follow a number. *)
Definition stops (r : jsstr) : Prop := match r with [] => True | c :: _ => is_num_unit c = false end.

Lemma span_num_app lit r : forallb is_num_unit lit = true → stops r → span_num (lit ++ r) = (lit, r).
Proof.
  intros Hl Hr. induction lit as [|c lit IH]; cbn.
  - destruct r as [|c r]; [done|]. cbn in *. by rewrite Hr.
  - cbn in Hl. to_prop. rewrite H. by rewrite IH.
Qed.

Lemma digit_num c : is_digit c = true → is_num_unit c = true.
Proof. unfold is_num_unit. by intros ->. Qed.

Lemma digits_num s : forallb is_digit s = true → forallb is_num_unit s = true.
Proof. induction s as [|c s IH]; cbn; [done|]. intros. to_prop. rewrite digit_num, IH; done. Qed.

Lemma drop_digits_all s : forallb is_digit s = true → drop_digits s = [].
Proof. induction s as [|c s IH]; cbn; [done|]. intros. to_prop. rewrite H. by apply IH. Qed.

(** The decimal text of a natural number. *)
Definition dec_text (s : jsstr) : Prop :=
  forallb is_digit s = true ∧ s ≠ [] ∧ (head s = Some 48 → s = [48]).

Lemma dec_loop_head fuel n acc :
  0 < n < 2 ^ Z.of_nat fuel → ∃ c d, dec_loop fuel n acc = c :: d ∧ c ≠ 48.
Proof.
  revert n acc. induction fuel as [|f IH]; intros n acc Hn; [cbn in Hn; lia|]. cbn [dec_loop].
  destruct (Z.eqb_spec (n / 10) 0) as [E|E].
  - exists (48 + n mod 10), acc. split; [done|lia].
  - apply IH. rewrite Nat2Z.inj_succ, Z.pow_succ_r in Hn by lia. lia.
Qed.

Lemma dec_nonneg_text n : 0 <= n → dec_text (dec_nonneg n) ∧ dec_value (dec_nonneg n) = n.
Proof.
  intros Hn. destruct (dec_nonneg_spec n Hn) as (Hv & Hd & Hne). split; [|done]. split_and!; [|done|].
  - apply forallb_forall. rewrite List.Forall_forall in Hd. exact Hd.
  - destruct (Z.eq_dec n 0) as [->|]; [done|]. unfold dec_nonneg in *.
    destruct (dec_loop_head (S (Z.to_nat (Z.log2 n))) n []) as (c & d & E & Hc).
    { pose proof (Z.log2_spec n). pose proof (Z.log2_nonneg n). rewrite Nat2Z.inj_succ, Z2Nat.id by lia. lia. }
    rewrite E. cbn. congruence.
Qed.

Lemma dec_text_int s : dec_text s → int_part s = Some [].
Proof.
  intros (Hd & Hne & Hz). destruct s as [|c s]; [done|]. cbn in *. destruct (Z.eqb_spec c 48) as [->|].
  - specialize (Hz eq_refl). injection Hz as ->. done.
  - to_prop. rewrite H. by rewrite drop_digits_all.
Qed.

Lemma digit_head s : dec_text s → ∃ c t, s = c :: t ∧ is_digit c = true.
Proof. intros (Hd & Hne & _). destruct s as [|c t]; [done|]. cbn in Hd. to_prop. eauto. Qed.

Lemma dec_number n :
  is_number (dec n) = true ∧ forallb is_digit (minus_part (dec n)) = true ∧ signed_value (dec n) = n ∧
  forallb is_num_unit (dec n) = true.
Proof.
  unfold dec, is_number. destruct (Z.ltb_spec n 0).
  - destruct (dec_nonneg_text (- n)) as [Ht Hv]; [lia|]. cbn [minus_part signed_value forallb].
    change (45 =? 45) with true. cbv iota. rewrite dec_text_int by done. cbn. rewrite Hv.
    split_and!; [done|apply Ht|lia|apply digits_num, Ht].
  - destruct (dec_nonneg_text n) as [Ht Hv]; [lia|]. destruct (digit_head _ Ht) as (c & t & E & Hc).
    assert (Hm : (c =? 45) = false) by (unfold is_digit in Hc; to_prop; apply Z.eqb_neq; lia).
    assert (minus_part (dec_nonneg n) = dec_nonneg n) as -> by (rewrite E; cbn; by rewrite Hm).
    rewrite dec_text_int by done. cbn. split_and!; [done|apply Ht| |apply digits_num, Ht].
    rewrite <- Hv at 2. rewrite E. cbn [signed_value]. by rewrite Hm.
Qed.

(** ** Values *)

Section roundtrip.
Context `{JsFloat}.

(** A number the language can hold. *)
Definition num_ok (n : jnum) : bool :=
  match n with
  | Int z => Z.abs z <=? MAX_SAFE
  | Float lit => is_number lit && forallb is_num_unit lit && negb (is_int_text lit) && bool_decide (to_number lit = Float lit)
  end.

Definition text_ok (s : jsstr) : bool := forallb (λ c, (0 <=? c) && (c <? 65536)) s.

(** A value the language can hold: strings of UTF-16 units, properties in
    enumeration order with no key twice. *)
Fixpoint json_ok (j : json) : bool :=
  match j with
  | JNull | JBool _ => true
  | JNum n => num_ok n
  | JStr s => text_ok s
  | JArr l => forallb json_ok l
  | JObj l => bool_decide (build l = l) && forallb (λ kv, text_ok kv.1 && json_ok kv.2) l
  end.

Lemma text_ok_u16 s : text_ok s = true → Forall is_u16 s.
Proof.
  unfold text_ok, is_u16. intros Hs. apply List.Forall_forall. intros c Hc.
  rewrite forallb_forall in Hs. specialize (Hs c Hc). cbn in Hs. to_prop. lia.
Qed.

Lemma num_roundtrip n :
  num_ok n = true → number_of (num_text n) = Some (JNum n) ∧ forallb is_num_unit (num_text n) = true.
Proof.
  unfold number_of. destruct n as [z|lit]; cbn [num_ok num_text]; intros Hn.
  - destruct (dec_number z) as (-> & Hd & Hv & Hu). unfold is_int_text. by rewrite Hd, Hv, Hn.
  - to_prop. rewrite H0, H1. by rewrite H2, H3.
Qed.

(** Fuel for one value. *)
Fixpoint cost (j : json) : nat :=
  match j with
  | JArr l => 1 + list_sum (map (λ x, 1 + cost x)%nat l)
  | JObj l => 1 + list_sum (map (λ kv, 1 + cost kv.2)%nat l)
  | _ => 1
  end.

Definition spaces (s : jsstr) : Prop := forallb is_json_space s = true.

Lemma skip_app ws s : spaces ws → skip (ws ++ s) = skip s.
Proof. unfold spaces. induction ws as [|c ws IH]; cbn; [done|]. intros. to_prop. rewrite H0. by apply IH. Qed.

Lemma spaces_app a b : spaces a → spaces b → spaces (a ++ b).
Proof. unfold spaces. intros. rewrite forallb_app. by apply andb_true_intro. Qed.

(** The first unit of a number. *)
Lemma num_head n : num_ok n = true → ∃ c t, num_text n = c :: t ∧ (is_digit c = true ∨ c = 45).
Proof.
  intros Hn. destruct (num_roundtrip n Hn) as [E _]. unfold number_of in E.
  destruct (is_number (num_text n)) eqn:En; [|done]. unfold is_number in En.
  destruct (num_text n) as [|c t]; [done|]. exists c, t. split; [done|]. cbn [minus_part] in En.
  destruct (Z.eqb_spec c 45); [by right|left]. cbn [int_part] in En.
  destruct (Z.eqb_spec c 48) as [->|]; [done|]. by destruct (is_digit c).
Qed.

Lemma parse_num f n r :
  num_ok n = true → stops r → parse_value (S f) (num_text n ++ r) = Some (JNum n, r).
Proof.
  intros Hn Hr. destruct (num_roundtrip n Hn) as [En Eu]. destruct (num_head n Hn) as (c & t & Et & Hc).
  assert (Hs : skip (num_text n ++ r) = num_text n ++ r).
  { rewrite Et. cbn. assert (is_json_space c = false) as ->; [|done].
    unfold is_json_space, is_digit in *. destruct Hc as [Hc| ->]; [|done]. to_prop.
    rewrite (proj2 (Z.eqb_neq c 32)), (proj2 (Z.eqb_neq c 9)), (proj2 (Z.eqb_neq c 10)), (proj2 (Z.eqb_neq c 13)) by lia. done. }
  cbn [parse_value]. rewrite Hs.
  assert (Hgen : (let '(lit, r0) := span_num (num_text n ++ r) in v ← number_of lit; Some (v, r0)) = Some (JNum n, r)).
  { rewrite span_num_app by done. by rewrite En. }
  rewrite Et in *. cbn [app] in *.
  destruct Hc as [Hc| ->]; [|exact Hgen]. unfold is_digit in Hc. to_prop.
  assert (Hcs : c = 48 ∨ c = 49 ∨ c = 50 ∨ c = 51 ∨ c = 52 ∨ c = 53 ∨ c = 54 ∨ c = 55 ∨ c = 56 ∨ c = 57) by lia.
  destruct_or! Hcs; subst c; exact Hgen.
Qed.

Lemma parse_value_skip f ws s : spaces ws → parse_value f (ws ++ s) = parse_value f s.
Proof. intros Hw. destruct f as [|f]; [done|]. cbn [parse_value]. by rewrite skip_app. Qed.

Lemma space_stops ws c r : spaces ws → is_num_unit c = false → stops (ws ++ c :: r).
Proof.
  intros Hw Hc. destruct ws as [|d ws]; [done|]. unfold spaces in Hw. cbn in *. to_prop.
  unfold is_json_space in *. repeat (apply orb_prop in H0 as [H0|H0]); to_prop; by subst d.
Qed.

Lemma quote_head s : ∃ t, quote s = 34 :: t.
Proof. by eexists. Qed.

Lemma wrap_head gap ind o c items : ∃ t, wrap gap ind o c items = o :: t.
Proof. unfold wrap. destruct items, gap; by eexists. Qed.

Lemma ser_head gap ind j : json_ok j = true → ∃ c t, ser gap ind j = c :: t ∧ is_json_space c = false ∧ c ≠ 93.
Proof.
  destruct j as [|[]|n|s|l|l]; cbn [ser json_ok]; intros Hj; try (eexists _, _; split; [reflexivity|]; done).
  - destruct (num_head n Hj) as (c & t & -> & Hc). exists c, t. split; [done|].
    unfold is_json_space, is_digit in *. destruct Hc as [Hc| ->]; [|done]. to_prop.
    rewrite (proj2 (Z.eqb_neq c 32)), (proj2 (Z.eqb_neq c 9)), (proj2 (Z.eqb_neq c 10)), (proj2 (Z.eqb_neq c 13)) by lia.
    split; [done|lia].
  - destruct (wrap_head gap ind 91 93 (map (ser gap (ind ++ gap)) l)) as [t ->]. by eexists _, _.
  - destruct (wrap_head gap ind 123 125 (map (λ kv, quote kv.1 ++ colon gap ++ ser gap (ind ++ gap) kv.2) l)) as [t ->].
    by eexists _, _.
Qed.

Lemma wrap_shape gap ind o c items :
  spaces gap → spaces ind → items ≠ [] →
  ∃ w1 w2, spaces w1 ∧ spaces w2 ∧ wrap gap ind o c items = [o] ++ (w1 ++ join_unit (44 :: w1) items ++ w2 ++ [c]).
Proof.
  intros Hg Hi Hne. destruct items as [|x items]; [done|]. destruct gap as [|g gap].
  - by exists [], [].
  - exists (10 :: ind ++ g :: gap), (10 :: ind). split_and!.
    + change (spaces ([10] ++ ind ++ g :: gap)). by repeat apply spaces_app.
    + change (spaces ([10] ++ ind)). by apply spaces_app.
    + reflexivity.
Qed.

(** The statement for one value. *)
Definition reads_back (gap ind : jsstr) (j : json) : Prop :=
  ∀ f r, json_ok j = true → (cost j <= f)%nat → stops r → parse_value f (ser gap ind j ++ r) = Some (j, r).

Lemma elems_read_back gap ind w1 w2 l acc f r :
  spaces w1 → spaces w2 → l ≠ [] → Forall (reads_back gap ind) l → forallb json_ok l = true →
  (list_sum (map (λ x, 1 + cost x) l) <= f)%nat →
  parse_elems f acc (w1 ++ join_unit (44 :: w1) (map (ser gap ind) l) ++ w2 ++ 93 :: r) = Some (JArr (acc ++ l), r).
Proof.
  intros H1 H2 Hne Hall. revert acc f. induction Hall as [|x l Hx _ IH]; intros acc f Hok Hf; [done|].
  cbn in Hok, Hf. to_prop. destruct f as [|f]; [lia|]. cbn [parse_elems]. rewrite parse_value_skip by done.
  destruct l as [|y l]; cbn [map join_unit].
  - rewrite Hx; [|done|cbn in Hf; lia|by apply space_stops]. cbn [mbind option_bind]. by rewrite skip_app.
  - rewrite <- app_assoc. cbn [app]. rewrite Hx; [|done|cbn in *; lia|done]. cbn [mbind option_bind skip].
    change (is_json_space 44) with false. cbv iota. rewrite <- app_assoc.
    change (parse_elems f (acc ++ [x]) (w1 ++ join_unit (44 :: w1) (map (ser gap ind) (y :: l)) ++ w2 ++ 93 :: r)
            = Some (JArr (acc ++ x :: y :: l), r)).
    rewrite IH; [|done|done|cbn in *; lia]. by rewrite <- app_assoc.
Qed.

Lemma members_read_back gap ind w1 w2 l acc f r :
  spaces w1 → spaces w2 → spaces gap → l ≠ [] → Forall (λ kv, reads_back gap ind kv.2) l →
  forallb (λ kv, text_ok kv.1 && json_ok kv.2) l = true → (list_sum (map (λ kv, 1 + cost kv.2) l) <= f)%nat →
  parse_members f acc (w1 ++ join_unit (44 :: w1) (map (λ kv, quote kv.1 ++ colon gap ++ ser gap ind kv.2) l) ++ w2 ++ 125 :: r)
  = Some (JObj (fold_left (λ acc kv, put kv.1 kv.2 acc) l acc), r).
Proof.
  intros H1 H2 Hg Hne Hall. revert acc f. induction Hall as [|[k x] l Hx _ IH]; intros acc f Hok Hf; [done|].
  cbn in Hok, Hf. to_prop. destruct f as [|f]; [lia|]. cbn [parse_members]. rewrite skip_app by done.
  assert (Hcol : ∀ t, skip (colon gap ++ t) = 58 :: drop 1 (colon gap) ++ t) by (intros; by destruct gap).
  assert (Hws : spaces (drop 1 (colon gap))) by (by destruct gap).
  assert (Hmap : ∀ tl, skip ((quote k ++ colon gap ++ ser gap ind x) ++ tl)
    = 34 :: quote_units k ++ 34 :: colon gap ++ ser gap ind x ++ tl).
  { intros tl. unfold quote. rewrite <- !app_assoc. cbn [app skip]. change (is_json_space 34) with false. cbv iota.
    done. }
  destruct l as [|y l].
  - cbn [map join_unit fst snd fold_left]. rewrite Hmap, string_body_quote by (by apply text_ok_u16).
    cbn [mbind option_bind]. rewrite Hcol, parse_value_skip by done.
    rewrite Hx; [|done|cbn in *; lia|by apply space_stops]. cbn [mbind option_bind]. by rewrite skip_app.
  - cbn [map join_unit fst snd]. rewrite <- app_assoc, Hmap, string_body_quote by (by apply text_ok_u16).
    cbn [mbind option_bind]. rewrite Hcol, parse_value_skip by done. cbn [app].
    rewrite Hx; [|done|cbn in *; lia|done]. cbn [mbind option_bind skip].
    change (is_json_space 44) with false. cbv iota. rewrite <- app_assoc.
    change (map (λ kv, quote kv.1 ++ colon gap ++ ser gap ind kv.2) (y :: l)) with
      ((quote y.1 ++ colon gap ++ ser gap ind y.2) :: map (λ kv, quote kv.1 ++ colon gap ++ ser gap ind kv.2) l) in IH.
    rewrite IH; [done|done|done|cbn in *; lia].
Qed.

Lemma value_reads_back gap ind j : spaces gap → spaces ind → reads_back gap ind j.
Proof.
  intros Hg. revert ind. induction j as [|b|n|s|l IH|l IH] using json_ind'; intros ind Hi f r Hok Hf Hr;
    cbn [cost] in Hf; (destruct f as [|f]; [lia|]); cbn [ser].
  - done.
  - by destruct b.
  - by apply parse_num.
  - unfold quote. rewrite <- !app_assoc. cbn [app parse_value skip]. change (is_json_space 34) with false. cbv iota.
    rewrite string_body_quote; [done|by apply text_ok_u16].
  - destruct l as [|x l]; [done|]. assert (Hi' : spaces (ind ++ gap)) by (by apply spaces_app).
    destruct (wrap_shape gap ind 91 93 (map (ser gap (ind ++ gap)) (x :: l))) as (w1 & w2 & H1 & H2 & ->); [done..|].
    rewrite <- !app_assoc. cbn [app parse_value skip]. change (is_json_space 91) with false. cbv iota.
    assert (Hx : json_ok x = true) by (cbn in Hok; to_prop; done).
    destruct (ser_head gap (ind ++ gap) x Hx) as (c & t & Hc & Hsp & H93).
    assert (Hh : ∃ t', skip (w1 ++ join_unit (44 :: w1) (map (ser gap (ind ++ gap)) (x :: l)) ++ w2 ++ 93 :: r) = c :: t').
    { rewrite skip_app by done. destruct l; cbn [map join_unit]; rewrite Hc; cbn [app skip]; rewrite Hsp; by eexists. }
    destruct Hh as [t' Hh]. rewrite Hh.
    transitivity (parse_elems f [] (w1 ++ join_unit (44 :: w1) (map (ser gap (ind ++ gap)) (x :: l)) ++ w2 ++ 93 :: r)).
    { revert H93. clear. intros. destruct c as [|p|p]; [done| |done]. do 7 (destruct p as [p|p|]; try done). }
    rewrite elems_read_back; [done|done|done|done| |done|cbn in *; lia].
    apply (Forall_impl _ _ _ IH). intros y Hy. by apply Hy.
  - destruct l as [|x l]; [done|]. assert (Hi' : spaces (ind ++ gap)) by (by apply spaces_app).
    set (item := λ kv : jsstr * json, quote kv.1 ++ colon gap ++ ser gap (ind ++ gap) kv.2).
    destruct (wrap_shape gap ind 123 125 (map item (x :: l))) as (w1 & w2 & H1 & H2 & ->); [done..|].
    rewrite <- !app_assoc. cbn [app parse_value skip]. change (is_json_space 123) with false. cbv iota.
    assert (Hh : ∃ t', skip (w1 ++ join_unit (44 :: w1) (map item (x :: l)) ++ w2 ++ 125 :: r) = 34 :: t').
    { rewrite skip_app by done. destruct l; cbn [map join_unit]; unfold item, quote; cbn [app skip];
        change (is_json_space 34) with false; by eexists. }
    destruct Hh as [t' Hh]. rewrite Hh. cbn [json_ok] in Hok. to_prop. unfold item.
    rewrite members_read_back; [|done|done|done|done| |done|cbn in *; lia].
    + change (Some (JObj (build (x :: l)), r) = Some (JObj (x :: l), r)). by rewrite H0.
    + apply (Forall_impl _ _ _ IH). intros y Hy. by apply Hy.
Qed.

(** Fuel: two units per unit of text. *)
Lemma join_length c w items :
  items ≠ [] → (length (join_unit (c :: w) items) + 1 >= list_sum (map (λ s, 1 + length s) items))%nat.
Proof.
  induction items as [|s items IH]; [done|]. intros _. destruct items as [|s' items]; [cbn; lia|].
  specialize (IH ltac:(done)). change (join_unit (c :: w) (s :: s' :: items)) with (s ++ (c :: w) ++ join_unit (c :: w) (s' :: items)).
  change (list_sum (map (λ s, 1 + length s) (s :: s' :: items)))%nat
    with (1 + length s + list_sum (map (λ s, 1 + length s) (s' :: items)))%nat.
  rewrite !length_app. cbn [length]. lia.
Qed.

Lemma wrap_length gap ind o c items :
  (length (wrap gap ind o c items) >= 1 + list_sum (map (λ s, 1 + length s) items))%nat.
Proof.
  destruct items as [|s items]; [cbn; lia|]. destruct gap as [|g gap]; unfold wrap.
  - pose proof (join_length 44 [] (s :: items) ltac:(done)). rewrite !length_app. cbn [length] in *. lia.
  - pose proof (join_length 44 (10 :: ind ++ g :: gap) (s :: items) ltac:(done)).
    cbn [app] in *. cbn [length]. rewrite !length_app. cbn [length]. lia.
Qed.

Lemma list_sum_le {A} (f g : A → nat) l : Forall (λ x, f x <= g x)%nat l → (list_sum (map f l) <= list_sum (map g l))%nat.
Proof.
  induction 1 as [|x l Hx _ IH]; [done|].
  change (f x + list_sum (map f l) <= g x + list_sum (map g l))%nat. lia.
Qed.

Lemma list_sum_double {A} (f : A → nat) l : list_sum (map (λ x, 2 * f x)%nat l) = (2 * list_sum (map f l))%nat.
Proof.
  induction l as [|x l IH]; [done|].
  change (2 * f x + list_sum (map (λ x, 2 * f x)%nat l) = 2 * (f x + list_sum (map f l)))%nat. lia.
Qed.

Lemma cost_le gap ind j : json_ok j = true → (cost j <= 2 * length (ser gap ind j))%nat.
Proof.
  revert ind. induction j as [|b|n|s|l IH|l IH] using json_ind'; intros ind Hok; cbn [cost ser].
  - cbn. lia.
  - destruct b; cbn; lia.
  - destruct (num_head n Hok) as (c & t & -> & _). cbn. lia.
  - unfold quote. rewrite !length_app. cbn. lia.
  - pose proof (wrap_length gap ind 91 93 (map (ser gap (ind ++ gap)) l)) as Hw. rewrite map_map in Hw.
    assert (Hs : (list_sum (map (λ x, 1 + cost x) l) <= list_sum (map (λ x, 2 * (1 + length (ser gap (ind ++ gap) x))) l))%nat).
    { apply list_sum_le. cbn in Hok. rewrite forallb_forall in Hok. rewrite List.Forall_forall in *.
      intros x Hx. specialize (IH x Hx (ind ++ gap) (Hok x Hx)). lia. }
    rewrite list_sum_double in Hs. lia.
  - pose proof (wrap_length gap ind 123 125 (map (λ kv, quote kv.1 ++ colon gap ++ ser gap (ind ++ gap) kv.2) l)) as Hw.
    rewrite map_map in Hw. cbn [json_ok] in Hok. to_prop.
    assert (Hs : (list_sum (map (λ kv, 1 + cost kv.2) l)
      <= list_sum (map (λ kv, 2 * (1 + length (quote kv.1 ++ colon gap ++ ser gap (ind ++ gap) kv.2))) l))%nat).
    { apply list_sum_le. rewrite forallb_forall in H1. rewrite List.Forall_forall in *.
      intros x Hx. specialize (H1 x Hx). cbn in H1. to_prop. specialize (IH x Hx (ind ++ gap) ltac:(done)).
      rewrite !length_app. lia. }
    rewrite list_sum_double in Hs. lia.
Qed.

(** [JSON.parse(JSON.stringify(j, null, gap))] is [j]. *)
Lemma json_roundtrip gap j : spaces gap → json_ok j = true → parse (ser gap [] j) = Some j.
Proof.
  intros Hg Hok. unfold parse. pose proof (cost_le gap [] j Hok).
  rewrite <- (app_nil_r (ser gap [] j)) at 2. rewrite (value_reads_back gap [] j Hg eq_refl _ [] Hok); [done|lia|done].
Qed.

Lemma parse_stringify j : json_ok j = true → parse (stringify j) = Some j.
Proof. by apply json_roundtrip. Qed.

Lemma stringify_inj a b : json_ok a = true → json_ok b = true → stringify a = stringify b → a = b.
Proof. intros Ha Hb E. apply parse_stringify in Ha, Hb. rewrite E in Ha. congruence. Qed.
End roundtrip.

(** * JSON text survives UTF-8

    The text of a value has no lone surrogate and does not start with a byte order
    mark. *)

Lemma well_formed_ascii s t : forallb is_ascii s = true → well_formed (s ++ t) = well_formed t.
Proof.
  induction s as [|c s IH]; [done|]. cbn [forallb app]. intros. to_prop. unfold is_ascii in *. to_prop.
  cbn [well_formed]. unfold is_high, is_low. rewrite (proj2 (Z.leb_gt 0xD800 c)), (proj2 (Z.leb_gt 0xDC00 c)) by lia.
  cbn [andb negb]. rewrite (proj2 (Z.leb_le 0 c)), (proj2 (Z.ltb_lt c 0x10000)) by lia. by apply IH.
Qed.

(** Text that leaves the pairing of surrogates around it alone. *)
Definition neutral (s : jsstr) : Prop := ∀ t, well_formed (s ++ t) = well_formed t.

Lemma neutral_ascii s : forallb is_ascii s = true → neutral s.
Proof. intros ? t. by apply well_formed_ascii. Qed.

Lemma neutral_app a b : neutral a → neutral b → neutral (a ++ b).
Proof. intros Ha Hb t. by rewrite <- app_assoc, Ha. Qed.

Lemma neutral_join c l : neutral c → Forall neutral l → neutral (join_unit c l).
Proof.
  intros Hc. induction 1 as [|s l Hs Hl IH]; [done|]. destruct l as [|s' l]; [done|].
  change (neutral (s ++ c ++ join_unit c (s' :: l))). by repeat apply neutral_app.
Qed.

Lemma hex_digit_ascii d : 0 <= d < 16 → is_ascii (hex_digit d) = true.
Proof.
  intros. unfold is_ascii, hex_digit. apply andb_true_intro.
  destruct (Z.ltb_spec d 10); split; [apply Z.leb_le|apply Z.ltb_lt|apply Z.leb_le|apply Z.ltb_lt]; lia.
Qed.

Lemma u_escape_ascii c : forallb is_ascii (u_escape c) = true.
Proof. unfold u_escape, hex4. cbn [forallb app js]. rewrite forallb_app. cbn. by rewrite !hex_digit_ascii by lia. Qed.

Lemma neutral_unit c : is_u16 c → is_high c = false → is_low c = false → neutral (quote_unit c).
Proof.
  intros Hc Hh Hl. unfold quote_unit.
  repeat (match goal with |- context [if ?b then _ else _] => destruct b eqn:? end;
          [by apply neutral_ascii|]).
  destruct (c <? 32); [apply neutral_ascii, u_escape_ascii|]. intros t. cbn [app well_formed]. rewrite Hh, Hl.
  unfold is_u16 in Hc. by rewrite (proj2 (Z.leb_le 0 c)), (proj2 (Z.ltb_lt c 0x10000)) by lia.
Qed.

Lemma neutral_quote_units s : Forall is_u16 s → neutral (quote_units s).
Proof.
  remember (length s) as n eqn:En. revert s En. induction (lt_wf n) as [n _ IH]. intros s -> Hs.
  destruct s as [|c s]; [done|]. inversion Hs as [|? ? Hc Hs']; subst. cbn [quote_units].
  assert (Hrest : neutral (quote_units s)) by (by apply (IH (length s)); [cbn; lia|..]).
  destruct (is_high c) eqn:Eh; [|destruct (is_low c) eqn:El].
  - destruct s as [|d s]; [apply neutral_ascii, u_escape_ascii|]. destruct (is_low d) eqn:El.
    + intros t. cbn [app well_formed]. rewrite Eh, El. inversion Hs'; subst.
      rewrite (IH (length s)); [done|cbn; lia|done|done].
    + apply neutral_app; [apply neutral_ascii, u_escape_ascii|done].
  - apply neutral_app; [apply neutral_ascii, u_escape_ascii|done].
  - apply neutral_app; [by apply neutral_unit|done].
Qed.

Lemma neutral_quote s : text_ok s = true → neutral (quote s).
Proof.
  intros Hs. apply (neutral_app [34]); [by apply neutral_ascii|].
  apply neutral_app; [by apply neutral_quote_units, text_ok_u16|by apply neutral_ascii].
Qed.

Lemma num_unit_ascii s : forallb is_num_unit s = true → forallb is_ascii s = true.
Proof.
  rewrite !forallb_forall. intros Hs c Hc. specialize (Hs c Hc).
  unfold is_num_unit, is_digit, is_ascii in *. apply andb_true_intro.
  repeat (apply orb_prop in Hs as [Hs|Hs]); to_prop; split; (apply Z.leb_le || apply Z.ltb_lt); lia.
Qed.

Lemma spaces_ascii s : spaces s → forallb is_ascii s = true.
Proof.
  unfold spaces. rewrite !forallb_forall. intros Hs c Hc. specialize (Hs c Hc). unfold is_json_space, is_ascii in *.
  apply andb_true_intro. repeat (apply orb_prop in Hs as [Hs|Hs]); to_prop; split; (apply Z.leb_le || apply Z.ltb_lt); lia.
Qed.

Lemma neutral_wrap gap ind o c items :
  spaces gap → spaces ind → is_ascii o && is_ascii c = true → Forall neutral items → neutral (wrap gap ind o c items).
Proof.
  intros Hg%spaces_ascii%neutral_ascii Hi%spaces_ascii%neutral_ascii Hoc Hn. to_prop.
  assert (Ho : neutral [o]) by (apply neutral_ascii; cbn; by rewrite H).
  assert (Hc : neutral [c]) by (apply neutral_ascii; cbn; by rewrite H0).
  assert (H10 : neutral [10]) by by apply neutral_ascii. assert (H44 : neutral [44]) by by apply neutral_ascii.
  destruct items as [|x items]; [by apply (neutral_app [o] [c])|]. unfold wrap. destruct gap as [|g gap].
  - by repeat (apply neutral_app || apply neutral_join).
  - apply (neutral_app [o] (10 :: _)); [done|]. apply (neutral_app [10]); [done|].
    assert (Hig : neutral (ind ++ g :: gap)) by by apply neutral_app.
    apply neutral_app; [done|]. apply neutral_app; [|apply (neutral_app [10]); [done|by apply neutral_app]].
    apply neutral_join; [|done]. apply (neutral_app [44]); [done|]. by apply (neutral_app [10]).
Qed.

Section text.
Context {JF : JsFloat}.

Lemma neutral_ser gap ind j : spaces gap → spaces ind → json_ok j = true → neutral (ser gap ind j).
Proof.
  intros Hg. revert ind. induction j as [|b|n|s|l IH|l IH] using json_ind'; intros ind Hi Hj; cbn [ser json_ok] in *.
  - by apply neutral_ascii.
  - destruct b; by apply neutral_ascii.
  - apply neutral_ascii, num_unit_ascii. by apply num_roundtrip.
  - by apply neutral_quote.
  - apply neutral_wrap; [done..|]. rewrite forallb_forall in Hj. rewrite List.Forall_forall in *. intros x Hx.
    apply in_map_iff in Hx as (y & <- & Hy). apply IH; [done|by apply spaces_app|by apply Hj].
  - to_prop. apply neutral_wrap; [done..|]. rewrite forallb_forall in H0. rewrite List.Forall_forall in *. intros x Hx.
    apply in_map_iff in Hx as ([k y] & <- & Hy). specialize (H0 _ Hy). cbn [fst snd] in *. to_prop.
    apply neutral_app; [by apply neutral_quote|]. apply neutral_app; [destruct gap; by apply neutral_ascii|].
    apply (IH (k, y)); [done|by apply spaces_app|done].
Qed.

Lemma neutral_stringify j : json_ok j = true → neutral (stringify j).
Proof. by apply neutral_ser. Qed.

Lemma no_bom_ser gap ind j : json_ok j = true → starts_with [BOM] (ser gap ind j) = false.
Proof.
  destruct j as [|[]|n|s|l|l]; cbn [ser json_ok]; intros Hj; try reflexivity.
  - destruct (num_head n Hj) as (c & t & -> & Hc). cbn. unfold is_digit, BOM in *. rewrite andb_true_r. apply Z.eqb_neq.
    destruct Hc as [Hc| ->]; [to_prop; lia|done].
  - by destruct (wrap_head gap ind 91 93 (map (ser gap (ind ++ gap)) l)) as [t ->].
  - by destruct (wrap_head gap ind 123 125 (map (λ kv, quote kv.1 ++ colon gap ++ ser gap (ind ++ gap) kv.2) l)) as [t ->].
Qed.

Lemma stringify_2_transportable j : json_ok j = true → transportable (stringify_2 j) = true.
Proof.
  intros Hj. unfold transportable, stringify_2. rewrite no_bom_ser, <- (app_nil_r (ser _ _ _)) by done. by rewrite neutral_ser.
Qed.

(** Writing a value to a file and reading the text back. *)
Lemma stringify_2_utf8 j : json_ok j = true → utf8_decode (utf8_encode (stringify_2 j)) = stringify_2 j.
Proof. intros. by apply utf8_roundtrip, stringify_2_transportable. Qed.
End text.
