(* ===== verification/JsObject.v ===== *)
(** * Objects as lists of properties

    Lemmas on reading and writing properties ([lookup_key], [put], [build] of [Json])
    and an equivalence of JSON values that ignores the order of properties, as code
    that reads them by name does. *)
From S2P Require Import Prelude JsRuntime JsText Json JsonSpec.

(** ** Reading and writing *)

Lemma replace_key_absent k v l : lookup_key k l = None → replace_key k v l = None.
Proof.
  induction l as [|[k' v'] l IH]; [done|]. cbn. destruct (str_eqb k k'); [done|]. intros. by rewrite IH.
Qed.

Lemma str_eqb_sym a b : str_eqb a b = str_eqb b a.
Proof. unfold str_eqb. by apply bool_decide_ext. Qed.

Lemma put_absent k v l : index_of_key k = None → lookup_key k l = None → put k v l = l ++ [(k, v)].
Proof. intros Hi Hl. unfold put. by rewrite replace_key_absent, Hi. Qed.

Lemma lookup_app k l l' : lookup_key k (l ++ l') = match lookup_key k l with Some v => Some v | None => lookup_key k l' end.
Proof. induction l as [|[k' v] l IH]; [done|]. cbn. by destruct (str_eqb k k'). Qed.

Lemma lookup_replace k v l l' k' :
  replace_key k v l = Some l' → lookup_key k' l' = if str_eqb k' k then Some v else lookup_key k' l.
Proof.
  revert l'. induction l as [|[j w] l IH]; intros l'; [done|]. cbn. destruct (str_eqb k j) eqn:E.
  - intros [= <-]. apply str_eqb_eq in E as ->. cbn. by destruct (str_eqb k' j).
  - destruct (replace_key k v l) as [x|] eqn:Er; [|done]. cbn. intros [= <-]. cbn. rewrite (IH x eq_refl).
    destruct (str_eqb k' j) eqn:Ej; [|done]. apply str_eqb_eq in Ej as ->. by rewrite str_eqb_sym, E.
Qed.

Lemma lookup_put_index n k v l k' :
  lookup_key k l = None → lookup_key k' (put_index n k v l) = if str_eqb k' k then Some v else lookup_key k' l.
Proof.
  induction l as [|[j w] l IH]; [done|]. cbn. intros Hl. destruct (str_eqb k j) eqn:Ekj; [done|].
  destruct (index_of_key j) as [m|]; [destruct (m <? n)|]; cbn; try done.
  rewrite IH by done. destruct (str_eqb k' j) eqn:Ej; [|done]. apply str_eqb_eq in Ej as ->. by rewrite str_eqb_sym, Ekj.
Qed.

(** [o[k] = v] changes [k] alone. *)
Lemma lookup_put k v l k' : lookup_key k' (put k v l) = if str_eqb k' k then Some v else lookup_key k' l.
Proof.
  unfold put. destruct (replace_key k v l) as [l'|] eqn:E; [by apply lookup_replace|].
  assert (Hn : lookup_key k l = None).
  { clear k'. induction l as [|[j w] l IH]; [done|]. cbn in *. destruct (str_eqb k j); [done|].
    destruct (replace_key k v l); [done|]. by apply IH. }
  destruct (index_of_key k); [by apply lookup_put_index|]. rewrite lookup_app. cbn.
  destruct (str_eqb k' k) eqn:Ek; [apply str_eqb_eq in Ek as ->; by rewrite Hn|by destruct (lookup_key k' l)].
Qed.

Lemma replace_key_new k v l : k ∉ map fst l → replace_key k v l = None.
Proof.
  induction l as [|[k' v'] l IH]; intros Hk; [done|]. cbn [replace_key map fst] in *.
  unfold str_eqb. rewrite bool_decide_false by set_solver. by rewrite IH by set_solver.
Qed.

Lemma build_app l k v : k ∉ map fst (build l) → index_of_key k = None → build (l ++ [(k, v)]) = build l ++ [(k, v)].
Proof. intros Hk Hi. unfold build at 1. rewrite fold_left_app. cbn. unfold put. by rewrite replace_key_new, Hi. Qed.

Lemma build_keys l : NoDup (map fst l) → Forall (λ kv, index_of_key kv.1 = None) l → build l = l.
Proof.
  induction l as [|[k v] l IH] using rev_ind; intros Hn Hi; [done|].
  rewrite map_app in Hn. apply NoDup_app in Hn as (Hn & Hk & _). apply Forall_app in Hi as [Hi Hi1]. apply Forall_cons_iff in Hi1 as [Hi1 _].
  specialize (IH Hn Hi). rewrite build_app; rewrite ?IH; [done| |exact Hi1]. intros Hin. apply (Hk _ Hin). set_solver.
Qed.

Lemma lookup_key_None k l : lookup_key k l = None ↔ k ∉ map fst l.
Proof.
  induction l as [|[k' v] l IH]; cbn; [set_solver|]. destruct (str_eqb k k') eqn:E.
  - apply str_eqb_eq in E as ->. set_solver.
  - rewrite IH, not_elem_of_cons. split; [|by intros []]. intros ?. split; [|done]. intros ->. unfold str_eqb in E.
    by rewrite bool_decide_true in E.
Qed.

Lemma lookup_key_Some k v l : lookup_key k l = Some v → (k, v) ∈ l.
Proof.
  induction l as [|[k' v'] l IH]; cbn; [done|]. destruct (str_eqb k k') eqn:E; intros Hl.
  - apply str_eqb_eq in E as ->. injection Hl as ->. set_solver.
  - set_solver.
Qed.

Lemma lookup_key_elem k v l : NoDup (map fst l) → (k, v) ∈ l → lookup_key k l = Some v.
Proof.
  induction l as [|[k' v'] l IH]; cbn; intros Hn Hin; [set_solver|]. apply NoDup_cons in Hn as [Hk Hn].
  apply elem_of_cons in Hin as [[= -> ->]|Hin]; [by rewrite (proj2 (str_eqb_eq _ _))|].
  destruct (str_eqb k k') eqn:E; [|by apply IH]. apply str_eqb_eq in E as ->.
  exfalso. apply Hk. apply list_elem_of_fmap. by exists (k', v).
Qed.

(** Reading from the properties whose names satisfy [p]. *)
Lemma lookup_filter (p : jsstr → bool) k l :
  lookup_key k (List.filter (λ kv, p kv.1) l) = if p k then lookup_key k l else None.
Proof.
  induction l as [|[k' v] l IH]; cbn; [by destruct (p k)|]. destruct (p k') eqn:E; cbn; rewrite IH;
    destruct (str_eqb k k') eqn:Ek; try done; apply str_eqb_eq in Ek as ->; by rewrite E.
Qed.

Lemma replace_key_keys k v l l' : replace_key k v l = Some l' → map fst l' = map fst l.
Proof.
  revert l'. induction l as [|[j w] l IH]; intros l'; [done|]. cbn. destruct (str_eqb k j) eqn:E.
  - by intros [= <-].
  - destruct (replace_key k v l) as [x|]; [|done]. cbn. intros [= <-]. cbn. by rewrite (IH x).
Qed.

Lemma put_index_keys n k v l : map fst (put_index n k v l) ≡ₚ k :: map fst l.
Proof.
  induction l as [|[j w] l IH]; [done|]. cbn. destruct (index_of_key j) as [m|]; [|done]. destruct (m <? n); [|done].
  cbn. rewrite IH. by rewrite Permutation_swap.
Qed.

Lemma put_keys k v l : map fst (put k v l) = map fst l ∨ ((k ∉ map fst l) ∧ map fst (put k v l) ≡ₚ k :: map fst l).
Proof.
  unfold put. destruct (replace_key k v l) as [l'|] eqn:E; [left; by eapply replace_key_keys|]. right. split.
  - intros Hk. assert (Hn : lookup_key k l = None); [|by apply lookup_key_None in Hn].
    clear Hk. induction l as [|[j w] l IH]; [done|]. cbn in *. destruct (str_eqb k j); [done|].
    destruct (replace_key k v l); [done|]. by apply IH.
  - destruct (index_of_key k); [apply put_index_keys|]. rewrite map_app. cbn. by rewrite (Permutation_app_comm _ [k]).
Qed.

Lemma put_NoDup k v l : NoDup (map fst l) → NoDup (map fst (put k v l)).
Proof. intros Hn. destruct (put_keys k v l) as [->|[Hk ->]]; [done|]. by constructor. Qed.

(** [{ ...a, ...b }]: the properties of [b] put on [a]. *)
Definition spread (a b : list (jsstr * json)) : list (jsstr * json) := fold_left (λ acc kv, put kv.1 kv.2 acc) b a.

Lemma spread_NoDup a b : NoDup (map fst a) → NoDup (map fst (spread a b)).
Proof. revert a. induction b as [|[k v] b IH]; intros a Ha; [done|]. apply (IH (put k v a)). by apply put_NoDup. Qed.

Lemma build_NoDup l : NoDup (map fst (build l)).
Proof. apply (spread_NoDup [] l). constructor. Qed.

Lemma lookup_spread k a b :
  NoDup (map fst b) → lookup_key k (spread a b) = match lookup_key k b with Some v => Some v | None => lookup_key k a end.
Proof.
  revert a. induction b as [|[k' v] b IH]; intros a Hb; [done|]. cbn in Hb. apply NoDup_cons in Hb as [Hk Hb].
  change (spread a ((k', v) :: b)) with (spread (put k' v a) b). rewrite IH by done. rewrite lookup_put. cbn [lookup_key]. destruct (str_eqb k k') eqn:E; [|done]. apply str_eqb_eq in E as ->.
  by rewrite (proj2 (lookup_key_None k' b)).
Qed.

Lemma lookup_build k l : NoDup (map fst l) → lookup_key k (build l) = lookup_key k l.
Proof. intros Hn. change (build l) with (spread [] l). rewrite lookup_spread by done. by destruct (lookup_key k l). Qed.

(** A predicate of the properties is kept by assignment. *)
Lemma put_Forall (Q : jsstr * json → Prop) k v l : Q (k, v) → Forall Q l → Forall Q (put k v l).
Proof.
  intros Hq Hl. unfold put. destruct (replace_key k v l) as [l'|] eqn:E.
  - revert l' E. induction Hl as [|[j w] l Hx Hl IH]; intros l'; [done|]. cbn. destruct (str_eqb k j) eqn:E.
    + intros [= <-]. apply str_eqb_eq in E as ->. by constructor.
    + destruct (replace_key k v l) as [x|]; [|done]. cbn. intros [= <-]. constructor; [done|by apply IH].
  - clear E. destruct (index_of_key k) as [n|]; [|apply Forall_app; eauto using Forall_nil, Forall_cons].
    induction Hl as [|[j w] l Hx Hl IH]; cbn; [by repeat constructor|].
    destruct (index_of_key j) as [m|]; [destruct (m <? n)|]; by repeat constructor.
Qed.

Lemma spread_Forall (Q : jsstr * json → Prop) a b : Forall Q a → Forall Q b → Forall Q (spread a b).
Proof.
  intros Ha Hb. revert a Ha. induction Hb as [|[k v] b Hx Hb IH]; intros a Ha; [done|]. apply (IH (put k v a)). by apply put_Forall.
Qed.

(** ** Values up to the order of properties *)

(** What reading code sees of a value at a place. *)
Inductive shape := ShNull | ShBool (b : bool) | ShNum (n : jnum) | ShStr (s : jsstr) | ShArr (n : nat) | ShObj.
Inductive place := Key (k : jsstr) | Index (i : nat).

Definition shape_of (v : json) : shape :=
  match v with
  | JNull => ShNull | JBool b => ShBool b | JNum n => ShNum n | JStr s => ShStr s
  | JArr l => ShArr (length l) | JObj _ => ShObj
  end.

Fixpoint shape_at (p : list place) (v : json) : option shape :=
  match p with
  | [] => Some (shape_of v)
  | Key k :: p => match v with JObj l => lookup_key k l ≫= shape_at p | _ => None end
  | Index i :: p => match v with JArr l => l !! i ≫= shape_at p | _ => None end
  end.

#[export] Instance json_equiv : Equiv json := λ a b, ∀ p, shape_at p a = shape_at p b.

#[export] Instance json_equivalence : Equivalence (≡@{json}).
Proof.
  split.
  - by intros v p.
  - by intros a b Hab p.
  - intros a b c Hab Hbc p. by rewrite (Hab p).
Qed.

(** Objects are equivalent when they agree on every name. *)
#[export] Instance props_equiv : Equiv (list (jsstr * json)) := λ a b, ∀ k, lookup_key k a ≡ lookup_key k b.

#[export] Instance props_equivalence : Equivalence (≡@{list (jsstr * json)}).
Proof.
  split.
  - by intros v k.
  - by intros a b Hab k.
  - intros a b c Hab Hbc k. by rewrite (Hab k).
Qed.

Lemma obj_equiv_inv a v : JObj a ≡ v → ∃ b, v = JObj b ∧ a ≡ b.
Proof.
  intros Hv. assert (E := Hv []). cbn in E. destruct v as [| | | | |b]; try done. exists b. split; [done|]. intros k.
  assert (Hk : ∀ p, (lookup_key k a ≫= shape_at p) = (lookup_key k b ≫= shape_at p)) by (intros p; apply (Hv (Key k :: p))).
  destruct (lookup_key k a) as [x|], (lookup_key k b) as [y|].
  - constructor. intros p. apply Hk.
  - by specialize (Hk []).
  - by specialize (Hk []).
  - constructor.
Qed.

Lemma str_equiv_inv s v : JStr s ≡ v → v = JStr s.
Proof. intros Hv. assert (E := Hv []). cbn in E. destruct v; try done. by injection E as ->. Qed.

#[export] Instance obj_proper : Proper ((≡) ==> (≡)) JObj.
Proof.
  intros a b Hab [|[k|i] p]; [done| |done]. cbn. assert (Hk := Hab k). destruct (lookup_key k a), (lookup_key k b); inv Hk; [|done].
  cbn. by apply H1.
Qed.

#[export] Instance prop_proper k : Proper ((≡) ==> (≡)) (prop k).
Proof.
  intros a b Hab. destruct a as [| | | | |l].
  6: { apply obj_equiv_inv in Hab as (m & -> & Hm). apply Hm. }
  all: assert (E := Hab []); cbn in E; by destruct b.
Qed.
