(* ===== verification/Base64.v ===== *)
(** * Base64 of the platform and the URL-safe variant of the client

    [btoa]/[atob] on binary strings, as the HTML standard defines them, and the
    conversions of [web/src/utils/mfa.ts] ([bufToB64url], [b64urlToBuf]) and
    [web/src/utils/localCrypto.ts] built from them.  The case mappings of strings
    are declared here too. *)
From S2P Require Import Prelude JsRuntime JsText.

(** ** Case mapping

    [toUpperCase] and [toLowerCase] follow the Unicode tables; the client's
    correctness needs their effect on ASCII text. *)
Class JsCase := {
  toUpperCase : jsstr → jsstr;
  toLowerCase : jsstr → jsstr;
  toUpperCase_ascii s : forallb is_ascii s = true → toUpperCase s = map ascii_upper_unit s;
  toLowerCase_ascii s : forallb is_ascii s = true → toLowerCase s = map ascii_lower_unit s;
}.

(** The mappings restricted to ASCII satisfy the laws. *)
#[export] Instance ascii_case : JsCase.
Proof.
  refine {| toUpperCase := map ascii_upper_unit; toLowerCase := map ascii_lower_unit |}; done.
Defined.

(** ** Alphabet *)

Definition b64_char (n : Z) : Z :=
  if n <? 26 then 65 + n else if n <? 52 then 71 + n else if n <? 62 then n - 4
  else if n =? 62 then 43 else 47.

Definition b64_value (c : Z) : option Z :=
  if is_upper c then Some (c - 65) else if is_lower c then Some (c - 71)
  else if is_digit c then Some (c + 4) else if c =? 43 then Some 62
  else if c =? 47 then Some 63 else None.

Lemma b64_value_char n : 0 <= n < 64 → b64_value (b64_char n) = Some n.
Proof.
  intros H. assert (Hall : Forall (λ n, b64_value (b64_char n) = Some n) (seqZ 0 64))
    by (apply (bool_decide_unpack _); by vm_compute).
  rewrite Forall_forall in Hall. apply Hall, elem_of_seqZ. lia.
Qed.

Lemma b64_char_ascii n : 0 <= n < 64 → 43 <= b64_char n <= 122 ∧ b64_char n ≠ 61 ∧ b64_char n ≠ 45 ∧ b64_char n ≠ 95.
Proof. intros. unfold b64_char. repeat case_if; to_prop; lia. Qed.

(** ** btoa *)

Fixpoint btoa (bs : bytes) : jsstr :=
  match bs with
  | a :: b :: c :: r =>
      b64_char (a / 4) :: b64_char (a mod 4 * 16 + b / 16) :: b64_char (b mod 16 * 4 + c / 64)
      :: b64_char (c mod 64) :: btoa r
  | [a; b] => [b64_char (a / 4); b64_char (a mod 4 * 16 + b / 16); b64_char (b mod 16 * 4); 61]
  | [a] => [b64_char (a / 4); b64_char (a mod 4 * 16); 61; 61]
  | [] => []
  end.

(** ** atob: the forgiving decoder *)

Definition is_ascii_space (c : Z) : bool := existsb (Z.eqb c) [9; 10; 12; 13; 32].

(** Drops one or two trailing [=] when the length is a multiple of four. *)
Definition drop_padding (s : jsstr) : jsstr :=
  if len s mod 4 =? 0 then
    match reverse s with
    | 61 :: 61 :: r | 61 :: r => reverse r
    | _ => s
    end
  else s.

Fixpoint decode_groups (vs : list Z) : bytes :=
  match vs with
  | a :: b :: c :: d :: r =>
      (a * 4 + b / 16) :: (b mod 16 * 16 + c / 4) :: (c mod 4 * 64 + d) :: decode_groups r
  | [a; b; c] => [a * 4 + b / 16; b mod 16 * 16 + c / 4]
  | [a; b] => [a * 4 + b / 16]
  | _ => []
  end.

(** [None]: [atob] throws InvalidCharacterError. *)
Definition atob (s : jsstr) : option bytes :=
  let s := drop_padding (List.filter (λ c, negb (is_ascii_space c)) s) in
  if len s mod 4 =? 1 then None
  else vs ← mapM b64_value s; Some (decode_groups vs).

(** ** The URL-safe variant *)

Definition replace_unit (a b : Z) (s : jsstr) : jsstr := map (λ c, if c =? a then b else c) s.

(** [s.replace(/=+$/, '')] *)
Fixpoint drop_eq (s : jsstr) : jsstr :=
  match s with 61 :: s' => drop_eq s' | _ => s end.
Definition strip_eq (s : jsstr) : jsstr := reverse (drop_eq (reverse s)).

Definition bufToB64url (buf : bytes) : jsstr :=
  strip_eq (replace_unit 47 95 (replace_unit 43 45 (btoa buf))).

Definition b64urlToBuf (b64 : jsstr) : option bytes :=
  atob (replace_unit 95 47 (replace_unit 45 43 b64)).

(** ** Round trips *)

(** The characters of an encoding without its padding. *)
Fixpoint btoa_chars (bs : bytes) : jsstr :=
  match bs with
  | a :: b :: c :: r =>
      b64_char (a / 4) :: b64_char (a mod 4 * 16 + b / 16) :: b64_char (b mod 16 * 4 + c / 64)
      :: b64_char (c mod 64) :: btoa_chars r
  | [a; b] => [b64_char (a / 4); b64_char (a mod 4 * 16 + b / 16); b64_char (b mod 16 * 4)]
  | [a] => [b64_char (a / 4); b64_char (a mod 4 * 16)]
  | [] => []
  end.
Fixpoint btoa_pad (bs : bytes) : nat :=
  match bs with _ :: _ :: _ :: r => btoa_pad r | [_; _] => 1 | [_] => 2 | [] => 0 end.

(** Induction by groups of three bytes. *)
Lemma triple_ind (P : bytes → Prop) :
  P [] → (∀ a, P [a]) → (∀ a b, P [a; b]) → (∀ a b c r, P r → P (a :: b :: c :: r)) → ∀ l, P l.
Proof.
  intros H0 H1 H2 H3. fix IH 1. intros [|a [|b [|c r]]]; [done|done|done|]. apply H3, IH.
Qed.

Lemma btoa_split bs : btoa bs = btoa_chars bs ++ replicate (btoa_pad bs) 61.
Proof. induction bs as [|a|a b|a b c r IH] using triple_ind; try done. simpl. by rewrite IH. Qed.

(** The six-bit values of the characters. *)
Fixpoint btoa_vals (bs : bytes) : list Z :=
  match bs with
  | a :: b :: c :: r =>
      a / 4 :: a mod 4 * 16 + b / 16 :: b mod 16 * 4 + c / 64 :: c mod 64 :: btoa_vals r
  | [a; b] => [a / 4; a mod 4 * 16 + b / 16; b mod 16 * 4]
  | [a] => [a / 4; a mod 4 * 16]
  | [] => []
  end.

Lemma btoa_chars_vals bs : btoa_chars bs = map b64_char (btoa_vals bs).
Proof. induction bs as [|a|a b|a b c r IH] using triple_ind; try done. simpl. by rewrite IH. Qed.

Lemma btoa_vals_range bs : Bytes bs → Forall (λ v, 0 <= v < 64) (btoa_vals bs).
Proof.
  induction bs as [|a|a b|a b c r IH] using triple_ind; unfold Bytes; rewrite ?Forall_cons; unfold is_byte;
    intros H; simpl; repeat constructor; try lia. apply IH. tauto.
Qed.

Lemma decode_groups_vals bs : Bytes bs → decode_groups (btoa_vals bs) = bs.
Proof.
  induction bs as [|a|a b|a b c r IH] using triple_ind; unfold Bytes; rewrite ?Forall_cons; unfold is_byte;
    intros H; simpl.
  - done.
  - f_equal. lia.
  - f_equal; [lia|]. f_equal. lia.
  - rewrite IH by tauto. f_equal; [lia|]. f_equal; [lia|]. f_equal. lia.
Qed.

Lemma btoa_vals_mod bs : len (btoa_vals bs) mod 4 ≠ 1 ∧
  (len (btoa_vals bs) mod 4 = 0 ↔ btoa_pad bs = 0%nat) ∧
  (len (btoa_vals bs) + Z.of_nat (btoa_pad bs)) mod 4 = 0 ∧ (btoa_pad bs <= 2)%nat.
Proof.
  induction bs as [|a|a b|a b c r IH] using triple_ind; 
    [split; [done|]; split; [done|]; split; [done|cbn; lia]..|].
  cbn [btoa_vals btoa_pad]. rewrite !len_cons. destruct IH as (H1 & H2 & H3 & H4). repeat split; try lia.
Qed.

Lemma mapM_b64 vs : Forall (λ v, 0 <= v < 64) vs → mapM b64_value (map b64_char vs) = Some vs.
Proof.
  induction 1 as [|v vs Hv _ IH]; [done|]. cbn [map mapM]. rewrite b64_value_char by done. simpl.
  by rewrite IH.
Qed.

(** Characters that [atob] keeps. *)
Lemma filter_space_id s :
  Forall (λ c, is_ascii_space c = false) s → List.filter (λ c, negb (is_ascii_space c)) s = s.
Proof. induction 1 as [|c s Hc _ IH]; [done|]. simpl. by rewrite Hc, IH. Qed.

Lemma b64_char_no_space n : 0 <= n < 64 → is_ascii_space (b64_char n) = false.
Proof.
  intros H. apply b64_char_ascii in H. unfold is_ascii_space. simpl.
  rewrite !(proj2 (Z.eqb_neq _ _)) by lia. done.
Qed.

Lemma btoa_chars_no_space bs : Bytes bs → Forall (λ c, is_ascii_space c = false) (btoa_chars bs).
Proof.
  intros H. rewrite btoa_chars_vals. apply btoa_vals_range in H. apply Forall_map.
  eapply Forall_impl; [exact H|]. intros v Hv. by apply b64_char_no_space.
Qed.

(** No character of an encoding is [=]. *)
Lemma drop_padding_id s : 61 ∉ s → drop_padding s = s.
Proof.
  intros Hs. unfold drop_padding. case_if; [|done]. destruct (reverse s) as [|c r] eqn:E; [done|].
  assert (c ≠ 61). { intros ->. apply Hs. rewrite <- (reverse_involutive s), E, reverse_cons. set_solver. }
  destruct (decide (c = 61)); [done|].
  by repeat (match goal with |- context [match ?p with _ => _ end] => is_var p; destruct p end).
Qed.

Lemma btoa_chars_no_eq bs : Bytes bs → 61 ∉ btoa_chars bs.
Proof.
  intros H. rewrite btoa_chars_vals. apply btoa_vals_range in H. intros Hin.
  apply list_elem_of_fmap in Hin as (v & Hv & Hin). rewrite Forall_forall in H.
  apply H, b64_char_ascii in Hin. lia.
Qed.

Lemma drop_padding_btoa bs : Bytes bs → drop_padding (btoa bs) = btoa_chars bs.
Proof.
  intros H. destruct (btoa_vals_mod bs) as (_ & H0 & H3 & H2).
  assert (Hl : len (btoa_chars bs) = len (btoa_vals bs)) by (rewrite btoa_chars_vals; unfold len; by rewrite length_map).
  rewrite btoa_split. destruct (btoa_pad bs) as [|[|[|k]]] eqn:E; [| | |lia].
  - rewrite app_nil_r. by apply drop_padding_id, btoa_chars_no_eq.
  - unfold drop_padding. rewrite len_app, Hl. rewrite (proj2 (Z.eqb_eq _ 0)) by exact H3.
    rewrite reverse_app. cbn [replicate app]. change (reverse [61]) with [61]. cbn [app].
    pose proof (btoa_chars_no_eq bs H) as Hne.
    destruct (reverse (btoa_chars bs)) as [|c r] eqn:Er.
    { by rewrite <- (reverse_involutive (btoa_chars bs)), Er. }
    assert (c ≠ 61) by (intros ->; apply Hne; rewrite <- (reverse_involutive (btoa_chars bs)), Er, reverse_cons; set_solver).
    rewrite <- (reverse_involutive (btoa_chars bs)), Er.
    by repeat (match goal with |- context [match ?p with _ => _ end] => is_var p; destruct p end).
  - unfold drop_padding. rewrite len_app, Hl. rewrite (proj2 (Z.eqb_eq _ 0)) by exact H3.
    rewrite reverse_app. cbn [replicate app]. change (reverse [61; 61]) with [61; 61]. cbn [app].
    by rewrite reverse_involutive.
Qed.

(** [atob(btoa(s)) === s], padded or not. *)
Lemma atob_chars bs : Bytes bs → atob (btoa_chars bs) = Some bs.
Proof.
  intros H. unfold atob. rewrite filter_space_id by (by apply btoa_chars_no_space).
  rewrite drop_padding_id by (by apply btoa_chars_no_eq). rewrite btoa_chars_vals.
  destruct (btoa_vals_mod bs) as (H1 & _).
  rewrite (proj2 (Z.eqb_neq _ 1)) by (unfold len; rewrite length_map; exact H1).
  rewrite mapM_b64 by (by apply btoa_vals_range). simpl. by rewrite decode_groups_vals.
Qed.

Lemma atob_btoa bs : Bytes bs → atob (btoa bs) = Some bs.
Proof.
  intros H. rewrite <- (atob_chars bs H). unfold atob. cbv zeta.
  rewrite (filter_space_id (btoa_chars bs)) by (by apply btoa_chars_no_space).
  rewrite filter_space_id.
  - by rewrite drop_padding_btoa, drop_padding_id by (done || by apply btoa_chars_no_eq).
  - rewrite btoa_split. apply Forall_app. split; [by apply btoa_chars_no_space|].
    by apply Forall_replicate.
Qed.

(** ** The URL-safe round trip *)

Lemma replace_back a b s : b ∉ s → replace_unit b a (replace_unit a b s) = s.
Proof.
  induction s as [|c s IH]; [done|]. rewrite not_elem_of_cons. intros [Hc Hs].
  unfold replace_unit in *. simpl. rewrite IH by done. f_equal.
  destruct (Z.eqb_spec c a) as [->|]; [by rewrite Z.eqb_refl|].
  by rewrite (proj2 (Z.eqb_neq c b)) by congruence.
Qed.

Lemma strip_eq_app s n : 61 ∉ s → strip_eq (s ++ replicate n 61) = s.
Proof.
  intros Hs. unfold strip_eq. rewrite reverse_app.
  assert (Hd : ∀ m r, 61 ∉ r → drop_eq (replicate m 61 ++ r) = r).
  { intros m r Hr. induction m as [|m IH]; [|exact IH]. simpl. destruct r as [|c r]; [done|].
    assert (c ≠ 61) by set_solver. simpl.
    by repeat (match goal with |- context [match ?p with _ => _ end] => is_var p; destruct p end). }
  rewrite reverse_replicate, Hd; [apply reverse_involutive|]. by rewrite elem_of_reverse.
Qed.

Lemma url_chars_no_eq s : 61 ∉ s → 61 ∉ replace_unit 47 95 (replace_unit 43 45 s).
Proof.
  unfold replace_unit. intros Hs Hin. apply list_elem_of_fmap in Hin as (c & Hc & Hin).
  apply list_elem_of_fmap in Hin as (c' & Hc' & Hin). 
  destruct (Z.eqb_spec c 47), (Z.eqb_spec c' 43); try lia. assert (c' = 61) as -> by lia. done.
Qed.

Lemma btoa_chars_url bs : Bytes bs → (45 ∉ btoa_chars bs) ∧ (95 ∉ btoa_chars bs).
Proof.
  intros H. rewrite btoa_chars_vals. apply btoa_vals_range in H. rewrite Forall_forall in H.
  split; intros Hin; apply list_elem_of_fmap in Hin as (v & Hv & Hin);
    apply H, b64_char_ascii in Hin; lia.
Qed.

Lemma bufToB64url_eq bs :
  Bytes bs → bufToB64url bs = replace_unit 47 95 (replace_unit 43 45 (btoa_chars bs)).
Proof.
  intros H. unfold bufToB64url. rewrite btoa_split. unfold replace_unit at 1 2. rewrite !map_app.
  assert (∀ n, map (λ c, if c =? 47 then 95 else c) (map (λ c, if c =? 43 then 45 else c) (replicate n 61))
             = replicate n 61) as -> by (intros n; induction n as [|n IH]; [done|simpl; by rewrite IH]).
  apply strip_eq_app. by apply url_chars_no_eq, btoa_chars_no_eq.
Qed.

Lemma b64url_roundtrip bs : Bytes bs → b64urlToBuf (bufToB64url bs) = Some bs.
Proof.
  intros H. rewrite bufToB64url_eq by done. unfold b64urlToBuf.
  destruct (btoa_chars_url bs H) as [H45 H95].
  assert (Hswap : ∀ s, 45 ∉ s → 95 ∉ s →
    replace_unit 95 47 (replace_unit 45 43 (replace_unit 47 95 (replace_unit 43 45 s))) = s).
  { intros s. induction s as [|c s IH]; [done|]. rewrite !not_elem_of_cons. intros [? ?] [? ?].
    unfold replace_unit in *. simpl. rewrite IH by done. f_equal.
    destruct (Z.eqb_spec c 43) as [->|]; [done|]. destruct (Z.eqb_spec c 47) as [->|]; [done|].
    rewrite (proj2 (Z.eqb_neq c 45)), (proj2 (Z.eqb_neq c 95)) by congruence. done. }
  rewrite Hswap by done. by apply atob_chars.
Qed.
