(* ===== verification/Types.v ===== *)
(** * The vault data model ([web/src/types.ts])

    An optional TypeScript field is an [option]; a union type is an inductive. *)
From S2P Require Import Prelude JsRuntime JsText.

Record Folder := mkFolder {
  f_id : jsstr;
  f_label : jsstr;
  f_description : option jsstr;
  f_iconName : option jsstr;
  f_customSvg : option jsstr;
}.

Inductive CredentialType := login | passkey | secure_note | payment_card.

(** [id: string | number] *)
Inductive cred_id := IdString (s : jsstr) | IdNumber (n : Z).

(** [string | string[]] *)
Inductive str_or_list := OneStr (s : jsstr) | ManyStr (l : list jsstr).

Inductive OtpAlgorithm := SHA1 | SHA256 | SHA512.
Inductive ExpiryUnit := days | months | years.

Record Kba := mkKba { kba_question : jsstr; kba_answer : jsstr }.
Record CustomField := mkCustomField {
  cf_id : jsstr; cf_label : jsstr; cf_value : jsstr; cf_isSecret : bool }.

Record Credential := mkCredential {
  c_id : cred_id;
  c_service : jsstr;
  c_url : jsstr;
  c_username : jsstr;
  c_password : option jsstr;
  c_status : jsstr;
  c_statusColor : jsstr;
  c_logo : jsstr;
  c_folderId : jsstr;
  c_tags : option (list jsstr);
  c_phoneNumber : option str_or_list;
  c_kba : option (list Kba);
  c_u2fKeyName : option str_or_list;
  c_otpSecret : option jsstr;
  c_otpAlgorithm : option OtpAlgorithm;
  c_otpDigits : option Z;
  c_accountType : option jsstr;
  c_expiryEnabled : option bool;
  c_expiryValue : option Z;
  c_expiryUnit : option ExpiryUnit;
  c_expiryNotifyEmail : option bool;
  c_expirySetAt : option Z;
  c_description : option jsstr;
  c_credentialType : option CredentialType;
  c_rpId : option jsstr;
  c_rpName : option jsstr;
  c_credentialId : option jsstr;
  c_userHandle : option jsstr;
  c_authenticatorName : option jsstr;
  c_backedUp : option bool;
  c_noteContent : option jsstr;
  c_cardholderName : option jsstr;
  c_cardNumber : option jsstr;
  c_cardExpiry : option jsstr;
  c_cardCvv : option jsstr;
  c_cardBillingAddress : option jsstr;
  c_cardType : option jsstr;
  c_createdAt : option Z;
  c_updatedAt : option Z;
  c_customFields : option (list CustomField);
  c_phone : option jsstr;
  c_phoneCountry : option jsstr;
}.

Record AssetHolder := mkAssetHolder {
  a_emails : list jsstr;
  a_phoneNumbers : list jsstr;
  a_u2fKeys : list jsstr;
}.

#[export] Instance Folder_eq_dec : EqDecision Folder.
Proof. solve_decision. Defined.
#[export] Instance CredentialType_eq_dec : EqDecision CredentialType.
Proof. solve_decision. Defined.
#[export] Instance cred_id_eq_dec : EqDecision cred_id.
Proof. solve_decision. Defined.
#[export] Instance AssetHolder_eq_dec : EqDecision AssetHolder.
Proof. solve_decision. Defined.

#[export] Instance str_or_list_eq_dec : EqDecision str_or_list.
Proof. solve_decision. Defined.
#[export] Instance OtpAlgorithm_eq_dec : EqDecision OtpAlgorithm.
Proof. solve_decision. Defined.
#[export] Instance ExpiryUnit_eq_dec : EqDecision ExpiryUnit.
Proof. solve_decision. Defined.
#[export] Instance Kba_eq_dec : EqDecision Kba.
Proof. solve_decision. Defined.
#[export] Instance CustomField_eq_dec : EqDecision CustomField.
Proof. solve_decision. Defined.
#[export] Instance Credential_eq_dec : EqDecision Credential.
Proof. solve_decision. Defined.

(** Credentials and folders are countable, so that they can be keys and can be
    written down as one number. *)
#[export] Instance Folder_countable : Countable Folder.
Proof.
  refine (inj_countable' (λ f, (f_id f, f_label f, f_description f, f_iconName f, f_customSvg f))
    (λ '(a, b, c, d, e), mkFolder a b c d e) _). by intros [].
Defined.
#[export] Instance CredentialType_countable : Countable CredentialType.
Proof.
  refine (inj_countable' (λ t, match t with login => 0 | passkey => 1 | secure_note => 2 | payment_card => 3 end)
    (λ n, if n =? 0 then login else if n =? 1 then passkey else if n =? 2 then secure_note else payment_card) _).
  by intros [].
Defined.
#[export] Instance cred_id_countable : Countable cred_id.
Proof.
  refine (inj_countable' (λ i, match i with IdString s => inl s | IdNumber n => inr n end)
    (λ x, match x with inl s => IdString s | inr n => IdNumber n end) _). by intros [].
Defined.
#[export] Instance str_or_list_countable : Countable str_or_list.
Proof.
  refine (inj_countable' (λ i, match i with OneStr s => inl s | ManyStr l => inr l end)
    (λ x, match x with inl s => OneStr s | inr l => ManyStr l end) _). by intros [].
Defined.
#[export] Instance OtpAlgorithm_countable : Countable OtpAlgorithm.
Proof.
  refine (inj_countable' (λ t, match t with SHA1 => 0 | SHA256 => 1 | SHA512 => 2 end)
    (λ n, if n =? 0 then SHA1 else if n =? 1 then SHA256 else SHA512) _). by intros [].
Defined.
#[export] Instance ExpiryUnit_countable : Countable ExpiryUnit.
Proof.
  refine (inj_countable' (λ t, match t with days => 0 | months => 1 | years => 2 end)
    (λ n, if n =? 0 then days else if n =? 1 then months else years) _). by intros [].
Defined.
#[export] Instance Kba_countable : Countable Kba.
Proof. refine (inj_countable' (λ k, (kba_question k, kba_answer k)) (λ '(a, b), mkKba a b) _). by intros []. Defined.
#[export] Instance CustomField_countable : Countable CustomField.
Proof.
  refine (inj_countable' (λ f, (cf_id f, cf_label f, cf_value f, cf_isSecret f)) (λ '(a, b, c, d), mkCustomField a b c d) _).
  by intros [].
Defined.
#[export] Instance Credential_countable : Countable Credential.
Proof.
  refine (inj_countable' (λ c,
   (c_id c, c_service c, c_url c, c_username c, c_password c, c_status c, c_statusColor c, c_logo c,
   c_folderId c, c_tags c, c_phoneNumber c, c_kba c, c_u2fKeyName c, c_otpSecret c, c_otpAlgorithm c,
   c_otpDigits c, c_accountType c, c_expiryEnabled c, c_expiryValue c, c_expiryUnit c,
   c_expiryNotifyEmail c, c_expirySetAt c, c_description c, c_credentialType c, c_rpId c, c_rpName c,
   c_credentialId c, c_userHandle c, c_authenticatorName c, c_backedUp c, c_noteContent c,
   c_cardholderName c, c_cardNumber c, c_cardExpiry c, c_cardCvv c, c_cardBillingAddress c, c_cardType c,
   c_createdAt c, c_updatedAt c, c_customFields c, c_phone c, c_phoneCountry c))
   (λ '(x0, x1, x2, x3, x4, x5, x6, x7, x8, x9, x10, x11, x12, x13, x14, x15, x16, x17, x18, x19, x20, x21, x22,
   x23, x24, x25, x26, x27, x28, x29, x30, x31, x32, x33, x34, x35, x36, x37, x38, x39, x40, x41),
   mkCredential x0 x1 x2 x3 x4 x5 x6 x7 x8 x9 x10 x11 x12 x13 x14 x15 x16 x17 x18 x19 x20 x21 x22 x23 x24 x25 x26 x27
   x28 x29 x30 x31 x32 x33 x34 x35 x36 x37 x38 x39 x40 x41) _).
  by intros [].
Defined.

(** [String(c.id)] *)
Definition id_string (i : cred_id) : jsstr :=
  match i with IdString s => s | IdNumber n => dec n end.

(** The literal a [CredentialType] is written as. *)
Definition credentialType_string (t : CredentialType) : jsstr :=
  match t with
  | login => js "login"
  | passkey => js "passkey"
  | secure_note => js "secure_note"
  | payment_card => js "payment_card"
  end.

(** The object literals the parsers and importers build: the required fields,
    the handful of optional ones they set, every other field absent. *)
Definition basic_credential (id : cred_id) (service url username : jsstr) (password : option jsstr)
    (status statusColor logo folderId : jsstr) (tags : option (list jsstr))
    (otpSecret description : option jsstr) (ty : option CredentialType) : Credential :=
  {| c_id := id; c_service := service; c_url := url; c_username := username;
     c_password := password; c_status := status; c_statusColor := statusColor;
     c_logo := logo; c_folderId := folderId; c_tags := tags; c_phoneNumber := None;
     c_kba := None; c_u2fKeyName := None; c_otpSecret := otpSecret; c_otpAlgorithm := None;
     c_otpDigits := None; c_accountType := None; c_expiryEnabled := None;
     c_expiryValue := None; c_expiryUnit := None; c_expiryNotifyEmail := None;
     c_expirySetAt := None; c_description := description; c_credentialType := ty;
     c_rpId := None; c_rpName := None; c_credentialId := None; c_userHandle := None;
     c_authenticatorName := None; c_backedUp := None; c_noteContent := None;
     c_cardholderName := None; c_cardNumber := None; c_cardExpiry := None;
     c_cardCvv := None; c_cardBillingAddress := None; c_cardType := None;
     c_createdAt := None; c_updatedAt := None; c_customFields := None;
     c_phone := None; c_phoneCountry := None |}.

(** [{ ...c, folderId }] *)
Definition set_folderId (c : Credential) (folderId : jsstr) : Credential :=
  {| c_id := c_id c; c_service := c_service c; c_url := c_url c; c_username := c_username c;
     c_password := c_password c; c_status := c_status c; c_statusColor := c_statusColor c;
     c_logo := c_logo c; c_folderId := folderId; c_tags := c_tags c; c_phoneNumber := c_phoneNumber c;
     c_kba := c_kba c; c_u2fKeyName := c_u2fKeyName c; c_otpSecret := c_otpSecret c;
     c_otpAlgorithm := c_otpAlgorithm c; c_otpDigits := c_otpDigits c;
     c_accountType := c_accountType c; c_expiryEnabled := c_expiryEnabled c;
     c_expiryValue := c_expiryValue c; c_expiryUnit := c_expiryUnit c;
     c_expiryNotifyEmail := c_expiryNotifyEmail c; c_expirySetAt := c_expirySetAt c;
     c_description := c_description c; c_credentialType := c_credentialType c;
     c_rpId := c_rpId c; c_rpName := c_rpName c; c_credentialId := c_credentialId c;
     c_userHandle := c_userHandle c; c_authenticatorName := c_authenticatorName c;
     c_backedUp := c_backedUp c; c_noteContent := c_noteContent c;
     c_cardholderName := c_cardholderName c; c_cardNumber := c_cardNumber c;
     c_cardExpiry := c_cardExpiry c; c_cardCvv := c_cardCvv c;
     c_cardBillingAddress := c_cardBillingAddress c; c_cardType := c_cardType c;
     c_createdAt := c_createdAt c; c_updatedAt := c_updatedAt c;
     c_customFields := c_customFields c; c_phone := c_phone c; c_phoneCountry := c_phoneCountry c |}.

(** [{ ...c, id }] *)
Definition set_cred_id (c : Credential) (i : cred_id) : Credential :=
  {| c_id := i; c_service := c_service c; c_url := c_url c; c_username := c_username c;
     c_password := c_password c; c_status := c_status c; c_statusColor := c_statusColor c;
     c_logo := c_logo c; c_folderId := c_folderId c; c_tags := c_tags c; c_phoneNumber := c_phoneNumber c;
     c_kba := c_kba c; c_u2fKeyName := c_u2fKeyName c; c_otpSecret := c_otpSecret c;
     c_otpAlgorithm := c_otpAlgorithm c; c_otpDigits := c_otpDigits c;
     c_accountType := c_accountType c; c_expiryEnabled := c_expiryEnabled c;
     c_expiryValue := c_expiryValue c; c_expiryUnit := c_expiryUnit c;
     c_expiryNotifyEmail := c_expiryNotifyEmail c; c_expirySetAt := c_expirySetAt c;
     c_description := c_description c; c_credentialType := c_credentialType c;
     c_rpId := c_rpId c; c_rpName := c_rpName c; c_credentialId := c_credentialId c;
     c_userHandle := c_userHandle c; c_authenticatorName := c_authenticatorName c;
     c_backedUp := c_backedUp c; c_noteContent := c_noteContent c;
     c_cardholderName := c_cardholderName c; c_cardNumber := c_cardNumber c;
     c_cardExpiry := c_cardExpiry c; c_cardCvv := c_cardCvv c;
     c_cardBillingAddress := c_cardBillingAddress c; c_cardType := c_cardType c;
     c_createdAt := c_createdAt c; c_updatedAt := c_updatedAt c;
     c_customFields := c_customFields c; c_phone := c_phone c; c_phoneCountry := c_phoneCountry c |}.
