(* ===== verification/DaemonClient.v ===== *)
(** * The daemon client and its bridge
    ([web/src/utils/daemonClient.ts], [web/server.js])

    Commands of the daemon go as JSON to [POST /api/rpc]; the server turns arrays of
    numbers into buffers, calls the daemon over gRPC and turns the buffers of the
    answer back.  The values the client passes, the JSON on the wire and the values
    of the server are three types; gRPC and the daemon are an argument. *)
From S2P Require Import Prelude JsRuntime JsText Json Base64 Types.

(** ** Values *)

(** Values of the client: [VBytes] is a [Uint8Array]. *)
Inductive jsv :=
| VNull | VBool (b : bool) | VNum (n : Z) | VStr (s : jsstr) | VBytes (bs : bytes)
| VArr (l : list jsv) | VObj (l : list (string * jsv)).

(** Values of the server: [NBuf] is a [Buffer]. *)
Inductive nodev :=
| NNull | NBool (b : bool) | NNum (n : jnum) | NStr (s : jsstr) | NBuf (bs : bytes)
| NArr (l : list nodev) | NObj (l : list (jsstr * nodev)).

(** The value [JSON.stringify] writes: a typed array is an object with its indices as keys. *)
Fixpoint to_json (v : jsv) : json :=
  match v with
  | VNull => JNull | VBool b => JBool b | VNum n => JNum (Int n) | VStr s => JStr s
  | VBytes bs => JObj (imap (λ i b, (dec (Z.of_nat i), JNum (Int b))) bs)
  | VArr l => JArr (map to_json l)
  | VObj l => JObj (map (λ kv, (js kv.1, to_json kv.2)) l)
  end.

(** [Array.from(bytes)] *)
Definition from_bytes (bs : bytes) : jsv := VArr (map VNum bs).
Definition text_bytes (s : jsstr) : jsv := from_bytes (utf8_encode s).

(** ** UUIDs *)

Inductive client_error :=
| InvalidUuid (s : jsstr) | InvalidUuidBytes (n : Z) | NotAuthenticated | TimedOut (cmd : string)
| Safe (key : string) | NoSessionToken | BadJson | Network | ClientTypeError.

Definition uuidStringToBytes (s : jsstr) : result client_error bytes :=
  let hex := List.filter (λ c, negb (c =? 45)) s in
  if negb (len hex =? 32) || negb (forallb is_hex hex) then Throw (InvalidUuid s) else Ok (hexToBytes hex).

(** [uuidOut] and [uuidOutOptional] *)
Definition uuidOut (id : jsstr) : result client_error jsv := bs ← uuidStringToBytes id; Ok (VBytes bs).
Definition uuidOutOptional (id : option jsstr) : result client_error jsv :=
  match id with None | Some [] => Ok VNull | Some id => uuidOut id end.

Section conversions.
(** The byte a typed array makes of an element that is no integer. *)
Context (other : json → Z).

Definition to_u8 (v : json) : Z := match v with JNum (Int n) => n mod 256 | _ => other v end.

(** [Object.values]; [None] throws. *)
Definition object_values (v : option json) : option (list json) :=
  match v with
  | None | Some JNull => None
  | Some (JObj l) => Some (map snd l)
  | Some (JArr l) => Some l
  | Some (JStr s) => Some (map (λ c, JStr [c]) s)
  | Some _ => Some []
  end.

Definition uuid_text (bs : bytes) : jsstr :=
  let hex := bytesToHex bs in
  slice hex 0 8 ++ js "-" ++ slice hex 8 12 ++ js "-" ++ slice hex 12 16 ++ js "-" ++ slice hex 16 20 ++ js "-" ++ drop 20 hex.

Definition uuidBytesToString (b : option json) : result client_error jsstr :=
  match object_values b with
  | None => Throw ClientTypeError
  | Some l =>
      let bs := map to_u8 l in
      if len bs =? 16 then Ok (uuid_text bs) else Throw (InvalidUuidBytes (len bs))
  end.

(** [new Uint8Array(v)] of what an answer holds: an array gives its elements, an
    object without a length gives none, a missing value none. *)
Definition new_Uint8Array (v : option json) : bytes :=
  match v with
  | Some (JArr l) => map to_u8 l
  | Some (JNum (Int n)) => zeros (Z.to_nat n)
  | _ => []
  end.

(** ** The server *)

(** [Buffer.from(array)] when the first element is a number. *)
Fixpoint convertArraysToBuffers (v : json) : nodev :=
  match v with
  | JNull => NNull | JBool b => NBool b | JNum n => NNum n | JStr s => NStr s
  | JArr l =>
      match l with
      | JNum _ :: _ => NBuf (map to_u8 l)
      | _ => NArr (map convertArraysToBuffers l)
      end
  | JObj l => NObj (map (λ kv, (kv.1, convertArraysToBuffers kv.2)) l)
  end.

Fixpoint convertBuffersToArrays (v : nodev) : json :=
  match v with
  | NNull => JNull | NBool b => JBool b | NNum n => JNum n | NStr s => JStr s
  | NBuf bs => JArr (map (λ b, JNum (Int b)) bs)
  | NArr l => JArr (map convertBuffersToArrays l)
  | NObj l => JObj (map (λ kv, (kv.1, convertBuffersToArrays kv.2)) l)
  end.

(** The headers the route looks at, and its body; [rq_method] is the property key of
    [method], [None] when it is missing or not truthy. *)
Record RpcRequest := mkRpc { rq_host : option jsstr; rq_origin : option jsstr; rq_referer : option jsstr; rq_method : option jsstr; rq_payload : option json }.

(** [/^https?:\/\/(localhost|127\.0\.0\.1|::1|\[::1\])(:\d+)?$/i] *)
Definition strip_scheme (s : jsstr) : option jsstr :=
  let l := map ascii_lower_unit s in
  if starts_with (js "http://") l then Some (drop 7 l) else if starts_with (js "https://") l then Some (drop 8 l) else None.
Definition port_ok (s : jsstr) : bool :=
  match s with [] => true | c :: ds => (c =? 58) && negb (str_empty ds) && forallb is_digit ds end.
Definition local_origin (s : jsstr) : bool :=
  match strip_scheme s with
  | None => false
  | Some rest => existsb (λ h, starts_with h rest && port_ok (drop (length h) rest)) (map js ["localhost"; "127.0.0.1"; "::1"; "[::1]"]%string)
  end.

(** The same-origin pattern of the request's own host. *)
Definition same_origin (host : option jsstr) (s : jsstr) : bool :=
  match host, strip_scheme s with
  | Some (c :: h), Some rest => str_eqb rest (map ascii_lower_unit (c :: h))
  | _, _ => false
  end.
Definition isAllowedOrigin (host : option jsstr) (s : jsstr) : bool := same_origin host s || local_origin s.

(** [url_origin]: [new URL(referer).origin], [None] when it throws. *)
Definition origin_allowed (url_origin : jsstr → option jsstr) (r : RpcRequest) : option string :=
  match rq_origin r, rq_referer r with
  | Some (c :: o), _ => if isAllowedOrigin (rq_host r) (c :: o) then None else Some "forbidden_origin"%string
  | _, Some (c :: f) =>
      match url_origin (c :: f) with
      | Some o => if isAllowedOrigin (rq_host r) o then None else Some "forbidden_origin"%string
      | None => Some "forbidden_referer"%string
      end
  | _, _ => Some "forbidden_no_origin"%string
  end.

(** What calling a function of the gRPC client object does: the callback gets a
    response or an error; it is never called (as with [close] or [getChannel], which
    take no callback); or the call throws. *)
Inductive grpc_answer := GrpcOk (response : nodev) | GrpcError (code message : json) | GrpcSilent | GrpcThrows.

(** The client object of the gRPC library: the names under which it has a function, its
    own ones and those it inherits, which are more than the methods of the daemon. *)
Record GrpcClient := mkGrpc { gc_functions : list jsstr; gc_call : jsstr → nodev → grpc_answer }.

(** What the route sends: [res.json(body)] with a status, a page of the framework
    (no JSON) when the handler throws, or nothing. *)
Inductive http_reply := Replied (status : Z) (body : option json) | NoReply.
(** With the call that was made on the client object. *)
Record HttpAnswer := mkAnswer { ha_reply : http_reply; ha_called : option (jsstr * nodev) }.

Definition refuse (status : Z) (msg : jsstr) : HttpAnswer :=
  mkAnswer (Replied status (Some (JObj [(js "error", JStr msg)]))) None.

(** [convertArraysToBuffers(payload || {})] *)
Definition grpcPayload (r : RpcRequest) : nodev :=
  convertArraysToBuffers (match rq_payload r with Some p => if truthy (Some p) then p else JObj [] | None => JObj [] end).

Definition api_rpc (url_origin : jsstr → option jsstr) (grpcClient : GrpcClient) (rate_ok : bool) (r : RpcRequest) : HttpAnswer :=
  if negb rate_ok then refuse 429 (js "too_many_requests")
  else match origin_allowed url_origin r with
  | Some why => refuse 403 (js why)
  | None =>
      match rq_method r with
      | None | Some [] => refuse 400 (js "Method required")
      | Some m =>
          if negb (existsb (str_eqb m) (gc_functions grpcClient)) then refuse 404 (js "Method " ++ m ++ js " not found")
          else
            mkAnswer
              (match gc_call grpcClient m (grpcPayload r) with
               | GrpcOk response =>
                   Replied 200 (Some (JObj [(js "status", JStr (js "Ok")); (js "data", convertBuffersToArrays response)]))
               | GrpcError code message =>
                   Replied 200 (Some (JObj [(js "status", JStr (js "Error")); (js "data", JObj [(js "code", code); (js "message", message)])]))
               | GrpcSilent => NoReply
               | GrpcThrows => Replied 500 None
               end) (Some (m, grpcPayload r))
      end
  end.
End conversions.

(** ** The client *)

(** The part of the key store the client uses. *)
Record Tab := mkTab { tb_token : option jsstr; tb_ticket : option (bytes * bytes) }.
Definition store (t : Tab) (token : jsstr) : Tab := mkTab (Some token) (tb_ticket t).
Definition storeWipeTicket (t : Tab) (ct nonce : bytes) : Tab := mkTab (tb_token t) (Some (ct, nonce)).
Definition clear (t : Tab) : Tab := mkTab None None.

(** [this.token]; an empty token counts as none. *)
Definition token (t : Tab) : result client_error jsv :=
  match tb_token t with Some (c :: s) => Ok (VStr (c :: s)) | _ => Throw NotAuthenticated end.

Definition opt_str (o : option jsstr) : jsv := match o with Some s => VStr s | None => VNull end.

(** The commands with their arguments; the blobs are the values that are serialised. *)
Inductive Command :=
| Ping | GetStatus | GetLoginHints | GetPasskeyChallenge
| UnlockWithPasskey (credentialId authData signature clientDataHash : bytes)
| Unlock (password : jsstr) (yubiKeyResponse : option bytes)
| QuickUnlockEnroll (password : jsstr) (dbk credentialId pubKeyCbor : bytes)
| QuickUnlock (dbk : bytes) | QuickUnlockRevoke
| EnrollRecoveryKey (recoveryKey : jsstr) | UnlockWithRecoveryKey (recoveryKey : jsstr)
| ForensicWipe (ct nonce : bytes) | Lock
| ListFido2Keys | RegisterFido2 (devicePath : jsstr) (name : option jsstr) (residentKey : bool)
| RemoveFido2 (id : jsstr) | ListFido2Devices
| ListFolders | AddFolder (name : jsstr) (description iconSvg : option jsstr)
| UpdateFolder (id name : jsstr) (description iconSvg : option jsstr)
| DeleteFolder (id : jsstr) (moveCredentialsTo : option jsstr) | ReorderFolders (orderedIds : list jsstr)
| ListCredentials (folderId : option jsstr) | GetCredential (id : jsstr)
| AddCredential (folderId : option jsstr) (credential : json)
| UpdateCredential (id : jsstr) (folderId : option jsstr) (credential : json)
| DeleteCredential (id : jsstr)
| GetAssetHolder | UpdateAssetHolder (assetHolder : json) | GetOtpCode (credentialId : jsstr)
| ChangePassword (oldPassword newPassword : jsstr) | VerifyMasterPassword (password : jsstr)
| UpdateLoginPolicy (passwordEnabled totpEnabled emailOtpEnabled : bool) (duressMaxAttempts : Z)
| GetProfile | UpdateProfile (firstName lastName email : jsstr)
| UploadProfilePicture (imageBytes : bytes) | RemoveProfilePicture
| CheckPasswordBreached (password : jsstr) | GetAuditLog (limit offset : Z) | VerifyAuditChain.

Definition command_name (c : Command) : string :=
  match c with
  | Ping => "Ping" | GetStatus => "GetStatus" | GetLoginHints => "GetLoginHints" | GetPasskeyChallenge => "GetPasskeyChallenge"
  | UnlockWithPasskey _ _ _ _ => "UnlockWithPasskey" | Unlock _ _ => "Unlock" | QuickUnlockEnroll _ _ _ _ => "QuickUnlockEnroll"
  | QuickUnlock _ => "QuickUnlock" | QuickUnlockRevoke => "QuickUnlockRevoke" | EnrollRecoveryKey _ => "EnrollRecoveryKey"
  | UnlockWithRecoveryKey _ => "UnlockWithRecoveryKey" | ForensicWipe _ _ => "ForensicWipe" | Lock => "Lock"
  | ListFido2Keys => "ListFido2Keys" | RegisterFido2 _ _ _ => "RegisterFido2" | RemoveFido2 _ => "RemoveFido2"
  | ListFido2Devices => "ListFido2Devices" | ListFolders => "ListFolders" | AddFolder _ _ _ => "AddFolder"
  | UpdateFolder _ _ _ _ => "UpdateFolder" | DeleteFolder _ _ => "DeleteFolder" | ReorderFolders _ => "ReorderFolders"
  | ListCredentials _ => "ListCredentials" | GetCredential _ => "GetCredential" | AddCredential _ _ => "AddCredential"
  | UpdateCredential _ _ _ => "UpdateCredential" | DeleteCredential _ => "DeleteCredential" | GetAssetHolder => "GetAssetHolder"
  | UpdateAssetHolder _ => "UpdateAssetHolder" | GetOtpCode _ => "GetOtpCode" | ChangePassword _ _ => "ChangePassword"
  | VerifyMasterPassword _ => "VerifyMasterPassword" | UpdateLoginPolicy _ _ _ _ => "UpdateLoginPolicy" | GetProfile => "GetProfile"
  | UpdateProfile _ _ _ => "UpdateProfile" | UploadProfilePicture _ => "UploadProfilePicture"
  | RemoveProfilePicture => "RemoveProfilePicture" | CheckPasswordBreached _ => "CheckPasswordBreached"
  | GetAuditLog _ _ => "GetAuditLog" | VerifyAuditChain => "VerifyAuditChain"
  end%string.

Definition json_bytes (j : json) : jsv := text_bytes (stringify j).

(** [{ session_token: this.token, ...fields }] *)
Definition auth (t : Tab) (fields : result client_error (list (string * jsv))) : result client_error (option jsv) :=
  tok ← token t; fs ← fields; Ok (Some (VObj (("session_token"%string, tok) :: fs))).

(** The payloads; [None] is [undefined].  Profile, passwords and audit log: *)
Definition payload_account (t : Tab) (c : Command) : result client_error (option jsv) :=
  match c with
  | ChangePassword old new => auth t (Ok [("old_password", text_bytes old); ("new_password", text_bytes new)]%string)
  | VerifyMasterPassword p => auth t (Ok [("password"%string, text_bytes p)])
  | UpdateLoginPolicy p to eo n =>
      auth t (Ok [("password_login_enabled", VBool p); ("totp_enabled", VBool to); ("email_otp_enabled", VBool eo);
                  ("duress_max_attempts", VNum n)]%string)
  | UpdateProfile f l e => auth t (Ok [("first_name", VStr f); ("last_name", VStr l); ("email", VStr e)]%string)
  | UploadProfilePicture b => auth t (Ok [("image_bytes"%string, from_bytes b)])
  | CheckPasswordBreached p => auth t (Ok [("password_bytes"%string, text_bytes p)])
  | GetAuditLog n o => auth t (Ok [("limit", VNum n); ("offset", VNum o)]%string)
  | GetProfile | RemoveProfilePicture | VerifyAuditChain => auth t (Ok [])
  | _ => Ok None
  end.

(** Keys, folders, credentials and asset holder: *)
Definition payload_items (t : Tab) (c : Command) : result client_error (option jsv) :=
  match c with
  | RegisterFido2 path name rk =>
      auth t (Ok [("device_path", VStr path); ("name", opt_str name); ("resident_key", VBool rk)]%string)
  | RemoveFido2 id => auth t (Ok [("id"%string, VStr id)])
  | AddFolder name desc icon => auth t (Ok [("name", VStr name); ("description", opt_str desc); ("icon_svg", opt_str icon)]%string)
  | UpdateFolder id name desc icon =>
      auth t (i ← uuidOut id; Ok [("id", i); ("name", VStr name); ("description", opt_str desc); ("icon_svg", opt_str icon)]%string)
  | DeleteFolder id move => auth t (i ← uuidOut id; m ← uuidOutOptional move; Ok [("id", i); ("move_credentials_to", m)]%string)
  | ReorderFolders ids => auth t (l ← mapM uuidOut ids; Ok [("ordered_ids"%string, VArr l)])
  | ListCredentials f => auth t (i ← uuidOutOptional f; Ok [("folder_id"%string, i)])
  | GetCredential id => auth t (i ← uuidOut id; Ok [("id"%string, i)])
  | AddCredential f cred => auth t (i ← uuidOutOptional f; Ok [("folder_id", i); ("blob", json_bytes cred)]%string)
  | UpdateCredential id f cred =>
      auth t (i ← uuidOut id; k ← uuidOutOptional f; Ok [("id", i); ("folder_id", k); ("blob", json_bytes cred)]%string)
  | DeleteCredential id => auth t (i ← uuidOut id; Ok [("id"%string, i)])
  | UpdateAssetHolder h => auth t (Ok [("blob"%string, json_bytes h)])
  | GetOtpCode id => auth t (i ← uuidOut id; Ok [("credential_id"%string, i)])
  | ListFido2Keys | ListFolders | GetAssetHolder => auth t (Ok [])
  | _ => payload_account t c
  end.

(** Unlocking, recovery, wipe and lock, then the others: *)
Definition payload (t : Tab) (c : Command) : result client_error (option jsv) :=
  match c with
  | UnlockWithPasskey cid ad sg h =>
      Ok (Some (VObj [("credential_id", from_bytes cid); ("auth_data", from_bytes ad); ("signature", from_bytes sg);
                      ("client_data_hash", from_bytes h)]%string))
  | Unlock p yk => Ok (Some (VObj [("password", text_bytes p);
                     ("yubikey_response", match yk with Some b => from_bytes b | None => VNull end)]%string))
  | QuickUnlockEnroll p dbk cid pk =>
      auth t (Ok [("password", text_bytes p); ("credential_id", from_bytes cid); ("pub_key_cbor", from_bytes pk); ("dbk", from_bytes dbk)]%string)
  | QuickUnlock dbk => Ok (Some (VObj [("dbk"%string, from_bytes dbk)]))
  | EnrollRecoveryKey k => auth t (Ok [("recovery_key"%string, text_bytes k)])
  | UnlockWithRecoveryKey k => Ok (Some (VObj [("recovery_key"%string, text_bytes k)]))
  | ForensicWipe ct nonce =>
      Ok (Some (VObj [("wipe_ticket_ciphertext", from_bytes ct); ("wipe_ticket_nonce", from_bytes nonce)]%string))
  | Lock | QuickUnlockRevoke => auth t (Ok [])
  | _ => payload_items t c
  end.

Definition timeout_of (c : Command) : Z :=
  match c with CheckPasswordBreached _ => 120000 | ForensicWipe _ _ => 10000 | _ => 60000 end.

(** What [fetch] brings: the answer after some time, a failure of the network,
    or nothing until the request is aborted. *)
Inductive fetched := Answer (ms : Z) (body : option json) | Unreachable | Silent.

(** [SAFE_MESSAGES[code]]: the key of the message. *)
Definition safe_key (code : jsstr) : string :=
  if str_eqb code (js "16") then "common.daemonSessionExpired" else if str_eqb code (js "7") then "common.daemonAuthFailed"
  else if str_eqb code (js "5") then "common.daemonNotFound" else if str_eqb code (js "6") then "common.daemonAlreadyExists"
  else if str_eqb code (js "3") then "common.daemonInvalidInput" else if str_eqb code (js "9") then "common.daemonVaultLocked"
  else if str_eqb code (js "14") then "common.daemonUnavailable" else if str_eqb code (js "401") then "common.daemonSessionExpired"
  else "common.daemonOperationFailed".

(** [String(errData?.['code'] ?? '')] of a number or a string. *)
Definition code_text (v : option json) : jsstr :=
  match v with Some (JNum n) => num_text n | Some (JStr s) => s | _ => [] end.

(** [request]: the body of the answer, unless its status is ['Error']; an answer that
    is no JSON throws, a missing or null body throws on [data.status]. *)
Definition request (c : Command) (f : fetched) : result client_error json :=
  match f with
  | Unreachable => Throw Network
  | Silent => Throw (TimedOut (command_name c))
  | Answer ms body =>
      if timeout_of c <? ms then Throw (TimedOut (command_name c))
      else match body with
      | None => Throw BadJson
      | Some JNull => Throw ClientTypeError
      | Some data =>
          match prop "status" data with
          | Some (JStr st) =>
              if str_eqb st (js "Error") then Throw (Safe (safe_key (code_text (opt_prop "code" (prop "data" data))))) else Ok data
          | _ => Ok data
          end
      end
  end.

(** [rpc] and [rpcJson] *)
Definition rpc (c : Command) (f : fetched) : result client_error (option json) := data ← request c f; Ok (prop "data" data).
Definition rpcJson `{JsFloat} (other : json → Z) (c : Command) (f : fetched) : result client_error json :=
  data ← rpc c f;
  match parse (utf8_decode (new_Uint8Array other data)) with Some v => Ok v | None => Throw BadJson end.

(** [addFolder] and [addCredential]: the id of what was created. *)
Definition created (other : json → Z) (c : Command) (f : fetched) : result client_error jsstr :=
  data ← rpc c f;
  match data with
  | None | Some JNull => Throw ClientTypeError
  | Some d => uuidBytesToString other (prop "id" d)
  end.

(** The four unlocking commands: the tab takes the token and the ticket. *)
Definition unlocked (other : json → Z) (t : Tab) (c : Command) (f : fetched) : Tab * result client_error unit :=
  match rpc c f with
  | Throw e => (t, Throw e)
  | Ok data =>
      match opt_prop "session_token" data with
      | Some (JStr (x :: tok)) =>
          let ct := opt_prop "wipe_ticket_ciphertext" data in
          let nonce := opt_prop "wipe_ticket_nonce" data in
          let t := match ct, nonce with
                   | Some (JArr (a :: l)), Some (JArr (b :: k)) =>
                       storeWipeTicket t (new_Uint8Array other ct) (new_Uint8Array other nonce)
                   | _, _ => t
                   end in
          (store t (x :: tok), Ok tt)
      | _ => (t, Throw NoSessionToken)
      end
  end.

(** [lock]: the tab is cleared when the daemon answered. *)
Definition lock (t : Tab) (f : fetched) : Tab * result client_error unit :=
  match token t with
  | Throw e => (t, Throw e)
  | Ok _ => match request Lock f with Ok _ => (clear t, Ok tt) | Throw e => (t, Throw e) end
  end.

(** [getAuditLog]: a value that is no array of bytes, or no JSON, counts as an empty log. *)
Definition getAuditLog `{JsFloat} (other : json → Z) (limit offset : Z) (f : fetched) : result client_error json :=
  data ← rpc (GetAuditLog limit offset) f;
  match data with
  | Some (JArr (b :: l)) => Ok (default (JArr []) (parse (utf8_decode (new_Uint8Array other data))))
  | _ => Ok (JArr [])
  end.

(** [getLoginHints]: the flags as the answer has them, the keys as bytes. *)
Record LoginHints := mkHints {
  lh_password_login_enabled : option json; lh_totp_enabled : option json; lh_email_otp_enabled : option json;
  lh_recovery_key_active : bool; lh_fido2_ids : list bytes }.

Definition getLoginHints (other : json → Z) (f : fetched) : result client_error LoginHints :=
  data ← rpc GetLoginHints f;
  match data with
  | None | Some JNull => Throw ClientTypeError
  | Some d =>
      match prop "fido2_ids" d with
      | Some (JArr ids) =>
          Ok (mkHints (prop "password_login_enabled" d) (prop "totp_enabled" d) (prop "email_otp_enabled" d)
                (truthy (prop "recovery_key_active" d)) (map (λ a, new_Uint8Array other (Some a)) ids))
      | _ => Throw ClientTypeError
      end
  end.

(** [getProfile]: the time of the last password change comes in seconds; [None] of a
    picture or a time is [undefined]. *)
Record DaemonProfile := mkProfile {
  dp_firstName : option json; dp_lastName : option json; dp_email : option json;
  dp_profilePic : option bytes; dp_passwordChangedAt : option Z }.

Definition getProfile (other : json → Z) (f : fetched) : result client_error DaemonProfile :=
  data ← rpc GetProfile f;
  match data with
  | None | Some JNull => Throw ClientTypeError
  | Some d =>
      let pic := prop "profile_pic" d in
      Ok (mkProfile (prop "first_name" d) (prop "last_name" d) (prop "email" d)
            (if truthy pic then Some (new_Uint8Array other pic) else None)
            (match prop "password_changed_at" d with
             | Some (JNum (Int n)) => if n =? 0 then None else Some (n * 1000)
             | _ => None
             end))
  end.

(** [register]: unlock, then the profile; the second payload is what is sent, its
    outcome does not matter. *)
Definition register (other : json → Z) (t : Tab) (password firstName lastName email : jsstr) (f : fetched)
    : Tab * option (result client_error (option jsv)) * result client_error unit :=
  match unlocked other t (Unlock password None) f with
  | (t, Throw e) => (t, None, Throw e)
  | (t, Ok _) => (t, Some (payload t (UpdateProfile firstName lastName email)), Ok tt)
  end.

(** One command from the tab through the bridge to the daemon, answered in time. *)
Definition call (other : json → Z) (url_origin : jsstr → option jsstr) (d : GrpcClient) (rate_ok : bool)
    (host origin : option jsstr) (t : Tab) (c : Command) : result client_error HttpAnswer :=
  p ← payload t c;
  Ok (api_rpc other url_origin d rate_ok
        (mkRpc host origin None (Some (js (command_name c))) (to_json <$> p))).

Definition answered (a : HttpAnswer) : fetched :=
  match ha_reply a with Replied _ body => Answer 0 body | NoReply => Silent end.

(** * The daemon behind the bridge ([web/src/utils/daemonClient.ts], [web/server.js])

    Which calls the bridge forwards and to whom, what arrives of the identifiers,
    and what the client makes of refusals. *)

(** ** UUIDs *)

Lemma bytesToHex_no_dash bs : Bytes bs → 45 ∉ bytesToHex bs.
Proof.
  intros Hb Hin. assert (H := bytesToHex_hex bs Hb). rewrite Forall_forall in H. apply H in Hin. by vm_compute in Hin.
Qed.

Lemma filter_dash s : 45 ∉ s → List.filter (λ c, negb (c =? 45)) s = s.
Proof.
  induction s as [|c s IH]; [done|]. intros [Hc Hs]%not_elem_of_cons. cbn. destruct (Z.eqb_spec c 45); [congruence|]. cbn. by rewrite IH.
Qed.

Lemma uuid_text_hex bs : length bs = 16%nat → Bytes bs → List.filter (λ c, negb (c =? 45)) (uuid_text bs) = bytesToHex bs.
Proof.
  intros Hl Hb. assert (Hn := bytesToHex_no_dash bs Hb). unfold uuid_text. rewrite !List.filter_app.
  assert (D : ∀ a b : nat, List.filter (λ c, negb (c =? 45)) (slice (bytesToHex bs) a b) = slice (bytesToHex bs) a b).
  { intros a b. apply filter_dash. intros Hin. apply Hn. unfold slice in Hin. apply elem_of_take in Hin as (i & Hi & _).
    apply list_elem_of_lookup_2 in Hi. by eapply subseteq_drop. }
  assert (E : List.filter (λ c, negb (c =? 45)) (drop 20 (bytesToHex bs)) = drop 20 (bytesToHex bs)).
  { apply filter_dash. intros Hin. apply Hn. by eapply subseteq_drop. }
  rewrite !D, E. change (List.filter (λ c, negb (c =? 45)) (js "-")) with (@nil Z). rewrite !app_nil_l.
  assert (Hlen := bytesToHex_length bs). rewrite Hl in Hlen. set (h := bytesToHex bs) in *. clearbody h. unfold slice.
  do 32 (destruct h as [|? h]; [done|]). by destruct h.
Qed.

Lemma uuid_text_bytes bs : length bs = 16%nat → Bytes bs → uuidStringToBytes (uuid_text bs) = Ok bs.
Proof.
  intros Hl Hb. unfold uuidStringToBytes. rewrite uuid_text_hex by done. unfold len. rewrite bytesToHex_length, Hl.
  assert (forallb is_hex (bytesToHex bs) = true) as ->.
  { apply forallb_forall. intros c Hc. assert (H := bytesToHex_hex bs Hb). rewrite Forall_forall in H. apply H. by apply list_elem_of_In. }
  cbn. by rewrite hex_roundtrip.
Qed.

Lemma uuid_text_length bs : length bs = 16%nat → len (uuid_text bs) = 36.
Proof.
  intros Hl. unfold uuid_text. rewrite !len_app. unfold slice, len. rewrite !length_take, !length_drop, bytesToHex_length, Hl. done.
Qed.

(** ** The bridge *)

Section bridge.
Context (other : json → Z).

(** Bytes arrive as a buffer. *)
Lemma from_bytes_buffer b bs : Bytes (b :: bs) → convertArraysToBuffers other (to_json (from_bytes (b :: bs))) = NBuf (b :: bs).
Proof.
  intros Hb. unfold from_bytes. cbn [to_json map convertArraysToBuffers]. f_equal.
  assert (E : ∀ l, Bytes l → map (to_u8 other) (map to_json (map VNum l)) = l).
  { intros l. induction 1 as [|x l Hx Hl IH]; [done|]. cbn. rewrite IH, Z.mod_small by done. done. }
  exact (E (b :: bs) Hb).
Qed.

(** A typed array arrives as an object. *)
Lemma typed_array_object bs : ∃ l, convertArraysToBuffers other (to_json (VBytes bs)) = NObj l ∧ length l = length bs.
Proof. eexists. split; [done|]. by rewrite length_map, length_imap. Qed.

Lemma called_iff url_origin d rate_ok r m p :
  ha_called (api_rpc other url_origin d rate_ok r) = Some (m, p) ↔
  rate_ok = true ∧ origin_allowed url_origin r = None ∧ rq_method r = Some m ∧ m ≠ [] ∧ m ∈ gc_functions d ∧
  p = grpcPayload other r.
Proof.
  unfold api_rpc. destruct rate_ok; [|naive_solver]. cbn [negb]. destruct (origin_allowed url_origin r); [naive_solver|].
  destruct (rq_method r) as [[|x q]|]; [naive_solver| |naive_solver].
  assert (E : existsb (str_eqb (x :: q)) (gc_functions d) = true ↔ x :: q ∈ gc_functions d).
  { rewrite existsb_exists. setoid_rewrite list_elem_of_In. setoid_rewrite str_eqb_eq. naive_solver. }
  destruct (existsb _ _); cbn; [naive_solver|]. split; [done|]. intros (_ & _ & [= <-] & _ & H & _). by apply E in H.
Qed.

Lemma not_called url_origin d rate_ok r :
  ha_called (api_rpc other url_origin d rate_ok r) = None →
  ∃ st msg, ha_reply (api_rpc other url_origin d rate_ok r) = Replied st (Some (JObj [(js "error", JStr msg)])) ∧ 400 <= st.
Proof.
  unfold api_rpc, refuse. destruct rate_ok; [|by eexists _, _]. cbn [negb]. destruct (origin_allowed url_origin r); [by eexists _, _|].
  destruct (rq_method r) as [[|x q]|]; [by eexists _, _| |by eexists _, _]. destruct (existsb _ _) eqn:E; [done|by eexists _, _].
Qed.

(** The client takes a refusal for an answer. *)
Lemma request_refused c msg : request c (Answer 0 (Some (JObj [(js "error", JStr msg)]))) = Ok (JObj [(js "error", JStr msg)]).
Proof. unfold request. assert ((timeout_of c <? 0) = false) as -> by (by destruct c). done. Qed.
End bridge.

(** What the client gets for an id that is text. *)
Lemma created_text other c (bs : bytes) u : length bs = 16%nat → len u = 36 →
  created other c (Answer 0 (Some (JObj [(js "status", JStr (js "Ok")); (js "data", JObj [(js "id", JStr u)])]))) = Throw (InvalidUuidBytes 36).
Proof.
  intros _ Hu. unfold created, rpc, request. assert ((timeout_of c <? 0) = false) as -> by (by destruct c).
  set (body := JObj _). assert (E1 : prop "status" body = Some (JStr (js "Ok"))) by done.
  assert (E2 : prop "data" body = Some (JObj [(js "id", JStr u)])) by done. assert (E3 : prop "id" (JObj [(js "id", JStr u)]) = Some (JStr u)) by done.
  rewrite E1. change (str_eqb (js "Ok") (js "Error")) with false. unfold mbind, result_bind. rewrite E2, E3.
  unfold uuidBytesToString. cbn [object_values]. unfold len in *. rewrite !length_map, Hu. done.
Qed.

Lemma called_reply other url_origin d rate_ok r m p resp :
  ha_called (api_rpc other url_origin d rate_ok r) = Some (m, p) → gc_call d m p = GrpcOk resp →
  ha_reply (api_rpc other url_origin d rate_ok r)
  = Replied 200 (Some (JObj [(js "status", JStr (js "Ok")); (js "data", convertBuffersToArrays resp)])).
Proof.
  unfold api_rpc, refuse. destruct rate_ok; [|done]. cbn [negb]. destruct (origin_allowed url_origin r); [done|].
  destruct (rq_method r) as [[|x q]|]; [done| |done]. destruct (existsb _ _); [|done]. cbn [negb ha_called ha_reply].
  by intros [= <- <-] ->.
Qed.

(** The commands that name one thing by its UUID, and the field that holds it. *)
Definition id_field (c : Command) (id : jsstr) : option string :=
  match c with
  | UpdateFolder i _ _ _ | DeleteFolder i _ | GetCredential i | UpdateCredential i _ _ | DeleteCredential i =>
      if str_eqb i id then Some "id"%string else None
  | GetOtpCode i => if str_eqb i id then Some "credential_id"%string else None
  | _ => None
  end.

Fixpoint node_key (k : jsstr) (l : list (jsstr * nodev)) : option nodev :=
  match l with [] => None | (k', v) :: l => if str_eqb k' k then Some v else node_key k l end.

Lemma payload_id t c id k q :
  payload t c = Ok q → id_field c id = Some k →
  ∃ bs l, uuidStringToBytes id = Ok bs ∧ q = Some (VObj l) ∧ ∀ other, ∃ l',
    convertArraysToBuffers other (to_json (VObj l)) = NObj l' ∧ node_key (js k) l' = Some (convertArraysToBuffers other (to_json (VBytes bs))).
Proof.
  intros Hp Hk. destruct c; cbn [id_field] in Hk; try discriminate; destruct (str_eqb _ _) eqn:E; try discriminate;
    injection Hk as <-; apply str_eqb_eq in E as <-; cbn [payload payload_items payload_account] in Hp; unfold auth, token, uuidOut in Hp;
    (destruct (tb_token t) as [[|x tok]|]; [done| |done]); cbn in Hp;
    match type of Hp with context [uuidStringToBytes ?i] => destruct (uuidStringToBytes i) as [bs|] eqn:Eb; [|done] end; cbn in Hp;
    repeat (match type of Hp with context [uuidOutOptional ?o] => destruct (uuidOutOptional o); [|done]; cbn in Hp end);
    injection Hp as <-; eexists bs, _; (split; [done|]); (split; [done|]); intros other; eexists; (split; [done|]); done.
Qed.

(** The origin a request comes from. *)
Definition request_origin (url_origin : jsstr → option jsstr) (r : RpcRequest) (o : jsstr) : Prop :=
  (rq_origin r = Some o ∧ o ≠ []) ∨
  ((rq_origin r = None ∨ rq_origin r = Some []) ∧ ∃ f, rq_referer r = Some f ∧ f ≠ [] ∧ url_origin f = Some o).

Lemma origin_allowed_iff url_origin r : origin_allowed url_origin r = None ↔
  ∃ o, request_origin url_origin r o ∧ isAllowedOrigin (rq_host r) o = true.
Proof.
  unfold origin_allowed, request_origin. destruct (rq_origin r) as [[|c o]|].
  2: { destruct (isAllowedOrigin (rq_host r) (c :: o)) eqn:E; [split; [|done]|split; [done|]].
       - intros _. exists (c :: o). split; [by left|done].
       - intros (o' & [[[= <-] _]|[[?|?] _]] & ?); congruence. }
  all: destruct (rq_referer r) as [[|x f]|];
    [split; [done|naive_solver]| |split; [done|naive_solver]].
  all: destruct (url_origin (x :: f)) as [o|] eqn:Eo; [|split; [done|naive_solver]].
  all: destruct (isAllowedOrigin (rq_host r) o) eqn:E; [split; [intros _|done]|split; [done|]].
  1,3: exists o; split; [right; split; [auto|by exists (x :: f)]|done].
  all: intros (o' & [[? ?]|[_ (f' & [= <-] & _ & Ho)]] & ?); congruence.
Qed.

Lemma allowed_iff host o : isAllowedOrigin host o = true ↔
  ∃ rest, strip_scheme o = Some rest ∧
    ((∃ h, host = Some h ∧ h ≠ [] ∧ rest = map ascii_lower_unit h) ∨
     ∃ h port, h ∈ map js ["localhost"; "127.0.0.1"; "::1"; "[::1]"]%string ∧ rest = h ++ port ∧ port_ok port = true).
Proof.
  unfold isAllowedOrigin, same_origin, local_origin. destruct (strip_scheme o) as [rest|];
    [|split; [by destruct host as [[]|]|by intros (? & ? & _)]].
  rewrite orb_true_iff, existsb_exists. setoid_rewrite andb_true_iff. setoid_rewrite list_elem_of_In. split.
  - intros H. exists rest. split; [done|]. destruct H as [H|(h & Hh & H1 & H2)].
    + left. destruct host as [[|c h]|]; try done. exists (c :: h). split; [done|]. split; [done|]. by apply str_eqb_eq.
    + right. apply starts_with_spec in H1 as [port ->]. rewrite drop_app_length in H2. by exists h, port.
  - intros (? & [= <-] & [(h & -> & Hne & ->)|(h & port & Hh & -> & Hp)]).
    + left. destruct h as [|c h]; [done|]. by apply str_eqb_eq.
    + right. exists h. split; [done|]. split; [by apply starts_with_spec; exists port|]. by rewrite drop_app_length.
Qed.

Module DaemonSpec.

(** C39: the bridge makes a call on the gRPC client object exactly when the rate
    limit allows it, the request names a function the object has under that name, and
    the request's origin, or that of its referer when it has none, is the host of the
    request or a local one; and then the call carries the request's payload, its number
    arrays as buffers.  The name need not be one of the daemon's methods: see
    [bridge_calls_close]. *)
Theorem rpc_guarded other url_origin d rate_ok r m p :
  ha_called (api_rpc other url_origin d rate_ok r) = Some (m, p) ↔
  rate_ok = true ∧ rq_method r = Some m ∧ m ≠ [] ∧ m ∈ gc_functions d ∧ p = grpcPayload other r ∧
  ∃ o rest, request_origin url_origin r o ∧ strip_scheme o = Some rest ∧
    ((∃ h, rq_host r = Some h ∧ h ≠ [] ∧ rest = map ascii_lower_unit h) ∨
     ∃ h port, h ∈ map js ["localhost"; "127.0.0.1"; "::1"; "[::1]"]%string ∧ rest = h ++ port ∧ port_ok port = true).
Proof.
  rewrite called_iff, origin_allowed_iff. setoid_rewrite allowed_iff. split.
  - intros (H1 & (o & Ho & rest & Hr) & H2 & H3 & H4 & H5). split_and!; try done. by exists o, rest.
  - intros (H1 & H2 & H3 & H4 & H5 & o & rest & Ho & Hr). split_and!; try done. exists o. split; [done|]. by exists rest.
Qed.

Definition toy_daemon : GrpcClient :=
  mkGrpc [js "DeleteCredential"; js "AddFolder"; js "close"]
    (λ m _, if str_eqb m (js "AddFolder") then GrpcOk (NObj [(js "id", NStr (uuid_text (replicate 16 7)))])
            else if str_eqb m (js "close") then GrpcSilent else GrpcOk (NObj [])).
Definition logged_in : Tab := mkTab (Some (js "tok")) None.
Definition SITE : option jsstr := Some (js "https://Vault.example").
Definition HOST : option jsstr := Some (js "vault.example").

(** A function of the client object that is no method of the daemon is called like any
    other: a page of the vault's own origin closes the channel to the daemon, and gets no
    answer. *)
Example bridge_calls_close :
  api_rpc (λ _, 0) (λ _, None) toy_daemon true (mkRpc HOST SITE None (Some (js "close")) None)
  = mkAnswer NoReply (Some (js "close", NObj [])).
Proof. by vm_compute. Qed.

(** No command that names a folder or a credential reaches the daemon with its
    UUID: the field arrives as an object with the bytes under their indices, neither as a
    text nor as bytes; and an id the daemon answers as a text, as its protocol has it, is
    refused as invalid. *)
Theorem daemon_ids_garbled other url_origin d rate_ok host origin t c a m p :
  call other url_origin d rate_ok host origin t c = Ok a → ha_called a = Some (m, p) →
  (∀ id k, id_field c id = Some k →
     ∃ l v, p = NObj l ∧ node_key (js k) l = Some v ∧ (∀ s, v ≠ NStr s) ∧ (∀ bs, v ≠ NBuf bs)) ∧
  (∀ bs, length bs = 16%nat → gc_call d m p = GrpcOk (NObj [(js "id", NStr (uuid_text bs))]) →
     created other c (answered a) = Throw (InvalidUuidBytes 36)).
Proof.
  intros Hc Hf. unfold call in Hc. destruct (payload t c) as [q|] eqn:Eq; [|done]. cbn in Hc. injection Hc as <-.
  destruct (proj1 (called_iff _ _ _ _ _ _ _) Hf) as (-> & Ho & Hm & _ & _ & Hp). unfold grpcPayload in Hp.
  cbn [rq_payload rq_method] in Hp, Hm. split.
  - intros id k Hk. destruct (payload_id t c id k q Eq Hk) as (bs & l & _ & -> & Hl). destruct (Hl other) as (l' & E & Hn).
    change (truthy (Some (to_json (VObj l)))) with true in Hp. cbn [fmap option_fmap option_map] in Hp.
    exists l', (convertArraysToBuffers other (to_json (VBytes bs))). split; [by rewrite Hp, <- E|]. split; [done|]. split; done.
  - intros bs Hl Hd. unfold answered. rewrite (called_reply _ _ _ _ _ _ _ _ Hf Hd).
    exact (created_text other c bs (uuid_text bs) Hl (uuid_text_length bs Hl)).
Qed.

Lemma daemon_ids_garbled_witness :
  created (λ _, 0) (AddFolder (js "Work") None None)
    (Answer 0 (Some (JObj [(js "status", JStr (js "Ok")); (js "data", JObj [(js "id", JStr (uuid_text (replicate 16 7)))])])))
  = Throw (InvalidUuidBytes 36) ∧
  ∃ a p l v, call (λ _, 0) (λ _, None) toy_daemon true HOST SITE logged_in (DeleteCredential (uuid_text (replicate 16 7))) = Ok a ∧
    ha_called a = Some (js "DeleteCredential", p) ∧ p = NObj l ∧ node_key (js "id") l = Some v ∧ ∀ s, v ≠ NStr s.
Proof.
  split.
  - destruct (daemon_ids_garbled (λ _, 0) (λ _, None) toy_daemon true HOST SITE logged_in (AddFolder (js "Work") None None) _ _ _
      eq_refl eq_refl) as [_ H]. apply (H (replicate 16 7)); done.
  - eexists _, _. destruct (daemon_ids_garbled (λ _, 0) (λ _, None) toy_daemon true HOST SITE logged_in (DeleteCredential (uuid_text (replicate 16 7))) _ _ _
      eq_refl eq_refl) as [H _]. destruct (H (uuid_text (replicate 16 7)) "id"%string ltac:(by vm_compute)) as (l & v & E & Hv & Hs & _).
    exists l, v. split; [reflexivity|]. split; [reflexivity|]. done.
Defined.

(** A request the bridge refuses, by rate limit, origin or method, is taken by the
    client for a success, and locking then clears the tab although the daemon was not told. *)
Theorem daemon_refusal_unnoticed other url_origin d rate_ok host origin t c a :
  call other url_origin d rate_ok host origin t c = Ok a → ha_called a = None →
  (∃ st body, ha_reply a = Replied st body ∧ 400 <= st) ∧ (∃ data, request c (answered a) = Ok data) ∧ (c = Lock → lock t (answered a) = (clear t, Ok tt)).
Proof.
  intros Hc Hf. unfold call in Hc. destruct (payload t c) as [q|] eqn:Eq; [|done]. cbn in Hc. injection Hc as <-.
  destruct (not_called _ _ _ _ _ Hf) as (st & msg & Hb & Hs). split; [by eexists _, _|]. unfold answered. rewrite Hb. split.
  - eexists. apply request_refused.
  - intros ->. unfold lock. cbn in Eq. unfold auth in Eq. destruct (token t); [|done]. by rewrite request_refused.
Qed.

(** A deletion the rate limiter refused is taken for done. *)
Lemma daemon_refusal_unnoticed_witness :
  ∃ a data, call (λ _, 0) (λ _, None) toy_daemon false HOST SITE logged_in (DeleteCredential (uuid_text (replicate 16 7))) = Ok a ∧
    ha_reply a = Replied 429 (Some (JObj [(js "error", JStr (js "too_many_requests"))])) ∧ request (DeleteCredential (uuid_text (replicate 16 7))) (answered a) = Ok data.
Proof.
  destruct (daemon_refusal_unnoticed (λ _, 0) (λ _, None) toy_daemon false HOST SITE logged_in (DeleteCredential (uuid_text (replicate 16 7))) _ eq_refl eq_refl)
    as (_ & [data Hd] & _). eexists _, data. split; [reflexivity|]. split; [reflexivity|]. exact Hd.
Defined.
End DaemonSpec.
