(* ===== verification/P2WBuffer.v ===== *)
(** * P2W buffers and TLV fields ([web/src/utils/p2wFormat.ts], lines 33-295)

    The growable writer and the bounds-checked reader of the P2W format, and
    the tag-length-value fields written with them. *)
From S2P Require Import Prelude JsRuntime JsText Types.

(** Errors thrown by the module. *)
Inductive p2w_error :=
| FAIL_MSG                 (* 'Wrong passphrase or file has been tampered with.' *)
| NotP2W                   (* 'Not a valid .p2w file.' *)
| Truncated                (* 'File is truncated or corrupted.' *)
| BadArgon2                (* 'P2W: invalid Argon2id parameters' *)
| PastEnd                  (* 'P2W parser: read past end of buffer' *)
| TlvOverrun               (* 'P2W parser: TLV field exceeds remaining record' *)
| FieldTooLong (tag : Z)   (* `P2W field 0x.. exceeds 64 KiB` *)
| QuotaExceeded.           (* QuotaExceededError of crypto.getRandomValues *)

Abbreviation res := (result p2w_error).

(** ** BufWriter *)

Record BufWriter := mkWriter { parts : list bytes; _len : Z }.

Definition newWriter : BufWriter := mkWriter [] 0.

Definition _append (d : bytes) (w : BufWriter) : BufWriter :=
  mkWriter (parts w ++ [d]) (_len w + len d).

Definition w_u8 (v : Z) : BufWriter → BufWriter := _append [band v 0xFF].
Definition w_u16 (v : Z) : BufWriter → BufWriter := _append [band (sar v 8) 0xFF; band v 0xFF].
Definition w_u32 (v : Z) : BufWriter → BufWriter :=
  _append [band (shr v 24) 0xFF; band (shr v 16) 0xFF; band (shr v 8) 0xFF; band v 0xFF].
Definition w_write (data : bytes) : BufWriter → BufWriter := _append data.

(** [toUint8Array]: allocate [_len] zeros and copy the parts one after the other. *)
Fixpoint copy_parts (ps : list bytes) (out : bytes) (off : nat) : bytes :=
  match ps with
  | [] => out
  | p :: ps' => copy_parts ps' (set_at out p off) (off + length p)
  end.
Definition toUint8Array (w : BufWriter) : bytes :=
  copy_parts (parts w) (zeros (Z.to_nat (_len w))) 0.

(** The bytes a writer stands for, and its invariant. *)
Definition contents (w : BufWriter) : bytes := concat (parts w).
Definition writer_ok (w : BufWriter) : Prop := _len w = len (contents w).

Lemma contents_append d w : contents (_append d w) = contents w ++ d.
Proof. unfold contents. simpl. rewrite concat_app. simpl. by rewrite app_nil_r. Qed.

Lemma append_ok d w : writer_ok w → writer_ok (_append d w).
Proof. unfold writer_ok. intros H. rewrite contents_append, len_app, <- H. done. Qed.

Lemma newWriter_ok : writer_ok newWriter.
Proof. done. Qed.

Lemma copy_parts_spec ps pre n :
  n = length (concat ps) →
  copy_parts ps (pre ++ zeros n) (length pre) = pre ++ concat ps.
Proof.
  revert pre n. induction ps as [|p ps IH]; intros pre n Hn; simpl in *.
  - subst. by rewrite !app_nil_r.
  - rewrite length_app in Hn. rewrite set_at_append by lia.
    rewrite <- length_app, IH by lia. by rewrite app_assoc.
Qed.

Lemma toUint8Array_contents w : writer_ok w → toUint8Array w = contents w.
Proof.
  intros H. unfold toUint8Array, contents. rewrite H. unfold len. rewrite Nat2Z.id.
  by apply (copy_parts_spec (parts w) []).
Qed.

(** ** BufReader *)

Record BufReader := mkReader { r_data : bytes; r_pos : nat }.

Definition newReader (data : bytes) : BufReader := mkReader data 0.

Definition remaining (r : BufReader) : Z := len (r_data r) - Z.of_nat (r_pos r).

(** [this.data[i]]: only read in range. *)
Definition at_ (data : bytes) (i : nat) : Z := nth i data 0.

Definition r_u8 (r : BufReader) : res (Z * BufReader) :=
  _ ← throw_if (remaining r <? 1) PastEnd;
  Ok (at_ (r_data r) (r_pos r), mkReader (r_data r) (r_pos r + 1)).

Definition r_u16 (r : BufReader) : res (Z * BufReader) :=
  _ ← throw_if (remaining r <? 2) PastEnd;
  let d i := at_ (r_data r) (r_pos r + i) in
  Ok (shr (bor (shl (d 0%nat) 8) (d 1%nat)) 0, mkReader (r_data r) (r_pos r + 2)).

Definition r_u32 (r : BufReader) : res (Z * BufReader) :=
  _ ← throw_if (remaining r <? 4) PastEnd;
  let d i := at_ (r_data r) (r_pos r + i) in
  Ok (be32 (d 0%nat) (d 1%nat) (d 2%nat) (d 3%nat), mkReader (r_data r) (r_pos r + 4)).

Definition r_bytes (n : Z) (r : BufReader) : res (bytes * BufReader) :=
  _ ← throw_if ((n <? 0) || (n >? remaining r)) PastEnd;
  Ok (slice (r_data r) (r_pos r) (r_pos r + Z.to_nat n), mkReader (r_data r) (r_pos r + Z.to_nat n)).

Definition r_str (n : Z) (r : BufReader) : res (jsstr * BufReader) :=
  '(b, r') ← r_bytes n r; Ok (utf8_decode b, r').

(** What is left to read. *)
Definition rest (r : BufReader) : bytes := drop (r_pos r) (r_data r).
Definition reader_ok (r : BufReader) : Prop := (r_pos r <= length (r_data r))%nat.

Lemma remaining_rest r : reader_ok r → remaining r = len (rest r).
Proof. unfold reader_ok, remaining, rest, len. rewrite length_drop. lia. Qed.

Lemma newReader_ok d : reader_ok (newReader d).
Proof. unfold reader_ok. simpl. lia. Qed.

Lemma rest_newReader d : rest (newReader d) = d.
Proof. apply drop_0. Qed.

(** Moving the cursor over a known prefix. *)
Definition advance (n : nat) (r : BufReader) : BufReader := mkReader (r_data r) (r_pos r + n).

Lemma advance_ok r l1 l2 :
  reader_ok r → rest r = l1 ++ l2 →
  reader_ok (advance (length l1) r) ∧ rest (advance (length l1) r) = l2.
Proof.
  unfold reader_ok, rest, advance. simpl. intros Hok H.
  apply (f_equal length) in H as Hl. rewrite length_drop, length_app in Hl.
  split; [lia|]. by apply take_drop_app in H as [_ ?].
Qed.

Lemma at_rest r i : at_ (r_data r) (r_pos r + i) = nth i (rest r) 0.
Proof.
  unfold at_, rest. rewrite !nth_lookup. f_equal. by rewrite lookup_drop.
Qed.

Lemma r_u8_spec r b l :
  reader_ok r → rest r = b :: l → r_u8 r = Ok (b, advance 1 r).
Proof.
  intros Hok H. unfold r_u8. rewrite remaining_rest, H, len_cons by done.
  pose proof (len_nonneg l). rewrite (proj2 (Z.ltb_ge _ 1)) by lia. simpl.
  pose proof (at_rest r 0) as E. rewrite Nat.add_0_r, H in E. by rewrite E.
Qed.

Lemma r_u16_spec r a b l :
  reader_ok r → rest r = a :: b :: l → is_byte a → is_byte b →
  r_u16 r = Ok (a * 256 + b, advance 2 r).
Proof.
  intros Hok H Ha Hb. unfold r_u16. rewrite remaining_rest, H, !len_cons by done.
  pose proof (len_nonneg l). rewrite (proj2 (Z.ltb_ge _ 2)) by lia. simpl.
  rewrite !at_rest, H. simpl. unfold is_byte in *.
  rewrite shr_0, to_uint32_bor, to_uint32_shl by lia. rewrite !to_uint32_id by lia.
  rewrite (lor_add_disjoint a b 8) by lia. done.
Qed.

Lemma r_u32_spec r a b c d l :
  reader_ok r → rest r = a :: b :: c :: d :: l →
  is_byte a → is_byte b → is_byte c → is_byte d →
  r_u32 r = Ok (a * 2 ^ 24 + b * 2 ^ 16 + c * 2 ^ 8 + d, advance 4 r).
Proof.
  intros Hok H ????. unfold r_u32. rewrite remaining_rest, H, !len_cons by done.
  pose proof (len_nonneg l). rewrite (proj2 (Z.ltb_ge _ 4)) by lia. simpl.
  rewrite !at_rest, H. cbn [nth]. by rewrite be32_spec.
Qed.

Lemma r_bytes_spec r p l :
  reader_ok r → rest r = p ++ l → r_bytes (len p) r = Ok (p, advance (length p) r).
Proof.
  intros Hok H. unfold r_bytes. rewrite remaining_rest, H, len_app by done.
  pose proof (len_nonneg l). pose proof (len_nonneg p).
  rewrite (proj2 (Z.ltb_ge _ 0)) by lia. rewrite Z.gtb_ltb, (proj2 (Z.ltb_ge _ _)) by lia. simpl.
  unfold len. rewrite Nat2Z.id. unfold slice.
  replace (r_pos r + length p - r_pos r)%nat with (length p) by lia.
  apply take_drop_app in H as [-> _]. done.
Qed.

Lemma r_bytes_Ok r n b r' :
  reader_ok r → r_bytes n r = Ok (b, r') →
  rest r = b ++ rest r' ∧ len b = n ∧ reader_ok r' ∧ r_data r' = r_data r.
Proof.
  intros Hok H. unfold r_bytes in H. destruct ((n <? 0) || (n >? remaining r))%bool eqn:E; [done|].
  simpl in H. injection H as <- <-. to_prop.
  unfold rest, reader_ok, remaining, slice, len in *. simpl.
  replace (r_pos r + Z.to_nat n - r_pos r)%nat with (Z.to_nat n) by lia.
  rewrite <- drop_drop, take_drop, length_take, length_drop. repeat split; lia.
Qed.

Lemma r_u8_Ok r b r' :
  reader_ok r → r_u8 r = Ok (b, r') → rest r = b :: rest r' ∧ reader_ok r' ∧ r_data r' = r_data r.
Proof.
  intros Hok H. unfold r_u8 in H. destruct (remaining r <? 1) eqn:E; [done|].
  simpl in H. injection H as <- <-. to_prop.
  destruct (rest r) as [|x l] eqn:Hr.
  { rewrite remaining_rest, Hr in E by done. unfold len in E; simpl in E; lia. }
  pose proof (advance_ok r [x] l Hok Hr) as [? Hl].
  pose proof (at_rest r 0) as Ha. rewrite Nat.add_0_r, Hr in Ha. simpl in Ha.
  rewrite Ha. unfold advance in *. simpl in *. by rewrite Hl.
Qed.

Lemma r_u16_Ok r v r' :
  reader_ok r → r_u16 r = Ok (v, r') →
  reader_ok r' ∧ r_data r' = r_data r ∧ len (rest r) = 2 + len (rest r').
Proof.
  intros Hok H. unfold r_u16 in H. destruct (remaining r <? 2) eqn:E; [done|].
  simpl in H. injection H as _ <-. to_prop. rewrite <- remaining_rest by done.
  unfold reader_ok, rest, remaining, len in *. simpl. rewrite length_drop. split; [|split]; lia || done.
Qed.

Lemma r_u32_Ok r v r' :
  reader_ok r → r_u32 r = Ok (v, r') →
  reader_ok r' ∧ r_data r' = r_data r ∧ len (rest r) = 4 + len (rest r').
Proof.
  intros Hok H. unfold r_u32 in H. destruct (remaining r <? 4) eqn:E; [done|].
  simpl in H. injection H as _ <-. to_prop. rewrite <- remaining_rest by done.
  unfold reader_ok, rest, remaining, len in *. simpl. rewrite length_drop. split; [|split]; lia || done.
Qed.

(** ** TLV fields *)

Definition F_END : Z := 0xFF.

Definition writeStrField (w : BufWriter) (tag : Z) (s : option jsstr) : res BufWriter :=
  match s with
  | None | Some [] => Ok w                                  (* if (!s) return *)
  | Some s =>
      let d := utf8_encode s in
      _ ← throw_if (len d >? 0xFFFF) (FieldTooLong tag);
      Ok (w_write d (w_u16 (len d) (w_u8 tag w)))
  end.

Definition writeU32Field (w : BufWriter) (tag v : Z) : BufWriter :=
  w_u8 (band v 0xFF) (w_u8 (band (shr v 8) 0xFF)
    (w_u8 (band (shr v 16) 0xFF) (w_u8 (band (shr v 24) 0xFF) (w_u16 4 (w_u8 tag w))))).

Definition endFields (w : BufWriter) : BufWriter := w_u16 0 (w_u8 F_END w).

(** [readFields]: [fuel] bounds the iterations; each consumes at least three bytes. *)
Fixpoint readFields_loop (fuel : nat) (r : BufReader) (m : gmap Z bytes)
    : res (gmap Z bytes * BufReader) :=
  match fuel with
  | O => Ok (m, r)
  | S f =>
      if remaining r >=? 3 then
        '(tag, r) ← r_u8 r;
        '(l, r) ← r_u16 r;
        if tag =? F_END then Ok (m, r)
        else
          _ ← throw_if (l >? remaining r) TlvOverrun;
          '(v, r) ← r_bytes l r;
          readFields_loop f r (<[tag := v]> m)
      else Ok (m, r)
  end.
Definition readFields (r : BufReader) : res (gmap Z bytes * BufReader) :=
  readFields_loop (S (length (r_data r))) r ∅.

Definition strF (fields : gmap Z bytes) (tag : Z) : jsstr :=
  match fields !! tag with Some v => utf8_decode v | None => [] end.

Definition u32F (fields : gmap Z bytes) (tag : Z) : Z :=
  match fields !! tag with
  | Some v =>
      if len v <? 4 then 0
      else be32 (at_ v 0) (at_ v 1) (at_ v 2) (at_ v 3)
  | None => 0
  end.

(** *** Wire form of a field and of a field list *)

Definition tlv (f : Z * bytes) : bytes :=
  f.1 :: len f.2 / 256 :: len f.2 mod 256 :: f.2.
Definition fields_end : bytes := [F_END; 0; 0].
Definition tlvs (fs : list (Z * bytes)) : bytes := concat (map tlv fs).

Definition tag_ok (t : Z) : Prop := 0 <= t < 0xFF.
Definition field_ok (f : Z * bytes) : Prop := tag_ok f.1 ∧ len f.2 <= 0xFFFF ∧ Bytes f.2.

Lemma contents_u8 v w : is_byte v → contents (w_u8 v w) = contents w ++ [v].
Proof.
  intros H. unfold w_u8. rewrite contents_append, band_255. unfold is_byte in H.
  by rewrite Z.mod_small by lia.
Qed.

Lemma contents_u16 v w :
  0 <= v <= 0xFFFF → contents (w_u16 v w) = contents w ++ [v / 256; v mod 256].
Proof.
  intros H. unfold w_u16. rewrite contents_append, !band_255. unfold sar.
  rewrite to_int32_id by lia. change (8 mod 32) with 8.
  rewrite Z.shiftr_div_pow2 by lia. change (2 ^ 8) with 256.
  by rewrite (Z.mod_small (v / 256)) by lia.
Qed.

Definition be_bytes (v : Z) : bytes :=
  [v / 2 ^ 24 mod 256; v / 2 ^ 16 mod 256; v / 2 ^ 8 mod 256; v mod 256].

Arguments be_bytes : simpl never.

Lemma contents_u32 v w : 0 <= v < 2 ^ 32 → contents (w_u32 v w) = contents w ++ be_bytes v.
Proof.
  intros H. unfold w_u32. rewrite contents_append, !byte_of_shr, band_255 by lia. done.
Qed.

Lemma be_bytes_Bytes v : Bytes (be_bytes v).
Proof. unfold be_bytes. repeat apply Forall_cons_2; try apply Forall_nil_2; unfold is_byte; lia. Qed.

Lemma be_bytes_value v :
  0 <= v < 2 ^ 32 →
  v / 2 ^ 24 mod 256 * 2 ^ 24 + v / 2 ^ 16 mod 256 * 2 ^ 16 + v / 2 ^ 8 mod 256 * 2 ^ 8 + v mod 256 = v.
Proof. intros. change (2 ^ 24) with 16777216. change (2 ^ 16) with 65536. change (2 ^ 8) with 256. lia. Qed.

(** The fields a [writeStrField] call contributes. *)
Definition str_field (t : Z) (s : option jsstr) : list (Z * bytes) :=
  match s with None | Some [] => [] | Some s => [(t, utf8_encode s)] end.

Lemma writeStrField_Ok w t s w' :
  writer_ok w → tag_ok t → writeStrField w t s = Ok w' →
  writer_ok w' ∧ contents w' = contents w ++ tlvs (str_field t s) ∧
  Forall (λ f, len f.2 <= 0xFFFF) (str_field t s).
Proof.
  intros Hw Ht H. unfold writeStrField, str_field in *.
  destruct s as [[|u s]|]; inv_ok; try (subst; by rewrite app_nil_r).
  simpl in H. destruct (_ >? _) eqn:E; inv_ok; [done|]. simpl in H. inv_ok. subst. to_prop.
  split; [|split].
  - repeat apply append_ok. done.
  - unfold w_write. rewrite contents_append, contents_u16, contents_u8
      by (unfold tag_ok, is_byte, len in *; lia).
    unfold tlvs, tlv. simpl. by rewrite app_nil_r, <- !app_assoc.
  - by repeat constructor.
Qed.

Lemma writeStrField_short w t s :
  Forall (λ f, len f.2 <= 0xFFFF) (str_field t s) → ∃ w', writeStrField w t s = Ok w'.
Proof.
  unfold writeStrField, str_field. destruct s as [[|u s]|]; [eauto| |eauto].
  intros [H _]%Forall_cons_iff. simpl in H. rewrite Z.gtb_ltb, (proj2 (Z.ltb_ge _ _)) by done.
  simpl. eauto.
Qed.

(** A sequence of [writeStrField] calls. *)
Fixpoint write_fields (w : BufWriter) (l : list (Z * option jsstr)) : res BufWriter :=
  match l with
  | [] => Ok w
  | (t, s) :: l' => w ← writeStrField w t s; write_fields w l'
  end.
Definition str_fields (l : list (Z * option jsstr)) : list (Z * bytes) :=
  concat (map (λ p, str_field p.1 p.2) l).

Lemma tlvs_app fs gs : tlvs (fs ++ gs) = tlvs fs ++ tlvs gs.
Proof. unfold tlvs. by rewrite map_app, concat_app. Qed.

Lemma write_fields_Ok w l w' :
  writer_ok w → Forall tag_ok l.*1 → write_fields w l = Ok w' →
  writer_ok w' ∧ contents w' = contents w ++ tlvs (str_fields l) ∧
  Forall (λ f, len f.2 <= 0xFFFF) (str_fields l).
Proof.
  revert w. induction l as [|[t s] l IH]; intros w Hw Ht H; simpl in *.
  - inv_ok. subst. by rewrite app_nil_r.
  - apply Forall_cons_iff in Ht as [Ht Htl]. apply bind_Ok_inv in H as (w1 & H1 & H2).
    apply writeStrField_Ok in H1 as (Hw1 & Hc1 & Hs1); [|done..].
    apply IH in H2 as (Hw2 & Hc2 & Hs2); [|done..].
    unfold str_fields in *. simpl. split; [done|]. split.
    + by rewrite Hc2, Hc1, tlvs_app, app_assoc.
    + by apply Forall_app.
Qed.

Lemma write_fields_short w l :
  Forall (λ f, len f.2 <= 0xFFFF) (str_fields l) → ∃ w', write_fields w l = Ok w'.
Proof.
  revert w. induction l as [|[t s] l IH]; intros w H; simpl in *; [eauto|].
  unfold str_fields in H. simpl in H. apply Forall_app in H as [H1 H2].
  destruct (writeStrField_short w t s H1) as [w1 ->]. simpl. by apply IH.
Qed.

Lemma endFields_contents w : contents (endFields w) = contents w ++ fields_end.
Proof.
  unfold endFields. rewrite contents_u16, contents_u8 by (unfold is_byte, F_END; lia).
  by rewrite <- app_assoc.
Qed.

Lemma endFields_ok w : writer_ok w → writer_ok (endFields w).
Proof. intros. by repeat apply append_ok. Qed.

(** *** Reading a field list back *)

Definition fields_map (fs : list (Z * bytes)) (m : gmap Z bytes) : gmap Z bytes :=
  foldl (λ m f, <[f.1 := f.2]> m) m fs.

Lemma rest_length_fuel r : reader_ok r → (length (rest r) <= length (r_data r))%nat.
Proof. unfold rest. rewrite length_drop. lia. Qed.

Lemma readFields_loop_spec fs fuel r m :
  reader_ok r → rest r = tlvs fs ++ fields_end → Forall field_ok fs →
  (length fs < fuel)%nat →
  ∃ r', readFields_loop fuel r m = Ok (fields_map fs m, r') ∧ reader_ok r' ∧ rest r' = [].
Proof.
  revert fuel r m. induction fs as [|[t v] fs IH]; intros fuel r m Hok Hr Hfs Hfuel;
    (destruct fuel as [|fuel]; [simpl in Hfuel; lia|]); cbn [readFields_loop].
  - simpl in Hr. rewrite remaining_rest, Hr by done.
    change (len fields_end >=? 3) with true. cbn iota.
    rewrite (r_u8_spec r F_END [0; 0]) by done. cbn [mbind result_bind].
    destruct (advance_ok r [F_END] [0; 0] Hok Hr) as [Hok1 Hr1].
    rewrite (r_u16_spec _ 0 0 []) by (try done; unfold is_byte; lia). cbn [mbind result_bind].
    destruct (advance_ok _ [0; 0] [] Hok1 Hr1) as [Hok2 Hr2].
    rewrite Z.eqb_refl. eexists; split; [done|]. split; done.
  - apply Forall_cons_iff in Hfs as [(Ht & Hl & Hb) Hfs]. unfold tag_ok in Ht. simpl in Ht, Hl, Hb.
    pose proof (len_nonneg v).
    assert (Hr0 : rest r = [t] ++ [len v / 256; len v mod 256] ++ v ++ tlvs fs ++ fields_end).
    { rewrite Hr. unfold tlvs at 1. simpl. unfold tlv at 1. simpl. by rewrite <- !app_assoc. }
    rewrite remaining_rest by done. rewrite Hr0, !len_app.
    rewrite Z.geb_leb, (proj2 (Z.leb_le 3 _)) by (pose proof (len_nonneg (tlvs fs));
      change (len [t]) with 1; change (len [len v / 256; len v mod 256]) with 2;
      change (len fields_end) with 3; lia).
    rewrite (r_u8_spec r t _ Hok Hr0). cbn [mbind result_bind].
    destruct (advance_ok r [t] _ Hok Hr0) as [Hok1 Hr1]. cbn [length] in Hok1, Hr1.
    rewrite (r_u16_spec _ _ _ _ Hok1 Hr1) by (unfold is_byte; lia). cbn [mbind result_bind].
    destruct (advance_ok _ [_; _] _ Hok1 Hr1) as [Hok2 Hr2]. cbn [length] in Hok2, Hr2.
    rewrite (proj2 (Z.eqb_neq t F_END)) by (unfold F_END; lia).
    replace (len v / 256 * 256 + len v mod 256) with (len v) by lia.
    rewrite remaining_rest by done. rewrite Hr2, len_app.
    rewrite Z.gtb_ltb, (proj2 (Z.ltb_ge _ (len v))) by (pose proof (len_nonneg (tlvs fs ++ fields_end)); lia).
    cbn [throw_if mbind result_bind].
    rewrite (r_bytes_spec _ v _ Hok2 Hr2). cbn [mbind result_bind].
    destruct (advance_ok _ v _ Hok2 Hr2) as [Hok3 Hr3].
    apply IH; try done. simpl in Hfuel. lia.
Qed.

Lemma tlvs_length_ge fs : (3 * length fs <= length (tlvs fs))%nat.
Proof. induction fs as [|f fs IH]; simpl; [lia|]. unfold tlvs in *. simpl. rewrite length_app. lia. Qed.

Lemma readFields_spec fs :
  Forall field_ok fs →
  ∃ r', readFields (newReader (tlvs fs ++ fields_end)) = Ok (fields_map fs ∅, r') ∧
        remaining r' = 0.
Proof.
  intros Hfs. unfold readFields.
  destruct (readFields_loop_spec fs (S (length (tlvs fs ++ fields_end)))
              (newReader (tlvs fs ++ fields_end)) ∅) as (r' & H1 & H2 & H3); try done.
  - apply newReader_ok.
  - rewrite length_app. pose proof (tlvs_length_ge fs). lia.
  - exists r'. simpl. split; [done|]. by rewrite remaining_rest, H3.
Qed.

Lemma fields_map_skip fs m t : t ∉ fs.*1 → fields_map fs m !! t = m !! t.
Proof.
  revert m. induction fs as [|f fs IH]; intros m H; [done|].
  simpl in H. apply not_elem_of_cons in H as [Hne H]. simpl. rewrite IH by done.
  by rewrite lookup_insert_ne by done.
Qed.

Lemma fields_map_lookup fs m t v :
  NoDup fs.*1 → (t, v) ∈ fs → fields_map fs m !! t = Some v.
Proof.
  revert m. induction fs as [|f fs IH]; intros m Hnd Hin; [by apply not_elem_of_nil in Hin|].
  simpl in Hnd. apply NoDup_cons in Hnd as [Hni Hnd]. simpl.
  apply elem_of_cons in Hin as [<-|Hin].
  - rewrite fields_map_skip by done. apply lookup_insert_eq.
  - by apply IH.
Qed.

(** Looking a string field up gives what was written, [''] when nothing was. *)
Lemma str_fields_tags l t v : (t, v) ∈ str_fields l → t ∈ l.*1.
Proof.
  unfold str_fields. induction l as [|[t' s] l IH]; simpl;
    [intros H; by apply not_elem_of_nil in H|].
  rewrite elem_of_app. intros [H|H]; [|by apply elem_of_cons; right; apply IH].
  apply elem_of_cons; left. unfold str_field in H.
  destruct s as [[|u s]|]; try by apply not_elem_of_nil in H.
  apply list_elem_of_singleton in H. by injection H.
Qed.

Lemma str_fields_NoDup l : NoDup l.*1 → NoDup (str_fields l).*1.
Proof.
  unfold str_fields. induction l as [|[t s] l IH]; simpl; intros Hnd; [constructor|].
  apply NoDup_cons in Hnd as [Hni Hnd]. rewrite fmap_app. apply NoDup_app. split; [|split].
  - unfold str_field. destruct s as [[|u s]|]; simpl; repeat constructor; apply not_elem_of_nil.
  - intros t' Ht' Hin. apply list_elem_of_fmap in Hin as ([t1 v1] & -> & Hin).
    simpl in Ht'. apply str_fields_tags in Hin. unfold str_field in Ht'.
    destruct s as [[|u s]|]; simpl in Ht'; try by apply not_elem_of_nil in Ht'.
    apply list_elem_of_singleton in Ht'. by subst.
  - by apply IH.
Qed.

Lemma str_fields_absent l t s v :
  NoDup l.*1 → (t, s) ∈ l → str_field t s = [] → (t, v) ∉ str_fields l.
Proof.
  intros Hnd Hin Hf. unfold str_fields.
  induction l as [|[t' s'] l IH]; simpl; [by apply not_elem_of_nil|].
  simpl in Hnd. apply NoDup_cons in Hnd as [Hni Hnd]. rewrite elem_of_app.
  apply elem_of_cons in Hin as [[= <- <-]|Hin]; intros [Hv|Hv].
  - rewrite Hf in Hv. by apply not_elem_of_nil in Hv.
  - by apply Hni, (str_fields_tags l t v).
  - unfold str_field in Hv. destruct s' as [[|u s']|]; try by apply not_elem_of_nil in Hv.
    apply list_elem_of_singleton in Hv as [= <- _]. apply Hni.
    apply list_elem_of_fmap. by exists (t, s).
  - by apply IH.
Qed.

Lemma str_fields_present l t s v : (t, s) ∈ l → str_field t s = [(t, v)] → (t, v) ∈ str_fields l.
Proof.
  intros Hin Hf. unfold str_fields. induction l as [|p l IH]; simpl; [by apply not_elem_of_nil in Hin|].
  apply elem_of_app. apply elem_of_cons in Hin as [<-|Hin].
  - left. simpl. rewrite Hf. by left.
  - right. by apply IH.
Qed.

Lemma strF_spec l m t s :
  NoDup l.*1 → (t, s) ∈ l → m !! t = None → transportable (or_empty s) = true →
  strF (fields_map (str_fields l) m) t = or_empty s.
Proof.
  intros Hnd Hin Hm Hs. unfold strF.
  assert (Hcase : (∃ v, str_field t s = [(t, v)] ∧ utf8_decode v = or_empty s) ∨
                  (str_field t s = [] ∧ or_empty s = [])).
  { unfold str_field. destruct s as [[|u s]|]; simpl; [by right| |by right]. left.
    eexists; split; [done|]. by apply utf8_roundtrip. }
  destruct Hcase as [(v & Hf & Hv)|[Hf He]].
  - rewrite (fields_map_lookup _ _ t v); [done|by apply str_fields_NoDup|].
    by eapply str_fields_present.
  - rewrite fields_map_skip, Hm; [done|]. intros Ht.
    apply list_elem_of_fmap in Ht as ([t1 v1] & -> & Hin1). simpl in *.
    by eapply str_fields_absent in Hin1.
Qed.
