(* ===== verification/P2WPayload.v ===== *)
(** * The P2W payload ([web/src/utils/p2wFormat.ts], lines 71-87 and 253-428)

    Record encoding, size-masking padding, [buildPayload] and the strict
    [parsePayload] with its record-order state machine. *)
From S2P Require Import Prelude JsRuntime JsText Types P2WBuffer.

(** ** Constants *)

Definition PRF_MAGIC : bytes := [0xB7; 0xA2; 0x4F; 0x03].
Definition MIN_PADDING_BYTES : Z := 128.

Definition R_META : Z := 0x01.
Definition R_FOLDER : Z := 0x10.
Definition R_ENTRY : Z := 0x20.
Definition R_PADDING : Z := 0xFE.
Definition R_END : Z := 0xFF.

Definition FM_APP_NAME : Z := 0x01.
Definition FM_APP_VER : Z := 0x02.
Definition FM_TIMESTAMP : Z := 0x03.
Definition FM_NCREDS : Z := 0x04.
Definition FM_NFOLDS : Z := 0x05.

Definition FF_ID : Z := 0x01.
Definition FF_LABEL : Z := 0x02.
Definition FF_DESC : Z := 0x03.

Definition FE_ID : Z := 0x01.
Definition FE_SVC : Z := 0x02.
Definition FE_URL : Z := 0x03.
Definition FE_USER : Z := 0x04.
Definition FE_PASS : Z := 0x05.
Definition FE_NOTES : Z := 0x06.
Definition FE_OTP : Z := 0x07.
Definition FE_FOLID : Z := 0x08.
Definition FE_STATUS : Z := 0x09.
Definition FE_TAGS : Z := 0x0A.
Definition FE_TYPE : Z := 0x0B.

(** ** Padding *)

(** [Math.ceil(len / mb) * mb] is the ceiling to the next MiB. *)
Definition getPaddingTarget (currentLen : Z) : Z :=
  let len := currentLen + MIN_PADDING_BYTES in
  if len <=? 65536 then 65536
  else if len <=? 262144 then 262144
  else if len <=? 1048576 then 1048576
  else let mb := 1048576 in (len + mb - 1) / mb * mb.

(** ** Encoding *)

Definition writeRecord (w : BufWriter) (type : Z) (body : bytes) : BufWriter :=
  w_write body (w_u32 (len body) (w_u8 type w)).

(** [exportDate] is given by its [toISOString()]. *)
Definition encodeMeta (exportDate : jsstr) (nCreds nFolds : Z) : res bytes :=
  let w := newWriter in
  w ← writeStrField w FM_APP_NAME (Some (js "PWDnow"));
  w ← writeStrField w FM_APP_VER (Some (js "1"));
  w ← writeStrField w FM_TIMESTAMP (Some exportDate);
  let w := writeU32Field w FM_NCREDS nCreds in
  let w := writeU32Field w FM_NFOLDS nFolds in
  Ok (toUint8Array (endFields w)).

Definition encodeFolder (f : Folder) : res bytes :=
  let w := newWriter in
  w ← writeStrField w FF_ID (Some (f_id f));
  w ← writeStrField w FF_LABEL (Some (f_label f));
  w ← writeStrField w FF_DESC (f_description f);
  Ok (toUint8Array (endFields w)).

Definition encodeEntry (c : Credential) : res bytes :=
  let w := newWriter in
  w ← writeStrField w FE_ID (Some (id_string (c_id c)));
  w ← writeStrField w FE_SVC (Some (c_service c));
  w ← writeStrField w FE_URL (Some (c_url c));
  w ← writeStrField w FE_USER (Some (c_username c));
  w ← writeStrField w FE_PASS (Some (or_empty (c_password c)));
  w ← writeStrField w FE_NOTES (c_description c);
  w ← writeStrField w FE_OTP (c_otpSecret c);
  w ← writeStrField w FE_FOLID (Some (c_folderId c));
  w ← writeStrField w FE_STATUS (Some (c_status c));
  w ← match c_tags c with
      | Some (t :: ts) => writeStrField w FE_TAGS (Some (join_unit [0x1F] (t :: ts)))
      | _ => Ok w
      end;
  w ← writeStrField w FE_TYPE (credentialType_string <$> c_credentialType c);
  Ok (toUint8Array (endFields w)).

(** [for (const x of l) writeRecord(w, type, encode(x))] *)
Fixpoint writeRecords {A} (encode : A → res bytes) (type : Z) (l : list A) (w : BufWriter)
    : res BufWriter :=
  match l with
  | [] => Ok w
  | x :: l' => b ← encode x; writeRecords encode type l' (writeRecord w type b)
  end.

Section random.
(** The platform's random generator: [rand n] is the content it gives a
    buffer of [n] bytes. *)
Context (rand : nat → bytes).

(** [crypto.getRandomValues(new Uint8Array(n))]: the Web Crypto API refuses
    buffers of more than 65536 bytes. *)
Definition getRandomValues (n : Z) : res bytes :=
  _ ← throw_if (n >? 65536) QuotaExceeded;
  Ok (rand (Z.to_nat n)).

Definition buildPayload (credentials : list Credential) (folders : list Folder) (exportDate : jsstr)
    : res bytes :=
  let w := w_write PRF_MAGIC newWriter in
  meta ← encodeMeta exportDate (len credentials) (len folders);
  let w := writeRecord w R_META meta in
  w ← writeRecords encodeFolder R_FOLDER folders w;
  w ← writeRecords encodeEntry R_ENTRY credentials w;
  let currentLen := _len w + 5 in
  let targetLen := getPaddingTarget currentLen in
  let paddingLen := targetLen - currentLen in
  w ← (if paddingLen >? 5 then
         body ← getRandomValues (paddingLen - 5);
         Ok (writeRecord w R_PADDING body)
       else Ok w);
  Ok (toUint8Array (w_u32 0 (w_u8 R_END w))).
End random.

(** ** Parsing *)

(** [/^[a-zA-Z0-9_-]{1,64}$/.test(id)] *)
Definition is_id_char (c : Z) : bool :=
  is_lower c || is_upper c || is_digit c || (c =? 95) || (c =? 45).
Definition valid_id (id : jsstr) : bool :=
  (1 <=? len id) && (len id <=? 64) && forallb is_id_char id.

(** [validTypes.includes(rawType) ? rawType : undefined] *)
Definition parse_type (rawType : jsstr) : option CredentialType :=
  if str_eqb rawType (js "login") then Some login
  else if str_eqb rawType (js "passkey") then Some passkey
  else if str_eqb rawType (js "secure_note") then Some secure_note
  else if str_eqb rawType (js "payment_card") then Some payment_card
  else None.

Definition split_tags (tagStr : jsstr) : list jsstr :=
  if str_empty tagStr then []
  else if has_unit 0x1F tagStr then split_unit 0x1F tagStr
  else split_unit 44 tagStr.

(** [tags.map(t => t.trim().slice(0, 64)).filter(Boolean)] *)
Definition clean_tags (tags : list jsstr) : list jsstr :=
  List.filter (λ t, negb (str_empty t)) (map (λ t, slice0 64 (trim t)) tags).

Definition folder_of_fields (fields : gmap Z bytes) : res Folder :=
  let id := strF fields FF_ID in
  _ ← throw_if (negb (valid_id id)) FAIL_MSG;
  Ok (mkFolder id (slice0 256 (strF fields FF_LABEL))
        (or_undefined (slice0 1024 (strF fields FF_DESC))) None None).

(** [uuid] is the value [generateUUID()] would return here. *)
Definition entry_of_fields (uuid : jsstr) (fields : gmap Z bytes) : res Credential :=
  let id := strF fields FE_ID in
  _ ← throw_if (negb (str_empty id) && negb (valid_id id)) FAIL_MSG;
  let tags := split_tags (strF fields FE_TAGS) in
  let credentialType := parse_type (strF fields FE_TYPE) in
  Ok (basic_credential (IdString (str_or id uuid))
        (slice0 256 (strF fields FE_SVC)) (slice0 2048 (strF fields FE_URL))
        (slice0 256 (strF fields FE_USER)) (Some (slice0 4096 (strF fields FE_PASS)))
        (str_or (slice0 32 (strF fields FE_STATUS)) (js "active")) (js "#22c55e") []
        (slice0 64 (strF fields FE_FOLID)) (Some (clean_tags tags))
        (or_undefined (slice0 256 (strF fields FE_OTP)))
        (or_undefined (slice0 10000 (strF fields FE_NOTES))) credentialType).

Record pstate := mkPState {
  p_credentials : list Credential;
  p_folders : list Folder;
  p_metaCreds : Z;
  p_metaFolds : Z;
  p_state : Z;        (* 0 START, 1 META, 2 FOLDERS, 3 ENTRIES, 4 PADDING, 5 END *)
}.
Definition pstate_init : pstate := mkPState [] [] (-1) (-1) 0.

Inductive flow := Continue (st : pstate) | Break (st : pstate).

Section parse.
(** [uuid n] is the value of the [n]-th [generateUUID()] candidate; the parser
    draws one per entry whose id is empty, at the entry's position. *)
Context (uuid : nat → jsstr).

(** One record, [left] bytes remaining after it. *)
Definition parse_record (st : pstate) (rtype : Z) (body : bytes) (left : Z) : res flow :=
  if rtype =? R_END then
    _ ← throw_if (p_state st <? 1) FAIL_MSG;
    _ ← throw_if (left >? 0) FAIL_MSG;
    Ok (Break (mkPState (p_credentials st) (p_folders st) (p_metaCreds st) (p_metaFolds st) 5))
  else if rtype =? R_PADDING then
    _ ← throw_if (p_state st <? 1) FAIL_MSG;
    Ok (Continue (mkPState (p_credentials st) (p_folders st) (p_metaCreds st) (p_metaFolds st) 4))
  else
    '(fields, br) ← readFields (newReader body);
    _ ← throw_if (remaining br >? 0) FAIL_MSG;
    if rtype =? R_META then
      _ ← throw_if (negb (p_state st =? 0)) FAIL_MSG;
      let metaCreds := u32F fields FM_NCREDS in
      let metaFolds := u32F fields FM_NFOLDS in
      _ ← throw_if ((metaCreds >? 50000) || (metaFolds >? 5000)) FAIL_MSG;
      Ok (Continue (mkPState (p_credentials st) (p_folders st) metaCreds metaFolds 1))
    else if rtype =? R_FOLDER then
      _ ← throw_if (p_state st >? 2) FAIL_MSG;
      f ← folder_of_fields fields;
      let folders := p_folders st ++ [f] in
      _ ← throw_if (len folders >? 5000) FAIL_MSG;
      Ok (Continue (mkPState (p_credentials st) folders (p_metaCreds st) (p_metaFolds st) 2))
    else if rtype =? R_ENTRY then
      _ ← throw_if (p_state st >? 3) FAIL_MSG;
      c ← entry_of_fields (uuid (length (p_credentials st))) fields;
      let credentials := p_credentials st ++ [c] in
      _ ← throw_if (len credentials >? 50000) FAIL_MSG;
      Ok (Continue (mkPState credentials (p_folders st) (p_metaCreds st) (p_metaFolds st) 3))
    else Throw FAIL_MSG.

(** [while (r.remaining() > 0)]: every iteration consumes at least five bytes. *)
Fixpoint parse_loop (fuel : nat) (r : BufReader) (st : pstate) : res pstate :=
  match fuel with
  | O => Ok st
  | S f =>
      if remaining r >? 0 then
        _ ← throw_if (remaining r <? 5) FAIL_MSG;
        '(rtype, r) ← r_u8 r;
        '(rlen, r) ← r_u32 r;
        _ ← throw_if (rlen >? remaining r) FAIL_MSG;
        '(body, r) ← r_bytes rlen r;
        fl ← parse_record st rtype body (remaining r);
        match fl with
        | Continue st => parse_loop f r st
        | Break st => Ok st
        end
      else Ok st
  end.

Definition parsePayload (data : bytes) : res (list Credential * list Folder) :=
  let r := newReader data in
  _ ← throw_if (remaining r <? 4) FAIL_MSG;
  '(magic, r) ← r_bytes 4 r;
  _ ← throw_if (negb (bool_decide (magic = PRF_MAGIC))) FAIL_MSG;
  st ← parse_loop (S (length data)) r pstate_init;
  _ ← throw_if (p_state st <? 1) FAIL_MSG;
  _ ← throw_if (negb (p_metaCreds st =? len (p_credentials st)) ||
                negb (p_metaFolds st =? len (p_folders st))) FAIL_MSG;
  Ok (p_credentials st, p_folders st).
End parse.
