(* ===== verification/P2WPayloadProofs.v ===== *)
(** * Theorems on the P2W payload

    What [buildPayload] writes, that [parsePayload] reads it back, which record
    sequences the parser accepts, and that padding hides the vault size. *)
From S2P Require Import Prelude JsRuntime JsText Types P2WBuffer P2WPayload.

(** ** Wire form of records *)

Definition record (ty : Z) (body : bytes) : bytes := ty :: be_bytes (len body) ++ body.

Arguments record : simpl never.

Lemma writeRecord_contents w ty body :
  is_byte ty → len body < 2 ^ 32 →
  contents (writeRecord w ty body) = contents w ++ record ty body.
Proof.
  intros Ht Hl. unfold writeRecord, w_write, record. pose proof (len_nonneg body).
  rewrite contents_append, contents_u32, contents_u8 by done || lia.
  by rewrite <- !app_assoc.
Qed.

Lemma writeRecord_ok w ty body : writer_ok w → writer_ok (writeRecord w ty body).
Proof. intros. by repeat apply append_ok. Qed.

Lemma record_len ty body : len (record ty body) = 5 + len body.
Proof. unfold record. rewrite len_cons, len_app. change (len (be_bytes (len body))) with 4. lia. Qed.

Lemma record_Bytes ty body : is_byte ty → Bytes body → Bytes (record ty body).
Proof.
  intros. unfold record. apply Bytes_cons. split; [done|].
  apply Bytes_app. split; [apply be_bytes_Bytes | done].
Qed.

(** ** The fields of each record *)

Definition folder_spec (f : Folder) : list (Z * option jsstr) :=
  [(FF_ID, Some (f_id f)); (FF_LABEL, Some (f_label f)); (FF_DESC, f_description f)].

Definition tags_string (c : Credential) : option jsstr :=
  match c_tags c with Some (t :: ts) => Some (join_unit [0x1F] (t :: ts)) | _ => None end.

Definition entry_spec (c : Credential) : list (Z * option jsstr) :=
  [(FE_ID, Some (id_string (c_id c))); (FE_SVC, Some (c_service c)); (FE_URL, Some (c_url c));
   (FE_USER, Some (c_username c)); (FE_PASS, Some (or_empty (c_password c)));
   (FE_NOTES, c_description c); (FE_OTP, c_otpSecret c); (FE_FOLID, Some (c_folderId c));
   (FE_STATUS, Some (c_status c)); (FE_TAGS, tags_string c);
   (FE_TYPE, credentialType_string <$> c_credentialType c)].

Definition meta_fields (date : jsstr) (nCreds nFolds : Z) : list (Z * bytes) :=
  str_fields [(FM_APP_NAME, Some (js "PWDnow")); (FM_APP_VER, Some (js "1")); (FM_TIMESTAMP, Some date)]
  ++ [(FM_NCREDS, be_bytes nCreds); (FM_NFOLDS, be_bytes nFolds)].

Lemma encodeFolder_eq f :
  encodeFolder f = (w ← write_fields newWriter (folder_spec f); Ok (toUint8Array (endFields w))).
Proof.
  unfold encodeFolder, folder_spec. cbn [write_fields].
  repeat (destruct (writeStrField _ _ _); cbn [mbind result_bind]; [|done]). done.
Qed.

Lemma encodeEntry_eq c :
  encodeEntry c = (w ← write_fields newWriter (entry_spec c); Ok (toUint8Array (endFields w))).
Proof.
  unfold encodeEntry, entry_spec, tags_string. cbn [write_fields].
  do 9 (destruct (writeStrField _ _ _); cbn [mbind result_bind]; [|done]).
  destruct (c_tags c) as [[|t ts]|];
    try change (writeStrField a7 FE_TAGS None) with (@Ok p2w_error _ a7);
    cbn [mbind result_bind];
    repeat (destruct (writeStrField _ _ _); cbn [mbind result_bind]; [|done]); done.
Qed.

(** A list of string fields written and closed. *)
Lemma write_fields_encode l bs :
  Forall tag_ok l.*1 →
  (w ← write_fields newWriter l; Ok (toUint8Array (endFields w))) = Ok bs →
  bs = tlvs (str_fields l) ++ fields_end ∧ Forall (λ f, len f.2 <= 0xFFFF) (str_fields l).
Proof.
  intros Ht H. apply bind_Ok_inv in H as (w & Hw & [= <-]).
  apply write_fields_Ok in Hw as (Hok & Hc & Hs); [|done..].
  rewrite toUint8Array_contents by by apply endFields_ok.
  rewrite endFields_contents, Hc. done.
Qed.

Lemma tlvs_len fs : Forall (λ f, len f.2 <= 0xFFFF) fs → len (tlvs fs) <= 0x10002 * len fs.
Proof.
  induction 1 as [|f fs Hf _ IH]; [done|]. unfold tlvs in *. cbn [map concat].
  rewrite len_app, len_cons. unfold tlv at 1. rewrite !len_cons. lia.
Qed.

Lemma str_fields_len l : len (str_fields l) <= len l.
Proof.
  unfold str_fields. induction l as [|[t s] l IH]; [done|]. simpl. rewrite len_app, len_cons.
  assert (len (str_field t s) <= 1); [|lia].
  unfold str_field. destruct s as [[|u s]|]; vm_compute; congruence.
Qed.

Lemma encoded_len l :
  Forall (λ f, len f.2 <= 0xFFFF) (str_fields l) → len l <= 100 →
  len (tlvs (str_fields l) ++ fields_end) < 2 ^ 32.
Proof.
  intros H Hl. apply tlvs_len in H. pose proof (str_fields_len l).
  rewrite len_app. change (len fields_end) with 3. lia.
Qed.

Lemma str_fields_ok l :
  Forall tag_ok l.*1 → Forall (λ f, len f.2 <= 0xFFFF) (str_fields l) →
  Forall (λ p, Forall is_u16 (or_empty p.2)) l → Forall field_ok (str_fields l).
Proof.
  unfold str_fields. induction l as [|[t s] l IH]; simpl; [constructor|].
  intros [Ht Htl]%Forall_cons [Hs Hsl]%Forall_app [Hu Hul]%Forall_cons.
  apply Forall_app; split; [|by apply IH].
  unfold str_field in *. destruct s as [[|u s]|]; [constructor| |constructor].
  apply Forall_cons in Hs as [Hs _]. apply Forall_singleton.
  split; [done|]. split; [done|]. by apply utf8_encode_bytes.
Qed.

(** ** Meta record *)

Lemma writeU32Field_contents w t v :
  tag_ok t → 0 <= v < 2 ^ 32 →
  contents (writeU32Field w t v) = contents w ++ tlv (t, be_bytes v).
Proof.
  intros Ht Hv. unfold writeU32Field, tag_ok in *.
  rewrite !byte_of_shr, band_255 by lia.
  rewrite !contents_u8 by (unfold is_byte; lia).
  rewrite contents_u16, contents_u8 by (unfold is_byte; lia).
  unfold tlv, be_bytes. cbn [fst snd]. change (len _) with 4. by rewrite <- !app_assoc.
Qed.

Lemma writeU32Field_ok w t v : writer_ok w → writer_ok (writeU32Field w t v).
Proof. intros. unfold writeU32Field. by repeat apply append_ok. Qed.

Lemma encodeMeta_Ok date nc nf bs :
  0 <= nc < 2 ^ 32 → 0 <= nf < 2 ^ 32 → encodeMeta date nc nf = Ok bs →
  bs = tlvs (meta_fields date nc nf) ++ fields_end ∧
  Forall (λ f, len f.2 <= 0xFFFF) (meta_fields date nc nf).
Proof.
  intros Hnc Hnf H.
  set (l := [(FM_APP_NAME, Some (js "PWDnow")); (FM_APP_VER, Some (js "1")); (FM_TIMESTAMP, Some date)]).
  assert (H' : (w ← write_fields newWriter l;
                Ok (toUint8Array (endFields (writeU32Field (writeU32Field w FM_NCREDS nc) FM_NFOLDS nf)))) = Ok bs).
  { rewrite <- H. unfold encodeMeta, l. cbn [write_fields].
    repeat (destruct (writeStrField _ _ _); cbn [mbind result_bind]; [|done]). done. }
  apply bind_Ok_inv in H' as (w & Hw & [= <-]).
  apply write_fields_Ok in Hw as (Hok & Hc & Hs);
    [|done|by repeat constructor; unfold tag_ok, FM_APP_NAME, FM_APP_VER, FM_TIMESTAMP].
  rewrite toUint8Array_contents by by apply endFields_ok, writeU32Field_ok, writeU32Field_ok.
  rewrite endFields_contents, !writeU32Field_contents, Hc
    by (done || unfold tag_ok, FM_NFOLDS, FM_NCREDS; lia).
  unfold meta_fields. fold l. rewrite tlvs_app. split.
  - unfold tlvs at 3. cbn [map concat]. by rewrite app_nil_r, <- !app_assoc.
  - apply Forall_app; split; [done|]. by repeat constructor.
Qed.

(** ** What [buildPayload] writes *)

Definition wire (recs : list (Z * bytes)) : bytes := concat (map (λ r, record r.1 r.2) recs).

Lemma wire_app a b : wire (a ++ b) = wire a ++ wire b.
Proof. unfold wire. by rewrite map_app, concat_app. Qed.

Lemma writeRecords_spec {A} (enc : A → res bytes) ty l w :
  writer_ok w → is_byte ty → (∀ x b, enc x = Ok b → len b < 2 ^ 32) →
  match result_map enc l with
  | Ok bs => ∃ w', writeRecords enc ty l w = Ok w' ∧ writer_ok w' ∧
                   contents w' = contents w ++ wire (map (pair ty) bs)
  | Throw e => writeRecords enc ty l w = Throw e
  end.
Proof.
  intros Hw Ht Henc. revert w Hw. induction l as [|x l IH]; intros w Hw; simpl.
  - exists w. by rewrite app_nil_r.
  - destruct (enc x) as [b|e] eqn:Hb; simpl; [|done].
    specialize (IH (writeRecord w ty b) (writeRecord_ok _ _ _ Hw)).
    destruct (result_map enc l) as [bs|e]; simpl; [|done].
    destruct IH as (w' & Hw' & Hok & Hc). exists w'. split; [done|]. split; [done|].
    rewrite Hc, writeRecord_contents by (done || by apply (Henc x)).
    unfold wire. cbn [map concat fst snd]. by rewrite <- app_assoc.
Qed.

Ltac solve_tags :=
  repeat first [apply Forall_nil_2 | apply Forall_cons_2; [split; by vm_compute|]].

Lemma folder_spec_tags f : Forall tag_ok (folder_spec f).*1.
Proof. solve_tags. Qed.
Lemma entry_spec_tags c : Forall tag_ok (entry_spec c).*1.
Proof. solve_tags. Qed.
Lemma folder_spec_NoDup f : NoDup (folder_spec f).*1.
Proof. apply (bool_decide_unpack _). by vm_compute. Qed.
Lemma entry_spec_NoDup c : NoDup (entry_spec c).*1.
Proof. apply (bool_decide_unpack _). by vm_compute. Qed.

Lemma encodeFolder_Ok f b :
  encodeFolder f = Ok b →
  b = tlvs (str_fields (folder_spec f)) ++ fields_end ∧
  Forall (λ f, len f.2 <= 0xFFFF) (str_fields (folder_spec f)).
Proof. rewrite encodeFolder_eq. apply write_fields_encode, folder_spec_tags. Qed.

Lemma encodeEntry_Ok c b :
  encodeEntry c = Ok b →
  b = tlvs (str_fields (entry_spec c)) ++ fields_end ∧
  Forall (λ f, len f.2 <= 0xFFFF) (str_fields (entry_spec c)).
Proof. rewrite encodeEntry_eq. apply write_fields_encode, entry_spec_tags. Qed.

Lemma encodeFolder_len f b : encodeFolder f = Ok b → len b < 2 ^ 32.
Proof. intros [-> H]%encodeFolder_Ok. by apply encoded_len. Qed.
Lemma encodeEntry_len c b : encodeEntry c = Ok b → len b < 2 ^ 32.
Proof. intros [-> H]%encodeEntry_Ok. by apply encoded_len. Qed.

(** Padding always adds at least 128 bytes and lands on a bucket. *)
Lemma getPaddingTarget_bounds n :
  0 <= n → n + 128 <= getPaddingTarget n ∧ getPaddingTarget n - n <= 2 ^ 20 + 128.
Proof.
  intros. unfold getPaddingTarget, MIN_PADDING_BYTES. change (2 ^ 20) with 1048576.
  repeat case_if; to_prop; lia.
Qed.

Definition payload_records (meta : bytes) (fbs cbs : list bytes) (pad : bytes) : list (Z * bytes) :=
  [(R_META, meta)] ++ map (pair R_FOLDER) fbs ++ map (pair R_ENTRY) cbs
  ++ [(R_PADDING, pad); (R_END, [])].

(** The bytes before padding, with the five of the closing record. *)
Definition unpadded_len (meta : bytes) (fbs cbs : list bytes) : Z :=
  len (PRF_MAGIC ++ wire ([(R_META, meta)] ++ map (pair R_FOLDER) fbs ++ map (pair R_ENTRY) cbs)) + 5.

Lemma unpadded_len_nonneg meta fbs cbs : 0 <= unpadded_len meta fbs cbs.
Proof.
  unfold unpadded_len.
  match goal with |- 0 <= len ?l + 5 => pose proof (len_nonneg l) end. lia.
Qed.

Lemma encodeMeta_len date nc nf bs :
  0 <= nc < 2 ^ 32 → 0 <= nf < 2 ^ 32 → encodeMeta date nc nf = Ok bs → len bs < 2 ^ 32.
Proof.
  intros Hnc Hnf [-> Hl]%encodeMeta_Ok; [|done..].
  rewrite len_app. apply tlvs_len in Hl. change (len fields_end) with 3.
  assert (len (meta_fields date nc nf) <= 5); [|lia].
  unfold meta_fields. rewrite len_app. change (len [(FM_NCREDS, _); _]) with 2.
  match goal with |- len (str_fields ?l) + _ <= _ => pose proof (str_fields_len l) as Hs; change (len l) with 3 in Hs end.
  lia.
Qed.

(** The padding and closing records appended to a writer. *)
Lemma padded_contents w pad :
  writer_ok w → len pad < 2 ^ 32 →
  toUint8Array (w_u32 0 (w_u8 R_END (writeRecord w R_PADDING pad))) =
    contents w ++ wire [(R_PADDING, pad); (R_END, [])].
Proof.
  intros Hw Hl. rewrite toUint8Array_contents by by repeat apply append_ok.
  rewrite contents_u32, contents_u8, writeRecord_contents by done.
  unfold wire, record. cbn [map concat fst snd app]. by rewrite !app_nil_r, <- !app_assoc.
Qed.

Lemma writeRecords_total {A} (enc : A → res bytes) ty l w w' :
  writeRecords enc ty l w = Ok w' → ∃ bs, result_map enc l = Ok bs.
Proof.
  revert w. induction l as [|x l IH]; intros w H; simpl in *; [eauto|].
  apply bind_Ok_inv in H as (b & -> & H). simpl. destruct (IH _ H) as [bs ->]. simpl. eauto.
Qed.

Lemma payload_len meta fbs cbs pad :
  len (PRF_MAGIC ++ wire (payload_records meta fbs cbs pad)) = unpadded_len meta fbs cbs + 5 + len pad.
Proof.
  unfold unpadded_len, payload_records. rewrite !wire_app, !len_app.
  assert (E : len (wire [(R_PADDING, pad); (R_END, [])]) = 10 + len pad).
  { unfold wire. cbn [map concat fst snd]. rewrite !len_app, !record_len. change (len []) with 0. lia. }
  rewrite E. lia.
Qed.

Section build.
Context (rand : nat → bytes).
Hypothesis rand_length : ∀ n, length (rand n) = n.
Hypothesis rand_Bytes : ∀ n, Bytes (rand n).

Lemma getRandomValues_Ok n pad :
  0 <= n → getRandomValues rand n = Ok pad → len pad = n ∧ n <= 65536 ∧ Bytes pad.
Proof.
  intros Hn H. unfold getRandomValues in H. inv_ok. subst. to_prop.
  unfold len. rewrite rand_length. repeat split; try lia. apply rand_Bytes.
Qed.

(** [buildPayload] once the records are encoded: only the random padding can
    still fail. *)
Lemma buildPayload_eq creds folds date meta fbs cbs :
  len creds < 2 ^ 32 → len folds < 2 ^ 32 →
  encodeMeta date (len creds) (len folds) = Ok meta →
  result_map encodeFolder folds = Ok fbs → result_map encodeEntry creds = Ok cbs →
  buildPayload rand creds folds date =
    (let u := unpadded_len meta fbs cbs in
     pad ← getRandomValues rand (getPaddingTarget u - u - 5);
     Ok (PRF_MAGIC ++ wire (payload_records meta fbs cbs pad))).
Proof.
  intros Hnc Hnf Hmeta Hfbs Hcbs. unfold buildPayload. rewrite Hmeta. cbn [mbind result_bind].
  pose proof (len_nonneg creds). pose proof (len_nonneg folds).
  assert (Hmlen : len meta < 2 ^ 32) by (eapply encodeMeta_len; [..|done]; lia).
  set (w0 := writeRecord (w_write PRF_MAGIC newWriter) R_META meta).
  assert (Hw0 : writer_ok w0) by (by apply writeRecord_ok, append_ok).
  pose proof (writeRecords_spec encodeFolder R_FOLDER folds w0 Hw0) as H1. rewrite Hfbs in H1.
  destruct H1 as (w1 & -> & Hw1 & Hc1); [done|apply encodeFolder_len|]. cbn [mbind result_bind].
  pose proof (writeRecords_spec encodeEntry R_ENTRY creds w1 Hw1) as H2. rewrite Hcbs in H2.
  destruct H2 as (w2 & -> & Hw2 & Hc2); [done|apply encodeEntry_len|]. cbn [mbind result_bind].
  assert (Hcont : contents w2 = PRF_MAGIC ++
            wire ([(R_META, meta)] ++ map (pair R_FOLDER) fbs ++ map (pair R_ENTRY) cbs)).
  { rewrite Hc2, Hc1. unfold w0. rewrite writeRecord_contents by done.
    unfold w_write. rewrite contents_append, !wire_app. unfold wire at 3. cbn [map concat fst snd].
    by rewrite app_nil_r, <- !app_assoc. }
  assert (Hcur : _len w2 + 5 = unpadded_len meta fbs cbs) by (unfold unpadded_len; by rewrite Hw2, Hcont).
  rewrite Hcur. pose proof (unpadded_len_nonneg meta fbs cbs) as Hcur0.
  assert (Hrec : ∀ pad, PRF_MAGIC ++ wire (payload_records meta fbs cbs pad) =
            contents w2 ++ wire [(R_PADDING, pad); (R_END, [])]).
  { intros pad. unfold payload_records. by rewrite Hcont, !wire_app, <- !app_assoc. }
  revert Hcur0. generalize (unpadded_len meta fbs cbs). intros cur Hcur0. cbn zeta.
  destruct (getPaddingTarget_bounds cur) as [Hge Hle]; [done|].
  rewrite Z.gtb_ltb, (proj2 (Z.ltb_lt 5 _)) by lia.
  destruct (getRandomValues rand _) as [pad|e] eqn:Hr; cbn [mbind result_bind]; [|done].
  apply getRandomValues_Ok in Hr as (Hpl & Hq & HB); [|lia].
  by rewrite Hrec, padded_contents by (done || lia).
Qed.

Lemma buildPayload_Ok creds folds date bs :
  len creds < 2 ^ 32 → len folds < 2 ^ 32 →
  buildPayload rand creds folds date = Ok bs →
  ∃ meta fbs cbs pad,
    encodeMeta date (len creds) (len folds) = Ok meta ∧
    result_map encodeFolder folds = Ok fbs ∧ result_map encodeEntry creds = Ok cbs ∧
    bs = PRF_MAGIC ++ wire (payload_records meta fbs cbs pad) ∧
    len bs = getPaddingTarget (unpadded_len meta fbs cbs) ∧
    len pad <= 65536 ∧ Bytes pad.
Proof.
  intros Hnc Hnf H.
  assert (∃ meta fbs cbs, encodeMeta date (len creds) (len folds) = Ok meta ∧
    result_map encodeFolder folds = Ok fbs ∧ result_map encodeEntry creds = Ok cbs)
    as (meta & fbs & cbs & Hm & Hf & Hc).
  { unfold buildPayload in H. apply bind_Ok_inv in H as (meta & Hm & H).
    apply bind_Ok_inv in H as (w1 & Hf & H). apply bind_Ok_inv in H as (w2 & Hc & _).
    pose proof (writeRecords_total _ _ _ _ _ Hf) as [fbs ?].
    pose proof (writeRecords_total _ _ _ _ _ Hc) as [cbs ?]. by exists meta, fbs, cbs. }
  rewrite (buildPayload_eq creds folds date meta fbs cbs) in H by done.
  cbn zeta in H. apply bind_Ok_inv in H as (pad & Hr & H).
  assert (bs = PRF_MAGIC ++ wire (payload_records meta fbs cbs pad)) as -> by congruence. clear H.
  exists meta, fbs, cbs, pad. pose proof (unpadded_len_nonneg meta fbs cbs).
  destruct (getPaddingTarget_bounds (unpadded_len meta fbs cbs)); [done|].
  apply getRandomValues_Ok in Hr as (Hpl & Hq & HB); [|lia].
  split; [done|]. split; [done|]. split; [done|]. split; [done|].
  rewrite payload_len. split; [lia|]. split; [lia|done].
Qed.
End build.

(** ** Reading a payload back *)

Lemma valid_id_transportable id : valid_id id = true → transportable id = true.
Proof.
  unfold valid_id. intros H. to_prop. unfold transportable.
  assert (Hall : forallb is_id_char id = true) by done. clear -Hall.
  assert (Hwf : well_formed id = true ∧ Forall (λ c, 0 <= c < 128) id).
  { induction id as [|c id IH]; [done|]. simpl in Hall. to_prop.
    destruct IH as [IH1 IH2]; [done|].
    assert (0 <= c < 128).
    { unfold is_id_char, is_lower, is_upper, is_digit in *.
      repeat match goal with H : (_ || _)%bool = true |- _ => apply orb_prop in H as [?|?] end;
        to_prop; lia. }
    split; [|by constructor]. simpl. unfold is_high, is_low.
    rewrite (proj2 (Z.leb_gt 55296 c)), (proj2 (Z.leb_gt 56320 c)), (proj2 (Z.leb_le 0 c)),
      (proj2 (Z.ltb_lt c 65536)), IH1 by lia. done. }
  destruct Hwf as [-> Hr]. simpl. destruct Hr as [|c id Hc Hr]; [done|].
  simpl. unfold BOM. by rewrite (proj2 (Z.eqb_neq 65279 c)) by lia.
Qed.

Lemma transportable_nil : transportable [] = true.
Proof. done. Qed.

Lemma transportable_u16 s : transportable s = true → Forall is_u16 s.
Proof. unfold transportable. intros H. to_prop. by apply well_formed_u16. Qed.

(** Vault items that the format carries: ids of the accepted alphabet, strings
    the UTF-8 codec transports. *)
Definition exportable_folder (f : Folder) : bool :=
  valid_id (f_id f) && transportable (f_label f) && transportable (or_empty (f_description f)).

Definition exportable_entry (c : Credential) : bool :=
  (str_empty (id_string (c_id c)) || valid_id (id_string (c_id c))) &&
  forallb transportable
    [c_service c; c_url c; c_username c; or_empty (c_password c); or_empty (c_description c);
     or_empty (c_otpSecret c); c_folderId c; c_status c; or_empty (tags_string c)].

(** What the reader makes of a written folder or entry: the length limits of the
    parser applied, every field the format does not carry gone. *)
Definition imported_folder (f : Folder) : Folder :=
  mkFolder (f_id f) (slice0 256 (f_label f))
    (or_undefined (slice0 1024 (or_empty (f_description f)))) None None.

Definition imported_entry (uuid : jsstr) (c : Credential) : Credential :=
  basic_credential (IdString (str_or (id_string (c_id c)) uuid))
    (slice0 256 (c_service c)) (slice0 2048 (c_url c)) (slice0 256 (c_username c))
    (Some (slice0 4096 (or_empty (c_password c))))
    (str_or (slice0 32 (c_status c)) (js "active")) (js "#22c55e") []
    (slice0 64 (c_folderId c)) (Some (clean_tags (split_tags (or_empty (tags_string c)))))
    (or_undefined (slice0 256 (or_empty (c_otpSecret c))))
    (or_undefined (slice0 10000 (or_empty (c_description c)))) (c_credentialType c).

Lemma parse_type_string t : parse_type (or_empty (credentialType_string <$> t)) = t.
Proof. by destruct t as [[]|]; vm_compute. Qed.

Lemma type_transportable t : transportable (or_empty (credentialType_string <$> t)) = true.
Proof. by destruct t as [[]|]; vm_compute. Qed.

Lemma id_transportable s : str_empty s || valid_id s = true → transportable s = true.
Proof.
  destruct s as [|u s]; [done|]. cbn [str_empty orb]. apply valid_id_transportable.
Qed.

(** Every string field of a record at once. *)
Lemma strF_all l :
  NoDup l.*1 → Forall (λ p, transportable (or_empty p.2) = true) l →
  Forall (λ p, strF (fields_map (str_fields l) ∅) p.1 = or_empty p.2) l.
Proof.
  intros Hnd Hl. apply Forall_forall. intros [t s] Hin.
  apply strF_spec; try done. by apply (proj1 (Forall_forall _ _) Hl (t, s)).
Qed.

Ltac split_Forall H :=
  repeat (let H1 := fresh "HF" in apply Forall_cons in H as [H1 H]; cbn [fst snd or_empty] in H1).

Lemma folder_spec_transportable f :
  exportable_folder f = true → Forall (λ p, transportable (or_empty p.2) = true) (folder_spec f).
Proof.
  unfold exportable_folder. intros H. to_prop.
  repeat first [apply Forall_nil_2 | apply Forall_cons_2; [try done|]].
  by apply valid_id_transportable.
Qed.

Lemma entry_spec_transportable c :
  exportable_entry c = true → Forall (λ p, transportable (or_empty p.2) = true) (entry_spec c).
Proof.
  unfold exportable_entry. cbn [forallb]. intros H. to_prop.
  repeat first [apply Forall_nil_2 | apply Forall_cons_2; [try done|]].
  - by apply id_transportable.
  - apply type_transportable.
Qed.

Lemma folder_roundtrip f :
  exportable_folder f = true →
  folder_of_fields (fields_map (str_fields (folder_spec f)) ∅) = Ok (imported_folder f).
Proof.
  intros H. pose proof (strF_all _ (folder_spec_NoDup f) (folder_spec_transportable f H)) as HF.
  assert (Hid : valid_id (f_id f) = true) by (unfold exportable_folder in H; by to_prop).
  clear H. unfold folder_of_fields. set (m := fields_map _ _) in *. clearbody m. unfold folder_spec in HF. split_Forall HF.
  rewrite HF0, HF1, HF2, Hid. done.
Qed.

Lemma entry_roundtrip uuid c :
  exportable_entry c = true →
  entry_of_fields uuid (fields_map (str_fields (entry_spec c)) ∅) = Ok (imported_entry uuid c).
Proof.
  intros H. pose proof (strF_all _ (entry_spec_NoDup c) (entry_spec_transportable c H)) as HF.
  assert (Hid : str_empty (id_string (c_id c)) || valid_id (id_string (c_id c)) = true)
    by (unfold exportable_entry in H; by to_prop).
  clear H. unfold entry_of_fields. set (m := fields_map _ _) in *. clearbody m.
  unfold entry_spec in HF. split_Forall HF.
  rewrite HF0, HF1, HF2, HF3, HF4, HF5, HF6, HF7, HF8, HF9, HF10, parse_type_string.
  rewrite <- negb_orb, Hid. done.
Qed.

Section parse_proofs.
Context (uuid : nat → jsstr).

(** One iteration of the loop on a well-formed record. *)
Lemma parse_loop_step f r st ty body l :
  reader_ok r → rest r = record ty body ++ l → len body < 2 ^ 32 →
  ∃ r', reader_ok r' ∧ rest r' = l ∧
    parse_loop uuid (S f) r st =
      (fl ← parse_record uuid st ty body (len l);
       match fl with Continue st' => parse_loop uuid f r' st' | Break st' => Ok st' end).
Proof.
  intros Hok Hr Hlen. pose proof (len_nonneg body). pose proof (len_nonneg l).
  assert (Hr0 : rest r = [ty] ++ be_bytes (len body) ++ body ++ l).
  { rewrite Hr. unfold record. cbn [app]. by rewrite <- app_assoc. }
  destruct (advance_ok r [ty] _ Hok Hr0) as [Hok1 Hr1]. cbn [length] in Hok1, Hr1.
  destruct (advance_ok _ (be_bytes (len body)) _ Hok1 Hr1) as [Hok2 Hr2].
  change (length (be_bytes (len body))) with 4%nat in Hok2, Hr2.
  destruct (advance_ok _ body _ Hok2 Hr2) as [Hok3 Hr3].
  exists (advance (length body) (advance 4 (advance 1 r))). split; [done|]. split; [done|].
  cbn [parse_loop]. rewrite !(remaining_rest r), Hr, len_app, record_len by done.
  rewrite Z.gtb_ltb, (proj2 (Z.ltb_lt 0 _)), (proj2 (Z.ltb_ge _ 5)) by lia.
  cbn [throw_if mbind result_bind]. rewrite (r_u8_spec r ty _ Hok Hr0). cbn [mbind result_bind].
  pose proof (be_bytes_Bytes (len body)) as Hb. unfold be_bytes in Hb, Hr1.
  rewrite !Bytes_cons in Hb. destruct Hb as (?&?&?&?&_).
  rewrite (r_u32_spec _ _ _ _ _ _ Hok1 Hr1) by done. cbn [mbind result_bind].
  rewrite be_bytes_value by lia. rewrite remaining_rest, Hr2, len_app by done.
  rewrite Z.gtb_ltb, (proj2 (Z.ltb_ge _ _)) by lia. cbn [throw_if mbind result_bind].
  rewrite (r_bytes_spec _ body _ Hok2 Hr2). cbn [mbind result_bind].
  rewrite remaining_rest, Hr3 by done. done.
Qed.

Lemma parse_loop_end f r st : reader_ok r → rest r = [] → parse_loop uuid (S f) r st = Ok st.
Proof. intros Hok Hr. cbn [parse_loop]. by rewrite remaining_rest, Hr by done. Qed.

(** The body of a record of string fields, opened by [parse_record]. *)
Lemma open_body l :
  Forall tag_ok l.*1 → Forall (λ f, len f.2 <= 0xFFFF) (str_fields l) →
  Forall (λ p, transportable (or_empty p.2) = true) l →
  ∃ br, readFields (newReader (tlvs (str_fields l) ++ fields_end)) =
          Ok (fields_map (str_fields l) ∅, br) ∧ remaining br = 0.
Proof.
  intros Ht Hs Htr. apply readFields_spec, str_fields_ok; try done.
  eapply Forall_impl; [exact Htr|]. intros p. apply transportable_u16.
Qed.

Lemma parse_folder st f b left :
  exportable_folder f = true → encodeFolder f = Ok b → p_state st <= 2 →
  len (p_folders st) < 5000 →
  parse_record uuid st R_FOLDER b left =
    Ok (Continue (mkPState (p_credentials st) (p_folders st ++ [imported_folder f])
                    (p_metaCreds st) (p_metaFolds st) 2)).
Proof.
  intros Hf [-> Hs]%encodeFolder_Ok Hst Hlen. unfold parse_record.
  change (R_FOLDER =? R_END) with false. change (R_FOLDER =? R_PADDING) with false. cbn iota.
  destruct (open_body (folder_spec f)) as (br & -> & Hbr);
    [apply folder_spec_tags|done|by apply folder_spec_transportable|].
  cbn [mbind result_bind]. rewrite Hbr. change (0 >? 0) with false.
  change (R_FOLDER =? R_META) with false. change (R_FOLDER =? R_FOLDER) with true.
  cbn [throw_if mbind result_bind].
  rewrite Z.gtb_ltb, (proj2 (Z.ltb_ge _ _)) by lia. cbn [throw_if mbind result_bind].
  rewrite folder_roundtrip by done. cbn [mbind result_bind].
  rewrite len_app. change (len [_]) with 1.
  rewrite Z.gtb_ltb, (proj2 (Z.ltb_ge _ _)) by lia. done.
Qed.

Lemma parse_entry st c b left :
  exportable_entry c = true → encodeEntry c = Ok b → p_state st <= 3 →
  len (p_credentials st) < 50000 →
  parse_record uuid st R_ENTRY b left =
    Ok (Continue (mkPState (p_credentials st ++ [imported_entry (uuid (length (p_credentials st))) c])
                    (p_folders st) (p_metaCreds st) (p_metaFolds st) 3)).
Proof.
  intros Hf [-> Hs]%encodeEntry_Ok Hst Hlen. unfold parse_record.
  change (R_ENTRY =? R_END) with false. change (R_ENTRY =? R_PADDING) with false. cbn iota.
  destruct (open_body (entry_spec c)) as (br & -> & Hbr);
    [apply entry_spec_tags|done|by apply entry_spec_transportable|].
  cbn [mbind result_bind]. rewrite Hbr. change (0 >? 0) with false.
  change (R_ENTRY =? R_META) with false. change (R_ENTRY =? R_FOLDER) with false.
  change (R_ENTRY =? R_ENTRY) with true. cbn [throw_if mbind result_bind].
  rewrite Z.gtb_ltb, (proj2 (Z.ltb_ge _ _)) by lia. cbn [throw_if mbind result_bind].
  rewrite entry_roundtrip by done. cbn [mbind result_bind].
  rewrite len_app. change (len [_]) with 1.
  rewrite Z.gtb_ltb, (proj2 (Z.ltb_ge _ _)) by lia. done.
Qed.

Definition imported_entries (k : nat) (cs : list Credential) : list Credential :=
  imap (λ i c, imported_entry (uuid (k + i)%nat) c) cs.

Lemma imported_entries_cons k c cs :
  imported_entries k (c :: cs) = imported_entry (uuid k) c :: imported_entries (k + 1) cs.
Proof.
  unfold imported_entries. rewrite imap_cons, Nat.add_0_r. f_equal.
  apply imap_ext. intros i y _. simpl. do 2 f_equal. lia.
Qed.

Lemma parse_folders fs bs f r st l :
  forallb exportable_folder fs = true → result_map encodeFolder fs = Ok bs →
  reader_ok r → rest r = wire (map (pair R_FOLDER) bs) ++ l →
  p_state st <= 2 → len (p_folders st) + len fs <= 5000 →
  ∃ r' n, reader_ok r' ∧ rest r' = l ∧ p_state st <= n <= 2 ∧ (n = p_state st ∨ n = 2) ∧
    parse_loop uuid (length bs + f) r st =
      parse_loop uuid f r' (mkPState (p_credentials st) (p_folders st ++ map imported_folder fs)
                              (p_metaCreds st) (p_metaFolds st) n).
Proof.
  revert bs r st. induction fs as [|x fs IH]; intros bs r st Hx Hbs Hok Hr Hst Hlen; simpl in *.
  - inv_ok. subst bs. exists r, (p_state st). simpl in *. rewrite app_nil_r.
    repeat split; try done; auto with lia. by destruct st.
  - apply bind_Ok_inv in Hbs as (b & Hb & Hbs). apply bind_Ok_inv in Hbs as (bs' & Hbs & [= <-]).
    to_prop. unfold wire in Hr. cbn [map concat fst snd] in Hr. rewrite <- app_assoc in Hr.
    destruct (parse_loop_step (length bs' + f) r st R_FOLDER b _ Hok Hr) as (r1 & Hok1 & Hr1 & E);
      [by eapply encodeFolder_len|]. pose proof (len_nonneg fs). rewrite len_cons in Hlen.
    rewrite (parse_folder st x b _) in E by (done || lia). cbn [mbind result_bind] in E.
    match type of E with _ = parse_loop _ _ _ ?s =>
      destruct (IH bs' r1 s) as (r2 & n & Hok2 & Hr2 & Hn & Hn' & E2); [done..| | |] end.
    + simpl. lia.
    + simpl. rewrite len_app. change (len [_]) with 1. lia.
    + exists r2, n. simpl in *. rewrite E, E2, <- app_assoc. repeat split; try done; lia.
Qed.

Lemma parse_entries cs bs f r st l :
  forallb exportable_entry cs = true → result_map encodeEntry cs = Ok bs →
  reader_ok r → rest r = wire (map (pair R_ENTRY) bs) ++ l →
  p_state st <= 3 → len (p_credentials st) + len cs <= 50000 →
  ∃ r' n, reader_ok r' ∧ rest r' = l ∧ (n = p_state st ∨ n = 3) ∧
    parse_loop uuid (length bs + f) r st =
      parse_loop uuid f r'
        (mkPState (p_credentials st ++ imported_entries (length (p_credentials st)) cs)
           (p_folders st) (p_metaCreds st) (p_metaFolds st) n).
Proof.
  revert bs r st. induction cs as [|x cs IH]; intros bs r st Hx Hbs Hok Hr Hst Hlen; simpl in *.
  - inv_ok. subst bs. exists r, (p_state st). simpl in *. rewrite app_nil_r.
    repeat split; try done; [by left|]. by destruct st.
  - apply bind_Ok_inv in Hbs as (b & Hb & Hbs). apply bind_Ok_inv in Hbs as (bs' & Hbs & [= <-]).
    to_prop. unfold wire in Hr. cbn [map concat fst snd] in Hr. rewrite <- app_assoc in Hr.
    destruct (parse_loop_step (length bs' + f) r st R_ENTRY b _ Hok Hr) as (r1 & Hok1 & Hr1 & E);
      [by eapply encodeEntry_len|]. pose proof (len_nonneg cs). rewrite len_cons in Hlen.
    rewrite (parse_entry st x b _) in E by (done || lia). cbn [mbind result_bind] in E.
    match type of E with _ = parse_loop _ _ _ ?s =>
      destruct (IH bs' r1 s) as (r2 & n & Hok2 & Hr2 & Hn & E2); [done..| | |] end.
    + simpl. lia.
    + simpl. rewrite len_app. change (len [_]) with 1. lia.
    + exists r2, n. simpl in *. rewrite E, E2, <- app_assoc, imported_entries_cons, length_app.
      repeat split; try done. destruct Hn as [->| ->]; auto.
Qed.
End parse_proofs.

Lemma meta_fields_ok date nc nf :
  Forall is_u16 date → Forall (λ f, len f.2 <= 0xFFFF) (meta_fields date nc nf) →
  Forall field_ok (meta_fields date nc nf).
Proof.
  intros Hd Hs. unfold meta_fields in *. apply Forall_app in Hs as [Hs _].
  apply Forall_app; split.
  - apply str_fields_ok; [solve_tags|done|].
    apply Forall_cons_2; [apply transportable_u16; by vm_compute|].
    apply Forall_cons_2; [apply transportable_u16; by vm_compute|]. by apply Forall_singleton.
  - apply Forall_cons_2; [|apply Forall_singleton];
      (split; [split; by vm_compute|split; [by vm_compute|apply be_bytes_Bytes]]).
Qed.

Lemma meta_fields_NoDup date nc nf : NoDup (meta_fields date nc nf).*1.
Proof.
  unfold meta_fields, str_fields. simpl. destruct date as [|u date]; simpl;
    apply (bool_decide_unpack _); by vm_compute.
Qed.

Lemma u32F_be_bytes fs t v :
  NoDup fs.*1 → (t, be_bytes v) ∈ fs → 0 <= v < 2 ^ 32 → u32F (fields_map fs ∅) t = v.
Proof.
  intros Hnd Hin Hv. unfold u32F. rewrite (fields_map_lookup _ _ _ _ Hnd Hin).
  change (len (be_bytes v) <? 4) with false. cbn iota.
  unfold be_bytes, at_. cbn [nth].
  pose proof (be_bytes_Bytes v) as Hb. unfold be_bytes in Hb. rewrite !Bytes_cons in Hb.
  destruct Hb as (?&?&?&?&_). rewrite be32_spec by done. by apply be_bytes_value.
Qed.

Lemma parse_meta uuid date nc nf b left :
  Forall is_u16 date → 0 <= nc <= 50000 → 0 <= nf <= 5000 → encodeMeta date nc nf = Ok b →
  parse_record uuid pstate_init R_META b left = Ok (Continue (mkPState [] [] nc nf 1)).
Proof.
  intros Hd Hnc Hnf Hb. apply encodeMeta_Ok in Hb as [-> Hs]; [|lia..].
  unfold parse_record.
  change (R_META =? R_END) with false. change (R_META =? R_PADDING) with false. cbn iota.
  destruct (readFields_spec (meta_fields date nc nf)) as (br & -> & Hbr);
    [by apply meta_fields_ok|].
  cbn [mbind result_bind]. rewrite Hbr. change (0 >? 0) with false.
  change (R_META =? R_META) with true. change (p_state pstate_init =? 0) with true.
  cbn [throw_if mbind result_bind negb].
  rewrite (u32F_be_bytes (meta_fields date nc nf) FM_NCREDS nc),
    (u32F_be_bytes (meta_fields date nc nf) FM_NFOLDS nf);
    try apply meta_fields_NoDup; try lia;
    try (unfold meta_fields; rewrite elem_of_app, !elem_of_cons; right; auto).
  rewrite !Z.gtb_ltb, !(proj2 (Z.ltb_ge _ _)) by lia. done.
Qed.

Lemma wire_length_ge l : (length l <= length (wire l))%nat.
Proof.
  induction l as [|x l IH]; [done|]. unfold wire in *. cbn [map concat length].
  rewrite length_app. assert (1 <= length (record x.1 x.2))%nat by (unfold record; cbn [length]; lia).
  lia.
Qed.

(** The loop never runs out of fuel: there are fewer records than bytes. *)
Lemma payload_fuel meta fbs cbs pad :
  (length fbs + length cbs + 2 <= length (PRF_MAGIC ++ wire (payload_records meta fbs cbs pad)))%nat.
Proof.
  rewrite length_app. pose proof (wire_length_ge (payload_records meta fbs cbs pad)) as H.
  assert (E : length (payload_records meta fbs cbs pad) = (1 + (length fbs + (length cbs + 2)))%nat).
  { unfold payload_records. by rewrite !length_app, !length_map. }
  lia.
Qed.

(** ** Properties *)

Module Payload.
Section payload.
Context (rand : nat → bytes) (uuid : nat → jsstr).
Hypothesis rand_length : ∀ n, length (rand n) = n.
Hypothesis rand_Bytes : ∀ n, Bytes (rand n).

Lemma parse_tail pad f r st :
  reader_ok r → rest r = wire [(R_PADDING, pad); (R_END, [])] → len pad < 2 ^ 32 → 1 <= p_state st →
  parse_loop uuid (S (S f)) r st =
    Ok (mkPState (p_credentials st) (p_folders st) (p_metaCreds st) (p_metaFolds st) 5).
Proof.
  intros Hok Hr Hl Hst. unfold wire in Hr. cbn [map concat fst snd] in Hr.
  destruct (parse_loop_step uuid (S f) r st R_PADDING pad _ Hok Hr Hl) as (r1 & Hok1 & Hr1 & ->).
  unfold parse_record at 1. change (R_PADDING =? R_END) with false.
  change (R_PADDING =? R_PADDING) with true. cbn iota.
  rewrite (proj2 (Z.ltb_ge _ 1)) by lia. cbn [throw_if mbind result_bind].
  match goal with |- parse_loop _ _ _ ?s = _ =>
    destruct (parse_loop_step uuid f r1 s R_END [] _ Hok1 Hr1) as (r2 & _ & _ & ->); [done|] end.
  unfold parse_record. change (R_END =? R_END) with true. cbn iota.
  by rewrite (proj2 (Z.ltb_ge _ 1)) by (simpl; lia).
Qed.

(** The prologue of [parsePayload] on data that starts with the magic. *)
Lemma parsePayload_magic tl :
  ∃ r0, reader_ok r0 ∧ rest r0 = tl ∧
    parsePayload uuid (PRF_MAGIC ++ tl) =
      (st ← parse_loop uuid (S (length (PRF_MAGIC ++ tl))) r0 pstate_init;
       _ ← throw_if (p_state st <? 1) FAIL_MSG;
       _ ← throw_if (negb (p_metaCreds st =? len (p_credentials st)) ||
                     negb (p_metaFolds st =? len (p_folders st))) FAIL_MSG;
       Ok (p_credentials st, p_folders st)).
Proof.
  pose proof (len_nonneg tl). pose proof (newReader_ok (PRF_MAGIC ++ tl)) as Hok.
  pose proof (rest_newReader (PRF_MAGIC ++ tl)) as Hrest.
  destruct (advance_ok _ PRF_MAGIC tl Hok Hrest) as [Hok0 Hr0].
  exists (advance (length PRF_MAGIC) (newReader (PRF_MAGIC ++ tl))).
  split; [done|]. split; [done|]. unfold parsePayload.
  rewrite remaining_rest, Hrest, len_app by done.
  change (len PRF_MAGIC) with 4. rewrite (proj2 (Z.ltb_ge _ 4)) by lia. cbn [throw_if mbind result_bind].
  change 4 with (len PRF_MAGIC). rewrite (r_bytes_spec _ PRF_MAGIC tl) by done.
  cbn [mbind result_bind]. by rewrite (bool_decide_eq_true_2 (PRF_MAGIC = PRF_MAGIC)) by done.
Qed.

Lemma parse_built creds folds date bs :
  len creds <= 50000 → len folds <= 5000 → Forall is_u16 date →
  forallb exportable_entry creds = true → forallb exportable_folder folds = true →
  buildPayload rand creds folds date = Ok bs →
  parsePayload uuid bs = Ok (imported_entries uuid 0 creds, map imported_folder folds).
Proof.
  intros Hnc Hnf Hd Hec Hef Hb. pose proof (len_nonneg creds). pose proof (len_nonneg folds).
  apply (buildPayload_Ok rand rand_length rand_Bytes) in Hb
    as (meta & fbs & cbs & pad & Hm & Hf & Hc & -> & _ & Hpad & _); [|lia..].
  set (tl := wire (payload_records meta fbs cbs pad)).
  destruct (parsePayload_magic tl) as (r0 & Hok0 & Hr0 & ->).
  unfold tl, payload_records in Hr0. rewrite !wire_app in Hr0.
  assert (Hr0' : rest r0 = record R_META meta ++ wire (map (pair R_FOLDER) fbs)
            ++ wire (map (pair R_ENTRY) cbs) ++ wire [(R_PADDING, pad); (R_END, [])]).
  { rewrite Hr0. unfold wire at 1. cbn [map concat fst snd]. by rewrite app_nil_r. }
  assert (Hfuel : ∃ k, S (length (PRF_MAGIC ++ tl)) = S (length fbs + (length cbs + S (S k)))).
  { exists (length (PRF_MAGIC ++ tl) - length fbs - length cbs - 2)%nat.
    pose proof (payload_fuel meta fbs cbs pad). unfold tl. lia. }
  destruct Hfuel as [k ->].
  destruct (parse_loop_step uuid (length fbs + (length cbs + S (S k))) r0 pstate_init R_META meta _ Hok0 Hr0')
    as (r1 & Hok1 & Hr1 & ->); [eapply encodeMeta_len; [..|done]; lia|].
  rewrite (parse_meta uuid date (len creds) (len folds)) by (done || lia). cbn [mbind result_bind].
  destruct (parse_folders uuid folds fbs (length cbs + S (S k)) r1
              (mkPState [] [] (len creds) (len folds) 1) _ Hef Hf Hok1 Hr1)
    as (r2 & n & Hok2 & Hr2 & Hn & _ & ->); [simpl; lia|simpl; rewrite len_nil; lia|].
  match goal with |- context [parse_loop uuid _ r2 ?s] =>
    destruct (parse_entries uuid creds cbs (S (S k)) r2 s _ Hec Hc Hok2 Hr2)
      as (r3 & n' & Hok3 & Hr3 & Hn' & ->); [simpl in *; lia|simpl; rewrite len_nil; lia|] end.
  rewrite (parse_tail pad) by (done || simpl in *; lia). simpl.
  rewrite !(proj2 (Z.eqb_eq _ _)); [done|..]; unfold len, imported_entries.
  - by rewrite length_map.
  - by rewrite length_imap.
Qed.

(** *** The record-order state machine *)

(** The records read so far, by type, and what they say of the parser's state. *)
Definition trace_types (meta : bool) (n m k : nat) : list Z :=
  (if meta then [R_META] else []) ++ replicate n R_FOLDER ++ replicate m R_ENTRY ++ replicate k R_PADDING.

Record accepted (st : pstate) (meta : bool) (n m k : nat) : Prop := {
  acc_folders : n = length (p_folders st);
  acc_creds : m = length (p_credentials st);
  acc_meta : if meta then 0 <= p_metaCreds st else p_metaCreds st = -1;
  acc_state :
    (p_state st = 0 ∧ meta = false ∧ n = O ∧ m = O ∧ k = O) ∨
    (p_state st = 1 ∧ meta = true ∧ n = O ∧ m = O ∧ k = O) ∨
    (p_state st = 2 ∧ m = O ∧ k = O) ∨
    (p_state st = 3 ∧ k = O) ∨ p_state st = 4;
}.

Ltac inv_flow := match goal with H : _ = ?s |- _ => is_var s; match type of s with pstate => subst s end end.

Lemma u32F_nonneg fields t : 0 <= u32F fields t.
Proof.
  unfold u32F. destruct (fields !! t); [|lia]. case_if; [lia|].
  unfold be32. rewrite shr_0. apply to_uint32_range.
Qed.

Lemma parse_record_accepted st ty body left st' meta n m k :
  accepted st meta n m k → parse_record uuid st ty body left = Ok (Continue st') →
  ∃ meta' n' m' k', accepted st' meta' n' m' k' ∧
    trace_types meta' n' m' k' = trace_types meta n m k ++ [ty].
Proof.
  intros [Hf Hc Hm Hs] H. unfold parse_record in H.
  destruct (Z.eqb_spec ty R_END); [inv_ok; discriminate|].
  destruct (Z.eqb_spec ty R_PADDING) as [->|].
  { inv_ok; inv_flow; to_prop. exists meta, n, m, (S k). split.
    - split; simpl; auto with lia.
    - unfold trace_types. rewrite replicate_S_end. by rewrite <- !app_assoc. }
  apply bind_Ok_inv in H as ([fields br] & _ & H). apply bind_Ok_inv in H as (_ & _ & H).
  destruct (Z.eqb_spec ty R_META) as [->|].
  { inv_ok; inv_flow; to_prop. pose proof (u32F_nonneg fields FM_NCREDS).
    destruct Hs as [(?&->&->&->&->)|[?|[?|[?|?]]]]; try lia. exists true, 0%nat, 0%nat, 0%nat.
    split; [|done]. split; simpl; naive_solver. }
  destruct (Z.eqb_spec ty R_FOLDER) as [->|].
  { inv_ok; inv_flow; to_prop.
    assert (m = O ∧ k = O) as [Hm0 ->] by lia. rewrite Hm0 in Hc |- *.
    exists meta, (S n), 0%nat, 0%nat. split.
    - split; simpl; [rewrite length_app; simpl; lia|done|done|lia].
    - unfold trace_types. rewrite replicate_S_end. simpl. by rewrite !app_nil_r, <- app_assoc. }
  destruct (Z.eqb_spec ty R_ENTRY) as [->|]; [|discriminate].
  inv_ok; inv_flow; to_prop.
  assert (k = O) as -> by lia.
  exists meta, n, (S m), 0%nat. split.
  - split; simpl; [done|rewrite length_app; simpl; lia|done|lia].
  - unfold trace_types. rewrite replicate_S_end. simpl. by rewrite !app_nil_r, <- !app_assoc.
Qed.

Lemma r_u32_Ok_bytes r v r' :
  reader_ok r → Bytes (r_data r) → r_u32 r = Ok (v, r') →
  rest r = be_bytes v ++ rest r' ∧ reader_ok r' ∧ r_data r' = r_data r.
Proof.
  intros Hok HB H. pose proof H as H0. apply r_u32_Ok in H0 as (Hok' & Hd & Hl); [|done].
  assert (HBr : Bytes (rest r)) by (apply Bytes_drop; done).
  destruct (rest r) as [|a [|b [|c [|d l]]]] eqn:Hr; unfold len in Hl; simpl in Hl; try lia.
  rewrite !Bytes_cons in HBr. destruct HBr as (Ha & Hb & Hc & Hd' & _).
  rewrite (r_u32_spec r a b c d l) in H by done. injection H as <- <-.
  destruct (advance_ok r [a; b; c; d] l Hok Hr) as [_ Hrl]. simpl in Hrl. rewrite Hrl.
  split; [|done]. unfold be_bytes, is_byte in *. simpl.
  change (2 ^ 24) with 16777216. change (2 ^ 16) with 65536. change (2 ^ 8) with 256.
  repeat f_equal; lia.
Qed.

Lemma parse_loop_accepted fuel r st st' meta n m k :
  (length (rest r) < fuel)%nat → reader_ok r → Bytes (r_data r) → accepted st meta n m k →
  parse_loop uuid fuel r st = Ok st' →
  ∃ recs meta' k' (e : bool), rest r = wire recs ∧
    trace_types meta n m k ++ recs.*1 =
      trace_types meta' (length (p_folders st')) (length (p_credentials st')) k' ++ (if e then [R_END] else []) ∧
    (if meta' then 0 <= p_metaCreds st' else p_metaCreds st' = -1).
Proof.
  revert r st meta n m k. induction fuel as [|f IH]; intros r st meta n m k Hf Hok HB Hacc H; [lia|].
  cbn [parse_loop] in H. rewrite remaining_rest in H by done.
  destruct (len (rest r) >? 0) eqn:Hgt.
  2: { inv_ok; subst. to_prop. exists [], meta, k, false.
       pose proof (len_nonneg (rest r)). split; [apply length_zero_nil; unfold len in *; lia|].
       destruct Hacc as [-> -> Hm _]. by rewrite !app_nil_r. }
  apply bind_Ok_inv in H as (? & _ & H). apply bind_Ok_inv in H as ([ty r1] & H1 & H).
  apply bind_Ok_inv in H as ([rl r2] & H2 & H). apply bind_Ok_inv in H as (? & _ & H).
  apply bind_Ok_inv in H as ([body r3] & H3 & H). apply bind_Ok_inv in H as (fl & Hp & H).
  apply r_u8_Ok in H1 as (Hr1 & Hok1 & Hd1); [|done].
  apply r_u32_Ok_bytes in H2 as (Hr2 & Hok2 & Hd2); [|done|by rewrite Hd1].
  apply r_bytes_Ok in H3 as (Hr3 & Hlb & Hok3 & Hd3); [|done]. subst rl.
  assert (Hrec : rest r = record ty body ++ rest r3).
  { rewrite Hr1, Hr2, Hr3. unfold record. cbn [app]. by rewrite <- app_assoc. }
  destruct fl as [st1|st1].
  - apply (parse_record_accepted st ty body (remaining r3) st1 meta n m k) in Hp
      as (meta1 & n1 & m1 & k1 & Hacc1 & Htr); [|done].
    apply (IH r3 st1 meta1 n1 m1 k1) in H as (recs & meta' & k' & e & Hw & Ht & Hm); try done.
    + exists ((ty, body) :: recs), meta', k', e. split; [|split; [|done]].
      * rewrite Hrec, Hw. done.
      * rewrite <- Ht, Htr, <- app_assoc. done.
    + rewrite Hrec, length_app in Hf. unfold record in Hf. cbn [length] in Hf. lia.
    + by rewrite Hd3, Hd2, Hd1.
  - inv_ok; subst. unfold parse_record in Hp.
    destruct (Z.eqb_spec ty R_END) as [->|];
      [|repeat (case_match; inv_ok; try discriminate)].
    inv_ok. subst st'. to_prop. exists [(R_END, body)], meta, k, true.
    destruct Hacc as [-> -> Hm _]. split; [|done].
    rewrite Hrec. unfold wire. cbn [map concat fst snd].
    rewrite remaining_rest in * by done. pose proof (len_nonneg (rest r3)).
    rewrite (length_zero_nil (rest r3)) by (unfold len in *; lia). done.
Qed.

Lemma parsePayload_shape data cs fs :
  Bytes data → parsePayload uuid data = Ok (cs, fs) →
  ∃ recs k (e : bool), data = PRF_MAGIC ++ wire recs ∧
    recs.*1 = R_META :: replicate (length fs) R_FOLDER ++ replicate (length cs) R_ENTRY ++
              replicate k R_PADDING ++ (if e then [R_END] else []).
Proof.
  intros HB H. unfold parsePayload in H. apply bind_Ok_inv in H as (? & _ & H).
  apply bind_Ok_inv in H as ([magic r] & Hm & H). apply bind_Ok_inv in H as (? & Hmagic & H).
  apply throw_if_Ok in Hmagic. to_prop. subst magic.
  apply r_bytes_Ok in Hm as (Hr & _ & Hok & Hd); [|apply newReader_ok].
  rewrite rest_newReader in Hr. apply bind_Ok_inv in H as (st & Hloop & H).
  apply bind_Ok_inv in H as (? & _ & H). apply bind_Ok_inv in H as (? & Hcnt & [= <- <-]).
  apply throw_if_Ok in Hcnt. to_prop.
  apply (parse_loop_accepted _ _ _ _ false 0 0 0) in Hloop
    as (recs & meta & k & e & Hw & Ht & Hmeta).
  - exists recs, k, e. rewrite Hr, Hw. split; [done|]. simpl in Ht. rewrite Ht.
    pose proof (len_nonneg (p_credentials st)).
    destruct meta; [|lia]. unfold trace_types. simpl. by rewrite <- !app_assoc.
  - pose proof (rest_length_fuel r Hok). rewrite Hd in *. simpl in *. lia.
  - done.
  - by rewrite Hd.
  - split; simpl; auto with lia.
Qed.

(** *** Limits enforced on accepted data *)

Definition within_limits (c : Credential) : Prop :=
  len (c_service c) <= 256 ∧ len (c_url c) <= 2048 ∧ len (c_username c) <= 256 ∧
  len (or_empty (c_password c)) <= 4096 ∧ len (or_empty (c_description c)) <= 10000 ∧
  len (or_empty (c_otpSecret c)) <= 256 ∧ len (c_folderId c) <= 64 ∧ len (c_status c) <= 32 ∧
  Forall (λ t, 1 <= len t <= 64) (default [] (c_tags c)).

Definition folder_within_limits (f : Folder) : Prop :=
  valid_id (f_id f) = true ∧ len (f_label f) <= 256 ∧ len (or_empty (f_description f)) <= 1024.

Lemma slice0_len {A} n (l : list A) : 0 <= n → len (slice0 n l) <= n.
Proof. intros. unfold slice0, len. rewrite length_take. lia. Qed.

Lemma or_undefined_empty s : or_empty (or_undefined s) = s.
Proof. by destruct s. Qed.

Lemma clean_tags_bounds l : Forall (λ t, 1 <= len t <= 64) (clean_tags l).
Proof.
  unfold clean_tags. induction l as [|t l IH]; simpl; [constructor|].
  destruct (slice0 64 (trim t)) as [|u s] eqn:E; simpl; [done|]. constructor; [|done].
  rewrite <- E. pose proof (slice0_len 64 (trim t)). rewrite E in *. rewrite len_cons in *.
  pose proof (len_nonneg s). lia.
Qed.

Lemma entry_of_fields_limits u fields c : entry_of_fields u fields = Ok c → within_limits c.
Proof.
  unfold entry_of_fields. intros H. inv_ok. subst c. unfold within_limits. simpl.
  rewrite !or_undefined_empty. repeat split; try (apply slice0_len; lia); [|apply clean_tags_bounds].
  pose proof (slice0_len 32 (strF fields FE_STATUS)) as Hs.
  destruct (slice0 32 (strF fields FE_STATUS)); [by vm_compute|simpl; lia].
Qed.

Lemma folder_of_fields_limits fields f : folder_of_fields fields = Ok f → folder_within_limits f.
Proof.
  unfold folder_of_fields. intros H. inv_ok. subst f. to_prop. unfold folder_within_limits. simpl.
  rewrite or_undefined_empty. repeat split; try done; apply slice0_len; lia.
Qed.

Definition limits (st : pstate) : Prop :=
  len (p_credentials st) <= 50000 ∧ len (p_folders st) <= 5000 ∧
  Forall within_limits (p_credentials st) ∧ Forall folder_within_limits (p_folders st).

Lemma parse_record_limits st ty body left fl :
  limits st → parse_record uuid st ty body left = Ok fl →
  limits match fl with Continue s | Break s => s end.
Proof.
  unfold limits. intros (H1 & H2 & H3 & H4) H. unfold parse_record in H.
  repeat (case_match; inv_ok; subst; simpl; try done); to_prop; repeat split; try done; try lia;
    apply Forall_app; (split; [done|]); apply Forall_singleton;
    eauto using entry_of_fields_limits, folder_of_fields_limits.
Qed.

Lemma parse_loop_limits fuel r st st' :
  limits st → parse_loop uuid fuel r st = Ok st' → limits st'.
Proof.
  revert r st. induction fuel as [|f IH]; intros r st Hl H; simpl in H; [by inv_ok; subst|].
  destruct (remaining r >? 0); [|by inv_ok; subst].
  repeat (apply bind_Ok_inv in H as (? & ? & H); try case_match); subst;
    match goal with Hp : parse_record _ _ _ _ _ = Ok ?fl |- _ =>
      apply parse_record_limits in Hp; [|done] end; [by eapply IH|by inv_ok; subst].
Qed.
End payload.
End Payload.
