(* ===== verification/P2WPayloadSpec.v ===== *)
(** * What the P2W payload promises ([web/src/utils/p2wFormat.ts], lines 296-428)

    The round trip of [buildPayload] and [parsePayload], the sizes the padding
    reveals, the sizes it refuses, and what [parsePayload] guarantees of any
    data it accepts. *)
From S2P Require Import Prelude JsRuntime JsText Types P2WBuffer P2WPayload P2WPayloadProofs.

(** ** Sizes *)

(** Every string of a record fits the 16-bit length of its field. *)
Definition fits (l : list (Z * option jsstr)) : bool :=
  forallb (λ f, len f.2 <=? 0xFFFF) (str_fields l).

Definition vault_fits (creds : list Credential) (folds : list Folder) : bool :=
  forallb (λ c, fits (entry_spec c)) creds && forallb (λ f, fits (folder_spec f)) folds.

(** Bytes of a record: type, length, the fields (tag, length, value) and their end. *)
Definition fields_size (fs : list (Z * bytes)) : Z :=
  foldr (λ f n, 3 + len f.2 + n) 3 fs.
Definition record_size (l : list (Z * option jsstr)) : Z := 5 + fields_size (str_fields l).

(** Bytes of a payload before padding: the magic, the records, the end record. *)
Definition vault_size (creds : list Credential) (folds : list Folder) (date : jsstr) : Z :=
  4 + (5 + fields_size (meta_fields date (len creds) (len folds)))
  + foldr (λ f n, record_size (folder_spec f) + n) 0 folds
  + foldr (λ c n, record_size (entry_spec c) + n) 0 creds + 5.

(** The length of the random padding body. *)
Definition padding_body (u : Z) : Z := getPaddingTarget u - u - 5.

Lemma fits_Forall l : fits l = true → Forall (λ f, len f.2 <= 0xFFFF) (str_fields l).
Proof.
  unfold fits. generalize (str_fields l). intros fs.
  induction fs as [|f fs IH]; simpl; [constructor|]. intros H. to_prop. auto.
Qed.

Lemma fields_size_len fs : len (tlvs fs ++ fields_end) = fields_size fs.
Proof.
  induction fs as [|f fs IH]; [done|]. cbn [fields_size foldr]. fold (fields_size fs).
  rewrite <- IH. unfold tlvs. cbn [map concat]. rewrite <- app_assoc, len_app.
  unfold tlv at 1. rewrite !len_cons. unfold tlvs. lia.
Qed.

Lemma write_fields_total l :
  Forall tag_ok l.*1 → fits l = true →
  (w ← write_fields newWriter l; Ok (toUint8Array (endFields w))) =
    Ok (tlvs (str_fields l) ++ fields_end).
Proof.
  intros Ht Hf. destruct (write_fields_short newWriter l (fits_Forall l Hf)) as [w Hw].
  destruct (w ← write_fields newWriter l; Ok (toUint8Array (endFields w))) as [bs|e] eqn:E.
  - by apply write_fields_encode in E as [-> _].
  - rewrite Hw in E. discriminate.
Qed.

Lemma encodeFolder_total f :
  fits (folder_spec f) = true → encodeFolder f = Ok (tlvs (str_fields (folder_spec f)) ++ fields_end).
Proof. intros. rewrite encodeFolder_eq. by apply write_fields_total; [apply folder_spec_tags|]. Qed.

Lemma encodeEntry_total c :
  fits (entry_spec c) = true → encodeEntry c = Ok (tlvs (str_fields (entry_spec c)) ++ fields_end).
Proof. intros. rewrite encodeEntry_eq. by apply write_fields_total; [apply entry_spec_tags|]. Qed.

(** The date is ASCII text of [toISOString], far below the field limit. *)
Definition date_ok (date : jsstr) : bool :=
  forallb is_ascii date && (len date <=? 32).

Lemma date_ok_u16 date : date_ok date = true → Forall is_u16 date.
Proof.
  unfold date_ok. intros H. to_prop. induction date as [|c s IH]; [constructor|].
  simpl in *. to_prop. constructor; [unfold is_u16, is_ascii in *; to_prop; lia|]. apply IH; [done|].
  apply Z.leb_le. rewrite len_cons in *. lia.
Qed.

Lemma result_map_total {A B E} (f : A → result E B) (g : A → B) (P : A → bool) l :
  (∀ x, P x = true → f x = Ok (g x)) → forallb P l = true → result_map f l = Ok (map g l).
Proof.
  intros Hf. induction l as [|x l IH]; simpl; [done|]. intros H. to_prop.
  rewrite Hf, IH by done. done.
Qed.

Lemma wire_len recs : len (wire recs) = foldr (λ r n, 5 + len r.2 + n) 0 recs.
Proof.
  induction recs as [|r recs IH]; [done|]. unfold wire in *. cbn [map concat foldr].
  by rewrite len_app, record_len, IH.
Qed.

Lemma wire_map_len {A} ty (enc : A → bytes) (size : A → Z) l :
  (∀ x, len (enc x) = size x) →
  len (wire (map (pair ty) (map enc l))) = foldr (λ x n, 5 + size x + n) 0 l.
Proof. intros H. rewrite wire_len. induction l as [|x l IH]; [done|]. simpl. by rewrite IH, H. Qed.

Section total.
Context (creds : list Credential) (folds : list Folder) (date : jsstr).
Hypothesis (Hnc : len creds <= 50000) (Hnf : len folds <= 5000).
Hypothesis (Hd : date_ok date = true) (Hfit : vault_fits creds folds = true).

Let enc_folder f := tlvs (str_fields (folder_spec f)) ++ fields_end.
Let enc_entry c := tlvs (str_fields (entry_spec c)) ++ fields_end.
Let meta := tlvs (meta_fields date (len creds) (len folds)) ++ fields_end.

Lemma encodeMeta_total : encodeMeta date (len creds) (len folds) = Ok meta.
Proof.
  set (l := [(FM_APP_NAME, Some (js "PWDnow")); (FM_APP_VER, Some (js "1")); (FM_TIMESTAMP, Some date)]).
  assert (Hf : fits l = true).
  { pose proof Hd as Hd'. unfold date_ok in Hd'. to_prop. unfold fits, l, str_fields.
    cbn [map concat fst snd]. rewrite !forallb_app.
    assert (Hdate : forallb (λ f, len f.2 <=? 0xFFFF) (str_field FM_TIMESTAMP (Some date)) = true).
    { destruct date as [|u s]; [done|]. cbn [str_field forallb snd]. rewrite utf8_ascii by done.
      by rewrite (proj2 (Z.leb_le (len (u :: s)) 0xFFFF)) by lia. }
    rewrite Hdate. by vm_compute. }
  destruct (write_fields_short newWriter l (fits_Forall l Hf)) as [w Hw].
  destruct (encodeMeta date (len creds) (len folds)) as [bs|e] eqn:E.
  - pose proof (len_nonneg creds). pose proof (len_nonneg folds).
    apply encodeMeta_Ok in E as [-> _]; [done|lia..].
  - exfalso. revert E Hw. unfold encodeMeta, l. cbn [write_fields].
    repeat (destruct (writeStrField _ _ _); cbn [mbind result_bind]; [|done]). done.
Qed.

Lemma encodings_total :
  result_map encodeFolder folds = Ok (map enc_folder folds) ∧
  result_map encodeEntry creds = Ok (map enc_entry creds) ∧
  unpadded_len meta (map enc_folder folds) (map enc_entry creds) = vault_size creds folds date.
Proof.
  unfold vault_fits in Hfit. apply andb_prop in Hfit as [Hc Hf]. split; [|split].
  - eapply result_map_total; [|done]. apply encodeFolder_total.
  - eapply result_map_total; [|done]. apply encodeEntry_total.
  - unfold unpadded_len, vault_size. rewrite !wire_app, !len_app.
    rewrite (wire_map_len _ _ (λ f, fields_size (str_fields (folder_spec f))))
      by (intros; apply fields_size_len).
    rewrite (wire_map_len _ _ (λ c, fields_size (str_fields (entry_spec c))))
      by (intros; apply fields_size_len).
    rewrite wire_len. cbn [foldr snd]. unfold meta. rewrite fields_size_len.
    change (len PRF_MAGIC) with 4. unfold record_size. lia.
Qed.
End total.

(** ** Items the format carries unchanged *)

Definition clean_tag (t : jsstr) : bool :=
  str_eqb (trim t) t && negb (str_empty t) && (len t <=? 64) && negb (has_unit 0x1F t).

(** A single tag is read back by the legacy comma rule, so it may hold no comma. *)
Definition tags_carried (ts : list jsstr) : bool :=
  forallb clean_tag ts && match ts with [t] => negb (has_unit 44 t) | _ => true end.

Definition carried_entry (c : Credential) : bool :=
  valid_id (id_string (c_id c)) && (len (c_service c) <=? 256) && (len (c_url c) <=? 2048)
  && (len (c_username c) <=? 256) && (len (or_empty (c_password c)) <=? 4096)
  && (len (or_empty (c_description c)) <=? 10000) && (len (or_empty (c_otpSecret c)) <=? 256)
  && (len (c_folderId c) <=? 64) && negb (str_empty (c_status c)) && (len (c_status c) <=? 32)
  && tags_carried (default [] (c_tags c)).

Definition carried_folder (f : Folder) : bool :=
  (len (f_label f) <=? 256) && (len (or_empty (f_description f)) <=? 1024).

(** [''] and an absent value are the same to the writer. *)
Definition absent_if_empty (s : option jsstr) : option jsstr := or_undefined (or_empty s).

(** The columns of the format, every value as it was. *)
Definition exported_entry (c : Credential) : Credential :=
  basic_credential (IdString (id_string (c_id c))) (c_service c) (c_url c) (c_username c)
    (Some (or_empty (c_password c))) (c_status c) (js "#22c55e") [] (c_folderId c)
    (Some (default [] (c_tags c))) (absent_if_empty (c_otpSecret c))
    (absent_if_empty (c_description c)) (c_credentialType c).

Definition exported_folder (f : Folder) : Folder :=
  mkFolder (f_id f) (f_label f) (absent_if_empty (f_description f)) None None.

Lemma clean_tags_id ts : forallb clean_tag ts = true → clean_tags ts = ts.
Proof.
  induction ts as [|t ts IH]; [done|]. simpl. intros H. to_prop. unfold clean_tags in *. simpl.
  unfold clean_tag in *. to_prop. apply str_eqb_eq in H. rewrite H, slice0_all by done.
  destruct t; [done|]. simpl. by rewrite IH.
Qed.

Lemma join_nonempty t ts c : negb (str_empty t) = true → str_empty (join_unit c (t :: ts)) = false.
Proof. destruct t; [done|]. by destruct ts. Qed.

Lemma clean_tag_facts t :
  clean_tag t = true → negb (str_empty t) = true ∧ has_unit 0x1F t = false.
Proof. unfold clean_tag. intros H. to_prop. split; [by apply negb_true_iff|done]. Qed.

Lemma split_tags_carried ts :
  tags_carried ts = true → split_tags (join_unit [0x1F] ts) = ts.
Proof.
  unfold tags_carried. intros H. apply andb_prop in H as [H1 H2].
  destruct ts as [|t ts]; [done|]. cbn [forallb] in H1. to_prop.
  destruct (clean_tag_facts t) as [Hne Hus]; [done|].
  unfold split_tags. rewrite join_nonempty by done. destruct ts as [|t' ts].
  - simpl. rewrite Hus. apply split_unit_clean, has_unit_false. by to_prop.
  - rewrite join_unit_has. apply split_join_unit; [done|]. apply Forall_forall. intros s Hs.
    apply has_unit_false. apply clean_tag_facts.
    apply elem_of_cons in Hs as [->|Hs]; [done|].
    match goal with Hall : forallb _ _ = true |- _ => rewrite forallb_forall in Hall; apply Hall end.
    by apply list_elem_of_In.
Qed.

Lemma tags_roundtrip c :
  tags_carried (default [] (c_tags c)) = true →
  clean_tags (split_tags (or_empty (tags_string c))) = default [] (c_tags c).
Proof.
  intros H. pose proof (andb_prop _ _ H) as [Hc _]. unfold tags_string.
  destruct (c_tags c) as [[|t ts]|]; [done| |done].
  cbn [or_empty default] in *. by rewrite split_tags_carried, clean_tags_id.
Qed.

Lemma imported_entry_id u c : carried_entry c = true → imported_entry u c = exported_entry c.
Proof.
  unfold carried_entry. intros H. to_prop. unfold imported_entry, exported_entry, absent_if_empty.
  rewrite tags_roundtrip, !slice0_all by done.
  assert (str_or (id_string (c_id c)) u = id_string (c_id c)) as ->.
  { destruct (id_string (c_id c)); [|done]. unfold valid_id in *. done. }
  destruct (c_status c); done.
Qed.

Lemma imported_folder_id f : carried_folder f = true → imported_folder f = exported_folder f.
Proof.
  unfold carried_folder. intros H. to_prop. unfold imported_folder, exported_folder.
  by rewrite !slice0_all.
Qed.

Lemma imported_entries_id uuid k cs :
  forallb carried_entry cs = true → imported_entries uuid k cs = map exported_entry cs.
Proof.
  revert k. induction cs as [|c cs IH]; intros k H; [done|]. simpl in H. to_prop.
  rewrite imported_entries_cons. simpl. by rewrite imported_entry_id, IH.
Qed.

Lemma imported_folders_id fs :
  forallb carried_folder fs = true → map imported_folder fs = map exported_folder fs.
Proof.
  induction fs as [|f fs IH]; [done|]. simpl. intros H. to_prop.
  by rewrite imported_folder_id, IH.
Qed.

(** ** The theorems *)

Module PayloadSpec.

Section vault.
Context (rand : nat → bytes) (uuid : nat → jsstr).
Hypothesis rand_length : ∀ n, length (rand n) = n.
Hypothesis rand_Bytes : ∀ n, Bytes (rand n).

Lemma rand_len n : 0 <= n → len (rand (Z.to_nat n)) = n.
Proof. intros. unfold len. rewrite rand_length. lia. Qed.

Lemma build_total creds folds date :
  len creds <= 50000 → len folds <= 5000 → date_ok date = true → vault_fits creds folds = true →
  let u := vault_size creds folds date in
  (padding_body u <= 65536 →
     ∃ bs, buildPayload rand creds folds date = Ok bs ∧ len bs = getPaddingTarget u) ∧
  (65536 < padding_body u → buildPayload rand creds folds date = Throw QuotaExceeded).
Proof.
  intros Hnc Hnf Hd Hf. cbn zeta. pose proof (encodeMeta_total creds folds date Hnc Hnf Hd) as Hm.
  destruct (encodings_total creds folds date Hf) as (Hfe & Hce & Hu).
  assert (len creds < 2 ^ 32 ∧ len folds < 2 ^ 32) as [Hc32 Hf32] by lia.
  rewrite <- Hu, (buildPayload_eq rand rand_length rand_Bytes _ _ _ _ _ _ Hc32 Hf32 Hm Hfe Hce).
  match goal with |- context [unpadded_len ?m ?f ?c] =>
    pose proof (unpadded_len_nonneg m f c); destruct (getPaddingTarget_bounds (unpadded_len m f c)) end;
    [done|].
  cbn zeta. unfold getRandomValues, padding_body. split; intros Hq.
  - rewrite Z.gtb_ltb, (proj2 (Z.ltb_ge _ _)) by lia. cbn [throw_if mbind result_bind].
    eexists. split; [done|]. rewrite payload_len, rand_len by lia. lia.
  - by rewrite Z.gtb_ltb, (proj2 (Z.ltb_lt _ _)) by lia.
Qed.

(** C21: exporting a vault and importing the payload gives the vault back.
    For up to 50000 entries and 5000 folders whose strings fit their fields and
    whose padding the random generator can supply, [buildPayload] returns bytes
    from which [parsePayload] reads every folder and entry, in order, every
    column of the format unchanged. *)
Theorem payload_roundtrip creds folds date :
  len creds <= 50000 → len folds <= 5000 → date_ok date = true → vault_fits creds folds = true →
  forallb exportable_entry creds = true → forallb exportable_folder folds = true →
  forallb carried_entry creds = true → forallb carried_folder folds = true →
  padding_body (vault_size creds folds date) <= 65536 →
  ∃ bs, buildPayload rand creds folds date = Ok bs ∧
    parsePayload uuid bs = Ok (map exported_entry creds, map exported_folder folds).
Proof.
  intros Hnc Hnf Hd Hf Hec Hef Hcc Hcf Hq.
  destruct (build_total creds folds date) as [[bs [Hb _]] _]; [done..|].
  exists bs. split; [done|].
  rewrite (Payload.parse_built rand uuid rand_length rand_Bytes creds folds date) by (done || by apply date_ok_u16).
  by rewrite imported_entries_id, imported_folders_id.
Qed.

(** Items beyond the limits of the format are not lost but cut: whatever
    [buildPayload] wrote, [parsePayload] returns the same number of folders and
    entries, each with the parser's length limits applied and a generated id
    where the entry had none. *)
Theorem payload_roundtrip_cut creds folds date bs :
  len creds <= 50000 → len folds <= 5000 → Forall is_u16 date →
  forallb exportable_entry creds = true → forallb exportable_folder folds = true →
  buildPayload rand creds folds date = Ok bs →
  parsePayload uuid bs = Ok (imported_entries uuid 0 creds, map imported_folder folds).
Proof. apply (Payload.parse_built rand uuid rand_length rand_Bytes). Qed.

(** The length of the payload reveals only its size bucket: 64 KiB, 256 KiB
    or a multiple of 1 MiB, at least 128 bytes above the data. *)
Theorem payload_size_masked creds folds date bs :
  len creds <= 50000 → len folds <= 5000 → date_ok date = true → vault_fits creds folds = true →
  buildPayload rand creds folds date = Ok bs →
  vault_size creds folds date + 128 <= len bs ∧
  (len bs = 65536 ∨ len bs = 262144 ∨ len bs mod 1048576 = 0) ∧
  (vault_size creds folds date <= 65408 → len bs = 65536).
Proof.
  intros Hnc Hnf Hd Hf Hb. destruct (build_total creds folds date) as [Hok Hno]; [done..|].
  destruct (Z.le_gt_cases (padding_body (vault_size creds folds date)) 65536) as [Hq|Hq];
    [|rewrite Hno in Hb by done; discriminate].
  destruct (Hok Hq) as (bs' & Hb' & Hl). assert (bs' = bs) as -> by congruence. rewrite Hl.
  pose proof (encodings_total creds folds date Hf) as (_ & _ & Hu). rewrite <- Hu.
  match goal with |- context [unpadded_len ?m ?f ?c] =>
    pose proof (unpadded_len_nonneg m f c); generalize dependent (unpadded_len m f c) end.
  intros u _ Hu. unfold getPaddingTarget, MIN_PADDING_BYTES. clear.
  repeat case_if; to_prop; repeat split; lia.
Qed.

(** Vaults whose data is between 64 KiB and 192 KiB cannot be exported: the
    padding needs more than the 65536 random bytes one call supplies, and
    [buildPayload] throws.  Below 64 KiB it succeeds. *)
Theorem payload_quota creds folds date :
  len creds <= 50000 → len folds <= 5000 → date_ok date = true → vault_fits creds folds = true →
  let u := vault_size creds folds date in
  (u <= 65408 → is_ok (buildPayload rand creds folds date) = true) ∧
  (65408 < u < 196603 → buildPayload rand creds folds date = Throw QuotaExceeded).
Proof.
  intros Hnc Hnf Hd Hf. cbn zeta. destruct (build_total creds folds date) as [Hok Hno]; [done..|].
  pose proof (encodings_total creds folds date Hf) as (_ & _ & Hu).
  assert (0 <= vault_size creds folds date) by (rewrite <- Hu; apply unpadded_len_nonneg).
  revert Hok Hno. generalize dependent (vault_size creds folds date). intros u _ Hu Hok Hno.
  assert (Hpad : (u <= 65408 → padding_body u <= 65536) ∧ (65408 < u < 196603 → 65536 < padding_body u)).
  { unfold padding_body, getPaddingTarget, MIN_PADDING_BYTES. clear -Hu.
    split; intros; repeat case_if; to_prop; lia. }
  destruct Hpad as [Hp1 Hp2]. split; intros Hr.
  - by destruct (Hok (Hp1 Hr)) as (bs & -> & _).
  - apply Hno, Hp2, Hr.
Qed.
End vault.

(** Whatever data the parser accepts has the record order of the format:
    the magic, one META record, then FOLDER, ENTRY and PADDING records in that
    order, and at most one END record, which is last; as many FOLDER and ENTRY
    records as folders and entries returned. *)
Theorem payload_record_order uuid data cs fs :
  Bytes data → parsePayload uuid data = Ok (cs, fs) →
  ∃ recs k (e : bool), data = PRF_MAGIC ++ wire recs ∧
    recs.*1 = R_META :: replicate (length fs) R_FOLDER ++ replicate (length cs) R_ENTRY ++
              replicate k R_PADDING ++ (if e then [R_END] else []).
Proof. apply Payload.parsePayload_shape. Qed.

(** Nothing the parser returns exceeds the limits of the format, whatever the
    data: at most 50000 entries and 5000 folders, every string within its
    maximum, every tag non-empty, every folder id of the accepted alphabet. *)
Theorem payload_limits uuid data cs fs :
  parsePayload uuid data = Ok (cs, fs) →
  len cs <= 50000 ∧ len fs <= 5000 ∧
  Forall Payload.within_limits cs ∧ Forall Payload.folder_within_limits fs.
Proof.
  intros H. unfold parsePayload in H. apply bind_Ok_inv in H as (? & _ & H).
  apply bind_Ok_inv in H as ([magic r] & _ & H). inv_ok. subst.
  match goal with Hl : parse_loop _ _ _ _ = Ok _ |- _ => apply Payload.parse_loop_limits in Hl; [done|] end.
  by repeat constructor.
Qed.

(** A single tag that contains a comma does not survive: it is written as
    it is and read back, by the legacy rule, as two tags. *)
Theorem single_tag_comma_split c u a b :
  c_tags c = Some [a ++ 44 :: b] →
  clean_tag a = true → clean_tag b = true → has_unit 44 a = false → has_unit 44 b = false →
  c_tags (imported_entry u c) = Some [a; b].
Proof.
  intros Ht Ha Hb Hca Hcb. unfold imported_entry. cbn [c_tags basic_credential].
  unfold tags_string. rewrite Ht. cbn [or_empty join_unit].
  destruct (clean_tag_facts a Ha) as [Hne Hus]. destruct (clean_tag_facts b Hb) as [_ Husb].
  assert (split_tags (a ++ 44 :: b) = [a; b]) as ->.
  { unfold split_tags. destruct a as [|x a]; [done|]. cbn [app str_empty].
    assert (has_unit 0x1F (x :: a ++ 44 :: b) = false) as ->.
    { unfold has_unit in *. change (x :: a ++ 44 :: b) with ((x :: a) ++ 44 :: b).
      rewrite existsb_app, Hus. simpl. done. }
    change (x :: a ++ 44 :: b) with ((x :: a) ++ 44 :: b).
    rewrite split_unit_app, split_unit_clean by (by apply has_unit_false). done. }
  rewrite clean_tags_id; [done|]. simpl. by rewrite Ha, Hb.
Qed.

(** ** Sample data *)

Definition sample_date : jsstr := js "2026-01-02T03:04:05.678Z".
Definition sample_folder : Folder := mkFolder (js "work") (js "Work") None None None.
Definition sample_entry : Credential :=
  basic_credential (IdString (js "c-1")) (js "GitHub") (js "https://github.com") (js "alice")
    (Some (js "hunter2")) (js "active") (js "#22c55e") [] (js "work")
    (Some [js "dev"; js "a,b"]) (Some (js "JBSWY3DP")) None (Some login).
(** An entry with two notes-sized strings, 80 KB in all. *)
Definition large_entry : Credential :=
  basic_credential (IdString (js "c-2")) (js "Big") (replicate (Z.to_nat 40000) 97) (js "bob")
    (Some (replicate (Z.to_nat 40000) 98)) (js "active") (js "#22c55e") [] (js "work") None None None None.

Lemma payload_roundtrip_witness :
  ∃ bs, buildPayload zeros [sample_entry] [sample_folder] sample_date = Ok bs ∧
    parsePayload (λ _, []) bs = Ok (map exported_entry [sample_entry], map exported_folder [sample_folder]).
Proof.
  apply (payload_roundtrip zeros (λ _, []) zeros_length Bytes_zeros); by vm_compute.
Defined.

Lemma payload_roundtrip_cut_witness :
  ∃ bs, buildPayload zeros [sample_entry] [sample_folder] sample_date = Ok bs ∧
    parsePayload (λ _, []) bs = Ok (imported_entries (λ _, []) 0 [sample_entry], map imported_folder [sample_folder]).
Proof.
  destruct (buildPayload zeros [sample_entry] [sample_folder] sample_date) as [bs|e] eqn:E.
  - exists bs. split; [done|].
    apply (payload_roundtrip_cut zeros (λ _, []) zeros_length Bytes_zeros) with sample_date;
      [done|done|by apply date_ok_u16|by vm_compute|by vm_compute|exact E].
  - assert (H : is_ok (buildPayload zeros [sample_entry] [sample_folder] sample_date) = true)
      by (by vm_compute). rewrite E in H. discriminate.
Defined.

Lemma payload_size_masked_witness :
  ∃ bs, buildPayload zeros [sample_entry] [sample_folder] sample_date = Ok bs ∧
  vault_size [sample_entry] [sample_folder] sample_date + 128 <= len bs ∧
    (len bs = 65536 ∨ len bs = 262144 ∨ len bs mod 1048576 = 0) ∧
    (vault_size [sample_entry] [sample_folder] sample_date <= 65408 → len bs = 65536).
Proof.
  destruct (buildPayload zeros [sample_entry] [sample_folder] sample_date) as [bs|e] eqn:E.
  - exists bs. split; [done|].
    apply (payload_size_masked zeros zeros_length Bytes_zeros); [done|done|done|by vm_compute|exact E].
  - assert (H : is_ok (buildPayload zeros [sample_entry] [sample_folder] sample_date) = true)
      by (by vm_compute). rewrite E in H. discriminate.
Defined.

Lemma payload_quota_witness :
  buildPayload zeros [large_entry] [sample_folder] sample_date = Throw QuotaExceeded.
Proof.
  apply (payload_quota zeros zeros_length Bytes_zeros); by vm_compute.
Defined.

Lemma payload_record_order_witness :
  ∃ recs k (e : bool), PRF_MAGIC ++ wire [(R_META, tlvs [(FM_NCREDS, [0;0;0;0])] ++ fields_end)] = PRF_MAGIC ++ wire recs ∧
    recs.*1 = R_META :: replicate 0 R_FOLDER ++ replicate 0 R_ENTRY ++
              replicate k R_PADDING ++ (if e then [R_END] else []).
Proof.
  apply (payload_record_order (λ _, []) _ [] []); [|by vm_compute].
  apply (bool_decide_unpack _); by vm_compute.
Defined.

Lemma payload_limits_witness :
  len (@nil Credential) <= 50000 ∧ len (@nil Folder) <= 5000 ∧
  Forall Payload.within_limits [] ∧ Forall Payload.folder_within_limits [].
Proof.
  apply (payload_limits (λ _, []) (PRF_MAGIC ++ wire [(R_META, tlvs [(FM_NCREDS, [0;0;0;0])] ++ fields_end)])).
  by vm_compute.
Defined.

Lemma single_tag_comma_split_witness :
  c_tags (imported_entry [] (set_cred_id (basic_credential (IdString []) [] [] [] None [] [] [] []
    (Some [js "a,b"]) None None None) (IdString (js "x")))) = Some [js "a"; js "b"].
Proof. apply single_tag_comma_split; by vm_compute. Defined.

End PayloadSpec.
