(* ===== verification/P2WFile.v ===== *)
(** * The P2W file ([web/src/utils/p2wFormat.ts], lines 38-110 and 431-793)

    The encrypted container around the payload: header layout, key derivation,
    double AEAD, the two MACs, export, and import of both cipher suites.  The
    cryptographic primitives come from packages and the platform; they are the
    fields of a class, and what the container needs of them are its laws. *)
From S2P Require Import Prelude JsRuntime JsText Types P2WBuffer P2WPayload.

(** ** Primitives *)

Class P2WCrypto := {
  nfc : jsstr → jsstr;                                      (* s.normalize('NFC') *)
  pbkdf2_sha512 : bytes → bytes → Z → bytes;                (* password, salt, iterations: 96 bytes *)
  argon2id : bytes → bytes → Z → Z → Z → bytes;             (* password, salt, m, t, p: 64 bytes *)
  hkdf_sha3_512 : bytes → bytes → bytes → Z → bytes;        (* ikm, salt, info, length *)
  hmac_sha512 : bytes → bytes → bytes;
  hmac_sha3_512 : bytes → bytes → bytes;
  aes_gcm_encrypt : bytes → bytes → option bytes → bytes → bytes;            (* key, iv, aad, data *)
  aes_gcm_decrypt : bytes → bytes → option bytes → bytes → option bytes;     (* None: it throws *)
  xchacha_encrypt : bytes → bytes → option bytes → bytes → bytes;
  xchacha_decrypt : bytes → bytes → option bytes → bytes → option bytes;
}.

(** What the container relies on: sizes of tags, and that an AEAD opens what it
    sealed under the same key, nonce and associated data. *)
Class P2WCryptoLaws (C : P2WCrypto) := {
  hmac_sha3_512_length k d : length (hmac_sha3_512 k d) = 64%nat;
  hmac_sha3_512_Bytes k d : Bytes (hmac_sha3_512 k d);
  aes_gcm_open k n a d : aes_gcm_decrypt k n a (aes_gcm_encrypt k n a d) = Some d;
  aes_gcm_length k n a d : len (aes_gcm_encrypt k n a d) = len d + 16;
  xchacha_open k n a d : xchacha_decrypt k n a (xchacha_encrypt k n a d) = Some d;
  xchacha_length k n a d : len (xchacha_encrypt k n a d) = len d + 16;
}.

(** ** Constants *)

Definition NZ_STUB : bytes := [0x6E; 0x7A].
Definition NZ_STUB_SIZE : nat := 2.
Definition P2W_MAGIC : bytes := [0x50; 0x32; 0x57; 0x01].
Definition FORMAT_VERSION : Z := 0x01.
Definition CIPHER_SUITE_V1 : Z := 0x01.
Definition CIPHER_SUITE_V2 : Z := 0x02.
Definition PBKDF2_MIN_ITERS : Z := 100000.
Definition PBKDF2_MAX_ITERS : Z := 2000000.
Definition ARGON2_MIN_LOG2_M : Z := 12.
Definition ARGON2_MAX_LOG2_M : Z := 18.
Definition ARGON2_MIN_T : Z := 1.
Definition ARGON2_MAX_T : Z := 3.
Definition ARGON2_MIN_P : Z := 1.
Definition ARGON2_MAX_P : Z := 4.
Definition ARGON2_DEFAULT_LOG2_M : Z := 18.
Definition ARGON2_DEFAULT_T : Z := 1.
Definition ARGON2_DEFAULT_P : Z := 1.

Definition HDR_MAGIC : nat := 0.
Definition HDR_VERSION : nat := 4.
Definition HDR_SUITE : nat := 5.
Definition HDR_FLAGS : nat := 6.
Definition HDR_CREATED : nat := 8.
Definition HDR_SALT : nat := 24.
Definition HDR_KDF_PARM : nat := 56.
Definition HDR_XNONCE : nat := 60.
Definition HDR_ANONCE : nat := 84.
Definition HDR_SIZE : nat := 96.
Definition HEADER_MAC_SIZE : nat := 64.
Definition FILE_MAC_SIZE : nat := 64.
Definition PAYLOAD_LEN_SIZE : nat := 4.
Definition FIXED_OVERHEAD : nat :=
  NZ_STUB_SIZE + HDR_SIZE + HEADER_MAC_SIZE + PAYLOAD_LEN_SIZE + FILE_MAC_SIZE.

(** ** Reading and writing fixed offsets *)

(** [dv.getUint32(off, false)] and [dv.getUint16(off, false)], in range. *)
Definition getUint32 (d : bytes) (off : nat) : Z :=
  at_ d off * 2 ^ 24 + at_ d (off + 1) * 2 ^ 16 + at_ d (off + 2) * 2 ^ 8 + at_ d (off + 3).
Definition getUint16 (d : bytes) (off : nat) : Z := at_ d off * 2 ^ 8 + at_ d (off + 1).

(** [magic.every((b, i) => data[off + i] === b)] *)
Definition every_at (magic data : bytes) (off : nat) : bool :=
  forallb (λ p, at_ data (off + p.1) =? p.2) (imap pair magic).

Definition isP2WFile (data : bytes) : bool :=
  (Z.of_nat (NZ_STUB_SIZE + HDR_SIZE) <=? len data)
  && every_at NZ_STUB data 0 && every_at P2W_MAGIC data NZ_STUB_SIZE.

Definition readP2WCipherSuite (data : bytes) : option Z :=
  if negb (isP2WFile data) then None else Some (at_ data (NZ_STUB_SIZE + HDR_SUITE)).

(** Milliseconds since the epoch of the returned [Date]. *)
Definition readP2WTimestamp (data : bytes) : option Z :=
  if negb (isP2WFile data) then None
  else
    let suite := at_ data (NZ_STUB_SIZE + HDR_SUITE) in
    if negb (suite =? CIPHER_SUITE_V1) then None
    else
      let hi := getUint32 data (NZ_STUB_SIZE + HDR_CREATED) in
      let lo := getUint32 data (NZ_STUB_SIZE + HDR_CREATED + 4) in
      Some (hi * 0x100000000 + lo).

(** [diff |= a[i] ^ b[i]] over the indices of [a]. *)
Definition timingSafeEq (a b : bytes) : bool :=
  if negb (len a =? len b) then false
  else fold_left (λ diff p, bor diff (bxor p.1 p.2)) (zip a b) 0 =? 0.

(** ** Keys, MACs and the double AEAD *)

Record DerivedKeys := mkKeys { K_xcha : bytes; K_aes : bytes; K_mac : bytes }.

Section crypto.
Context `{C : P2WCrypto}.

Definition deriveKeysV1 (passphrase : jsstr) (salt : bytes) (iters : Z) : DerivedKeys :=
  let utf8 := utf8_encode (nfc passphrase) in
  let raw := pbkdf2_sha512 utf8 salt iters in
  mkKeys (slice raw 0 32) (slice raw 32 64) (slice raw 64 96).

Definition deriveKeysV2 (passphrase : jsstr) (salt : bytes) (log2M t p : Z) : DerivedKeys :=
  let utf8 := utf8_encode (nfc passphrase) in
  let m := shl 1 log2M in
  let master := argon2id utf8 salt m t p in
  let K_aes := hkdf_sha3_512 master salt (utf8_encode (js "p2w/v2/aes-256-gcm")) 32 in
  let K_xcha := hkdf_sha3_512 master salt (utf8_encode (js "p2w/v2/xchacha20-poly")) 32 in
  let K_mac := hkdf_sha3_512 master salt (utf8_encode (js "p2w/v2/hmac-sha3-512-mac")) 64 in
  mkKeys K_xcha K_aes K_mac.

Definition macV1 (key data : bytes) : bytes := hmac_sha512 key data.
Definition macV2 (key data : bytes) : bytes := hmac_sha3_512 key data.

Definition doubleEncrypt (plaintext K_aes aesNonce K_xcha xchaNonce : bytes) (aad : option bytes)
    : bytes :=
  let innerCt := aes_gcm_encrypt K_aes aesNonce aad plaintext in
  xchacha_encrypt K_xcha xchaNonce aad innerCt.

Definition doubleDecrypt (ciphertext K_aes aesNonce K_xcha xchaNonce : bytes) (aad : option bytes)
    : option bytes :=
  innerCt ← xchacha_decrypt K_xcha xchaNonce aad ciphertext;
  aes_gcm_decrypt K_aes aesNonce aad innerCt.

(** ** Export *)

Record KdfParams := mkKdf { log2M : Z; kdf_t : Z; kdf_p : Z }.

Definition build_header (salt xchaNonce aesNonce : bytes) (log2M t p : Z) : bytes :=
  let header := zeros HDR_SIZE in
  let header := set_at header P2W_MAGIC HDR_MAGIC in
  let header := set_at header [FORMAT_VERSION] HDR_VERSION in
  let header := set_at header [CIPHER_SUITE_V2] HDR_SUITE in
  let header := set_at header [0; 0] HDR_FLAGS in
  let header := set_at header salt HDR_SALT in
  let header := set_at header [band log2M 0xFF] HDR_KDF_PARM in
  let header := set_at header [band t 0xFF] (HDR_KDF_PARM + 1) in
  let header := set_at header [band p 0xFF] (HDR_KDF_PARM + 2) in
  let header := set_at header [0] (HDR_KDF_PARM + 3) in
  let header := set_at header xchaNonce HDR_XNONCE in
  set_at header aesNonce HDR_ANONCE.

(** The parts laid out in a zeroed buffer one after the other. *)
Definition assemble (header headerMac plenBytes ciphertext : bytes) : bytes :=
  let bodyLen := (NZ_STUB_SIZE + HDR_SIZE + HEADER_MAC_SIZE + PAYLOAD_LEN_SIZE + length ciphertext)%nat in
  let body := zeros bodyLen in
  let body := set_at body NZ_STUB 0 in
  let body := set_at body header NZ_STUB_SIZE in
  let body := set_at body headerMac (NZ_STUB_SIZE + HDR_SIZE) in
  let body := set_at body plenBytes (NZ_STUB_SIZE + HDR_SIZE + HEADER_MAC_SIZE) in
  set_at body ciphertext (NZ_STUB_SIZE + HDR_SIZE + HEADER_MAC_SIZE + PAYLOAD_LEN_SIZE).

(** [rand i n]: what the [i]-th call of [crypto.getRandomValues] puts in a
    buffer of [n] bytes; [date]: [new Date().toISOString()]. *)
Definition exportToP2W (rand : nat → nat → bytes) (date : jsstr) (credentials : list Credential)
    (folders : list Folder) (passphrase : jsstr) (kdfParams : option KdfParams) : res bytes :=
  let salt := rand 0%nat 32%nat in
  let xchaNonce := rand 1%nat 24%nat in
  let aesNonce := rand 2%nat 12%nat in
  let log2M := match kdfParams with Some k => log2M k | None => ARGON2_DEFAULT_LOG2_M end in
  let t := match kdfParams with Some k => kdf_t k | None => ARGON2_DEFAULT_T end in
  let p := match kdfParams with Some k => kdf_p k | None => ARGON2_DEFAULT_P end in
  _ ← throw_if ((log2M <? ARGON2_MIN_LOG2_M) || (log2M >? ARGON2_MAX_LOG2_M) ||
                (t <? ARGON2_MIN_T) || (t >? ARGON2_MAX_T) ||
                (p <? ARGON2_MIN_P) || (p >? ARGON2_MAX_P)) BadArgon2;
  let keys := deriveKeysV2 passphrase salt log2M t p in
  let header := build_header salt xchaNonce aesNonce log2M t p in
  payload ← buildPayload (rand 3%nat) credentials folders date;
  let ciphertext := doubleEncrypt payload (K_aes keys) aesNonce (K_xcha keys) xchaNonce (Some header) in
  let headerMac := macV2 (K_mac keys) header in
  let plenBytes := be_bytes (to_uint32 (len ciphertext)) in
  let body := assemble header headerMac plenBytes ciphertext in
  let fileMac := macV2 (K_mac keys) body in
  let file := zeros (length body + FILE_MAC_SIZE) in
  let file := set_at file body 0 in
  Ok (set_at file fileMac (length body)).

(** ** Import *)

Section import.
Context (uuid : nat → jsstr) (passphrase : jsstr).

Abbreviation NZ := NZ_STUB_SIZE.
Abbreviation BODY := (NZ_STUB_SIZE + HDR_SIZE + HEADER_MAC_SIZE + PAYLOAD_LEN_SIZE)%nat.

Definition importV1 (file : bytes) : res (list Credential * list Folder) :=
  let salt := slice file (NZ + HDR_SALT) (NZ + HDR_SALT + 32) in
  let iters := getUint32 file (NZ + HDR_KDF_PARM) in
  let xchaNonce := slice file (NZ + HDR_XNONCE) (NZ + HDR_XNONCE + 24) in
  let aesNonce := slice file (NZ + HDR_ANONCE) (NZ + HDR_ANONCE + 12) in
  _ ← throw_if ((iters <? PBKDF2_MIN_ITERS) || (iters >? PBKDF2_MAX_ITERS)) FAIL_MSG;
  let payloadLen := getUint32 file (NZ + HDR_SIZE + HEADER_MAC_SIZE) in
  _ ← throw_if (negb (Z.of_nat BODY + payloadLen + Z.of_nat FILE_MAC_SIZE =? len file)) FAIL_MSG;
  let keys := deriveKeysV1 passphrase salt iters in
  let bodyEnd := (length file - FILE_MAC_SIZE)%nat in
  _ ← throw_if (negb (timingSafeEq (macV1 (K_mac keys) (slice file 0 bodyEnd))
                        (slice file bodyEnd (length file)))) FAIL_MSG;
  _ ← throw_if (negb (timingSafeEq (macV1 (K_mac keys) (slice file NZ (NZ + HDR_SIZE)))
                        (slice file (NZ + HDR_SIZE) (NZ + HDR_SIZE + HEADER_MAC_SIZE)))) FAIL_MSG;
  let ciphertext := slice file BODY (BODY + Z.to_nat payloadLen) in
  match doubleDecrypt ciphertext (K_aes keys) aesNonce (K_xcha keys) xchaNonce None with
  | None => Throw FAIL_MSG
  | Some plaintext => parsePayload uuid plaintext
  end.

Definition importV2 (file : bytes) : res (list Credential * list Folder) :=
  let salt := slice file (NZ + HDR_SALT) (NZ + HDR_SALT + 32) in
  let log2M := at_ file (NZ + HDR_KDF_PARM) in
  let t := at_ file (NZ + HDR_KDF_PARM + 1) in
  let p := at_ file (NZ + HDR_KDF_PARM + 2) in
  let xchaNonce := slice file (NZ + HDR_XNONCE) (NZ + HDR_XNONCE + 24) in
  let aesNonce := slice file (NZ + HDR_ANONCE) (NZ + HDR_ANONCE + 12) in
  let flags := getUint16 file (NZ + HDR_FLAGS) in
  let hiCreated := getUint32 file (NZ + HDR_CREATED) in
  let loCreated := getUint32 file (NZ + HDR_CREATED + 4) in
  _ ← throw_if (negb (flags =? 0) || negb (hiCreated =? 0) || negb (loCreated =? 0)) FAIL_MSG;
  _ ← throw_if ((log2M <? ARGON2_MIN_LOG2_M) || (log2M >? ARGON2_MAX_LOG2_M)) FAIL_MSG;
  _ ← throw_if ((t <? ARGON2_MIN_T) || (t >? ARGON2_MAX_T)) FAIL_MSG;
  _ ← throw_if ((p <? ARGON2_MIN_P) || (p >? ARGON2_MAX_P)) FAIL_MSG;
  _ ← throw_if ((log2M >? 16) || (t >? 2)) FAIL_MSG;
  let payloadLen := getUint32 file (NZ + HDR_SIZE + HEADER_MAC_SIZE) in
  _ ← throw_if (negb (Z.of_nat BODY + payloadLen + Z.of_nat FILE_MAC_SIZE =? len file)) FAIL_MSG;
  let keys := deriveKeysV2 passphrase salt log2M t p in
  let bodyEnd := (length file - FILE_MAC_SIZE)%nat in
  let header := slice file NZ (NZ + HDR_SIZE) in
  _ ← throw_if (negb (timingSafeEq (macV2 (K_mac keys) (slice file 0 bodyEnd))
                        (slice file bodyEnd (length file)))) FAIL_MSG;
  _ ← throw_if (negb (timingSafeEq (macV2 (K_mac keys) header)
                        (slice file (NZ + HDR_SIZE) (NZ + HDR_SIZE + HEADER_MAC_SIZE)))) FAIL_MSG;
  let ciphertext := slice file BODY (BODY + Z.to_nat payloadLen) in
  match doubleDecrypt ciphertext (K_aes keys) aesNonce (K_xcha keys) xchaNonce (Some header) with
  | None => Throw FAIL_MSG
  | Some plaintext => parsePayload uuid plaintext
  end.

Definition importFromP2W (data : bytes) : res (list Credential * list Folder) :=
  _ ← throw_if (negb (isP2WFile data)) NotP2W;
  _ ← throw_if (len data <? Z.of_nat FIXED_OVERHEAD) Truncated;
  let version := at_ data (NZ + HDR_VERSION) in
  _ ← throw_if (negb (version =? FORMAT_VERSION)) FAIL_MSG;
  let suite := at_ data (NZ + HDR_SUITE) in
  if suite =? CIPHER_SUITE_V1 then importV1 data
  else if suite =? CIPHER_SUITE_V2 then importV2 data
  else Throw FAIL_MSG.
End import.
End crypto.
