(* ===== verification/P2WFileSpec.v ===== *)
(** * What a P2W file promises ([web/src/utils/p2wFormat.ts], lines 431-793)

    The layout of exported files, the round trip of export and import, what an
    accepted file has proved about itself, and the exports that no import
    accepts. *)
From S2P Require Import Prelude JsRuntime JsText Types P2WBuffer P2WPayload P2WPayloadProofs P2WPayloadSpec P2WFile.

(** ** Byte layout *)

Lemma set_at_gap pre p n k :
  (k + length p <= n)%nat →
  set_at (pre ++ zeros n) p (length pre + k) = (pre ++ zeros k ++ p) ++ zeros (n - k - length p).
Proof.
  intros. replace (pre ++ zeros n) with ((pre ++ zeros k) ++ zeros (n - k)).
  - replace (length pre + k)%nat with (length (pre ++ zeros k)) by (rewrite length_app, zeros_length; lia).
    rewrite set_at_append by lia. by rewrite <- !app_assoc.
  - rewrite <- app_assoc. f_equal. unfold zeros. rewrite <- replicate_add. f_equal. lia.
Qed.

Lemma slice_app {A} (a b c : list A) i j :
  i = length a → j = (length a + length b)%nat → slice (a ++ b ++ c) i j = b.
Proof.
  intros -> ->. unfold slice. rewrite drop_app_length.
  replace (length a + length b - length a)%nat with (length b) by lia. by rewrite take_app_length.
Qed.

Lemma slice_end {A} (a b : list A) i j :
  i = length a → j = (length a + length b)%nat → slice (a ++ b) i j = b.
Proof. intros. rewrite <- (app_nil_r b) at 1. by apply slice_app. Qed.

Lemma at_app pre l n i : n = (length pre + i)%nat → at_ (pre ++ l) n = at_ l i.
Proof. intros ->. unfold at_. rewrite app_nth2 by lia. f_equal. lia. Qed.

Lemma getUint32_app pre l n i : n = (length pre + i)%nat → getUint32 (pre ++ l) n = getUint32 l i.
Proof.
  intros ->. unfold getUint32. rewrite <- !Nat.add_assoc. by rewrite !(at_app _ _ _ _ eq_refl).
Qed.

Lemma getUint32_be_bytes v l : 0 <= v < 2 ^ 32 → getUint32 (be_bytes v ++ l) 0 = v.
Proof.
  intros Hv. unfold getUint32, at_, be_bytes. cbn [app nth Nat.add].
  change (2 ^ 24) with 16777216. change (2 ^ 16) with 65536. change (2 ^ 8) with 256. lia.
Qed.

(** The header as one list, its middle given by the parts. *)
Definition header_layout (salt kdf xchaNonce aesNonce : bytes) : bytes :=
  P2W_MAGIC ++ [FORMAT_VERSION; CIPHER_SUITE_V2; 0; 0] ++ zeros 16 ++ salt ++ kdf ++ xchaNonce ++ aesNonce.
Definition file_layout (header headerMac ciphertext fileMac : bytes) : bytes :=
  NZ_STUB ++ header ++ headerMac ++ be_bytes (len ciphertext) ++ ciphertext ++ fileMac.

(** [set_at_append] with the offset as the code computes it. *)
Lemma set_at_next pre q n off :
  off = length pre → (length q <= n)%nat →
  set_at (pre ++ zeros n) q off = (pre ++ q) ++ zeros (n - length q).
Proof. intros -> ?. by apply set_at_append. Qed.

Section layout.
Context (salt xn an : bytes).
Hypothesis (Hsalt : length salt = 32%nat) (Hxn : length xn = 24%nat) (Han : length an = 12%nat).

Lemma build_header_layout m t p :
  build_header salt xn an m t p =
    header_layout salt [band m 255; band t 255; band p 255; 0] xn an.
Proof.
  unfold build_header, HDR_MAGIC, HDR_VERSION, HDR_SUITE, HDR_FLAGS, HDR_SALT, HDR_KDF_PARM,
    HDR_XNONCE, HDR_ANONCE, P2W_MAGIC. change (zeros HDR_SIZE) with ([] ++ zeros 96).
  do 4 (rewrite set_at_next by (cbn; lia); cbn [length Nat.sub]).
  match goal with |- context [set_at (?pre ++ zeros 88) salt 24] =>
    pose proof (set_at_gap pre salt 88 16 ltac:(rewrite Hsalt; lia)) as Hgap;
    change (set_at (pre ++ zeros 88) salt (length pre + 16)) with (set_at (pre ++ zeros 88) salt 24) in Hgap;
    rewrite Hgap; clear Hgap end.
  rewrite Hsalt. cbn [Nat.sub].
  do 4 (rewrite set_at_next by (rewrite ?length_app, ?zeros_length, ?Hsalt; cbn; lia); cbn [length Nat.sub]).
  rewrite (set_at_next _ xn) by (rewrite ?length_app, ?zeros_length, ?Hsalt, ?Hxn; cbn; lia).
  rewrite Hxn. cbn [Nat.sub].
  rewrite (set_at_next _ an) by (rewrite ?length_app, ?zeros_length, ?Hsalt, ?Hxn, ?Han; cbn; lia).
  rewrite Han. cbn [Nat.sub]. unfold header_layout. rewrite app_nil_r.
  rewrite <- !app_assoc. done.
Qed.

Lemma header_layout_length kdf : length kdf = 4%nat → length (header_layout salt kdf xn an) = 96%nat.
Proof. intros. unfold header_layout. rewrite !length_app, zeros_length. cbn. lia. Qed.
End layout.

Lemma assemble_layout header mac plen ct :
  length header = 96%nat → length mac = 64%nat → length plen = 4%nat →
  assemble header mac plen ct = NZ_STUB ++ header ++ mac ++ plen ++ ct.
Proof.
  intros Hh Hm Hp. unfold assemble.
  set (n := length ct). rewrite <- (app_nil_l (zeros _)).
  rewrite (set_at_next [] NZ_STUB), (set_at_next _ header), (set_at_next _ mac), (set_at_next _ plen), (set_at_next _ ct)
    by (rewrite ?length_app, ?Hh, ?Hm, ?Hp; unfold NZ_STUB_SIZE, HDR_SIZE, HEADER_MAC_SIZE,
          PAYLOAD_LEN_SIZE, NZ_STUB; cbn [length]; fold n; lia).
  match goal with |- _ ++ zeros ?k = _ => replace k with 0%nat end.
  - cbn [zeros replicate]. rewrite app_nil_r. cbn [app]. by rewrite <- !app_assoc.
  - rewrite Hh, Hm, Hp. unfold NZ_STUB_SIZE, HDR_SIZE, HEADER_MAC_SIZE, PAYLOAD_LEN_SIZE, NZ_STUB.
    cbn [length]. fold n. lia.
Qed.

Lemma append_mac body mac :
  length mac = 64%nat →
  set_at (set_at (zeros (length body + FILE_MAC_SIZE)) body 0) mac (length body) = body ++ mac.
Proof.
  intros Hm. unfold FILE_MAC_SIZE.
  rewrite <- (app_nil_l (zeros _)). change 0%nat with (length (@nil Z)) at 2.
  rewrite set_at_append by lia. cbn [app]. rewrite set_at_append by lia.
  match goal with |- _ ++ zeros ?k = _ => replace k with 0%nat by lia end. apply app_nil_r.
Qed.

(** ** The comparison of tags *)

Lemma bxor_zero a b : is_byte a → is_byte b → bxor a b = 0 ↔ a = b.
Proof.
  unfold is_byte, bxor. intros. rewrite !to_int32_id by lia. apply Z.lxor_eq_0_iff.
Qed.

Lemma byte_log2 a : is_byte a → Z.log2 a < 8.
Proof.
  unfold is_byte. intros. destruct (Z.eq_dec a 0) as [->|]; [done|]. apply Z.log2_lt_pow2; lia.
Qed.

Lemma byte_of_log2 a : 0 <= a → Z.log2 a < 8 → is_byte a.
Proof.
  unfold is_byte. intros. split; [done|]. destruct (Z.eq_dec a 0) as [->|]; [done|].
  change 256 with (2 ^ 8). apply Z.log2_lt_pow2; lia.
Qed.

Lemma bxor_byte a b : is_byte a → is_byte b → is_byte (bxor a b).
Proof.
  intros Ha Hb. pose proof (byte_log2 a Ha). pose proof (byte_log2 b Hb).
  unfold is_byte, bxor in *. rewrite !to_int32_id by lia. apply byte_of_log2.
  - apply Z.lxor_nonneg. lia.
  - eapply Z.le_lt_trans; [apply Z.log2_lxor; lia|]. lia.
Qed.

Lemma bor_byte a b : is_byte a → is_byte b → is_byte (bor a b) ∧ (bor a b = 0 ↔ a = 0 ∧ b = 0).
Proof.
  intros Ha Hb. pose proof (byte_log2 a Ha). pose proof (byte_log2 b Hb).
  unfold is_byte, bor in *. rewrite !to_int32_id by lia. split; [|apply Z.lor_eq_0_iff].
  apply byte_of_log2; [apply Z.lor_nonneg; lia|]. rewrite Z.log2_lor by lia. lia.
Qed.

Lemma diff_zero a b d :
  Bytes a → Bytes b → length a = length b → is_byte d →
  fold_left (λ diff p, bor diff (bxor p.1 p.2)) (zip a b) d = 0 ↔ d = 0 ∧ a = b.
Proof.
  revert b d. induction a as [|x a IH]; intros [|y b] d Ha Hb Hl Hd; try discriminate; simpl; [tauto|].
  apply Bytes_cons in Ha as [Hx Ha]. apply Bytes_cons in Hb as [Hy Hb].
  destruct (bor_byte d (bxor x y)) as [Hor Hzero]; [done|by apply bxor_byte|].
  rewrite IH by (done || simpl in Hl; lia). rewrite Hzero, bxor_zero by done. intuition congruence.
Qed.

Lemma timingSafeEq_spec a b : Bytes a → Bytes b → timingSafeEq a b = true ↔ a = b.
Proof.
  intros Ha Hb. unfold timingSafeEq. destruct (Z.eqb_spec (len a) (len b)) as [E|E]; simpl.
  - rewrite Z.eqb_eq, diff_zero by (done || unfold len in E; unfold is_byte; lia). tauto.
  - split; [done|]. intros ->. done.
Qed.

Lemma timingSafeEq_refl a : Bytes a → timingSafeEq a a = true.
Proof. intros. by apply timingSafeEq_spec. Qed.

(** ** Export *)

Definition default_kdf : KdfParams := mkKdf ARGON2_DEFAULT_LOG2_M ARGON2_DEFAULT_T ARGON2_DEFAULT_P.

(** Parameters the exporter accepts, and those an importer spends time on. *)
Definition kdf_ok (k : KdfParams) : bool :=
  (12 <=? log2M k) && (log2M k <=? 18) && (1 <=? kdf_t k) && (kdf_t k <=? 3)
  && (1 <=? kdf_p k) && (kdf_p k <=? 4).
Definition kdf_importable (k : KdfParams) : bool :=
  kdf_ok k && (log2M k <=? 16) && (kdf_t k <=? 2).

Definition kdf_bytes (k : KdfParams) : bytes := [log2M k; kdf_t k; kdf_p k; 0].

Section export.
Context `{C : P2WCrypto} {L : P2WCryptoLaws C}.
Context (rand : nat → nat → bytes).
Hypothesis rand_length : ∀ i n, length (rand i n) = n.
Hypothesis rand_Bytes : ∀ i n, Bytes (rand i n).

Abbreviation salt := (rand 0%nat 32%nat).
Abbreviation xn := (rand 1%nat 24%nat).
Abbreviation an := (rand 2%nat 12%nat).

Definition export_header (k : KdfParams) : bytes := header_layout salt (kdf_bytes k) xn an.

Definition export_keys (pass : jsstr) (k : KdfParams) : DerivedKeys :=
  deriveKeysV2 pass salt (log2M k) (kdf_t k) (kdf_p k).

Definition export_ciphertext (pass : jsstr) (k : KdfParams) (payload : bytes) : bytes :=
  let keys := export_keys pass k in
  doubleEncrypt payload (K_aes keys) an (K_xcha keys) xn (Some (export_header k)).

(** The file as its parts. *)
Definition export_body (pass : jsstr) (k : KdfParams) (payload : bytes) : bytes :=
  NZ_STUB ++ export_header k ++ macV2 (K_mac (export_keys pass k)) (export_header k)
  ++ be_bytes (len (export_ciphertext pass k payload)) ++ export_ciphertext pass k payload.
Definition export_file (pass : jsstr) (k : KdfParams) (payload : bytes) : bytes :=
  export_body pass k payload ++ macV2 (K_mac (export_keys pass k)) (export_body pass k payload).

Lemma export_header_length k : length (export_header k) = 96%nat.
Proof. by apply header_layout_length. Qed.

Lemma export_ciphertext_len pass k payload : len (export_ciphertext pass k payload) = len payload + 32.
Proof. unfold export_ciphertext, doubleEncrypt. rewrite xchacha_length, aes_gcm_length. lia. Qed.

Lemma kdf_ok_check k :
  ((log2M k <? ARGON2_MIN_LOG2_M) || (log2M k >? ARGON2_MAX_LOG2_M) ||
   (kdf_t k <? ARGON2_MIN_T) || (kdf_t k >? ARGON2_MAX_T) ||
   (kdf_p k <? ARGON2_MIN_P) || (kdf_p k >? ARGON2_MAX_P)) = negb (kdf_ok k).
Proof.
  unfold kdf_ok, ARGON2_MIN_LOG2_M, ARGON2_MAX_LOG2_M, ARGON2_MIN_T, ARGON2_MAX_T, ARGON2_MIN_P,
    ARGON2_MAX_P. rewrite !Z.gtb_ltb, !negb_andb, <- !Z.ltb_antisym. done.
Qed.

Lemma band_small v : 0 <= v < 256 → band v 0xFF = v.
Proof. intros. rewrite band_255. by apply Z.mod_small. Qed.

(** [exportToP2W] is the parameter check, [buildPayload] and the layout. *)
Lemma exportToP2W_eq date creds folds pass opt :
  let k := default default_kdf opt in
  (∀ payload, buildPayload (rand 3%nat) creds folds date = Ok payload → len payload + 32 < 2 ^ 32) →
  exportToP2W rand date creds folds pass opt =
    (_ ← throw_if (negb (kdf_ok k)) BadArgon2;
     payload ← buildPayload (rand 3%nat) creds folds date;
     Ok (export_file pass k payload)).
Proof.
  intros k Hlen. unfold exportToP2W.
  replace (match opt with Some k => log2M k | None => ARGON2_DEFAULT_LOG2_M end) with (log2M k) by (by destruct opt).
  replace (match opt with Some k => kdf_t k | None => ARGON2_DEFAULT_T end) with (kdf_t k) by (by destruct opt).
  replace (match opt with Some k => kdf_p k | None => ARGON2_DEFAULT_P end) with (kdf_p k) by (by destruct opt).
  rewrite kdf_ok_check. destruct (kdf_ok k) eqn:Hk; [|done]. cbn [negb throw_if mbind result_bind].
  rewrite build_header_layout by apply rand_length.
  unfold kdf_ok in Hk. to_prop. rewrite !band_small by lia.
  change (header_layout _ _ _ _) with (export_header k).
  destruct (buildPayload _ _ _ _) as [payload|e] eqn:Hb; [|done]. cbn [mbind result_bind].
  change (doubleEncrypt _ _ _ _ _ _) with (export_ciphertext pass k payload).
  specialize (Hlen payload eq_refl). pose proof (len_nonneg payload).
  rewrite to_uint32_id by (rewrite export_ciphertext_len; lia).
  change (deriveKeysV2 _ _ _ _ _) with (export_keys pass k).
  rewrite assemble_layout by (done || apply export_header_length || apply hmac_sha3_512_length).
  rewrite append_mac by apply hmac_sha3_512_length. done.
Qed.
End export.

(** ** Reading the layout back *)

Section reads.
Context (salt xn an hm ct fm : bytes) (k : KdfParams).
Hypothesis (Hsalt : length salt = 32%nat) (Hxn : length xn = 24%nat) (Han : length an = 12%nat).
Hypothesis (Hhm : length hm = 64%nat) (Hfm : length fm = 64%nat) (Hct : len ct < 2 ^ 32).

Let header := header_layout salt (kdf_bytes k) xn an.
Let body := NZ_STUB ++ header ++ hm ++ be_bytes (len ct) ++ ct.
Let file := body ++ fm.

(** The first ten bytes of an exported file. *)
Definition prefix : bytes := NZ_STUB ++ P2W_MAGIC ++ [FORMAT_VERSION; CIPHER_SUITE_V2; 0; 0].

Lemma file_flat :
  file = prefix ++ zeros 16 ++ salt ++ kdf_bytes k ++ xn ++ an ++ hm ++ be_bytes (len ct) ++ ct ++ fm.
Proof. unfold file, body, header, header_layout, prefix. by rewrite <- !app_assoc. Qed.

Ltac offs := unfold NZ_STUB_SIZE, HDR_SIZE, HDR_SALT, HDR_KDF_PARM, HDR_XNONCE, HDR_ANONCE, HEADER_MAC_SIZE,
  PAYLOAD_LEN_SIZE, FILE_MAC_SIZE, kdf_bytes; rewrite ?length_app, ?zeros_length;
  repeat match goal with H : length _ = _ |- _ => rewrite H end; cbn [length prefix app NZ_STUB P2W_MAGIC]; try lia.

Lemma read_salt : slice file (NZ_STUB_SIZE + HDR_SALT) (NZ_STUB_SIZE + HDR_SALT + 32) = salt.
Proof. rewrite file_flat. rewrite (app_assoc prefix). apply slice_app; offs. Qed.

Lemma read_xn : slice file (NZ_STUB_SIZE + HDR_XNONCE) (NZ_STUB_SIZE + HDR_XNONCE + 24) = xn.
Proof.
  rewrite file_flat, (app_assoc prefix), (app_assoc (prefix ++ _)), (app_assoc ((prefix ++ _) ++ _)).
  apply slice_app; offs.
Qed.

Lemma read_an : slice file (NZ_STUB_SIZE + HDR_ANONCE) (NZ_STUB_SIZE + HDR_ANONCE + 12) = an.
Proof.
  rewrite file_flat, (app_assoc prefix), (app_assoc (prefix ++ _)), (app_assoc ((prefix ++ _) ++ _)),
    (app_assoc (((prefix ++ _) ++ _) ++ _)). apply slice_app; offs.
Qed.

Lemma read_kdf i : at_ file (NZ_STUB_SIZE + HDR_KDF_PARM + i) =
  at_ (kdf_bytes k ++ xn ++ an ++ hm ++ be_bytes (len ct) ++ ct ++ fm) i.
Proof.
  rewrite file_flat, (app_assoc prefix), (app_assoc (prefix ++ _)). apply at_app. offs.
Qed.

Lemma read_header : slice file NZ_STUB_SIZE (NZ_STUB_SIZE + HDR_SIZE) = header.
Proof.
  unfold file, body. rewrite <- !app_assoc. apply slice_app; [done|].
  unfold header. rewrite header_layout_length by done. done.
Qed.

Lemma read_header_mac :
  slice file (NZ_STUB_SIZE + HDR_SIZE) (NZ_STUB_SIZE + HDR_SIZE + HEADER_MAC_SIZE) = hm.
Proof.
  unfold file, body. rewrite <- !app_assoc, (app_assoc NZ_STUB).
  apply slice_app; rewrite length_app; unfold header; rewrite header_layout_length by done; [done|].
  by rewrite Hhm.
Qed.

Lemma read_payload_len : getUint32 file (NZ_STUB_SIZE + HDR_SIZE + HEADER_MAC_SIZE) = len ct.
Proof.
  unfold file, body. rewrite <- !app_assoc, (app_assoc NZ_STUB), (app_assoc (NZ_STUB ++ header)).
  rewrite (getUint32_app _ _ _ 0).
  - apply getUint32_be_bytes. pose proof (len_nonneg ct). lia.
  - rewrite !length_app. unfold header. rewrite header_layout_length by done. by rewrite Hhm.
Qed.

Lemma body_len : length body = (166 + length ct)%nat.
Proof.
  unfold body, header. rewrite !length_app, header_layout_length by done. rewrite Hhm.
  change (length NZ_STUB) with 2%nat. change (length (be_bytes (len ct))) with 4%nat. lia.
Qed.

Lemma file_len : length file = (230 + length ct)%nat.
Proof. unfold file. rewrite length_app, body_len, Hfm. lia. Qed.

Lemma read_ciphertext :
  slice file 166 (166 + Z.to_nat (len ct)) = ct.
Proof.
  unfold file, body. rewrite <- !app_assoc, (app_assoc NZ_STUB), (app_assoc (NZ_STUB ++ header)),
    (app_assoc ((NZ_STUB ++ header) ++ hm)).
  unfold len at 2. rewrite Nat2Z.id.
  apply slice_app; rewrite !length_app; unfold header; rewrite header_layout_length by done;
    rewrite Hhm; done.
Qed.

Lemma read_body : slice file 0 (length file - FILE_MAC_SIZE) = body.
Proof.
  rewrite file_len. unfold file. apply (slice_app [] body fm); [done|]. rewrite body_len.
  unfold FILE_MAC_SIZE. cbn [length]. lia.
Qed.

Lemma read_file_mac : slice file (length file - FILE_MAC_SIZE) (length file) = fm.
Proof.
  rewrite file_len. unfold file. apply slice_end; rewrite body_len; unfold FILE_MAC_SIZE; lia.
Qed.

Lemma file_is_p2w : isP2WFile file = true.
Proof.
  unfold isP2WFile. rewrite (proj2 (Z.leb_le _ (len file))); [by rewrite file_flat|].
  unfold len. rewrite file_len. unfold NZ_STUB_SIZE, HDR_SIZE. lia.
Qed.

(** What [importFromP2W] does on such a file. *)
Lemma import_layout `{C : P2WCrypto} uuid pass :
  importFromP2W uuid pass file =
    (_ ← throw_if ((log2M k <? ARGON2_MIN_LOG2_M) || (log2M k >? ARGON2_MAX_LOG2_M)) FAIL_MSG;
     _ ← throw_if ((kdf_t k <? ARGON2_MIN_T) || (kdf_t k >? ARGON2_MAX_T)) FAIL_MSG;
     _ ← throw_if ((kdf_p k <? ARGON2_MIN_P) || (kdf_p k >? ARGON2_MAX_P)) FAIL_MSG;
     _ ← throw_if ((log2M k >? 16) || (kdf_t k >? 2)) FAIL_MSG;
     let keys := deriveKeysV2 pass salt (log2M k) (kdf_t k) (kdf_p k) in
     _ ← throw_if (negb (timingSafeEq (macV2 (K_mac keys) body) fm)) FAIL_MSG;
     _ ← throw_if (negb (timingSafeEq (macV2 (K_mac keys) header) hm)) FAIL_MSG;
     match doubleDecrypt ct (K_aes keys) an (K_xcha keys) xn (Some header) with
     | None => Throw FAIL_MSG
     | Some plaintext => parsePayload uuid plaintext
     end).
Proof.
  unfold importFromP2W. rewrite file_is_p2w. cbn [negb throw_if mbind result_bind].
  rewrite (proj2 (Z.ltb_ge _ _)) by (unfold len; rewrite file_len; unfold FIXED_OVERHEAD,
    NZ_STUB_SIZE, HDR_SIZE, HEADER_MAC_SIZE, PAYLOAD_LEN_SIZE, FILE_MAC_SIZE; lia).
  assert (Hpre : ∀ i, (i < 10)%nat → at_ file i = at_ prefix i).
  { intros i Hi. rewrite file_flat. unfold at_. apply app_nth1. done. }
  rewrite (Hpre (NZ_STUB_SIZE + HDR_VERSION)%nat), (Hpre (NZ_STUB_SIZE + HDR_SUITE)%nat)
    by (cbv; lia).
  change (at_ prefix (NZ_STUB_SIZE + HDR_VERSION)) with 1.
  change (at_ prefix (NZ_STUB_SIZE + HDR_SUITE)) with 2.
  change (negb (1 =? FORMAT_VERSION)) with false. change (2 =? CIPHER_SUITE_V1) with false.
  change (2 =? CIPHER_SUITE_V2) with true. cbn [throw_if mbind result_bind].
  unfold importV2.
  assert (getUint16 file (NZ_STUB_SIZE + HDR_FLAGS) = 0 ∧
    getUint32 file (NZ_STUB_SIZE + HDR_CREATED) = 0 ∧ getUint32 file (NZ_STUB_SIZE + HDR_CREATED + 4) = 0)
    as (-> & -> & ->) by (rewrite file_flat; done).
  cbn [Z.eqb negb orb throw_if mbind result_bind].
  rewrite read_salt, read_xn, read_an, read_header, read_header_mac, read_payload_len,
    read_body, read_file_mac.
  pose proof (read_kdf 0) as H0. rewrite Nat.add_0_r in H0. rewrite H0, !read_kdf. clear H0.
  change (at_ (kdf_bytes k ++ _) 0) with (log2M k).
  change (at_ (kdf_bytes k ++ _) 1) with (kdf_t k).
  change (at_ (kdf_bytes k ++ _) 2) with (kdf_p k).
  change (0 =? 0) with true. cbn [negb orb throw_if mbind result_bind].
  match goal with |- context [negb (?a + len ct + ?b =? ?c)] =>
    replace (negb (a + len ct + b =? c)) with false end;
    [|symmetry; apply negb_false_iff, Z.eqb_eq; unfold len;
    rewrite file_len; cbv [NZ_STUB_SIZE HDR_SIZE HEADER_MAC_SIZE PAYLOAD_LEN_SIZE FILE_MAC_SIZE]; lia].
  change (NZ_STUB_SIZE + HDR_SIZE + HEADER_MAC_SIZE + PAYLOAD_LEN_SIZE)%nat with 166%nat.
  rewrite read_ciphertext. done.
Qed.
End reads.

(** ** The theorems *)

Module FileSpec.

Lemma build_len rand creds folds date payload :
  (∀ n, length (rand n) = n) → (∀ n, Bytes (rand n)) →
  len creds <= 50000 → len folds <= 5000 → date_ok date = true → vault_fits creds folds = true →
  vault_size creds folds date <= 2 ^ 31 →
  buildPayload rand creds folds date = Ok payload →
  len payload = getPaddingTarget (vault_size creds folds date) ∧ len payload + 32 < 2 ^ 32.
Proof.
  intros Hl HB Hnc Hnf Hd Hf Hs Hb.
  destruct (PayloadSpec.build_total rand Hl HB creds folds date) as [Hok Hno]; [done..|].
  destruct (Z.le_gt_cases (padding_body (vault_size creds folds date)) 65536) as [Hq|Hq];
    [|rewrite Hno in Hb by done; discriminate].
  destruct (Hok Hq) as (bs & Hb' & Hlen). assert (bs = payload) as -> by congruence.
  unfold padding_body in Hq. split; [done|]. lia.
Qed.

Section file.
Context `{C : P2WCrypto} {L : P2WCryptoLaws C}.
Context (rand : nat → nat → bytes) (uuid : nat → jsstr).
Hypothesis rand_length : ∀ i n, length (rand i n) = n.
Hypothesis rand_Bytes : ∀ i n, Bytes (rand i n).

(** Vaults within the limits of the format whose padding can be supplied. *)
Definition vault_ok (creds : list Credential) (folds : list Folder) (date : jsstr) : bool :=
  (len creds <=? 50000) && (len folds <=? 5000) && date_ok date && vault_fits creds folds
  && (vault_size creds folds date <=? 2 ^ 31)
  && (padding_body (vault_size creds folds date) <=? 65536).

(** A vault that can be written is exported to the file of its payload. *)
Lemma export_total date creds folds pass opt :
  vault_ok creds folds date = true → kdf_ok (default default_kdf opt) = true →
  ∃ payload, buildPayload (rand 3%nat) creds folds date = Ok payload ∧
    len payload = getPaddingTarget (vault_size creds folds date) ∧ len payload + 32 < 2 ^ 32 ∧
    exportToP2W rand date creds folds pass opt = Ok (export_file rand pass (default default_kdf opt) payload).
Proof.
  unfold vault_ok. intros Hv Hk. to_prop.
  destruct (PayloadSpec.build_total (rand 3%nat) (rand_length 3) (rand_Bytes 3) creds folds date)
    as [[payload [Hb Hl]] _]; [done..|].
  assert (Hlen : ∀ q, buildPayload (rand 3%nat) creds folds date = Ok q → len q + 32 < 2 ^ 32).
  { intros q Hq. by eapply build_len. }
  exists payload. split; [done|]. split; [done|]. split; [by apply Hlen|].
  rewrite exportToP2W_eq by done. rewrite Hk, Hb. done.
Qed.

(** Without the padding. *)
Definition vault_writable (creds : list Credential) (folds : list Folder) (date : jsstr) : bool :=
  (len creds <=? 50000) && (len folds <=? 5000) && date_ok date && vault_fits creds folds
  && (vault_size creds folds date <=? 2 ^ 31).

(** A vault whose padding cannot be supplied is not exported. *)
Lemma export_quota date creds folds pass k :
  vault_writable creds folds date = true → kdf_ok k = true → 65536 < padding_body (vault_size creds folds date) →
  exportToP2W rand date creds folds pass (Some k) = Throw QuotaExceeded.
Proof.
  unfold vault_writable. intros Hv Hk Hpad. to_prop.
  destruct (PayloadSpec.build_total (rand 3%nat) (rand_length 3) (rand_Bytes 3) creds folds date) as [_ Hno]; [done..|].
  rewrite exportToP2W_eq by (done || (intros q Hq; by rewrite Hno in Hq by done)).
  change (default default_kdf (Some k)) with k. by rewrite Hk, Hno.
Qed.

(** [importFromP2W] on an exported file, whatever the passphrase. *)
Lemma import_export pass k payload pass' :
  len payload + 32 < 2 ^ 32 →
  importFromP2W uuid pass' (export_file rand pass k payload) =
    if negb (kdf_importable k) then Throw FAIL_MSG
    else
      let keys := export_keys rand pass' k in
      _ ← throw_if (negb (timingSafeEq (macV2 (K_mac keys) (export_body rand pass k payload))
            (macV2 (K_mac (export_keys rand pass k)) (export_body rand pass k payload)))) FAIL_MSG;
      _ ← throw_if (negb (timingSafeEq (macV2 (K_mac keys) (export_header rand k))
            (macV2 (K_mac (export_keys rand pass k)) (export_header rand k)))) FAIL_MSG;
      match doubleDecrypt (export_ciphertext rand pass k payload) (K_aes keys) (rand 2%nat 12%nat)
              (K_xcha keys) (rand 1%nat 24%nat) (Some (export_header rand k)) with
      | None => Throw FAIL_MSG
      | Some plaintext => parsePayload uuid plaintext
      end.
Proof.
  intros Hlen. rewrite <- (export_ciphertext_len rand pass k payload) in Hlen.
  pose proof (import_layout _ _ _ _ _ _ k (rand_length 0 32) (rand_length 1 24) (rand_length 2 12)
    (hmac_sha3_512_length (K_mac (export_keys rand pass k)) (export_header rand k))
    (hmac_sha3_512_length (K_mac (export_keys rand pass k)) (export_body rand pass k payload))
    Hlen uuid pass') as H.
  change (header_layout _ _ _ _) with (export_header rand k) in H.
  change (NZ_STUB ++ export_header rand k ++ _) with (export_body rand pass k payload) in H.
  unfold export_file, macV2 at 1. rewrite H. clear H Hlen.
  unfold kdf_importable, kdf_ok, ARGON2_MIN_LOG2_M, ARGON2_MAX_LOG2_M, ARGON2_MIN_T, ARGON2_MAX_T,
    ARGON2_MIN_P, ARGON2_MAX_P.
  rewrite !Z.gtb_ltb, !Z.ltb_antisym.
  destruct (12 <=? log2M k), (log2M k <=? 18), (1 <=? kdf_t k), (kdf_t k <=? 3), (1 <=? kdf_p k),
    (kdf_p k <=? 4), (log2M k <=? 16), (kdf_t k <=? 2); done.
Qed.

(** C1: the export of a vault and its import under the same passphrase.  For a vault
    within the counts of the format whose records and ids can be written, with key
    derivation parameters the importer accepts: when the padding of its size bucket is
    more than the 65536 random bytes of one call, the export throws and there is no file
    (vaults of 64 to 192 KiB, [payload_quota]); otherwise the export gives a file and the
    import gives back every entry and folder in order, cut to the lengths the parser
    takes and with the tags it splits.  Where no value is longer than those lengths and no
    single tag holds a comma ([carried_entry], [carried_folder]; a single tag with a comma
    comes back as two, [single_tag_comma_split]), every column of the format is as it was. *)
Theorem file_roundtrip date creds folds pass k :
  vault_writable creds folds date = true → kdf_importable k = true →
  forallb exportable_entry creds = true → forallb exportable_folder folds = true →
  if padding_body (vault_size creds folds date) <=? 65536 then
    ∃ file, exportToP2W rand date creds folds pass (Some k) = Ok file ∧
      importFromP2W uuid pass file = Ok (imported_entries uuid 0 creds, map imported_folder folds) ∧
      (forallb carried_entry creds = true → forallb carried_folder folds = true →
       importFromP2W uuid pass file = Ok (map exported_entry creds, map exported_folder folds))
  else exportToP2W rand date creds folds pass (Some k) = Throw QuotaExceeded.
Proof.
  intros Hw Hk Hec Hef. assert (Hkdf : kdf_ok k = true) by (by unfold kdf_importable in Hk; to_prop).
  destruct (padding_body (vault_size creds folds date) <=? 65536) eqn:Hpad.
  - assert (Hv : vault_ok creds folds date = true) by (unfold vault_ok, vault_writable in *; by rewrite Hw, Hpad).
    destruct (export_total date creds folds pass (Some k) Hv) as (payload & Hb & _ & Hlen & ->); [done|].
    assert (Himp : importFromP2W uuid pass (export_file rand pass k payload) = Ok (imported_entries uuid 0 creds, map imported_folder folds)).
    { rewrite import_export by done. rewrite Hk. cbn [negb].
      rewrite !timingSafeEq_refl by apply hmac_sha3_512_Bytes. cbn [negb throw_if mbind result_bind].
      unfold doubleDecrypt, export_ciphertext, doubleEncrypt. rewrite xchacha_open. cbn [mbind option_bind].
      rewrite aes_gcm_open. unfold vault_ok in Hv. to_prop.
      by rewrite (Payload.parse_built (rand 3%nat) uuid (rand_length 3) (rand_Bytes 3) creds folds date)
        by (done || by apply date_ok_u16). }
    eexists. split; [done|]. change (default default_kdf (Some k)) with k. split; [exact Himp|].
    intros Hcc Hcf. by rewrite Himp, imported_entries_id, imported_folders_id.
  - apply export_quota; [done|done|]. by apply Z.leb_gt.
Qed.

(** The default export cannot be imported.  Every file written without
    explicit KDF parameters (256 MiB), and every file written with more than
    64 MiB or three passes, is refused by the importer, whatever passphrase
    is given, the right one included. *)
Theorem default_export_rejected date creds folds pass opt :
  vault_ok creds folds date = true →
  kdf_ok (default default_kdf opt) = true → kdf_importable (default default_kdf opt) = false →
  ∃ file, exportToP2W rand date creds folds pass opt = Ok file ∧
    ∀ pass', importFromP2W uuid pass' file = Throw FAIL_MSG.
Proof.
  intros Hv Hk Hi. destruct (export_total date creds folds pass opt Hv Hk) as (payload & _ & _ & Hlen & ->).
  eexists. split; [done|]. intros pass'. rewrite import_export by done. by rewrite Hi.
Qed.

(** What an exported file shows without the key: the suite byte, no
    timestamp, zero in the sixteen bytes of the creation time and the item
    counts, and a length that depends on the size bucket only. *)
Theorem export_metadata date creds folds pass opt file :
  vault_ok creds folds date = true →
  exportToP2W rand date creds folds pass opt = Ok file →
  isP2WFile file = true ∧ readP2WCipherSuite file = Some CIPHER_SUITE_V2 ∧
  readP2WTimestamp file = None ∧ slice file 10 26 = zeros 16 ∧
  len file = 262 + getPaddingTarget (vault_size creds folds date).
Proof.
  intros Hv He. destruct (kdf_ok (default default_kdf opt)) eqn:Hk.
  - destruct (export_total date creds folds pass opt Hv Hk) as (payload & _ & Hl & Hlen & He').
    assert (file = export_file rand pass (default default_kdf opt) payload) as -> by congruence.
    unfold export_file, export_body, export_header.
    match goal with |- context [isP2WFile ?f] => assert (Hp : isP2WFile f = true) end.
    { apply file_is_p2w; apply rand_length || apply hmac_sha3_512_length. }
    unfold readP2WCipherSuite, readP2WTimestamp. rewrite Hp. cbn [negb].
    unfold header_layout. split; [done|].
    split; [done|]. split; [done|]. split.
    + rewrite <- !app_assoc. apply (slice_app prefix (zeros 16)); done.
    + rewrite <- Hl. unfold len at 1.
      match goal with |- context [length ((NZ_STUB ++ ?h ++ ?hm ++ _ ++ ?ct) ++ ?fm)] =>
        pose proof (file_len (rand 0%nat 32%nat) (rand 1%nat 24%nat) (rand 2%nat 12%nat) hm ct fm
          (default default_kdf opt)) as Hfl end.
      unfold header_layout in Hfl. rewrite Hfl by (apply rand_length || apply hmac_sha3_512_length).
      pose proof (export_ciphertext_len rand pass (default default_kdf opt) payload) as Hc.
      unfold len in Hc at 1. unfold export_header, header_layout in Hc. lia.
  - unfold exportToP2W in He. exfalso.
    assert (Hdef : opt ≠ None) by (intros ->; vm_compute in Hk; discriminate).
    destruct opt as [k|]; [|done]. change (default default_kdf (Some k)) with k in Hk. rewrite kdf_ok_check, Hk in He.
    discriminate.
Qed.
End file.

(** The stored tags of a file, and the keys the importer derives from it. *)
Definition v2_keys `{C : P2WCrypto} (pass : jsstr) (file : bytes) : DerivedKeys :=
  deriveKeysV2 pass (slice file 26 58) (at_ file 58) (at_ file 59) (at_ file 60).
Definition file_mac_of (file : bytes) : bytes := slice file (length file - 64) (length file).
Definition body_of (file : bytes) : bytes := slice file 0 (length file - 64).
Definition header_of (file : bytes) : bytes := slice file 2 98.
Definition header_mac_of (file : bytes) : bytes := slice file 98 162.

(** Both tags of a suite 0x02 file verify under the keys of the passphrase. *)
Definition v2_authentic `{C : P2WCrypto} (pass : jsstr) (file : bytes) : Prop :=
  file_mac_of file = macV2 (K_mac (v2_keys pass file)) (body_of file) ∧
  header_mac_of file = macV2 (K_mac (v2_keys pass file)) (header_of file).

(** C19: the importer accepts a current file only after authenticating it: an
    accepted file of suite 0x02 has both tags right under the keys derived from
    the passphrase, KDF parameters within the budget (12..16, 1..2, 1..4), and the
    returned vault is what the parser reads from the plaintext that both AEAD
    layers opened with the header as associated data. *)
Theorem import_authentic `{C : P2WCrypto} uuid pass file v :
  (∀ k d, Bytes (hmac_sha3_512 k d)) → Bytes file →
  at_ file 7 = CIPHER_SUITE_V2 → importFromP2W uuid pass file = Ok v →
  v2_authentic pass file ∧
  12 <= at_ file 58 <= 16 ∧ 1 <= at_ file 59 <= 2 ∧ 1 <= at_ file 60 <= 4 ∧
  ∃ plaintext,
    doubleDecrypt (slice file 166 (166 + Z.to_nat (getUint32 file 162)))
      (K_aes (v2_keys pass file)) (slice file 86 98) (K_xcha (v2_keys pass file)) (slice file 62 86)
      (Some (header_of file)) = Some plaintext ∧
    parsePayload uuid plaintext = Ok v.
Proof.
  intros Hmac HB Hs H. unfold importFromP2W in H. inv_ok. clear H H0 H1.
  change (NZ_STUB_SIZE + HDR_SUITE)%nat with 7%nat in *. rewrite Hs in *.
  change (CIPHER_SUITE_V2 =? CIPHER_SUITE_V1) with false in *.
  change (CIPHER_SUITE_V2 =? CIPHER_SUITE_V2) with true in *. cbn iota in *.
  match goal with Hi : importV2 _ _ _ = _ |- _ => unfold importV2 in Hi; inv_ok end.
  match goal with Hd : match doubleDecrypt ?c ?a ?b ?d ?e ?f with _ => _ end = _ |- _ =>
    destruct (doubleDecrypt c a b d e f) as [pt|] eqn:E; [|discriminate] end.
  change (fun x => Ok x) with (@Ok p2w_error (list Credential * list Folder)) in *.
  unfold ARGON2_MIN_LOG2_M, ARGON2_MAX_LOG2_M, ARGON2_MIN_T, ARGON2_MAX_T, ARGON2_MIN_P, ARGON2_MAX_P in *.
  to_prop.
  repeat match goal with Ht : timingSafeEq _ _ = true |- _ =>
    apply timingSafeEq_spec in Ht; [|by apply Hmac|by apply Bytes_slice] end.
  split; [split; symmetry; assumption|].
  repeat match goal with |- _ ∧ _ => split end;
    repeat match goal with Hx : context [at_ file ?n] |- _ =>
      let m := eval vm_compute in n in progress change n with m in Hx end; try lia.
  exists pt. split; [exact E|done].
Qed.

(** Before the tags are verified every failure is the same.  A file of the
    right kind and length that carries the current version and whose tags do not
    verify is refused with the generic message, whichever check stopped it. *)
Theorem import_unauthenticated `{C : P2WCrypto} uuid pass file :
  (∀ k d, Bytes (hmac_sha3_512 k d)) → Bytes file →
  isP2WFile file = true → 230 <= len file → at_ file 7 ≠ CIPHER_SUITE_V1 →
  (at_ file 7 = CIPHER_SUITE_V2 → ¬ v2_authentic pass file) →
  importFromP2W uuid pass file = Throw FAIL_MSG.
Proof.
  intros Hmac HB Hp Hlen H1 Hna. unfold importFromP2W. rewrite Hp. cbn [negb throw_if mbind result_bind].
  rewrite (proj2 (Z.ltb_ge _ _)) by (cbv [FIXED_OVERHEAD NZ_STUB_SIZE HDR_SIZE HEADER_MAC_SIZE PAYLOAD_LEN_SIZE FILE_MAC_SIZE]; lia).
  cbn [throw_if mbind result_bind].
  destruct (negb (at_ file (NZ_STUB_SIZE + HDR_VERSION) =? FORMAT_VERSION)); [done|].
  cbn [throw_if mbind result_bind]. change (NZ_STUB_SIZE + HDR_SUITE)%nat with 7%nat.
  rewrite (proj2 (Z.eqb_neq _ _)) by done. destruct (Z.eqb_spec (at_ file 7) CIPHER_SUITE_V2) as [E|]; [|done].
  unfold importV2. cbv zeta.
  do 8 (apply bind_throw_if; intros ?). exfalso. to_prop.
  repeat match goal with Ht : timingSafeEq _ _ = true |- _ =>
    apply timingSafeEq_spec in Ht; [|by apply Hmac|by apply Bytes_slice] end.
  apply (Hna E). split; symmetry; assumption.
Qed.

(** A file of the right magic that is too short fails with a message of its own. *)
Theorem import_truncated `{C : P2WCrypto} uuid pass file :
  isP2WFile file = true → len file < 230 → importFromP2W uuid pass file = Throw Truncated.
Proof.
  intros Hp Hl. unfold importFromP2W. rewrite Hp. cbn [negb throw_if mbind result_bind].
  by rewrite (proj2 (Z.ltb_lt _ _)) by (cbv [FIXED_OVERHEAD NZ_STUB_SIZE HDR_SIZE HEADER_MAC_SIZE PAYLOAD_LEN_SIZE FILE_MAC_SIZE]; lia).
Qed.

(** ** A concrete instance of the primitives *)

(** Tags that depend on the key and the data; sealing appends a tag. *)
Definition toy_sum (d : bytes) : Z := fold_left (λ a b, (a * 31 + b + 1) mod 251) d 7.
Definition toy_tag (n : nat) (k d : bytes) : bytes := replicate n (toy_sum (k ++ d)).
Definition toy_seal (k n : bytes) (a : option bytes) (d : bytes) : bytes :=
  d ++ toy_tag 16 (k ++ n ++ default [] a) d.
Definition toy_open (k n : bytes) (a : option bytes) (c : bytes) : option bytes :=
  let d := take (length c - 16) c in
  if bool_decide (drop (length c - 16) c = toy_tag 16 (k ++ n ++ default [] a) d) then Some d else None.

#[export] Instance toy_crypto : P2WCrypto := {|
  nfc s := s;
  pbkdf2_sha512 p s i := toy_tag 96 p (s ++ [i]);
  argon2id p s m t q := toy_tag 64 p (s ++ [m; t; q]);
  hkdf_sha3_512 m s i n := toy_tag (Z.to_nat n) m (s ++ i);
  hmac_sha512 := toy_tag 64;
  hmac_sha3_512 := toy_tag 64;
  aes_gcm_encrypt := toy_seal;
  aes_gcm_decrypt := toy_open;
  xchacha_encrypt := toy_seal;
  xchacha_decrypt := toy_open;
|}.

Lemma toy_sum_byte d : is_byte (toy_sum d).
Proof.
  unfold toy_sum. assert (H : is_byte 7) by (unfold is_byte; lia). revert H. generalize 7.
  induction d as [|x d IH]; intros a H; [done|]. simpl. apply IH. unfold is_byte. lia.
Qed.

Lemma toy_open_seal k n a d : toy_open k n a (toy_seal k n a d) = Some d.
Proof.
  unfold toy_open, toy_seal. rewrite length_app.
  replace (length d + length (toy_tag 16 (k ++ n ++ default [] a) d) - 16)%nat with (length d)
    by (unfold toy_tag; rewrite length_replicate; lia).
  rewrite take_app_length, drop_app_length. by rewrite bool_decide_eq_true_2.
Qed.

Lemma toy_seal_length k n a d : len (toy_seal k n a d) = len d + 16.
Proof. unfold toy_seal, toy_tag. rewrite len_app. unfold len at 2. by rewrite length_replicate. Qed.

#[export] Instance toy_laws : P2WCryptoLaws toy_crypto.
Proof.
  split; intros; try apply toy_open_seal; try apply toy_seal_length.
  - apply length_replicate.
  - apply Forall_replicate, toy_sum_byte.
Qed.

Definition byte_rand (i n : nat) : bytes := zeros n.
Lemma byte_rand_length i n : length (byte_rand i n) = n.
Proof. apply zeros_length. Qed.
Lemma byte_rand_Bytes i n : Bytes (byte_rand i n).
Proof. apply Bytes_zeros. Qed.

Abbreviation s_creds := [PayloadSpec.sample_entry].
Abbreviation s_folds := [PayloadSpec.sample_folder].
Abbreviation s_date := PayloadSpec.sample_date.
Definition s_pass : jsstr := js "correct horse".
Definition no_uuid (n : nat) : jsstr := [].
Definition s_kdf : KdfParams := mkKdf 12 1 1.

Lemma file_roundtrip_witness :
  ∃ file, exportToP2W byte_rand s_date s_creds s_folds s_pass (Some s_kdf) = Ok file ∧
    importFromP2W no_uuid s_pass file = Ok (map exported_entry s_creds, map exported_folder s_folds).
Proof.
  pose proof (file_roundtrip byte_rand no_uuid byte_rand_length byte_rand_Bytes s_date s_creds s_folds s_pass s_kdf) as H.
  assert (P1 : vault_writable s_creds s_folds s_date = true) by (by vm_compute).
  assert (P2 : kdf_importable s_kdf = true) by (by vm_compute).
  assert (P3 : forallb exportable_entry s_creds = true) by (by vm_compute).
  assert (P4 : forallb exportable_folder s_folds = true) by (by vm_compute).
  assert (P5 : (padding_body (vault_size s_creds s_folds s_date) <=? 65536) = true) by (by vm_compute).
  specialize (H P1 P2 P3 P4). rewrite P5 in H. destruct H as (file & H1 & _ & H2). exists file. split; [exact H1|].
  apply H2; by vm_compute.
Defined.

Lemma default_export_rejected_witness :
  ∃ file, exportToP2W byte_rand s_date s_creds s_folds s_pass None = Ok file ∧
    ∀ pass', importFromP2W no_uuid pass' file = Throw FAIL_MSG.
Proof. apply (default_export_rejected byte_rand no_uuid byte_rand_length byte_rand_Bytes); by vm_compute. Defined.

(** A file that the importer accepts, by evaluation. *)
Definition s_file : bytes :=
  match exportToP2W byte_rand s_date s_creds s_folds s_pass (Some s_kdf) with Ok f => f | Throw _ => [] end.

Lemma s_file_exported : exportToP2W byte_rand s_date s_creds s_folds s_pass (Some s_kdf) = Ok s_file.
Proof.
  assert (H : is_ok (exportToP2W byte_rand s_date s_creds s_folds s_pass (Some s_kdf)) = true) by (by vm_compute).
  unfold s_file. destruct (exportToP2W byte_rand s_date s_creds s_folds s_pass (Some s_kdf)); [done|discriminate].
Qed.

Lemma s_file_Bytes : Bytes s_file.
Proof.
  assert (H : forallb (λ b, (0 <=? b) && (b <? 256)) s_file = true) by (by vm_compute).
  apply Forall_forall. rewrite forallb_forall in H. intros b Hb%list_elem_of_In%H. unfold is_byte.
  to_prop. lia.
Qed.

Lemma export_metadata_witness :
  isP2WFile s_file = true ∧ readP2WCipherSuite s_file = Some CIPHER_SUITE_V2 ∧
  readP2WTimestamp s_file = None ∧ slice s_file 10 26 = zeros 16 ∧
  len s_file = 262 + getPaddingTarget (vault_size s_creds s_folds s_date).
Proof.
  apply (export_metadata byte_rand byte_rand_length byte_rand_Bytes s_date s_creds s_folds s_pass (Some s_kdf));
    [by vm_compute|apply s_file_exported].
Defined.

Definition s_vault : list Credential * list Folder :=
  (map exported_entry s_creds, map exported_folder s_folds).

Lemma import_authentic_witness :
  v2_authentic s_pass s_file ∧ 12 <= at_ s_file 58 <= 16.
Proof.
  destruct (import_authentic no_uuid s_pass s_file s_vault) as (H1 & H2 & _).
  - intros. apply Forall_replicate, toy_sum_byte.
  - apply s_file_Bytes.
  - by vm_compute.
  - by vm_compute.
  - by split.
Defined.

(** The same file under another passphrase. *)
Lemma import_unauthenticated_witness :
  importFromP2W no_uuid (js "wrong") s_file = Throw FAIL_MSG.
Proof.
  apply import_unauthenticated.
  - intros. apply Forall_replicate, toy_sum_byte.
  - apply s_file_Bytes.
  - by vm_compute.
  - by vm_compute.
  - by vm_compute.
  - intros _ [H _]. revert H. apply (bool_decide_unpack _). by vm_compute.
Defined.

End FileSpec.
