(* ===== verification/CryptoUtils.v ===== *)
(** * Small cryptographic helpers ([web/src/utils/crypto.ts])

    Salts, the comparison of hash strings, recovery keys and UUIDs. *)
From S2P Require Import Prelude JsRuntime JsText P2WFile P2WFileSpec.

(** [/^[0-9a-f]{32}$/i.test(s)] *)
Definition is_hex32 (s : jsstr) : bool := (len s =? 32) && forallb is_hex s.

(** The salt [hashPassword] uses. *)
Definition salt_bytes (saltHex : jsstr) : bytes :=
  if is_hex32 saltHex then hexToBytes saltHex
  else utf8_encode (str_or saltHex (js "pwdnow-demo-salt")).

Class PasswordHash := { pbkdf2_bits : bytes → bytes → bytes  (* password, salt: 32 bytes *) }.

Definition hashPassword `{PasswordHash} (password saltHex : jsstr) : jsstr :=
  bytesToHex (pbkdf2_bits (utf8_encode password) (salt_bytes saltHex)).

(** The loop is the one of [timingSafeEq] on the UTF-8 bytes. *)
Definition timingSafeEqual (a b : jsstr) : bool :=
  let ab := utf8_encode a in
  let bb := utf8_encode b in
  if negb (len ab =? len bb) then false
  else fold_left (λ diff p, bor diff (bxor p.1 p.2)) (zip ab bb) 0 =? 0.

(** ** Recovery keys *)

Definition RECOVERY_CHARSET : jsstr := js "ABCDEFGHJKLMNPQRSTUVWXYZ23456789".
Definition recovery_char (b : Z) : Z := nth (Z.to_nat (b mod len RECOVERY_CHARSET)) RECOVERY_CHARSET 0.

(** The loop from index [i] on; [bs] are the bytes left. *)
Fixpoint recovery_loop (i : Z) (bs : bytes) (result : jsstr) : jsstr :=
  match bs with
  | [] => result
  | b :: bs' =>
      let result := result ++ [recovery_char b] in
      let result := if ((i + 1) mod 8 =? 0) && (i <? 31) then result ++ js "-" else result in
      recovery_loop (i + 1) bs' result
  end.

Definition generateRecoveryKey (rand : nat → bytes) : jsstr := recovery_loop 0 (rand 32%nat) [].

(** ** UUIDs (the path without [crypto.randomUUID]) *)

Definition set_byte (i : nat) (v : Z) (l : bytes) : bytes := <[i := v]> l.

Definition uuid_of_bytes (bs : bytes) : jsstr :=
  let bs := set_byte 6 (bor (band (nth 6 bs 0) 0x0F) 0x40) bs in
  let bs := set_byte 8 (bor (band (nth 8 bs 0) 0x3F) 0x80) bs in
  let hex := bytesToHex bs in
  slice hex 0 8 ++ js "-" ++ slice hex 8 12 ++ js "-" ++ slice hex 12 16 ++ js "-" ++ slice hex 16 20
  ++ js "-" ++ drop 20 hex.

(** ** Lemmas *)

Lemma timingSafeEqual_spec a b :
  Forall is_u16 a → Forall is_u16 b → timingSafeEqual a b = true ↔ utf8_encode a = utf8_encode b.
Proof.
  intros Ha Hb. exact (timingSafeEq_spec (utf8_encode a) (utf8_encode b) (utf8_encode_bytes a Ha) (utf8_encode_bytes b Hb)).
Qed.

Lemma hex_ascii s : Forall (λ c, is_hex c = true) s → forallb is_ascii s = true ∧ Forall is_u16 s.
Proof.
  induction 1 as [|c s Hc _ [IH1 IH2]]; [done|]. simpl.
  assert (0 <= c < 128).
  { unfold is_hex, is_digit in Hc. repeat (apply orb_true_iff in Hc as [Hc|Hc]); to_prop; lia. }
  split; [|constructor; [unfold is_u16; lia|done]]. unfold is_ascii at 1.
  by rewrite (proj2 (Z.leb_le 0 c)), (proj2 (Z.ltb_lt c 128)) by lia.
Qed.

(** On hexadecimal hashes the comparison is equality. *)
Lemma timingSafeEqual_hex a b :
  Forall (λ c, is_hex c = true) a → Forall (λ c, is_hex c = true) b →
  timingSafeEqual a b = true ↔ a = b.
Proof.
  intros Ha Hb. apply hex_ascii in Ha as [Ha Ha']. apply hex_ascii in Hb as [Hb Hb'].
  rewrite timingSafeEqual_spec by done. by rewrite !utf8_ascii.
Qed.

(** Every character of the charset is the image of exactly eight byte values. *)
Lemma recovery_unbiased c :
  c ∈ RECOVERY_CHARSET → length (filter (λ b, recovery_char b = c) (seqZ 0 256)) = 8%nat.
Proof.
  intros Hc. assert (Hall : Forall (λ c, length (filter (λ b, recovery_char b = c) (seqZ 0 256)) = 8%nat) RECOVERY_CHARSET)
    by (apply (bool_decide_unpack _); by vm_compute).
  rewrite Forall_forall in Hall. by apply Hall.
Qed.

Module CryptoSpec.

(** Recovery keys are four groups of eight characters of the charset joined
    by dashes, each the character of its random byte, and the choice is unbiased:
    exactly eight of the 256 byte values give each character. *)
Theorem recovery_key_shape bs :
  length bs = 32%nat →
  generateRecoveryKey (λ _, bs) =
    join_unit (js "-") (map (map recovery_char) [slice bs 0 8; slice bs 8 16; slice bs 16 24; slice bs 24 32]) ∧
  ∀ c, c ∈ RECOVERY_CHARSET → length (filter (λ b, recovery_char b = c) (seqZ 0 256)) = 8%nat.
Proof.
  intros Hl. split; [|apply recovery_unbiased].
  do 32 (destruct bs as [|? bs]; [discriminate Hl|]). destruct bs; [|discriminate Hl].
  cbv -[recovery_char]. reflexivity.
Qed.

Lemma recovery_key_shape_witness :
  generateRecoveryKey (λ _, seqZ 0 32) =
    join_unit (js "-") (map (map recovery_char) [slice (seqZ 0 32) 0 8; slice (seqZ 0 32) 8 16; slice (seqZ 0 32) 16 24; slice (seqZ 0 32) 24 32]).
Proof. apply (recovery_key_shape (seqZ 0 32)). by vm_compute. Defined.

End CryptoSpec.
