(* ===== verification/CardUtils.v ===== *)
(** * Payment cards and password scores
    ([web/src/utils/cardUtils.ts], [web/src/utils/passwordStrength.ts],
    the integer part of [web/src/utils/passwordEntropy.ts])

    BIN detection, grouping and masking of card numbers, the Luhn check, and the
    strength score shown for passwords. *)
From S2P Require Import Prelude JsRuntime JsText.

(** ** Card networks *)

Record CardNetwork := mkNetwork {
  n_id : jsstr; n_label : jsstr; bgColor : jsstr; textColor : jsstr;
  lengths : list Z; cvvLength : Z; format : list nat }.

Definition visa := mkNetwork (js "visa") (js "VISA") (js "#1a1aff") (js "#fff") [13; 16] 3 [4; 4; 4; 4]%nat.
Definition mastercard :=
  mkNetwork (js "mastercard") (js "MASTERCARD") (js "#eb001b") (js "#fff") [16] 3 [4; 4; 4; 4]%nat.
Definition amex := mkNetwork (js "amex") (js "AMEX") (js "#2d7dd2") (js "#fff") [15] 4 [4; 6; 5]%nat.
Definition discover :=
  mkNetwork (js "discover") (js "DISCOVER") (js "#f97316") (js "#fff") [16] 3 [4; 4; 4; 4]%nat.
Definition jcb :=
  mkNetwork (js "jcb") (js "JCB") (js "#10b981") (js "#fff") [16; 17; 18; 19] 3 [4; 4; 4; 4]%nat.
Definition diners := mkNetwork (js "diners") (js "DINERS") (js "#6366f1") (js "#fff") [14] 3 [4; 6; 4]%nat.
Definition unionpay :=
  mkNetwork (js "unionpay") (js "UNIONPAY") (js "#f59e0b") (js "#fff") [16; 17; 18; 19] 3 [4; 4; 4; 4]%nat.
Definition maestro :=
  mkNetwork (js "maestro") (js "MAESTRO") (js "#ec4899") (js "#fff") [12; 13; 14; 15; 16; 17; 18; 19] 3
    [4; 4; 4; 4]%nat.
Definition rupay := mkNetwork (js "rupay") (js "RUPAY") (js "#8b5cf6") (js "#fff") [16] 3 [4; 4; 4; 4]%nat.

Definition NETWORKS : list CardNetwork :=
  [visa; mastercard; amex; discover; jcb; diners; unionpay; maestro; rupay].

(** [d.length >= n ? parseInt(d.substring(0, n), 10) : -1] on digits. *)
Definition prefix_num (n : nat) (d : jsstr) : Z :=
  if Z.of_nat n <=? len d then dec_value (take n d) else -1.

Definition between (lo x hi : Z) : bool := (lo <=? x) && (x <=? hi).

Definition detectCardNetwork (rawPan : jsstr) : option CardNetwork :=
  let d := digits_only rawPan in
  if str_empty d then None else
  let p2 := prefix_num 2 d in
  let p3 := prefix_num 3 d in
  let p4 := prefix_num 4 d in
  let p6 := prefix_num 6 d in
  if (p2 =? 34) || (p2 =? 37) then Some amex
  else if between 3528 p4 3589 then Some jcb
  else if between 300 p3 305 || (p2 =? 36) || (p2 =? 38) || (p2 =? 39) then Some diners
  else if starts_with [52] d then Some visa
  else if between 51 p2 55 || between 2221 p4 2720 then Some mastercard
  else if (p4 =? 6011) || between 622126 p6 622925 || between 644 p3 649 || (p2 =? 65) then Some discover
  else if p2 =? 62 then Some unionpay
  else if (p3 =? 508) || (p2 =? 81) || (p2 =? 82) then Some rupay
  else if (p2 =? 50) || between 56 p2 69 then Some maestro
  else None.

(** ** Formatting *)

(** The loop of [formatPan]: a chunk per group until the digits run out. *)
Fixpoint pan_chunks (groups : list nat) (digits : jsstr) : list jsstr :=
  match groups with
  | [] => []
  | n :: gs =>
      let chunk := take n digits in
      if str_empty chunk then [] else chunk :: pan_chunks gs (drop n digits)
  end.

Definition formatPan (digits : jsstr) (network : option CardNetwork) : jsstr :=
  let groups := match network with Some n => format n | None => [4; 4; 4; 4]%nat end in
  join_unit [32] (pan_chunks groups digits).

Definition maskPan (digits : jsstr) (unhideCount : Z) : jsstr :=
  if str_empty digits then []
  else
    let visibleStart := Z.to_nat (Z.max 0 (len digits - unhideCount)) in
    formatPan (replicate visibleStart 88 ++ drop visibleStart digits) None.

Section config.
Context (PAN_MAX_LENGTH : Z).

Definition maxPanLength (network : option CardNetwork) : Z :=
  match network with None => PAN_MAX_LENGTH | Some n => foldr Z.max 0 (lengths n) end.

Definition isPanComplete (rawDigits : jsstr) (network : option CardNetwork) : bool :=
  let l := len (digits_only rawDigits) in
  match network with None => l =? PAN_MAX_LENGTH | Some n => existsb (Z.eqb l) (lengths n) end.
End config.

(** ** Luhn *)

Definition luhn_digit (isEven : bool) (c : Z) : Z :=
  let digit := c - 48 in
  if isEven then let d := digit * 2 in if d >? 9 then d - 9 else d else digit.

(** The loop from the last digit to the first. *)
Fixpoint luhn_loop (isEven : bool) (rd : jsstr) (sum : Z) : Z :=
  match rd with
  | [] => sum
  | c :: rd' => luhn_loop (negb isEven) rd' (sum + luhn_digit isEven c)
  end.

Definition luhnCheck (rawDigits : jsstr) : bool :=
  let d := digits_only rawDigits in
  if str_empty d || (len d <? 2) then false
  else luhn_loop false (reverse d) 0 mod 10 =? 0.

(** ** The card number field ([web/src/pages/AddCredential.tsx], lines 1186-1203) *)

Section field.
Context (PAN_MAX_LENGTH : Z).

(** What the focused input shows for the stored number. *)
Definition shown_pan (cardNumber : jsstr) : jsstr :=
  if str_empty cardNumber then [] else formatPan cardNumber None.

(** [onChange]: the stored number and the Luhn error ([None] is [null]). *)
Definition pan_onChange (value : jsstr) : jsstr * option bool :=
  let raw := digits_only value in
  let net := detectCardNetwork raw in
  let trimmed := slice0 (maxPanLength PAN_MAX_LENGTH net) raw in
  (trimmed, if isPanComplete PAN_MAX_LENGTH trimmed net then Some (negb (luhnCheck trimmed)) else None).

(** Typing a character at the end of the shown text, and a whole string. *)
Definition type_char (cardNumber : jsstr) (c : Z) : jsstr := (pan_onChange (shown_pan cardNumber ++ [c])).1.
Definition type_all (s : jsstr) : jsstr := fold_left type_char s [].
End field.

(** ** Password score *)

Definition hasUpper (pwd : jsstr) : bool := existsb is_upper pwd.
Definition hasLower (pwd : jsstr) : bool := existsb is_lower pwd.
Definition hasNumber (pwd : jsstr) : bool := existsb is_digit pwd.
Definition hasSpecial (pwd : jsstr) : bool :=
  existsb (λ c, negb (is_upper c || is_lower c || is_digit c)) pwd.

Definition passwordScore (pwd : jsstr) : Z :=
  if str_empty pwd then 0 else
  let l := len pwd in
  let u := hasUpper pwd in
  let lo := hasLower pwd in
  let n := hasNumber pwd in
  let s := hasSpecial pwd in
  if (l >=? 16) && u && lo && n && s then 5
  else if (l >=? 12) && u && lo && n && s then 4
  else if (l >=? 8) && u && lo && n then 3
  else if (l >=? 6) && lo && n && negb s then 2
  else if (l >=? 4) && lo && negb u && negb s then 1
  else if (l >=? 1) && (l <=? 3) && negb u && negb n && negb s then 0
  else if l >=? 20 then 5
  else if l >=? 12 then 3
  else if l >=? 8 then 2
  else 1.

Definition scoreLabel (score : Z) : jsstr :=
  if score =? 0 then js "Very Weak" else if score =? 1 then js "Weak"
  else if score =? 2 then js "Medium" else if score =? 3 then js "Strong"
  else if score =? 4 then js "Very Strong" else if score =? 5 then js "Excellent"
  else js "Unknown".

(** ** Character pool *)

Record CharsetOpts := mkCharset { uppercase : bool; lowercase : bool; numbers : bool; symbols : bool }.

Definition charsetSize (opts : CharsetOpts) : Z :=
  let n := 0 in
  let n := if uppercase opts then n + 26 else n in
  let n := if lowercase opts then n + 26 else n in
  let n := if numbers opts then n + 10 else n in
  let n := if symbols opts then n + 30 else n in
  if n =? 0 then 1 else n.

(** * Theorems on cards and password scores *)

(** ** Digit strings *)

Definition Digits (s : jsstr) : Prop := Forall (λ c, is_digit c = true) s.

Lemma digits_only_id s : Digits s → digits_only s = s.
Proof. induction 1 as [|c s Hc _ IH]; [done|]. unfold digits_only in *. simpl. by rewrite Hc, IH. Qed.

Lemma digits_only_Digits s : Digits (digits_only s).
Proof.
  induction s as [|c s IH]; [constructor|]. unfold digits_only in *. simpl.
  destruct (is_digit c) eqn:E; [by constructor|done].
Qed.

Lemma digits_only_app s t : digits_only (s ++ t) = digits_only s ++ digits_only t.
Proof. apply List.filter_app. Qed.

Lemma Digits_take n s : Digits s → Digits (take n s).
Proof. apply Forall_take. Qed.

(** ** Luhn *)

Definition luhn_sum (e : bool) (l : jsstr) : Z := luhn_loop e l 0.

Lemma luhn_loop_sum e l s : luhn_loop e l s = s + luhn_sum e l.
Proof.
  unfold luhn_sum. revert e s. induction l as [|c l IH]; intros e s; simpl; [lia|].
  rewrite IH, (IH _ (0 + _)). lia.
Qed.

Lemma luhn_sum_cons e c l : luhn_sum e (c :: l) = luhn_digit e c + luhn_sum (negb e) l.
Proof. unfold luhn_sum. simpl. rewrite luhn_loop_sum. unfold luhn_sum. lia. Qed.

(** The parity after a prefix. *)
Definition parity_after (e : bool) (l : jsstr) : bool := xorb e (Nat.odd (length l)).

Lemma luhn_sum_app e l k : luhn_sum e (l ++ k) = luhn_sum e l + luhn_sum (parity_after e l) k.
Proof.
  revert e. induction l as [|c l IH]; intros e.
  - unfold parity_after. simpl. rewrite xorb_false_r. done.
  - cbn [app]. rewrite !luhn_sum_cons, IH.
    assert (parity_after (negb e) l = parity_after e (c :: l)) as ->; [|lia].
    unfold parity_after. cbn [length]. rewrite Nat.odd_succ, <- Nat.negb_odd.
    by destruct e, (Nat.odd (length l)).
Qed.

Lemma is_digit_cases c : is_digit c = true →
  c = 48 ∨ c = 49 ∨ c = 50 ∨ c = 51 ∨ c = 52 ∨ c = 53 ∨ c = 54 ∨ c = 55 ∨ c = 56 ∨ c = 57.
Proof. unfold is_digit. intros H. to_prop. lia. Qed.

Lemma luhn_digit_eq e c :
  is_digit c = true → luhn_digit e c = if e then if c <? 53 then 2 * (c - 48) else 2 * (c - 48) - 9 else c - 48.
Proof.
  unfold luhn_digit, is_digit. intros H. to_prop. destruct e; [|done].
  rewrite Z.gtb_ltb. destruct (Z.ltb_spec c 53), (Z.ltb_spec 9 ((c - 48) * 2)); lia.
Qed.

Lemma luhn_digit_inj e x y :
  is_digit x = true → is_digit y = true → (luhn_digit e x - luhn_digit e y) mod 10 = 0 → x = y.
Proof.
  intros Hx Hy. rewrite !luhn_digit_eq by done. unfold is_digit in *. to_prop.
  destruct e; [|lia]. destruct (Z.ltb_spec x 53), (Z.ltb_spec y 53); lia.
Qed.

(** Two neighbours swapped keep the sum only for 0 and 9. *)
Lemma luhn_swap e x y :
  is_digit x = true → is_digit y = true →
  (luhn_digit e x + luhn_digit (negb e) y - (luhn_digit e y + luhn_digit (negb e) x)) mod 10 = 0 →
  x = y ∨ (x = 48 ∧ y = 57) ∨ (x = 57 ∧ y = 48).
Proof.
  intros Hx Hy. rewrite !luhn_digit_eq by done. unfold is_digit in *. to_prop.
  destruct e; cbn [negb]; destruct (Z.ltb_spec x 53), (Z.ltb_spec y 53); lia.
Qed.

Lemma luhnCheck_Digits d :
  Digits d → luhnCheck d = true ↔ 2 <= len d ∧ luhn_sum false (reverse d) mod 10 = 0.
Proof.
  intros Hd. unfold luhnCheck. rewrite digits_only_id by done. fold (luhn_sum false (reverse d)).
  destruct d as [|c d]; [by vm_compute; split; [|intros []]|]. cbn [str_empty orb].
  destruct (Z.ltb_spec (len (c :: d)) 2); rewrite ?Z.eqb_eq; [split; [done|lia]|]. tauto.
Qed.

(** ** Grouping *)

(** Text without spaces, such as digits and X. *)
Definition no_space (s : jsstr) : Prop := Forall (λ c, is_space c = false) s.

Lemma strip_spaces_id s : no_space s → strip_spaces s = s.
Proof. induction 1 as [|c s Hc _ IH]; [done|]. unfold strip_spaces in *. simpl. by rewrite Hc, IH. Qed.

Lemma strip_spaces_app s t : strip_spaces (s ++ t) = strip_spaces s ++ strip_spaces t.
Proof. apply List.filter_app. Qed.

Lemma strip_join l : strip_spaces (join_unit [32] l) = concat (map strip_spaces l).
Proof.
  induction l as [|s l IH]; [done|]. destruct l as [|s' l].
  - simpl. by rewrite app_nil_r.
  - change (join_unit [32] (s :: s' :: l)) with (s ++ 32 :: join_unit [32] (s' :: l)).
    rewrite strip_spaces_app. cbn [map concat]. f_equal. exact IH.
Qed.

Lemma pan_chunks_concat groups d :
  no_space d → Forall (λ n, n ≠ 0%nat) groups →
  concat (map strip_spaces (pan_chunks groups d)) = take (sum_list groups) d.
Proof.
  intros Hd Hg. revert d Hd. induction Hg as [|n gs Hn Hg IH]; intros d Hd; [done|].
  cbn [pan_chunks sum_list]. destruct (take n d) as [|c ch] eqn:E; cbn [str_empty].
  - destruct d as [|c d]; [by rewrite take_nil|]. destruct n; [done|discriminate].
  - rewrite <- E. cbn [map concat]. rewrite IH by (by apply Forall_drop).
    rewrite strip_spaces_id by (by apply Forall_take). by rewrite take_take_drop.
Qed.

(** What a formatted number still says of the digits. *)
Lemma strip_formatPan d net :
  no_space d → Forall (λ n, n ≠ 0%nat) (match net with Some n => format n | None => [4; 4; 4; 4]%nat end) →
  strip_spaces (formatPan d net) =
    take (sum_list (match net with Some n => format n | None => [4; 4; 4; 4]%nat end)) d.
Proof. intros. unfold formatPan. rewrite strip_join. by apply pan_chunks_concat. Qed.

Lemma strip_formatPan_None d : no_space d → strip_spaces (formatPan d None) = take 16 d.
Proof. intros. apply (strip_formatPan d None); [done|by repeat constructor]. Qed.

Lemma digit_no_space c : is_digit c = true → is_space c = false.
Proof. intros [->|[->|[->|[->|[->|[->|[->|[->|[->| ->]]]]]]]]]%is_digit_cases; done. Qed.

Lemma Digits_no_space d : Digits d → no_space d.
Proof. intros H. eapply Forall_impl; [exact H|]. intros. by apply digit_no_space. Qed.

Lemma digits_only_strip s : digits_only s = digits_only (strip_spaces s).
Proof.
  induction s as [|c s IH]; [done|]. unfold digits_only, strip_spaces in *. simpl.
  destruct (is_digit c) eqn:E.
  - rewrite (digit_no_space c E). simpl. by rewrite E, IH.
  - destruct (is_space c); simpl; rewrite ?E; done.
Qed.

(** ** Typing a number *)

Lemma digits_shown d : Digits d → digits_only (shown_pan d) = take 16 d.
Proof.
  intros Hd. unfold shown_pan. destruct d as [|c d]; [done|]. cbn [str_empty].
  rewrite digits_only_strip, strip_formatPan_None by (by apply Digits_no_space).
  by apply digits_only_id, Digits_take.
Qed.

Lemma type_char_eq M d c :
  Digits d →
  let raw := take 16 d ++ digits_only [c] in
  type_char M d c = slice0 (maxPanLength M (detectCardNetwork raw)) raw.
Proof.
  intros Hd. unfold type_char, pan_onChange. cbn [fst].
  by rewrite digits_only_app, digits_shown.
Qed.

Lemma type_char_Digits M d c : Digits d → Digits (type_char M d c).
Proof.
  intros Hd. rewrite type_char_eq by done. unfold slice0. apply Digits_take, Forall_app.
  split; [by apply Digits_take|apply digits_only_Digits].
Qed.

Lemma type_char_len M d c : Digits d → len (type_char M d c) <= 17.
Proof.
  intros Hd. rewrite type_char_eq by done. unfold slice0, len. rewrite length_take, length_app, length_take.
  assert (length (digits_only [c]) <= 1)%nat; [|lia].
  unfold digits_only. simpl. destruct (is_digit c); simpl; lia.
Qed.

Lemma type_all_snoc M s c : type_all M (s ++ [c]) = type_char M (type_all M s) c.
Proof. unfold type_all. by rewrite fold_left_app. Qed.

Lemma type_all_Digits M s : Digits (type_all M s).
Proof.
  induction s as [|c s IH] using rev_ind; [constructor|]. rewrite type_all_snoc. by apply type_char_Digits.
Qed.

(** Every network accepts at least twelve digits. *)
Lemma network_max d n : detectCardNetwork d = Some n → 14 <= maxPanLength 0 (Some n).
Proof. unfold detectCardNetwork. repeat case_if; intros H; inversion H; by vm_compute. Qed.

Module CardSpec.

(** The Luhn check catches every single wrong digit: of two numbers that
    differ in exactly one digit at most one passes. *)
Theorem luhn_single_error a b x y :
  Digits a → Digits b → is_digit x = true → is_digit y = true → x ≠ y →
  luhnCheck (a ++ x :: b) = true → luhnCheck (a ++ y :: b) = false.
Proof.
  intros Ha Hb Hx Hy Hne H1. apply not_true_iff_false. intros H2.
  assert (∀ z, is_digit z = true → Digits (a ++ z :: b)) as HD
    by (intros; apply Forall_app; split; [done|by constructor]).
  apply luhnCheck_Digits in H1 as [_ H1]; [|by apply HD].
  apply luhnCheck_Digits in H2 as [_ H2]; [|by apply HD].
  rewrite reverse_app, reverse_cons, <- app_assoc in H1, H2. cbn [app] in H1, H2.
  rewrite luhn_sum_app, luhn_sum_cons in H1, H2.
  apply Hne, (luhn_digit_inj (parity_after false (reverse b))); try done. lia.
Qed.

(** It also catches every swap of two different neighbouring digits, except
    0 and 9. *)
Theorem luhn_transposition a b x y :
  Digits a → Digits b → is_digit x = true → is_digit y = true →
  x ≠ y → ¬ (x = 48 ∧ y = 57) → ¬ (x = 57 ∧ y = 48) →
  luhnCheck (a ++ x :: y :: b) = true → luhnCheck (a ++ y :: x :: b) = false.
Proof.
  intros Ha Hb Hx Hy Hne H09 H90 H1. apply not_true_iff_false. intros H2.
  assert (∀ z w, is_digit z = true → is_digit w = true → Digits (a ++ z :: w :: b)) as HD
    by (intros; apply Forall_app; split; [done|by repeat constructor]).
  apply luhnCheck_Digits in H1 as [_ H1]; [|by apply HD].
  apply luhnCheck_Digits in H2 as [_ H2]; [|by apply HD].
  rewrite reverse_app, !reverse_cons, <- !app_assoc in H1, H2. cbn [app] in H1, H2.
  rewrite luhn_sum_app, !luhn_sum_cons in H1, H2.
  destruct (luhn_swap (parity_after false (reverse b)) y x) as [?|[?|?]]; try done; [lia|tauto|tauto].
Qed.

Lemma luhn_single_error_witness : luhnCheck (js "4111111111111112") = false.
Proof. apply (luhn_single_error (js "411111111111111") [] 49 50); try done; by repeat constructor. Defined.

Lemma luhn_transposition_witness : luhnCheck (js "1818") = true ∧ luhnCheck (js "1881") = false.
Proof.
  split; [by vm_compute|].
  apply (luhn_transposition (js "18") [] 49 56); try done; [by repeat constructor|by constructor|lia..].
Defined.

(** The masked view shows no digit but the last [unhideCount] ones: the
    visible text without its spaces is X for every hidden digit followed by the
    last digits, cut after sixteen characters. *)
Theorem maskPan_hides d k :
  Digits d → 0 <= k <= len d →
  strip_spaces (maskPan d k) =
    take 16 (replicate (Z.to_nat (len d - k)) 88 ++ drop (Z.to_nat (len d - k)) d) ∧
  len (digits_only (maskPan d k)) <= k.
Proof.
  intros Hd Hk. unfold maskPan. destruct d as [|c d].
  { assert (k = 0) as -> by (unfold len in Hk; simpl in Hk; lia). by vm_compute. }
  cbn [str_empty]. rewrite Z.max_r by lia. set (n := Z.to_nat (len (c :: d) - k)).
  assert (Hns : no_space (replicate n 88 ++ drop n (c :: d))).
  { apply Forall_app; split; [by apply Forall_replicate|]. by apply Forall_drop, Digits_no_space. }
  rewrite digits_only_strip, strip_formatPan_None by done. split; [done|].
  rewrite take_app, digits_only_app, take_replicate.
  assert (Hx' : ∀ m, digits_only (replicate m 88) = []) by (intros m; induction m as [|m IH]; [done|exact IH]).
  rewrite Hx'. cbn [app]. rewrite digits_only_id by (by apply Digits_take, Forall_drop).
  unfold len. rewrite length_take, length_drop. unfold n, len in *. lia.
Qed.

(** Card numbers of more than seventeen digits cannot be typed.  The field
    shows sixteen digits of what is stored, so whatever is typed into the empty
    field, the stored number never has more than seventeen digits, although
    JCB, UnionPay and Maestro numbers have up to nineteen. *)
Theorem typed_pan_bound M s : len (type_all M s) <= 17.
Proof.
  induction s as [|c s _] using rev_ind; [by vm_compute|]. rewrite type_all_snoc.
  apply type_char_len, type_all_Digits.
Qed.

(** The password score lies between 0 and 5, and 4 and 5 are reserved for
    passwords of at least twelve characters. *)
Theorem passwordScore_range pwd :
  0 <= passwordScore pwd <= 5 ∧ (4 <= passwordScore pwd → 12 <= len pwd).
Proof.
  unfold passwordScore. destruct pwd as [|c s]; [simpl; lia|]. cbn [str_empty].
  generalize (len (c :: s)). intros l. repeat (case_if; [to_prop; lia|]). lia.
Qed.

(** Length alone gives no credit to lower-case passwords: a password of
    lower-case letters and digits scores at most 2, however long it is. *)
Theorem passwordScore_lowercase_cap pwd :
  hasUpper pwd = false → hasSpecial pwd = false → hasLower pwd = true → passwordScore pwd <= 2.
Proof.
  intros Hu Hs Hl. unfold passwordScore. destruct pwd as [|c s]; [simpl; lia|]. cbn [str_empty].
  rewrite Hu, Hs, Hl, !andb_false_r. cbn [andb negb]. rewrite !andb_true_r.
  pose proof (len_nonneg s). rewrite !Z.geb_leb, len_cons in *.
  destruct (hasNumber (c :: s)); cbn [andb negb]; rewrite ?andb_true_r, ?andb_false_r; repeat case_if; to_prop; lia.
Qed.

Lemma maskPan_hides_witness :
  maskPan (js "4111111111111767") 3 = js "XXXX XXXX XXXX X767" ∧
  len (digits_only (maskPan (js "4111111111111767") 3)) <= 3.
Proof.
  split; [by vm_compute|]. apply (maskPan_hides (js "4111111111111767") 3).
  - by repeat constructor.
  - by vm_compute.
Defined.

Lemma passwordScore_lowercase_cap_witness :
  passwordScore (js "correcthorsebatterystaplecorrect") <= 2 ∧ passwordScore (js "CORRECTHORSEBATTERYS") = 5.
Proof. split; [by apply passwordScore_lowercase_cap; vm_compute|by vm_compute]. Defined.

End CardSpec.
