(* ===== verification/PasswordHealth.v ===== *)
(** * Password health and breach lookup
    ([web/src/pages/VaultHealth.tsx], [web/src/utils/hibp.ts])

    The report on weak, reused and common passwords, and the lookup of a password
    in a range of breached hashes.  SHA-1 of the platform, the answer of the service
    and the list of common passwords are arguments. *)
From S2P Require Import Prelude JsRuntime JsText Base64 Types CardUtils.

(** ** The report *)

(** [((h << 5) + h) ^ c]: the sum is a number, [^] takes it back to 32 bits. *)
Definition djb2_step (h c : Z) : Z := bxor (shl h 5 + h) c.
(** [h >>> 0]; the hexadecimal text is one per number. *)
Definition djb2 (s : jsstr) : Z := shr (fold_left djb2_step s 5381) 0.

Record HealthEntry := mkHealth { he_credential : Credential; he_score : Z; he_isWeak : bool; he_isReused : bool; he_isCommon : bool }.

Definition password_of (c : Credential) : jsstr := or_empty (c_password c).
Definition withPasswords (l : list Credential) : list Credential := List.filter (λ c, negb (str_empty (password_of c))) l.

Definition count_hashes (l : list Credential) : gmap Z Z :=
  fold_left (λ m c, let key := djb2 (password_of c) in <[key := default 0 (m !! key) + 1]> m) l ∅.

Definition health_entry (common : jsstr → bool) (hashCounts : gmap Z Z) (c : Credential) : HealthEntry :=
  let p := password_of c in
  let score := passwordScore p in
  mkHealth c score (score <=? 1) (default 1 (hashCounts !! djb2 p) >? 1) (common p).

Definition health_entries (common : jsstr → bool) (l : list Credential) : list HealthEntry :=
  let ps := withPasswords l in map (health_entry common (count_hashes ps)) ps.

Definition issueEntries (es : list HealthEntry) : list HealthEntry :=
  List.filter (λ e, he_isWeak e || he_isReused e || he_isCommon e) es.

(** ** Breach lookup *)

Definition hex_upper (b : Z) : jsstr := map ascii_upper_unit (hex_byte b).
Definition bufToHex (bs : bytes) : jsstr := concat (map hex_upper bs).

Section hibp.
Context (sha1 : bytes → bytes).

Definition hash_of (password : jsstr) : jsstr := bufToHex (sha1 (utf8_encode password)).
(** What is sent, and what is looked for in the answer. *)
Definition hibp_prefix (password : jsstr) : jsstr := take 5 (hash_of password).
Definition hibp_suffix (password : jsstr) : jsstr := drop 5 (hash_of password).

(** [body.split('\r\n')] *)
Fixpoint split_crlf (s : jsstr) : list jsstr :=
  match s with
  | [] => [[]]
  | c :: s' =>
      match s' with
      | d :: rest => if (c =? 13) && (d =? 10) then [] :: split_crlf rest
                     else match split_crlf s' with l :: ls => (c :: l) :: ls | [] => [[c]] end
      | [] => [[c]]
      end
  end.

(** [line.slice(0, i)] and [line.slice(i + 1)] at the first colon. *)
Fixpoint at_colon (s : jsstr) : option (jsstr * jsstr) :=
  match s with
  | [] => None
  | c :: s => if c =? 58 then Some ([], s) else '(a, b) ← at_colon s; Some (c :: a, b)
  end.

Record HibpResult := mkHibp { pwned : bool; hits : Z }.

(** The loop over the lines. *)
Fixpoint search_lines (suffix : jsstr) (lines : list jsstr) : HibpResult :=
  match lines with
  | [] => mkHibp false 0
  | line :: lines =>
      match at_colon line with
      | Some (lineSuffix, rest) =>
          if str_eqb lineSuffix suffix then
            match parseInt10 rest with
            | Some n => if n >? 0 then mkHibp true n else search_lines suffix lines
            | None => search_lines suffix lines
            end
          else search_lines suffix lines
      | None => search_lines suffix lines
      end
  end.

(** [checkHibpPassword] with the answer to the request: its status and body. *)
Inductive HibpError := HibpStatus (status : Z) | HibpNetwork.
Definition checkHibpPassword (password : jsstr) (fetch : jsstr → result HibpError (Z * jsstr)) : result HibpError HibpResult :=
  '(status, body) ← fetch (hibp_prefix password);
  if (200 <=? status) && (status <=? 299) then Ok (search_lines (hibp_suffix password) (split_crlf body))
  else Throw (HibpStatus status).
End hibp.

(** * The health report and the breach lookup
    ([web/src/pages/VaultHealth.tsx], [web/src/utils/hibp.ts]) *)

(** ** Counting by hash *)

Lemma count_hashes_spec l k : default 0 (count_hashes l !! k) = len (List.filter (λ c, djb2 (password_of c) =? k) l).
Proof.
  unfold count_hashes. induction l as [|c l IH] using rev_ind; [done|]. rewrite fold_left_app, List.filter_app, len_app. cbn.
  destruct (Z.eqb_spec (djb2 (password_of c)) k) as [<-|Hk].
  - rewrite lookup_insert_eq. cbn. rewrite IH. done.
  - rewrite lookup_insert_ne by done. rewrite IH, len_nil. lia.
Qed.

Lemma entry_reused common l c : c ∈ withPasswords l →
  he_isReused (health_entry common (count_hashes (withPasswords l)) c) = true ↔
  1 < len (List.filter (λ x, djb2 (password_of x) =? djb2 (password_of c)) (withPasswords l)).
Proof.
  intros Hc. cbn. rewrite <- count_hashes_spec. destruct (count_hashes (withPasswords l) !! djb2 (password_of c)) as [n|] eqn:E; cbn; [lia|].
  assert (S := count_hashes_spec (withPasswords l) (djb2 (password_of c))). rewrite E in S. cbn in S.
  assert (Hin : In c (List.filter (λ x, djb2 (password_of x) =? djb2 (password_of c)) (withPasswords l))).
  { apply filter_In. split; [by apply list_elem_of_In|]. apply Z.eqb_refl. }
  destruct (List.filter _ _); [done|]. rewrite len_cons in S. assert (L := len_nonneg l0). lia.
Qed.

(** Two places of a list that satisfy a test. *)
Lemma filter_two {A} (f : A → bool) l i j x y :
  i ≠ j → l !! i = Some x → l !! j = Some y → f x = true → f y = true → 1 < len (List.filter f l).
Proof.
  revert i j. induction l as [|z l IH]; intros i j Hij Hi Hj Hx Hy; [done|].
  assert (One : ∀ k w, l !! k = Some w → f w = true → 0 < len (List.filter f l)).
  { intros k w Hk Hw. assert (In w (List.filter f l)) by (apply filter_In; split; [by eapply list_elem_of_In, list_elem_of_lookup_2|done]).
    destruct (List.filter f l); [done|]. rewrite len_cons. assert (L := len_nonneg l0). lia. }
  destruct i as [|i], j as [|j]; [done| | |].
  - injection Hi as ->. cbn. rewrite Hx, len_cons. specialize (One j y Hj Hy). lia.
  - injection Hj as ->. cbn. rewrite Hy, len_cons. specialize (One i x Hi Hx). lia.
  - cbn. assert (Hn : i ≠ j) by congruence. specialize (IH i j Hn Hi Hj Hx Hy). destruct (f z); [rewrite len_cons|]; lia.
Qed.

Lemma filter_more {A} (f : A → bool) l i x :
  1 < len (List.filter f l) → l !! i = Some x → ∃ j y, j ≠ i ∧ l !! j = Some y ∧ f y = true.
Proof.
  revert i. induction l as [|z l IH]; intros i Hn Hi; [done|]. destruct i as [|i].
  - assert (H1 : 0 < len (List.filter f l)) by (cbn in Hn; destruct (f z); [rewrite len_cons in Hn|]; lia).
    destruct (List.filter f l) as [|y k] eqn:E; [done|]. assert (Hy : In y (List.filter f l)) by (rewrite E; by left).
    apply filter_In in Hy as [Hy Hf]. apply list_elem_of_In, list_elem_of_lookup in Hy as [j Hj]. by exists (S j), y.
  - destruct (f z) eqn:Ef.
    + by exists 0%nat, z.
    + cbn in Hn. rewrite Ef in Hn. destruct (IH i Hn Hi) as (j & y & Hj & Hl & Hy). exists (S j), y. split; [congruence|done].
Qed.

(** ** Reading a range of hashes *)

Lemma split_crlf_clean s : 13 ∉ s → split_crlf s = [s].
Proof.
  induction s as [|c s IH]; [done|]. intros [Hc Hs]%not_elem_of_cons. cbn [split_crlf]. destruct s as [|d s]; [done|].
  destruct (Z.eqb_spec c 13); [congruence|]. cbn [andb]. by rewrite IH.
Qed.

Lemma split_crlf_app s t : 13 ∉ s → split_crlf (s ++ 13 :: 10 :: t) = s :: split_crlf t.
Proof.
  induction s as [|c s IH]; [done|]. intros [Hc Hs]%not_elem_of_cons. specialize (IH Hs). destruct s as [|d s].
  - cbn [Datatypes.app] in *. cbn [split_crlf] in *. destruct (Z.eqb_spec c 13); [congruence|]. done.
  - cbn [Datatypes.app] in *. change (split_crlf (c :: d :: s ++ 13 :: 10 :: t)) with
      (if (c =? 13) && (d =? 10) then [] :: split_crlf (s ++ 13 :: 10 :: t)
       else match split_crlf (d :: s ++ 13 :: 10 :: t) with l :: ls => (c :: l) :: ls | [] => [[c]] end).
    destruct (Z.eqb_spec c 13); [congruence|]. cbn [andb]. by rewrite IH.
Qed.

Fixpoint join_crlf (l : list jsstr) : jsstr :=
  match l with [] => [] | [s] => s | s :: l => s ++ 13 :: 10 :: join_crlf l end.

Lemma split_join_crlf s l : Forall (λ s, 13 ∉ s) (s :: l) → split_crlf (join_crlf (s :: l)) = s :: l.
Proof.
  revert s. induction l as [|t l IH]; intros s [Hs Hl]%Forall_cons; [by apply split_crlf_clean|].
  change (join_crlf (s :: t :: l)) with (s ++ 13 :: 10 :: join_crlf (t :: l)). by rewrite split_crlf_app, IH.
Qed.

Lemma at_colon_app s t : 58 ∉ s → at_colon (s ++ 58 :: t) = Some (s, t).
Proof.
  induction s as [|c s IH]; [done|]. intros [Hc Hs]%not_elem_of_cons. cbn. destruct (Z.eqb_spec c 58); [congruence|]. by rewrite IH.
Qed.

Lemma leading_digits_all s : Forall (λ c, is_digit c = true) s → leading_digits s = s.
Proof. induction 1 as [|c s Hc Hs IH]; [done|]. cbn. by rewrite Hc, IH. Qed.

Lemma digit_range c : is_digit c = true → 48 <= c <= 57.
Proof. unfold is_digit. lia. Qed.

Lemma parseInt10_dec n : 0 <= n → parseInt10 (dec n) = Some n.
Proof.
  intros Hn. unfold dec. destruct (Z.ltb_spec n 0); [lia|]. destruct (dec_nonneg_spec n Hn) as (Hv & Hd & Hne).
  destruct (dec_nonneg n) as [|c s] eqn:E; [done|]. assert (Hc : 48 <= c <= 57) by (inversion Hd; subst; by apply digit_range).
  assert (Hsp : is_space c = false) by (unfold is_space; cbn [existsb]; rewrite !orb_false_iff, andb_false_iff; lia).
  unfold parseInt10. cbn [trim_start]. rewrite Hsp.
  assert (Hp : parse_digits (c :: s) = Some n) by (unfold parse_digits; rewrite leading_digits_all, Hv by done; done).
  rewrite <- Hp. destruct (decide (c = 45)) as [->|]; [lia|]. destruct (decide (c = 43)) as [->|]; [lia|].
  destruct c as [|q|q]; try done. do 6 (try destruct q as [q|q|]; try done).
Qed.

(** One line of the answer. *)
Definition range_line (e : jsstr * Z) : jsstr := e.1 ++ js ":" ++ dec e.2.
Definition range_ok (e : jsstr * Z) : Prop := (13 ∉ e.1) ∧ (58 ∉ e.1) ∧ 0 <= e.2.

#[export] Instance range_ok_dec e : Decision (range_ok e).
Proof. unfold range_ok. apply _. Defined.

Lemma dec_no_cr n : 0 <= n → 13 ∉ dec n.
Proof.
  intros Hn. unfold dec. destruct (Z.ltb_spec n 0); [lia|]. destruct (dec_nonneg_spec n Hn) as (_ & Hd & _).
  intros Hin. rewrite Forall_forall in Hd. apply Hd, digit_range in Hin. lia.
Qed.

Lemma search_lines_spec suffix es :
  Forall range_ok es →
  search_lines suffix (map range_line es)
  = match List.find (λ e, str_eqb e.1 suffix && (e.2 >? 0)) es with Some e => mkHibp true e.2 | None => mkHibp false 0 end.
Proof.
  induction 1 as [|[s n] es (H1 & H2 & H3) Hes IH]; [done|]. cbn [map search_lines List.find fst snd].
  change (range_line (s, n)) with (s ++ 58 :: dec n). rewrite at_colon_app by done. cbn in H3.
  destruct (str_eqb s suffix); [|done]. rewrite parseInt10_dec by done. cbn [andb]. by destruct (n >? 0).
Qed.

Module Health.

(** The health report marks every password that another credential has too, and a
    marked password shares its hash with another one. *)
Theorem reused_reported common l i c :
  withPasswords l !! i = Some c →
  let e := health_entry common (count_hashes (withPasswords l)) c in
  health_entries common l !! i = Some e ∧
  ((∃ j x, j ≠ i ∧ withPasswords l !! j = Some x ∧ password_of x = password_of c) → he_isReused e = true) ∧
  (he_isReused e = true → ∃ j x, j ≠ i ∧ withPasswords l !! j = Some x ∧ djb2 (password_of x) = djb2 (password_of c)).
Proof.
  intros Hc e. assert (Hin : c ∈ withPasswords l) by (by eapply list_elem_of_lookup_2).
  split; [unfold health_entries; cbn; by rewrite (list_lookup_fmap _ _ i : map _ _ !! i = _), Hc|]. unfold e. rewrite entry_reused by done. split.
  - intros (j & x & Hj & Hx & Hp). eapply (filter_two _ _ j i x c Hj Hx Hc); [by rewrite Hp, Z.eqb_refl|apply Z.eqb_refl].
  - intros Hn. destruct (filter_more _ _ i c Hn Hc) as (j & x & Hj & Hx & Hf). exists j, x. split; [done|]. split; [done|]. by apply Z.eqb_eq.
Qed.

Definition pw (id p : string) : Credential :=
  basic_credential (IdString (js id)) [] [] [] (Some (js p)) [] [] [] [] None None None None.

Lemma reused_reported_witness :
  he_isReused (health_entry (λ _, false) (count_hashes (withPasswords [pw "1" "hunter2"; pw "2" "x"; pw "3" "hunter2"])) (pw "1" "hunter2")) = true.
Proof.
  apply (reused_reported (λ _, false) [pw "1" "hunter2"; pw "2" "x"; pw "3" "hunter2"] 0 (pw "1" "hunter2")); [by vm_compute|].
  by exists 2%nat, (pw "3" "hunter2").
Defined.

(** Two different random passwords with one hash: both are reported as reused. *)
Example collision_reported :
  map he_isReused (health_entries (λ _, false) [pw "1" "NprkpnJo5dth"; pw "2" "XpCG@CuwnwAd"; pw "3" "x"]) = [true; true; false].
Proof. by vm_compute. Qed.

(** For every well-formed answer of the range service the lookup reports a password
    as exposed exactly when its suffix is listed with a positive count, with that count. *)
Theorem hibp_lookup sha1 password fetch es status e0 :
  200 <= status <= 299 → Forall range_ok (e0 :: es) →
  fetch (hibp_prefix sha1 password) = Ok (status, join_crlf (map range_line (e0 :: es))) →
  checkHibpPassword sha1 password fetch
  = Ok (match List.find (λ e, str_eqb e.1 (hibp_suffix sha1 password) && (e.2 >? 0)) (e0 :: es) with
        | Some e => mkHibp true e.2
        | None => mkHibp false 0
        end).
Proof.
  intros Hs Hes Hf. unfold checkHibpPassword. rewrite Hf. cbn [mbind result_bind]. unfold result_bind.
  assert ((200 <=? status) && (status <=? 299) = true) as -> by lia. f_equal. cbn [map].
  rewrite split_join_crlf; [by apply (search_lines_spec _ (e0 :: es))|]. change (range_line e0 :: map range_line es) with (map range_line (e0 :: es)).
  apply Forall_map. eapply Forall_impl; [exact Hes|]. intros [s n] (H1 & _ & H3). unfold range_line. cbn [fst snd].
  apply not_elem_of_app. split; [done|]. apply not_elem_of_cons. split; [done|]. by apply dec_no_cr.
Qed.

Definition sha1_ab : bytes → bytes := λ _, replicate 20 171.
Definition range_of : list (jsstr * Z) := [(concat (replicate 17 (js "AB")) ++ js "C", 9); (js "B" ++ concat (replicate 17 (js "AB")), 12)].

Lemma hibp_lookup_witness :
  checkHibpPassword sha1_ab (js "hunter2") (λ prefix, if str_eqb prefix (js "ABABA") then Ok (200, join_crlf (map range_line range_of)) else Throw HibpNetwork)
  = Ok (mkHibp true 12).
Proof.
  erewrite (hibp_lookup sha1_ab (js "hunter2") _ (tail range_of) 200 (concat (replicate 17 (js "AB")) ++ js "C", 9)).
  - by vm_compute.
  - done.
  - refine (bool_decide_unpack (Forall range_ok range_of) _). by vm_compute.
  - by vm_compute.
Defined.
End Health.
