(* ===== verification/ClipboardGuard.v ===== *)
(** * The clipboard guard ([web/src/utils/clipboardGuard.ts])

    A copied secret is replaced after a countdown.  The clipboard and the guards
    that are alive are the state; the timer of a guard, its [cancel] and copies made
    elsewhere are the events, in any order.  [document.execCommand('copy')] may refuse
    or throw, which the code does not look at: every event that writes carries whether
    the browser [took] the write. *)
From S2P Require Import Prelude JsRuntime.

(** [clearWithExec] writes a zero-width space. *)
Definition CLEARED : jsstr := [0x200B].

(** [id] is set while the interval runs. *)
Record Guard := mkGuard { gd_text : jsstr; gd_remaining : Z; gd_cancelled : bool; gd_running : bool }.
Record Board := mkBoard { clipboard : jsstr; guards : list Guard }.

(** [execWrite(text)] *)
Definition execWrite (b : Board) (took : bool) (text : jsstr) : jsstr := if took then text else clipboard b.

Definition set_guard (b : Board) (i : nat) (g : Guard) (text : jsstr) : Board := mkBoard text (<[i := g]> (guards b)).

(** [secureClipboard(text, onTick, onDone, seconds)]; the new guard is the last one. *)
Definition secureClipboard (b : Board) (took : bool) (text : jsstr) (seconds : Z) : Board :=
  mkBoard (execWrite b took text) (guards b ++ [mkGuard text seconds false true]).

(** The callback of the interval of guard [i], if it still runs. *)
Definition tick (b : Board) (took : bool) (i : nat) : Board :=
  match guards b !! i with
  | None => b
  | Some g =>
      if negb (gd_running g) then b
      else if gd_cancelled g then set_guard b i (mkGuard (gd_text g) (gd_remaining g) true false) (clipboard b)
      else
        let remaining := gd_remaining g - 1 in
        if remaining <=? 0 then set_guard b i (mkGuard (gd_text g) remaining false false) (execWrite b took CLEARED)
        else set_guard b i (mkGuard (gd_text g) remaining false true) (clipboard b)
  end.

(** [cancel]: it also clears when the countdown has already ended. *)
Definition cancel (b : Board) (took : bool) (i : nat) : Board :=
  match guards b !! i with
  | None => b
  | Some g => if gd_cancelled g then b
              else set_guard b i (mkGuard (gd_text g) (gd_remaining g) true false) (execWrite b took CLEARED)
  end.

Inductive event :=
| Copy (took : bool) (text : jsstr) (seconds : Z) | Tick (took : bool) (i : nat) | Cancel (took : bool) (i : nat)
| Elsewhere (text : jsstr).

Definition step (b : Board) (e : event) : Board :=
  match e with
  | Copy took text seconds => secureClipboard b took text seconds
  | Tick took i => tick b took i
  | Cancel took i => cancel b took i
  | Elsewhere text => mkBoard text (guards b)
  end.

Definition run (es : list event) (b : Board) : Board := fold_left step es b.

(** ** A secret on the clipboard has a running countdown, or a clearing was refused *)

(** Texts that come onto the clipboard from elsewhere. *)
Definition elsewhere (es : list event) : list jsstr :=
  flat_map (λ e, match e with Elsewhere t => [t] | _ => [] end) es.

(** The browser refused a write of the timer or of [cancel]. *)
Definition refused (e : event) : bool := match e with Tick took _ | Cancel took _ => negb took | _ => false end.

(** A countdown that will clear [t]. *)
Definition countdown (b : Board) (t : jsstr) : Prop :=
  ∃ i g, guards b !! i = Some g ∧ gd_text g = t ∧ gd_running g = true ∧ gd_cancelled g = false.

Lemma set_guard_other b i g t j g' : guards b !! j = Some g' → i ≠ j → guards (set_guard b i g t) !! j = Some g'.
Proof. intros Hj Hn. cbn. by rewrite list_lookup_insert_ne. Qed.

Lemma set_guard_same b i g g0 t : guards b !! i = Some g0 → guards (set_guard b i g t) !! i = Some g.
Proof. intros Hi. cbn. rewrite list_lookup_insert_eq; [done|]. by eapply lookup_lt_Some. Qed.

Lemma copy_guard b took text seconds :
  guards (secureClipboard b took text seconds) !! length (guards b) = Some (mkGuard text seconds false true).
Proof. cbn. rewrite lookup_app_r by lia. by rewrite Nat.sub_diag. Qed.

Lemma copy_countdown b took u s t : countdown b t → countdown (secureClipboard b took u s) t.
Proof.
  intros (j & g & Hj & Hg). exists j, g. split; [|done]. cbn. by rewrite lookup_app_l by (by eapply lookup_lt_Some).
Qed.

Lemma step_countdown b e t :
  t ≠ CLEARED → e ≠ Elsewhere t → (clipboard b = t → countdown b t) →
  clipboard (step b e) = t → countdown (step b e) t ∨ refused e = true.
Proof.
  intros Ht He Hb. destruct e as [took u s|took i|took i|u]; cbn [step refused].
  - intros Hc. left. destruct took; [|by apply copy_countdown, Hb]. cbn in Hc. subst u.
    eexists _, _. split; [apply copy_guard|done].
  - unfold tick. destruct (guards b !! i) as [g|] eqn:Ei; [|auto]. destruct (gd_running g) eqn:Er; [|auto]. cbn [negb].
    destruct (gd_cancelled g) eqn:Ec; [|destruct (gd_remaining g - 1 <=? 0)]; cbn [clipboard set_guard]; intros Hc.
    + left. destruct (Hb Hc) as (j & h & Hj & Hjt & Hr & Hcn). exists j, h. split; [|done].
      apply set_guard_other; [done|]. intros ->. congruence.
    + destruct took; [cbn in Hc; congruence|by right].
    + left. destruct (Hb Hc) as (j & h & Hj & Hjt & Hr & Hcn). destruct (decide (i = j)) as [<-|Hn].
      * eexists i, _. split; [by eapply set_guard_same|]. cbn. split; [congruence|done].
      * exists j, h. split; [by apply set_guard_other|done].
  - unfold cancel. destruct (guards b !! i) as [g|] eqn:Ei; [|auto]. destruct (gd_cancelled g) eqn:Ec; [auto|].
    cbn [clipboard set_guard]. intros Hc. destruct took; [cbn in Hc; congruence|by right].
  - intros Hc. cbn in Hc. congruence.
Qed.

Lemma run_countdown es b t :
  t ≠ CLEARED → t ∉ elsewhere es → forallb (λ e, negb (refused e)) es = true → (clipboard b = t → countdown b t) →
  clipboard (run es b) = t → countdown (run es b) t.
Proof.
  intros Ht. revert b. induction es as [|e es IH]; intros b He Hr Hb; [done|]. cbn [run fold_left].
  cbn [forallb] in Hr. apply andb_prop in Hr as [Hr Hrs]. apply negb_true_iff in Hr.
  apply IH; [|done|].
  - intros Hin. apply He. unfold elsewhere. cbn. apply elem_of_app. by right.
  - intros Hc. destruct (step_countdown b e t) as [|?]; try done; [|congruence]. intros ->. apply He. by left.
Qed.

(** Events of guard [i]. *)
Definition about (i : nat) (e : event) : bool := match e with Tick _ j | Cancel _ j => (i =? j)%nat | _ => false end.
Definition ticks (i : nat) (es : list event) : Z := len (List.filter (λ e, match e with Tick _ j => (i =? j)%nat | _ => false end) es).
Definition cancels (i : nat) (es : list event) : bool := existsb (λ e, match e with Cancel _ j => (i =? j)%nat | _ => false end) es.

(** The browser took every write of guard [i]. *)
Definition all_took (i : nat) (es : list event) : Prop := Forall (λ e, about i e = true → refused e = false) es.

Lemma lookup_step b e i g : guards b !! i = Some g → about i e = false → guards (step b e) !! i = Some g.
Proof.
  intros Hi Ha. destruct e as [took text s|took j|took j|t]; cbn [step about] in *.
  - cbn. by rewrite lookup_app_l by (by eapply lookup_lt_Some).
  - apply Nat.eqb_neq in Ha. unfold tick. destruct (guards b !! j); [|done]. repeat case_match; try done; by apply set_guard_other.
  - apply Nat.eqb_neq in Ha. unfold cancel. destruct (guards b !! j); [|done]. repeat case_match; try done; by apply set_guard_other.
  - done.
Qed.

(** The text is not copied again, here or elsewhere. *)
Definition no_more (t : jsstr) (es : list event) : Prop :=
  Forall (λ e, match e with Copy _ u _ | Elsewhere u => u ≠ t | _ => True end) es.

Lemma step_not_text b e t :
  t ≠ CLEARED → match e with Copy _ u _ | Elsewhere u => u ≠ t | _ => True end → clipboard b ≠ t → clipboard (step b e) ≠ t.
Proof.
  intros Ht He Hb. destruct e as [took u s|took i|took i|u]; cbn [step]; [by destruct took| | |done].
  - unfold tick. destruct (guards b !! i) as [g|]; [|done]. destruct took; repeat case_match; cbn; congruence.
  - unfold cancel. destruct (guards b !! i) as [g|]; [|done]. destruct took; repeat case_match; cbn; congruence.
Qed.

Lemma run_not_text es b t : t ≠ CLEARED → no_more t es → clipboard b ≠ t → clipboard (run es b) ≠ t.
Proof.
  intros Ht Hes. revert b. induction Hes as [|e es He Hes IH]; intros b Hb; [done|]. apply IH. by apply step_not_text.
Qed.

Lemma ticks_cons i e es : ticks i (e :: es) = (match e with Tick _ j => if (i =? j)%nat then 1 else 0 | _ => 0 end) + ticks i es.
Proof. unfold ticks. cbn. destruct e as [|took j| |]; try done. destruct (i =? j)%nat; [by rewrite len_cons|done]. Qed.

Lemma guard_ends es b i g t :
  t ≠ CLEARED → no_more t es → all_took i es →
  guards b !! i = Some g → gd_running g = true → gd_cancelled g = false → 1 <= gd_remaining g →
  gd_remaining g <= ticks i es ∨ cancels i es = true → clipboard (run es b) ≠ t.
Proof.
  intros Ht Hes Hok. revert b g. induction Hes as [|e es He Hes IH]; intros b g Hi Hr Hc H1 Hend.
  { unfold ticks in Hend. cbn in Hend. rewrite len_nil in Hend. destruct Hend; [lia|done]. }
  apply Forall_cons in Hok as [Hoke Hok]. specialize (IH Hok).
  change (run (e :: es) b) with (run es (step b e)). destruct (about i e) eqn:Ha.
  - specialize (Hoke eq_refl). rewrite ticks_cons in Hend.
    destruct e as [|took j|took j|]; try done; cbn [about refused] in Ha, Hoke; apply Nat.eqb_eq in Ha as <-;
      apply negb_false_iff in Hoke as ->; cbn [step].
    + unfold tick. rewrite Hi, Hr, Hc. cbn [negb]. destruct (Z.leb_spec (gd_remaining g - 1) 0).
      * apply run_not_text; [done|done|]. cbn. congruence.
      * eapply IH; [by eapply set_guard_same|done|done|cbn; lia|]. cbn. rewrite Nat.eqb_refl in Hend.
        destruct Hend as [?|?]; [left; lia|by right].
    + unfold cancel. rewrite Hi, Hc. apply run_not_text; [done|done|]. cbn. congruence.
  - eapply IH; [by eapply lookup_step|done|done|done|]. rewrite ticks_cons in Hend.
    destruct e; cbn [about] in Ha; cbn [cancels existsb] in Hend; rewrite ?Ha in Hend; cbn [orb] in Hend;
      destruct Hend; auto; left; lia.
Qed.

(** A guard that is not running and not cancelled never writes by its timer. *)
Lemma ended_stays es b i g :
  Forall (λ e, ∃ took, e = Tick took i) es → guards b !! i = Some g → gd_running g = false → run es b = b.
Proof.
  intros Hes Hi Hr. induction Hes as [|e es [took ->] Hes IH]; [done|]. cbn [run fold_left step].
  assert (tick b took i = b) as -> by (unfold tick; by rewrite Hi, Hr). exact IH.
Qed.

(** A countdown all of whose writes are refused: it ends, and the clipboard is as it was. *)
Lemma refused_ticks i t n b r :
  guards b !! i = Some (mkGuard t r false true) → r = Z.of_nat n → 1 <= r →
  clipboard (run (replicate n (Tick false i)) b) = clipboard b ∧
  ∃ g, guards (run (replicate n (Tick false i)) b) !! i = Some g ∧ gd_running g = false.
Proof.
  revert b r. induction n as [|n IH]; intros b r Hg Hr H1; [lia|].
  change (run (replicate (S n) (Tick false i)) b) with (run (replicate n (Tick false i)) (tick b false i)).
  unfold tick. rewrite Hg. cbn [gd_running gd_cancelled gd_remaining gd_text negb].
  destruct (Z.leb_spec (r - 1) 0).
  - assert (n = 0%nat) as -> by lia. split; [done|]. eexists. split; [by eapply set_guard_same|done].
  - apply (IH (set_guard b i (mkGuard t (r - 1) false true) (clipboard b)) (r - 1)); [by eapply set_guard_same|lia|lia].
Qed.

Module Clipboard.

(** C40: what the guard promises and what it rests on.  When the browser takes the
    writes of its guard, a secret copied for some seconds is off the clipboard once
    the guard has ticked that often or was cancelled, if it is not copied again.  When
    no clearing was refused, then at any moment in which the secret is on the clipboard
    without having come from elsewhere, a countdown that will clear it is running.  But
    the result of the write is not looked at: a guard whose clearing is refused ends
    like any other, and its later ticks never try again, so that the secret stays. *)
Theorem secret_leaves_clipboard b took t seconds es :
  t ≠ CLEARED → 1 <= seconds →
  let i := length (guards b) in
  let b' := run es (secureClipboard b took t seconds) in
  (no_more t es → all_took i es → seconds <= ticks i es ∨ cancels i es = true → clipboard b' ≠ t) ∧
  (t ∉ elsewhere es → forallb (λ e, negb (refused e)) es = true → clipboard b' = t → countdown b' t) ∧
  (took = true → ∀ n, seconds = Z.of_nat n → ∀ more, Forall (λ e, ∃ took, e = Tick took i) more →
    clipboard (run (replicate n (Tick false i) ++ more) (secureClipboard b took t seconds)) = t).
Proof.
  intros Ht Hs i b'. assert (Hi := copy_guard b took t seconds). fold i in Hi. split_and!.
  - intros Hes Hok Hend. by eapply guard_ends.
  - intros Ho Hr. apply run_countdown; [done|done|done|]. intros _. eexists i, _. by split.
  - intros -> n Hn more Hmore. unfold run. rewrite fold_left_app.
    destruct (refused_ticks i t n _ seconds Hi Hn Hs) as (E & g & Hg & Hr).
    change (clipboard (run more (run (replicate n (Tick false i)) (secureClipboard b true t seconds))) = t).
    by rewrite (ended_stays more _ i g).
Qed.

Lemma secret_leaves_clipboard_witness :
  let b' := run [Tick true 0; Elsewhere (js "note"); Tick true 0] (secureClipboard (mkBoard [] []) true (js "hunter2") 2) in
  clipboard b' ≠ js "hunter2" ∧
  clipboard (run (replicate 2 (Tick false 0) ++ [Tick true 0; Tick true 0])
    (secureClipboard (mkBoard [] []) true (js "hunter2") 2)) = js "hunter2".
Proof.
  destruct (secret_leaves_clipboard (mkBoard [] []) true (js "hunter2") 2 [Tick true 0; Elsewhere (js "note"); Tick true 0])
    as (H1 & _ & H3); [done|done|]. split.
  - apply H1; [by repeat constructor|by repeat constructor|]. left. by vm_compute.
  - apply (H3 eq_refl 2%nat eq_refl). repeat constructor; by eexists.
Defined.

(** A guard that has ended clears what was copied elsewhere when it is cancelled. *)
Example late_cancel :
  clipboard (run [Tick true 0; Elsewhere (js "note"); Cancel true 0] (secureClipboard (mkBoard [] []) true (js "hunter2") 1)) = CLEARED.
Proof. done. Qed.
End Clipboard.
