(* ===== verification/Generator.v ===== *)
(** * The password generators
    ([web/src/pages/PasswordGenerator.tsx], [web/src/pages/AddCredential.tsx])

    [secureRandInt] draws 32-bit words from [crypto.getRandomValues] and rejects
    those that would bias the remainder.  A generator is a function of the words
    the platform will deliver, in order; [None] means that these words are used up
    while the loop is still drawing.  The list of words is an argument: it is the
    fallback list of the page or the file loaded later. *)
From S2P Require Import Prelude JsRuntime JsText Base64 Types CardUtils.

(** ** Drawing *)

Definition gen (A : Type) : Type := list Z → option (A * list Z).
#[export] Instance gen_ret : MRet gen := λ A a ws, Some (a, ws).
#[export] Instance gen_bind : MBind gen := λ A B f m ws, '(a, ws) ← m ws; f a ws.

(** [0x100000000 - (0x100000000 % max)] *)
Definition limit (max : Z) : Z := 0x100000000 - 0x100000000 mod max.

(** The loop of [secureRandInt]; [max] is positive at every call. *)
Fixpoint secureRandInt (max : Z) (ws : list Z) : option (Z * list Z) :=
  match ws with
  | [] => None
  | val :: ws => if limit max <=? val then secureRandInt max ws else Some (val mod max, ws)
  end.

(** [s[i]] with an index in range. *)
Definition unit_at (s : jsstr) (i : Z) : Z := nth (Z.to_nat i) s 0.
Definition word_at (l : list jsstr) (i : Z) : jsstr := nth (Z.to_nat i) l [].

(** ** Random characters *)

Definition UPPERCASE : jsstr := js "ABCDEFGHIJKLMNOPQRSTUVWXYZ".
Definition LOWERCASE : jsstr := js "abcdefghijklmnopqrstuvwxyz".
Definition NUMBERS : jsstr := js "0123456789".
Definition SYMBOLS : jsstr := js "!@#$%^&*()_+~`|}{[]:;?><,./-=".

Definition charset (o : CharsetOpts) : jsstr :=
  (if uppercase o then UPPERCASE else []) ++ (if lowercase o then LOWERCASE else [])
  ++ (if numbers o then NUMBERS else []) ++ (if symbols o then SYMBOLS else []).

(** The loop [for (let i = 0; i < length; i++)]. *)
Fixpoint random_chars (cs : jsstr) (n : nat) : gen jsstr :=
  match n with
  | O => mret []
  | S n => i ← secureRandInt (len cs) : gen Z; rest ← random_chars cs n; mret (unit_at cs i :: rest)
  end.

(** ** Passphrases *)

Definition WORD_LIST_FALLBACK : list jsstr :=
  map js ["Bridge"; "Castle"; "Dragon"; "Eagle"; "Falcon"; "Giant"; "Horse"; "Island"; "Knight"; "Lion";
          "Mountain"; "River"; "Ocean"; "Forest"; "Desert"; "Stone"; "Fire"; "Water"; "Earth"; "Gold"]%string.

Definition PHRASE_SYMBOLS : jsstr := js "!@#$%&*?".

(** [.replace(/i/g, '!').replace(/o/g, '0').replace(/l/g, '1')] *)
Definition leet_unit (c : Z) : Z := if c =? 105 then 33 else if c =? 111 then 48 else if c =? 108 then 49 else c.

Section phrases.
Context {JC : JsCase}.

(** [w.charAt(0).toUpperCase() + w.slice(1).toLowerCase()] *)
Definition capitalize (w : jsstr) : jsstr := toUpperCase (take 1 w) ++ toLowerCase (drop 1 w).

(** [if (i === numIdx) w += secureRandInt(10)] *)
Definition add_digit (numIdx i : Z) (w : jsstr) : gen jsstr :=
  if i =? numIdx then d ← secureRandInt 10 : gen Z; mret (w ++ dec d) else mret w.

(** The words of the generator page, from index [i] on. *)
Fixpoint page_words (wordList : list jsstr) (numIdx i : Z) (n : nat) : gen (list jsstr) :=
  match n with
  | O => mret []
  | S n =>
      k ← secureRandInt (len wordList) : gen Z;
      w ← add_digit numIdx i (capitalize (word_at wordList k));
      rest ← page_words wordList numIdx (i + 1) n;
      mret (w :: rest)
  end.

(** The words of the credential form: with symbols, six in ten are rewritten. *)
Fixpoint form_words (wordList : list jsstr) (includeSymbols : bool) (numIdx i : Z) (n : nat) : gen (list jsstr) :=
  match n with
  | O => mret []
  | S n =>
      k ← secureRandInt (len wordList) : gen Z;
      w ← add_digit numIdx i (capitalize (word_at wordList k));
      w ← (if includeSymbols then r ← secureRandInt 10 : gen Z; mret (if r >? 3 then map leet_unit w else w)
           else mret w) : gen jsstr;
      rest ← form_words wordList includeSymbols numIdx (i + 1) n;
      mret (w :: rest)
  end.

Record GenSettings := mkGen {
  g_isPassphrase : bool; g_length : Z; g_wordCount : Z; g_include : CharsetOpts }.

(** The state both pages start with. *)
Definition gen_defaults : GenSettings := mkGen false 24 6 (mkCharset true true true true).

(** The symbol of a passphrase: the page draws its side first, the form the symbol. *)
Definition page_symbol (includeSymbols : bool) (result : jsstr) : gen jsstr :=
  if includeSymbols then
    side ← secureRandInt 2 : gen Z;
    k ← secureRandInt (len PHRASE_SYMBOLS) : gen Z;
    mret (if side =? 0 then [unit_at PHRASE_SYMBOLS k] ++ result else result ++ [unit_at PHRASE_SYMBOLS k])
  else mret result.

Definition form_symbol (includeSymbols : bool) (result : jsstr) : gen jsstr :=
  if includeSymbols then
    k ← secureRandInt (len PHRASE_SYMBOLS) : gen Z;
    side ← secureRandInt 2 : gen Z;
    mret (if side =? 0 then [unit_at PHRASE_SYMBOLS k] ++ result else result ++ [unit_at PHRASE_SYMBOLS k])
  else mret result.

(** [generate] of the page: [None] as a value is the early return without any character class. *)
Definition generate (wordList : list jsstr) (s : GenSettings) : gen (option jsstr) :=
  if g_isPassphrase s then
    numIdx ← secureRandInt (g_wordCount s) : gen Z;
    words ← page_words wordList numIdx 0 (Z.to_nat (g_wordCount s));
    result ← page_symbol (symbols (g_include s)) (join_unit (js "-") words);
    mret (Some result)
  else if str_empty (charset (g_include s)) then mret None
  else result ← random_chars (charset (g_include s)) (Z.to_nat (g_length s)); mret (Some result).

(** [generatePassword] of the form. *)
Definition generatePassword (wordList : list jsstr) (s : GenSettings) : gen (option jsstr) :=
  if g_isPassphrase s then
    numberIndex ← secureRandInt (g_wordCount s) : gen Z;
    words ← form_words wordList (symbols (g_include s)) numberIndex 0 (Z.to_nat (g_wordCount s));
    result ← form_symbol (symbols (g_include s)) (join_unit (js "-") words);
    mret (Some result)
  else if str_empty (charset (g_include s)) then mret None
  else result ← random_chars (charset (g_include s)) (Z.to_nat (g_length s)); mret (Some result).
End phrases.

(** ** The state of the page *)

Record GenPage := mkGenPage { gp_password : jsstr; gp_history : list jsstr }.

(** [setHistory(prev => [result, ...prev.filter(p => p !== result)].slice(0, 5))] *)
Definition remember (result : jsstr) (prev : list jsstr) : list jsstr :=
  take 5 (result :: List.filter (λ p, negb (str_eqb p result)) prev).

Definition run_generate `{JsCase} (wordList : list jsstr) (s : GenSettings) (p : GenPage) : gen GenPage :=
  r ← generate wordList s;
  mret (match r with Some result => mkGenPage result (remember result (gp_history p)) | None => p end).

(** * The generators draw uniformly ([web/src/pages/PasswordGenerator.tsx],
      [web/src/pages/AddCredential.tsx])

    The random password depends only on the words that are not rejected, and each
    password of the length asked for comes from the same number of word lists. *)

(** The words that are not rejected. *)
Definition accepted (max w : Z) : bool := negb (limit max <=? w).
Definition good (max : Z) (ws : list Z) : list Z := List.filter (accepted max) ws.
Definition pick (cs : jsstr) (w : Z) : Z := unit_at cs (w mod len cs).

(** ** One draw *)

Lemma limit_range max : 0 < max <= 2 ^ 32 → max <= limit max <= 2 ^ 32 ∧ 2 ^ 31 < limit max.
Proof.
  intros Hm. unfold limit. change 0x100000000 with (2 ^ 32) in *.
  assert (Hr := Z.mod_pos_bound (2 ^ 32) max ltac:(lia)). assert (Hd := Z.div_mod (2 ^ 32) max ltac:(lia)).
  assert (1 <= 2 ^ 32 / max) by (apply Z.div_le_lower_bound; lia). nia.
Qed.

(** [limit] is a multiple of [max]. *)
Lemma limit_div max : 0 < max → limit max = max * (2 ^ 32 / max).
Proof. intros. unfold limit. change 0x100000000 with (2 ^ 32). assert (Hd := Z.div_mod (2 ^ 32) max ltac:(lia)). lia. Qed.

Lemma good_cons max w ws : good max (w :: ws) = if limit max <=? w then good max ws else w :: good max ws.
Proof. unfold good, accepted. cbn. by destruct (limit max <=? w). Qed.

Lemma good_idem max ws : good max (good max ws) = good max ws.
Proof.
  induction ws as [|w ws IH]; [done|]. rewrite good_cons. destruct (limit max <=? w) eqn:E; [done|].
  by rewrite good_cons, E, IH.
Qed.

Lemma secureRandInt_good max ws :
  match secureRandInt max ws with
  | None => good max ws = []
  | Some (r, rest) => ∃ w, good max ws = w :: good max rest ∧ r = w mod max
  end.
Proof.
  induction ws as [|w ws IH]; [done|]. cbn [secureRandInt]. rewrite good_cons.
  destruct (limit max <=? w); [done|]. by exists w.
Qed.

Lemma secureRandInt_range max ws r rest : 0 < max → secureRandInt max ws = Some (r, rest) → 0 <= r < max.
Proof.
  intros Hm E. assert (S := secureRandInt_good max ws). rewrite E in S. destruct S as (w & _ & ->).
  by apply Z.mod_pos_bound.
Qed.

(** ** Random characters *)

Lemma random_chars_good cs n ws :
  match random_chars cs n ws with
  | None => (length (good (len cs) ws) < n)%nat
  | Some (p, rest) => good (len cs) ws = take n (good (len cs) ws) ++ good (len cs) rest ∧
      length (take n (good (len cs) ws)) = n ∧ p = map (pick cs) (take n (good (len cs) ws))
  end.
Proof.
  revert ws. induction n as [|n IH]; intros ws; [done|]. cbn [random_chars]. unfold mbind, gen_bind.
  assert (S := secureRandInt_good (len cs) ws). destruct (secureRandInt (len cs) ws) as [[r rest]|]; cbn.
  - destruct S as (w & -> & ->). specialize (IH rest). destruct (random_chars cs n rest) as [[p rest']|]; cbn.
    + destruct IH as (E & Hl & ->). split; [by f_equal|]. by rewrite Hl.
    + lia.
  - rewrite S. cbn. lia.
Qed.

Lemma good_cons_id max w ws : good max (w :: ws) = w :: ws → (limit max <=? w) = false ∧ good max ws = ws.
Proof.
  rewrite good_cons. destruct (limit max <=? w) eqn:El; [|intros [= ->]; done]. intros Hg.
  assert (Hl := filter_length_le (accepted max) ws). fold (good max ws) in Hl. rewrite Hg in Hl. cbn in Hl. lia.
Qed.

(** On accepted words one character is made of each. *)
Lemma random_chars_all cs n ws :
  good (len cs) ws = ws → (n <= length ws)%nat → random_chars cs n ws = Some (map (pick cs) (take n ws), drop n ws).
Proof.
  revert ws. induction n as [|n IH]; intros ws Hg Hn; [done|]. destruct ws as [|w ws]; [cbn in Hn; lia|].
  apply good_cons_id in Hg as [El Hg]. cbn [random_chars secureRandInt]. unfold mbind, gen_bind.
  cbn [secureRandInt]. rewrite El. cbn. rewrite IH; [done|done|]. cbn in Hn. lia.
Qed.

Lemma random_chars_exact cs n ws p :
  good (len cs) ws = ws →
  random_chars cs n ws = Some (p, []) ↔ length ws = n ∧ p = map (pick cs) ws.
Proof.
  intros Hg. destruct (decide (n <= length ws)%nat) as [Hn|Hn].
  - rewrite random_chars_all by done. split.
    + intros [= <- Hd]. apply (f_equal length) in Hd. rewrite length_drop in Hd. cbn in Hd. rewrite take_ge by lia. split; [lia|done].
    + intros [<- ->]. by rewrite firstn_all, drop_all.
  - split; [|lia]. intros E. assert (S := random_chars_good cs n ws). rewrite E, Hg in S. destruct S as (_ & Hl & _).
    rewrite length_take in Hl. lia.
Qed.

(** ** Counting *)

(** The accepted words whose remainder is [r]. *)
Definition block (max r : Z) : list Z := map (λ j, r + j * max) (seqZ 0 (2 ^ 32 / max)).

Lemma block_spec max r w : 0 <= r < max → w ∈ block max r ↔ 0 <= w < limit max ∧ w mod max = r.
Proof.
  intros Hr. unfold block. rewrite limit_div by lia. rewrite list_elem_of_fmap. split.
  - intros (j & -> & Hj). apply elem_of_seqZ in Hj. rewrite Z.mod_add, Z.mod_small by lia. split; [nia|done].
  - intros [Hw Hm]. exists (w / max). assert (Hd := Z.div_mod w max ltac:(lia)). split; [lia|].
    apply elem_of_seqZ. split; [apply Z.div_pos; lia|]. apply Z.div_lt_upper_bound; lia.
Qed.

Lemma block_NoDup max r : 0 < max → NoDup (block max r).
Proof. intros Hm. apply NoDup_fmap_2; [|apply NoDup_seqZ]. intros x y. nia. Qed.

Lemma block_length max r : 0 < max → len (block max r) = 2 ^ 32 / max.
Proof. intros. unfold block, len. rewrite length_map, length_seqZ. assert (0 <= 2 ^ 32 / max) by (apply Z.div_pos; lia). lia. Qed.

(** The lists of one word from each block. *)
Fixpoint choices (bs : list (list Z)) : list (list Z) :=
  match bs with [] => [[]] | b :: bs => w ← b; v ← choices bs; [w :: v] end.

Lemma choices_spec bs v : v ∈ choices bs ↔ Forall2 (λ w b, w ∈ b) v bs.
Proof.
  revert v. induction bs as [|b bs IH]; intros v; cbn [choices].
  - rewrite list_elem_of_singleton. split; [by intros ->|]. by inversion 1.
  - rewrite list_elem_of_bind. split.
    + intros (w & H1 & Hw). apply list_elem_of_bind in H1 as (t & ->%list_elem_of_singleton & Ht). constructor; [exact Hw|]. by apply IH.
    + inversion 1 as [|w b' t bs' Hw Ht]; subst. exists w. split; [|done]. apply list_elem_of_bind. exists t.
      rewrite list_elem_of_singleton. split; [done|]. by apply IH.
Qed.

Lemma choices_length bs k : (∀ b, b ∈ bs → len b = k) → len (choices bs) = k ^ len bs.
Proof.
  induction bs as [|b bs IH]; intros Hk; [done|]. cbn [choices].
  assert (Hb := Hk b ltac:(left)). specialize (IH ltac:(intros; apply Hk; by right)).
  rewrite len_cons, Z.pow_add_r by (try apply len_nonneg; lia). rewrite Z.pow_1_r, <- IH, <- Hb.
  clear. induction b as [|w b IH]; [done|]. cbn [mbind list_bind]. rewrite len_app, len_cons.
  rewrite IH. assert (∀ l : list (list Z), len (v ← l; [w :: v]) = len l) as ->.
  { intros l. induction l as [|x l IHl]; [done|]. cbn [mbind list_bind]. rewrite len_app, !len_cons, IHl, len_nil. lia. }
  lia.
Qed.

Lemma choices_NoDup bs : (∀ b, b ∈ bs → NoDup b) → NoDup (choices bs).
Proof.
  induction bs as [|b bs IH]; intros Hb; cbn [choices]; [apply NoDup_singleton|].
  specialize (IH ltac:(intros; apply Hb; by right)). apply NoDup_bind; [| |apply Hb; left].
  - intros w w' v _ _ Hv Hv'. apply list_elem_of_bind in Hv as (t & ->%list_elem_of_singleton & _).
    apply list_elem_of_bind in Hv' as (t' & [= ->]%list_elem_of_singleton & _). done.
  - intros w _. apply NoDup_bind; [| |done].
    + intros v v' u _ _ ->%list_elem_of_singleton [= ->]%list_elem_of_singleton. done.
    + intros v _. apply NoDup_singleton.
Qed.

(** The words that make the password [p]. *)
Definition makers (cs p : jsstr) : list (list Z) :=
  choices (map (λ c, block (len cs) (Z.of_nat (default 0%nat (fst <$> list_find (eq c) cs)))) p).

Lemma list_find_unit (cs : jsstr) (c : Z) i : NoDup cs → cs !! i = Some c → fst <$> list_find (eq c) cs = Some i.
Proof.
  intros Hn Hi. destruct (list_find_elem_of (eq c) cs c) as [[j x] Hj]; [by eapply list_elem_of_lookup_2|done|].
  rewrite Hj. cbn. apply list_find_Some in Hj as (Hj & <- & _). f_equal. by eapply NoDup_lookup.
Qed.

Lemma unit_at_lookup cs i : 0 <= i < len cs → cs !! Z.to_nat i = Some (unit_at cs i).
Proof.
  intros Hi. unfold unit_at. destruct (cs !! Z.to_nat i) as [c|] eqn:E.
  - f_equal. symmetry. by apply nth_lookup_Some.
  - apply lookup_ge_None in E. unfold len in Hi. lia.
Qed.

Lemma pick_block cs c w :
  NoDup cs → c ∈ cs → 0 < len cs →
  w ∈ block (len cs) (Z.of_nat (default 0%nat (fst <$> list_find (eq c) cs))) ↔ 0 <= w < limit (len cs) ∧ pick cs w = c.
Proof.
  intros Hn (i & Hi)%list_elem_of_lookup Hp. rewrite (list_find_unit cs c i) by done. change (default 0%nat (Some i)) with i.
  assert (Hil := lookup_lt_Some _ _ _ Hi). rewrite block_spec by (unfold len; lia). unfold pick.
  assert (Hm := Z.mod_pos_bound w (len cs) Hp). apply and_iff_compat_l. split.
  - intros E. assert (Hu := unit_at_lookup cs _ Hm). rewrite E, Nat2Z.id, Hi in Hu. rewrite E. congruence.
  - intros <-. assert (Hu := unit_at_lookup cs _ Hm). assert (Z.to_nat (w mod len cs) = i) by (by eapply NoDup_lookup).
    lia.
Qed.

Lemma good_Forall max ws : good max ws = ws ↔ Forall (λ w, accepted max w = true) ws.
Proof.
  induction ws as [|w ws IH]; [done|]. rewrite Forall_cons, <- IH. unfold accepted. split.
  - intros Hg%good_cons_id. destruct Hg as [-> Hg]. done.
  - intros [Hw Hg]. rewrite good_cons, Hg. by destruct (limit max <=? w).
Qed.

(** ** The character pools *)

Lemma charset_NoDup o : NoDup (charset o).
Proof. destruct o as [[] [] [] []]; refine (bool_decide_unpack (NoDup _) _); by vm_compute. Qed.

Lemma len_pos {A} (l : list A) : l ≠ [] → 0 < len l.
Proof. destruct l; [done|]. rewrite len_cons. assert (H := len_nonneg l). lia. Qed.

Lemma charset_len o : len (charset o) <= 91.
Proof. destruct o as [[] [] [] []]; vm_compute; congruence. Qed.

(** The pool of symbols has 29 characters, the size the entropy is computed from counts 30. *)
Lemma charsetSize_over o : charset o ≠ [] → charsetSize o = len (charset o) + (if symbols o then 1 else 0).
Proof. destruct o as [[] [] [] []]; vm_compute; congruence. Qed.

Lemma and_iff_compat_l_ctx (A B C : Prop) : (A → B ↔ C) → A ∧ B ↔ A ∧ C.
Proof. tauto. Qed.

Section drawn.
Context {JC : JsCase} (wordList : list jsstr).

(** Without passphrases the two pages run the same loop. *)
Definition page_or_form (g : GenSettings → gen (option jsstr)) : Prop := g = generate wordList ∨ g = generatePassword wordList.

Lemma page_or_form_chars g s ws :
  page_or_form g → g_isPassphrase s = false → charset (g_include s) ≠ [] →
  g s ws = '(p, ws) ← random_chars (charset (g_include s)) (Z.to_nat (g_length s)) ws; Some (Some p, ws).
Proof.
  intros [-> | ->] Hp Hc; unfold generate, generatePassword; rewrite Hp; by destruct (charset (g_include s)).
Qed.

Lemma makers_spec (cs p : jsstr) ws :
  NoDup cs → 0 < len cs → (∀ c, c ∈ p → c ∈ cs) →
  ws ∈ makers cs p ↔ Forall (λ w, 0 <= w < limit (len cs)) ws ∧ map (pick cs) ws = p.
Proof.
  intros Hn Hp Hc. unfold makers. rewrite choices_spec. revert ws. induction p as [|c p IH]; intros ws; cbn [map].
  - split; [inversion 1; subst; split; done|]. intros [_ He]. by destruct ws.
  - assert (Hb := λ w, pick_block cs c w Hn (Hc c ltac:(left)) Hp). specialize (IH ltac:(intros; apply Hc; by right)). split.
    + inversion 1 as [|w b ws' bs Hw Hws]; subst. apply Hb in Hw as [? <-]. apply IH in Hws as [? <-]. split; [by constructor|done].
    + intros [Hf He]. destruct ws as [|w ws]; [done|]. injection He as Hw He. inversion Hf; subst.
      constructor; [by apply Hb|]. apply IH. done.
Qed.

Lemma makers_count (cs p : jsstr) : 0 < len cs → NoDup (makers cs p) ∧ len (makers cs p) = (2 ^ 32 / len cs) ^ len p.
Proof.
  intros Hp. unfold makers. split.
  - apply choices_NoDup. intros b (c & -> & _)%list_elem_of_fmap. by apply block_NoDup.
  - rewrite (choices_length _ (2 ^ 32 / len cs)); [unfold len; by rewrite length_map|].
    intros b (c & -> & _)%list_elem_of_fmap. by apply block_length.
Qed.

Lemma good_words max ws : Forall (λ w, 0 <= w < limit max) ws → good max ws = ws.
Proof. intros Hw. apply good_Forall. eapply Forall_impl; [exact Hw|]. intros w [_ Hl]. unfold accepted. by destruct (Z.leb_spec (limit max) w); [lia|]. Qed.

(** The lists of accepted words that make a password, counted. *)
Lemma makers_generate g s p ws :
  page_or_form g → g_isPassphrase s = false → charset (g_include s) ≠ [] → 0 <= g_length s →
  len p = g_length s → (∀ c, c ∈ p → c ∈ charset (g_include s)) →
  ws ∈ makers (charset (g_include s)) p ↔
    Forall (λ w, 0 <= w < limit (len (charset (g_include s)))) ws ∧ g s ws = Some (Some p, []).
Proof.
  intros Hg Hp Hc Hl Hpl Hpc. rewrite makers_spec; [|apply charset_NoDup|by apply len_pos|done].
  rewrite (page_or_form_chars g s ws Hg Hp Hc). apply and_iff_compat_l_ctx. intros Hw%good_words.
  assert (X := random_chars_exact _ (Z.to_nat (g_length s)) ws p Hw). split.
  - intros Hm. rewrite (proj2 X); [done|]. split; [|done]. rewrite <- Hm in Hpl. unfold len in Hpl. rewrite length_map in Hpl. lia.
  - destruct (random_chars _ _ ws) as [[q r]|]; [|done]. cbn. intros [= -> ->]. by destruct (proj1 X).
Qed.
End drawn.

Module GenSpec.

(** C35: with a character class chosen both generators make a password of the chosen
    length and classes, as soon as enough words below the limit were drawn, depend on
    those words only, and every such password is the result of the same number of
    sequences of them: passwords are uniformly distributed. *)
Theorem generator_uniform (JC : JsCase) (wordList : list jsstr) (g : GenSettings → gen (option jsstr)) (s : GenSettings) :
  page_or_form wordList g → g_isPassphrase s = false → charset (g_include s) ≠ [] → 0 <= g_length s →
  let cs := charset (g_include s) in
  2 ^ 31 < limit (len cs) ∧
  (∀ ws, fst <$> g s ws = fst <$> g s (good (len cs) ws)) ∧
  (∀ ws, g_length s <= len (good (len cs) ws) → is_Some (g s ws)) ∧
  (∀ ws p rest, g s ws = Some (p, rest) → ∃ q, p = Some q ∧ len q = g_length s ∧ ∀ c, c ∈ q → c ∈ cs) ∧
  (∀ p, len p = g_length s → (∀ c, c ∈ p → c ∈ cs) →
     ∃ vs, NoDup vs ∧ len vs = (2 ^ 32 / len cs) ^ g_length s ∧
       ∀ ws, ws ∈ vs ↔ Forall (λ w, 0 <= w < limit (len cs)) ws ∧ g s ws = Some (Some p, [])).
Proof.
  intros Hg Hp Hc Hl cs. assert (Hcs : 0 < len cs) by (by apply len_pos).
  assert (H91 : len cs <= 91) by apply charset_len.
  assert (E := λ ws, page_or_form_chars wordList g s ws Hg Hp Hc). fold cs in E.
  assert (G := random_chars_good cs (Z.to_nat (g_length s))).
  split; [apply limit_range; lia|]. repeat split.
  - intros ws. rewrite !E. assert (G1 := G ws). assert (G2 := G (good (len cs) ws)). rewrite good_idem in G2.
    destruct (random_chars cs _ ws) as [[p r]|], (random_chars cs _ (good _ ws)) as [[p' r']|]; cbn; try done.
    + by destruct G1 as (_ & _ & ->), G2 as (_ & _ & ->).
    + destruct G1 as (_ & G1 & _). rewrite length_take in G1. lia.
    + destruct G2 as (_ & G2 & _). rewrite length_take in G2. lia.
  - intros ws Hw. rewrite E. specialize (G ws). destruct (random_chars cs _ ws) as [[p r]|]; [done|].
    change (len (good (len cs) ws)) with (Z.of_nat (length (good (len cs) ws))) in Hw. lia.
  - intros ws p rest. rewrite E. specialize (G ws). destruct (random_chars cs _ ws) as [[q r]|]; [|done]. cbn. intros [= <- <-].
    destruct G as (_ & Gl & ->). eexists. split; [done|]. split; [unfold len in *; rewrite length_map, Gl; lia|].
    intros c (w & -> & _)%list_elem_of_fmap. unfold pick. eapply list_elem_of_lookup_2, unit_at_lookup. by apply Z.mod_pos_bound.
  - intros p Hpl Hpc. exists (makers cs p). destruct (makers_count cs p Hcs) as [M1 M2]. split; [done|]. split; [by rewrite M2, Hpl|].
    intros ws. by apply (makers_generate wordList).
Qed.

Definition pin : GenSettings := mkGen false 4 6 (mkCharset false false true false).

(** Codes of four digits: "1234" comes from as many lists of words as any other. *)
Lemma generator_uniform_witness :
  is_Some (generate [] pin [1; 4294967295; 12; 23; 34]) ∧
  ∃ vs, NoDup vs ∧ len vs = 429496729 ^ 4 ∧
    ∀ ws, ws ∈ vs ↔ Forall (λ w, 0 <= w < 4294967290) ws ∧ generate [] pin ws = Some (Some (js "1234"), []).
Proof.
  assert (X := generator_uniform ascii_case [] (generate []) pin (or_introl eq_refl) eq_refl ltac:(done) ltac:(done)).
  destruct X as (_ & _ & X1 & _ & X2). split.
  - apply X1. vm_compute. congruence.
  - apply (X2 (js "1234")); [done|]. apply Forall_forall.
    refine (bool_decide_unpack (Forall (λ c, c ∈ charset (g_include pin)) (js "1234")) _). by vm_compute.
Defined.
End GenSpec.
