(* ===== verification/CredentialForm.v ===== *)
(** * The dialling codes ([web/src/data/countries.json])

    In the order of the file; the names and flags, which only the picker shows,
    are left out. *)
From S2P Require Import Prelude JsRuntime JsText Base64 Types CardUtils Generator.

Record Country := mkCountry { co_code : jsstr; co_iso : jsstr; co_format : jsstr }.

Definition country (row : string * string * string) : Country :=
  mkCountry (js row.1.1) (js row.1.2) (js row.2).

Definition COUNTRIES : list Country := map country [
  ("+93", "AF", "XXX-XXXX"); ("+358", "AX", ""); ("+355", "AL", "XXX-XXXX"); ("+213", "DZ", "XX-XXX-XXXX");
  ("+1684", "AS", ""); ("+376", "AD", "XXX-XXX"); ("+244", "AO", "XXX-XXX-XXX"); ("+1264", "AI", "");
  ("+672", "AQ", ""); ("+1268", "AG", "(268) XXX-XXXX"); ("+54", "AR", "X XXXX-XXXX"); ("+374", "AM", "XX-XXX-XXX");
  ("+297", "AW", ""); ("+61", "AU", "X XXXX-XXXX"); ("+43", "AT", "XXXX-XXXX"); ("+994", "AZ", "XX-XXX-XX-XX");
  ("+1242", "BS", "(242) XXX-XXXX"); ("+973", "BH", "XXXX-XXXX"); ("+880", "BD", "XXXX-XXXXXX"); ("+1246", "BB", "(246) XXX-XXXX");
  ("+375", "BY", "XX-XXX-XX-XX"); ("+32", "BE", "XXXX-XX-XX"); ("+501", "BZ", "XXX-XXXX"); ("+229", "BJ", "XX-XX-XXXX");
  ("+1441", "BM", ""); ("+975", "BT", "XX-XXX-XXX"); ("+591", "BO", "XXXX-XXXX"); ("+387", "BA", "XX-XXX-XXX");
  ("+267", "BW", "XXXX-XXXX"); ("+55", "BR", "XX XXXX-XXXX"); ("+246", "IO", ""); ("+673", "BN", "XXX-XXXX");
  ("+359", "BG", "XXX-XX-XXX"); ("+226", "BF", "XX-XX-XXXX"); ("+257", "BI", "XX-XX-XXXX"); ("+855", "KH", "XX-XXX-XXX");
  ("+237", "CM", "XXXX-XXXX"); ("+1", "CA", "XXX-XXX-XXXX"); ("+238", "CV", "XXX-XX-XX"); ("+345", "KY", "");
  ("+236", "CF", "XX-XX-XX-XX"); ("+235", "TD", "XX-XX-XXXX"); ("+56", "CL", "X XXXX-XXXX"); ("+86", "CN", "XXXX-XXXXXXX");
  ("+61", "CX", ""); ("+61", "CC", ""); ("+57", "CO", "X XXX-XXXX"); ("+269", "KM", "XX-XX-XX");
  ("+242", "CG", "XX-XX-XXXX"); ("+243", "CD", "XXX-XXX-XXX"); ("+682", "CK", ""); ("+506", "CR", "XXXX-XXXX");
  ("+225", "CI", "XX-XX-XXX"); ("+385", "HR", "XX-XXX-XXX"); ("+53", "CU", "X XXXXXXX"); ("+357", "CY", "XX-XXX-XXX");
  ("+420", "CZ", "XXX-XXX-XXX"); ("+45", "DK", "XX-XX-XX-XX"); ("+253", "DJ", "XX-XX-XX"); ("+1767", "DM", "(767) XXX-XXXX");
  ("+1849", "DO", "(809) XXX-XXXX"); ("+593", "EC", "XX XXX-XXXX"); ("+20", "EG", "XX-XXXX-XXXX"); ("+503", "SV", "XXXX-XXXX");
  ("+240", "GQ", "XXX-XX-XX"); ("+291", "ER", "XX-XXX-XXX"); ("+372", "EE", "XXXX-XXXX"); ("+251", "ET", "XX-XXX-XXXX");
  ("+500", "FK", ""); ("+298", "FO", ""); ("+679", "FJ", "XXX-XXXX"); ("+358", "FI", "XX XXXX-XXX");
  ("+33", "FR", "XX-XX-XX-XX"); ("+594", "GF", ""); ("+689", "PF", ""); ("+241", "GA", "XX-XX-XX");
  ("+220", "GM", "XXX-XXXX"); ("+995", "GE", "(5X) XXX-XXX"); ("+49", "DE", "XXXX-XXXXXXX"); ("+233", "GH", "XX XXX-XXXX");
  ("+350", "GI", ""); ("+30", "GR", "XXX XXX-XXXX"); ("+299", "GL", ""); ("+1473", "GD", "(473) XXX-XXXX");
  ("+590", "GP", ""); ("+1671", "GU", ""); ("+502", "GT", "XXXX-XXXX"); ("+44", "GG", "");
  ("+224", "GN", "XX-XXX-XXX"); ("+245", "GW", "XXX-XX-XX"); ("+595", "GY", "XXX-XXXX"); ("+509", "HT", "XXXX-XXXX");
  ("+504", "HN", "XXXX-XXXX"); ("+852", "HK", ""); ("+36", "HU", "(1) XXX-XXXX"); ("+354", "IS", "XXX-XXXX");
  ("+91", "IN", "XXXXX-XXXXX"); ("+62", "ID", "XXX-XXXXXXX"); ("+98", "IR", "XX-XXX-XXXX"); ("+964", "IQ", "XXX-XXXXXXX");
  ("+353", "IE", "XX XXX-XXXX"); ("+44", "IM", ""); ("+972", "IL", "X-XXX-XXXX"); ("+39", "IT", "XXX-XXX-XXXX");
  ("+1876", "JM", "(876) XXX-XXXX"); ("+81", "JP", "0X-XXXX-XXXX"); ("+44", "JE", ""); ("+962", "JO", "XXX-XXXX-XXX");
  ("+77", "KZ", "(7XX) XXX-XX-XX"); ("+254", "KE", "XXXX-XXX-XXX"); ("+686", "KI", "XXXXX"); ("+965", "KW", "XXXX-XXXX");
  ("+996", "KG", "XXX-XXXXXX"); ("+856", "LA", "XX XXX-XXX"); ("+371", "LV", "XXXX-XXXX"); ("+961", "LB", "XX XXX-XXX");
  ("+266", "LS", "XXXX-XXXX"); ("+231", "LR", "XXXX-XXXX"); ("+218", "LY", "XX-XXX-XXXX"); ("+423", "LI", "XXX-XXXX");
  ("+370", "LT", "XXX-XX-XXX"); ("+352", "LU", "XXXX-XXXX"); ("+853", "MO", ""); ("+389", "MK", "XXX-XXX-XX");
  ("+261", "MG", "XX-XXX-XXXX"); ("+265", "MW", "X XXXX-XXXX"); ("+60", "MY", "XX-XXXX-XXXX"); ("+960", "MV", "XXX-XXXX");
  ("+223", "ML", "XX-XX-XXXX"); ("+356", "MT", "XXXX-XXXX"); ("+692", "MH", "XXX-XXXX"); ("+596", "MQ", "");
  ("+222", "MR", "XX-XX-XXXX"); ("+230", "MU", "XXX-XXXX"); ("+262", "YT", ""); ("+52", "MX", "XXXX-XXXXXX");
  ("+691", "FM", "XXX-XXXX"); ("+373", "MD", "(XX) XXX-XXX"); ("+377", "MC", "XX-XX-XX-XX"); ("+976", "MN", "XX-XX-XXXX");
  ("+382", "ME", "XX-XXX-XXX"); ("+1664", "MS", ""); ("+212", "MA", "(X) XXXX-XXXX"); ("+258", "MZ", "XX-XXXXXXX");
  ("+95", "MM", "X XX-XXXXXX"); ("+264", "NA", "XXXX-XXXX"); ("+674", "NR", "XXX-XXXX"); ("+977", "NP", "X-XXXXXXX");
  ("+31", "NL", "XXXX-XXXXXX"); ("+599", "AN", ""); ("+687", "NC", ""); ("+64", "NZ", "X XXXX-XXXX");
  ("+505", "NI", "XXXX-XXXX"); ("+227", "NE", "XX-XX-XXXX"); ("+234", "NG", "XXXX-XXXX"); ("+683", "NU", "");
  ("+672", "NF", ""); ("+850", "KP", "XXX-XXXX"); ("+1670", "MP", ""); ("+47", "NO", "XXX XX-XXX");
  ("+968", "OM", "XXXX-XXXX"); ("+92", "PK", "XXXX-XXXXXXX"); ("+680", "PW", "XXX-XXXX"); ("+970", "PS", "XXXX-XXXXX");
  ("+507", "PA", "XXXX-XXXX"); ("+675", "PG", "XXX-XXXX"); ("+595", "PY", "XXX-XXXX"); ("+51", "PE", "XXXX-XXXXXX");
  ("+63", "PH", "XXX-XXXXXXX"); ("+872", "PN", ""); ("+48", "PL", "XXX-XXX-XXX"); ("+351", "PT", "XXX XX-XX-XX");
  ("+1939", "PR", ""); ("+974", "QA", "XXXX-XXXX"); ("+262", "RE", ""); ("+40", "RO", "XXXX-XXX-XXX");
  ("+7", "RU", "(XXX) XXX-XX-XX"); ("+250", "RW", "XXXX-XXXX"); ("+590", "BL", ""); ("+290", "SH", "");
  ("+1869", "KN", "(869) XXX-XXXX"); ("+1758", "LC", "(758) XXX-XXXX"); ("+590", "MF", ""); ("+508", "PM", "");
  ("+1784", "VC", "(784) XXX-XXXX"); ("+685", "WS", "XXXX"); ("+378", "SM", "XXXX-XXXX"); ("+239", "ST", "XX-XX-XX");
  ("+966", "SA", "XXXX-XXXX"); ("+221", "SN", "XX-XX-XX-XX"); ("+381", "RS", "XX-XXX-XXXX"); ("+248", "SC", "XXX-XXXX");
  ("+232", "SL", "XX-XXXXXX"); ("+65", "SG", "XXXX-XXXX"); ("+421", "SK", "XXX-XXX-XXX"); ("+386", "SI", "XX-XXX-XXX");
  ("+677", "SB", "XXXXX"); ("+252", "SO", "X XXX-XXXX"); ("+27", "ZA", "XX-XXX-XXXX"); ("+500", "GS", "");
  ("+82", "KR", "XX-XXX-XXXX"); ("+211", "SS", "XXX-XXXX"); ("+34", "ES", "XXX-XXX-XXX"); ("+94", "LK", "X XXX-XXXX");
  ("+249", "SD", "XXX-XXXX"); ("+597", "SR", "XXX-XXXX"); ("+47", "SJ", ""); ("+268", "SZ", "XXXX-XXXX");
  ("+46", "SE", "XXX-XXX-XXX"); ("+41", "CH", "XX-XXX-XX-XX"); ("+963", "SY", "XX-XXX-XXX"); ("+886", "TW", "XXXX-XXX");
  ("+992", "TJ", "(XXX) XX-XXXX"); ("+255", "TZ", "XX-XXX-XXXX"); ("+66", "TH", "XX-XXX-XXXX"); ("+670", "TL", "XXX-XXXX");
  ("+228", "TG", "XX-XX-XXXX"); ("+690", "TK", ""); ("+676", "TO", "XXXXX"); ("+1868", "TT", "(868) XXX-XXXX");
  ("+216", "TN", "XX-XXX-XXX"); ("+90", "TR", "XXXX-XXX-XX"); ("+993", "TM", "XX-XXX-XXX"); ("+1649", "TC", "");
  ("+688", "TV", "XXXX"); ("+256", "UG", "XXX-XXXX"); ("+380", "UA", "XX-XXX-XX-XX"); ("+971", "AE", "XX-XXX-XXXX");
  ("+44", "GB", "XXXX XXXXXXX"); ("+1", "US", "XXX-XXX-XXXX"); ("+598", "UY", "XX XXX-XXXX"); ("+998", "UZ", "XX-XXX-XXXX");
  ("+678", "VU", "XXXXX"); ("+379", "VA", "XXXX-XXXX"); ("+58", "VE", "XXXX-XXXXXX"); ("+84", "VN", "XXX-XXXXXXX");
  ("+1284", "VG", ""); ("+1340", "VI", ""); ("+681", "WF", ""); ("+967", "YE", "XXX-XXXX");
  ("+260", "ZM", "XX-XXX-XXXX"); ("+263", "ZW", "XX-XXX-XXXX")]%string.

(** * The credential form ([web/src/pages/AddCredential.tsx])

    The state of the form as the reducer keeps it, how it is filled from the
    credential being edited, the handlers of its fields, the effect that runs when
    the form appears, and the submit handler.  The translations, the check of a
    one-time password secret and the fresh ids are arguments. *)

(** ** State *)

Inductive UsernameType := Username | Email | Phone.

#[export] Instance UsernameType_eq_dec : EqDecision UsernameType.
Proof. solve_decision. Defined.

Record PhoneItem := mkPhone { ph_id : jsstr; ph_iso : jsstr; ph_value : jsstr }.
Record KbaItem := mkKbaItem { ki_id : jsstr; ki_question : jsstr; ki_answer : jsstr }.
Record U2fItem := mkU2f { uk_id : jsstr; uk_value : jsstr }.

Record CredentialFormState := mkFormState {
  fs_credentialType : CredentialType;
  fs_rpId : jsstr; fs_rpName : jsstr; fs_credentialId : jsstr; fs_userHandle : jsstr;
  fs_authenticatorName : jsstr; fs_backedUp : bool;
  fs_noteContent : jsstr;
  fs_cardholderName : jsstr; fs_cardNumber : jsstr; fs_cardExpiry : jsstr;
  fs_cardCvv : jsstr; fs_cardBillingAddress : jsstr;
  fs_title : jsstr; fs_username : jsstr; fs_url : jsstr; fs_password : jsstr;
  fs_otpSecret : jsstr; fs_otpAlgorithm : OtpAlgorithm; fs_otpDigits : Z;
  fs_description : jsstr; fs_accountType : jsstr;
  fs_usernameType : UsernameType; fs_loginPhoneIso : jsstr; fs_loginPhoneValue : jsstr;
  fs_expiryEnabled : bool; fs_expiryValue : Z; fs_expiryUnit : ExpiryUnit; fs_expiryNotifyEmail : bool;
  fs_folderId : jsstr; fs_tags : list jsstr;
  fs_phoneNumbers : list PhoneItem; fs_kba : list KbaItem; fs_u2fKeys : list U2fItem;
}.

(** ** Filling the form *)

Definition NO_USERNAME : jsstr := js "No username".

(** [!u || u === 'No username'] *)
Definition no_username (u : jsstr) : bool := str_empty u || str_eqb u NO_USERNAME.

(** [/^\+\d/.test(s)] and [/^\+?\d/.test(s)] *)
Definition plus_digit (s : jsstr) : bool :=
  match s with p :: d :: _ => (p =? 43) && is_digit d | _ => false end.
Definition opt_plus_digit (s : jsstr) : bool :=
  plus_digit s || match s with d :: _ => is_digit d | [] => false end.

(** [COUNTRIES.find(c => s.startsWith(c.code))] *)
Definition country_of (s : jsstr) : option Country := List.find (λ c, starts_with (co_code c) s) COUNTRIES.
(** [COUNTRIES.find(c => c.iso === iso)] *)
Definition country_iso (iso : jsstr) : option Country := List.find (λ c, str_eqb (co_iso c) iso) COUNTRIES.

(** [s.replace(match.code, '').trim()]: the text starts with the code. *)
Definition without_code (c : Country) (s : jsstr) : jsstr := trim (drop (length (co_code c)) s).

Definition init_username (u : jsstr) : jsstr := if no_username u then [] else if plus_digit (trim u) then [] else u.
Definition init_usernameType (u : jsstr) : UsernameType :=
  if no_username u then Username else if plus_digit (trim u) then Phone
  else if has_unit 64 u then Email else Username.
Definition init_loginPhoneIso (u : jsstr) : jsstr :=
  if no_username u then js "US" else match country_of u with Some c => str_or (co_iso c) (js "US") | None => js "US" end.
Definition init_loginPhoneValue (u : jsstr) : jsstr :=
  if no_username u then []
  else match country_of u with
       | Some c => without_code c u
       | None => if opt_plus_digit (trim u) then trim u else []
       end.

Definition has_tag (tag : string) (tags : list jsstr) : bool := existsb (str_eqb (js tag)) tags.
Definition push_tag (b : bool) (tag : string) (tags : list jsstr) : list jsstr :=
  if b && negb (has_tag tag tags) then tags ++ [js tag] else tags.

Definition truthy_str (o : option jsstr) : bool := match o with Some (_ :: _) => true | _ => false end.

Definition init_tags (d : option Credential) : list jsstr :=
  let tags := default [] (d ≫= c_tags) in
  let tags := push_tag (truthy_str (d ≫= c_otpSecret)) "OTP" tags in
  push_tag (match d ≫= c_phoneNumber with
            | Some (ManyStr l) => negb (match l with [] => true | _ => false end)
            | Some (OneStr s) => negb (str_empty s)
            | None => false
            end) "2FA" tags.

(** One stored number as an item of the form. *)
Definition phone_item (id p : jsstr) : PhoneItem :=
  match country_of p with
  | Some c => mkPhone id (co_iso c) (without_code c p)
  | None => mkPhone id (js "US") p
  end.

(** The initial lists; [ids] are the ids drawn for their items. *)
Definition init_phones (ids : nat → jsstr) (d : option Credential) : list PhoneItem :=
  match d ≫= c_phoneNumber with
  | Some (ManyStr l) => imap (λ i p, phone_item (ids i) p) l
  | Some (OneStr (c :: p)) => [phone_item (ids 0%nat) (c :: p)]
  | _ => [mkPhone (ids 0%nat) (js "US") []]
  end.
Definition init_kba (ids : nat → jsstr) (d : option Credential) : list KbaItem :=
  match d ≫= c_kba with
  | Some (k :: l) => imap (λ i k, mkKbaItem (ids i) (kba_question k) (kba_answer k)) (k :: l)
  | _ => [mkKbaItem (ids 0%nat) [] []]
  end.
Definition init_u2f (ids : nat → jsstr) (d : option Credential) : list U2fItem :=
  match d ≫= c_u2fKeyName with
  | Some (ManyStr l) => imap (λ i u, mkU2f (ids i) u) l
  | Some (OneStr (c :: u)) => [mkU2f (ids 0%nat) (c :: u)]
  | _ => [mkU2f (ids 0%nat) []]
  end.

(** [initialFolder] *)
Definition initial_folder (folders : list Folder) (activeTab : option jsstr) (d : option Credential) : jsstr :=
  str_or (or_empty (c_folderId <$> d))
    (let tab := or_empty activeTab in
     if negb (str_empty tab) && negb (str_eqb tab (js "vault")) && existsb (λ f, str_eqb (f_id f) tab) folders then tab
     else str_or (match folders with f :: _ => f_id f | [] => [] end) (js "work")).

(** The initial state.  [p_ids], [k_ids], [u_ids]: the ids of the three lists. *)
Definition open_form (folders : list Folder) (activeTab : option jsstr) (p_ids k_ids u_ids : nat → jsstr)
    (d : option Credential) : CredentialFormState :=
  let u := or_empty (c_username <$> d) in
  {| fs_credentialType := default login (d ≫= c_credentialType);
     fs_rpId := or_empty (d ≫= c_rpId); fs_rpName := or_empty (d ≫= c_rpName);
     fs_credentialId := or_empty (d ≫= c_credentialId); fs_userHandle := or_empty (d ≫= c_userHandle);
     fs_authenticatorName := or_empty (d ≫= c_authenticatorName); fs_backedUp := default false (d ≫= c_backedUp);
     fs_noteContent := or_empty (d ≫= c_noteContent);
     fs_cardholderName := or_empty (d ≫= c_cardholderName); fs_cardNumber := or_empty (d ≫= c_cardNumber);
     fs_cardExpiry := or_empty (d ≫= c_cardExpiry); fs_cardCvv := or_empty (d ≫= c_cardCvv);
     fs_cardBillingAddress := or_empty (d ≫= c_cardBillingAddress);
     fs_title := or_empty (c_service <$> d); fs_username := init_username u; fs_url := or_empty (c_url <$> d);
     fs_password := or_empty (d ≫= c_password); fs_otpSecret := or_empty (d ≫= c_otpSecret);
     fs_otpAlgorithm := default SHA1 (d ≫= c_otpAlgorithm);
     fs_otpDigits := match d ≫= c_otpDigits with Some n => if n =? 0 then 6 else n | None => 6 end;
     fs_description := or_empty (d ≫= c_description); fs_accountType := or_empty (d ≫= c_accountType);
     fs_usernameType := init_usernameType u; fs_loginPhoneIso := init_loginPhoneIso u;
     fs_loginPhoneValue := init_loginPhoneValue u;
     fs_expiryEnabled := default false (d ≫= c_expiryEnabled); fs_expiryValue := default 90 (d ≫= c_expiryValue);
     fs_expiryUnit := default days (d ≫= c_expiryUnit);
     fs_expiryNotifyEmail := default false (d ≫= c_expiryNotifyEmail);
     fs_folderId := initial_folder folders activeTab d; fs_tags := init_tags d;
     fs_phoneNumbers := init_phones p_ids d; fs_kba := init_kba k_ids d; fs_u2fKeys := init_u2f u_ids d |}.

(** ** The reducer

    [setField] with the field and its value; [reset] is never dispatched. *)

Inductive FormAction :=
| set_credentialType (v : CredentialType)
| set_rpId (v : jsstr)
| set_rpName (v : jsstr)
| set_credentialId (v : jsstr)
| set_userHandle (v : jsstr)
| set_authenticatorName (v : jsstr)
| set_backedUp (v : bool)
| set_noteContent (v : jsstr)
| set_cardholderName (v : jsstr)
| set_cardNumber (v : jsstr)
| set_cardExpiry (v : jsstr)
| set_cardCvv (v : jsstr)
| set_cardBillingAddress (v : jsstr)
| set_title (v : jsstr)
| set_username (v : jsstr)
| set_url (v : jsstr)
| set_password (v : jsstr)
| set_otpSecret (v : jsstr)
| set_otpAlgorithm (v : OtpAlgorithm)
| set_otpDigits (v : Z)
| set_description (v : jsstr)
| set_accountType (v : jsstr)
| set_usernameType (v : UsernameType)
| set_loginPhoneIso (v : jsstr)
| set_loginPhoneValue (v : jsstr)
| set_expiryEnabled (v : bool)
| set_expiryValue (v : Z)
| set_expiryUnit (v : ExpiryUnit)
| set_expiryNotifyEmail (v : bool)
| set_folderId (v : jsstr)
| set_tags (v : list jsstr)
| set_phoneNumbers (v : list PhoneItem)
| set_kba (v : list KbaItem)
| set_u2fKeys (v : list U2fItem).

Definition formReducer (s : CredentialFormState) (a : FormAction) : CredentialFormState :=
  {|
     fs_credentialType := match a with set_credentialType v => v | _ => fs_credentialType s end;
     fs_rpId := match a with set_rpId v => v | _ => fs_rpId s end;
     fs_rpName := match a with set_rpName v => v | _ => fs_rpName s end;
     fs_credentialId := match a with set_credentialId v => v | _ => fs_credentialId s end;
     fs_userHandle := match a with set_userHandle v => v | _ => fs_userHandle s end;
     fs_authenticatorName := match a with set_authenticatorName v => v | _ => fs_authenticatorName s end;
     fs_backedUp := match a with set_backedUp v => v | _ => fs_backedUp s end;
     fs_noteContent := match a with set_noteContent v => v | _ => fs_noteContent s end;
     fs_cardholderName := match a with set_cardholderName v => v | _ => fs_cardholderName s end;
     fs_cardNumber := match a with set_cardNumber v => v | _ => fs_cardNumber s end;
     fs_cardExpiry := match a with set_cardExpiry v => v | _ => fs_cardExpiry s end;
     fs_cardCvv := match a with set_cardCvv v => v | _ => fs_cardCvv s end;
     fs_cardBillingAddress := match a with set_cardBillingAddress v => v | _ => fs_cardBillingAddress s end;
     fs_title := match a with set_title v => v | _ => fs_title s end;
     fs_username := match a with set_username v => v | _ => fs_username s end;
     fs_url := match a with set_url v => v | _ => fs_url s end;
     fs_password := match a with set_password v => v | _ => fs_password s end;
     fs_otpSecret := match a with set_otpSecret v => v | _ => fs_otpSecret s end;
     fs_otpAlgorithm := match a with set_otpAlgorithm v => v | _ => fs_otpAlgorithm s end;
     fs_otpDigits := match a with set_otpDigits v => v | _ => fs_otpDigits s end;
     fs_description := match a with set_description v => v | _ => fs_description s end;
     fs_accountType := match a with set_accountType v => v | _ => fs_accountType s end;
     fs_usernameType := match a with set_usernameType v => v | _ => fs_usernameType s end;
     fs_loginPhoneIso := match a with set_loginPhoneIso v => v | _ => fs_loginPhoneIso s end;
     fs_loginPhoneValue := match a with set_loginPhoneValue v => v | _ => fs_loginPhoneValue s end;
     fs_expiryEnabled := match a with set_expiryEnabled v => v | _ => fs_expiryEnabled s end;
     fs_expiryValue := match a with set_expiryValue v => v | _ => fs_expiryValue s end;
     fs_expiryUnit := match a with set_expiryUnit v => v | _ => fs_expiryUnit s end;
     fs_expiryNotifyEmail := match a with set_expiryNotifyEmail v => v | _ => fs_expiryNotifyEmail s end;
     fs_folderId := match a with set_folderId v => v | _ => fs_folderId s end;
     fs_tags := match a with set_tags v => v | _ => fs_tags s end;
     fs_phoneNumbers := match a with set_phoneNumbers v => v | _ => fs_phoneNumbers s end;
     fs_kba := match a with set_kba v => v | _ => fs_kba s end;
     fs_u2fKeys := match a with set_u2fKeys v => v | _ => fs_u2fKeys s end |}.

(** ** Handlers *)

Section handlers.
Context (s : CredentialFormState).

(** [addPhoneNumber], [addU2fKey], [addKbaQuestion]; [None] dispatches nothing. *)
Definition addPhoneNumber (id : jsstr) : option FormAction :=
  if len (fs_phoneNumbers s) <? 2 then Some (set_phoneNumbers (fs_phoneNumbers s ++ [mkPhone id (js "US") []])) else None.
Definition addU2fKey (id : jsstr) : option FormAction :=
  if len (fs_u2fKeys s) <? 2 then Some (set_u2fKeys (fs_u2fKeys s ++ [mkU2f id []])) else None.
Definition addKbaQuestion (id : jsstr) : option FormAction := Some (set_kba (fs_kba s ++ [mkKbaItem id [] []])).

(** The loop of [formatPhoneNumber] over the format. *)
Fixpoint format_digits (format digits : jsstr) : jsstr :=
  match format, digits with
  | c :: format, d :: rest =>
      if (c =? 120) || (c =? 88) then d :: format_digits format rest else c :: format_digits format digits
  | _, _ => []
  end.

Definition formatPhoneNumber (value iso : jsstr) : jsstr :=
  let digits := digits_only value in
  match country_iso iso with
  | Some c => if str_empty (co_format c) then digits else format_digits (co_format c) digits
  | None => digits
  end.

(** [updatePhoneNumber] for the two fields. *)
Definition updatePhone_value (id val : jsstr) : option FormAction :=
  Some (set_phoneNumbers (map (λ item, if str_eqb (ph_id item) id
    then mkPhone (ph_id item) (ph_iso item) (formatPhoneNumber val (ph_iso item)) else item) (fs_phoneNumbers s))).
Definition updatePhone_iso (id val : jsstr) : option FormAction :=
  Some (set_phoneNumbers (map (λ item, if str_eqb (ph_id item) id
    then mkPhone (ph_id item) val (formatPhoneNumber (ph_value item) val) else item) (fs_phoneNumbers s))).
Definition removePhoneNumber (id : jsstr) : option FormAction :=
  if len (fs_phoneNumbers s) >? 1
  then Some (set_phoneNumbers (List.filter (λ item, negb (str_eqb (ph_id item) id)) (fs_phoneNumbers s))) else None.

Definition updateU2fKey (id value : jsstr) : option FormAction :=
  Some (set_u2fKeys (map (λ item, if str_eqb (uk_id item) id then mkU2f (uk_id item) value else item) (fs_u2fKeys s))).
Definition removeU2fKey (id : jsstr) : option FormAction :=
  if len (fs_u2fKeys s) >? 1
  then Some (set_u2fKeys (List.filter (λ item, negb (str_eqb (uk_id item) id)) (fs_u2fKeys s))) else None.

Definition updateKba_question (id value : jsstr) : option FormAction :=
  Some (set_kba (map (λ item, if str_eqb (ki_id item) id then mkKbaItem (ki_id item) value (ki_answer item) else item) (fs_kba s))).
Definition updateKba_answer (id value : jsstr) : option FormAction :=
  Some (set_kba (map (λ item, if str_eqb (ki_id item) id then mkKbaItem (ki_id item) (ki_question item) value else item) (fs_kba s))).
Definition removeKbaQuestion (id : jsstr) : option FormAction :=
  if len (fs_kba s) >? 1 then Some (set_kba (List.filter (λ item, negb (str_eqb (ki_id item) id)) (fs_kba s))) else None.

Definition toggleTag (tag : jsstr) : option FormAction :=
  Some (set_tags (if existsb (str_eqb tag) (fs_tags s) then List.filter (λ t, negb (str_eqb t tag)) (fs_tags s)
                  else fs_tags s ++ [tag])).

(** The handlers written into the fields: [slice(0, 50)], the clamp of the period,
    the secret without spaces, the digits of the security code. *)
Definition type_accountType (v : jsstr) : option FormAction := Some (set_accountType (slice0 50 v)).
Definition type_expiryValue (n : option Z) : option FormAction :=
  match n with Some n => Some (set_expiryValue (Z.min 1000 (Z.max 1 n))) | None => None end.
Definition type_otpSecret `{JsCase} (v : jsstr) : option FormAction := Some (set_otpSecret (toUpperCase (strip_spaces v))).
Definition type_cardCvv (v : jsstr) : option FormAction :=
  let cvvMax := match detectCardNetwork (fs_cardNumber s) with Some n => cvvLength n | None => 4 end in
  Some (set_cardCvv (slice0 cvvMax (digits_only v))).

(** [username.replace(/[^\w@.-]/g, '')] when an e-mail field loses the focus. *)
Definition is_word (c : Z) : bool := is_upper c || is_lower c || is_digit c || (c =? 95).
Definition blur_email : option FormAction :=
  if bool_decide (fs_usernameType s = Email) && has_unit 64 (fs_username s) then
    let cleaned := List.filter (λ c, is_word c || (c =? 64) || (c =? 46) || (c =? 45)) (fs_username s) in
    if str_eqb cleaned (fs_username s) then None else Some (set_username cleaned)
  else None.
End handlers.

(** ** Strength shown and stored *)

Inductive Strength := VeryWeak | Weak | Medium | Strong | VeryStrong | Excellent.

(** The key and the default label of the translation. *)
Definition strength_key (l : Strength) : string :=
  match l with
  | VeryWeak => "vault.strength.veryWeak" | Weak => "vault.strength.weak" | Medium => "vault.strength.medium"
  | Strong => "vault.strength.strong" | VeryStrong => "vault.strength.veryStrong" | Excellent => "vault.strength.excellent"
  end%string.
Definition strength_default (l : Strength) : jsstr :=
  match l with
  | VeryWeak => js "Very Weak" | Weak => js "Weak" | Medium => js "Medium"
  | Strong => js "Strong" | VeryStrong => js "Very Strong" | Excellent => js "Excellent"
  end.

(** [getStrength]: every return with the same label has the same colours. *)
Definition getStrength (pwd : jsstr) : Strength :=
  let l := len pwd in
  let u := hasUpper pwd in
  let lo := hasLower pwd in
  let n := hasNumber pwd in
  let s := hasSpecial pwd in
  if (l >=? 16) && u && lo && n && s then Excellent
  else if (l >=? 12) && u && lo && n && s then VeryStrong
  else if (l >=? 8) && u && lo && n then Strong
  else if (l >=? 6) && lo && n && negb s then Medium
  else if (l >=? 4) && lo && negb u && negb s then Weak
  else if (l >=? 1) && (l <=? 3) && negb u && negb n && negb s then VeryWeak
  else if l >=? 20 then Excellent
  else if l >=? 12 then Strong
  else if l >=? 8 then Medium
  else Weak.

(** [`${color} ${bg} ${border} ${dot} ${bar}`] *)
Definition strength_colors (l : Strength) : jsstr :=
  match l with
  | Excellent => js "text-green-700 bg-green-50 border-green-100 bg-green-600 bg-green-500"
  | VeryStrong => js "text-green-600 bg-green-50 border-green-100 bg-green-500 bg-green-400"
  | Strong => js "text-blue-700 bg-blue-50 border-blue-100 bg-blue-600 bg-blue-500"
  | Medium => js "text-orange-700 bg-orange-50 border-orange-100 bg-orange-600 bg-orange-500"
  | Weak => js "text-red-700 bg-red-50 border-red-100 bg-red-600 bg-red-500"
  | VeryWeak => js "text-red-800 bg-red-50 border-red-100 bg-red-800 bg-red-700"
  end.

(** ** The address *)

(** [/^https?:\/\//i], and the text after it. *)
Definition after_scheme (s : jsstr) : option jsstr :=
  let l := map ascii_lower_unit s in
  if starts_with (js "http://") l then Some (drop 7 s)
  else if starts_with (js "https://") l then Some (drop 8 s) else None.

Definition host_unit (c : Z) : bool := is_upper c || is_lower c || is_digit c || has_unit c (js "-@:%._+~#=").
Definition tld_unit (c : Z) : bool := is_upper c || is_lower c || is_digit c || has_unit c (js "()").

(** [\b] between the two texts. *)
Definition boundary (before after : jsstr) : bool :=
  xorb (match last before with Some c => is_word c | None => false end)
       (match after with c :: _ => is_word c | [] => false end).

(** [[a-zA-Z0-9()]{1,6}\b]: some number of characters in range. *)
Definition tld_matches (s : jsstr) : bool :=
  existsb (λ m, (m <=? length s)%nat && forallb tld_unit (take m s) && boundary (take m s) (drop m s)) (seq 1 6).

(** [[-a-zA-Z0-9@:%._\+~#=]{1,256}\.] and the rest. *)
Definition host_matches (s : jsstr) : bool :=
  existsb (λ k, (k <=? length s)%nat && forallb host_unit (take k s)
                && match drop k s with d :: rest => (d =? 46) && tld_matches rest | [] => false end) (seq 1 256).

(** [urlPattern.test(s)]: the closing group of the pattern can match nothing. *)
Definition urlPattern (s : jsstr) : bool :=
  match after_scheme s with
  | None => false
  | Some rest =>
      (starts_with (js "www.") (map ascii_lower_unit rest) && host_matches (drop 4 rest)) || host_matches rest
  end.

(** The address as it is stored. *)
Definition formatUrl (url : jsstr) : jsstr :=
  let u := trim url in
  if negb (str_empty u) && match after_scheme u with None => true | Some _ => false end then js "https://" ++ u else u.

(** ** Submitting *)

Record FormEnv := mkFormEnv {
  env_t : string → jsstr → jsstr;        (* the translation of a key, or its default *)
  env_totp : jsstr → bool;               (* [TOTP.generate] does not throw *)
  env_uuid : jsstr;                      (* [generateUUID()] *)
  env_now : Z;                           (* [Date.now()] *)
}.

(** What the handler does before it calls the vault: nothing for an empty title, the
    error under a field, or the credential and the operation it is given to. *)
Inductive Submit := NoTitle | UrlError | OtpError | AddIt (c : Credential) | UpdateIt (c : Credential).

Definition phone_text (iso value : jsstr) : jsstr :=
  match country_iso iso with Some c => str_or (co_code c) (js "+1") | None => js "+1" end ++ js " " ++ value.

(** [a || b] on ids: [0] and the empty string count as no id. *)
Definition id_or (d : option Credential) (uuid : jsstr) : cred_id :=
  match c_id <$> d with
  | Some (IdString []) => IdString uuid
  | Some (IdNumber n) => if n =? 0 then IdString uuid else IdNumber n
  | Some i => i
  | None => IdString uuid
  end.

Section submit.
Context (e : FormEnv) (d : option Credential) (s : CredentialFormState).

Definition non_login_credential : Credential :=
  let ty := fs_credentialType s in
  let on t v := if bool_decide (ty = t) then Some v else None in
  {| c_id := id_or d (env_uuid e); c_service := trim (fs_title s); c_url := fs_rpId s; c_username := [];
     c_password := Some []; c_status := js "good"; c_statusColor := []; c_logo := or_empty (c_logo <$> d);
     c_folderId := fs_folderId s; c_tags := Some []; c_phoneNumber := None; c_kba := None; c_u2fKeyName := None;
     c_otpSecret := None; c_otpAlgorithm := None; c_otpDigits := None; c_accountType := None;
     c_expiryEnabled := None; c_expiryValue := None; c_expiryUnit := None; c_expiryNotifyEmail := None;
     c_expirySetAt := None; c_description := or_undefined (trim (fs_description s)); c_credentialType := Some ty;
     c_rpId := on passkey (fs_rpId s); c_rpName := on passkey (fs_rpName s);
     c_credentialId := on passkey (fs_credentialId s); c_userHandle := on passkey (fs_userHandle s);
     c_authenticatorName := on passkey (fs_authenticatorName s);
     c_backedUp := if bool_decide (ty = passkey) then Some (fs_backedUp s) else None;
     c_noteContent := on secure_note (fs_noteContent s);
     c_cardholderName := on payment_card (fs_cardholderName s); c_cardNumber := on payment_card (fs_cardNumber s);
     c_cardExpiry := on payment_card (fs_cardExpiry s); c_cardCvv := on payment_card (fs_cardCvv s);
     c_cardBillingAddress := on payment_card (fs_cardBillingAddress s);
     c_cardType := on payment_card (match detectCardNetwork (fs_cardNumber s) with Some n => n_id n | None => [] end);
     c_createdAt := None; c_updatedAt := None; c_customFields := None; c_phone := None; c_phoneCountry := None |}.

Definition stored_username : jsstr :=
  match fs_usernameType s with
  | Phone => str_or (trim (phone_text (fs_loginPhoneIso s) (fs_loginPhoneValue s))) NO_USERNAME
  | _ => str_or (trim (fs_username s)) NO_USERNAME
  end.

Definition credData (formattedUrl : jsstr) : Credential :=
  let tagged {A} (tag : string) (v : A) := if has_tag tag (fs_tags s) then Some v else None in
  let if_expiry {A} (v : A) := if fs_expiryEnabled s then Some v else None in
  let strength := getStrength (fs_password s) in
  {| c_id := id_or d (env_uuid e); c_service := fs_title s; c_url := formattedUrl; c_username := stored_username;
     c_password := Some (fs_password s); c_status := env_t e (strength_key strength) (strength_default strength);
     c_statusColor := strength_colors strength; c_logo := or_empty (c_logo <$> d); c_folderId := fs_folderId s;
     c_tags := Some (fs_tags s);
     c_phoneNumber := tagged "2FA"%string (ManyStr (map (λ p, phone_text (ph_iso p) (ph_value p))
                        (List.filter (λ p, len (trim (ph_value p)) >? 0) (fs_phoneNumbers s))));
     c_kba := tagged "KBA"%string (map (λ k, mkKba (ki_question k) (ki_answer k)) (fs_kba s));
     c_u2fKeyName := tagged "U2F"%string (ManyStr (List.filter (λ u, negb (str_empty u)) (map uk_value (fs_u2fKeys s))));
     c_otpSecret := tagged "OTP"%string (fs_otpSecret s);
     c_otpAlgorithm := tagged "OTP"%string (default SHA256 (d ≫= c_otpAlgorithm));
     c_otpDigits := tagged "OTP"%string (match d ≫= c_otpDigits with Some n => if n =? 0 then 8 else n | None => 8 end);
     c_accountType := or_undefined (trim (fs_accountType s));
     c_expiryEnabled := Some (fs_expiryEnabled s); c_expiryValue := if_expiry (fs_expiryValue s);
     c_expiryUnit := if_expiry (fs_expiryUnit s); c_expiryNotifyEmail := if_expiry (fs_expiryNotifyEmail s);
     c_expirySetAt := if fs_expiryEnabled s then
                        match d with
                        | Some c => if default false (c_expiryEnabled c) then c_expirySetAt c else Some (env_now e)
                        | None => Some (env_now e)
                        end
                      else None;
     c_description := or_undefined (trim (fs_description s)); c_credentialType := Some login;
     c_rpId := None; c_rpName := None; c_credentialId := None; c_userHandle := None; c_authenticatorName := None;
     c_backedUp := None; c_noteContent := None; c_cardholderName := None; c_cardNumber := None; c_cardExpiry := None;
     c_cardCvv := None; c_cardBillingAddress := None; c_cardType := None; c_createdAt := None; c_updatedAt := None;
     c_customFields := None; c_phone := None; c_phoneCountry := None |}.

Definition give (c : Credential) : Submit := match d with Some _ => UpdateIt c | None => AddIt c end.

Definition onSubmit : Submit :=
  if str_empty (trim (fs_title s)) then NoTitle
  else if negb (bool_decide (fs_credentialType s = login)) then give non_login_credential
  else
    let formattedUrl := formatUrl (fs_url s) in
    if negb (str_empty formattedUrl) && negb (urlPattern formattedUrl) then UrlError
    else if has_tag "OTP" (fs_tags s) && negb (str_empty (fs_otpSecret s)) && negb (env_totp e (fs_otpSecret s)) then OtpError
    else give (credData formattedUrl).
End submit.

(** ** The life of the form *)

(** [useEffect(() => { generatePassword(); }, [generatePassword])]: it runs when the
    form appears, for a new credential and for one that is edited. *)
Definition run_generator `{JsCase} (wordList : list jsstr) (g : GenSettings) (s : CredentialFormState)
    : gen CredentialFormState :=
  r ← generatePassword wordList g;
  mret (match r with Some p => formReducer s (set_password p) | None => s end).

(** The form as the user first sees it. *)
Definition mounted `{JsCase} (wordList : list jsstr) (folders : list Folder) (activeTab : option jsstr)
    (p_ids k_ids u_ids : nat → jsstr) (d : option Credential) : gen CredentialFormState :=
  run_generator wordList gen_defaults (open_form folders activeTab p_ids k_ids u_ids d).
