(* ===== verification/JsDate.v ===== *)
(** * Dates

    The parts of the Date object the pages use, as the language defines them: a
    time value counts milliseconds, [MakeDay] carries months into years and dates
    into months, and local time is a mapping of the platform (an argument). *)
From S2P Require Import Prelude JsRuntime.

Definition msPerDay : Z := 86400000.
Definition Day (t : Z) : Z := t / msPerDay.
Definition TimeWithinDay (t : Z) : Z := t mod msPerDay.

(** ** The civil calendar

    Years start in March inside the computation; eras have 400 years. *)

Definition days_from_civil (y m d : Z) : Z :=
  let y := if m <? 2 then y - 1 else y in
  let era := y / 400 in
  let yoe := y mod 400 in
  let mp := (m + 10) mod 12 in
  let doy := (153 * mp + 2) / 5 + d - 1 in
  let doe := yoe * 365 + yoe / 4 - yoe / 100 + doy in
  era * 146097 + doe - 719468.

Definition civil_in_era (doe : Z) : Z * Z * Z :=
  let yoe := (doe - doe / 1460 + doe / 36524 - doe / 146096) / 365 in
  let doy := doe - (365 * yoe + yoe / 4 - yoe / 100) in
  let mp := (5 * doy + 2) / 153 in
  let d := doy - (153 * mp + 2) / 5 + 1 in
  let m := (mp + 2) mod 12 in
  (if m <? 2 then yoe + 1 else yoe, m, d).

(** Year, month from 0 and day of the month of a day number. *)
Definition civil_from_days (z : Z) : Z * Z * Z :=
  let z := z + 719468 in
  let '(y, m, d) := civil_in_era (z mod 146097) in (z / 146097 * 400 + y, m, d).

Definition YearFromTime (t : Z) : Z := (civil_from_days (Day t)).1.1.
Definition MonthFromTime (t : Z) : Z := (civil_from_days (Day t)).1.2.
Definition DateFromTime (t : Z) : Z := (civil_from_days (Day t)).2.

(** [MakeDay] on integers, [MakeDate], [TimeClip] ([None] is NaN). *)
Definition MakeDay (year month date : Z) : Z := days_from_civil (year + month / 12) (month mod 12) 1 + date - 1.
Definition MakeDate (day time : Z) : Z := day * msPerDay + time.
Definition TimeClip (t : Z) : option Z := if Z.abs t <=? 8640000000000000 then Some t else None.

(** [LocalTime] and [UTC] of the platform. *)
Class JsZone := { LocalTime : Z → Z; UTC : Z → Z }.

Section setters.
Context `{JsZone}.

Definition getDate (t : Z) : Z := DateFromTime (LocalTime t).
Definition getMonth (t : Z) : Z := MonthFromTime (LocalTime t).
Definition getFullYear (t : Z) : Z := YearFromTime (LocalTime t).

Definition setDate (t dt : Z) : option Z :=
  let l := LocalTime t in TimeClip (UTC (MakeDate (MakeDay (YearFromTime l) (MonthFromTime l) dt) (TimeWithinDay l))).
Definition setMonth (t m : Z) : option Z :=
  let l := LocalTime t in TimeClip (UTC (MakeDate (MakeDay (YearFromTime l) m (DateFromTime l)) (TimeWithinDay l))).
Definition setFullYear (t y : Z) : option Z :=
  let l := LocalTime t in TimeClip (UTC (MakeDate (MakeDay y (MonthFromTime l) (DateFromTime l)) (TimeWithinDay l))).
End setters.

(** Coordinated universal time, and a zone that is always the same time ahead. *)
Definition fixed_zone (offset : Z) : JsZone := {| LocalTime t := t + offset; UTC t := t - offset |}.

(** ** The calendar is a bijection *)

Lemma era_bounds doe : 0 <= doe < 146097 →
  let yoe := (doe - doe / 1460 + doe / 36524 - doe / 146096) / 365 in
  0 <= yoe < 400 ∧ 0 <= doe - (365 * yoe + yoe / 4 - yoe / 100) <= 365.
Proof. intros H yoe. subst yoe. split; Z.to_euclidean_division_equations; lia. Qed.

(** Months of the year that starts in March, and back. *)
Lemma month_bounds doy : 0 <= doy <= 365 →
  let mp := (5 * doy + 2) / 153 in
  let m := (mp + 2) mod 12 in
  0 <= mp < 12 ∧ 0 <= m < 12 ∧ (m + 10) mod 12 = mp ∧ 1 <= doy - (153 * mp + 2) / 5 + 1 <= 31.
Proof. intros H mp m. subst m mp. split; [|split; [|split]]; Z.to_euclidean_division_equations; lia. Qed.

Lemma era_roundtrip doe : 0 <= doe < 146097 →
  let '(y, m, d) := civil_in_era doe in days_from_civil y m d = doe - 719468 ∧ 0 <= m < 12 ∧ 1 <= d <= 31.
Proof.
  intros H. unfold civil_in_era. cbv zeta. destruct (era_bounds doe H) as [B1 B2]. set (yoe := _ / 365) in *.
  set (doy := doe - (365 * yoe + yoe / 4 - yoe / 100)) in *. destruct (month_bounds doy B2) as (M1 & M2 & M3 & M4).
  set (mp := (5 * doy + 2) / 153) in *. set (m := (mp + 2) mod 12) in *. split; [|done]. unfold days_from_civil. rewrite M3.
  assert (Hy : ∀ y, y = yoe → y / 400 = 0 ∧ y mod 400 = yoe) by (intros y ->; split; [apply Z.div_small|apply Z.mod_small]; lia).
  destruct (m <? 2).
  - destruct (Hy (yoe + 1 - 1) ltac:(lia)) as [-> ->]. subst doy. lia.
  - destruct (Hy yoe eq_refl) as [-> ->]. subst doy. lia.
Qed.

Lemma days_from_civil_era y m d k : days_from_civil (y + 400 * k) m d = days_from_civil y m d + 146097 * k.
Proof.
  unfold days_from_civil. assert (E : ∀ x, (x + 400 * k) / 400 = x / 400 + k ∧ (x + 400 * k) mod 400 = x mod 400).
  { intros x. rewrite (Z.mul_comm 400 k). split; [apply Z.div_add; lia|apply Z.mod_add; lia]. }
  destruct (m <? 2).
  - replace (y + 400 * k - 1) with (y - 1 + 400 * k) by lia. destruct (E (y - 1)) as [-> ->]. lia.
  - destruct (E y) as [-> ->]. lia.
Qed.

Lemma civil_roundtrip z : let '(y, m, d) := civil_from_days z in days_from_civil y m d = z ∧ 0 <= m < 12 ∧ 1 <= d <= 31.
Proof.
  unfold civil_from_days. set (w := z + 719468). assert (Hw := Z.mod_pos_bound w 146097 ltac:(lia)).
  assert (C := era_roundtrip (w mod 146097) Hw).
  destruct (civil_in_era (w mod 146097)) as [[y m] d]. destruct C as (C1 & C2 & C3).
  replace (w / 146097 * 400 + y) with (y + 400 * (w / 146097)) by lia.
  rewrite days_from_civil_era, C1. assert (D := Z.div_mod w 146097 ltac:(lia)). lia.
Qed.

(** Dates past the end of a month run into the next. *)
Lemma MakeDay_date y m d n : MakeDay y m (d + n) = MakeDay y m d + n.
Proof. unfold MakeDay. lia. Qed.

Lemma MakeDay_day t : MakeDay (YearFromTime t) (MonthFromTime t) (DateFromTime t) = Day t.
Proof.
  unfold MakeDay, YearFromTime, MonthFromTime, DateFromTime. assert (R := civil_roundtrip (Day t)).
  destruct (civil_from_days (Day t)) as [[y m] d]. cbn [fst snd]. destruct R as (R & Hm & _).
  rewrite Z.div_small, Z.mod_small, Z.add_0_r by lia. rewrite <- R. unfold days_from_civil. lia.
Qed.

Lemma MakeDate_Day t : MakeDate (Day t) (TimeWithinDay t) = t.
Proof. unfold MakeDate, Day, TimeWithinDay. assert (D := Z.div_mod t msPerDay ltac:(done)). lia. Qed.

(** In a zone without shifts, days have 24 hours. *)
Lemma setDate_days offset t n :
  @setDate (fixed_zone offset) t (@getDate (fixed_zone offset) t + n) = TimeClip (t + n * msPerDay).
Proof.
  unfold setDate, getDate. cbn [LocalTime UTC fixed_zone]. rewrite MakeDay_date, MakeDay_day. f_equal.
  assert (D := MakeDate_Day (t + offset)). unfold MakeDate in *. lia.
Qed.
