(* ===== verification/Mfa.v ===== *)
(** * Multi-factor authentication ([web/src/utils/mfa.ts])

    Base32 secrets, HOTP and TOTP with replay detection, the e-mail code, the
    WebAuthn signature counter, registration and login decisions on the
    configuration. *)
From S2P Require Import Prelude JsRuntime JsText Base64.

(** ** Configuration *)

Record WebAuthnCredentialMeta := mkMeta {
  wm_id : jsstr; wm_rawId : jsstr; wm_name : jsstr; wm_createdAt : Z; wm_counter : Z }.

Record OtpConfig := mkOtp {
  otp_enabled : bool; otp_secret : option jsstr; otp_counter : Z; otp_enabledAt : option Z;
  otp_algorithm : option jsstr; otp_digits : option Z }.
Record KeyConfig := mkKeyConfig { kc_enabled : bool; kc_credentials : list WebAuthnCredentialMeta }.
Record EmailConfig := mkEmail { em_enabled : bool; em_address : option jsstr; em_enabledAt : option Z }.

Record MfaConfig := mkMfa {
  totp : OtpConfig;                 (* without a counter: 0 *)
  hotp : option OtpConfig;
  webauthn : KeyConfig;
  passkeys : option KeyConfig;      (* absent in configurations of older versions *)
  platform : option KeyConfig;
  email : EmailConfig;
  passwordlessEnabled : option bool;
  passwordLoginEnabled : option bool;
}.

Definition DEFAULT_MFA : MfaConfig :=
  mkMfa (mkOtp false None 0 None None None) None (mkKeyConfig false []) (Some (mkKeyConfig false []))
    (Some (mkKeyConfig false [])) (mkEmail false None None) (Some false) None.

(** [_mfaCache ?? DEFAULT_MFA()] *)
Definition getMfaConfig (cache : option MfaConfig) : MfaConfig := default DEFAULT_MFA cache.

(** ** Login hints *)

Record LoginHints := mkHints {
  h_totp : bool; h_emailOtp : bool; h_passwordEnabled : bool; h_webauthn : bool;
  h_passwordlessEnabled : bool }.

Definition getLoginHints : LoginHints := mkHints false false true false false.

Definition key_enabled (k : option KeyConfig) : bool :=
  match k with Some k => kc_enabled k | None => false end.
Definition key_credentials (k : option KeyConfig) : list WebAuthnCredentialMeta :=
  match k with Some k => kc_credentials k | None => [] end.

(** The hints [refreshLoginHints] sends. *)
Definition hints_of (cfg : MfaConfig) : LoginHints :=
  let hasHardware := key_enabled (passkeys cfg) || key_enabled (platform cfg) || kc_enabled (webauthn cfg) in
  {| h_totp := otp_enabled (totp cfg) || match hotp cfg with Some h => otp_enabled h | None => false end;
     h_emailOtp := em_enabled (email cfg);
     h_passwordEnabled := negb (bool_decide (passwordLoginEnabled cfg = Some false));
     h_webauthn := kc_enabled (webauthn cfg) && (0 <? len (kc_credentials (webauthn cfg)));
     h_passwordlessEnabled := bool_decide (passwordlessEnabled cfg = Some true) && hasHardware |}.

Definition bool_count (l : list bool) : Z := len (List.filter (λ b : bool, b) l).

Definition countActiveMfaMethods (c : MfaConfig) : Z :=
  let hints := getLoginHints in
  bool_count [otp_enabled (totp c) || h_totp hints;
              kc_enabled (webauthn c) || h_webauthn hints;
              key_enabled (passkeys c) || h_passwordlessEnabled hints;
              key_enabled (platform c);
              em_enabled (email c) || h_emailOtp hints].

(** ** Base32 *)

Definition B32_CHARS : jsstr := js "ABCDEFGHIJKLMNOPQRSTUVWXYZ234567".
Definition b32_char (i : Z) : Z := nth (Z.to_nat i) B32_CHARS 0.

(** [while (bits >= 5) { output += ...; bits -= 5; }]: at most two rounds. *)
Fixpoint b32_drain (fuel : nat) (value bits : Z) (out : jsstr) : Z * jsstr :=
  match fuel with
  | O => (bits, out)
  | S f =>
      if bits >=? 5 then b32_drain f value (bits - 5) (out ++ [b32_char (band (shr value (bits - 5)) 31)])
      else (bits, out)
  end.

Fixpoint b32_enc_loop (bs : bytes) (value bits : Z) (out : jsstr) : Z * Z * jsstr :=
  match bs with
  | [] => (value, bits, out)
  | byte :: bs' =>
      let value := bor (shl value 8) byte in
      let bits := bits + 8 in
      let '(bits, out) := b32_drain 3 value bits out in
      b32_enc_loop bs' value bits out
  end.

Definition base32Encode (bs : bytes) : jsstr :=
  let '(value, bits, output) := b32_enc_loop bs 0 0 [] in
  if bits >? 0 then output ++ [b32_char (band (shl value (5 - bits)) 31)] else output.

(** [alpha.indexOf(ch)], [None] for -1. *)
Fixpoint index_of (c : Z) (s : jsstr) : option Z :=
  match s with
  | [] => None
  | x :: s' => if x =? c then Some 0 else Z.succ <$> index_of c s'
  end.

Fixpoint b32_dec_loop (s : jsstr) (value bits : Z) (out : bytes) : bytes :=
  match s with
  | [] => out
  | ch :: s' =>
      match index_of ch B32_CHARS with
      | None => b32_dec_loop s' value bits out
      | Some idx =>
          let value := bor (shl value 5) idx in
          let bits := bits + 5 in
          if bits >=? 8 then b32_dec_loop s' value (bits - 8) (out ++ [band (shr value (bits - 8)) 0xFF])
          else b32_dec_loop s' value bits out
      end
  end.

Section base32.
Context `{JsCase}.

Definition base32Decode (base32 : jsstr) : bytes :=
  let clean := strip_eq (toUpperCase base32) in
  b32_dec_loop clean 0 0 [].
End base32.

Definition generateTotpSecret (rand : nat → bytes) : jsstr := base32Encode (rand 20%nat).

(** ** HOTP *)

(** [s.padStart(n, '0')] *)
Definition padStart0 (n : Z) (s : jsstr) : jsstr := replicate (Z.to_nat (n - len s)) 48 ++ s.

(** [new RegExp(`^\\d{${digits}}$`).test(s)] *)
Definition all_digits (n : Z) (s : jsstr) : bool := (len s =? n) && forallb is_digit s.

(** [setUint32(0, v, false)] *)
Definition be_bytes32 (v : Z) : bytes :=
  let u := to_uint32 v in
  [u / 2 ^ 24; (u / 2 ^ 16) mod 256; (u / 2 ^ 8) mod 256; u mod 256].

Class OtpHmac := { hmac : jsstr → bytes → bytes → bytes  (* algorithm, key, message *) }.
(** Every HMAC of the algorithms in use has at least 20 bytes. *)
Class OtpHmacLaws (C : OtpHmac) := {
  hmac_len alg k m : 20 <= len (hmac alg k m);
  hmac_Bytes alg k m : Bytes (hmac alg k m);
}.

Definition byte_at (l : bytes) (i : Z) : Z := nth (Z.to_nat i) l 0.

Section otp.
Context `{JsCase} `{OtpHmac}.

Definition hotp_message (counter : Z) : bytes :=
  be_bytes32 (counter / 0x100000000) ++ be_bytes32 (shr counter 0).

Definition truncate (sig : bytes) : Z :=
  let offset := band (byte_at sig (len sig - 1)) 0xF in
  bor (bor (bor (shl (band (byte_at sig offset) 0x7F) 24) (shl (byte_at sig (offset + 1)) 16))
        (shl (byte_at sig (offset + 2)) 8)) (byte_at sig (offset + 3)).

Definition computeHotp (secret : jsstr) (counter : Z) (algorithm : jsstr) (digits : Z) : jsstr :=
  let secretBytes := base32Decode secret in
  let sig := hmac algorithm secretBytes (hotp_message counter) in
  let code := truncate sig in
  padStart0 digits (dec (code mod 10 ^ digits)).

(** [for (i = i0; i <= lookahead; i++)], [n] rounds left. *)
Fixpoint hotp_search (n : nat) (i : Z) (secret : jsstr) (storedCounter : Z) (clean algorithm : jsstr)
    (digits : Z) : option Z :=
  match n with
  | O => None
  | S m =>
      if str_eqb (computeHotp secret (storedCounter + i) algorithm digits) clean
      then Some (storedCounter + i + 1)
      else hotp_search m (i + 1) secret storedCounter clean algorithm digits
  end.

Definition verifyHotp (secret : jsstr) (storedCounter : Z) (token : jsstr) (lookahead : Z)
    (algorithm : jsstr) (digits : Z) : bool * Z :=
  let clean := strip_spaces token in
  if negb (all_digits digits clean) then (false, storedCounter)
  else
    match hotp_search (Z.to_nat (lookahead + 1)) 0 secret storedCounter clean algorithm digits with
    | Some next => (true, next)
    | None => (false, storedCounter)
    end.

(** ** TOTP *)

(** [`${secret}:${period}:${algorithm}:${digits}`] *)
Definition replayKey (secret : jsstr) (period : Z) (algorithm : jsstr) (digits : Z) : jsstr :=
  secret ++ js ":" ++ dec period ++ js ":" ++ algorithm ++ js ":" ++ dec digits.

Abbreviation used_periods := (gmap (list Z) Z).

(** The loop over the entries: those with [now > expiry] are deleted. *)
Definition gc (now : Z) (used : used_periods) : used_periods :=
  filter (λ kv, ¬ kv.2 < now) used.

Definition try_period (used : used_periods) (secret clean algorithm : jsstr) (digits period : Z)
    : option (bool * used_periods) :=
  if str_eqb (computeHotp secret period algorithm digits) clean then
    let k := replayKey secret period algorithm digits in
    if bool_decide (is_Some (used !! k)) then Some (false, used)
    else Some (true, <[k := (period + 2) * 30000]> used)
  else None.

Definition verifyTotp (used : used_periods) (now : Z) (secret token algorithm : jsstr) (digits : Z)
    : bool * used_periods :=
  let clean := strip_spaces token in
  if negb (all_digits digits clean) then (false, used)
  else
    let used := gc now used in
    match try_period used secret clean algorithm digits (now / 30000) with
    | Some r => r
    | None =>
        match try_period used secret clean algorithm digits ((now + 30000) / 30000) with
        | Some r => r
        | None => (false, used)
        end
    end.
End otp.

(** ** E-mail code *)

Record PendingEmailOtp := mkPending { po_code : jsstr; po_email : jsstr; po_expires : Z }.

Definition OTP_LIMIT : Z := 0x100000000 / 1000000 * 1000000.

(** [do { getRandomValues(buf) } while (buf[0] >= LIMIT)] over a stream of draws;
    [None]: the draws given were all rejected. *)
Fixpoint draw_below (limit : Z) (draws : list Z) : option Z :=
  match draws with
  | [] => None
  | d :: ds => if d >=? limit then draw_below limit ds else Some d
  end.

Definition generateEmailCode (draws : list Z) (now : Z) (email : jsstr)
    : option (jsstr * option PendingEmailOtp) :=
  d ← draw_below OTP_LIMIT draws;
  let code := padStart0 6 (dec (d mod 1000000)) in
  Some (code, Some (mkPending code email (now + 5 * 60 * 1000))).

Definition verifyEmailCode (pending : option PendingEmailOtp) (now : Z) (token : jsstr)
    : bool * option PendingEmailOtp :=
  match pending with
  | None => (false, None)
  | Some p =>
      if now >? po_expires p then (false, None)
      else (str_eqb (po_code p) (strip_spaces token), None)
  end.

(** ** WebAuthn *)

Inductive webauthn_error :=
| NotSupported | NotSecureContext | CredentialNotFound | CounterDecreased | NoDevices | Cancelled
| InvalidCharacter.   (* atob on text that is not base64 *)

Definition set_counter (m : WebAuthnCredentialMeta) (n : Z) : WebAuthnCredentialMeta :=
  mkMeta (wm_id m) (wm_rawId m) (wm_name m) (wm_createdAt m) n.
Definition set_webauthn (c : MfaConfig) (k : KeyConfig) : MfaConfig :=
  mkMfa (totp c) (hotp c) k (passkeys c) (platform c) (email c) (passwordlessEnabled c) (passwordLoginEnabled c).
Definition set_passkeys (c : MfaConfig) (k : KeyConfig) : MfaConfig :=
  mkMfa (totp c) (hotp c) (webauthn c) (Some k) (platform c) (email c) (passwordlessEnabled c) (passwordLoginEnabled c).
Definition set_platform (c : MfaConfig) (k : KeyConfig) : MfaConfig :=
  mkMfa (totp c) (hotp c) (webauthn c) (passkeys c) (Some k) (email c) (passwordlessEnabled c) (passwordLoginEnabled c).

(** [stored.counter = n] on the first credential with the id, the one [find] returned. *)
Fixpoint update_counter (id : jsstr) (n : Z) (l : list WebAuthnCredentialMeta) : list WebAuthnCredentialMeta :=
  match l with
  | [] => []
  | m :: l' => if str_eqb (wm_id m) id then set_counter m n :: l' else m :: update_counter id n l'
  end.
Fixpoint find_credential (id : jsstr) (l : list WebAuthnCredentialMeta) : option WebAuthnCredentialMeta :=
  match l with
  | [] => None
  | m :: l' => if str_eqb (wm_id m) id then Some m else find_credential id l'
  end.

(** The assertion of the authenticator is given by the counter in its data;
    [None]: no assertion. *)
Definition authenticateWebAuthn (supported secure : bool) (cfg : MfaConfig) (credentialId : jsstr)
    (assertion : option Z) : result webauthn_error (bool * MfaConfig) :=
  _ ← throw_if (negb supported) NotSupported;
  _ ← throw_if (negb secure) NotSecureContext;
  match find_credential credentialId (kc_credentials (webauthn cfg)) with
  | None => Throw CredentialNotFound
  | Some stored =>
      _ ← throw_if (bool_decide (b64urlToBuf (wm_rawId stored) = None)) InvalidCharacter;
      match assertion with
      | None => Ok (false, cfg)
      | Some newCounter =>
          _ ← throw_if ((newCounter >? 0) && (newCounter <=? wm_counter stored)) CounterDecreased;
          Ok (true, set_webauthn cfg (mkKeyConfig (kc_enabled (webauthn cfg))
                (update_counter credentialId newCounter (kc_credentials (webauthn cfg)))))
      end
  end.

(** Registration through the daemon: [id] is what the first device returned. *)
Definition registerWebAuthn (supported secure : bool) (cfg : MfaConfig) (devices : list jsstr) (id name : jsstr)
    (now : Z) : result webauthn_error (WebAuthnCredentialMeta * MfaConfig) :=
  _ ← throw_if (negb supported) NotSupported;
  _ ← throw_if (negb secure) NotSecureContext;
  _ ← throw_if (len devices =? 0) NoDevices;
  let meta := mkMeta id id name now 0 in
  Ok (meta, set_webauthn cfg (mkKeyConfig true (kc_credentials (webauthn cfg) ++ [meta]))).

(** Platform credentials: [rawId] is [None] when the ceremony was cancelled. *)
Definition registerPasskey (supported secure : bool) (cfg : MfaConfig) (rawId : option bytes) (name : jsstr)
    (now : Z) : result webauthn_error (WebAuthnCredentialMeta * MfaConfig) :=
  _ ← throw_if (negb supported) NotSupported;
  _ ← throw_if (negb secure) NotSecureContext;
  match rawId with
  | None => Throw Cancelled
  | Some raw =>
      let meta := mkMeta (bufToB64url raw) (bufToB64url raw) name now 0 in
      Ok (meta, set_passkeys cfg (mkKeyConfig true (key_credentials (passkeys cfg) ++ [meta])))
  end.

Definition registerPlatformAuth (supported secure : bool) (cfg : MfaConfig) (rawId : option bytes) (name : jsstr)
    (now : Z) : result webauthn_error (WebAuthnCredentialMeta * MfaConfig) :=
  _ ← throw_if (negb supported) NotSupported;
  _ ← throw_if (negb secure) NotSecureContext;
  match rawId with
  | None => Throw Cancelled
  | Some raw =>
      let meta := mkMeta (bufToB64url raw) (bufToB64url raw) name now 0 in
      Ok (meta, set_platform cfg (mkKeyConfig true (key_credentials (platform cfg) ++ [meta])))
  end.

(** [refreshPasskeyHint]: ids and names of the platform credentials. *)
Definition passkey_hints (cfg : MfaConfig) : list (jsstr * jsstr) :=
  map (λ m, (wm_rawId m, wm_name m)) (key_credentials (passkeys cfg) ++ key_credentials (platform cfg)).

(** The decision of [authenticateWithPasskeyForLogin] on the returned credential id. *)
Definition authenticateWithPasskeyForLogin (supported secure : bool) (hints : list (jsstr * jsstr))
    (cfg : MfaConfig) (assertion : option bytes) : result webauthn_error bool :=
  _ ← throw_if (negb supported) NotSupported;
  _ ← throw_if (negb secure) NotSecureContext;
  _ ← throw_if (existsb (λ h, bool_decide (b64urlToBuf h.1 = None)) hints) InvalidCharacter;
  match assertion with
  | None => Ok false
  | Some rawId =>
      let returnedId := bufToB64url rawId in
      if existsb (λ h, str_eqb h.1 returnedId) hints then Ok true
      else Ok (existsb (λ c, str_eqb (wm_id c) returnedId) (key_credentials (passkeys cfg))
               || existsb (λ c, str_eqb (wm_id c) returnedId) (key_credentials (platform cfg)))
  end.
