(* ===== verification/MfaSpec.v ===== *)
(** * Theorems on multi-factor authentication *)
From S2P Require Import Prelude JsRuntime JsText Base64 Mfa.

(** ** Base32: the 32-bit accumulators as numbers

    Encoder and decoder shift an int32 that wraps around; only its low bits
    matter.  [v mod 2^bits] is what an accumulator stands for. *)

Lemma mod_pow_sub a m n : 0 <= m <= n → (a mod 2 ^ n) mod 2 ^ m = a mod 2 ^ m.
Proof.
  intros. replace (2 ^ n) with (2 ^ m * 2 ^ (n - m)) by (rewrite <- Z.pow_add_r by lia; f_equal; lia).
  assert (0 < 2 ^ m) by (apply Z.pow_pos_nonneg; lia).
  assert (0 < 2 ^ (n - m)) by (apply Z.pow_pos_nonneg; lia).
  rewrite Z.rem_mul_r by lia. rewrite Z.mul_comm, Z.mod_add by lia. apply Z.mod_mod. lia.
Qed.

Lemma uint32_low x n : 0 <= n <= 32 → to_uint32 x mod 2 ^ n = x mod 2 ^ n.
Proof. intros. unfold to_uint32. by apply mod_pow_sub. Qed.

(** [(value << k) | d] appends the bits of [d]. *)
Lemma push_bits v k d n :
  0 <= k <= 8 → 0 <= d < 2 ^ k → 0 <= n <= 8 →
  bor (shl v k) d mod 2 ^ (n + k) = (v mod 2 ^ n) * 2 ^ k + d.
Proof.
  intros Hk Hd Hn. rewrite <- uint32_low by lia. rewrite to_uint32_bor, to_uint32_shl by lia.
  assert (0 < 2 ^ k) by (apply Z.pow_pos_nonneg; lia).
  assert (0 < 2 ^ n) by (apply Z.pow_pos_nonneg; lia).
  assert (2 ^ k <= 2 ^ 8) by (apply Z.pow_le_mono_r; lia).
  rewrite (to_uint32_id d) by lia.
  assert (E : to_uint32 (v * 2 ^ k) = (v mod 2 ^ (32 - k)) * 2 ^ k).
  { unfold to_uint32. replace (2 ^ 32) with (2 ^ (32 - k) * 2 ^ k) at 1
      by (rewrite <- Z.pow_add_r by lia; f_equal; lia).
    assert (0 < 2 ^ (32 - k)) by (apply Z.pow_pos_nonneg; lia).
    by rewrite Z.mul_mod_distr_r by lia. }
  rewrite E, lor_add_disjoint by lia.
  rewrite Z.pow_add_r by lia.
  replace (v mod 2 ^ (32 - k)) with (2 ^ n * (v mod 2 ^ (32 - k) / 2 ^ n) + v mod 2 ^ n)
    by (rewrite <- (mod_pow_sub v n (32 - k)) by lia; symmetry; apply Z.div_mod; lia).
  set (q := v mod 2 ^ (32 - k) / 2 ^ n). pose proof (Z.mod_pos_bound v (2 ^ n)).
  symmetry. apply Z.mod_unique_pos with q; nia.
Qed.

(** [(value >>> k) & (2^m - 1)] reads [m] bits above the [k] lowest. *)
Lemma read_bits v k m :
  0 <= k < 32 → 0 <= m <= 30 → k + m <= 32 →
  band (shr v k) (Z.ones m) = (v mod 2 ^ (k + m)) / 2 ^ k.
Proof.
  intros Hk Hm Hkm. rewrite band_ones by lia. unfold shr. rewrite (Z.mod_small k) by lia.
  rewrite Z.shiftr_div_pow2 by lia.
  assert (0 < 2 ^ k) by (apply Z.pow_pos_nonneg; lia).
  assert (0 < 2 ^ m) by (apply Z.pow_pos_nonneg; lia).
  rewrite <- (uint32_low v (k + m)) by lia. rewrite Z.pow_add_r by lia.
  rewrite Z.rem_mul_r by lia. rewrite Z.mul_comm, Z.div_add by lia.
  rewrite (Z.div_small (_ mod 2 ^ k)) by (apply Z.mod_pos_bound; lia). lia.
Qed.

Lemma low_mod v a b : 0 <= a <= b → v mod 2 ^ a = (v mod 2 ^ b) mod 2 ^ a.
Proof. intros. by rewrite mod_pow_sub. Qed.

Lemma index_of_b32 i : 0 <= i < 32 → index_of (b32_char i) B32_CHARS = Some i.
Proof.
  intros H. assert (Hall : Forall (λ i, index_of (b32_char i) B32_CHARS = Some i) (seqZ 0 32))
    by (apply (bool_decide_unpack _); by vm_compute).
  rewrite Forall_forall in Hall. apply Hall, elem_of_seqZ. lia.
Qed.

(** One character of the decoder. *)
Lemma dec_push i s dv d out :
  0 <= i < 32 → 0 <= d < 8 →
  ∃ dv', dv' mod 2 ^ (d + 5) = (dv mod 2 ^ d) * 32 + i ∧
    b32_dec_loop (b32_char i :: s) dv d out =
      if 8 <=? d + 5 then b32_dec_loop s dv' (d - 3) (out ++ [(dv' mod 2 ^ (d + 5)) / 2 ^ (d - 3)])
      else b32_dec_loop s dv' (d + 5) out.
Proof.
  intros Hi Hd. exists (bor (shl dv 5) i). split; [apply (push_bits dv 5 i d); lia|].
  cbn [b32_dec_loop]. rewrite index_of_b32 by done. rewrite Z.geb_leb.
  destruct (Z.leb_spec 8 (d + 5)); [|done].
  replace (d + 5 - 8) with (d - 3) by lia. change 255 with (Z.ones 8).
  rewrite read_bits by lia. replace (d - 3 + 8) with (d + 5) by lia. done.
Qed.

(** The characters the encoder still writes from a state of its loop. *)
Fixpoint enc_chars (bs : bytes) (value bits : Z) : jsstr :=
  match bs with
  | [] => if bits >? 0 then [b32_char (band (shl value (5 - bits)) 31)] else []
  | byte :: bs' =>
      let value := bor (shl value 8) byte in
      let '(bits, s) := b32_drain 3 value (bits + 8) [] in
      s ++ enc_chars bs' value bits
  end.

Lemma b32_drain_app f v b out :
  b32_drain f v b out = ((b32_drain f v b []).1, out ++ (b32_drain f v b []).2).
Proof.
  revert b out. induction f as [|f IH]; intros b out; simpl; [by rewrite app_nil_r|].
  destruct (b >=? 5); [|by rewrite app_nil_r].
  rewrite IH, (IH _ [_]). simpl. by rewrite <- app_assoc.
Qed.

Lemma enc_loop_chars bs v b out :
  (let '(value, bits, output) := b32_enc_loop bs v b out in
   if bits >? 0 then output ++ [b32_char (band (shl value (5 - bits)) 31)] else output)
  = out ++ enc_chars bs v b.
Proof.
  revert v b out. induction bs as [|x bs IH]; intros v b out; cbn [b32_enc_loop enc_chars].
  - destruct (b >? 0); [done|by rewrite app_nil_r].
  - rewrite b32_drain_app. destruct (b32_drain 3 _ (b + 8) []) as [b' s]. cbn [fst snd].
    rewrite IH. by rewrite app_assoc.
Qed.

Lemma base32Encode_chars bs : base32Encode bs = enc_chars bs 0 0.
Proof. unfold base32Encode. apply (enc_loop_chars bs 0 0 []). Qed.

(** One byte of the encoder, by the number [e] of bits pending. *)
Lemma enc_push b bs v e :
  is_byte b → 0 <= e <= 4 →
  ∃ v', v' mod 2 ^ (e + 8) = (v mod 2 ^ e) * 256 + b ∧
    enc_chars (b :: bs) v e =
      b32_char ((v' mod 2 ^ (e + 8)) / 2 ^ (e + 3)) ::
      (if e <? 2 then enc_chars bs v' (e + 3)
       else b32_char ((v' mod 2 ^ (e + 3)) / 2 ^ (e - 2)) :: enc_chars bs v' (e - 2)).
Proof.
  intros Hb He. exists (bor (shl v 8) b). split; [apply (push_bits v 8 b e); unfold is_byte in Hb; lia|].
  cbn [enc_chars]. set (v' := bor (shl v 8) b). cbn [b32_drain]. rewrite !Z.geb_leb.
  rewrite (proj2 (Z.leb_le 5 (e + 8))) by lia. change 31 with (Z.ones 5).
  rewrite (read_bits v' (e + 8 - 5)) by lia.
  replace (e + 8 - 5 + 5) with (e + 8) by lia. replace (e + 8 - 5) with (e + 3) by lia.
  destruct (Z.ltb_spec e 2).
  - rewrite (proj2 (Z.leb_gt 5 (e + 3))) by lia. done.
  - rewrite (proj2 (Z.leb_le 5 (e + 3))) by lia.
    rewrite (read_bits v' (e + 3 - 5)) by lia.
    replace (e + 3 - 5 + 5) with (e + 3) by lia. replace (e + 3 - 5) with (e - 2) by lia.
    rewrite (proj2 (Z.leb_gt 5 (e - 2))) by lia. done.
Qed.

Lemma enc_tail v e :
  1 <= e <= 4 → enc_chars [] v e = [b32_char ((v mod 2 ^ e) * 2 ^ (5 - e))].
Proof.
  intros He. cbn [enc_chars]. rewrite Z.gtb_ltb, (proj2 (Z.ltb_lt 0 e)) by lia.
  rewrite band_31. change 32 with (2 ^ 5). rewrite <- (uint32_low (shl v (5 - e)) 5) by lia.
  rewrite to_uint32_shl, uint32_low by lia. do 2 f_equal.
  replace (2 ^ 5) with (2 ^ e * 2 ^ (5 - e)) by (rewrite <- Z.pow_add_r by lia; f_equal; lia).
  assert (0 < 2 ^ e) by (apply Z.pow_pos_nonneg; lia).
  assert (0 < 2 ^ (5 - e)) by (apply Z.pow_pos_nonneg; lia).
  by rewrite Z.mul_mod_distr_r by lia.
Qed.

(** Encoder and decoder in step: the decoder has read all characters written so
    far; the last byte is split between the two accumulators. *)
Definition in_step (v e dv d : Z) (pending : bytes) : Prop :=
  (e = 0 ∧ d = 0 ∧ pending = []) ∨
  (1 <= e <= 4 ∧ d = 8 - e ∧ ∃ b, is_byte b ∧ pending = [b] ∧ (dv mod 2 ^ d) * 2 ^ e + v mod 2 ^ e = b).

(** Evaluates the powers of two of closed exponents. *)
Ltac pow2 :=
  repeat match goal with
  | |- context [2 ^ ?n] => is_ground n; let p := eval vm_compute in (2 ^ n) in change (2 ^ n) with p
  | H : context [2 ^ ?n] |- _ => is_ground n; let p := eval vm_compute in (2 ^ n) in change (2 ^ n) with p in H
  end.

(** Reads the next character of the decoder in the goal. *)
Ltac dec_char :=
  match goal with |- b32_dec_loop (b32_char ?i :: ?s) ?dv ?d ?out = _ =>
    let w := fresh "w" in let Hw := fresh "Hw" in let E := fresh "E" in
    destruct (dec_push i s dv d out) as (w & Hw & E); [lia|lia|]; rewrite E; clear E;
    let b := eval vm_compute in (8 <=? d + 5) in change (8 <=? d + 5) with b;
    cbn iota; pow2;
    try (let d' := eval vm_compute in (d - 3) in change (d - 3) with d');
    try (let d' := eval vm_compute in (d + 5) in change (d + 5) with d') end.

Ltac enc_byte b bs v e :=
  let w := fresh "v'" in let Hw := fresh "Hv" in let E := fresh "E" in
  destruct (enc_push b bs v e) as (w & Hw & E); [done|lia|]; rewrite E; clear E;
  let c := eval vm_compute in (e <? 2) in change (e <? 2) with c; cbn iota; pow2;
  try (let d' := eval vm_compute in (e + 3) in change (e + 3) with d');
  try (let d' := eval vm_compute in (e - 2) in change (e - 2) with d').

Lemma b32_step bs : ∀ v e dv d pending out,
  Bytes bs → in_step v e dv d pending →
  b32_dec_loop (enc_chars bs v e) dv d out = out ++ pending ++ bs.
Proof.
  induction bs as [|b bs IH]; intros v e dv d pending out HB HR.
  - destruct HR as [(-> & -> & ->)|(He & -> & x & Hx & -> & Hb)]; [by rewrite !app_nil_r|].
    rewrite enc_tail by done. unfold is_byte in *.
    assert (e = 1 ∨ e = 2 ∨ e = 3 ∨ e = 4) as [->|[->|[->| ->]]] by lia;
      (match goal with |- context [8 - ?e] => let d := eval vm_compute in (8 - e) in change (8 - e) with d in * end);
      pow2; dec_char; cbn [b32_dec_loop app]; do 2 f_equal; lia.
  - apply Bytes_cons in HB as [Hb HB]. pose proof Hb as Hb'. unfold is_byte in Hb'.
    destruct HR as [(-> & -> & ->)|(He & -> & x & Hx & -> & Hpend)].
    + enc_byte b bs v 0. dec_char. rewrite (IH _ _ _ _ [b]); [done|done|].
      right. split; [lia|]. split; [done|]. exists b. pow2. repeat split; try done; lia.
    + unfold is_byte in Hx.
      assert (e = 1 ∨ e = 2 ∨ e = 3 ∨ e = 4) as [->|[->|[->| ->]]] by lia;
      (match goal with |- context [8 - ?e] => let d := eval vm_compute in (8 - e) in change (8 - e) with d in * end);
      pow2.
      * enc_byte b bs v 1. dec_char. rewrite (IH _ _ _ _ [b]); [|done|].
        -- rewrite <- app_assoc. cbn [app]. do 2 f_equal. lia.
        -- right. split; [lia|]. split; [done|]. exists b. pow2. repeat split; try done; lia.
      * enc_byte b bs v 2. dec_char. dec_char. rewrite (IH _ _ _ _ []); [|done|].
        -- rewrite <- !app_assoc. cbn [app]. do 2 f_equal; [lia|]. f_equal. lia.
        -- left. done.
      * enc_byte b bs v 3. dec_char. dec_char. rewrite (IH _ _ _ _ [b]); [|done|].
        -- rewrite <- app_assoc. cbn [app]. do 2 f_equal. lia.
        -- right. split; [lia|]. split; [done|]. exists b. pow2. repeat split; try done; lia.
      * enc_byte b bs v 4. dec_char. dec_char. rewrite (IH _ _ _ _ [b]); [|done|].
        -- rewrite <- app_assoc. cbn [app]. do 2 f_equal. lia.
        -- right. split; [lia|]. split; [done|]. exists b. pow2. repeat split; try done; lia.
Qed.

(** *** Every character is of the alphabet *)

Definition is_b32 (c : Z) : bool := is_upper c || (50 <=? c) && (c <=? 55).

Lemma b32_char_is i : 0 <= i < 32 → is_b32 (b32_char i) = true.
Proof.
  intros H. assert (Hall : Forall (λ i, is_b32 (b32_char i) = true) (seqZ 0 32))
    by (apply (bool_decide_unpack _); by vm_compute).
  rewrite Forall_forall in Hall. apply Hall, elem_of_seqZ. lia.
Qed.

Lemma b32_char_band x : is_b32 (b32_char (band x 31)) = true.
Proof. apply b32_char_is. rewrite band_31. lia. Qed.

Lemma b32_drain_chars f v b : Forall (λ c, is_b32 c = true) (b32_drain f v b []).2.
Proof.
  revert b. induction f as [|f IH]; intros b; simpl; [constructor|].
  destruct (b >=? 5); [|constructor]. rewrite b32_drain_app. simpl. constructor; [|apply IH].
  apply b32_char_band.
Qed.

Lemma enc_chars_b32 bs v b : Forall (λ c, is_b32 c = true) (enc_chars bs v b).
Proof.
  revert v b. induction bs as [|x bs IH]; intros v b; cbn [enc_chars].
  - destruct (b >? 0); [|constructor]. constructor; [apply b32_char_band|constructor].
  - pose proof (b32_drain_chars 3 (bor (shl v 8) x) (b + 8)) as H.
    destruct (b32_drain 3 _ (b + 8) []) as [b' s]. apply Forall_app. split; [exact H|apply IH].
Qed.

Lemma is_b32_ascii c : is_b32 c = true → is_ascii c = true ∧ ascii_upper_unit c = c ∧ c ≠ 61.
Proof.
  unfold is_b32, is_ascii, ascii_upper_unit, is_upper, is_lower. intros H.
  apply orb_true_iff in H as [H|H]; to_prop;
    (rewrite (proj2 (Z.leb_le 0 c)), (proj2 (Z.ltb_lt c 128)), (proj2 (Z.leb_gt 97 c)) by lia; simpl; repeat split; lia).
Qed.

Section base32.
Context `{JsCase}.

Lemma base32Decode_b32 s :
  Forall (λ c, is_b32 c = true) s → base32Decode s = b32_dec_loop s 0 0 [].
Proof.
  intros Hs. unfold base32Decode. rewrite toUpperCase_ascii.
  - assert (map ascii_upper_unit s = s) as ->.
    { induction Hs as [|c s Hc _ IH]; [done|]. simpl. rewrite IH.
      by rewrite (proj1 (proj2 (is_b32_ascii c Hc))). }
    f_equal. rewrite <- (app_nil_r s) at 1. apply (strip_eq_app s 0). intros Hin.
    rewrite Forall_forall in Hs. apply Hs, is_b32_ascii in Hin as (_ & _ & ?). done.
  - apply forallb_forall. intros c Hc%list_elem_of_In. rewrite Forall_forall in Hs.
    by apply is_b32_ascii, Hs.
Qed.

Lemma base32_decode_encode bs : Bytes bs → base32Decode (base32Encode bs) = bs.
Proof.
  intros HB. rewrite base32Encode_chars, base32Decode_b32 by apply enc_chars_b32.
  rewrite (b32_step bs 0 0 0 0 []); [done|done|by left].
Qed.
End base32.

(** ** One-time codes *)

Lemma padStart0_len n s : len s <= n → len (padStart0 n s) = n.
Proof.
  intros H. unfold padStart0, len in *. rewrite length_app, length_replicate. lia.
Qed.

Lemma padStart0_digits n s : Forall (λ c, is_digit c = true) s → Forall (λ c, is_digit c = true) (padStart0 n s).
Proof. intros. apply Forall_app. split; [by apply Forall_replicate|done]. Qed.

(** Numerals without leading zeros are no longer than their bound. *)
Lemma dec_loop_len f n acc k :
  0 <= n < 10 ^ Z.of_nat k → (0 < k)%nat → (length (dec_loop f n acc) <= k + length acc)%nat.
Proof.
  revert n acc k. induction f as [|f IH]; intros n acc k Hn Hk; cbn [dec_loop]; [lia|].
  destruct (Z.eqb_spec (n / 10) 0); [cbn [length]; lia|].
  destruct k as [|[|k]]; [lia|simpl in Hn; lia|].
  etransitivity; [apply (IH _ _ (S k))|cbn [length]; lia]; [|lia].
  rewrite Nat2Z.inj_succ, Z.pow_succ_r in Hn by lia. lia.
Qed.

Lemma dec_len n k : 0 <= n < 10 ^ k → 0 < k → len (dec n) <= k.
Proof.
  intros Hn Hk. unfold dec. rewrite (proj2 (Z.ltb_ge n 0)) by lia. unfold dec_nonneg, len.
  pose proof (dec_loop_len (S (Z.to_nat (Z.log2 n))) n [] (Z.to_nat k)) as H.
  rewrite Z2Nat.id in H by lia. specialize (H Hn). cbn [length] in H. lia.
Qed.

Lemma dec_digits n : 0 <= n → Forall (λ c, is_digit c = true) (dec n).
Proof.
  intros. unfold dec. rewrite (proj2 (Z.ltb_ge n 0)) by lia. by apply dec_nonneg_spec.
Qed.

(** A number printed with leading zeros. *)
Lemma padded_dec n k : 0 <= n < 10 ^ k → 0 < k → all_digits k (padStart0 k (dec n)) = true.
Proof.
  intros Hn Hk. unfold all_digits. rewrite padStart0_len by (by apply dec_len).
  rewrite Z.eqb_refl. cbn [andb]. apply forallb_forall. intros c Hc%list_elem_of_In.
  assert (HF : Forall (λ c, is_digit c = true) (padStart0 k (dec n))) by (apply padStart0_digits, dec_digits; lia).
  rewrite Forall_forall in HF. by apply HF.
Qed.

Lemma shl_small x n : 0 <= n < 31 → 0 <= x → x * 2 ^ n < 2 ^ 31 → shl x n = x * 2 ^ n.
Proof.
  intros Hn Hx Hb. assert (1 <= 2 ^ n) by (pose proof (Z.pow_pos_nonneg 2 n); lia).
  unfold shl. rewrite (Z.mod_small n) by lia. rewrite (to_int32_id x) by nia.
  rewrite Z.shiftl_mul_pow2 by lia. by rewrite to_int32_id by lia.
Qed.

Lemma bor_disjoint a b n :
  0 <= n → 0 <= a → 0 <= b < 2 ^ n → a * 2 ^ n + b < 2 ^ 31 → bor (a * 2 ^ n) b = a * 2 ^ n + b.
Proof.
  intros Hn Ha Hb Hs. unfold bor. rewrite !to_int32_id by nia. by apply lor_add_disjoint.
Qed.

Lemma byte_at_byte l i : Bytes l → is_byte (byte_at l i).
Proof.
  intros H. unfold byte_at. destruct (nth_in_or_default (Z.to_nat i) l 0) as [Hin| ->].
  - unfold Bytes in H. rewrite Forall_forall in H. apply H. by apply list_elem_of_In.
  - unfold is_byte. lia.
Qed.

(** The dynamic truncation is a 31-bit number, never negative. *)
Lemma truncate_range sig : Bytes sig → 0 <= truncate sig < 2 ^ 31.
Proof.
  intros H. unfold truncate. set (o := band (byte_at sig (len sig - 1)) 15).
  pose proof (byte_at_byte sig o H) as H0. pose proof (byte_at_byte sig (o + 1) H) as H1.
  pose proof (byte_at_byte sig (o + 2) H) as H2. pose proof (byte_at_byte sig (o + 3) H) as H3.
  unfold is_byte in *. change 127 with (Z.ones 7). rewrite band_ones by lia.
  rewrite !shl_small by lia.
  set (a := byte_at sig o mod 2 ^ 7). assert (0 <= a < 128) by (unfold a; lia).
  rewrite (bor_disjoint a (byte_at sig (o + 1) * 2 ^ 16) 24) by lia.
  replace (a * 2 ^ 24 + byte_at sig (o + 1) * 2 ^ 16) with ((a * 2 ^ 8 + byte_at sig (o + 1)) * 2 ^ 16) by lia.
  rewrite (bor_disjoint _ (byte_at sig (o + 2) * 2 ^ 8) 16) by lia.
  replace ((a * 2 ^ 8 + byte_at sig (o + 1)) * 2 ^ 16 + byte_at sig (o + 2) * 2 ^ 8) with
    (((a * 2 ^ 8 + byte_at sig (o + 1)) * 2 ^ 8 + byte_at sig (o + 2)) * 2 ^ 8) by lia.
  rewrite bor_disjoint by lia. lia.
Qed.

Section hotp.
Context `{JsCase} `{C : OtpHmac} {L : OtpHmacLaws C}.

Lemma computeHotp_shape secret c alg digits :
  0 < digits → all_digits digits (computeHotp secret c alg digits) = true.
Proof.
  intros Hd. unfold computeHotp. apply padded_dec; [|done].
  apply Z.mod_pos_bound. apply Z.pow_pos_nonneg; lia.
Qed.

Lemma hotp_search_spec n i secret stored clean alg digits :
  match hotp_search n i secret stored clean alg digits with
  | Some next => ∃ j, i <= j < i + Z.of_nat n ∧ next = stored + j + 1 ∧
      computeHotp secret (stored + j) alg digits = clean ∧
      ∀ k, i <= k < j → computeHotp secret (stored + k) alg digits ≠ clean
  | None => ∀ k, i <= k < i + Z.of_nat n → computeHotp secret (stored + k) alg digits ≠ clean
  end.
Proof.
  revert i. induction n as [|n IH]; intros i; cbn [hotp_search]; [intros; lia|].
  destruct (str_eqb _ clean) eqn:E.
  - apply str_eqb_eq in E. exists i. split; [lia|]. split; [lia|]. split; [done|]. intros; lia.
  - assert (Hi : computeHotp secret (stored + i) alg digits ≠ clean)
      by (intros Heq; apply str_eqb_eq in Heq; congruence).
    specialize (IH (i + 1)). destruct (hotp_search n (i + 1) _ _ _ _ _).
    + destruct IH as (j & Hj & -> & Hc & Hk). exists j. split; [lia|]. split; [lia|]. split; [done|].
      intros k Hkj. destruct (Z.eq_dec k i) as [->|]; [done|]. apply Hk. lia.
    + intros k Hk. destruct (Z.eq_dec k i) as [->|]; [done|]. apply IH. lia.
Qed.

Lemma verifyHotp_cases secret stored token lookahead alg digits :
  0 < digits → 0 <= lookahead →
  let clean := strip_spaces token in
  match verifyHotp secret stored token lookahead alg digits with
  | (true, next) =>
      stored < next <= stored + lookahead + 1 ∧
      computeHotp secret (next - 1) alg digits = clean ∧
      ∀ c, stored <= c < next - 1 → computeHotp secret c alg digits ≠ clean
  | (false, next) =>
      next = stored ∧
      ∀ c, stored <= c <= stored + lookahead → computeHotp secret c alg digits ≠ clean
  end.
Proof.
  intros Hd Hl. cbn zeta. unfold verifyHotp. destruct (all_digits _ _) eqn:E; cbn [negb].
  - pose proof (hotp_search_spec (Z.to_nat (lookahead + 1)) 0 secret stored (strip_spaces token) alg digits) as Hs.
    destruct (hotp_search _ _ _ _ _ _ _) as [next|].
    + destruct Hs as (j & Hj & -> & Hc & Hk). replace (stored + j + 1 - 1) with (stored + j) by lia.
      split; [lia|]. split; [done|]. intros c Hcj. specialize (Hk (c - stored)).
      replace (stored + (c - stored)) with c in Hk by lia. apply Hk. lia.
    + split; [done|]. intros c Hc. specialize (Hs (c - stored)).
      replace (stored + (c - stored)) with c in Hs by lia. apply Hs. lia.
  - split; [done|]. intros c _ Heq. pose proof (computeHotp_shape secret c alg digits Hd) as Hsh.
    rewrite Heq in Hsh. congruence.
Qed.
End hotp.

(** ** TOTP as a state machine *)

Section totp.
Context `{JsCase} `{C : OtpHmac} {L : OtpHmacLaws C}.

Record call := mkCall { cl_now : Z; cl_secret : jsstr; cl_token : jsstr; cl_alg : jsstr; cl_digits : Z }.

(** The period an accepted call used. *)
Definition accepted_period (c : call) : Z :=
  if str_eqb (computeHotp (cl_secret c) (cl_now c / 30000) (cl_alg c) (cl_digits c)) (strip_spaces (cl_token c))
  then cl_now c / 30000 else (cl_now c + 30000) / 30000.

(** What an acceptance consumes: the code of one period of one secret. *)
Definition ticket (c : call) : jsstr * Z * jsstr * Z :=
  (cl_secret c, accepted_period c, cl_alg c, cl_digits c).
Definition ticket_key (t : jsstr * Z * jsstr * Z) : jsstr :=
  replayKey t.1.1.1 t.1.1.2 t.1.2 t.2.

(** Sessions: calls at non-decreasing times, with the log of what they consumed. *)
Inductive session : gmap (list Z) Z → Z → list (jsstr * Z * jsstr * Z) → Prop :=
| session_start now : session ∅ now []
| session_refused used now log c used' :
    session used now log → now <= cl_now c →
    verifyTotp used (cl_now c) (cl_secret c) (cl_token c) (cl_alg c) (cl_digits c) = (false, used') →
    session used' (cl_now c) log
| session_accepted used now log c used' :
    session used now log → now <= cl_now c →
    verifyTotp used (cl_now c) (cl_secret c) (cl_token c) (cl_alg c) (cl_digits c) = (true, used') →
    session used' (cl_now c) (ticket c :: log).

(** Tickets that could still be presented are remembered until they cannot. *)
Definition remembered (used : gmap (list Z) Z) (now : Z) (log : list (jsstr * Z * jsstr * Z)) : Prop :=
  ∀ t, t ∈ log → now < (t.1.1.2 + 1) * 30000 →
    ∃ e, used !! ticket_key t = Some e ∧ (t.1.1.2 + 1) * 30000 <= e.

Lemma gc_lookup now used k e : e >= now → used !! k = Some e → gc now used !! k = Some e.
Proof. intros He Hk. unfold gc. apply map_lookup_filter_Some. split; [done|]. simpl. lia. Qed.

Lemma remembered_gc used now now' log :
  now <= now' → remembered used now log → remembered (gc now' used) now' log.
Proof.
  intros Hle Hr t Ht Hlive. destruct (Hr t Ht) as (e & He & Hb); [lia|].
  exists e. split; [|done]. apply gc_lookup; [lia|done].
Qed.

Lemma remembered_insert used now log k e :
  used !! k = None → remembered used now log → remembered (<[k := e]> used) now log.
Proof.
  intros Hk Hr t Ht Hlive. destruct (Hr t Ht Hlive) as (e' & He' & Hb). exists e'. split; [|done].
  rewrite lookup_insert_ne; [done|]. intros ->. congruence.
Qed.

Lemma remembered_later used now now' log : now <= now' → remembered used now log → remembered used now' log.
Proof. intros Hle Hr t Ht Hlive. apply Hr; [done|lia]. Qed.

(** What a call does to the memory. *)
Lemma verifyTotp_cases used c r used' :
  verifyTotp used (cl_now c) (cl_secret c) (cl_token c) (cl_alg c) (cl_digits c) = (r, used') →
  (r = false ∧ (used' = used ∨ used' = gc (cl_now c) used)) ∨
  (r = true ∧ gc (cl_now c) used !! ticket_key (ticket c) = None ∧
   used' = <[ticket_key (ticket c) := (accepted_period c + 2) * 30000]> (gc (cl_now c) used) ∧
   computeHotp (cl_secret c) (accepted_period c) (cl_alg c) (cl_digits c) = strip_spaces (cl_token c)).
Proof.
  unfold verifyTotp. destruct (negb _); [intros [= <- <-]; auto|].
  unfold ticket, ticket_key, accepted_period. cbn [fst snd]. unfold try_period.
  assert (Hone : ∀ p, (if bool_decide (is_Some (gc (cl_now c) used !! replayKey (cl_secret c) p (cl_alg c) (cl_digits c)))
      then (false, gc (cl_now c) used)
      else (true, <[replayKey (cl_secret c) p (cl_alg c) (cl_digits c):=(p + 2) * 30000]> (gc (cl_now c) used))) = (r, used') →
    (r = false ∧ used' = gc (cl_now c) used) ∨
    (r = true ∧ gc (cl_now c) used !! replayKey (cl_secret c) p (cl_alg c) (cl_digits c) = None ∧
     used' = <[replayKey (cl_secret c) p (cl_alg c) (cl_digits c):=(p + 2) * 30000]> (gc (cl_now c) used))).
  { intros p. case_bool_decide as Hs; intros [= <- <-]; [by left|right].
    by rewrite <- eq_None_not_Some in Hs. }
  destruct (str_eqb _ _) eqn:E1.
  - apply str_eqb_eq in E1. intros Hr. specialize (Hone (cl_now c / 30000)).
    destruct (bool_decide _); injection Hr as <- <-; specialize (Hone eq_refl);
      (destruct Hone as [[? ?]|(? & ? & ?)]; [left|right]; auto).
  - destruct (str_eqb (computeHotp _ ((cl_now c + 30000) / 30000) _ _) _) eqn:E2; [|intros [= <- <-]; auto].
    apply str_eqb_eq in E2. intros Hr. specialize (Hone ((cl_now c + 30000) / 30000)).
    destruct (bool_decide _); injection Hr as <- <-; specialize (Hone eq_refl);
      (destruct Hone as [[? ?]|(? & ? & ?)]; [left|right]; auto).
Qed.

Lemma accepted_period_live c : cl_now c < (accepted_period c + 1) * 30000.
Proof. unfold accepted_period. case_if; lia. Qed.

Lemma session_remembered used now log : session used now log → remembered used now log.
Proof.
  induction 1 as [now|used now log c used' _ IH Hle Hv|used now log c used' _ IH Hle Hv].
  - intros t Ht. by apply not_elem_of_nil in Ht.
  - apply verifyTotp_cases in Hv as [[_ [->| ->]]|[? _]]; [by eapply remembered_later|by eapply remembered_gc|done].
  - apply verifyTotp_cases in Hv as [[? _]|(_ & Hk & -> & _)]; [done|].
    intros t [->|Ht]%elem_of_cons Hlive.
    + exists ((accepted_period c + 2) * 30000). split; [apply lookup_insert_eq|]. cbn [ticket fst snd] in *. lia.
    + eapply remembered_insert; [done| |done|done]. by eapply remembered_gc.
Qed.

Lemma session_NoDup used now log : session used now log → NoDup log.
Proof.
  induction 1 as [now|used now log c used' Hs IH Hle Hv|used now log c used' Hs IH Hle Hv];
    [constructor|done|]. constructor; [|done]. intros Hin.
  apply verifyTotp_cases in Hv as [[? _]|(_ & Hk & _ & _)]; [done|].
  pose proof (remembered_gc _ _ _ _ Hle (session_remembered _ _ _ Hs)) as Hr.
  destruct (Hr _ Hin) as (e & He & _); [apply accepted_period_live|]. congruence.
Qed.
End totp.

(** ** The theorems *)

Module OtpSpec.

(** The base32 secret shown to the user decodes to the generated bytes,
    although both conversions run on a wrapping 32-bit accumulator. *)
Theorem base32_roundtrip `{JsCase} bs : Bytes bs → base32Decode (base32Encode bs) = bs.
Proof. apply base32_decode_encode. Qed.

(** Every HOTP code is printed with exactly the configured number of
    decimal digits: the dynamic truncation is never negative and the padding is
    enough. *)
Theorem hotp_code_shape `{JsCase} `{C : OtpHmac} {L : OtpHmacLaws C} secret counter alg digits :
  0 < digits →
  all_digits digits (computeHotp secret counter alg digits) = true ∧
  0 <= truncate (hmac alg (base32Decode secret) (hotp_message counter)) < 2 ^ 31.
Proof.
  intros Hd. split; [by apply computeHotp_shape|]. apply truncate_range, hmac_Bytes.
Qed.

(** [verifyHotp] accepts a token exactly when it is the code of a counter in
    the look-ahead window; it then moves the counter just past the first such
    counter, so the code and every earlier one are spent, and on failure it
    leaves the counter alone. *)
Theorem verifyHotp_correct `{JsCase} `{C : OtpHmac} {L : OtpHmacLaws C} secret stored token lookahead alg digits :
  0 < digits → 0 <= lookahead →
  let clean := strip_spaces token in
  match verifyHotp secret stored token lookahead alg digits with
  | (true, next) =>
      stored < next <= stored + lookahead + 1 ∧
      computeHotp secret (next - 1) alg digits = clean ∧
      ∀ c, stored <= c < next - 1 → computeHotp secret c alg digits ≠ clean
  | (false, next) =>
      next = stored ∧
      ∀ c, stored <= c <= stored + lookahead → computeHotp secret c alg digits ≠ clean
  end.
Proof. apply verifyHotp_cases. Qed.

(** No TOTP code is accepted twice.  In every session of calls at
    non-decreasing times, whatever tokens are tried for whatever secrets, the
    (secret, period, algorithm, digits) combinations that were accepted are all
    different: the garbage collection never forgets one that could still be
    presented. *)
Theorem totp_no_replay `{JsCase} `{C : OtpHmac} {L : OtpHmacLaws C} used now log :
  session used now log → NoDup log.
Proof. apply session_NoDup. Qed.

(** A TOTP token is accepted only for the current period or the next one:
    unlike the comment on the function says, the previous period is not
    tolerated. *)
Theorem totp_window `{JsCase} `{C : OtpHmac} {L : OtpHmacLaws C} used now secret token alg digits used' :
  verifyTotp used now secret token alg digits = (true, used') →
  computeHotp secret (now / 30000) alg digits = strip_spaces token ∨
  computeHotp secret (now / 30000 + 1) alg digits = strip_spaces token.
Proof.
  intros Hv. pose proof (verifyTotp_cases used (mkCall now secret token alg digits) true used' Hv)
    as [[? _]|(_ & _ & _ & Hc)]; [done|].
  unfold accepted_period in Hc. cbn [cl_now cl_secret cl_token cl_alg cl_digits] in Hc.
  replace ((now + 30000) / 30000) with (now / 30000 + 1) in Hc by lia. case_match; auto.
Qed.

(** The verdicts of a sequence of attempts, each a time and a token. *)
Fixpoint attempts (pending : option PendingEmailOtp) (l : list (Z * jsstr)) : list bool :=
  match l with
  | [] => []
  | (now, token) :: l' =>
      let '(ok, pending') := verifyEmailCode pending now token in ok :: attempts pending' l'
  end.

Lemma attempts_None l : attempts None l = map (λ _, false) l.
Proof. induction l as [|[now token] l IH]; [done|]. simpl. by rewrite IH. Qed.

(** One generated e-mail code allows one attempt.  Of any sequence of
    attempts after a code was generated only the first can succeed, and it does
    exactly when it comes within five minutes and gives the code; the code is six
    decimal digits. *)
Theorem email_code_single_use draws now email code pending t token l :
  Forall (λ d, 0 <= d) draws →
  generateEmailCode draws now email = Some (code, pending) →
  all_digits 6 code = true ∧
  attempts pending ((t, token) :: l) =
    ((t <=? now + 300000) && str_eqb code (strip_spaces token)) :: map (λ _, false) l.
Proof.
  intros Hpos H. unfold generateEmailCode in H. destruct (draw_below OTP_LIMIT draws) as [d|] eqn:Ed; [|done].
  cbn [mbind option_bind] in H. injection H as <- <-. split.
  - apply padded_dec; [|lia]. change (10 ^ 6) with 1000000. lia.
  - cbn [attempts verifyEmailCode po_expires po_code]. rewrite Z.gtb_ltb, Z.leb_antisym.
    replace (now + 5 * 60 * 1000) with (now + 300000) by lia.
    destruct (now + 300000 <? t); cbn [negb andb]; by rewrite attempts_None.
Qed.

(** An authenticator that reports a counter must report a larger one every
    time: a positive counter that is not above the stored one is refused, and an
    accepted assertion stores the counter it reported. *)
Theorem webauthn_counter_monotone cfg id stored n :
  find_credential id (kc_credentials (webauthn cfg)) = Some stored →
  b64urlToBuf (wm_rawId stored) ≠ None → 0 < n →
  (n <= wm_counter stored → authenticateWebAuthn true true cfg id (Some n) = Throw CounterDecreased) ∧
  (wm_counter stored < n → ∃ cfg', authenticateWebAuthn true true cfg id (Some n) = Ok (true, cfg') ∧
     find_credential id (kc_credentials (webauthn cfg')) = Some (set_counter stored n)).
Proof.
  intros Hf Hraw Hn. unfold authenticateWebAuthn. cbn [negb throw_if mbind result_bind]. rewrite Hf.
  rewrite (bool_decide_eq_false_2 _ Hraw). cbn [throw_if mbind result_bind].
  rewrite Z.gtb_ltb, (proj2 (Z.ltb_lt 0 n)) by lia. cbn [andb]. split; intros Hc.
  - by rewrite (proj2 (Z.leb_le _ _)) by lia.
  - rewrite (proj2 (Z.leb_gt _ _)) by lia. eexists. split; [done|]. cbn [kc_credentials webauthn set_webauthn].
    clear -Hf. induction (kc_credentials (webauthn cfg)) as [|m l IH]; [done|]. simpl in *.
    destruct (str_eqb (wm_id m) id) eqn:E; simpl; rewrite E; [by injection Hf as ->|by apply IH].
Qed.

(** The clone detection can be switched off: an assertion that reports
    counter 0 is accepted whatever counter is stored and stores 0, after which
    every positive counter is accepted, the ones used before included. *)
Theorem webauthn_counter_reset cfg id stored m :
  find_credential id (kc_credentials (webauthn cfg)) = Some stored →
  b64urlToBuf (wm_rawId stored) ≠ None → 0 < m <= wm_counter stored →
  authenticateWebAuthn true true cfg id (Some m) = Throw CounterDecreased ∧
  ∃ cfg', authenticateWebAuthn true true cfg id (Some 0) = Ok (true, cfg') ∧
    ∃ cfg'', authenticateWebAuthn true true cfg' id (Some m) = Ok (true, cfg'').
Proof.
  intros Hf Hraw Hm. unfold authenticateWebAuthn. cbn [negb throw_if mbind result_bind]. rewrite Hf.
  rewrite (bool_decide_eq_false_2 _ Hraw). cbn [throw_if mbind result_bind].
  rewrite Z.gtb_ltb, (proj2 (Z.ltb_lt 0 m)), (proj2 (Z.leb_le m _)) by lia. split; [done|].
  eexists. split; [done|]. cbn [kc_credentials webauthn set_webauthn].
  assert (find_credential id (update_counter id 0 (kc_credentials (webauthn cfg))) = Some (set_counter stored 0)) as ->.
  { clear -Hf. induction (kc_credentials (webauthn cfg)) as [|x l IH]; [done|]. simpl in *.
    destruct (str_eqb (wm_id x) id) eqn:E; simpl; rewrite E; [by injection Hf as ->|by apply IH]. }
  cbn [wm_rawId set_counter wm_counter]. rewrite (bool_decide_eq_false_2 _ Hraw). cbn [throw_if mbind result_bind].
  rewrite (proj2 (Z.leb_gt m 0)) by lia. rewrite andb_false_r. eauto.
Qed.

(** A registered passkey logs in: after [registerPasskey] and the refresh of
    the hints, an assertion with the same credential id is accepted. *)
Theorem passkey_register_login cfg raw name now meta cfg' :
  Bytes raw →
  Forall (λ h, b64urlToBuf h.1 ≠ None) (passkey_hints cfg) →
  registerPasskey true true cfg (Some raw) name now = Ok (meta, cfg') →
  authenticateWithPasskeyForLogin true true (passkey_hints cfg') cfg' (Some raw) = Ok true.
Proof.
  intros Hraw Hh Hr. unfold registerPasskey in Hr. cbn [negb throw_if mbind result_bind] in Hr.
  injection Hr as <- <-. unfold authenticateWithPasskeyForLogin. cbn [negb throw_if mbind result_bind].
  set (hs := passkey_hints _).
  assert (Hhs : ∀ h, h ∈ hs → h ∈ passkey_hints cfg ∨ h = (bufToB64url raw, name)).
  { unfold hs, passkey_hints. simpl. intros h. rewrite !map_app. simpl. set_solver. }
  assert (Hin : (bufToB64url raw, name) ∈ hs).
  { unfold hs, passkey_hints. simpl. rewrite !map_app. simpl. set_solver. }
  assert (existsb (λ h, bool_decide (b64urlToBuf h.1 = None)) hs = false) as ->.
  { apply not_true_iff_false. rewrite existsb_exists. intros (h & Hi & Hd). apply bool_decide_eq_true in Hd.
    apply list_elem_of_In, Hhs in Hi as [Hi| ->].
    - rewrite Forall_forall in Hh. by apply Hh in Hi.
    - cbn [fst] in Hd. rewrite b64url_roundtrip in Hd by done. done. }
  cbn [throw_if mbind result_bind].
  assert (existsb (λ h, str_eqb h.1 (bufToB64url raw)) hs = true) as ->; [|done].
  apply existsb_exists. exists (bufToB64url raw, name). split; [by apply list_elem_of_In|].
  by apply str_eqb_eq.
Qed.

(** ** Witnesses *)

(** A keyed checksum in place of the HMAC. *)
Definition toy_hmac_sum (d : bytes) : Z := fold_left (λ a b, (a * 31 + b + 1) mod 251) d 7.
#[export] Instance toy_hmac : OtpHmac := {|
  hmac alg k m := map (λ i, toy_hmac_sum (i :: k ++ m)) (seqZ 0 20) |}.

#[export] Instance toy_hmac_laws : OtpHmacLaws toy_hmac.
Proof.
  split; intros.
  - unfold len. cbn [hmac toy_hmac]. rewrite length_map, length_seqZ. lia.
  - cbn [hmac toy_hmac]. apply Forall_map, Forall_forall. intros i _. unfold toy_hmac_sum.
    assert (Hb : is_byte 7) by (unfold is_byte; lia). revert Hb. generalize 7.
    induction (i :: k ++ m) as [|x d IH]; intros a Ha; [done|]. simpl. apply IH. unfold is_byte. lia.
Qed.

Definition s_secret : jsstr := js "JBSWY3DPEHPK3PXP".
Definition s_sha1 : jsstr := js "SHA-1".

Lemma base32_roundtrip_witness : base32Decode (base32Encode [72; 101; 108; 108; 111; 33]) = [72; 101; 108; 108; 111; 33].
Proof. apply base32_roundtrip. apply (bool_decide_unpack _); by vm_compute. Defined.

Lemma hotp_code_shape_witness :
  all_digits 6 (computeHotp s_secret 3 s_sha1 6) = true ∧
  0 <= truncate (hmac s_sha1 (base32Decode s_secret) (hotp_message 3)) < 2 ^ 31.
Proof. apply hotp_code_shape. lia. Defined.

Lemma verifyHotp_correct_witness :
  match verifyHotp s_secret 3 (computeHotp s_secret 5 s_sha1 6) 10 s_sha1 6 with
  | (true, next) => 3 < next <= 14 ∧ computeHotp s_secret (next - 1) s_sha1 6 = strip_spaces (computeHotp s_secret 5 s_sha1 6)
      ∧ ∀ c, 3 <= c < next - 1 → computeHotp s_secret c s_sha1 6 ≠ strip_spaces (computeHotp s_secret 5 s_sha1 6)
  | (false, next) => next = 3 ∧ ∀ c, 3 <= c <= 13 → computeHotp s_secret c s_sha1 6 ≠ strip_spaces (computeHotp s_secret 5 s_sha1 6)
  end.
Proof. apply (verifyHotp_correct s_secret 3 (computeHotp s_secret 5 s_sha1 6) 10 s_sha1 6); lia. Defined.

Lemma fst_true {A} (p : bool * A) : p.1 = true → p = (true, p.2).
Proof. by destruct p as [b a]; simpl; intros ->. Qed.

(** Two calls with the same code: the first is accepted, the second refused. *)
Definition s_code : jsstr := computeHotp s_secret 100 s_sha1 6.
Definition s_call (t : Z) : call := mkCall t s_secret s_code s_sha1 6.

Lemma totp_no_replay_witness :
  (verifyTotp (verifyTotp ∅ 3000000 s_secret s_code s_sha1 6).2 3000001 s_secret s_code s_sha1 6).1 = false ∧
  NoDup [ticket (s_call 3000000)].
Proof.
  split; [by vm_compute|].
  apply (totp_no_replay (verifyTotp ∅ 3000000 s_secret s_code s_sha1 6).2 3000000).
  apply (session_accepted ∅ 0 [] (s_call 3000000)); [constructor|by vm_compute|apply fst_true; by vm_compute].
Defined.

Lemma totp_window_witness :
  computeHotp s_secret (3000000 / 30000) s_sha1 6 = strip_spaces s_code ∨
  computeHotp s_secret (3000000 / 30000 + 1) s_sha1 6 = strip_spaces s_code.
Proof.
  apply (totp_window ∅ 3000000 s_secret s_code s_sha1 6 (verifyTotp ∅ 3000000 s_secret s_code s_sha1 6).2).
  apply fst_true. by vm_compute.
Defined.

Lemma email_code_single_use_witness :
  all_digits 6 (js "000042") = true ∧
  attempts (Some (mkPending (js "000042") [] 301000)) [(2000, js "000042"); (3000, js "000042")] = [true; false].
Proof.
  apply (email_code_single_use [4294000001; 42] 1000 [] (js "000042")); [|by vm_compute].
  by repeat constructor.
Defined.

Definition s_meta : WebAuthnCredentialMeta := mkMeta (js "AQID") (js "AQID") (js "YubiKey") 0 5.
Definition s_cfg : MfaConfig := set_webauthn DEFAULT_MFA (mkKeyConfig true [s_meta]).

Lemma webauthn_counter_monotone_witness :
  authenticateWebAuthn true true s_cfg (js "AQID") (Some 5) = Throw CounterDecreased.
Proof. apply (webauthn_counter_monotone s_cfg (js "AQID") s_meta 5); by vm_compute. Defined.

Lemma webauthn_counter_reset_witness :
  authenticateWebAuthn true true s_cfg (js "AQID") (Some 3) = Throw CounterDecreased ∧
  ∃ cfg', authenticateWebAuthn true true s_cfg (js "AQID") (Some 0) = Ok (true, cfg') ∧
    ∃ cfg'', authenticateWebAuthn true true cfg' (js "AQID") (Some 3) = Ok (true, cfg'').
Proof. apply (webauthn_counter_reset s_cfg (js "AQID") s_meta 3); by vm_compute. Defined.

Definition s_passkey_cfg : MfaConfig :=
  set_passkeys DEFAULT_MFA (mkKeyConfig true [mkMeta (bufToB64url [1; 2; 250]) (bufToB64url [1; 2; 250]) (js "Mac") 9 0]).

Lemma passkey_register_login_witness :
  authenticateWithPasskeyForLogin true true (passkey_hints s_passkey_cfg) s_passkey_cfg (Some [1; 2; 250]) = Ok true.
Proof.
  apply (passkey_register_login DEFAULT_MFA [1; 2; 250] (js "Mac") 9
    (mkMeta (bufToB64url [1; 2; 250]) (bufToB64url [1; 2; 250]) (js "Mac") 9 0)).
  - apply (bool_decide_unpack _); by vm_compute.
  - constructor.
  - by vm_compute.
Defined.

End OtpSpec.
