(* ===== verification/MfaSetup.v ===== *)
(** * Setting up second factors ([web/src/pages/Settings/hooks/useMfaSetup.ts])

    The state of the settings dialog and its handlers.  [getMfaConfig] returns the
    object in the module's cache, which the handlers change in place and save, so the
    cache is the configuration; what saving sends to the server, the daemon and the
    local store is modelled with those.  Outcomes of requests, the clock, random bytes
    and the authenticators are arguments. *)
From S2P Require Import Prelude JsRuntime JsText Base64 Mfa MfaSpec.

(** ** State *)

Inductive MfaType := TypeTotp | TypeWebauthn | TypeEmail | TypePasskey | TypePlatform.
Inductive OtpType := TotpType | HotpType.

(** [_usedTotpPeriods] *)
Abbreviation periods := (gmap (list Z) Z).

(** What the e-mail step shows. *)
Inductive EmailError :=
| SmtpNotConfigured | WaitSeconds (n : Z) | SendFailed (code : jsstr)
| CodeExpired | TooManyAttempts | WrongCode (attemptsLeft : option Z).

Record Setup := mkSetup {
  su_modal : option (MfaType * Z);
  su_secret : jsstr; su_type : OtpType; su_counter : Z;
  su_code : list jsstr;                 (* eight boxes *)
  su_codeError : bool;
  su_emailInput : jsstr;
  su_emailCode : list jsstr;            (* six boxes *)
  su_emailError : option EmailError;
  su_policyError : bool;
  su_cache : option MfaConfig;          (* [_mfaCache] *)
  su_hints : option LoginHints;         (* the last hints [refreshLoginHints] sent *)
  su_pending : option PendingEmailOtp;
  su_used : periods;
  su_csrf : bool }.                     (* [getCsrfToken()]: a session on the server *)

Definition empty_boxes (n : nat) : list jsstr := replicate n [].

Definition set_modal (m : option (MfaType * Z)) (s : Setup) : Setup :=
  mkSetup m (su_secret s) (su_type s) (su_counter s) (su_code s) (su_codeError s) (su_emailInput s) (su_emailCode s)
    (su_emailError s) (su_policyError s) (su_cache s) (su_hints s) (su_pending s) (su_used s) (su_csrf s).
Definition set_code (code : list jsstr) (s : Setup) : Setup :=
  mkSetup (su_modal s) (su_secret s) (su_type s) (su_counter s) code (su_codeError s) (su_emailInput s) (su_emailCode s)
    (su_emailError s) (su_policyError s) (su_cache s) (su_hints s) (su_pending s) (su_used s) (su_csrf s).
Definition set_codeError (e : bool) (s : Setup) : Setup :=
  mkSetup (su_modal s) (su_secret s) (su_type s) (su_counter s) (su_code s) e (su_emailInput s) (su_emailCode s)
    (su_emailError s) (su_policyError s) (su_cache s) (su_hints s) (su_pending s) (su_used s) (su_csrf s).
Definition set_emailCode (code : list jsstr) (s : Setup) : Setup :=
  mkSetup (su_modal s) (su_secret s) (su_type s) (su_counter s) (su_code s) (su_codeError s) (su_emailInput s) code
    (su_emailError s) (su_policyError s) (su_cache s) (su_hints s) (su_pending s) (su_used s) (su_csrf s).
Definition set_emailError (e : option EmailError) (s : Setup) : Setup :=
  mkSetup (su_modal s) (su_secret s) (su_type s) (su_counter s) (su_code s) (su_codeError s) (su_emailInput s) (su_emailCode s)
    e (su_policyError s) (su_cache s) (su_hints s) (su_pending s) (su_used s) (su_csrf s).
Definition set_policyError (e : bool) (s : Setup) : Setup :=
  mkSetup (su_modal s) (su_secret s) (su_type s) (su_counter s) (su_code s) (su_codeError s) (su_emailInput s) (su_emailCode s)
    (su_emailError s) e (su_cache s) (su_hints s) (su_pending s) (su_used s) (su_csrf s).
Definition set_used (u : periods) (s : Setup) : Setup :=
  mkSetup (su_modal s) (su_secret s) (su_type s) (su_counter s) (su_code s) (su_codeError s) (su_emailInput s) (su_emailCode s)
    (su_emailError s) (su_policyError s) (su_cache s) (su_hints s) (su_pending s) u (su_csrf s).

Definition config (s : Setup) : MfaConfig := getMfaConfig (su_cache s).

Definition saveMfaConfig (cfg : MfaConfig) (s : Setup) : Setup :=
  mkSetup (su_modal s) (su_secret s) (su_type s) (su_counter s) (su_code s) (su_codeError s) (su_emailInput s) (su_emailCode s)
    (su_emailError s) (su_policyError s) (Some cfg) (su_hints s) (su_pending s) (su_used s) (su_csrf s).

Definition set_type (type : OtpType) (s : Setup) : Setup :=
  mkSetup (su_modal s) (su_secret s) type (su_counter s) (su_code s) (su_codeError s) (su_emailInput s) (su_emailCode s)
    (su_emailError s) (su_policyError s) (su_cache s) (su_hints s) (su_pending s) (su_used s) (su_csrf s).
Definition set_emailInput (v : jsstr) (s : Setup) : Setup :=
  mkSetup (su_modal s) (su_secret s) (su_type s) (su_counter s) (su_code s) (su_codeError s) v (su_emailCode s)
    (su_emailError s) (su_policyError s) (su_cache s) (su_hints s) (su_pending s) (su_used s) (su_csrf s).

(** The hints are sent in a session on the server only; the outcome of the request is
    not looked at. *)
Definition refreshLoginHints (s : Setup) : Setup :=
  if su_csrf s then
    mkSetup (su_modal s) (su_secret s) (su_type s) (su_counter s) (su_code s) (su_codeError s) (su_emailInput s) (su_emailCode s)
      (su_emailError s) (su_policyError s) (su_cache s) (Some (hints_of (config s))) (su_pending s) (su_used s) (su_csrf s)
  else s.

Lemma refresh_cache s : su_cache (refreshLoginHints s) = su_cache s.
Proof. unfold refreshLoginHints. by destruct (su_csrf s). Qed.

(** [closeMfaModal] with [clearPendingOtp] *)
Definition closeMfaModal (s : Setup) : Setup :=
  mkSetup None (su_secret s) (su_type s) (su_counter s) (su_code s) (su_codeError s) (su_emailInput s) (su_emailCode s)
    (su_emailError s) (su_policyError s) (su_cache s) (su_hints s) None (su_used s) (su_csrf s).

Definition openMfaModal (rand : nat → bytes) (type : MfaType) (s : Setup) : Setup :=
  match type with
  | TypeTotp =>
      mkSetup (Some (TypeTotp, 1)) (generateTotpSecret rand) TotpType (su_counter s) (empty_boxes 8) false (su_emailInput s)
        (su_emailCode s) (su_emailError s) (su_policyError s) (su_cache s) (su_hints s) (su_pending s) (su_used s) (su_csrf s)
  | TypeEmail => set_modal (Some (TypeEmail, 1)) (set_emailError None (set_emailCode (empty_boxes 6) s))
  | _ => set_modal (Some (type, 1)) s
  end.

(** ** Changing the configuration *)

Definition set_totp (c : MfaConfig) (o : OtpConfig) : MfaConfig :=
  mkMfa o (hotp c) (webauthn c) (passkeys c) (platform c) (email c) (passwordlessEnabled c) (passwordLoginEnabled c).
Definition set_hotp (c : MfaConfig) (o : option OtpConfig) : MfaConfig :=
  mkMfa (totp c) o (webauthn c) (passkeys c) (platform c) (email c) (passwordlessEnabled c) (passwordLoginEnabled c).
Definition set_email (c : MfaConfig) (e : EmailConfig) : MfaConfig :=
  mkMfa (totp c) (hotp c) (webauthn c) (passkeys c) (platform c) e (passwordlessEnabled c) (passwordLoginEnabled c).
Definition set_policy (c : MfaConfig) (less login : option bool) : MfaConfig :=
  mkMfa (totp c) (hotp c) (webauthn c) (passkeys c) (platform c) (email c) less login.

(** [credentials.filter(c => c.id !== credId)], enabled while some are left. *)
Definition without_key (id : jsstr) (k : KeyConfig) : KeyConfig :=
  let l := List.filter (λ c, negb (str_eqb (wm_id c) id)) (kc_credentials k) in mkKeyConfig (0 <? len l) l.

(** ** One-time passwords *)

Section otp.
Context `{JsCase} `{OtpHmac}.

(** [handleTotpVerify] of a rendering with the code [code]. *)
Definition handleTotpVerify (code : list jsstr) (now : Z) (s : Setup) : Setup :=
  let token := concat code in
  let cfg := config s in
  match su_type s with
  | HotpType =>
      let '(ok, next) := verifyHotp (su_secret s) (su_counter s) token 10 (js "SHA-1") 6 in
      if ok : bool then
        set_modal (Some (TypeTotp, 3)) (refreshLoginHints
          (saveMfaConfig (set_hotp cfg (Some (mkOtp true (Some (su_secret s)) next (Some now) None None))) s))
      else set_codeError true s
  | TotpType =>
      let '(ok, used) := verifyTotp (su_used s) now (su_secret s) token (js "SHA-256") 8 in
      let s := set_used used s in
      if ok : bool then
        set_modal (Some (TypeTotp, 3)) (refreshLoginHints
          (saveMfaConfig (set_totp cfg (mkOtp true (Some (su_secret s)) 0 (Some now) (Some (js "SHA-256")) (Some 8))) s))
      else set_codeError true s
  end.
End otp.

Definition handleTotpRemove (s : Setup) : Setup :=
  closeMfaModal (refreshLoginHints
    (saveMfaConfig (set_hotp (set_totp (config s) (mkOtp false None 0 None None None)) None) s)).

(** ** Keys *)

(** The three registrations; [Throw] shows a message and changes nothing. *)
Definition handleWebAuthnRegister (supported secure : bool) (devices : list jsstr) (id name : jsstr) (now : Z) (s : Setup) : Setup :=
  match registerWebAuthn supported secure (config s) devices id name now with
  | Ok (_, cfg) => set_modal (Some (TypeWebauthn, 3)) (saveMfaConfig cfg s)
  | Throw _ => s
  end.
Definition handleWebAuthnRemove (id : jsstr) (s : Setup) : Setup :=
  saveMfaConfig (set_webauthn (config s) (without_key id (webauthn (config s)))) s.

Definition handlePasskeyRegister (supported secure : bool) (rawId : option bytes) (name : jsstr) (now : Z) (s : Setup) : Setup :=
  match registerPasskey supported secure (config s) rawId name now with
  | Ok (_, cfg) => set_modal (Some (TypePasskey, 3)) (saveMfaConfig cfg s)
  | Throw _ => s
  end.
Definition handlePasskeyRemove (id : jsstr) (s : Setup) : Setup :=
  match passkeys (config s) with
  | Some k => saveMfaConfig (set_passkeys (config s) (without_key id k)) s
  | None => s
  end.

Definition handlePlatformRegister (supported secure : bool) (rawId : option bytes) (name : jsstr) (now : Z) (s : Setup) : Setup :=
  match registerPlatformAuth supported secure (config s) rawId name now with
  | Ok (_, cfg) => set_modal (Some (TypePlatform, 3)) (refreshLoginHints (saveMfaConfig cfg s))
  | Throw _ => s
  end.
Definition handlePlatformRemove (id : jsstr) (s : Setup) : Setup :=
  match platform (config s) with
  | Some k => refreshLoginHints (saveMfaConfig (set_platform (config s) (without_key id k)) s)
  | None => s
  end.

(** ** Policies *)

Definition handlePasswordlessToggle (s : Setup) : Setup :=
  let cfg := config s in
  refreshLoginHints (saveMfaConfig
    (set_policy cfg (Some (negb (default false (passwordlessEnabled cfg)))) (passwordLoginEnabled cfg)) s).

Definition handlePasswordLoginToggle (s : Setup) : Setup :=
  let cfg := config s in
  let currentEnabled := negb (bool_decide (passwordLoginEnabled cfg = Some false)) in
  if currentEnabled && (countActiveMfaMethods cfg <? 2) then set_policyError true s
  else refreshLoginHints (saveMfaConfig (set_policy cfg (passwordlessEnabled cfg) (Some (negb currentEnabled)))
         (set_policyError false s)).

(** ** E-mail *)

(** The answer of the server: its error code with [waitMs] and [attemptsLeft]. *)
Record SetupRefusal := mkRefusal { sr_error : jsstr; sr_waitMs : option Z; sr_attemptsLeft : option Z }.

Definition handleEmailSend (answer : result SetupRefusal unit) (s : Setup) : Setup :=
  match answer with
  | Ok _ => set_modal (Some (TypeEmail, 2)) (set_emailError None s)
  | Throw r =>
      set_emailError (Some
        (if str_eqb (sr_error r) (js "smtp_not_configured") then SmtpNotConfigured
         else if str_eqb (sr_error r) (js "resend_too_soon") then
           WaitSeconds ((match sr_waitMs r with Some 0 | None => 30000 | Some w => w end + 999) / 1000)
         else SendFailed (sr_error r))) s
  end.

(** [answer]: the e-mail address the server confirmed, if it says one. *)
Definition handleEmailVerify (answer : result SetupRefusal (option jsstr)) (now : Z) (s : Setup) : Setup :=
  match answer with
  | Ok address =>
      let address := match address with Some (c :: a) => c :: a | _ => su_emailInput s end in
      set_modal (Some (TypeEmail, 3)) (refreshLoginHints
        (saveMfaConfig (set_email (config s) (mkEmail true (Some address) (Some now))) (set_emailError None s)))
  | Throw r =>
      set_emailError (Some
        (if str_eqb (sr_error r) (js "expired_or_invalid") then CodeExpired
         else if str_eqb (sr_error r) (js "too_many_attempts") then TooManyAttempts
         else WrongCode (sr_attemptsLeft r))) s
  end.

Definition handleEmailRemove (s : Setup) : Setup :=
  closeMfaModal (refreshLoginHints (saveMfaConfig (set_email (config s) (mkEmail false None None)) s)).

(** ** The boxes of a code *)

(** [value.slice(-1)] of a longer value, and [/^\d?$/] *)
Definition last_unit (v : jsstr) : jsstr := drop (length v - 1) v.
Definition box_value (v : jsstr) : option jsstr :=
  let v := if len v >? 1 then last_unit v else v in
  match v with [] => Some [] | [c] => if is_digit c then Some [c] else None | _ => None end.

(** [onChange]: the new boxes, and whether the handler on completion is called;
    that handler belongs to the rendering before the change. *)
Definition box_change (code : list jsstr) (index : nat) (value : jsstr) : option (list jsstr * bool) :=
  match box_value value with
  | None => None
  | Some v => Some (<[index := v]> code, negb (str_empty v) && (index =? length code - 1)%nat)
  end.

(** [onPaste]: the digits of the text, one per box from the first on. *)
Definition box_paste (code : list jsstr) (text : jsstr) : list jsstr :=
  let ds := take (length code) (List.filter is_digit text) in
  map (λ d, [d]) ds ++ drop (length ds) code.

Definition totp_change `{JsCase} `{OtpHmac} (index : nat) (value : jsstr) (now : Z) (s : Setup) : Setup :=
  match box_change (su_code s) index value with
  | None => s
  | Some (code, done) =>
      let s' := set_code code s in
      if done then handleTotpVerify (su_code s) now s' else s'
  end.

(** The boxes of the e-mail step; [answer] is that of the request for the check. *)
Definition email_change (index : nat) (value : jsstr) (answer : result SetupRefusal (option jsstr)) (now : Z) (s : Setup) : Setup :=
  match box_change (su_emailCode s) index value with
  | None => s
  | Some (code, done) =>
      let s' := set_emailCode code s in
      if done then handleEmailVerify answer now s' else s'
  end.

(** ** The rest of the dialog ([web/src/pages/Settings/MfaModalContent.tsx]) *)

(** [e.target.value.replace(/[^a-zA-Z0-9@.\-_+]/g, '')] *)
Definition email_char (c : Z) : bool :=
  ((97 <=? c) && (c <=? 122)) || ((65 <=? c) && (c <=? 90)) || is_digit c ||
  (c =? 64) || (c =? 46) || (c =? 45) || (c =? 95) || (c =? 43).
Definition type_email (v : jsstr) (s : Setup) : Setup := set_emailInput (List.filter email_char v) s.

(** The button that goes back from the code to the address. *)
Definition email_back (s : Setup) : Setup :=
  set_emailError None (set_emailCode (empty_boxes 6) (set_modal (Some (TypeEmail, 1)) s)).

(** * What the settings keep true of second factors
      ([web/src/pages/Settings/hooks/useMfaSetup.ts]) *)

(** ** The configuration *)

Definition keys_ok (k : KeyConfig) : Prop := kc_enabled k = (0 <? len (kc_credentials k)).
Definition opt_keys_ok (k : option KeyConfig) : Prop := match k with Some k => keys_ok k | None => True end.

Definition totp_ok (o : OtpConfig) : Prop :=
  if otp_enabled o then is_Some (otp_secret o) ∧ otp_algorithm o = Some (js "SHA-256") ∧ otp_digits o = Some 8
  else otp_secret o = None.
Definition hotp_ok (o : option OtpConfig) : Prop :=
  match o with Some h => otp_enabled h = true ∧ is_Some (otp_secret h) ∧ 0 <= otp_counter h | None => True end.
Definition email_ok (e : EmailConfig) : Prop := if em_enabled e then is_Some (em_address e) else em_address e = None.

Definition config_ok (c : MfaConfig) : Prop :=
  totp_ok (totp c) ∧ hotp_ok (hotp c) ∧ keys_ok (webauthn c) ∧ opt_keys_ok (passkeys c) ∧ opt_keys_ok (platform c) ∧ email_ok (email c).

(** The hints last sent agree with the configuration on what is not a key. *)
Definition hints_ok (s : Setup) : Prop :=
  ∀ h, su_hints s = Some h →
    let now := hints_of (config s) in
    h_totp h = h_totp now ∧ h_emailOtp h = h_emailOtp now ∧ h_passwordEnabled h = h_passwordEnabled now.

Definition setup_ok (s : Setup) : Prop := config_ok (config s) ∧ (su_csrf s = true → hints_ok s) ∧ 0 <= su_counter s.

(** ** Handlers *)

Inductive handles `{JsCase} `{OtpHmac} : Setup → Setup → Prop :=
| h_open rand type s : handles s (openMfaModal rand type s)
| h_close s : handles s (closeMfaModal s)
| h_box i v now s : handles s (totp_change i v now s)
| h_paste t s : handles s (set_code (box_paste (su_code s) t) s)
| h_verify now s : handles s (handleTotpVerify (su_code s) now s)
| h_totp_remove s : handles s (handleTotpRemove s)
| h_key_register su se ds id n now s : handles s (handleWebAuthnRegister su se ds id n now s)
| h_key_remove id s : handles s (handleWebAuthnRemove id s)
| h_passkey_register su se r n now s : handles s (handlePasskeyRegister su se r n now s)
| h_passkey_remove id s : handles s (handlePasskeyRemove id s)
| h_platform_register su se r n now s : handles s (handlePlatformRegister su se r n now s)
| h_platform_remove id s : handles s (handlePlatformRemove id s)
| h_passwordless s : handles s (handlePasswordlessToggle s)
| h_password_login s : handles s (handlePasswordLoginToggle s)
| h_email_send a s : handles s (handleEmailSend a s)
| h_email_verify a now s : handles s (handleEmailVerify a now s)
| h_email_remove s : handles s (handleEmailRemove s)
| h_type type s : handles s (set_type type s)
| h_step m s : handles s (set_modal m s)
| h_email_input v s : handles s (type_email v s)
| h_email_back s : handles s (email_back s)
| h_email_box i v a now s : handles s (email_change i v a now s)
| h_email_paste t s : handles s (set_emailCode (box_paste (su_emailCode s) t) s).

(** What a handler can do: leave configuration and hints, save a configuration that
    changes keys only, or save one and send its hints when there is a session. *)
Definition sent (s : Setup) (c : MfaConfig) : option LoginHints := if su_csrf s then Some (hints_of c) else su_hints s.

Definition moves (s s' : Setup) : Prop :=
  su_counter s' = su_counter s ∧ su_csrf s' = su_csrf s ∧
  ((su_cache s' = su_cache s ∧ su_hints s' = su_hints s) ∨
   ∃ c, su_cache s' = Some c ∧ (config_ok (config s) → 0 <= su_counter s → config_ok c) ∧
     (su_hints s' = sent s c ∨
      su_hints s' = su_hints s ∧ totp c = totp (config s) ∧ hotp c = hotp (config s) ∧ email c = email (config s) ∧
      passwordLoginEnabled c = passwordLoginEnabled (config s))).

Lemma moves_same s s' :
  su_cache s' = su_cache s → su_hints s' = su_hints s → su_counter s' = su_counter s → su_csrf s' = su_csrf s → moves s s'.
Proof. intros. split; [done|]. split; [done|]. by left. Qed.

Lemma moves_keys s s' c :
  su_cache s' = Some c → su_hints s' = su_hints s → su_counter s' = su_counter s → su_csrf s' = su_csrf s →
  (config_ok (config s) → config_ok c) →
  totp c = totp (config s) → hotp c = hotp (config s) → email c = email (config s) →
  passwordLoginEnabled c = passwordLoginEnabled (config s) → moves s s'.
Proof. intros. split; [done|]. split; [done|]. right. exists c. split; [done|]. split; [by auto|]. by right. Qed.

(** Saving [c] and refreshing the hints, around which handlers set other fields. *)
Lemma moves_refreshed s s0 c s' :
  su_cache s0 = Some c → su_hints s0 = su_hints s → su_counter s0 = su_counter s → su_csrf s0 = su_csrf s →
  su_cache s' = su_cache (refreshLoginHints s0) → su_hints s' = su_hints (refreshLoginHints s0) →
  su_counter s' = su_counter (refreshLoginHints s0) → su_csrf s' = su_csrf (refreshLoginHints s0) →
  (config_ok (config s) → 0 <= su_counter s → config_ok c) → moves s s'.
Proof.
  intros H1 H2 H3 H4 E1 E2 E3 E4 Hc. unfold moves, refreshLoginHints, sent, config in *. rewrite H4 in *.
  destruct (su_csrf s) eqn:Ec; cbn [su_cache su_hints su_counter su_csrf] in *; rewrite ?H1 in *; change (getMfaConfig (Some c)) with c in *;
    (split; [congruence|]); (split; [congruence|]); right; exists c; (split; [congruence|]); (split; [done|]); left; congruence.
Qed.

Lemma moves_ok s s' : moves s s' → setup_ok s → setup_ok s'.
Proof.
  intros (Hn & Hcs & H) (Hc & Hh & Hp). unfold setup_ok. rewrite Hn, Hcs.
  destruct H as [[H1 H2]|(c & H1 & Hok & H)].
  - unfold hints_ok, config in *. by rewrite H1, H2.
  - assert (E : config s' = c) by (unfold config; by rewrite H1). rewrite E.
    split; [by apply Hok|]. split; [|done]. intros Hcsrf. unfold hints_ok in *. rewrite E.
    destruct H as [H|(H & E1 & E2 & E3 & E4)].
    + rewrite H. unfold sent. rewrite Hcsrf. by intros h [= <-].
    + intros h Hs. rewrite H in Hs. destruct (Hh Hcsrf h Hs) as (A1 & A2 & A3). unfold hints_of in *. cbn in *.
      rewrite E1, E2, E3, E4. done.
Qed.

Lemma moves_unsent s s' : moves s s' → su_csrf s = false → su_hints s' = su_hints s.
Proof.
  intros (_ & _ & [[_ H]|(c & _ & _ & [H|[H _]])]) Hc; [done| |done]. rewrite H. unfold sent. by rewrite Hc.
Qed.

Lemma without_key_ok id k : keys_ok (without_key id k).
Proof. done. Qed.

Lemma with_key_ok l m : keys_ok (mkKeyConfig true (l ++ [m])).
Proof. unfold keys_ok. cbn. rewrite len_app. change (len [m]) with 1. assert (0 <= len l) by apply len_nonneg. symmetry. apply Z.ltb_lt. lia. Qed.

Create HintDb mfa.
#[local] Hint Resolve without_key_ok with_key_ok : mfa.

Lemma hotp_next_nonneg `{JsCase} `{OtpHmac} n i secret c clean alg d next :
  0 <= c + i → hotp_search n i secret c clean alg d = Some next → 0 <= next.
Proof.
  revert i. induction n as [|n IH]; intros i Hi; [done|]. cbn. destruct (str_eqb _ _); [intros [= <-]; lia|]. apply IH. lia.
Qed.

(** Closes the goals of [moves_refreshed] on the fields. *)
Ltac refreshed :=
  unfold handleTotpRemove, handlePasswordlessToggle, handleEmailRemove;
  match goal with |- context [refreshLoginHints ?s0] => eapply (moves_refreshed _ s0) end;
  [reflexivity|reflexivity|reflexivity|reflexivity|reflexivity|reflexivity|reflexivity|reflexivity|intros (Ht & Hho & Hw & Hp & Hpl & He) Hn].

Lemma verify_moves `{JsCase} `{OtpHmac} code now s : moves s (handleTotpVerify code now s).
Proof.
  unfold handleTotpVerify. destruct (su_type s).
  - destruct (verifyTotp _ _ _ _ _ _) as [[] used]; [|by apply moves_same].
    refreshed. by split_and!.
  - destruct (verifyHotp _ _ _ _ _ _) as [[] next] eqn:Ev; [|by apply moves_same].
    refreshed.
    assert (0 <= next).
    { unfold verifyHotp in Ev. destruct (negb _); [done|]. destruct (hotp_search _ _ _ _ _ _ _) eqn:Es; [|done]. injection Ev as <-.
      eapply hotp_next_nonneg; [|exact Es]. lia. }
    by split_and!.
Qed.

Lemma email_verify_moves a now s : moves s (handleEmailVerify a now s).
Proof.
  unfold handleEmailVerify. destruct a as [o|]; [|by apply moves_same].
  refreshed.
  split_and!; cbn; try done.
Qed.

(** Fields that are set before do not matter. *)
Lemma moves_after s s1 s' :
  su_cache s1 = su_cache s → su_hints s1 = su_hints s → su_counter s1 = su_counter s → su_csrf s1 = su_csrf s →
  moves s1 s' → moves s s'.
Proof. intros H1 H2 H3 H4 H. unfold moves, sent, config in *. by rewrite H1, H2, H3, H4 in H. Qed.

Lemma handles_moves `{JsCase} `{OtpHmac} s s' : handles s s' → moves s s'.
Proof.
  intros Hh. destruct Hh.
  - destruct type; by apply moves_same.
  - by apply moves_same.
  - unfold totp_change. destruct (box_change _ _ _) as [[code []]|]; [|by apply moves_same|by apply moves_same].
    eapply moves_after; [| | | |apply verify_moves]; done.
  - by apply moves_same.
  - apply verify_moves.
  - refreshed. by split_and!.
  - unfold handleWebAuthnRegister, registerWebAuthn. destruct su, se; try by apply moves_same. cbn.
    destruct (len ds =? 0); [by apply moves_same|]. cbn.
    eapply moves_keys; try done. intros (Ht & Hho & Hw & Hp & Hpl & He). split_and!; cbn; auto with mfa.
  - eapply moves_keys; try done. intros (Ht & Hho & Hw & Hp & Hpl & He). split_and!; cbn; auto with mfa.
  - unfold handlePasskeyRegister, registerPasskey. destruct su, se; try by apply moves_same. destruct r; [|by apply moves_same]. cbn.
    eapply moves_keys; try done. intros (Ht & Hho & Hw & Hp & Hpl & He). split_and!; cbn; auto with mfa.
  - unfold handlePasskeyRemove. destruct (passkeys (config s)) eqn:E; [|by apply moves_same].
    eapply moves_keys; try done. intros (Ht & Hho & Hw & Hp & Hpl & He). split_and!; cbn; auto with mfa.
  - unfold handlePlatformRegister, registerPlatformAuth. destruct su, se; try by apply moves_same. destruct r; [|by apply moves_same].
    cbn -[refreshLoginHints]. refreshed. split_and!; cbn; auto with mfa.
  - unfold handlePlatformRemove. destruct (platform (config s)) as [k|] eqn:E; [|by apply moves_same].
    refreshed. split_and!; cbn; auto with mfa.
  - refreshed.
    by split_and!.
  - unfold handlePasswordLoginToggle. destruct (_ && _); [by apply moves_same|].
    refreshed.
    by split_and!.
  - unfold handleEmailSend. destruct a; by apply moves_same.
  - apply email_verify_moves.
  - refreshed. by split_and!.
  - by apply moves_same.
  - by apply moves_same.
  - by apply moves_same.
  - by apply moves_same.
  - unfold email_change. destruct (box_change _ _ _) as [[code []]|]; [|by apply moves_same|by apply moves_same].
    eapply moves_after; [| | | |apply email_verify_moves]; done.
  - by apply moves_same.
Qed.

Module SetupSpec.

(** C16: whatever is done in the dialog for second factors, the saved configuration stays
    well formed (a method is enabled exactly with its secret, keys or address).  In a
    session on the server the hints last sent to it agree with the configuration on codes
    and passwords; without one the configuration changes and nothing is sent, so that
    the hints of the server stay those of before. *)
Theorem mfa_setup_invariant (JC : JsCase) (OH : OtpHmac) s s' :
  rtc handles s s' → config_ok (config s) → 0 <= su_counter s →
  config_ok (config s') ∧ su_csrf s' = su_csrf s ∧
  (su_csrf s = true → hints_ok s → hints_ok s') ∧
  (su_csrf s = false → su_hints s' = su_hints s).
Proof.
  intros Hr. induction Hr as [s|s s1 s' Hs1 _ IH]; intros Hc Hn; [done|].
  pose proof (handles_moves _ _ Hs1) as Hm. pose proof (proj1 Hm) as E1. pose proof (proj1 (proj2 Hm)) as E2.
  assert (Hok : (su_csrf s = true → hints_ok s) → setup_ok s1) by (intros Hh; by eapply moves_ok).
  assert (Hc1 : config_ok (config s1)).
  { destruct Hm as (_ & _ & [[H _]|(c & H & Hok' & _)]); unfold config in *; rewrite H; [done|]. by apply Hok'. }
  destruct (IH Hc1 ltac:(by rewrite E1)) as (I1 & I2 & I3 & I4). rewrite E2 in *.
  split; [done|]. split; [done|]. split.
  - intros Hcs Hh. apply I3; [done|]. destruct (Hok (λ _, Hh)) as (_ & H & _). apply H. by rewrite E2.
  - intros Hcs. rewrite (I4 Hcs). by apply moves_unsent.
Qed.

Definition fresh : Setup :=
  mkSetup None [] TotpType 0 (empty_boxes 8) false [] (empty_boxes 6) None false None None None ∅ true.

Lemma mfa_setup_invariant_witness :
  let s' := handleTotpRemove (set_type HotpType (handleEmailVerify (Ok (Some (js "a@b.c"))) 5 fresh)) in
  config_ok (config s') ∧ (h_emailOtp <$> su_hints s') = Some true ∧ hints_ok s'.
Proof.
  destruct (mfa_setup_invariant ascii_case OtpSpec.toy_hmac fresh
    (handleTotpRemove (set_type HotpType (handleEmailVerify (Ok (Some (js "a@b.c"))) 5 fresh)))) as (H1 & _ & H2 & _).
  - eapply rtc_l; [apply h_email_verify|]. eapply rtc_l; [apply h_type|]. eapply rtc_l; [apply h_totp_remove|]. apply rtc_refl.
  - by repeat split.
  - done.
  - split; [exact H1|]. split; [reflexivity|]. by apply H2.
Defined.

(** In a session of the daemon alone the server is not told of a new second factor. *)
Example hints_not_sent :
  let s0 := mkSetup None [] TotpType 0 (empty_boxes 8) false [] (empty_boxes 6) None false None (Some (hints_of (config fresh))) None ∅ false in
  let s := handleEmailVerify (Ok (Some (js "a@b.c"))) 5 s0 in
  h_emailOtp (hints_of (config s)) = true ∧ (h_emailOtp <$> su_hints s) = Some false.
Proof. by vm_compute. Qed.

(** Registering the first security key does not tell the server. *)
Example key_hint_stale :
  let s := handleWebAuthnRegister true true [js "usb"] (js "k1") (js "Key") 9 (handleEmailVerify (Ok None) 5 fresh) in
  h_webauthn (hints_of (config s)) = true ∧ (h_webauthn <$> su_hints s) = Some false.
Proof. by vm_compute. Qed.

(** Password login can be switched off with two methods, and the methods removed later. *)
Example no_method_left :
  let two := handleEmailVerify (Ok None) 5 (handleWebAuthnRegister true true [js "usb"] (js "k1") (js "Key") 9 fresh) in
  let s := handleEmailRemove (handleWebAuthnRemove (js "k1") (handlePasswordLoginToggle two)) in
  countActiveMfaMethods (config s) = 0 ∧ h_passwordEnabled (hints_of (config s)) = false.
Proof. by vm_compute. Qed.

(** A counter-based app shows eight digits, the settings check for six. *)
Lemma hotp_setup_refused `{JsCase} `{OtpHmac} code now s :
  su_type s = HotpType → len (strip_spaces (concat code)) = 8 → handleTotpVerify code now s = set_codeError true s.
Proof.
  intros Ht Hl. unfold handleTotpVerify, verifyHotp. rewrite Ht. unfold all_digits. by rewrite Hl.
Qed.

(** Typing the last digit checks the boxes without it. *)
Lemma last_box_checks_old `{JsCase} `{OtpHmac} d now s :
  length (su_code s) = 8%nat → is_digit d = true → concat (su_code s) = concat (take 7 (su_code s)) →
  Forall (λ v, len v <= 1) (su_code s) → su_type s = TotpType →
  su_codeError (totp_change 7 [d] now s) = true.
Proof.
  intros Hl Hd Hc Hf Ht. assert (E : box_value [d] = Some [d]) by (unfold box_value; change (len [d] >? 1) with false; cbn; by rewrite Hd).
  unfold totp_change, box_change. rewrite E, Hl.
  cbn [str_empty negb andb Nat.eqb Nat.sub]. unfold handleTotpVerify. cbn [su_type set_code]. rewrite Ht. unfold verifyTotp, all_digits.
  assert (B : len (strip_spaces (concat (su_code s))) <= 7).
  { rewrite Hc. unfold strip_spaces. etrans; [unfold len; apply inj_le, List.filter_length_le|].
    assert (length (take 7 (su_code s)) <= 7)%nat by (rewrite length_take; lia).
    assert (X : ∀ l : list jsstr, Forall (λ v, len v <= 1) l → len (concat l) <= len l).
    { induction 1; [done|]. cbn [concat]. rewrite len_app, len_cons. lia. }
    specialize (X (take 7 (su_code s)) ltac:(by apply Forall_take)). unfold len in *. lia. }
  assert ((len (strip_spaces (concat (su_code s))) =? 8) = false) as -> by lia. done.
Qed.
End SetupSpec.
