(* ===== verification/Keystore.v ===== *)
(** * The key store of a tab ([web/src/crypto/keystore.ts])

    The keys a tab holds in memory, the encrypted copy in [sessionStorage] that
    survives a refresh, and the derivation of the local keys.  [CryptoKey]
    objects are the bytes they were imported from, all of them extractable.

    [persistToSessionStorage] runs concurrently with everything else: it reads
    the token, the salt and the first key when it is called, one more key after
    each export, and writes the sealed copy at the end.  A run in progress is a
    [job]; the page takes one step of one job at a time. *)
From S2P Require Import Prelude JsRuntime JsText CryptoUtils.

(** ** State *)

Record SecureKeyStore := mkKeyStore {
  k_token : option bytes;
  localKeyV1 : option bytes;
  sigKeyV1 : option bytes;
  localKeyV2 : option bytes;
  sigKeyV2 : option bytes;
  v2Salt : option bytes;
  wipeTicket : option (bytes * bytes);
  legacyKeyV1 : option bytes;
}.

Definition no_keys : SecureKeyStore := mkKeyStore None None None None None None None None.

(** What [persistToSessionStorage] seals. *)
Record snapshot := mkSnapshot {
  sn_token : option bytes; sn_v2Salt : option bytes;
  sn_localKeyV1 : option bytes; sn_sigKeyV1 : option bytes;
  sn_localKeyV2 : option bytes; sn_sigKeyV2 : option bytes;
}.

(** A run of [persistToSessionStorage]: what it has read so far. *)
Inductive job :=
  | Exporting1 (token salt localV1 : option bytes)
  | Exporting2 (token salt localV1 sigV1 : option bytes)
  | Exporting3 (token salt localV1 sigV1 localV2 : option bytes)
  | Sealing (d : snapshot).

Record tab := mkTab {
  mem : SecureKeyStore;
  session : option snapshot;     (* sessionStorage '_pwd_ks', unsealed *)
  wrap : bool;                   (* the wrapping key of IndexedDB is available *)
  jobs : list job;
}.

Definition set_mem (t : tab) (k : SecureKeyStore) : tab := mkTab k (session t) (wrap t) (jobs t).

(** ** Persisting *)

Definition start_persist (t : tab) : tab :=
  let k := mem t in
  mkTab k (session t) (wrap t) (jobs t ++ [Exporting1 (k_token k) (v2Salt k) (localKeyV1 k)]).

(** The next step of a run, until the write. *)
Definition export_next (k : SecureKeyStore) (j : job) : job :=
  match j with
  | Exporting1 t s a => Exporting2 t s a (sigKeyV1 k)
  | Exporting2 t s a b => Exporting3 t s a b (localKeyV2 k)
  | Exporting3 t s a b c => Sealing (mkSnapshot t s a b c (sigKeyV2 k))
  | Sealing d => Sealing d
  end.

(** One step of job [i]; the last one writes, or removes the entry when there
    is no wrapping key. *)
Definition step_job (i : nat) (t : tab) : tab :=
  match jobs t !! i with
  | Some (Sealing d) => mkTab (mem t) (if wrap t then Some d else None) (wrap t) (delete i (jobs t))
  | Some j => mkTab (mem t) (session t) (wrap t) (<[i := export_next (mem t) j]> (jobs t))
  | None => t
  end.

(** ** Operations *)

Definition store (token : jsstr) (t : tab) : tab :=
  let k := mem t in
  start_persist (set_mem t (mkKeyStore (Some (utf8_encode token)) (localKeyV1 k) (sigKeyV1 k) (localKeyV2 k) (sigKeyV2 k)
    (v2Salt k) (wipeTicket k) (legacyKeyV1 k))).

Definition setV2Salt (salt : bytes) (t : tab) : tab :=
  let k := mem t in
  start_persist (set_mem t (mkKeyStore (k_token k) (localKeyV1 k) (sigKeyV1 k) (localKeyV2 k) (sigKeyV2 k)
    (Some salt) (wipeTicket k) (legacyKeyV1 k))).

Definition storeLocalKey (key : bytes) (version : Z) (t : tab) : tab :=
  let k := mem t in
  start_persist (set_mem t
    (if version =? 1
     then mkKeyStore (k_token k) (Some key) (sigKeyV1 k) (localKeyV2 k) (sigKeyV2 k) (v2Salt k) (wipeTicket k) (legacyKeyV1 k)
     else mkKeyStore (k_token k) (localKeyV1 k) (sigKeyV1 k) (Some key) (sigKeyV2 k) (v2Salt k) (wipeTicket k) (legacyKeyV1 k))).

Definition storeSigningKey (key : bytes) (version : Z) (t : tab) : tab :=
  let k := mem t in
  start_persist (set_mem t
    (if version =? 1
     then mkKeyStore (k_token k) (localKeyV1 k) (Some key) (localKeyV2 k) (sigKeyV2 k) (v2Salt k) (wipeTicket k) (legacyKeyV1 k)
     else mkKeyStore (k_token k) (localKeyV1 k) (sigKeyV1 k) (localKeyV2 k) (Some key) (v2Salt k) (wipeTicket k) (legacyKeyV1 k))).

Definition storeLegacyKey (key : option bytes) (t : tab) : tab :=
  let k := mem t in
  set_mem t (mkKeyStore (k_token k) (localKeyV1 k) (sigKeyV1 k) (localKeyV2 k) (sigKeyV2 k) (v2Salt k) (wipeTicket k) key).

Definition storeWipeTicket (ct nonce : bytes) (t : tab) : tab :=
  let k := mem t in
  start_persist (set_mem t (mkKeyStore (k_token k) (localKeyV1 k) (sigKeyV1 k) (localKeyV2 k) (sigKeyV2 k) (v2Salt k)
    (Some (ct, nonce)) (legacyKeyV1 k))).

(** The salt of the v2 keys stays. *)
Definition clear (t : tab) : tab :=
  mkTab (mkKeyStore None None None None None (v2Salt (mem t)) None None) None (wrap t) (jobs t).

(** [a ?? b], keeping what is there. *)
Definition keep (a b : option bytes) : option bytes := match a with Some x => Some x | None => b end.

(** The token and the salt are overwritten by the stored ones, the keys only
    filled in. *)
Definition restoreAsync (t : tab) : tab :=
  match session t with
  | Some d =>
      if wrap t then
        let k := mem t in
        set_mem t (mkKeyStore (keep (sn_token d) (k_token k))
          (keep (localKeyV1 k) (sn_localKeyV1 d)) (keep (sigKeyV1 k) (sn_sigKeyV1 d))
          (keep (localKeyV2 k) (sn_localKeyV2 d)) (keep (sigKeyV2 k) (sn_sigKeyV2 d))
          (keep (sn_v2Salt d) (v2Salt k)) (wipeTicket k) (legacyKeyV1 k))
      else t
  | None => t
  end.

(** A refresh of the page: memory and running jobs are gone. *)
Definition refresh (t : tab) : tab := mkTab no_keys (session t) (wrap t) [].

(** ** Key derivation *)

Class KeyDerivation := {
  kd_pbkdf2 : bytes → bytes → bytes;                       (* password, salt: 64 bytes, SHA-512, 600000 iterations *)
  kd_argon2 : bytes → bytes → Z → Z → Z → option bytes;    (* password, salt, m, t, p: 64 bytes; [None]: no WASM *)
  kd_hkdf : bytes → bytes → bytes → nat → bytes;           (* master, salt, info, length: HKDF-SHA-384 *)
}.

Definition V2_M_LOG2 : Z := 17.
Definition V2_T : Z := 3.
Definition V2_P : Z := 1.

(** The salt as bytes: sixteen bytes in hexadecimal, or the text itself. *)
Definition key_salt (saltHex : jsstr) : bytes := if is_hex32 saltHex then hexToBytes saltHex else utf8_encode saltHex.

Record KeyPair := mkPair { encKey : bytes; sigKey : bytes }.

Section derive.
Context `{KeyDerivation}.

Definition deriveArgon2idMaster (password saltHex : jsstr) : option bytes :=
  kd_argon2 (utf8_encode password) (key_salt saltHex) (shl 1 V2_M_LOG2) V2_T V2_P.

(** [new Uint8Array(11 + tokenBytes.length)] with the label and the token. *)
Definition info (label : jsstr) (tokenBytes : bytes) : bytes :=
  set_at (set_at (zeros (11 + length tokenBytes)) (utf8_encode label) 0) tokenBytes 11.

Definition hkdfV2Bind (master : bytes) (saltHex token : jsstr) : KeyPair :=
  let tokenBytes := utf8_encode token in
  mkPair (kd_hkdf master (key_salt saltHex) (info (js "lcv2/aes/v2") tokenBytes) 32)
         (kd_hkdf master (key_salt saltHex) (info (js "lcv2/mac/v2") tokenBytes) 48).

Definition deriveV1Only (password saltHex : jsstr) : KeyPair :=
  let raw := kd_pbkdf2 (utf8_encode password) (key_salt saltHex) in
  mkPair (slice raw 0 32) (slice raw 32 64).

(** [deriveLocalKeys]: the inner functions, run concurrently; a failing v2 is
    reported as no v2 keys. *)
Definition deriveV1 (password saltHex : jsstr) : KeyPair :=
  let passwordBytes := utf8_encode password in
  let raw := kd_pbkdf2 passwordBytes (key_salt saltHex) in
  mkPair (slice raw 0 32) (slice raw 32 64).

Definition deriveV2 (password saltHex : jsstr) (token : option jsstr) : option KeyPair :=
  match token with
  | Some (c :: tok) =>
      match deriveArgon2idMaster password saltHex with
      | Some master => Some (hkdfV2Bind master saltHex (c :: tok))
      | None => None
      end
  | _ => None
  end.

Definition deriveLocalKeys (password saltHex : jsstr) (token : option jsstr) : KeyPair * option KeyPair :=
  (deriveV1 password saltHex, deriveV2 password saltHex token).

Definition deriveLocalKey (password saltHex : jsstr) : bytes := encKey (deriveLocalKeys password saltHex None).1.
End derive.

(** ** The salt of the local keys *)

Record salts := mkSalts { pwd_lks : option jsstr; lk_salt : option jsstr }.

(** [rand]: the sixteen random bytes. *)
Definition getOrCreateLocalKeySalt (rand : bytes) (s : salts) : salts * jsstr :=
  match pwd_lks s with
  | Some (c :: v) => (mkSalts (pwd_lks s) (Some (c :: v)), c :: v)
  | _ =>
      match lk_salt s with
      | Some (c :: v) => (s, c :: v)
      | _ => let salt := bytesToHex rand in (mkSalts (pwd_lks s) (Some salt), salt)
      end
  end.

(** * Theorems on the key store

    Runs of the tab with the persist jobs interleaved in every way, the logout
    and its race with a running job, and the separation of the derived keys. *)

(** What the sealed copy holds of the memory. *)
Definition snap (k : SecureKeyStore) : snapshot :=
  mkSnapshot (k_token k) (v2Salt k) (localKeyV1 k) (sigKeyV1 k) (localKeyV2 k) (sigKeyV2 k).

(** ** Runs *)

Inductive op :=
  | OStore (token : jsstr) | OSalt (salt : bytes) | OLocalKey (key : bytes) (version : Z)
  | OSigningKey (key : bytes) (version : Z) | OLegacyKey (key : option bytes) | OTicket (ct nonce : bytes).

Definition apply_op (o : op) : tab → tab :=
  match o with
  | OStore s => store s | OSalt s => setV2Salt s | OLocalKey k v => storeLocalKey k v
  | OSigningKey k v => storeSigningKey k v | OLegacyKey k => storeLegacyKey k | OTicket c n => storeWipeTicket c n
  end.

(** The tab from its opening on: operations, export steps of any job, and the
    writes in the order the jobs were started. *)
Inductive run : tab → Prop :=
  | run_open : run (mkTab no_keys None true [])
  | run_op t o : run t → run (apply_op o t)
  | run_export t i j : run t → jobs t !! i = Some j → (∀ d, j ≠ Sealing d) → run (step_job i t)
  | run_write t d : run t → jobs t !! 0%nat = Some (Sealing d) → run (step_job 0 t).

(** What a job has read agrees with the memory. *)
Definition agrees (j : job) (s : snapshot) : Prop :=
  match j with
  | Exporting1 t v a => t = sn_token s ∧ v = sn_v2Salt s ∧ a = sn_localKeyV1 s
  | Exporting2 t v a b => t = sn_token s ∧ v = sn_v2Salt s ∧ a = sn_localKeyV1 s ∧ b = sn_sigKeyV1 s
  | Exporting3 t v a b c =>
      t = sn_token s ∧ v = sn_v2Salt s ∧ a = sn_localKeyV1 s ∧ b = sn_sigKeyV1 s ∧ c = sn_localKeyV2 s
  | Sealing d => d = s
  end.

Lemma export_agrees k j : agrees j (snap k) → agrees (export_next k j) (snap k).
Proof. destruct j; cbn; intros; destruct_and?; subst; done. Qed.

(** The last job started is up to date, or all is written. *)
Definition up_to_date (t : tab) : Prop :=
  wrap t = true ∧
  match last (jobs t) with
  | Some j => agrees j (snap (mem t))
  | None => session t = Some (snap (mem t)) ∨ session t = None ∧ snap (mem t) = snap no_keys
  end.

Lemma last_insert {A} (l : list A) i x y :
  l !! i = Some x →
  last (<[i := y]> l) = if (i =? length l - 1)%nat then Some y else last l.
Proof.
  intros Hi. pose proof (lookup_lt_Some _ _ _ Hi). rewrite !last_lookup, length_insert.
  replace (Init.Nat.pred (length l)) with (length l - 1)%nat by lia.
  destruct (Nat.eqb_spec i (length l - 1)) as [->|]; [by rewrite list_lookup_insert_eq by lia|by rewrite list_lookup_insert_ne by lia].
Qed.

Lemma start_persist_up_to_date t : wrap t = true → up_to_date (start_persist t).
Proof. intros Hw. split; [done|]. cbn. by rewrite last_snoc. Qed.

Lemma op_up_to_date o t : up_to_date t → up_to_date (apply_op o t).
Proof.
  intros [Hw H]. destruct o; try (apply start_persist_up_to_date; done). split; [done|]. cbn. done.
Qed.

Lemma export_up_to_date t i j :
  up_to_date t → jobs t !! i = Some j → (∀ d, j ≠ Sealing d) → up_to_date (step_job i t).
Proof.
  intros [Hw H] Hi Hj. assert (Hs : step_job i t = mkTab (mem t) (session t) (wrap t) (<[i := export_next (mem t) j]> (jobs t))).
  { unfold step_job. rewrite Hi. destruct j; try done. by destruct (Hj d). }
  rewrite Hs. split; [done|]. cbn [jobs mem]. rewrite (last_insert _ _ _ _ Hi).
  destruct (Nat.eqb_spec i (length (jobs t) - 1)) as [->|]; [|].
  - apply export_agrees. rewrite last_lookup in H. replace (Init.Nat.pred (length (jobs t))) with (length (jobs t) - 1)%nat in H by lia.
    by rewrite Hi in H.
  - destruct (last (jobs t)) eqn:E; [done|]. apply last_None in E. by rewrite E in Hi.
Qed.

Lemma write_up_to_date t d : up_to_date t → jobs t !! 0%nat = Some (Sealing d) → up_to_date (step_job 0 t).
Proof.
  intros [Hw H] Hi. unfold step_job. rewrite Hi, Hw. split; [done|]. cbn [jobs mem session].
  destruct (jobs t) as [|j js]; [done|]. injection Hi as ->. cbn [delete list_delete].
  destruct js as [|j js]; [cbn in *; left; by subst|]. rewrite last_cons_cons in H.
  destruct (last (j :: js)) eqn:E; [done|]. by apply last_None in E.
Qed.

Lemma run_up_to_date t : run t → up_to_date t.
Proof.
  induction 1 as [|t o _ IH|t i j _ IH Hi Hj|t d _ IH Hi]; [split; [done|by right]|by apply op_up_to_date
    |by eapply export_up_to_date|by eapply write_up_to_date].
Qed.

(** After a logout: a restore, or a step of a job. *)
Definition after_step (t : tab) (x : option nat) : tab :=
  match x with Some i => step_job i t | None => restoreAsync t end.

(** ** Sample tab *)

Definition demo_login : tab :=
  storeSigningKey [4] 2 (storeLocalKey [3] 2 (store (js "token") (mkTab no_keys None true []))).

Module KeystoreSpec.

(** A refresh keeps the user logged in. In every run of the tab, once no
    persist job is left, a refreshed page restores the token, the salt and the
    four keys exactly as they were in memory; the wipe ticket and the legacy key
    are gone. *)
Theorem refresh_keeps_keys t :
  run t → jobs t = [] →
  let k := mem t in
  mem (restoreAsync (refresh t)) =
    mkKeyStore (k_token k) (localKeyV1 k) (sigKeyV1 k) (localKeyV2 k) (sigKeyV2 k) (v2Salt k) None None.
Proof.
  intros Hr Hj. pose proof (run_up_to_date t Hr) as [Hw H]. rewrite Hj in H. cbn in H. cbv zeta.
  unfold restoreAsync, refresh. cbn [session wrap mem].
  assert (Hk : ∀ o : option bytes, keep o None = o) by (by intros []).
  destruct H as [->|[-> H]]; [rewrite Hw; cbn; by rewrite !Hk|].
  unfold snap in H. injection H as -> -> -> -> -> ->. done.
Qed.

Lemma refresh_keeps_keys_witness :
  k_token (mem (restoreAsync (refresh (step_job 0 (step_job 0 (step_job 0 (step_job 0
    (store (js "token") (mkTab no_keys None true []))))))))) = Some (utf8_encode (js "token")).
Proof.
  pose (t0 := store (js "token") (mkTab no_keys None true [])).
  assert (R : run (step_job 0 (step_job 0 (step_job 0 (step_job 0 t0))))).
  { eapply run_write; [|reflexivity]. eapply run_export; [|reflexivity|done].
    eapply run_export; [|reflexivity|done]. eapply run_export; [|reflexivity|done].
    apply (run_op _ (OStore (js "token"))), run_open. }
  exact (f_equal k_token (refresh_keeps_keys _ R eq_refl)).
Defined.

(** Logging out while nothing is being persisted leaves nothing to restore:
    whatever the page then does with its jobs and however often it restores,
    there is no token, key or ticket in memory, and a refreshed page finds none. *)
Theorem clear_forgets t (l : list (option nat)) :
  jobs t = [] →
  let t' := fold_left after_step l (clear t) in
  let k := mem t' in
  k_token k = None ∧ localKeyV1 k = None ∧ sigKeyV1 k = None ∧ localKeyV2 k = None ∧ sigKeyV2 k = None ∧
  wipeTicket k = None ∧ legacyKeyV1 k = None ∧ mem (restoreAsync (refresh t')) = no_keys.
Proof.
  intros Hj. cbv zeta. assert (Hit : fold_left after_step l (clear t) = clear t).
  { induction l as [|x l IH]; [done|]. cbn [fold_left]. assert (E : after_step (clear t) x = clear t).
    { destruct x as [i|]; [|done]. unfold after_step, step_job. cbn [clear jobs]. by rewrite Hj. }
    by rewrite E. }
  rewrite Hit. by split_and!.
Qed.

Lemma clear_forgets_witness :
  mem (restoreAsync (refresh (fold_left after_step [Some 0%nat; None]
    (clear (mkTab (mem demo_login) (Some (snap (mem demo_login))) true []))))) = no_keys.
Proof.
  apply (clear_forgets (mkTab (mem demo_login) (Some (snap (mem demo_login))) true []) [Some 0%nat; None]). reflexivity.
Defined.

(** A logout during a persist does not last. The job reads the token before
    the logout and writes it after: the sealed copy is back in the session
    storage and the next restore, on the same page or after a refresh, brings the
    token back; from a job that had read everything, the keys too. *)
Theorem clear_race t token d :
  wrap t = true → jobs t = [] →
  let logout := clear (store token t) in
  let after := step_job 0 (step_job 0 (step_job 0 (step_job 0 logout))) in
  k_token (mem (restoreAsync after)) = Some (utf8_encode token) ∧
  k_token (mem (restoreAsync (refresh after))) = Some (utf8_encode token) ∧
  (let t' := mkTab (mem t) (session t) true [Sealing d] in
   snap (mem (restoreAsync (refresh (step_job 0 (clear t'))))) = d).
Proof.
  intros Hw Hj. cbv zeta. destruct t as [k s w js]. cbn in Hw, Hj. subst.
  split_and!; [done|done|]. destruct d as [tk v a b c e]. by destruct tk, v, a, b, c, e.
Qed.

Lemma clear_race_witness :
  k_token (mem (restoreAsync (step_job 0 (step_job 0 (step_job 0 (step_job 0
    (clear (store (js "token") (mkTab no_keys None true []))))))))) = Some (utf8_encode (js "token")).
Proof. apply (clear_race (mkTab no_keys None true []) (js "token") (snap no_keys)); reflexivity. Defined.

End KeystoreSpec.
