(* ===== verification/VaultSync.v ===== *)
(** * Vault state and its synchronisation
    ([web/src/context/VaultContext.tsx], [web/src/utils/offlineQueue.ts],
    the server envelope of [web/src/utils/localCrypto.ts])

    The collections the user sees, their copies on the server, in the browser and
    in the offline outbox, and every operation that changes them.

    Ciphertext is symbolic: [Seal k x] is [x] encrypted under key [k], opened only
    by [k].  A request to the server has one of three outcomes: it is answered
    with success, answered with an error status, or the network is down. *)
From S2P Require Import Prelude JsRuntime JsText Types.

(** ** Keys and sealed values *)

Record keys := mkKeys { k1 : option Z; klegacy : option Z; k2 : option Z }.
Definition no_keys : keys := mkKeys None None None.

Record sealed (A : Type) := Seal { sealed_by : Z; sealed_value : A }.
Arguments Seal {A} _ _.
Arguments sealed_by {A} _.
Arguments sealed_value {A} _.

(** [encryptForServer]: the deterministic v1 key or nothing.  [toB64u] passes the
    bytes of the ciphertext as the arguments of one call; [fits] says which values the
    engine accepts there, for the others the call throws and the result is null. *)
Definition encryptForServer {A} (fits : A → bool) (ks : keys) (v : A) : option (sealed A) :=
  match k1 ks with None => None | Some k => if fits v then Some (Seal k v) else None end.

(** [decryptFromServer]: the candidate keys in order. *)
Definition decryptFromServer {A} (ks : keys) (s : sealed A) : option A :=
  let opens ck := bool_decide (ck = Some (sealed_by s)) in
  if existsb opens [k1 ks; klegacy ks; k2 ks] then Some (sealed_value s) else None.

(** ** Stores *)

Inductive resource := folders | credentials | asset_holder.
#[export] Instance resource_eq_dec : EqDecision resource.
Proof. solve_decision. Defined.
#[export] Instance resource_countable : Countable resource.
Proof.
  apply (inj_countable' (λ r, match r with folders => 0 | credentials => 1 | asset_holder => 2 end)
           (λ n, if n =? 0 then folders else if n =? 1 then credentials else asset_holder)).
  by intros [].
Defined.

Inductive payload := PFolders (l : list Folder) | PCreds (l : list Credential) | PAssets (a : AssetHolder).

(** What the server holds for a resource: an encrypted body, or a legacy plain one. *)
Inductive doc := Encrypted (s : sealed payload) | Legacy (p : payload).

Definition no_assets : AssetHolder := mkAssetHolder [] [] [].

(** What the server answers for a resource never written. *)
Definition empty_payload (r : resource) : payload :=
  match r with folders => PFolders [] | credentials => PCreds [] | asset_holder => PAssets no_assets end.

Record QueueEntry := mkEntry { encryptedValue : sealed payload; queuedAt : Z }.
Abbreviation Outbox := (list (resource * QueueEntry)).

Record TravelView := mkTravel { tv_active : bool; tv_hidden : list jsstr }.

(** Which values stay within the engine's limit on the arguments of one call once
    they are encrypted: collections, and outboxes. *)
Record engine := mkEngine { fits_payload : payload → bool; fits_outbox : Outbox → bool }.

(** An engine without such a limit, as the language standard describes. *)
Definition no_limit : engine := mkEngine (λ _, true) (λ _, true).

Record world := mkWorld {
  w_keys : keys;
  w_session : bool;                            (* hasServerSession() *)
  w_server : gmap resource doc;
  w_outbox : option (sealed Outbox);           (* localStorage 'vault_outbox' *)
  w_local : gmap resource (sealed payload);    (* localStorage 'vault_*' *)
  w_travel : TravelView;                       (* travel mode configuration *)
  w_engine : engine;                           (* the JavaScript engine *)
}.

Definition set_keys (w : world) (ks : keys) (session : bool) : world :=
  mkWorld ks session (w_server w) (w_outbox w) (w_local w) (w_travel w) (w_engine w).
Definition set_server (w : world) (s : gmap resource doc) : world :=
  mkWorld (w_keys w) (w_session w) s (w_outbox w) (w_local w) (w_travel w) (w_engine w).
Definition set_outbox (w : world) (o : option (sealed Outbox)) : world :=
  mkWorld (w_keys w) (w_session w) (w_server w) o (w_local w) (w_travel w) (w_engine w).
Definition set_local (w : world) (l : gmap resource (sealed payload)) : world :=
  mkWorld (w_keys w) (w_session w) (w_server w) (w_outbox w) l (w_travel w) (w_engine w).

(** ** Requests *)

Inductive net := Online | Down | Status (n : Z).

#[export] Instance net_eq_dec : EqDecision net.
Proof. solve_decision. Defined.

Definition server_doc (w : world) (r : resource) : doc :=
  default (Legacy (empty_payload r)) (w_server w !! r).

(** [apiFetch(url, { method: 'PUT', body })]: [None] on success. *)
Definition put (w : world) (r : resource) (v : sealed payload) (o : net) : world * option net :=
  match o with
  | Online => (set_server w (<[r := Encrypted v]> (w_server w)), None)
  | _ => (w, Some o)
  end.

(** ** The outbox ([offlineQueue.ts]) *)

Fixpoint outbox_get (r : resource) (o : Outbox) : option QueueEntry :=
  match o with
  | [] => None
  | (r', e) :: o' => if decide (r = r') then Some e else outbox_get r o'
  end.

(** [outbox[resource] = e]: a key that exists keeps its place. *)
Fixpoint outbox_set (r : resource) (e : QueueEntry) (o : Outbox) : Outbox :=
  match o with
  | [] => [(r, e)]
  | (r', e') :: o' => if decide (r = r') then (r, e) :: o' else (r', e') :: outbox_set r e o'
  end.

(** [delete outbox[resource]] *)
Definition outbox_delete (r : resource) (o : Outbox) : Outbox := filter (λ re, re.1 ≠ r) o.

Definition readOutbox (w : world) : Outbox :=
  match w_outbox w with
  | None => []
  | Some s => default [] (decryptFromServer (w_keys w) s)
  end.

Definition writeOutbox (w : world) (o : Outbox) : world :=
  match o with
  | [] => set_outbox w None
  | _ => match encryptForServer (fits_outbox (w_engine w)) (w_keys w) o with
         | Some s => set_outbox w (Some s)
         | None => w
         end
  end.

Definition queueWrite (w : world) (r : resource) (v : sealed payload) (now : Z) : world :=
  writeOutbox w (outbox_set r (mkEntry v now) (readOutbox w)).

Definition clearQueuedWrite (w : world) (r : resource) : world :=
  let o := readOutbox w in
  match outbox_get r o with
  | Some _ => writeOutbox w (outbox_delete r o)
  | None => w
  end.

Definition getQueueSize (w : world) : Z := len (readOutbox w).

Record FlushResult := mkFlush { flushed : list resource; authExpired : bool }.

(** The loop over the snapshot.  [outcomes] answers the requests in order;
    [others] is what the rest of the page does to the stores while a request is
    awaited. *)
Fixpoint flush_loop (w : world) (snapshot : Outbox) (outcomes : list net) (others : world → world)
    (acc : list resource) : world * FlushResult :=
  match snapshot with
  | [] => (w, mkFlush acc false)
  | (r, e) :: rest =>
      match put w r (encryptedValue e) (hd Down outcomes) with
      | (w, None) => flush_loop (clearQueuedWrite (others w) r) rest (tl outcomes) others (acc ++ [r])
      | (w, Some failure) => (w, mkFlush acc (bool_decide (failure = Status 401)))
      end
  end.

Definition flushOutbox (w : world) (outcomes : list net) (others : world → world) : world * FlushResult :=
  flush_loop w (readOutbox w) outcomes others [].

(** ** Reading and writing a collection *)

Inductive read_result := RNull | RValue (p : payload) | RPending.

(** [keyStore.clear()] and the removal of the cookie after a 401. *)
Definition session_invalid (w : world) : world := set_keys w no_keys false.

Definition _localRead (w : world) (r : resource) (o : net) : world * read_result :=
  if w_session w then
    match o with
    | Online =>
        match server_doc w r with
        | Encrypted s => match decryptFromServer (w_keys w) s with
                         | Some p => (w, RValue p)
                         | None => (w, RPending)
                         end
        | Legacy p => (w, RValue p)
        end
    | Status 401 => (session_invalid w, RNull)
    | _ => (w, RNull)
    end
  else
    match w_local w !! r with
    | None => (w, RNull)
    | Some s => if bool_decide (k2 (w_keys w) = Some (sealed_by s)) then (w, RValue (sealed_value s)) else (w, RNull)
    end.

(** How a write ends: stored, queued for later, or one of the errors. *)
Inductive write_result := Saved | Queued (r : resource) | KeyNotReady | SessionExpired | PutFailed (n : Z).

Definition _localWrite (w : world) (r : resource) (p : payload) (o : net) (now : Z) : world * write_result :=
  if w_session w then
    match encryptForServer (fits_payload (w_engine w)) (w_keys w) p with
    | None => (w, KeyNotReady)
    | Some v =>
        match put w r v o with
        | (w, None) => (set_local w (delete r (w_local w)), Saved)
        | (w, Some (Status n)) => if n =? 401 then (session_invalid w, SessionExpired) else (w, PutFailed n)
        | (w, Some _) => (queueWrite w r v now, Queued r)
        end
    end
  else
    match k2 (w_keys w) with
    | Some k => if fits_payload (w_engine w) p then (set_local w (<[r := Seal k p]> (w_local w)), Saved)
                else (w, Saved)   (* writeEncryptedLocal catches the error *)
    | None => (w, Saved)          (* writeEncryptedLocal returns without writing *)
    end.

(** ** Loading *)

(** [while (seenIds.has(id)) id = `${id}-${generateUUID().substring(0, 8)}`];
    [uuids] are the values the generator returns. *)
Fixpoint fresh_id (fuel : nat) (seen : list jsstr) (uuids : nat → jsstr) (id : jsstr) : jsstr :=
  match fuel with
  | O => id
  | S f =>
      if decide (id ∈ seen) then fresh_id f seen uuids (id ++ js "-" ++ take 8 (uuids f)) else id
  end.

(** [parsed.map(...)] with the set of seen ids; [uuids i] serves the [i]-th item. *)
Fixpoint dedup_folders (seen : list jsstr) (uuids : nat → nat → jsstr) (l : list Folder) : list Folder :=
  match l with
  | [] => []
  | f :: l' =>
      let id := fresh_id (S (length seen)) seen (uuids (length l')) (f_id f) in
      mkFolder id (f_label f) (f_description f) (f_iconName f) (f_customSvg f)
      :: dedup_folders (id :: seen) uuids l'
  end.

(** Ids are strings or numbers; a suffixed id is a string. *)
Fixpoint fresh_cred_id (fuel : nat) (seen : list cred_id) (uuids : nat → jsstr) (id : cred_id) : cred_id :=
  match fuel with
  | O => id
  | S f =>
      if decide (id ∈ seen) then
        fresh_cred_id f seen uuids (IdString (id_string id ++ js "-" ++ take 8 (uuids f)))
      else id
  end.

Fixpoint dedup_credentials (seen : list cred_id) (uuids : nat → nat → jsstr) (l : list Credential) : list Credential :=
  match l with
  | [] => []
  | c :: l' =>
      let id := fresh_cred_id (S (length seen)) seen (uuids (length l')) (c_id c) in
      set_cred_id c id :: dedup_credentials (id :: seen) uuids l'
  end.

(** A load gives the collection, or [None] when decryption is pending. *)
Definition loadLocalFolders (uuids : nat → nat → jsstr) (r : read_result) : option (list Folder) :=
  match r with
  | RPending => None
  | RValue (PFolders l) => Some (dedup_folders [] uuids l)
  | _ => Some []
  end.

Definition loadLocalCredentials (uuids : nat → nat → jsstr) (r : read_result) : option (list Credential) :=
  match r with
  | RPending => None
  | RValue (PCreds l) => Some (dedup_credentials [] uuids l)
  | _ => Some []
  end.

Definition loadLocalAssetHolder (r : read_result) : option AssetHolder :=
  match r with
  | RPending => None
  | RValue (PAssets a) => Some a
  | _ => Some no_assets
  end.

(** ** The provider's state *)

Record app := mkApp {
  a_folders : list Folder;
  a_credentials : list Credential;
  a_assetHolder : AssetHolder;
  a_daemonConnected : bool;
  a_vaultLocked : bool;
  a_vaultReady : bool;
  a_world : world;
}.

Definition with_folders (a : app) (l : list Folder) : app :=
  mkApp l (a_credentials a) (a_assetHolder a) (a_daemonConnected a) (a_vaultLocked a) (a_vaultReady a) (a_world a).
Definition with_credentials (a : app) (l : list Credential) : app :=
  mkApp (a_folders a) l (a_assetHolder a) (a_daemonConnected a) (a_vaultLocked a) (a_vaultReady a) (a_world a).
Definition with_assets (a : app) (x : AssetHolder) : app :=
  mkApp (a_folders a) (a_credentials a) x (a_daemonConnected a) (a_vaultLocked a) (a_vaultReady a) (a_world a).
Definition with_world (a : app) (w : world) : app :=
  mkApp (a_folders a) (a_credentials a) (a_assetHolder a) (a_daemonConnected a) (a_vaultLocked a) (a_vaultReady a) w.
Definition with_status (a : app) (locked ready : bool) : app :=
  mkApp (a_folders a) (a_credentials a) (a_assetHolder a) (a_daemonConnected a) locked ready (a_world a).

(** [performLoad].  [daemonToken]: the stored token is one of the daemon;
    [hasToken]: [keyStore.hasToken].  [nf], [nc], [na] answer the three reads, which
    are started together: each sees the stores as they were, and a 401 on any of
    them ends the session. *)
Definition performLoad (a : app) (daemonToken hasToken : bool) (uuids : nat → nat → jsstr) (nf nc na : net) : app :=
  if daemonToken then a else
  let w0 := a_world a in
  let '(w1, rf) := _localRead w0 folders nf in
  let '(w2, rc) := _localRead w0 credentials nc in
  let '(w3, ra) := _localRead w0 asset_holder na in
  let w := if w_session w1 && w_session w2 && w_session w3 || negb (w_session w0) then w0 else session_invalid w0 in
  let a := with_world a w in
  let f := loadLocalFolders uuids rf in
  let c := loadLocalCredentials uuids rc in
  let s := loadLocalAssetHolder ra in
  if w_session w && negb hasToken then with_status a true false
  else
    match f, c, s with
    | None, None, None => with_status a false (a_vaultReady a)
    | _, _, _ =>
        let travel := w_travel w in
        let f := if tv_active travel
                 then filter (λ x, f_id x ∉ tv_hidden travel) <$> f else f in
        let c := if tv_active travel
                 then filter (λ x, c_folderId x ∉ tv_hidden travel) <$> c else c in
        let a := match f with Some l => with_folders a l | None => a end in
        let a := match c with Some l => with_credentials a l | None => a end in
        let a := match s with Some x => with_assets a x | None => a end in
        with_status a false true
    end.

(** ** Operations

    Each takes the outcome [o] of its request and the time.  In daemon mode the
    daemon's answer is [d]: [None] when the call throws. *)

Inductive op_error := WriteError (e : write_result) | DaemonError.

Definition persist (a : app) (r : resource) (p : payload) (o : net) (now : Z) : app * write_result :=
  if a_daemonConnected a then (a, Saved)
  else let '(w, res) := _localWrite (a_world a) r p o now in (with_world a w, res).

(** [ensureId] *)
Definition ensureId (l : list Folder) (id uuid : jsstr) : jsstr :=
  if str_empty id then uuid
  else if existsb (λ f, str_eqb (f_id f) id) l then uuid
  else id.

Definition set_folder_id (f : Folder) (id : jsstr) : Folder :=
  mkFolder id (f_label f) (f_description f) (f_iconName f) (f_customSvg f).

Definition addFolder (a : app) (newFolder : Folder) (uuid : jsstr) (d : option jsstr) (o : net) (now : Z)
    : app * result op_error jsstr :=
  if a_daemonConnected a then
    match d with
    | None => (a, Throw DaemonError)
    | Some id => (with_folders a (a_folders a ++ [set_folder_id newFolder id]), Ok id)
    end
  else
    let stored := set_folder_id newFolder (ensureId (a_folders a) (f_id newFolder) uuid) in
    let prevFolders := a_folders a in
    let updated := prevFolders ++ [stored] in
    let '(a, res) := persist (with_folders a updated) folders (PFolders updated) o now in
    match res with
    | Saved | Queued _ => (a, Ok (f_id stored))
    | e => (with_folders a prevFolders, Throw (WriteError e))
    end.

Definition replace_folder (f : Folder) (l : list Folder) : list Folder :=
  map (λ x, if str_eqb (f_id x) (f_id f) then f else x) l.

Definition updateFolder (a : app) (updatedFolder : Folder) (d : option unit) (o : net) (now : Z)
    : app * result op_error unit :=
  let prevFolders := a_folders a in
  let updated := replace_folder updatedFolder prevFolders in
  if a_daemonConnected a then
    match d with None => (a, Throw DaemonError) | Some _ => (with_folders a updated, Ok tt) end
  else
    let '(a, res) := persist (with_folders a updated) folders (PFolders updated) o now in
    match res with
    | Saved | Queued _ => (a, Ok tt)
    | e => (with_folders a prevFolders, Throw (WriteError e))
    end.

(** *** Two writes at once

    [deleteFolder] starts two writes with [Promise.all].  A [wtask] is a run of
    [_localWrite] between two of its awaits; [task_step] takes it to the next one.
    The cipher takes the keys when it is called, the stores change when
    [localStorage] is called. *)
Inductive wtask :=
| TStart                                   (* [hasServerSession], [encryptForServer] *)
| TPut (v : sealed payload)                (* the request *)
| TRead (v : sealed payload)               (* [queueWrite]: [readOutbox] *)
| TSeal (o : Outbox)                       (* the entry is set; [writeOutbox] encrypts *)
| TStore (s : option (sealed Outbox))      (* [localStorage.setItem] *)
| TDone (res : write_result).

Definition task_step (r : resource) (p : payload) (o : net) (now : Z) (w : world) (t : wtask) : world * wtask :=
  match t with
  | TStart =>
      if w_session w then
        match encryptForServer (fits_payload (w_engine w)) (w_keys w) p with
        | None => (w, TDone KeyNotReady)
        | Some v => (w, TPut v)
        end
      else ((_localWrite w r p o now).1, TDone Saved)
  | TPut v =>
      match put w r v o with
      | (w, None) => (set_local w (delete r (w_local w)), TDone Saved)
      | (w, Some (Status n)) => if n =? 401 then (session_invalid w, TDone SessionExpired) else (w, TDone (PutFailed n))
      | (w, Some _) => (w, TRead v)
      end
  | TRead v => (w, TSeal (outbox_set r (mkEntry v now) (readOutbox w)))
  | TSeal q => (w, TStore (encryptForServer (fits_outbox (w_engine w)) (w_keys w) q))
  | TStore s => (match s with Some s => set_outbox w (Some s) | None => w end, TDone (Queued r))
  | TDone res => (w, TDone res)
  end.

(** The error a finished write rejects with. *)
Definition rejection (t : wtask) : option write_result :=
  match t with TDone Saved => None | TDone e => Some e | _ => None end.

(** Two writes over the same stores; [pr_first] is the first rejection, the one
    [Promise.all] reports. *)
Record pair_run := mkPair {
  pr_world : world; pr_folders : wtask; pr_creds : wtask; pr_first : option write_result }.

Definition first_of (o : option write_result) (t : wtask) : option write_result :=
  match o with Some e => Some e | None => rejection t end.

(** One step of the folder write ([true]) or of the credential write ([false]). *)
Definition pair_step (fs : list Folder) (cs : list Credential) (o1 o2 : net) (now : Z) (s : pair_run) (which : bool)
    : pair_run :=
  if which then
    let '(w, t) := task_step folders (PFolders fs) o1 now (pr_world s) (pr_folders s) in
    mkPair w t (pr_creds s) (first_of (pr_first s) t)
  else
    let '(w, t) := task_step credentials (PCreds cs) o2 now (pr_world s) (pr_creds s) in
    mkPair w (pr_folders s) t (first_of (pr_first s) t).

(** After [schedule] both writes run to their end; five steps are enough for
    each. *)
Definition run_both (fs : list Folder) (cs : list Credential) (changed : bool) (schedule : list bool) (o1 o2 : net)
    (now : Z) (w : world) : pair_run :=
  foldl (pair_step fs cs o1 o2 now) (mkPair w TStart (if changed then TStart else TDone Saved) None)
    (schedule ++ replicate 5 true ++ replicate 5 false).

(** What stays when a folder is deleted. *)
Definition kept_folders (id : jsstr) (l : list Folder) : list Folder :=
  List.filter (λ f, negb (str_eqb (f_id f) id)) l.
Definition kept_creds (id : jsstr) (l : list Credential) : list Credential :=
  List.filter (λ c, negb (str_eqb (c_folderId c) id)) l.

Definition deleteFolder (a : app) (folderId : jsstr) (d : option unit) (schedule : list bool) (o1 o2 : net) (now : Z)
    : app * result op_error unit :=
  let prevFolders := a_folders a in
  let prevCreds := a_credentials a in
  let newFolders := kept_folders folderId prevFolders in
  let newCreds := kept_creds folderId prevCreds in
  if a_daemonConnected a then
    match d with
    | None => (a, Throw DaemonError)
    | Some _ => (with_credentials (with_folders a newFolders) newCreds, Ok tt)
    end
  else
    let a := with_credentials (with_folders a newFolders) newCreds in
    let fin := run_both newFolders newCreds (negb (len newCreds =? len prevCreds)) schedule o1 o2 now (a_world a) in
    let a := with_world a (pr_world fin) in
    match pr_first fin with
    | None | Some (Queued _) => (a, Ok tt)
    | Some e => (with_credentials (with_folders a prevFolders) prevCreds, Throw (WriteError e))
    end.

Definition reorderFolders (a : app) (newFolders : list Folder) (d : option unit) (o : net) (now : Z)
    : app * result op_error unit :=
  let prev := a_folders a in
  if a_daemonConnected a then
    match d with None => (a, Throw DaemonError) | Some _ => (with_folders a newFolders, Ok tt) end
  else
    let '(a, res) := persist (with_folders a newFolders) folders (PFolders newFolders) o now in
    match res with
    | Saved | Queued _ => (a, Ok tt)
    | e => (with_folders a prev, Throw (WriteError e))
    end.

(** The common shape of the credential operations in server mode. *)
Definition save_credentials (a : app) (updated : list Credential) (o : net) (now : Z)
    : app * result op_error unit :=
  let prevCreds := a_credentials a in
  let '(a, res) := persist (with_credentials a updated) credentials (PCreds updated) o now in
  match res with
  | Saved | Queued _ => (a, Ok tt)
  | e => (with_credentials a prevCreds, Throw (WriteError e))
  end.

Definition addCredential (a : app) (newCredential : Credential) (d : option jsstr) (o : net) (now : Z)
    : app * result op_error unit :=
  if a_daemonConnected a then
    match d with
    | None => (a, Throw DaemonError)
    | Some id => (with_credentials a (a_credentials a ++ [set_cred_id newCredential (IdString id)]), Ok tt)
    end
  else save_credentials a (a_credentials a ++ [newCredential]) o now.

Definition same_id (i j : cred_id) : bool := bool_decide (i = j).

Definition updateCredential (a : app) (c : Credential) (d : option unit) (o : net) (now : Z)
    : app * result op_error unit :=
  let updated := map (λ x, if same_id (c_id x) (c_id c) then c else x) (a_credentials a) in
  if a_daemonConnected a then
    match d with None => (a, Throw DaemonError) | Some _ => (with_credentials a updated, Ok tt) end
  else save_credentials a updated o now.

Definition deleteCredential (a : app) (id : cred_id) (d : option unit) (o : net) (now : Z)
    : app * result op_error unit :=
  let updated := List.filter (λ x, negb (same_id (c_id x) id)) (a_credentials a) in
  if a_daemonConnected a then
    match d with None => (a, Throw DaemonError) | Some _ => (with_credentials a updated, Ok tt) end
  else save_credentials a updated o now.

Definition to_move (source : jsstr) (ids : option (list cred_id)) (c : Credential) : bool :=
  match ids with
  | Some l => existsb (same_id (c_id c)) l
  | None => str_eqb (c_folderId c) source
  end.

Definition moveCredentials (a : app) (source target : jsstr) (ids : option (list cred_id)) (d : option unit)
    (o : net) (now : Z) : app * result op_error unit :=
  let updated := map (λ c, if to_move source ids c then set_folderId c target else c) (a_credentials a) in
  if a_daemonConnected a then
    match d with None => (a, Throw DaemonError) | Some _ => (with_credentials a updated, Ok tt) end
  else save_credentials a updated o now.

Definition updateAssetHolder (a : app) (x : AssetHolder) (d : option unit) (o : net) (now : Z)
    : app * result op_error unit :=
  if a_daemonConnected a then
    match d with None => (a, Throw DaemonError) | Some _ => (with_assets a x, Ok tt) end
  else
    let prev := a_assetHolder a in
    let '(a, res) := persist (with_assets a x) asset_holder (PAssets x) o now in
    match res with
    | Saved | Queued _ => (a, Ok tt)
    | e => (with_assets a prev, Throw (WriteError e))
    end.

(** [attemptFlush]: flush when something is pending; on success reload. *)
Definition attemptFlush (a : app) (daemonToken hasToken : bool) (uuids : nat → nat → jsstr) (outcomes : list net)
    (nf nc na : net) : app :=
  if a_daemonConnected a then a
  else if getQueueSize (a_world a) =? 0 then a
  else
    let '(w, res) := flushOutbox (a_world a) outcomes (λ w, w) in
    let a := with_world a w in
    if authExpired res then a
    else if negb (len (flushed res) =? 0) then performLoad a daemonToken hasToken uuids nf nc na
    else a.

(** ** Folders of the daemon *)

Record FolderRow := mkRow { row_id : jsstr; row_name : jsstr; row_description : option jsstr; icon_svg : option jsstr }.

Definition ICON_PREFIX : jsstr := js "icon:".

Definition rowToFolder (row : FolderRow) : Folder :=
  let isIconName := match icon_svg row with Some s => starts_with ICON_PREFIX s | None => false end in
  mkFolder (row_id row) (row_name row) (row_description row)
    (if isIconName then drop 5 <$> icon_svg row else None)
    (if isIconName then None else icon_svg row).

Definition folderIconSvg (f : Folder) : option jsstr :=
  match f_iconName f with
  | Some (c :: n) => Some (ICON_PREFIX ++ c :: n)
  | _ => f_customSvg f
  end.

(** [setFolders(prev => ...)] of [loadFromDaemon]. *)
Definition merge_folders (prev : list Folder) (rows : list FolderRow) : list Folder :=
  let daemonFolders := map rowToFolder rows in
  match prev with
  | [] => daemonFolders
  | _ => daemonFolders ++ List.filter (λ f, negb (existsb (λ g, str_eqb (f_id g) (f_id f)) daemonFolders)) prev
  end.
