(* ===== verification/LocalCrypto.v ===== *)
(** * Encrypted values of the browser ([web/src/utils/localCrypto.ts])

    Tokens stored in [localStorage] under the session key, and the tokens kept
    on the server under the deterministic key, byte for byte. *)
From S2P Require Import VaultSync.
From S2P Require Import Prelude JsRuntime JsText Base64 Keystore.

(** WebCrypto and the engine.  [hmac_sign] is HMAC-SHA-384; [spread_limit]
    is the number of arguments the engine accepts in one call. *)
Class SessionCrypto := {
  gcm_encrypt : bytes → bytes → bytes → bytes → bytes;           (* key, iv, aad, plaintext *)
  gcm_decrypt : bytes → bytes → bytes → bytes → option bytes;
  hmac_sign : bytes → bytes → bytes;
  spread_limit : Z;
  header_version : jsstr → option jsstr;     (* the string member [v] of a JSON text *)
}.

Class SessionCryptoLaws (C : SessionCrypto) := {
  gcm_round : ∀ k iv aad p, gcm_decrypt k iv aad (gcm_encrypt k iv aad p) = Some p;
  gcm_bytes : ∀ k iv aad p, Bytes (gcm_encrypt k iv aad p);
  hmac_bytes : ∀ k m, Bytes (hmac_sign k m);
  hmac_length : ∀ k m, length (hmac_sign k m) = 48%nat;
  spread_enough : 64 <= spread_limit;
}.

Definition V2_PREFIX : jsstr := js "lcv2.".
Definition V2_VERSION : Z := 0x02.

Abbreviation storage := (gmap (list Z) jsstr).

Section local.
Context `{SessionCrypto}.

(** [String.fromCharCode(...bytes)] passes every byte as an argument: beyond
    the limit of the engine it throws. *)
Definition toB64u (bs : bytes) : option jsstr :=
  if len bs >? spread_limit then None else Some (bufToB64url bs).

Definition fromB64u (s : jsstr) : option bytes := b64urlToBuf s.

(** [crypto.subtle.verify('HMAC', ...)] *)
Definition hmac_verify (sk sig input : bytes) : bool := bool_decide (hmac_sign sk input = sig).

(** ** Values on the server *)

Definition encryptForServer (t : tab) (iv : bytes) (value : jsstr) : tab * option jsstr :=
  let t := restoreAsync t in
  match localKeyV1 (mem t) with
  | None => (t, None)
  | Some ck =>
      let ct := gcm_encrypt ck iv [] (utf8_encode value) in
      (t, toB64u (iv ++ ct))
  end.

(** The first candidate key that opens the token. *)
Fixpoint try_candidates (cks : list (option bytes)) (iv ct : bytes) : option jsstr :=
  match cks with
  | [] => None
  | None :: rest => try_candidates rest iv ct
  | Some ck :: rest =>
      match gcm_decrypt ck iv [] ct with
      | Some p => Some (utf8_decode p)
      | None => try_candidates rest iv ct
      end
  end.

Definition decryptFromServer (t : tab) (token : jsstr) : tab * option jsstr :=
  match token with
  | [] => (t, None)
  | c :: _ =>
      if (c =? 91) || (c =? 123) then (t, Some token)      (* '[' and '{' *)
      else
        let t := restoreAsync t in
        match fromB64u token with
        | None => (t, None)
        | Some ivCt =>
            (t, try_candidates [localKeyV1 (mem t); legacyKeyV1 (mem t); localKeyV2 (mem t)]
                  (slice ivCt 0 12) (drop 12 ivCt))
        end
  end.

(** ** Values in [localStorage] *)

(** The header of a v2 token; [None] when the salt does not fit. *)
Definition v2_header (salt : bytes) : option bytes :=
  if len salt >? 20 then None
  else
    let h := <[0%nat := V2_VERSION]> (zeros 21) in
    let h := set_at h salt 1 in
    Some (<[20%nat := 0]> (<[19%nat := V2_P]> (<[18%nat := V2_T]> (<[17%nat := V2_M_LOG2]> h)))).

(** [new Uint8Array(header.length + key.length)]: the encoded key does not fit
    when it has more bytes than the key has characters. *)
Definition aad_of (header : bytes) (key : jsstr) : option bytes :=
  let kb := utf8_encode key in
  if len kb >? len key then None
  else Some (set_at (set_at (zeros (length header + length key)) header 0) kb (length header)).

(** The token of a write, [None] when something throws. *)
Definition v2_token (ck2 salt iv : bytes) (sk : option bytes) (key value : jsstr) : option jsstr :=
  header ← v2_header salt;
  headerB64 ← toB64u header;
  aad ← aad_of header key;
  let ct := gcm_encrypt ck2 iv aad (utf8_encode value) in
  payloadB64 ← toB64u (iv ++ ct);
  let token := V2_PREFIX ++ headerB64 ++ js "." ++ payloadB64 in
  match sk with
  | None => Some token
  | Some sk => sig ← toB64u (hmac_sign sk (utf8_encode token)); Some (token ++ js "." ++ sig)
  end.

Definition writeEncryptedLocal (k : SecureKeyStore) (iv : bytes) (key value : jsstr) (st : storage) : storage :=
  match localKeyV2 k, v2Salt k with
  | Some ck2, Some salt =>
      match v2_token ck2 salt iv (sigKeyV2 k) key value with
      | Some token => <[key := token]> st
      | None => st
      end
  | _, _ => st
  end.

Definition part (parts : list jsstr) (i : nat) : jsstr := nth i parts [].

Definition read_v2 (k : SecureKeyStore) (key raw : jsstr) : option jsstr :=
  let parts := split_unit 46 raw in
  if len parts <? 3 then None
  else
    header ← fromB64u (part parts 1);
    if negb (nth 0 header (-1) =? V2_VERSION) then None
    else
      ok ← match sigKeyV2 k with
           | Some sk =>
               if len parts >=? 4 then
                 sig ← fromB64u (part parts 3);
                 Some (hmac_verify sk sig (utf8_encode (part parts 0 ++ js "." ++ part parts 1 ++ js "." ++ part parts 2)))
               else Some true
           | None => Some true
           end;
      if negb ok then None
      else
        ck ← localKeyV2 k;
        ivCt ← fromB64u (part parts 2);
        aad ← aad_of header key;
        p ← gcm_decrypt ck (slice ivCt 0 12) aad (drop 12 ivCt);
        Some (utf8_decode p).

Definition read_v1 (k : SecureKeyStore) (raw : jsstr) : option jsstr :=
  let parts := split_unit 46 raw in
  if negb (len parts =? 3) then None
  else
    hb ← fromB64u (part parts 0);
    v ← header_version (utf8_decode hb);
    if negb (str_eqb v (js "1")) then None
    else
      sk ← sigKeyV1 k;
      sig ← fromB64u (part parts 2);
      if negb (hmac_verify sk sig (utf8_encode (part parts 0 ++ js "." ++ part parts 1))) then None
      else
        ck ← localKeyV1 k;
        ivCt ← fromB64u (part parts 1);
        p ← gcm_decrypt ck (slice ivCt 0 12) [] (drop 12 ivCt);
        Some (utf8_decode p).

Definition readDecryptedLocal (k : SecureKeyStore) (key : jsstr) (st : storage) : option jsstr :=
  match st !! key with
  | None | Some [] => None
  | Some raw => if starts_with V2_PREFIX raw then read_v2 k key raw else read_v1 k raw
  end.
End local.

(** * Theorems on the encrypted values

    Round trips of both kinds of tokens, what an accepted token guarantees, and
    the refinement of the symbolic encryption that the vault synchronisation is
    modelled with. *)

(** ** Characters of a token *)

Lemma b64url_char bs c : Bytes bs → c ∈ bufToB64url bs → 45 <= c <= 122 ∧ c ≠ 46 ∧ c ≠ 91.
Proof.
  intros HB Hc. rewrite bufToB64url_eq in Hc by done. rewrite btoa_chars_vals in Hc. unfold replace_unit in Hc.
  rewrite !map_map in Hc. apply list_elem_of_fmap in Hc as (v & -> & Hv).
  pose proof (btoa_vals_range bs HB) as HF. rewrite Forall_forall in HF. apply HF in Hv.
  pose (url v := let c := if b64_char v =? 43 then 45 else b64_char v in if c =? 47 then 95 else c).
  assert (Hall : Forall (λ v, 45 <= url v ∧ url v <= 122 ∧ url v ≠ 46 ∧ url v ≠ 91) (seqZ 0 64))
    by (apply (bool_decide_unpack _); by vm_compute).
  rewrite Forall_forall in Hall. destruct (Hall v) as (? & ? & ? & ?); [apply elem_of_seqZ; lia|done].
Qed.

Lemma b64url_no_dot bs : Bytes bs → 46 ∉ bufToB64url bs.
Proof. intros HB Hin. apply b64url_char in Hin; [lia|done]. Qed.

Lemma b64url_nil bs : Bytes bs → bufToB64url bs = [] → bs = [].
Proof.
  intros HB He. pose proof (b64url_roundtrip bs HB) as Hr. rewrite He in Hr. by injection Hr.
Qed.

(** ** The associated data *)

Lemma set_at_0 out p : set_at out p 0 = p ++ drop (length p) out.
Proof. done. Qed.

Lemma aad_ascii header key : forallb is_ascii key = true → aad_of header key = Some (header ++ key).
Proof.
  intros Ha. unfold aad_of. rewrite (utf8_ascii key Ha). rewrite Z.gtb_ltb, Z.ltb_irrefl. f_equal.
  rewrite set_at_0. unfold zeros. rewrite drop_replicate.
  replace (length header + length key - length header)%nat with (length key) by lia.
  unfold set_at. rewrite take_app_length. f_equal.
  rewrite drop_ge; [by rewrite app_nil_r|]. rewrite length_app, length_replicate. lia.
Qed.

(** The header of a token for a sixteen-byte salt. *)
Lemma v2_header_16 salt :
  length salt = 16%nat → v2_header salt = Some (V2_VERSION :: salt ++ [V2_M_LOG2; V2_T; V2_P; 0]).
Proof.
  intros Hl. unfold v2_header.
  assert (E : (len salt >? 20) = false) by (unfold len; rewrite Hl; done). rewrite E. f_equal.
  do 16 (destruct salt as [|? salt]; [discriminate Hl|]). destruct salt; [|discriminate Hl]. reflexivity.
Qed.

Lemma v2_header_bytes salt : Bytes salt → Bytes (V2_VERSION :: salt ++ [V2_M_LOG2; V2_T; V2_P; 0]).
Proof.
  intros Hb. apply Bytes_cons. split; [unfold is_byte, V2_VERSION; lia|]. apply Bytes_app. split; [done|].
  apply (bool_decide_unpack _). by vm_compute.
Qed.

(** ** Tokens in [localStorage] *)

Section tokens.
Context {C : SessionCrypto} {L : SessionCryptoLaws C}.

(** The header of every token this tab writes, as text. *)
Definition header_of (salt : bytes) : bytes := V2_VERSION :: salt ++ [V2_M_LOG2; V2_T; V2_P; 0].

(** The parts before the signature. *)
Definition signed_parts (header ivCt : bytes) : list jsstr := [js "lcv2"; bufToB64url header; bufToB64url ivCt].
Definition signed_text (header ivCt : bytes) : jsstr := join_unit [46] (signed_parts header ivCt).

(** All parts of a token, with the signature when there is a key. *)
Definition token_parts (sk : option bytes) (header ivCt : bytes) : list jsstr :=
  signed_parts header ivCt ++
  match sk with Some sk => [bufToB64url (hmac_sign sk (utf8_encode (signed_text header ivCt)))] | None => [] end.

Lemma toB64u_ok bs : len bs <= spread_limit → toB64u bs = Some (bufToB64url bs).
Proof. intros H. unfold toB64u. by rewrite Z.gtb_ltb, (proj2 (Z.ltb_ge _ _)) by lia. Qed.

Lemma v2_token_eq ck2 salt iv sk key value :
  length salt = 16%nat → forallb is_ascii key = true →
  let ivCt := iv ++ gcm_encrypt ck2 iv (header_of salt ++ key) (utf8_encode value) in
  len ivCt <= spread_limit →
  v2_token ck2 salt iv sk key value = Some (join_unit [46] (token_parts sk (header_of salt) ivCt)).
Proof.
  intros Hs Hk. cbv zeta. set (ivCt := iv ++ _). intros Hlim. pose proof spread_enough as Hsp.
  unfold v2_token. rewrite v2_header_16 by done. fold (header_of salt). cbn [mbind option_bind].
  assert (Hlh : len (header_of salt) = 21) by (unfold len, header_of; cbn [length]; rewrite length_app, Hs; done).
  rewrite toB64u_ok by lia. rewrite aad_ascii by done. cbn [mbind option_bind]. fold ivCt.
  rewrite toB64u_ok by done. cbn [mbind option_bind].
  destruct sk as [sk|]; [|done].
  rewrite toB64u_ok by (unfold len; rewrite hmac_length; lia). cbn [mbind option_bind]. f_equal.
  unfold token_parts, signed_text, signed_parts. cbn. by rewrite <- !app_assoc.
Qed.

Lemma token_parts_clean sk header ivCt :
  Bytes header → Bytes ivCt → Forall (λ s, 46 ∉ s) (token_parts sk header ivCt).
Proof.
  intros Hh Hi. unfold token_parts, signed_parts. apply Forall_app. split.
  - repeat apply Forall_cons_2; [by apply has_unit_false|by apply b64url_no_dot..|apply Forall_nil_2].
  - destruct sk; [apply Forall_cons_2; [apply b64url_no_dot, hmac_bytes|apply Forall_nil_2]|apply Forall_nil_2].
Qed.

(** Reading the parts of a token, with or without the signature. *)
Lemma read_v2_parts k key header iv ct sk :
  Bytes header → Bytes iv → Bytes ct → length iv = 12%nat → nth 0 header (-1) = V2_VERSION →
  sk = None ∨ sigKeyV2 k = None ∨ sk = sigKeyV2 k →
  read_v2 k key (join_unit [46] (token_parts sk header (iv ++ ct))) =
    (ck ← localKeyV2 k; aad ← aad_of header key; p ← gcm_decrypt ck iv aad ct; Some (utf8_decode p)).
Proof.
  intros Hh Hi Hc Hl Hv Hsk. assert (Hic : Bytes (iv ++ ct)) by (by apply Bytes_app).
  unfold read_v2. rewrite split_join_unit; [|by destruct sk|by apply token_parts_clean].
  assert (Hn : (len (token_parts sk header (iv ++ ct)) <? 3) = false) by (by destruct sk). rewrite Hn.
  change (part (token_parts sk header (iv ++ ct)) 0) with (js "lcv2").
  change (part (token_parts sk header (iv ++ ct)) 1) with (bufToB64url header).
  change (part (token_parts sk header (iv ++ ct)) 2) with (bufToB64url (iv ++ ct)).
  unfold fromB64u. rewrite !b64url_roundtrip by done. cbn [mbind option_bind]. rewrite Hv, Z.eqb_refl. cbn [negb].
  assert (Hok : match sigKeyV2 k with
    | Some sk0 => if len (token_parts sk header (iv ++ ct)) >=? 4
        then sig ← b64urlToBuf (part (token_parts sk header (iv ++ ct)) 3);
             Some (hmac_verify sk0 sig (utf8_encode (js "lcv2" ++ js "." ++ bufToB64url header ++ js "." ++ bufToB64url (iv ++ ct))))
        else Some true
    | None => Some true end = Some true).
  { destruct (sigKeyV2 k) as [sk0|]; [|done]. destruct Hsk as [->|[?| ->]]; [done|done|].
    change (part (token_parts (Some sk0) header (iv ++ ct)) 3)
      with (bufToB64url (hmac_sign sk0 (utf8_encode (signed_text header (iv ++ ct))))).
    rewrite b64url_roundtrip by apply hmac_bytes. cbn. unfold hmac_verify. by rewrite bool_decide_true. }
  rewrite Hok. cbn [mbind option_bind negb]. destruct (localKeyV2 k); [|done]. cbn [mbind option_bind].
  assert (slice (iv ++ ct) 0 12 = iv) as -> by (unfold slice; by rewrite drop_0, Nat.sub_0_r, take_app_length' by lia).
  by rewrite drop_app_length' by lia.
Qed.
End tokens.

(** ** Tokens on the server *)

(** AEAD decryption under another key fails. *)
Class WrongKeyFails (C : SessionCrypto) :=
  wrong_key : ∀ k k' iv aad p, k ≠ k' → gcm_decrypt k' iv aad (gcm_encrypt k iv aad p) = None.

Section server.
Context {C : SessionCrypto} {L : SessionCryptoLaws C}.

(** Decrypting a token that was made under key [ck]: the candidates in order. *)
Lemma decrypt_token t iv ck value :
  Bytes iv → length iv = 12%nat →
  (decryptFromServer t (bufToB64url (iv ++ gcm_encrypt ck iv [] (utf8_encode value)))).2 =
    let k := mem (restoreAsync t) in
    try_candidates [localKeyV1 k; legacyKeyV1 k; localKeyV2 k] iv (gcm_encrypt ck iv [] (utf8_encode value)).
Proof.
  intros Hi Hl. set (ct := gcm_encrypt _ _ _ _). assert (HB : Bytes (iv ++ ct)) by (apply Bytes_app; split; [done|apply gcm_bytes]).
  unfold decryptFromServer. destruct (bufToB64url (iv ++ ct)) as [|c tok] eqn:E.
  { apply b64url_nil in E; [|done]. destruct iv; [discriminate Hl|done]. }
  destruct (b64url_char (iv ++ ct) c HB) as (? & _ & ?); [rewrite E; left|].
  rewrite (proj2 (Z.eqb_neq c 91)), (proj2 (Z.eqb_neq c 123)) by lia. cbn [orb]. rewrite <- E.
  unfold fromB64u. rewrite b64url_roundtrip by done. cbn [snd].
  assert (slice (iv ++ ct) 0 12 = iv) as -> by (unfold slice; by rewrite drop_0, Nat.sub_0_r, take_app_length' by lia).
  by rewrite drop_app_length' by lia.
Qed.

(** The engine accepts the bytes of the token of [value] as the arguments of one call. *)
Definition token_fits (t : tab) (iv : bytes) (value : jsstr) : bool :=
  match localKeyV1 (mem (restoreAsync t)) with
  | Some ck => len (iv ++ gcm_encrypt ck iv [] (utf8_encode value)) <=? spread_limit
  | None => true
  end.

(** The symbolic keys [ks] name the keys of the tab by way of [name]. *)
Definition names (name : Z → bytes) (ks : VaultSync.keys) (k : SecureKeyStore) : Prop :=
  localKeyV1 k = name <$> VaultSync.k1 ks ∧ legacyKeyV1 k = name <$> VaultSync.klegacy ks ∧
  localKeyV2 k = name <$> VaultSync.k2 ks.

Lemma try_candidates_symbolic {W : WrongKeyFails C} (name : Z → bytes) (Hinj : Inj (=) (=) name)
    (cks : list (option Z)) key iv (value : jsstr) :
  transportable value = true →
  try_candidates (map (λ c : option Z, name <$> c) cks) iv (gcm_encrypt (name key) iv [] (utf8_encode value)) =
    if existsb (λ c, bool_decide (c = Some key)) cks then Some value else None.
Proof.
  intros Hv. induction cks as [|[c|] cks IH]; [done| |].
  - cbn [map fmap option_fmap option_map try_candidates existsb]. destruct (decide (c = key)) as [->|Hne].
    + rewrite gcm_round, utf8_roundtrip by done. by rewrite bool_decide_true.
    + rewrite wrong_key by (intros Heq; by apply Hinj in Heq). rewrite bool_decide_false by congruence. exact IH.
  - cbn [map fmap option_fmap option_map try_candidates existsb]. rewrite bool_decide_false by done. exact IH.
Qed.
End server.

(** ** Sample cipher *)

Definition demo_crypto : SessionCrypto := {|
  gcm_encrypt k iv aad p := pos_bits (encode (k, aad, p));
  gcm_decrypt k iv aad c :=
    match decode (bits_pos c) with
    | Some (k', aad', p) => if bool_decide (k' = k) && bool_decide (aad' = aad) then Some p else None
    | None => None
    end;
  hmac_sign k m := replicate 48 (foldr Z.add 0 (k ++ m) mod 256);
  spread_limit := 100000;
  header_version _ := None |}.
#[export] Instance demo_crypto_laws : SessionCryptoLaws demo_crypto.
Proof.
  split; cbn [gcm_encrypt gcm_decrypt hmac_sign spread_limit demo_crypto]; intros.
  - rewrite bits_pos_bits, decode_encode. by rewrite !bool_decide_true.
  - apply pos_bits_bytes.
  - apply Forall_replicate. unfold is_byte. lia.
  - apply length_replicate.
  - lia.
Qed.
#[export] Instance demo_crypto_wrong : WrongKeyFails demo_crypto.
Proof.
  intros k k' iv aad p Hne. cbn [gcm_encrypt gcm_decrypt demo_crypto]. rewrite bits_pos_bits, decode_encode.
  by rewrite bool_decide_false.
Qed.

Definition demo_keys : SecureKeyStore :=
  mkKeyStore None (Some [1]) None (Some [2]) (Some [3]) (Some (seqZ 0 16)) None None.

Definition demo_iv : bytes := seqZ 100 12.
Definition demo_slot : jsstr := js "vault".
Definition demo_token : jsstr :=
  match @v2_token demo_crypto [2] (seqZ 0 16) demo_iv (Some [3]) demo_slot (js "x") with Some t => t | None => [] end.
Definition demo_storage : storage := {[ demo_slot := demo_token ]}.
Definition demo_tab : tab := mkTab demo_keys None true [].
Definition demo_name (n : Z) : bytes := [n].
#[export] Instance demo_name_inj : Inj (=) (=) demo_name.
Proof. by intros x y [=]. Qed.

Module LocalSpec.
Section claims.
Context {C : SessionCrypto} {L : SessionCryptoLaws C}.

(** A value written to [localStorage] is read back: with the session keys in
    memory, an ASCII slot name and a value within the engine's limit,
    [readDecryptedLocal] returns what [writeEncryptedLocal] stored, with or without
    a signing key, and no other slot changes. *)
Theorem local_roundtrip k ck2 salt iv key value st :
  localKeyV2 k = Some ck2 → v2Salt k = Some salt → length salt = 16%nat → Bytes salt →
  length iv = 12%nat → Bytes iv → forallb is_ascii key = true → transportable value = true →
  12 + len (gcm_encrypt ck2 iv (header_of salt ++ key) (utf8_encode value)) <= spread_limit →
  let st' := writeEncryptedLocal k iv key value st in
  readDecryptedLocal k key st' = Some value ∧ ∀ other, other ≠ key → st' !! other = st !! other.
Proof.
  intros Hk Hs Hls Hbs Hli Hbi Ha Hv Hlim. cbv zeta. unfold writeEncryptedLocal. rewrite Hk, Hs.
  rewrite v2_token_eq by (done || (unfold len in *; rewrite length_app; lia)).
  split; [|by intros other Hne; rewrite lookup_insert_ne].
  unfold readDecryptedLocal. rewrite lookup_insert_eq.
  set (tok := join_unit [46] _). assert (Hp : starts_with V2_PREFIX tok = true) by (unfold tok; by destruct (sigKeyV2 k)).
  destruct tok as [|c tok'] eqn:E; [done|]. rewrite Hp, <- E. unfold tok.
  rewrite read_v2_parts; [|by apply v2_header_bytes|done|apply gcm_bytes|done|done|by right; right].
  rewrite Hk. cbn [mbind option_bind]. rewrite aad_ascii by done. cbn [mbind option_bind].
  rewrite gcm_round. cbn. by rewrite utf8_roundtrip.
Qed.

(** What an accepted v2 token guarantees: its payload was opened under the
    session key with the token's header and the name of the slot as associated
    data, so a token moved to another slot is not accepted as that slot's; and a
    signature, where there is one and a key to check it with, verified. *)
Theorem local_authentic k key st v raw :
  st !! key = Some raw → starts_with V2_PREFIX raw = true → readDecryptedLocal k key st = Some v →
  ∃ ck header iv ct aad p,
    localKeyV2 k = Some ck ∧ nth 0 header (-1) = V2_VERSION ∧ aad_of header key = Some aad ∧
    gcm_decrypt ck iv aad ct = Some p ∧ v = utf8_decode p ∧
    (∀ sk, sigKeyV2 k = Some sk → 4 <= len (split_unit 46 raw) →
       ∃ sig, fromB64u (part (split_unit 46 raw) 3) = Some sig ∧
         hmac_sign sk (utf8_encode (join_unit [46] (take 3 (split_unit 46 raw)))) = sig).
Proof.
  intros Hr Hp Hread. unfold readDecryptedLocal in Hread. rewrite Hr in Hread.
  destruct raw as [|c raw'] eqn:Eraw; [done|]. rewrite <- Eraw in *. rewrite Hp in Hread.
  unfold read_v2 in Hread. set (parts := split_unit 46 raw) in *.
  destruct (Z.ltb_spec (len parts) 3) as [|Hlen]; [done|].
  destruct (fromB64u (part parts 1)) as [header|]; [cbn in Hread|done].
  destruct (Z.eqb_spec (nth 0 header (-1)) V2_VERSION) as [Hv|]; [cbn [negb] in Hread|done].
  match type of Hread with mbind _ ?m = _ => destruct m as [[]|] eqn:Hok end; [cbn in Hread|done|done].
  destruct (localKeyV2 k) as [ck|]; [cbn in Hread|done].
  destruct (fromB64u (part parts 2)) as [ivCt|]; [cbn in Hread|done].
  destruct (aad_of header key) as [aad|] eqn:Haad; [cbn in Hread|done].
  destruct (gcm_decrypt ck _ aad _) as [p|] eqn:Hg; [cbn in Hread|done]. injection Hread as <-.
  eexists ck, header, _, _, aad, p. split_and!; try done.
  intros sk Hsk H4. rewrite Hsk in Hok. rewrite Z.geb_leb, (proj2 (Z.leb_le 4 _)) in Hok by done.
  destruct (fromB64u (part parts 3)) as [sig|]; [cbn in Hok|done]. exists sig. split; [done|].
  injection Hok as Hok. unfold hmac_verify in Hok. apply bool_decide_eq_true in Hok. rewrite <- Hok. do 2 f_equal.
  destruct parts as [|p0 [|p1 [|p2 rest]]]; cbn in Hlen |- *; try (unfold len in Hlen; cbn in Hlen; lia). done.
Qed.

(** The signature can be taken away: the token without its last part is read
    as before, whatever the signing key. *)
Theorem signature_optional k ck2 salt iv key value st :
  localKeyV2 k = Some ck2 → v2Salt k = Some salt → length salt = 16%nat → Bytes salt →
  length iv = 12%nat → Bytes iv → forallb is_ascii key = true → transportable value = true →
  let ivCt := iv ++ gcm_encrypt ck2 iv (header_of salt ++ key) (utf8_encode value) in
  readDecryptedLocal k key (<[key := signed_text (header_of salt) ivCt]> st) = Some value.
Proof.
  intros Hk Hs Hls Hbs Hli Hbi Ha Hv. cbv zeta. unfold readDecryptedLocal. rewrite lookup_insert_eq.
  set (tok := signed_text _ _). assert (Hp : starts_with V2_PREFIX tok = true) by done.
  destruct tok as [|c tok'] eqn:E; [done|]. rewrite Hp, <- E. unfold tok.
  pose proof (read_v2_parts k key (header_of salt) iv (gcm_encrypt ck2 iv (header_of salt ++ key) (utf8_encode value)) None)
    as Hr. unfold token_parts in Hr. rewrite app_nil_r in Hr. unfold signed_text. rewrite Hr;
    [|by apply v2_header_bytes|done|apply gcm_bytes|done|done|by left].
  rewrite Hk. cbn [mbind option_bind]. rewrite aad_ascii by done. cbn [mbind option_bind].
  rewrite gcm_round. cbn. by rewrite utf8_roundtrip.
Qed.

(** C26: the byte-level server tokens implement the symbolic encryption of the
    vault model, in an engine that accepts any number [spread_limit] of arguments: for
    keys named by the symbolic ones, [encryptForServer] gives null exactly when the
    deterministic key is missing or the bytes of the token are more than
    [spread_limit], and a token otherwise; any tab decrypts the token exactly when its
    symbolic keys open the symbolic value, to the same value.  The value is text without
    lone surrogates, as every output of [JSON.stringify] is. *)
Theorem server_tokens_refine {W : WrongKeyFails C} (name : Z → bytes) (Hinj : Inj (=) (=) name) ks ks' t t' iv value :
  names name ks (mem (restoreAsync t)) → names name ks' (mem (restoreAsync t')) →
  length iv = 12%nat → Bytes iv → transportable value = true →
  match VaultSync.encryptForServer (token_fits t iv) ks value, (encryptForServer t iv value).2 with
  | None, None => VaultSync.k1 ks = None ∨ token_fits t iv value = false
  | Some s, Some token => token_fits t iv value = true ∧ (decryptFromServer t' token).2 = VaultSync.decryptFromServer ks' s
  | _, _ => False
  end.
Proof.
  intros (N1 & _ & _) (N1' & Nl' & N2') Hli Hbi Hv. unfold VaultSync.encryptForServer, encryptForServer, token_fits. rewrite N1.
  destruct (VaultSync.k1 ks) as [key|]; [|by left]. cbn [fmap option_fmap option_map snd].
  destruct (Z.leb_spec (len (iv ++ gcm_encrypt (name key) iv [] (utf8_encode value))) spread_limit) as [Hlim|Hlim].
  - rewrite toB64u_ok by done. split; [done|]. rewrite decrypt_token by done. cbv zeta. rewrite N1', Nl', N2'.
    exact (try_candidates_symbolic name Hinj [VaultSync.k1 ks'; VaultSync.klegacy ks'; VaultSync.k2 ks'] key iv value Hv).
  - unfold toB64u. rewrite Z.gtb_ltb, (proj2 (Z.ltb_lt _ _)) by done. by right.
Qed.
End claims.

Lemma local_roundtrip_witness :
  @readDecryptedLocal demo_crypto demo_keys demo_slot (@writeEncryptedLocal demo_crypto demo_keys demo_iv demo_slot (js "x") ∅)
    = Some (js "x").
Proof.
  refine (proj1 (@local_roundtrip demo_crypto demo_crypto_laws demo_keys [2] (seqZ 0 16) demo_iv demo_slot (js "x") ∅
    eq_refl eq_refl eq_refl _ eq_refl _ eq_refl eq_refl _)); apply (bool_decide_unpack _); by vm_compute.
Defined.

Lemma local_authentic_witness :
  ∃ ck header iv ct aad p,
    localKeyV2 demo_keys = Some ck ∧ nth 0 header (-1) = V2_VERSION ∧ aad_of header demo_slot = Some aad ∧
    @gcm_decrypt demo_crypto ck iv aad ct = Some p ∧ js "x" = utf8_decode p ∧
    (∀ sk, sigKeyV2 demo_keys = Some sk → 4 <= len (split_unit 46 demo_token) →
       ∃ sig, fromB64u (part (split_unit 46 demo_token) 3) = Some sig ∧
         @hmac_sign demo_crypto sk (utf8_encode (join_unit [46] (take 3 (split_unit 46 demo_token)))) = sig).
Proof.
  apply (@local_authentic demo_crypto demo_keys demo_slot demo_storage (js "x") demo_token);
    [reflexivity|vm_compute; reflexivity|vm_compute; reflexivity].
Defined.

Lemma signature_optional_witness :
  @readDecryptedLocal demo_crypto demo_keys demo_slot
    (<[demo_slot := signed_text (header_of (seqZ 0 16))
        (demo_iv ++ @gcm_encrypt demo_crypto [2] demo_iv (header_of (seqZ 0 16) ++ demo_slot) (utf8_encode (js "x")))]> ∅)
    = Some (js "x").
Proof.
  apply (@signature_optional demo_crypto demo_crypto_laws demo_keys [2] (seqZ 0 16) demo_iv demo_slot (js "x") ∅);
    [reflexivity|reflexivity|reflexivity| |reflexivity| |reflexivity|reflexivity]; apply (bool_decide_unpack _); by vm_compute.
Defined.

Lemma server_tokens_refine_witness :
  match (@encryptForServer demo_crypto demo_tab demo_iv (js "x")).2 with
  | Some token => @token_fits demo_crypto demo_tab demo_iv (js "x") = true ∧
                  (@decryptFromServer demo_crypto demo_tab token).2 = Some (js "x")
  | None => False
  end.
Proof.
  pose (ks := VaultSync.mkKeys (Some 1) None (Some 2)).
  apply (@server_tokens_refine demo_crypto demo_crypto_laws demo_crypto_wrong demo_name demo_name_inj ks ks demo_tab demo_tab
    demo_iv (js "x")); [by split_and!|by split_and!|reflexivity| |reflexivity].
  apply (bool_decide_unpack _); by vm_compute.
Defined.
End LocalSpec.
