(* ===== verification/JsDyn.v ===== *)
(** * Values of unknown shape

    What the language does with a parsed JSON value whose shape the code does not
    check: property reads, iteration, spreading and [String(v)].  Part of the
    language. *)
From S2P Require Import Prelude JsRuntime JsText Json JsonSpec.

Inductive js_error := TypeError | SyntaxError | URIError | RangeError | InvalidCharacter | OperationError | ErrorMsg (msg : jsstr).

#[export] Instance js_error_eq_dec : EqDecision js_error.
Proof. solve_decision. Defined.

Abbreviation dyn A := (result js_error A).

(** An object literal whose keys are different and no array indices. *)
Definition obj_ (fields : list (string * json)) : json := JObj (map (λ kv, (js kv.1, kv.2)) fields).

(** [v[k]] for a key no prototype has: reading from [null] throws, other primitives
    and arrays have no such property. *)
Definition get (v : json) (k : string) : dyn (option json) :=
  match v with JNull => Throw TypeError | _ => Ok (prop k v) end.

(** [v[k] ?? d] *)
Definition get_or (v : json) (k : string) (d : json) : dyn json := x ← get v k; Ok (nullish x d).

(** [v[k1] ?? v[k2] ?? ... ?? d] *)
Fixpoint get_first (v : json) (ks : list string) (d : json) : dyn json :=
  match ks with
  | [] => Ok d
  | k :: ks => x ← get v k; match x with None | Some JNull => get_first v ks d | Some y => Ok y end
  end.

(** The characters of a string, surrogate pairs together. *)
Fixpoint code_points (s : jsstr) : list jsstr :=
  match s with
  | [] => []
  | c :: s' =>
      match s' with
      | d :: s'' => if is_high c && is_low d then [c; d] :: code_points s'' else [c] :: code_points s'
      | [] => [[c]]
      end
  end.

(** The elements of [for (const x of v)] and [[...v]]. *)
Definition elements (v : json) : dyn (list json) :=
  match v with
  | JArr l => Ok l
  | JStr s => Ok (map JStr (code_points s))
  | _ => Throw TypeError
  end.

(** The array of [v.map(...)]: only arrays have the method. *)
Definition array_of (v : json) : dyn (list json) := match v with JArr l => Ok l | _ => Throw TypeError end.

(** [v[0]] *)
Definition at0 (v : json) : dyn (option json) :=
  match v with
  | JNull => Throw TypeError
  | JArr l => Ok (head l)
  | JStr (c :: _) => Ok (Some (JStr [c]))
  | JObj l => Ok (lookup_key (js "0") l)
  | _ => Ok None
  end.

(** The own enumerable properties, as spreading and [Object.values] see them. *)
Definition own_props (v : json) : list (jsstr * json) :=
  match v with
  | JObj l => l
  | JArr l => imap (λ i x, (dec (Z.of_nat i), x)) l
  | JStr s => imap (λ i c, (dec (Z.of_nat i), JStr [c])) s
  | _ => []
  end.

(** [String(v)] *)
Fixpoint to_text (v : json) : jsstr :=
  match v with
  | JNull => js "null"
  | JBool b => if b then js "true" else js "false"
  | JNum n => num_text n
  | JStr s => s
  | JArr l => join_unit [44] (map (λ x, match x with JNull => [] | _ => to_text x end) l)
  | JObj _ => js "[object Object]"
  end.

(** [String(v[k] ?? d)] *)
Definition text_or (v : json) (k : string) (d : string) : dyn jsstr := to_text <$> get_or v k (JStr (js d)).

(** A loop that pushes what [f] gives for every element. *)
Fixpoint collect {A B} (f : A → dyn (list B)) (l : list A) : dyn (list B) :=
  match l with
  | [] => Ok []
  | x :: l' => ys ← f x; zs ← collect f l'; Ok (ys ++ zs)
  end.

Lemma collect_ok {A B} (f : A → dyn (list B)) (g : A → list B) l :
  (∀ x, x ∈ l → f x = Ok (g x)) → collect f l = Ok (concat (map g l)).
Proof.
  induction l as [|x l IH]; intros Hf; [done|]. cbn [collect map concat]. rewrite (Hf x) by set_solver. cbn.
  rewrite IH by set_solver. done.
Qed.

Lemma collect_one {A B} (f : A → dyn (list B)) (g : A → B) l :
  (∀ x, x ∈ l → f x = Ok [g x]) → collect f l = Ok (map g l).
Proof.
  intros Hf. rewrite (collect_ok f (λ x, [g x]) l Hf). f_equal. induction l as [|x l IH]; [done|]. cbn. by rewrite IH by set_solver.
Qed.

(** [JSON.parse(text)] *)
Definition parse_json `{JsFloat} (text : jsstr) : dyn json := match parse text with Some v => Ok v | None => Throw SyntaxError end.

Lemma parse_json_printed `{JsFloat} v : json_ok v = true → parse_json (stringify_2 v) = Ok v.
Proof. intros Hv. unfold parse_json, stringify_2. by rewrite json_roundtrip. Qed.
