(* ===== verification/Csv.v ===== *)
(** * CSV import and export ([web/src/utils/importExport.ts])

    The parser and the escaping, the generic importer with its column mapping,
    every CSV importer and exporter, and the choice of the importer from the
    first line of a file. *)
From S2P Require Import Prelude JsRuntime JsText Base64 Types.

(** ** Lines and cells *)

(** [s.split(/\r?\n/)] *)
Fixpoint split_lines (s : jsstr) : list jsstr :=
  match s with
  | [] => [[]]
  | c :: s' =>
      if c =? 10 then [] :: split_lines s'
      else
        let more := match split_lines s' with p :: ps => (c :: p) :: ps | [] => [[c]] end in
        match s' with
        | c2 :: s'' => if (c =? 13) && (c2 =? 10) then [] :: split_lines s'' else more
        | [] => more
        end
  end.

(** The loop over the characters of a line. *)
Fixpoint parse_line (line : jsstr) (inQuote : bool) (cur : jsstr) : list jsstr :=
  match line with
  | [] => [cur]
  | ch :: rest =>
      if ch =? 34 then
        match rest with
        | c2 :: rest' =>
            if inQuote && (c2 =? 34) then parse_line rest' inQuote (cur ++ [34])
            else parse_line rest (negb inQuote) cur
        | [] => parse_line rest (negb inQuote) cur
        end
      else if (ch =? 44) && negb inQuote then cur :: parse_line rest inQuote []
      else parse_line rest inQuote (cur ++ [ch])
  end.

(** [text.startsWith(BOM) ? text.slice(1) : text] *)
Definition strip_bom_text (text : jsstr) : jsstr :=
  match text with c :: t => if c =? BOM then t else text | [] => [] end.

Definition parseCSV (text : jsstr) : list (list jsstr) :=
  map (λ line, parse_line line false [])
    (List.filter (λ line, negb (str_empty (trim line))) (split_lines (strip_bom_text text))).

(** Every quotation mark doubled. *)
Definition double_quotes (s : jsstr) : jsstr := concat (map (λ c, if c =? 34 then [34; 34] else [c]) s).
Definition quoted (s : jsstr) : jsstr := [34] ++ double_quotes s ++ [34].

Definition csvEscape (val : option jsstr) : jsstr :=
  let s := or_empty val in
  if has_unit 44 s || has_unit 34 s || has_unit 10 s || has_unit 13 s then quoted s else s.

(** ** The generic importer *)

(** The URL functions of the platform: the [secret] parameter of a URL, [None]
    when the text is no URL or has none, and [encodeURIComponent], which throws on
    a lone surrogate. *)
Class JsUrl := {
  url_secret : jsstr → option jsstr;
  encodeURIComponent : jsstr → option jsstr;
}.

Record ColMap := mkColMap {
  cm_title : option (list jsstr); cm_url : option (list jsstr); cm_username : option (list jsstr);
  cm_password : option (list jsstr); cm_notes : option (list jsstr); cm_otp : option (list jsstr);
  cm_folder : option (list jsstr) }.

Record ImportResult := mkImport { credentials : list Credential; detectedFormat : jsstr }.

(** The importers the first line of a file can choose. *)
Inductive csv_importer :=
  | Firefox | Bitwarden | LastPass | OnePassword | Keeper | NordPass | KeePass | RoboForm | Zoho | Passbolt | MSecure
  | TrueKey | Chrome.

Section csv.
Context `{JsCase} `{JsUrl}.

Definition extractOtpSecret (uri : jsstr) : option jsstr := if str_empty uri then None else url_secret uri.

Definition buildOtpUri (service secret : jsstr) : option jsstr :=
  s ← encodeURIComponent service;
  Some (js "otpauth://totp/" ++ s ++ js "?secret=" ++ secret ++ js "&digits=6&period=30").

(** [headers.findIndex(h => h === n)] *)
Fixpoint index_of_str (n : jsstr) (headers : list jsstr) : option nat :=
  match headers with
  | [] => None
  | h :: hs => if str_eqb h n then Some 0%nat else S <$> index_of_str n hs
  end.

Fixpoint findCol (headers names : list jsstr) : option nat :=
  match names with
  | [] => None
  | n :: ns => match index_of_str (toLowerCase n) headers with Some i => Some i | None => findCol headers ns end
  end.

(** [i >= 0 ? (row[i] ?? '') : ''] *)
Definition cell (row : list jsstr) (i : option nat) : jsstr :=
  match i with Some i => or_empty (row !! i) | None => [] end.

(** [otpRaw ? (extractOtpSecret(otpRaw) ?? otpRaw) : undefined] *)
Definition otp_of (otpRaw : jsstr) : option jsstr :=
  match otpRaw with
  | [] => None
  | _ => Some (default otpRaw (extractOtpSecret otpRaw))
  end.

(** The columns found for a map. *)
Record columns := mkCols {
  ti : option nat; ui : option nat; uni : option nat; pi : option nat; ni : option nat; oi : option nat; fi : option nat }.

Definition find_columns (headers : list jsstr) (m : ColMap) : columns :=
  let col o d := findCol headers (default (map js d) o) in
  mkCols
    (col (cm_title m) ["title"; "name"; "account"; "label"]%string)
    (col (cm_url m) ["url"; "website"; "web site"; "login_uri"; "uri"]%string)
    (col (cm_username m) ["username"; "login"; "login name"; "user name"; "email"; "login_username"]%string)
    (col (cm_password m) ["password"; "pwd"; "login_password"]%string)
    (col (cm_notes m) ["notes"; "note"; "extra"; "comment"; "comments"]%string)
    (col (cm_otp m) ["totp"; "otpauth"; "otp"; "two-factor"; "login_totp"]%string)
    (col (cm_folder m) ["folder"; "group"; "grouping"; "category"]%string).

(** One row of data; [None] when it is skipped. *)
Definition row_credential (cols : columns) (uuid : jsstr) (row : list jsstr) : option Credential :=
  let title := match ti cols with Some i => trim (or_empty (row !! i)) | None => [] end in
  if str_empty title && negb (bool_decide (is_Some (uni cols))) && negb (bool_decide (is_Some (pi cols))) then None
  else
    let otpRaw := cell row (oi cols) in
    Some (basic_credential (IdString uuid) (str_or title (js "Untitled")) (cell row (ui cols)) (cell row (uni cols))
      (Some (cell row (pi cols))) (js "active") (js "#22c55e") [] []
      (Some (match fi cols with
             | Some i => match row !! i with Some (c :: f) => [c :: f] | _ => [] end
             | None => []
             end))
      (otp_of otpRaw)
      (match ni cols with Some i => Some (or_empty (row !! i)) | None => None end)
      None).

(** [typeFilter]: rows whose [type] column holds another word are skipped. *)
Definition type_skips (headers : list jsstr) (typeFilter : option jsstr) (row : list jsstr) : bool :=
  match typeFilter with
  | None => false
  | Some f =>
      match index_of_str (js "type") headers with
      | Some i => match row !! i with
                  | Some (c :: t) => negb (str_eqb (toLowerCase (c :: t)) f)
                  | _ => false
                  end
      | None => false
      end
  end.

(** The loop over the rows; [uuids] are the generated ids, in order. *)
Fixpoint import_rows (headers : list jsstr) (cols : columns) (typeFilter : option jsstr) (uuids : nat → jsstr)
    (n : nat) (rows : list (list jsstr)) : list Credential :=
  match rows with
  | [] => []
  | row :: rest =>
      if type_skips headers typeFilter row then import_rows headers cols typeFilter uuids n rest
      else match row_credential cols (uuids n) row with
           | Some c => c :: import_rows headers cols typeFilter uuids (S n) rest
           | None => import_rows headers cols typeFilter uuids n rest
           end
  end.

Definition csvImport (uuids : nat → jsstr) (text : jsstr) (m : ColMap) (formatId : jsstr) (typeFilter : option jsstr)
    : ImportResult :=
  match parseCSV text with
  | h :: r :: rows =>
      let headers := map (λ h, trim (toLowerCase h)) h in
      mkImport (import_rows headers (find_columns headers m) typeFilter uuids 0 (r :: rows)) formatId
  | _ => mkImport [] formatId
  end.

(** ** Importers *)

Definition cols_of (l : list string) : option (list jsstr) := Some (map js l).

Context (uuids : nat → jsstr).

Definition importChrome (text : jsstr) : ImportResult :=
  csvImport uuids text (mkColMap (cols_of ["name"]) (cols_of ["url"]) (cols_of ["username"]) (cols_of ["password"])
    (cols_of ["note"]) None None)%string (js "chrome-csv") None.
Definition importFirefox (text : jsstr) : ImportResult :=
  csvImport uuids text (mkColMap None (cols_of ["url"]) (cols_of ["username"]) (cols_of ["password"])
    (cols_of ["httprealm"]) None None)%string (js "firefox-csv") None.
Definition importSafari (text : jsstr) : ImportResult :=
  csvImport uuids text (mkColMap (cols_of ["title"; "name"]) (cols_of ["url"; "website"]) (cols_of ["username"])
    (cols_of ["password"]) None None None)%string (js "safari-csv") None.
Definition importLastPass (text : jsstr) : ImportResult :=
  csvImport uuids text (mkColMap (cols_of ["name"]) (cols_of ["url"]) (cols_of ["username"]) (cols_of ["password"])
    (cols_of ["extra"; "notes"]) (cols_of ["totp"]) (cols_of ["grouping"]))%string (js "lastpass-csv") None.
Definition import1PasswordCSV (text : jsstr) : ImportResult :=
  csvImport uuids text (mkColMap (cols_of ["title"]) (cols_of ["url"]) (cols_of ["username"]) (cols_of ["password"])
    (cols_of ["notes"]) (cols_of ["otpauth"]) None)%string (js "1password-csv") None.
Definition importBitwardenCSV (text : jsstr) : ImportResult :=
  csvImport uuids text (mkColMap (cols_of ["name"]) (cols_of ["login_uri"]) (cols_of ["login_username"])
    (cols_of ["login_password"]) (cols_of ["notes"]) (cols_of ["login_totp"]) (cols_of ["folder"]))%string
    (js "bitwarden-csv") (Some (js "login")).
Definition importNordPass (text : jsstr) : ImportResult :=
  csvImport uuids text (mkColMap (cols_of ["name"]) (cols_of ["url"]) (cols_of ["username"]) (cols_of ["password"])
    (cols_of ["note"; "notes"]) None None)%string (js "nordpass-csv") (Some (js "login")).
Definition importKeePassCSV (text : jsstr) : ImportResult :=
  csvImport uuids text (mkColMap (cols_of ["account"; "title"; "name"]) (cols_of ["web site"; "url"])
    (cols_of ["login name"; "username"]) (cols_of ["password"]) (cols_of ["comments"]) None None)%string (js "keepass-csv") None.
Definition importKeeperCSV (text : jsstr) : ImportResult :=
  csvImport uuids text (mkColMap (cols_of ["title"]) (cols_of ["website"]) (cols_of ["login"; "username"])
    (cols_of ["password"]) (cols_of ["notes"]) (cols_of ["two-factor"; "otp secret"]) (cols_of ["folder"]))%string
    (js "keeper-csv") None.
Definition importDashlaneCSV (text : jsstr) : ImportResult :=
  csvImport uuids text (mkColMap (cols_of ["name"; "title"]) (cols_of ["url"; "domain"])
    (cols_of ["login"; "email"; "username"]) (cols_of ["password"]) (cols_of ["note"]) None None)%string (js "dashlane-csv") None.
Definition importRoboForm (text : jsstr) : ImportResult :=
  csvImport uuids text (mkColMap (cols_of ["name"]) (cols_of ["url"]) (cols_of ["login"; "username"])
    (cols_of ["pwd"; "password"]) (cols_of ["note"]) None (cols_of ["folder"]))%string (js "roboform-csv") None.
Definition importMSecure (text : jsstr) : ImportResult :=
  csvImport uuids text (mkColMap (cols_of ["description"; "title"; "name"]) (cols_of ["website"; "url"; "web"])
    (cols_of ["username"; "login"; "email"]) (cols_of ["password"]) (cols_of ["notes"; "note"])
    (cols_of ["2fa key"; "otp"; "totp"]) (cols_of ["account type"; "type"; "group"; "category"]))%string (js "msecure-csv") None.
Definition importZoho (text : jsstr) : ImportResult :=
  csvImport uuids text (mkColMap (cols_of ["secret name"; "title"; "name"]) (cols_of ["url"; "website"])
    (cols_of ["account name"; "username"; "user name"]) (cols_of ["password"]) (cols_of ["comments"; "notes"]) None None)%string
    (js "zoho-csv") None.
Definition importPassbolt (text : jsstr) : ImportResult :=
  csvImport uuids text (mkColMap (cols_of ["title"]) (cols_of ["url"]) (cols_of ["username"]) (cols_of ["password"])
    (cols_of ["description"; "note"]) None None)%string (js "passbolt-csv") None.
Definition importEnpassCSV (text : jsstr) : ImportResult :=
  csvImport uuids text (mkColMap (cols_of ["title"]) (cols_of ["url"; "website"]) (cols_of ["username"; "email"; "login"])
    (cols_of ["password"]) (cols_of ["notes"]) (cols_of ["one-time password"; "totp"]) None)%string (js "enpass-csv") None.
Definition importPWDnowCSV (text : jsstr) : ImportResult :=
  csvImport uuids text (mkColMap (cols_of ["name"]) (cols_of ["url"]) (cols_of ["username"]) (cols_of ["password"])
    (cols_of ["notes"]) (cols_of ["otp_secret"]) (cols_of ["folder"]))%string (js "pwdnow-csv") None.

(** True Key has its own loop: rows of another kind or without a name are
    skipped. *)
Fixpoint truekey_rows (headers : list jsstr) (n : nat) (rows : list (list jsstr)) : list Credential :=
  let col s := index_of_str (js s) headers in
  match rows with
  | [] => []
  | row :: rest =>
      let kind_skips := match col "kind"%string with
                        | Some i => match row !! i with
                                    | Some (c :: t) => negb (str_eqb (toLowerCase (c :: t)) (js "login"))
                                    | _ => false
                                    end
                        | None => false
                        end in
      let title := trim (cell row (col "name"%string)) in
      if kind_skips || str_empty title then truekey_rows headers n rest
      else
        basic_credential (IdString (uuids n)) title (cell row (col "url"%string)) (cell row (col "username"%string))
          (Some (cell row (col "password"%string))) (js "active") (js "#22c55e") [] [] (Some [])
          (otp_of (cell row (col "totp"%string))) (or_undefined (cell row (col "extra"%string))) None
        :: truekey_rows headers (S n) rest
  end.

Definition importTrueKey (text : jsstr) : ImportResult :=
  match parseCSV text with
  | h :: r :: rows => mkImport (truekey_rows (map (λ h, trim (toLowerCase h)) h) 0 (r :: rows)) (js "truekey-csv")
  | _ => mkImport [] (js "truekey-csv")
  end.

(** ** Exporters *)

(** [[header, ...rows].join('\n')], every row joined by commas. *)
Definition csv_text (header : string) (rows : list (list jsstr)) : jsstr :=
  join_unit [10] (js header :: map (join_unit [44]) rows).

(** [c.folderId ? (folderMap.get(c.folderId) ?? '') : '']; the last folder with
    the id wins, as in the [Map]. *)
Definition folder_label (folders : list Folder) (id : jsstr) : jsstr :=
  if str_empty id then []
  else match List.find (λ f, str_eqb (f_id f) id) (reverse folders) with Some f => f_label f | None => [] end.

(** [c.otpSecret ? csvEscape(buildOtpUri(c.service, c.otpSecret)) : ''] *)
Definition otp_cell (c : Credential) : option jsstr :=
  match c_otpSecret c with
  | Some (o :: secret) => uri ← buildOtpUri (c_service c) (o :: secret); Some (csvEscape (Some uri))
  | _ => Some []
  end.

Definition exportToPWDnowCSV (l : list Credential) : jsstr :=
  csv_text "name,url,username,password,notes,otp_secret,folder"
    (map (λ c, [csvEscape (Some (c_service c)); csvEscape (Some (c_url c)); csvEscape (Some (c_username c));
                csvEscape (c_password c); csvEscape (c_description c); csvEscape (c_otpSecret c);
                csvEscape (Some (c_folderId c))]) l).

Definition exportToBitwardenCSV (l : list Credential) (folders : list Folder) : option jsstr :=
  rows ← mapM (λ c,
    otp ← otp_cell c;
    Some [csvEscape (Some (folder_label folders (c_folderId c))); js "0"; js "login"; csvEscape (Some (c_service c));
          csvEscape (c_description c); []; js "0"; csvEscape (Some (c_url c)); csvEscape (Some (c_username c));
          csvEscape (c_password c); otp]) l;
  Some (csv_text "folder,favorite,type,name,notes,fields,reprompt,login_uri,login_username,login_password,login_totp" rows).

Definition exportTo1PasswordCSV (l : list Credential) : option jsstr :=
  rows ← mapM (λ c,
    otp ← otp_cell c;
    Some [csvEscape (Some (c_service c)); csvEscape (Some (c_username c)); csvEscape (c_password c);
          csvEscape (Some (c_url c)); csvEscape (c_description c); otp]) l;
  Some (csv_text "Title,Username,Password,URL,Notes,OTPAuth" rows).

Definition exportToNordPass (l : list Credential) : jsstr :=
  csv_text "name,url,username,password,note,cardholder_name,card_number,expiry_date,cvv,notes,type"
    (map (λ c, [csvEscape (Some (c_service c)); csvEscape (Some (c_url c)); csvEscape (Some (c_username c));
                csvEscape (c_password c); csvEscape (c_description c); []; []; []; []; []; js "login"]) l).

Definition exportToLastPass (l : list Credential) : option jsstr :=
  rows ← mapM (λ c,
    otp ← otp_cell c;
    Some [csvEscape (Some (c_url c)); csvEscape (Some (c_username c)); csvEscape (c_password c); otp;
          csvEscape (c_description c); csvEscape (Some (c_service c)); []; js "0"]) l;
  Some (csv_text "url,username,password,totp,extra,name,grouping,fav" rows).

Definition exportToChrome (l : list Credential) : jsstr :=
  csv_text "name,url,username,password,note"
    (map (λ c, [csvEscape (Some (c_service c)); csvEscape (Some (c_url c)); csvEscape (Some (c_username c));
                csvEscape (c_password c); csvEscape (c_description c)]) l).

(** Quotation marks around the text, nothing doubled. *)
Definition bare_quoted (s : jsstr) : jsstr := [34] ++ s ++ [34].
Definition quote_names (l : list string) : jsstr := join_unit [44] (map (λ n, bare_quoted (js n)) l).

Definition FIREFOX_HEADER : jsstr :=
  quote_names ["url"; "username"; "password"; "httpRealm"; "formActionOrigin"; "guid"; "timeCreated"; "timeLastUsed";
    "timePasswordChanged"]%string.

(** [guids]: the generated ids; [now]: [Date.now()]. *)
Definition exportToFirefox (guids : nat → jsstr) (now : Z) (l : list Credential) : jsstr :=
  join_unit [10] (FIREFOX_HEADER :: imap (λ i c, join_unit [44]
    [bare_quoted (c_url c); quoted (c_username c); quoted (or_empty (c_password c)); bare_quoted [];
     bare_quoted (c_url c); bare_quoted (js "{" ++ guids i ++ js "}"); bare_quoted (dec now); bare_quoted (dec now);
     bare_quoted (dec now)]) l).

Definition KEEPASS_HEADER : jsstr :=
  quote_names ["Account"; "Login Name"; "Password"; "Web Site"; "Comments"]%string.

Definition exportToKeePassCSV (l : list Credential) : jsstr :=
  join_unit [10] (KEEPASS_HEADER :: map (λ c, join_unit [44]
    [quoted (c_service c); quoted (c_username c); quoted (or_empty (c_password c)); quoted (c_url c);
     quoted (or_empty (c_description c))]) l).

Definition exportToKeeperCSV (l : list Credential) (folders : list Folder) : option jsstr :=
  rows ← mapM (λ c,
    otp ← otp_cell c;
    Some [csvEscape (Some (folder_label folders (c_folderId c))); csvEscape (Some (c_service c));
          csvEscape (Some (c_username c)); csvEscape (c_password c); csvEscape (Some (c_url c));
          csvEscape (c_description c); js "FALSE"; otp]) l;
  Some (csv_text "Folder,Title,Login,Password,Website,Notes,Shared,Two-Factor" rows).

Definition exportToRoboForm (l : list Credential) (folders : list Folder) : jsstr :=
  csv_text "Name,Url,Login,Pwd,Note,Folder"
    (map (λ c, [csvEscape (Some (c_service c)); csvEscape (Some (c_url c)); csvEscape (Some (c_username c));
                csvEscape (c_password c); csvEscape (c_description c);
                csvEscape (Some (folder_label folders (c_folderId c)))]) l).

Definition exportToZohoCSV (l : list Credential) : jsstr :=
  csv_text "Secret Name,Account Name,Password,Comments,Url,Tags"
    (map (λ c, [csvEscape (Some (c_service c)); csvEscape (Some (c_username c)); csvEscape (c_password c);
                csvEscape (c_description c); csvEscape (Some (c_url c)); []]) l).

Definition exportToPassboltCSV (l : list Credential) : jsstr :=
  csv_text "Title,Username,Password,URL,Description"
    (map (λ c, [csvEscape (Some (c_service c)); csvEscape (Some (c_username c)); csvEscape (c_password c);
                csvEscape (Some (c_url c)); csvEscape (c_description c)]) l).

Definition exportToEnpassCSV (l : list Credential) : option jsstr :=
  rows ← mapM (λ c,
    otp ← otp_cell c;
    Some [csvEscape (Some (c_service c)); csvEscape (Some (c_url c)); csvEscape (Some (c_username c));
          csvEscape (c_password c); csvEscape (c_description c); otp]) l;
  Some (csv_text "Title,URL,Username,Password,Notes,One-Time Password" rows).

(** ** The choice of the importer (the [csv] branch of [importFromFile]) *)

Definition first_line (text : jsstr) : jsstr := toLowerCase (hd [] (split_lines (strip_bom_text text))).

Definition choose_importer (first : jsstr) : csv_importer :=
  let has s := includes (js s) first in
  if has "httprealm"%string || has "formactionorigin"%string then Firefox
  else if has "login_uri"%string || has "login_username"%string then Bitwarden
  else if has "grouping"%string || (has "extra"%string && has "fav"%string) then LastPass
  else if starts_with ([34] ++ js "url" ++ [34]) first || starts_with (js "url,username") first then LastPass
  else if has "otpauth"%string then OnePassword
  else if has "login_url"%string || has "login,password"%string || has ",login,"%string then Keeper
  else if has "cardholder"%string || has "cvv"%string then NordPass
  else if includes ([34] ++ js "account" ++ [34]) first || has "login name"%string then KeePass
  else if has "login"%string && has "pwd"%string then RoboForm
  else if has "secret name"%string || has "account name"%string then Zoho
  else if has "title"%string && has "username"%string && has "password"%string && has "url"%string then Passbolt
  else if has "account type"%string || has "2fa key"%string then MSecure
  else if has "autologin"%string || (has "kind"%string && has "two_factor"%string) then TrueKey
  else Chrome.

Definition run_importer (i : csv_importer) : jsstr → ImportResult :=
  match i with
  | Firefox => importFirefox | Bitwarden => importBitwardenCSV | LastPass => importLastPass
  | OnePassword => import1PasswordCSV | Keeper => importKeeperCSV | NordPass => importNordPass
  | KeePass => importKeePassCSV | RoboForm => importRoboForm | Zoho => importZoho | Passbolt => importPassbolt
  | MSecure => importMSecure | TrueKey => importTrueKey | Chrome => importChrome
  end.

Definition importCSVFile (text : jsstr) : ImportResult := run_importer (choose_importer (first_line text)) text.
End csv.
