(* ===== verification/JsonFormats.v ===== *)
(** * JSON formats of password managers ([web/src/utils/importExport.ts])

    Every JSON importer and exporter.  An importer gets a parsed file of unknown
    shape; a credential it makes is the object the code builds, with the n-th
    generated id. *)
From S2P Require Import Prelude JsRuntime JsText Base64 Json JsonSpec JsDyn Types Csv.

(** ** Imported credentials *)

(** [defaults()] *)
Definition defaults : list (jsstr * json) :=
  [(js "status", JStr (js "active")); (js "statusColor", JStr (js "#22c55e")); (js "logo", JStr []); (js "folderId", JStr []);
   (js "tags", JArr [])].

(** [{ ...defaults(), id, service, url, username, password, description, otpSecret }];
    a field that is [undefined] reads as absent. *)
Definition make_credential (service : jsstr) (url : json) (username password : jsstr) (description otpSecret : option jsstr)
    (id : jsstr) : json :=
  JObj (defaults ++ [(js "id", JStr id); (js "service", JStr service); (js "url", url); (js "username", JStr username);
                     (js "password", JStr password)]
        ++ match description with Some d => [(js "description", JStr d)] | None => [] end
        ++ match otpSecret with Some o => [(js "otpSecret", JStr o)] | None => [] end).

(** The result of an importer. *)
Record Imported := mkImported { im_credentials : list json; im_format : string }.

(** The credentials get the ids in the order they are made. *)
Definition number_ids (uuids : nat → jsstr) (l : list (jsstr → json)) : list json := imap (λ n f, f (uuids n)) l.

Section importers.
Context `{JsFloat} `{JsCase} `{JsUrl} (uuids : nat → jsstr).

Definition imported (format : string) (l : list (jsstr → json)) : Imported := mkImported (number_ids uuids l) format.

(** [String(v[k] ?? '') || undefined] *)
Definition text_or_undefined (v : json) (k : string) : dyn (option jsstr) := or_undefined <$> text_or v k "".

Definition no_object : json := JObj [].
Definition no_array : json := JArr [].

(** *** 1Password *)

(** [for (const f of fields)] with [designation] *)
Fixpoint login_fields (fields : list json) (username password : jsstr) : dyn (jsstr * jsstr) :=
  match fields with
  | [] => Ok (username, password)
  | f :: fields =>
      d ← get f "designation";
      val ← text_or f "value" "";
      let named s := bool_decide (d = Some (JStr (js s))) in
      login_fields fields (if named "username"%string then val else username) (if named "password"%string then val else password)
  end.

Definition item_1pux (it : json) : dyn (list (jsstr → json)) :=
  state ← get it "state";
  if bool_decide (state = Some (JStr (js "archived"))) then Ok []
  else
    overview ← get_or it "overview" no_object;
    details ← get_or it "details" no_object;
    fields ← get_or details "loginFields" no_array;
    fields ← elements fields;
    '(username, password) ← login_fields fields [] [];
    urls ← get_or overview "urls" no_array;
    service ← text_or overview "title" "Untitled";
    u0 ← at0 urls;
    url ← (match u0 with
           | Some u => if truthy (Some u) then text_or u "u" "" else text_or overview "url" ""
           | None => text_or overview "url" ""
           end);
    notes ← text_or_undefined details "notes";
    Ok [make_credential service (JStr url) username password notes None].

Definition import1PUX (text : jsstr) : dyn Imported :=
  data ← parse_json text;
  accounts ← get_or data "accounts" no_array;
  accounts ← elements accounts;
  l ← collect (λ acct,
    vaults ← get_or acct "vaults" no_array;
    vaults ← elements vaults;
    collect (λ vault,
      items ← get_or vault "items" no_array;
      items ← elements items;
      collect item_1pux items) vaults) accounts;
  Ok (imported "1password-1pux" l).

(** *** Bitwarden *)

Definition item_bitwarden (item : json) : dyn (list (jsstr → json)) :=
  ty ← get item "type";
  if negb (bool_decide (ty = Some (JNum (Int 1)))) then Ok []
  else
    login ← get_or item "login" no_object;
    uris ← get_or login "uris" no_array;
    otpRaw ← text_or login "totp" "";
    service ← text_or item "name" "Untitled";
    u0 ← at0 uris;
    url ← (match u0 with Some u => if truthy (Some u) then text_or u "uri" "" else Ok [] | None => Ok [] end);
    username ← text_or login "username" "";
    password ← text_or login "password" "";
    notes ← text_or_undefined item "notes";
    Ok [make_credential service (JStr url) username password notes (otp_of otpRaw)].

Definition BITWARDEN_ENCRYPTED : jsstr :=
  js "Encrypted Bitwarden exports are not supported. Re-export without encryption.".

Definition importBitwardenJSON (text : jsstr) : dyn Imported :=
  data ← parse_json text;
  enc ← get data "encrypted";
  _ ← throw_if (truthy enc) (ErrorMsg BITWARDEN_ENCRYPTED);
  items ← get_or data "items" no_array;
  items ← elements items;
  l ← collect item_bitwarden items;
  Ok (imported "bitwarden-json" l).

(** *** Keeper *)

Definition item_keeper (r : json) : dyn (list (jsstr → json)) :=
  service ← text_or r "title" "Untitled";
  url ← get_first r ["login_url"; "url"]%string (JStr []);
  username ← get_first r ["login"; "username"]%string (JStr []);
  password ← text_or r "password" "";
  notes ← text_or_undefined r "notes";
  totp ← get r "totp";
  Ok [make_credential service (JStr (to_text url)) (to_text username) password notes
        (if truthy totp then to_text <$> totp else None)].

Definition importKeeperJSON (text : jsstr) : dyn Imported :=
  data ← parse_json text;
  records ← get_or data "records" no_array;
  records ← elements records;
  sfs ← get_or data "shared_folders" no_array;
  sfs ← elements sfs;
  more ← collect (λ sf, rs ← get_or sf "records" no_array; elements rs) sfs;
  l ← collect item_keeper (records ++ more);
  Ok (imported "keeper-json" l).

(** *** Dashlane *)

Definition item_dashlane (r : json) : dyn (list (jsstr → json)) :=
  service ← get_first r ["title"; "name"]%string (JStr (js "Untitled"));
  url ← get_first r ["url"; "domain"]%string (JStr []);
  username ← get_first r ["login"; "email"; "username"]%string (JStr []);
  password ← text_or r "password" "";
  notes ← text_or_undefined r "note";
  otp ← get r "otpSecret";
  Ok [make_credential (to_text service) (JStr (to_text url)) (to_text username) password notes
        (if truthy otp then to_text <$> otp else None)].

Definition importDashlaneJSON (text : jsstr) : dyn Imported :=
  data ← parse_json text;
  items ← get_first data ["credentials"; "AUTHENTIFIANT"]%string no_array;
  items ← array_of items;
  l ← collect item_dashlane items;
  Ok (imported "dashlane-json" l).

(** *** Proton Pass *)

(** The URL is taken as it is, whatever its type. *)
Definition item_proton (item : json) : dyn (list (jsstr → json)) :=
  d ← get_or item "data" no_object;
  con ← get_or d "content" no_object;
  met ← get_or d "metadata" no_object;
  ty ← get d "type";
  if negb (bool_decide (ty = Some (JStr (js "login")))) then Ok []
  else
    urls ← get_or con "urls" no_array;
    otpRaw ← text_or con "totp_uri" "";
    service ← text_or met "name" "Untitled";
    u0 ← at0 urls;
    username ← text_or con "username" "";
    password ← text_or con "password" "";
    notes ← text_or_undefined met "note";
    Ok [make_credential service (nullish u0 (JStr [])) username password notes (otp_of otpRaw)].

Definition importProtonPass (text : jsstr) : dyn Imported :=
  data ← parse_json text;
  vaults ← get_or data "vaults" no_object;
  l ← collect (λ vault,
    items ← get_or vault "items" no_array;
    items ← elements items;
    collect item_proton items) (map snd (own_props vaults));
  Ok (imported "protonpass-json" l).

(** *** Padloc *)

Record found := mkFound { fd_username : jsstr; fd_password : jsstr; fd_url : jsstr; fd_otp : jsstr }.
Definition nothing_found : found := mkFound [] [] [] [].

(** The last field of a name counts. *)
Fixpoint padloc_fields (fields : list json) (a : found) : dyn found :=
  match fields with
  | [] => Ok a
  | f :: fields =>
      name ← text_or f "name" "";
      val ← text_or f "value" "";
      let named s := str_eqb (toLowerCase name) (js s) in
      padloc_fields fields
        (if named "username"%string || named "email"%string then mkFound val (fd_password a) (fd_url a) (fd_otp a)
         else if named "password"%string then mkFound (fd_username a) val (fd_url a) (fd_otp a)
         else if named "url"%string || named "website"%string then mkFound (fd_username a) (fd_password a) val (fd_otp a)
         else if named "otp"%string || named "totp"%string then mkFound (fd_username a) (fd_password a) (fd_url a) val
         else a)
  end.

Definition item_padloc (item : json) : dyn (list (jsstr → json)) :=
  fields ← get_or item "fields" no_array;
  fields ← elements fields;
  a ← padloc_fields fields nothing_found;
  service ← text_or item "name" "Untitled";
  Ok [make_credential service (JStr (fd_url a)) (fd_username a) (fd_password a) None (otp_of (fd_otp a))].

Definition importPadloc (text : jsstr) : dyn Imported :=
  data ← parse_json text;
  vaults ← get_or data "vaults" no_array;
  vaults ← elements vaults;
  l ← collect (λ vault, items ← get_or vault "items" no_array; items ← elements items; collect item_padloc items) vaults;
  Ok (imported "padloc-json" l).

(** *** Passky *)

Definition item_passky (r : json) : dyn (list (jsstr → json)) :=
  service ← get_first r ["website"; "name"]%string (JStr (js "Untitled"));
  url ← text_or r "website" "";
  username ← text_or r "username" "";
  password ← text_or r "password" "";
  notes ← get_first r ["note"; "message"]%string (JStr []);
  Ok [make_credential (to_text service) (JStr url) username password (or_undefined (to_text notes)) None].

Definition importPassky (text : jsstr) : dyn Imported :=
  data ← parse_json text;
  passwords ← get_or data "passwords" no_array;
  passwords ← array_of passwords;
  l ← collect item_passky passwords;
  Ok (imported "passky-json" l).

(** *** Enpass *)

(** The first field of a name that is not empty counts. *)
Fixpoint enpass_fields (fields : list json) (a : found) : dyn found :=
  match fields with
  | [] => Ok a
  | f :: fields =>
      lbl ← text_or f "label" "";
      val ← text_or f "value" "";
      let named s := str_eqb (toLowerCase lbl) (js s) in
      let keep x := if str_empty x then val else x in
      enpass_fields fields
        (if named "username"%string || named "email"%string || named "login"%string
         then mkFound (keep (fd_username a)) (fd_password a) (fd_url a) (fd_otp a)
         else if named "password"%string then mkFound (fd_username a) (keep (fd_password a)) (fd_url a) (fd_otp a)
         else if named "url"%string || named "website"%string then mkFound (fd_username a) (fd_password a) (keep (fd_url a)) (fd_otp a)
         else if named "one-time password"%string || named "totp"%string
         then mkFound (fd_username a) (fd_password a) (fd_url a) (keep (fd_otp a))
         else a)
  end.

Definition item_enpass (item : json) : dyn (list (jsstr → json)) :=
  category ← get_or item "category" (JStr []);
  let c := toLowerCase (to_text category) in
  if negb (str_eqb c (js "login") || str_eqb c (js "password")) && negb (truthy (Some category)) then Ok []
  else
    fields ← get_or item "fields" no_array;
    fields ← elements fields;
    a ← enpass_fields fields nothing_found;
    urls ← get_or item "login_urls" no_array;
    service ← text_or item "title" "Untitled";
    url ← (if str_empty (fd_url a) then
             u0 ← at0 urls;
             match u0 with Some u => if truthy (Some u) then text_or u "url" "" else Ok [] | None => Ok [] end
           else Ok (fd_url a));
    Ok [make_credential service (JStr url) (fd_username a) (fd_password a) None (otp_of (fd_otp a))].

Definition importEnpassJSON (text : jsstr) : dyn Imported :=
  data ← parse_json text;
  items ← get_or data "items" no_array;
  items ← elements items;
  l ← collect item_enpass items;
  Ok (imported "enpass-json" l).

(** *** Buttercup *)

Definition entry_buttercup (entry : json) : dyn (list (jsstr → json)) :=
  props ← get_or entry "properties" entry;
  title ← get props "title";
  service ← (match title with None | Some JNull => get_or entry "name" (JStr (js "Untitled")) | Some t => Ok t end);
  url ← get_first props ["URL"; "url"]%string (JStr []);
  username ← text_or props "username" "";
  password ← text_or props "password" "";
  Ok [make_credential (to_text service) (JStr (to_text url)) username password None None].

(** [processGroup]; [fuel] bounds the depth.  An array inherits a method [entries],
    which is no iterable. *)
Fixpoint processGroup (fuel : nat) (g : json) : dyn (list (jsstr → json)) :=
  match fuel with
  | O => Throw RangeError
  | S fuel =>
      _ ← throw_if (match g with JArr _ => true | _ => false end) TypeError;
      entries ← get_first g ["entries"; "items"]%string no_array;
      entries ← elements entries;
      l ← collect entry_buttercup entries;
      subs ← get_first g ["groups"; "children"]%string no_array;
      subs ← elements subs;
      l' ← collect (processGroup fuel) subs;
      Ok (l ++ l')
  end.

(** The number of nested values. *)
Fixpoint json_size (v : json) : nat :=
  match v with
  | JArr l => S (list_sum (map json_size l))
  | JObj l => S (list_sum (map (λ kv, json_size kv.2) l))
  | _ => 1
  end.

Definition importButtercup (text : jsstr) : dyn Imported :=
  data ← parse_json text;
  _ ← get data "groups";
  root ← get_or data "root" data;
  l ← processGroup (S (json_size data)) root;
  Ok (imported "buttercup-json" l).

(** *** PWDnow *)

(** [{ ...defaults(), ...c, id }] *)
Definition with_id (c : json) (id : jsstr) : json :=
  JObj (put (js "id") (JStr id) (fold_left (λ acc kv, put kv.1 kv.2 acc) (own_props c) defaults)).

Definition importPWDnow (text : jsstr) : dyn Imported :=
  data ← parse_json text;
  raw ← (match data with JArr _ => Ok data | _ => get_or data "credentials" no_array end);
  raw ← array_of raw;
  Ok (imported "pwdnow-json" (map with_id raw)).
End importers.

(** ** Exporters *)

Section exporters.
Context `{JsUrl}.

Definition opt_text (s : option jsstr) : json := JStr (or_empty s).

(** [c.otpSecret ? buildOtpUri(c.service, c.otpSecret) : d]; a lone surrogate in the
    name makes [encodeURIComponent] throw. *)
Definition otp_uri (c : Credential) (d : json) : dyn json :=
  match c_otpSecret c with
  | Some (o :: secret) => match buildOtpUri (c_service c) (o :: secret) with Some u => Ok (JStr u) | None => Throw URIError end
  | _ => Ok d
  end.

(** [new Map(folders.map(f => [f.id, f.label])).get(id) ?? ''] for a credential that
    has a folder. *)
Definition label_list (folders : list Folder) (c : Credential) : json :=
  JArr (if str_empty (c_folderId c) then [] else [JStr (folder_label folders (c_folderId c))]).

(** [l.map((c, n) => f(n, c))], [f] drawing the n-th id *)
Definition map_numbered {A B} (f : nat → A → dyn B) (l : list A) : dyn (list B) := result_map (λ nc, f nc.1 nc.2) (zip (seq 0 (length l)) l).

Definition bitwarden_item (uuids : nat → jsstr) (folders : list Folder) (n : nat) (c : Credential) : dyn json :=
  totp ← otp_uri c JNull;
  Ok (obj_ [("id", JStr (uuids n)); ("organizationId", JNull);
            ("folderId", if negb (str_empty (c_folderId c)) && existsb (λ f, str_eqb (f_id f) (c_folderId c)) folders
                         then JStr (c_folderId c) else JNull);
            ("type", JNum (Int 1)); ("name", JStr (c_service c));
            ("notes", match c_description c with Some d => JStr d | None => JNull end); ("favorite", JBool false);
            ("login", obj_ [("uris", JArr (if str_empty (c_url c) then [] else [obj_ [("match", JNull); ("uri", JStr (c_url c))]]));
                            ("username", JStr (c_username c)); ("password", opt_text (c_password c)); ("totp", totp)])]%string).

Definition exportToBitwardenJSON (uuids : nat → jsstr) (l : list Credential) (folders : list Folder) : dyn jsstr :=
  items ← map_numbered (bitwarden_item uuids folders) l;
  Ok (stringify_2 (obj_ [("encrypted", JBool false);
    ("folders", JArr (map (λ f, obj_ [("id", JStr (f_id f)); ("name", JStr (f_label f))]%string) folders)); ("items", JArr items)]%string)).

Definition keeper_record (folders : list Folder) (c : Credential) : dyn json :=
  totp ← otp_uri c (JStr []);
  Ok (obj_ [("title", JStr (c_service c)); ("login", JStr (c_username c)); ("password", opt_text (c_password c));
            ("login_url", JStr (c_url c)); ("notes", opt_text (c_description c));
            ("folder", JStr (folder_label folders (c_folderId c))); ("totp", totp)]%string).

Definition exportToKeeperJSON (l : list Credential) (folders : list Folder) : dyn jsstr :=
  records ← result_map (keeper_record folders) l;
  Ok (stringify_2 (obj_ [("records", JArr records)]%string)).

Definition dashlane_item (c : Credential) : json :=
  obj_ [("title", JStr (c_service c)); ("url", JStr (c_url c)); ("login", JStr (c_username c)); ("email", JStr (c_username c));
        ("password", opt_text (c_password c)); ("note", opt_text (c_description c)); ("otpSecret", opt_text (c_otpSecret c))]%string.

Definition exportToDashlaneJSON (l : list Credential) : jsstr :=
  stringify_2 (obj_ [("credentials", JArr (map dashlane_item l))]%string).

Definition proton_item (c : Credential) : dyn json :=
  totp ← otp_uri c (JStr []);
  Ok (obj_ [("data", obj_ [("type", JStr (js "login"));
                           ("metadata", obj_ [("name", JStr (c_service c)); ("note", opt_text (c_description c))]);
                           ("content", obj_ [("username", JStr (c_username c)); ("password", opt_text (c_password c));
                                             ("urls", JArr (if str_empty (c_url c) then [] else [JStr (c_url c)])); ("totp_uri", totp)]);
                           ("extraFields", JArr [])]);
            ("pinned", JBool false); ("aliases", JArr [])]%string).

(** [vaultId] is the generated key of the one vault. *)
Definition exportToProtonPass (vaultId : jsstr) (l : list Credential) : dyn jsstr :=
  items ← result_map proton_item l;
  Ok (stringify_2 (obj_ [("encrypted", JBool false);
    ("vaults", JObj [(vaultId, obj_ [("name", JStr (js "PWDnow Vault")); ("items", JArr items)]%string)])]%string)).

Definition padloc_field (name : string) (value : json) (type : string) : json :=
  obj_ [("name", JStr (js name)); ("value", value); ("type", JStr (js type))]%string.

Definition padloc_fields_of (c : Credential) (otp : json) : list json :=
  [padloc_field "username" (JStr (c_username c)) "username"; padloc_field "password" (opt_text (c_password c)) "password";
   padloc_field "url" (JStr (c_url c)) "url"]
  ++ if str_empty (or_empty (c_otpSecret c)) then [] else [padloc_field "otp" otp "totp"].

Definition padloc_item (folders : list Folder) (c : Credential) : dyn json :=
  otp ← otp_uri c (JStr []);
  Ok (obj_ [("name", JStr (c_service c)); ("category", JStr (js "login")); ("tags", label_list folders c);
            ("fields", JArr (padloc_fields_of c otp)); ("notes", opt_text (c_description c))]%string).

Definition exportToPadlocJSON (l : list Credential) (folders : list Folder) : dyn jsstr :=
  items ← result_map (padloc_item folders) l;
  Ok (stringify_2 (obj_ [("version", JStr (js "3"));
    ("vaults", JArr [obj_ [("name", JStr (js "PWDnow Vault")); ("items", JArr items)]])]%string)).

Definition passky_item (c : Credential) : json :=
  obj_ [("website", JStr (c_url c)); ("username", JStr (c_username c)); ("password", opt_text (c_password c));
        ("note", opt_text (c_description c))]%string.

Definition exportToPasskyJSON (l : list Credential) : jsstr :=
  stringify_2 (obj_ [("passwords", JArr (map passky_item l))]%string).

Definition buttercup_entry (folders : list Folder) (c : Credential) : json :=
  obj_ [("properties", obj_ [("title", JStr (c_service c)); ("username", JStr (c_username c)); ("password", opt_text (c_password c));
                             ("URL", JStr (c_url c)); ("Notes", opt_text (c_description c));
                             ("group", JStr (folder_label folders (c_folderId c)))])]%string.

Definition exportToButtercupJSON (l : list Credential) (folders : list Folder) : jsstr :=
  stringify_2 (obj_ [("groups", JArr [obj_ [("title", JStr (js "PWDnow")); ("entries", JArr (map (buttercup_entry folders) l))]])]%string).

(** [s.replace(/-/g, '')] *)
Definition no_dashes (s : jsstr) : jsstr := List.filter (λ u, negb (u =? 45)) s.

(** One item of the 1PUX archive; [seconds] is the time. *)
Definition archive_item (uuids : nat → jsstr) (seconds : Z) (folders : list Folder) (n : nat) (c : Credential) : dyn json :=
  otp ← otp_uri c (JStr []);
  Ok (obj_ [("uuid", JStr (no_dashes (uuids n))); ("favIndex", JNum (Int 0));
            ("createdAt", JNum (Int seconds)); ("updatedAt", JNum (Int seconds)); ("state", JStr (js "active"));
            ("categoryUuid", JStr (js "001"));
            ("details", obj_ [
               ("loginFields", JArr [
                  obj_ [("designation", JStr (js "username")); ("name", JStr (js "username")); ("type", JStr (js "T")); ("value", JStr (c_username c))];
                  obj_ [("designation", JStr (js "password")); ("name", JStr (js "password")); ("type", JStr (js "P")); ("value", opt_text (c_password c))]]);
               ("notes", opt_text (c_description c));
               ("sections", JArr (if str_empty (or_empty (c_otpSecret c)) then []
                                  else [obj_ [("title", JStr (js "OTP"));
                                              ("fields", JArr [obj_ [("k", JStr (js "concealed")); ("n", JStr (js "totp"));
                                                                     ("t", JStr (js "one-time password")); ("v", otp)]])]]))]);
            ("overview", obj_ [("ainfo", JStr (c_username c)); ("title", JStr (c_service c)); ("url", JStr (c_url c));
               ("urls", JArr (if str_empty (c_url c) then [] else [obj_ [("l", JStr (js "website")); ("u", JStr (c_url c))]]));
               ("tags", label_list folders c)])]%string).

Definition data_1pux (uuids : nat → jsstr) (seconds : Z) (l : list Credential) (folders : list Folder) : dyn json :=
  items ← map_numbered (archive_item uuids seconds folders) l;
  Ok (obj_ [("accounts", JArr [obj_ [
    ("attrs", obj_ [("accountName", JStr (js "PWDnow Export")); ("name", JStr (js "PWDnow"))]);
    ("vaults", JArr [obj_ [("attrs", obj_ [("desc", JStr []); ("name", JStr (js "PWDnow Vault")); ("type", JStr (js "P"))]);
                           ("items", JArr items)]])]])]%string).

(** The client's own format; credentials and folders are written as they are, [now]
    is the time as text. *)
Definition pwdnow_payload (now : jsstr) (credentials folders : list json) : json :=
  obj_ [("version", JNum (Int 1)); ("exported_at", JStr now); ("app", JStr (js "PWDnow")); ("folders", JArr folders);
        ("credentials", JArr credentials)]%string.

Definition buildPWDnowPayload (now : jsstr) (credentials folders : list json) : jsstr :=
  stringify_2 (pwdnow_payload now credentials folders).

Definition exportToPWDnow (now : jsstr) (credentials folders : list json) : jsstr := buildPWDnowPayload now credentials folders.
End exporters.
