(* ===== verification/XmlFormats.v ===== *)
(** * XML formats ([web/src/utils/importExport.ts])

    The KeePass and SafeInCloud importers work on the text with regular
    expressions; each expression is the search it performs.  The exporter writes
    KeePass XML. *)
From S2P Require Import Prelude JsRuntime JsText Base64 Json JsonSpec JsDyn Types Csv JsonFormats.

(** ** Escaping *)

(** [s.replace(/c/g, r)] for one unit *)
Definition replace_unit (c : Z) (r : jsstr) (s : jsstr) : jsstr := concat (map (λ x, if x =? c then r else [x]) s).

Definition xmlEscape (s : jsstr) : jsstr :=
  replace_unit 39 (js "&apos;") (replace_unit 34 (js "&quot;") (replace_unit 62 (js "&gt;") (replace_unit 60 (js "&lt;")
    (replace_unit 38 (js "&amp;") s)))).

(** [s.replace(/p/g, r)] for a literal: [skip] units of an occurrence are left. *)
Fixpoint replace_from (p r : jsstr) (skip : nat) (s : jsstr) : jsstr :=
  match s with
  | [] => []
  | c :: s' =>
      match skip with
      | S k => replace_from p r k s'
      | O => if starts_with p s then r ++ replace_from p r (length p - 1) s' else c :: replace_from p r 0 s'
      end
  end.
Definition replace_all (p : string) (r : Z) (s : jsstr) : jsstr := replace_from (js p) [r] 0 s.

(** The five replacements of [xmlInnerText], the ampersand first. *)
Definition xml_unescape (s : jsstr) : jsstr :=
  replace_all "&apos;" 39 (replace_all "&quot;" 34 (replace_all "&gt;" 62 (replace_all "&lt;" 60 (replace_all "&amp;" 38 s)))).

(** ** Searches *)

Definition lower (s : jsstr) : jsstr := map ascii_lower_unit s.

(** The text starts with the literal, in any case; [p] is in lower case. *)
Definition starts_ci (p s : jsstr) : bool := starts_with p (lower s).

(** The text before and after the first occurrence. *)
Fixpoint find_ci (p s : jsstr) : option (jsstr * jsstr) :=
  if starts_ci p s then Some ([], drop (length p) s)
  else match s with [] => None | c :: s' => '(a, b) ← find_ci p s'; Some (c :: a, b) end.

(** The text before and after the first unit [c]. *)
Fixpoint find_unit (c : Z) (s : jsstr) : option (jsstr * jsstr) :=
  match s with
  | [] => None
  | x :: s' => if x =? c then Some ([], s') else '(a, b) ← find_unit c s'; Some (x :: a, b)
  end.

(** The text between the first opening tag, whatever its attributes, and the next
    closing tag, in any case. *)
Definition xmlInnerText (block : jsstr) (tag : string) : jsstr :=
  match ('(_, r) ← find_ci (60 :: lower (js tag)) block;
         '(_, r) ← find_unit 62 r;
         '(inner, _) ← find_ci ([60; 47] ++ lower (js tag) ++ [62]) r;
         Some inner) with
  | Some inner => xml_unescape inner
  | None => []
  end.

(** [matchAll] of an opening and the next closing literal: the texts between. *)
Fixpoint all_between (fuel : nat) (opening closing : jsstr) (s : jsstr) : list jsstr :=
  match fuel with
  | O => []
  | S fuel =>
      match ('(_, r) ← find_ci opening s; find_ci closing r) with
      | Some (body, r) => body :: all_between fuel opening closing r
      | None => []
      end
  end.
Definition matches_between (opening closing : string) (s : jsstr) : list jsstr := all_between (S (length s)) (js opening) (js closing) s.

(** The value a plain object holds after a list of assignments. *)
Fixpoint assigned (k : jsstr) (l : list (jsstr * jsstr)) : option jsstr :=
  match l with
  | [] => None
  | (k', v) :: l' => match assigned k l' with Some w => Some w | None => if str_eqb k k' then Some v else None end
  end.

(** [m[k1] ?? m[k2] ?? ... ?? ''] *)
Definition first_assigned (ks : list string) (l : list (jsstr * jsstr)) : jsstr :=
  or_empty (head (omap (λ k, assigned (js k) l) ks)).

(** ** KeePass *)

Section xml.
Context `{JsCase} `{JsUrl}.

Definition keepass_map (entry : jsstr) : list (jsstr * jsstr) :=
  omap (λ sm, let key := xmlInnerText sm "Key" in
              if str_empty key then None else Some (key, xmlInnerText sm "Value"))
    (matches_between "<string>" "</string>" entry).

Definition keepass_entry (entry : jsstr) : list (jsstr → json) :=
  let kvMap := keepass_map entry in
  let title := first_assigned ["Title"]%string kvMap in
  if str_empty title then []
  else [make_credential title (JStr (first_assigned ["URL"]%string kvMap)) (first_assigned ["UserName"]%string kvMap)
          (first_assigned ["Password"]%string kvMap) (or_undefined (first_assigned ["Notes"]%string kvMap))
          (otp_of (first_assigned ["otp"; "TOTP Seed"; "TimeOtp-Secret-Base32"]%string kvMap))].

Definition importKeePassXML (uuids : nat → jsstr) (text : jsstr) : Imported :=
  imported uuids "keepass-xml" (concat (map keepass_entry (matches_between "<entry>" "</entry>" text))).

(** [<String><Key>k</Key><Value attrs>v</Value></String>] on a line of its own *)
Definition xml_string (k : string) (attrs : jsstr) (v : jsstr) : jsstr :=
  js "      <String><Key>" ++ js k ++ js "</Key><Value" ++ attrs ++ [62] ++ xmlEscape v ++ js "</Value></String>".

Definition xml_entry (folders : list Folder) (otp : jsstr) (c : Credential) : jsstr :=
  join_unit [10] ([js "    <Entry>"; xml_string "Title" [] (c_service c); xml_string "UserName" [] (c_username c);
    xml_string "Password" (js " ProtectInMemory=" ++ [34] ++ js "True" ++ [34]) (or_empty (c_password c));
    xml_string "URL" [] (c_url c); xml_string "Notes" [] (or_empty (c_description c))]
    ++ (if str_empty otp then [] else [xml_string "otp" [] otp])
    ++ [js "      <Tags>" ++ xmlEscape (folder_label folders (c_folderId c)) ++ js "</Tags>"; js "    </Entry>"]).

(** The text before the entries; [now] is the time as text. *)
Definition xml_head (now : jsstr) : jsstr :=
  join_unit [10] [js "<?xml version=" ++ [34] ++ js "1.0" ++ [34] ++ js " encoding=" ++ [34] ++ js "utf-8" ++ [34] ++ js "?>";
    js "<KeePassFile>"; js "  <Meta>"; js "    <Generator>PWDnow</Generator>"; js "    <DatabaseName>PWDnow Export</DatabaseName>";
    js "    <DatabaseNameChanged>" ++ now ++ js "</DatabaseNameChanged>"; js "  </Meta>"; js "  <Root>"; js "    <Group>";
    js "      <Name>PWDnow</Name>"].

Definition xml_foot : jsstr := join_unit [10] [js "    </Group>"; js "  </Root>"; js "</KeePassFile>"].

Definition buildKeePassXML (now : jsstr) (l : list Credential) (folders : list Folder) : dyn jsstr :=
  entries ← result_map (λ c, otp ← otp_uri c (JStr []); Ok (xml_entry folders (to_text otp) c)) l;
  Ok (join_unit [10] [xml_head now; join_unit [10] entries; xml_foot]).

(** ** SafeInCloud *)

(** A unit of [\w]. *)
Definition is_word (c : Z) : bool := is_digit c || is_upper c || is_lower c || (c =? 95).
Definition word_next (s : jsstr) : bool := match s with c :: _ => is_word c | [] => false end.

(** The first [<card\b], and what follows. *)
Fixpoint find_tag (p s : jsstr) : option jsstr :=
  if starts_ci p s && negb (word_next (drop (length p) s)) then Some (drop (length p) s)
  else match s with [] => None | _ :: s' => find_tag p s' end.

(** The attributes and bodies of all cards. *)
Fixpoint all_cards (fuel : nat) (s : jsstr) : list (jsstr * jsstr) :=
  match fuel with
  | O => []
  | S fuel =>
      match ('(attrs, r) ← find_tag (js "<card") s ≫= find_unit 62; '(body, r) ← find_ci (js "</card>") r; Some (attrs, body, r)) with
      | Some (attrs, body, r) => (attrs, body) :: all_cards fuel r
      | None => []
      end
  end.

(** The value of the first attribute: [p] is its name with the equals sign and the
    quotation mark, at the start of a word; [prev] says whether the unit before is one
    of a word. *)
Fixpoint find_attr (p : jsstr) (prev : bool) (s : jsstr) : option (jsstr * jsstr) :=
  match (if starts_ci p s && negb prev then find_unit 34 (drop (length p) s) else None) with
  | Some m => Some m
  | None => match s with [] => None | c :: s' => find_attr p (is_word c) s' end
  end.

(** What follows the name attribute of a field: the name, the end of the tag, white
    space and a value. *)
Definition field_after (s : jsstr) : option (jsstr * jsstr * jsstr) :=
  '(name, r) ← find_unit 34 s;
  '(_, r) ← find_unit 62 r;
  let r := trim_start r in
  if starts_ci (js "<value>") r then
    '(v, r) ← find_ci (js "</value>") (drop 7 r); Some (name, v, r)
  else None.

(** The expression is greedy before the name attribute, so the last one before the
    end of the tag is tried first. *)
Fixpoint last_name (prev : bool) (s : jsstr) : option (jsstr * jsstr * jsstr) :=
  match s with
  | [] => None
  | c :: s' =>
      let later := if c =? 62 then None else last_name (is_word c) s' in
      match later with
      | Some m => Some m
      | None => if starts_ci (js "name=" ++ [34]) s && negb prev then field_after (drop 6 s) else None
      end
  end.

Fixpoint all_fields (fuel : nat) (s : jsstr) : list (jsstr * jsstr) :=
  match fuel with
  | O => []
  | S fuel =>
      match find_tag (js "<field") s with
      | None => []
      | Some r => match last_name false r with
                  | Some (name, v, r') => (name, v) :: all_fields fuel r'
                  | None => all_fields fuel r
                  end
      end
  end.

Definition safe_card (card : jsstr * jsstr) : list (jsstr → json) :=
  let '(attrs, body) := card in
  let title := match find_attr (js "title=" ++ [34]) false attrs with Some (t, _) => t | None => xmlInnerText body "name" end in
  if str_empty title then []
  else
    let fields := map (λ nv, (toLowerCase nv.1, nv.2)) (all_fields (S (length body)) body) in
    let username := first_assigned ["login"; "username"; "email"; "user name"]%string fields in
    let password := first_assigned ["password"]%string fields in
    if str_empty username && str_empty password then []
    else [make_credential title (JStr (first_assigned ["website"; "url"; "web site"]%string fields)) username password
            (or_undefined (xmlInnerText body "notes"))
            (otp_of (first_assigned ["one-time password"; "totp"; "2fa key"]%string fields))].

Definition importSafeInCloud (uuids : nat → jsstr) (text : jsstr) : Imported :=
  imported uuids "safeincloud-xml" (concat (map safe_card (all_cards (S (length text)) text))).
End xml.
