(* ===== verification/XmlSpec.v ===== *)
(** * Theorems on the XML formats

    Searches in a text made of literals and values, escaping, and KeePass XML read
    back. *)
From S2P Require Import Prelude JsRuntime JsText Base64 Json JsonSpec JsDyn Types Csv JsonFormats XmlFormats.

(** ** Searches *)

(** One of the two texts starts with the other, in any case. *)
Definition compatible (p s : jsstr) : bool := starts_with p (lower s) || starts_with (lower s) p.

(** No occurrence of [p] starts in [a], whatever follows. *)
Fixpoint misses (p a : jsstr) : bool :=
  match a with [] => true | _ :: a' => negb (compatible p a) && misses p a' end.

Lemma starts_with_app_l p a b : starts_with p (a ++ b) = true → starts_with p a = true ∨ starts_with a p = true.
Proof.
  revert a. induction p as [|c p IH]; intros [|x a]; cbn; auto. intros [Hc Hp]%andb_prop. rewrite Hc. cbn.
  rewrite Z.eqb_sym in Hc. rewrite Hc. cbn. by apply IH.
Qed.

Lemma starts_with_app_r p a b : starts_with (a ++ b) p = true → starts_with a p = true.
Proof. revert p. induction a as [|x a IH]; intros [|c p]; cbn; try done. intros [-> ?]%andb_prop. cbn. by apply IH. Qed.

Lemma lower_app a b : lower (a ++ b) = lower a ++ lower b.
Proof. apply map_app. Qed.

Lemma compatible_app p a b : compatible p (a ++ b) = true → compatible p a = true.
Proof.
  unfold compatible. rewrite lower_app, !orb_true_iff. intros [Hs|Hs]; [by apply starts_with_app_l in Hs|].
  right. by eapply starts_with_app_r.
Qed.

Lemma misses_app p a b : misses p a = true → misses p b = true → misses p (a ++ b) = true.
Proof.
  induction a as [|x a IH]; [done|]. cbn [misses app]. intros [Hc Ha]%andb_prop Hb. rewrite IH by done. rewrite andb_true_r.
  destruct (compatible p (x :: a ++ b)) eqn:E; [|done]. apply (compatible_app p (x :: a) b) in E. by rewrite E in Hc.
Qed.

(** A text without a unit [c] misses everything that starts with it. *)
Lemma misses_free c p a : ascii_lower_unit c = c → c ∉ lower a → misses (c :: p) a = true.
Proof.
  intros Hc. induction a as [|x a IH]; [done|]. cbn [misses lower map]. intros Hn. apply andb_true_intro. split.
  - unfold compatible. cbn [lower map starts_with]. rewrite (proj2 (Z.eqb_neq c (ascii_lower_unit x))) by set_solver.
    rewrite (proj2 (Z.eqb_neq (ascii_lower_unit x) c)) by set_solver. done.
  - apply IH. set_solver.
Qed.

Lemma starts_ci_compatible p a r : starts_ci p (a ++ r) = true → compatible p a = true.
Proof. unfold starts_ci, compatible. rewrite lower_app, orb_true_iff. apply starts_with_app_l. Qed.

Lemma find_ci_skip p a r :
  misses p a = true → find_ci p (a ++ r) = ('(x, y) ← find_ci p r; Some (a ++ x, y)).
Proof.
  induction a as [|c a IH]; intros Hm; [cbn; by destruct (find_ci p r) as [[]|]|]. cbn [misses] in Hm. apply andb_prop in Hm as [Hc Hm].
  cbn [app find_ci]. destruct (starts_ci p (c :: a ++ r)) eqn:E.
  - apply (starts_ci_compatible p (c :: a) r) in E. by rewrite E in Hc.
  - rewrite IH by done. by destruct (find_ci p r) as [[]|].
Qed.

Lemma starts_with_self p r : starts_with p (p ++ r) = true.
Proof. induction p as [|c p IH]; [by destruct r|]. cbn. by rewrite Z.eqb_refl. Qed.

Lemma find_ci_here p q r : lower q = p → find_ci p (q ++ r) = Some ([], r).
Proof.
  intros <-. assert (Hs : starts_ci (lower q) (q ++ r) = true) by (unfold starts_ci; rewrite lower_app; apply starts_with_self).
  assert (Hd : drop (length (lower q)) (q ++ r) = r) by (unfold lower; by rewrite length_map, drop_app_length).
  destruct (q ++ r) eqn:E; cbn [find_ci]; by rewrite Hs, Hd.
Qed.

(** The first occurrence is the one that is written there. *)
Lemma find_ci_first p a q r : misses p a = true → lower q = p → find_ci p (a ++ q ++ r) = Some (a, r).
Proof. intros Hm Hq. rewrite find_ci_skip, (find_ci_here p q r) by done. cbn. by rewrite app_nil_r. Qed.

Lemma find_ci_none p a : p ≠ [] → misses p a = true → find_ci p a = None.
Proof.
  intros Hp Hm. rewrite <- (app_nil_r a), find_ci_skip by done. destruct p; done.
Qed.

Lemma find_unit_first c a r : c ∉ a → find_unit c (a ++ c :: r) = Some (a, r).
Proof.
  induction a as [|x a IH]; intros Hn; cbn; [by rewrite Z.eqb_refl|].
  rewrite (proj2 (Z.eqb_neq x c)) by set_solver. by rewrite IH by set_solver.
Qed.

(** The matches of a text that is a row of enclosed bodies. *)
Definition enclosed (o c : jsstr) (seg : jsstr * jsstr) : jsstr := seg.1 ++ o ++ seg.2 ++ c.

Lemma all_between_row fuel o c o' c' segs tail :
  lower o' = o → lower c' = c → o ≠ [] → Forall (λ seg, misses o seg.1 = true ∧ misses c seg.2 = true) segs → misses o tail = true →
  (length segs < fuel)%nat → all_between fuel o c (concat (map (enclosed o' c') segs) ++ tail) = map snd segs.
Proof.
  intros Ho Hc Hne Hsegs Ht. revert fuel. induction Hsegs as [|[a b] segs [Ha Hb] _ IH]; intros [|fuel] Hf; cbn [length] in Hf; try lia.
  - cbn [map concat app all_between]. by rewrite find_ci_none.
  - cbn [map concat all_between]. unfold enclosed at 1. cbn [fst snd] in *. rewrite <- !app_assoc, (find_ci_first o a o') by done.
    cbn [mbind option_bind]. rewrite (find_ci_first c b c') by done. by rewrite IH by lia.
Qed.

Lemma matches_row (o c : string) o' c' segs tail :
  lower o' = js o → lower c' = js c → js o ≠ [] →
  Forall (λ seg, misses (js o) seg.1 = true ∧ misses (js c) seg.2 = true) segs → misses (js o) tail = true →
  matches_between o c (concat (map (enclosed o' c') segs) ++ tail) = map snd segs.
Proof.
  intros Ho Hc Hne Hs Ht. apply (all_between_row _ _ _ o' c'); try done. rewrite length_app.
  assert (length segs <= length (concat (map (enclosed o' c') segs)))%nat; [|lia]. clear Hs.
  assert (1 <= length o')%nat by (rewrite <- Ho in Hne; destruct o'; [done|cbn; lia]).
  induction segs as [|seg segs IH]; [done|]. cbn [map concat length]. unfold enclosed at 1. rewrite !length_app. lia.
Qed.

(** ** Escaping *)

(** The text with the units of [ents] written as their entities. *)
Definition entity (ents : list (Z * jsstr)) (c : Z) : jsstr :=
  match List.find (λ e, e.1 =? c) ents with Some e => e.2 | None => [c] end.
Definition written (ents : list (Z * jsstr)) (s : jsstr) : jsstr := concat (map (entity ents) s).

Definition entities : list (Z * jsstr) :=
  [(38, js "&amp;"); (60, js "&lt;"); (62, js "&gt;"); (34, js "&quot;"); (39, js "&apos;")].

Lemma replace_unit_app c r a b : replace_unit c r (a ++ b) = replace_unit c r a ++ replace_unit c r b.
Proof. unfold replace_unit. by rewrite map_app, concat_app. Qed.

Lemma xmlEscape_app a b : xmlEscape (a ++ b) = xmlEscape a ++ xmlEscape b.
Proof. unfold xmlEscape. by rewrite !replace_unit_app. Qed.

Lemma xmlEscape_unit c : xmlEscape [c] = entity entities c.
Proof.
  destruct (decide (c ∈ map fst entities)) as [Hc|Hc].
  - revert c Hc. apply Forall_forall. repeat constructor.
  - cbn in Hc. unfold entity, entities. cbn [List.find fst snd]. unfold xmlEscape, replace_unit. cbn [map concat app].
    repeat (rewrite not_elem_of_cons in Hc; destruct Hc as [? Hc]).
    do 5 (rewrite (proj2 (Z.eqb_neq c _)) by done; cbn [map concat app]).
    by rewrite !(proj2 (Z.eqb_neq _ c)) by done.
Qed.

Lemma xmlEscape_written s : xmlEscape s = written entities s.
Proof.
  induction s as [|c s IH]; [done|]. change (c :: s) with ([c] ++ s). rewrite xmlEscape_app, xmlEscape_unit, IH. done.
Qed.

(** An entity starts with an ampersand and has no other. *)
Definition entity_ok (e : Z * jsstr) : bool := match e.2 with a :: t => (a =? 38) && forallb (λ c, negb (c =? 38)) t | [] => false end.

Lemma find_key ents c e : List.find (λ e : Z * jsstr, e.1 =? c) ents = Some e → e ∈ ents ∧ e.1 = c.
Proof. intros [Hin He]%List.find_some. apply list_elem_of_In in Hin. split; [done|lia]. Qed.

(** A text without an ampersand that starts the written text starts the text. *)
Lemma written_prefix ents p s :
  forallb entity_ok ents = true → forallb (λ c, negb (c =? 38)) p = true → starts_with p (written ents s) = true → starts_with p s = true.
Proof.
  intros He. revert s. induction p as [|x p IH]; intros s Hp Hs; [done|]. destruct s as [|c s]; [done|].
  cbn [forallb] in Hp. apply andb_prop in Hp as [Hx Hp]. unfold written in Hs. cbn [map concat] in Hs. unfold entity at 1 in Hs.
  destruct (List.find _ ents) as [e|] eqn:E.
  - apply find_key in E as [Hin _]. rewrite forallb_forall in He. apply list_elem_of_In in Hin. specialize (He _ Hin).
    unfold entity_ok in He. destruct e as [k [|y t]]; [done|]. cbn [snd fst] in *.
    apply andb_prop in He as [->%Z.eqb_eq _]. cbn [app starts_with] in Hs. apply andb_prop in Hs as [->%Z.eqb_eq _]. done.
  - cbn [app starts_with] in *. apply andb_prop in Hs as [-> Hs]. cbn. by apply IH.
Qed.

Lemma replace_from_skip p r a s : replace_from p r (length a) (a ++ s) = replace_from p r 0 s.
Proof. induction a as [|c a IH]; [done|]. exact IH. Qed.

(** No occurrence starts in [a]. *)
Lemma replace_from_none p r a s :
  (∀ b c, a = b ++ c → c ≠ [] → starts_with p (c ++ s) = false) → replace_from p r 0 (a ++ s) = a ++ replace_from p r 0 s.
Proof.
  induction a as [|x a IH]; intros Hn; [done|]. cbn [app replace_from].
  assert (Hx : starts_with p (x :: a ++ s) = false) by (by apply (Hn [] (x :: a))). rewrite Hx. f_equal.
  apply IH. intros b c -> Hc. by apply (Hn (x :: b)).
Qed.

Lemma starts_with_mismatch x p y s : x ≠ y → starts_with (x :: p) (y :: s) = false.
Proof. intros Hxy. cbn. by rewrite (proj2 (Z.eqb_neq x y)). Qed.

(** An entity of another unit is left alone. *)
Lemma replace_other p r t s :
  forallb (λ c, negb (c =? 38)) t = true → starts_with (38 :: p) (38 :: t) = false → starts_with (38 :: t) (38 :: p) = false →
  replace_from (38 :: p) r 0 ((38 :: t) ++ s) = (38 :: t) ++ replace_from (38 :: p) r 0 s.
Proof.
  intros Ht H1 H2. apply replace_from_none. intros [|y b] c E Hc.
  - cbn in E. subst c. apply not_true_is_false. intros [Es|Es]%(starts_with_app_l (38 :: p) (38 :: t) s); congruence.
  - injection E as <- ->. destruct c as [|z c]; [done|]. cbn [app]. apply starts_with_mismatch. intros <-.
    rewrite forallb_app in Ht. apply andb_prop in Ht as [_ Ht]. cbn [forallb] in Ht. by rewrite Z.eqb_refl in Ht.
Qed.

(** The entities differ from the one in question. *)
Definition entities_apart (e : jsstr) (ents : list (Z * jsstr)) : bool :=
  forallb (λ x, negb (starts_with e x.2) && negb (starts_with x.2 e)) ents.

(** Replacing one entity: what is left is written with the others, unless the text
    holds the entity itself. *)
Lemma unescape_one x p ents s :
  forallb entity_ok ((x, 38 :: p) :: ents) = true → entities_apart (38 :: p) ents = true → x ∉ map fst ents →
  (x = 38 ∨ 38 ∈ map fst ents ∨ includes (38 :: p) s = false) →
  replace_from (38 :: p) [x] 0 (written ((x, 38 :: p) :: ents) s) = written ents s.
Proof.
  intros He Ha Hx. pose proof He as He'. cbn [forallb] in He. apply andb_prop in He as [Hp He]. unfold entity_ok in Hp. cbn [snd] in Hp.
  induction s as [|c s IH]; intros Hs; [done|]. unfold written in *. cbn [map concat].
  assert (Hs' : x = 38 ∨ 38 ∈ map fst ents ∨ includes (38 :: p) s = false).
  { destruct Hs as [?|[?|Hs]]; auto. cbn [includes] in Hs. apply orb_false_elim in Hs as [_ Hs]. auto. }
  unfold entity at 1 3. cbn [List.find fst]. destruct (Z.eqb_spec x c) as [<-|Hxc].
  - cbn [snd app replace_from]. rewrite (starts_with_self (38 :: p) (concat _) : starts_with (38 :: p) (38 :: p ++ _) = true).
    replace (length (38%Z :: p) - 1)%nat with (length p) by (cbn; lia). cbn [app]. rewrite replace_from_skip, IH by done.
    destruct (List.find _ ents) as [e|] eqn:E; [|done]. apply find_key in E as [Hin <-]. exfalso. apply Hx.
    apply list_elem_of_fmap. by exists e.
  - destruct (List.find _ ents) as [e|] eqn:E.
    + apply find_key in E as [Hin _]. apply list_elem_of_In in Hin. unfold entities_apart in Ha. rewrite forallb_forall in Ha, He.
      specialize (Ha _ Hin). specialize (He _ Hin). destruct e as [k [|y t]]; [done|]. unfold entity_ok in He. cbn [snd] in *.
      apply andb_prop in He as [->%Z.eqb_eq Ht]. apply andb_prop in Ha as [H1%negb_true_iff H2%negb_true_iff].
      rewrite replace_other by done. by rewrite IH.
    + cbn [app replace_from]. destruct (starts_with (38 :: p) (c :: _)) eqn:Es; [|by rewrite IH].
      exfalso. cbn [starts_with] in Es. apply andb_prop in Es as [<-%Z.eqb_eq Es]. cbn [andb] in Hp.
      destruct Hs as [->|[Hin|Hs]]; [done| |].
      * apply list_elem_of_fmap in Hin as (e & He1 & Hin%list_elem_of_In). eapply List.find_none in E; [|exact Hin]. cbn in E. by rewrite <- He1, Z.eqb_refl in E.
      * cbn [includes starts_with] in Hs. apply orb_false_elim in Hs as [Hs _]. cbn in Hs.
        apply (written_prefix _ _ _ He') in Es; [|done]. by rewrite Es in Hs.
Qed.

(** The text holds none of the four entities literally. *)
Definition no_entities (s : jsstr) : bool :=
  forallb (λ e : string, negb (includes (js e) s)) ["&lt;"; "&gt;"; "&quot;"; "&apos;"]%string.

Lemma xml_unescape_escape s : no_entities s = true → xml_unescape (xmlEscape s) = s.
Proof.
  unfold no_entities. cbn [forallb]. intros Hn. apply andb_prop in Hn as [H1%negb_true_iff Hn]. apply andb_prop in Hn as [H2%negb_true_iff Hn].
  apply andb_prop in Hn as [H3%negb_true_iff Hn]. apply andb_prop in Hn as [H4%negb_true_iff _].
  rewrite xmlEscape_written. unfold xml_unescape, replace_all, entities.
  change (js "&amp;") with (38 :: js "amp;"). change (js "&lt;") with (38 :: js "lt;") in *. change (js "&gt;") with (38 :: js "gt;") in *.
  change (js "&quot;") with (38 :: js "quot;") in *. change (js "&apos;") with (38 :: js "apos;") in *.
  rewrite unescape_one; [|reflexivity|reflexivity|cbn; set_solver|auto].
  rewrite unescape_one; [|reflexivity|reflexivity|cbn; set_solver|auto].
  rewrite unescape_one; [|reflexivity|reflexivity|cbn; set_solver|auto].
  rewrite unescape_one; [|reflexivity|reflexivity|cbn; set_solver|auto].
  rewrite unescape_one; [|reflexivity|reflexivity|cbn; set_solver|auto].
  clear. unfold written. induction s as [|c s IH]; [done|]. cbn. by f_equal.
Qed.

(** ** KeePass XML *)

Lemma escaped_free c s : c ∈ [60; 62] → c ∉ lower (xmlEscape s).
Proof.
  intros Hc. rewrite xmlEscape_written. unfold written. induction s as [|x s IH]; [cbn; set_solver|]. cbn [map concat].
  rewrite lower_app. apply not_elem_of_app. split; [|done]. clear IH s.
  destruct (decide (x ∈ map fst entities)) as [Hx|Hx].
  - revert x Hx. apply Forall_forall. cbn [map fst entities]. repeat constructor; vm_compute; set_solver.
  - unfold entity. destruct (List.find _ entities) as [e|] eqn:E.
    + apply find_key in E as [Hin <-]. exfalso. apply Hx, list_elem_of_fmap. by exists e.
    + cbn [lower map]. intros Hin%list_elem_of_singleton. 
      assert (c = 60 ∨ c = 62) as Hc' by set_solver. apply Hx. assert (x = c) as ->; [|destruct Hc'; subst; set_solver].
      unfold ascii_lower_unit, is_upper in Hin. destruct ((65 <=? x) && (x <=? 90)) eqn:Eu; [to_prop; lia|done].
Qed.

(** What has no angle bracket misses every tag. *)
Definition no_tag (s : jsstr) : bool := negb (existsb (Z.eqb 60) (lower s)).

Lemma no_tag_misses p s : no_tag s = true → misses (60 :: p) s = true.
Proof.
  intros Hn. apply misses_free; [done|]. unfold no_tag in Hn. intros Hin%list_elem_of_In.
  assert (existsb (Z.eqb 60) (lower s) = true) as Hx by (apply existsb_exists; by exists 60). by rewrite Hx in Hn.
Qed.

Lemma escaped_misses p s : misses (60 :: p) (xmlEscape s) = true.
Proof. apply misses_free; [done|]. apply escaped_free. set_solver. Qed.

Lemma free_of_lower c s : ascii_lower_unit c = c → c ∉ lower s → c ∉ s.
Proof. intros Hc Hn Hin. apply Hn, list_elem_of_fmap. by exists c. Qed.

(** The strings of an entry: key, attributes of the value, value. *)
Record xstring := mkX { x_key : string; x_attrs : jsstr; x_value : jsstr }.

Definition x_body (x : xstring) : jsstr :=
  js "<Key>" ++ js (x_key x) ++ js "</Key>" ++ js "<Value" ++ x_attrs x ++ 62 :: xmlEscape (x_value x) ++ js "</Value>".

(** The key and the attributes are plain. *)
Definition x_plain (x : xstring) : bool :=
  no_tag (js (x_key x)) && str_eqb (xml_unescape (js (x_key x))) (js (x_key x)) && negb (str_empty (js (x_key x)))
  && no_tag (x_attrs x) && negb (existsb (Z.eqb 62) (x_attrs x)).

Lemma x_key_read x : x_plain x = true → xmlInnerText (x_body x) "Key" = js (x_key x).
Proof.
  unfold x_plain. intros Hx. apply andb_prop in Hx as [Hx _]. apply andb_prop in Hx as [Hx _]. apply andb_prop in Hx as [Hx _].
  apply andb_prop in Hx as [Ht Hu%str_eqb_eq]. unfold xmlInnerText, x_body.
  change (js "<Key>") with (js "<Key" ++ [62]). rewrite <- app_assoc.
  rewrite (find_ci_here _ (js "<Key")) by reflexivity. cbn [mbind option_bind].
  cbn [app find_unit]. rewrite Z.eqb_refl. cbn [mbind option_bind].
  rewrite (find_ci_first _ (js (x_key x)) (js "</Key>")); [exact Hu|by apply no_tag_misses|reflexivity].
Qed.

Lemma x_value_read x : x_plain x = true → no_entities (x_value x) = true → xmlInnerText (x_body x) "Value" = x_value x.
Proof.
  unfold x_plain. intros Hx Hv. apply andb_prop in Hx as [Hx H62%negb_true_iff]. apply andb_prop in Hx as [Hx Ha].
  apply andb_prop in Hx as [Hx _]. apply andb_prop in Hx as [Ht _]. unfold xmlInnerText, x_body.
  rewrite (app_assoc (js "<Key>")), (app_assoc (js "<Key>" ++ _)).
  rewrite (find_ci_first _ _ (js "<Value")); [|by repeat apply misses_app; [reflexivity|apply no_tag_misses|reflexivity]|reflexivity].
  cbn [mbind option_bind]. rewrite find_unit_first.
  2: { intros Hin%list_elem_of_In. assert (existsb (Z.eqb 62) (x_attrs x) = true) as Hc by (apply existsb_exists; by exists 62). congruence. }
  cbn [mbind option_bind]. rewrite <- (app_nil_r (js "</Value>")).
  rewrite (find_ci_first _ (xmlEscape (x_value x)) (js "</Value>")); [|apply escaped_misses|reflexivity].
  by apply xml_unescape_escape.
Qed.

Lemma x_body_misses x : x_plain x = true → misses (js "</string>") (x_body x) = true ∧ misses (js "</entry>") (x_body x) = true
  ∧ misses (js "<entry>") (x_body x) = true ∧ misses (js "<card") (x_body x) = true.
Proof.
  unfold x_plain. intros Hx. apply andb_prop in Hx as [Hx _]. apply andb_prop in Hx as [Hx Ha].
  apply andb_prop in Hx as [Hx _]. apply andb_prop in Hx as [Ht _]. unfold x_body.
  assert (∀ p, misses (60 :: p) (js "<Key>") = true → misses (60 :: p) (js "</Key>") = true → misses (60 :: p) (js "<Value") = true →
    misses (60 :: p) (js "</Value>") = true → misses (60 :: p) (js "<Key>" ++ js (x_key x) ++ js "</Key>" ++ js "<Value" ++ x_attrs x ++ 62 :: xmlEscape (x_value x) ++ js "</Value>") = true) as Hall.
  { intros p H1 H2 H3 H4. do 5 (apply misses_app; [first [done|by apply no_tag_misses]|]).
    apply (misses_app _ [62]); [by apply no_tag_misses|]. apply misses_app; [apply escaped_misses|done]. }
  repeat split; by apply Hall.
Qed.

Definition PROTECTED : jsstr := js " ProtectInMemory=" ++ [34] ++ js "True" ++ [34].

Definition x_strings (otp : jsstr) (c : Credential) : list xstring :=
  [mkX "Title" [] (c_service c); mkX "UserName" [] (c_username c); mkX "Password" PROTECTED (or_empty (c_password c));
   mkX "URL" [] (c_url c); mkX "Notes" [] (or_empty (c_description c))]
  ++ if str_empty otp then [] else [mkX "otp" [] otp].

Lemma x_strings_plain otp c : Forall (λ x, x_plain x = true) (x_strings otp c).
Proof. unfold x_strings. apply Forall_app. split; [repeat constructor|]. destruct (str_empty otp); repeat constructor. Qed.

Definition x_segments (xs : list xstring) : list (jsstr * jsstr) := map (λ x, (10 :: js "      ", x_body x)) xs.

Definition entry_tail (folders : list Folder) (c : Credential) : jsstr :=
  10 :: js "      <Tags>" ++ xmlEscape (folder_label folders (c_folderId c)) ++ js "</Tags>" ++ 10 :: js "    ".

(** The text between the tags of an entry. *)
Definition entry_body (folders : list Folder) (otp : jsstr) (c : Credential) : jsstr :=
  concat (map (enclosed (js "<String>") (js "</String>")) (x_segments (x_strings otp c))) ++ entry_tail folders c.

Lemma xml_entry_shape folders otp c : xml_entry folders otp c = js "    " ++ js "<Entry>" ++ entry_body folders otp c ++ js "</Entry>".
Proof.
  unfold xml_entry, entry_body, x_segments, x_strings, entry_tail, xml_string, enclosed, x_body. destruct (str_empty otp);
    cbn [map concat join_unit app fst snd x_key x_attrs x_value]; unfold PROTECTED; repeat (rewrite ?app_nil_r, <- ?app_assoc; progress cbn [app]); rewrite <- ?app_assoc; reflexivity.
Qed.

Lemma entry_tail_misses folders c p :
  misses (60 :: p) (js "<Tags>") = true → misses (60 :: p) (js "</Tags>") = true → misses (60 :: p) (entry_tail folders c) = true.
Proof.
  intros H1 H2. unfold entry_tail. change (10 :: js "      <Tags>" ++ ?r) with ((10 :: js "      ") ++ js "<Tags>" ++ r).
  repeat first [apply misses_app; [first [done|apply escaped_misses|by apply no_tag_misses]|]|by apply no_tag_misses].
Qed.

Lemma x_segments_forall (P : jsstr * jsstr → Prop) xs :
  (∀ x, x_plain x = true → P (10 :: js "      ", x_body x)) → Forall (λ x, x_plain x = true) xs → Forall P (x_segments xs).
Proof. intros HP Hxs. unfold x_segments. apply Forall_map. eapply Forall_impl; [exact Hxs|]. exact HP. Qed.

(** The key and value pairs of an entry are read back. *)
Lemma keepass_map_read folders otp c :
  Forall (λ x, no_entities (x_value x) = true) (x_strings otp c) →
  keepass_map (entry_body folders otp c) = map (λ x, (js (x_key x), x_value x)) (x_strings otp c).
Proof.
  intros Hv. unfold keepass_map, entry_body.
  rewrite (matches_row "<string>" "</string>" (js "<String>") (js "</String>")); [|done..| |by apply entry_tail_misses].
  - pose proof (x_strings_plain otp c) as Hp. unfold x_segments. rewrite map_map. cbn [snd]. revert Hv Hp.
    induction (x_strings otp c) as [|x xs IH]; intros Hv Hp; [done|]. inversion Hv; subst. inversion Hp as [|? ? Hx]; subst.
    cbn [map omap list_omap]. rewrite x_key_read, x_value_read by done.
    destruct (str_empty (js (x_key x))) eqn:E; [|f_equal; by apply IH]. unfold x_plain in Hx. rewrite E in Hx. by rewrite !andb_false_r in Hx.
  - apply x_segments_forall; [|apply x_strings_plain]. intros x Hx. split; [reflexivity|]. exact (proj1 (x_body_misses x Hx)).
Qed.

Section doc.
Context {J : JsCase} {U : JsUrl}.

(** What is kept of a credential; one without a name is dropped. *)
Definition kept_xml (otp : jsstr) (c : Credential) : list (jsstr → json) :=
  if str_empty (c_service c) then []
  else [make_credential (c_service c) (JStr (c_url c)) (c_username c) (or_empty (c_password c)) (or_undefined (or_empty (c_description c))) (otp_of otp)].

(** The values of an entry hold no entity literally. *)
Definition xml_safe (otp : jsstr) (c : Credential) : bool := forallb (λ x, no_entities (x_value x)) (x_strings otp c).

Lemma keepass_entry_read folders otp c : xml_safe otp c = true → keepass_entry (entry_body folders otp c) = kept_xml otp c.
Proof.
  intros Hs. unfold keepass_entry. rewrite keepass_map_read.
  - unfold kept_xml, x_strings. destruct otp as [|o otp]; reflexivity.
  - apply List.Forall_forall. unfold xml_safe in Hs. by rewrite forallb_forall in Hs.
Qed.

Lemma entry_body_misses folders otp c p :
  (∀ x, x_plain x = true → misses (60 :: p) (x_body x) = true) → misses (60 :: p) (js "<String>") = true →
  misses (60 :: p) (js "</String>") = true → misses (60 :: p) (js "<Tags>") = true → misses (60 :: p) (js "</Tags>") = true →
  misses (60 :: p) (entry_body folders otp c) = true.
Proof.
  intros Hx H1 H2 H3 H4. unfold entry_body. apply misses_app; [|by apply entry_tail_misses].
  pose proof (x_strings_plain otp c) as Hp. induction Hp as [|x xs Hpx _ IH]; [done|]. cbn [x_segments map concat].
  apply misses_app; [|exact IH]. unfold enclosed. cbn [fst snd].
  apply misses_app; [by apply no_tag_misses|]. apply misses_app; [done|]. apply misses_app; [by apply Hx|done].
Qed.

(** *** The document *)

(** The text before an entry: the head of the document or the end of a line. *)
Definition doc_segments (pre : jsstr) (folders : list Folder) (l : list (jsstr * Credential)) : list (jsstr * jsstr) :=
  match l with
  | [] => []
  | oc :: l => (pre ++ js "    ", entry_body folders oc.1 oc.2) :: map (λ oc, (10 :: js "    ", entry_body folders oc.1 oc.2)) l
  end.

Lemma join_entries folders l :
  join_unit [10] (map (λ oc : jsstr * Credential, xml_entry folders oc.1 oc.2) l)
  = concat (map (enclosed (js "<Entry>") (js "</Entry>")) (doc_segments [] folders l)).
Proof.
  destruct l as [|oc l]; [done|]. cbn [doc_segments map concat]. revert oc. induction l as [|oc' l IH]; intros oc.
  - cbn [map join_unit concat]. rewrite xml_entry_shape. unfold enclosed. cbn [fst snd app]. by rewrite app_nil_r.
  - cbn [map join_unit concat] in *. rewrite IH. rewrite (xml_entry_shape folders oc.1 oc.2). unfold enclosed. cbn [fst snd app].
    rewrite <- !app_assoc. reflexivity.
Qed.

Lemma doc_segments_pre pre folders oc l r :
  pre ++ concat (map (enclosed (js "<Entry>") (js "</Entry>")) (doc_segments [] folders (oc :: l))) ++ r
  = concat (map (enclosed (js "<Entry>") (js "</Entry>")) (doc_segments pre folders (oc :: l))) ++ r.
Proof. cbn [doc_segments map concat]. unfold enclosed at 1 3. cbn [fst snd app]. by rewrite <- !app_assoc. Qed.

Lemma doc_segments_bodies pre folders l : map snd (doc_segments pre folders l) = map (λ oc, entry_body folders oc.1 oc.2) l.
Proof. destruct l as [|oc l]; [done|]. cbn [doc_segments map snd]. f_equal. by rewrite map_map. Qed.

Lemma doc_segments_forall (P : jsstr * jsstr → Prop) pre folders l :
  (∀ otp c, P (pre ++ js "    ", entry_body folders otp c)) → (∀ otp c, P (10 :: js "    ", entry_body folders otp c)) →
  Forall P (doc_segments pre folders l).
Proof. intros H1 H2. destruct l as [|oc l]; constructor; [apply H1|]. apply Forall_map, Forall_true. intros. apply H2. Qed.

(** The parts of the head around the time. *)
Definition head_start : jsstr := take 168 (xml_head []).
Definition head_end : jsstr := drop 168 (xml_head []).

Lemma xml_head_parts now : xml_head now = head_start ++ now ++ head_end.
Proof. unfold xml_head at 1. cbn [join_unit]. rewrite <- !app_assoc. reflexivity. Qed.

Lemma xml_head_misses now p :
  no_tag now = true → misses (60 :: p) head_start = true → misses (60 :: p) head_end = true → misses (60 :: p) (xml_head now) = true.
Proof.
  intros Hn H1 H2. rewrite xml_head_parts. apply misses_app; [done|]. apply misses_app; [by apply no_tag_misses|done].
Qed.

Lemma buildKeePassXML_shape now l folders text :
  buildKeePassXML now l folders = Ok text →
  ∃ ocs, map snd ocs = l ∧ Forall (λ oc, to_text <$> otp_uri oc.2 (JStr []) = Ok oc.1) ocs ∧
    text = xml_head now ++ [10] ++ concat (map (enclosed (js "<Entry>") (js "</Entry>")) (doc_segments [] folders ocs)) ++ 10 :: xml_foot.
Proof.
  unfold buildKeePassXML. intros Ht.
  destruct (result_map _ l) as [entries|] eqn:E; [|done]. injection Ht as <-.
  assert (Hs : ∃ ocs, map snd ocs = l ∧ Forall (λ oc, to_text <$> otp_uri oc.2 (JStr []) = Ok oc.1) ocs ∧
    entries = map (λ oc, xml_entry folders oc.1 oc.2) ocs).
  { revert entries E. induction l as [|c l IH]; intros entries E; cbn [result_map] in E; [injection E as <-; by exists []|].
    destruct (otp_uri c (JStr [])) as [j|] eqn:Ej; [|done]. cbn [mbind result_bind] in E.
    destruct (result_map _ l) as [es|]; [|done]. injection E as <-. destruct (IH es eq_refl) as (ocs & <- & Hf & ->).
    exists ((to_text j, c) :: ocs). split; [done|]. split; [constructor; [cbn; by rewrite Ej|done]|done]. }
  destruct Hs as (ocs & Hm & Hf & ->). exists ocs. split; [done|]. split; [done|].
  rewrite <- join_entries. cbn [join_unit]. done.
Qed.

(** The document of the entries [ocs], as a row of entries. *)
Lemma matches_document now folders ocs :
  no_tag now = true →
  matches_between "<entry>" "</entry>"
    (xml_head now ++ [10] ++ concat (map (enclosed (js "<Entry>") (js "</Entry>")) (doc_segments [] folders ocs)) ++ 10 :: xml_foot)
  = map (λ oc, entry_body folders oc.1 oc.2) ocs.
Proof.
  intros Hn. assert (Hh : misses (js "<entry>") (xml_head now ++ [10]) = true)
    by (apply misses_app; [by apply xml_head_misses; [done|reflexivity..]|reflexivity]).
  rewrite app_assoc. destruct ocs as [|oc ocs].
  - cbn [doc_segments map concat app]. apply (matches_row "<entry>" "</entry>" (js "<Entry>") (js "</Entry>") []); try done.
    apply misses_app; [done|reflexivity].
  - rewrite doc_segments_pre.
    rewrite (matches_row "<entry>" "</entry>" (js "<Entry>") (js "</Entry>")); [apply doc_segments_bodies|done..| |reflexivity].
    assert (Hb : ∀ otp c, misses (js "</entry>") (entry_body folders otp c) = true).
    { intros. apply entry_body_misses; [|reflexivity..]. intros x Hx. exact (proj1 (proj2 (x_body_misses x Hx))). }
    apply doc_segments_forall; intros otp c; (split; [|apply Hb]); [apply misses_app; [exact Hh|reflexivity]|reflexivity].
Qed.

Lemma find_tag_none p s : p ≠ [] → misses p s = true → find_tag p s = None.
Proof.
  intros Hp. induction s as [|c s IH]; intros Hm; [by destruct p|]. cbn [misses] in Hm. apply andb_prop in Hm as [Hc Hm]. cbn [find_tag].
  destruct (starts_ci p (c :: s)) eqn:E; [|by apply IH]. rewrite <- (app_nil_r (c :: s)) in E. apply starts_ci_compatible in E. by rewrite E in Hc.
Qed.

(** No part of the document looks like a card of another format. *)
Lemma document_no_card now folders ocs :
  no_tag now = true →
  find_tag (js "<card")
    (xml_head now ++ [10] ++ concat (map (enclosed (js "<Entry>") (js "</Entry>")) (doc_segments [] folders ocs)) ++ 10 :: xml_foot) = None.
Proof.
  intros Hn. apply find_tag_none; [done|]. apply misses_app; [by apply xml_head_misses; [done|reflexivity..]|].
  apply misses_app; [reflexivity|]. apply misses_app; [|reflexivity].
  assert (Hb : ∀ otp c, misses (js "<card") (entry_body folders otp c) = true).
  { intros. apply entry_body_misses; [|reflexivity..]. intros x Hx. exact (proj2 (proj2 (proj2 (x_body_misses x Hx)))). }
  assert (Hf : Forall (λ seg, misses (js "<card") (enclosed (js "<Entry>") (js "</Entry>") seg) = true) (doc_segments [] folders ocs)).
  { apply doc_segments_forall; intros otp c; unfold enclosed; cbn [fst snd]; (apply misses_app; [reflexivity|]);
      (apply misses_app; [reflexivity|]); (apply misses_app; [apply Hb|reflexivity]). }
  induction Hf as [|seg segs Hs _ IH]; [done|]. cbn [map concat]. by apply misses_app.
Qed.
End doc.
