(* ===== verification/CsvSpec.v ===== *)
(** * Theorems on CSV import and export

    Printing and parsing cells, rows and files; what a vault exported as CSV
    comes back as; which importer the client picks for its own files. *)
From S2P Require Import Prelude JsRuntime JsText Base64 Types Csv.

(** ** Cells *)

(** The text [e] is read as the cell [s]. *)
Definition cell_ok (e s : jsstr) : Prop :=
  ∀ rest, (rest = [] ∨ ∃ r, rest = 44 :: r) → parse_line (e ++ rest) false [] = parse_line rest false s.

Lemma parse_plain s : has_unit 44 s = false → has_unit 34 s = false → ∀ rest cur,
  parse_line (s ++ rest) false cur = parse_line rest false (cur ++ s).
Proof.
  induction s as [|c s IH]; intros H44 H34 rest cur; [by rewrite app_nil_r|].
  apply orb_false_iff in H44 as [H44 H44']. apply orb_false_iff in H34 as [H34 H34'].
  cbn [app parse_line]. rewrite (Z.eqb_sym c 34), (Z.eqb_sym c 44), H34, H44. cbn [andb].
  rewrite IH by done. by rewrite <- app_assoc.
Qed.

Lemma parse_quoted s : ∀ rest cur,
  (rest = [] ∨ ∃ r, rest = 44 :: r) →
  parse_line (double_quotes s ++ 34 :: rest) true cur = parse_line rest false (cur ++ s).
Proof.
  induction s as [|c s IH]; intros rest cur Hr.
  - rewrite app_nil_r. destruct Hr as [->|[r ->]]; done.
  - unfold double_quotes. cbn [map concat]. fold (double_quotes s). destruct (Z.eqb_spec c 34) as [->|Hc].
    + cbn [app parse_line]. change (34 =? 34) with true. cbn [andb]. rewrite IH by done. by rewrite <- app_assoc.
    + cbn [app parse_line]. rewrite (proj2 (Z.eqb_neq c 34)) by done. rewrite andb_false_r. rewrite IH by done. by rewrite <- app_assoc.
Qed.

Lemma cell_quoted s : cell_ok (quoted s) s.
Proof.
  intros rest Hr. unfold quoted. rewrite <- !app_assoc. cbn [app].
  assert (E : ∀ r, parse_line (34 :: r) false [] = parse_line r true []) by (intros [|]; done).
  rewrite E. by rewrite parse_quoted.
Qed.

Lemma cell_plain s : has_unit 44 s = false → has_unit 34 s = false → cell_ok s s.
Proof. intros H1 H2 rest _. by rewrite parse_plain. Qed.

Lemma cell_escape v : cell_ok (csvEscape v) (or_empty v).
Proof.
  unfold csvEscape. destruct (has_unit 44 (or_empty v)) eqn:E1; [apply cell_quoted|].
  destruct (has_unit 34 (or_empty v)) eqn:E2; [apply cell_quoted|]. cbn [orb].
  destruct (_ || _); [apply cell_quoted|by apply cell_plain].
Qed.

(** ** Rows *)

Lemma parse_row es ss :
  Forall2 cell_ok es ss → es ≠ [] → parse_line (join_unit [44] es) false [] = ss.
Proof.
  induction 1 as [|e s es ss He Hes IH]; [done|]. intros _. destruct Hes as [|e2 s2 es ss He2 Hes].
  - cbn [join_unit]. rewrite <- (app_nil_r e). rewrite He by (by left). done.
  - change (join_unit [44] (e :: e2 :: es)) with (e ++ 44 :: join_unit [44] (e2 :: es)).
    rewrite He by (right; eauto). cbn [parse_line]. change ((44 =? 34)) with false. change ((44 =? 44)) with true. cbn [andb negb].
    f_equal. by apply IH.
Qed.

(** ** Lines *)

(** No line break. *)
Definition one_line (s : jsstr) : Prop := (10 ∉ s) ∧ (13 ∉ s).

Lemma one_line_app a b : one_line (a ++ b) ↔ one_line a ∧ one_line b.
Proof. unfold one_line. rewrite !not_elem_of_app. tauto. Qed.
Lemma one_line_cons c s : one_line (c :: s) ↔ c ≠ 10 ∧ c ≠ 13 ∧ one_line s.
Proof. unfold one_line. rewrite !not_elem_of_cons. intuition congruence. Qed.
Lemma one_line_nil : one_line [].
Proof. split; apply not_elem_of_nil. Qed.

Lemma double_quotes_line s : one_line s → one_line (double_quotes s).
Proof.
  induction s as [|c s IH]; [done|]. rewrite one_line_cons. intros (H1 & H2 & H3).
  unfold double_quotes. cbn [map concat]. apply one_line_app. split; [|by apply IH].
  destruct (c =? 34); repeat (apply one_line_cons; split_and!; try lia); apply one_line_nil.
Qed.

Lemma quoted_line s : one_line s → one_line (quoted s).
Proof.
  intros H. unfold quoted. rewrite !one_line_app. split_and!; [|by apply double_quotes_line|];
    (apply one_line_cons; split_and!; [lia|lia|apply one_line_nil]).
Qed.

Lemma escape_line v : one_line (or_empty v) → one_line (csvEscape v).
Proof. intros H. unfold csvEscape. destruct (_ || _); [by apply quoted_line|done]. Qed.

Lemma join_line es : Forall one_line es → one_line (join_unit [44] es).
Proof.
  induction 1 as [|e es He Hes IH]; [apply one_line_nil|]. destruct es as [|e2 es]; [done|].
  change (join_unit [44] (e :: e2 :: es)) with (e ++ 44 :: join_unit [44] (e2 :: es)).
  apply one_line_app. split; [done|]. apply one_line_cons. by split_and!.
Qed.

Lemma split_lines_clean s : one_line s → split_lines s = [s].
Proof.
  induction s as [|c s IH]; [done|]. rewrite one_line_cons. intros (H1 & H2 & H3).
  cbn [split_lines]. rewrite (proj2 (Z.eqb_neq c 10)) by done. rewrite IH by done.
  destruct s; [done|]. by rewrite (proj2 (Z.eqb_neq c 13)).
Qed.

Lemma split_lines_app s r : one_line s → split_lines (s ++ 10 :: r) = s :: split_lines r.
Proof.
  induction s as [|c s IH]; [done|]. rewrite one_line_cons. intros (H1 & H2 & H3).
  cbn [app split_lines]. rewrite (proj2 (Z.eqb_neq c 10)) by done. rewrite IH by done.
  destruct (s ++ 10 :: r); [done|]. by rewrite (proj2 (Z.eqb_neq c 13)).
Qed.

Lemma split_join_lines ls : ls ≠ [] → Forall one_line ls → split_lines (join_unit [10] ls) = ls.
Proof.
  induction ls as [|l ls IH]; [done|]. intros _ Hall. apply Forall_cons in Hall as [Hl Hls].
  destruct ls as [|l2 ls]; [by apply split_lines_clean|].
  change (join_unit [10] (l :: l2 :: ls)) with (l ++ 10 :: join_unit [10] (l2 :: ls)).
  rewrite split_lines_app by done. by rewrite IH.
Qed.

(** Lines with a visible character are not blank. *)
Lemma trim_start_visible c s : c ∈ s → is_space c = false → ∃ d s', trim_start s = d :: s' ∧ is_space d = false ∧ c ∈ d :: s'.
Proof.
  intros Hin Hc. induction s as [|x s IH]; [by apply not_elem_of_nil in Hin|]. cbn.
  destruct (is_space x) eqn:Hx; [|eauto]. apply elem_of_cons in Hin as [->|Hin]; [congruence|auto].
Qed.

Lemma trim_visible c s : c ∈ s → is_space c = false → str_empty (trim s) = false.
Proof.
  intros Hin Hc. unfold trim. destruct (trim_start_visible c s Hin Hc) as (d & s' & -> & Hd & _).
  destruct (trim_start_visible d (reverse (d :: s'))) as (e & s2 & -> & _ & _); [|done|].
  - apply elem_of_reverse_2. left.
  - destruct (reverse (e :: s2)) eqn:E; [|done]. apply (f_equal length) in E. rewrite length_reverse in E. done.
Qed.

(** ** Files *)

(** The text of a row of at least two cells. *)
Definition row_ok (es ss : list jsstr) : Prop := Forall2 cell_ok es ss ∧ Forall one_line es ∧ (2 <= length es)%nat.

Lemma row_visible es : (2 <= length es)%nat → str_empty (trim (join_unit [44] es)) = false.
Proof.
  intros Hl. apply (trim_visible 44); [|done]. destruct es as [|e [|e2 es]]; cbn in Hl; [lia|lia|].
  change (join_unit [44] (e :: e2 :: es)) with (e ++ 44 :: join_unit [44] (e2 :: es)).
  apply elem_of_app. right. left.
Qed.

(** A header line is text without quotation marks and line breaks. *)
Definition header_ok (h : jsstr) : Prop :=
  one_line h ∧ str_empty (trim h) = false ∧ strip_bom_text h = h ∧ h ≠ [].

Lemma parse_file h rows ss :
  header_ok h → Forall2 row_ok rows ss →
  parseCSV (join_unit [10] (h :: map (join_unit [44]) rows)) = parse_line h false [] :: ss.
Proof.
  intros (Hh & Hv & Hb & Hne) Hr. unfold parseCSV.
  assert (Hstrip : strip_bom_text (join_unit [10] (h :: map (join_unit [44]) rows)) = join_unit [10] (h :: map (join_unit [44]) rows)).
  { destruct h as [|c h]; [done|]. cbn in Hb. destruct (Z.eqb_spec c BOM) as [->|Hc].
    - exfalso. apply (f_equal length) in Hb. cbn in Hb. lia.
    - destruct rows; cbn; by rewrite (proj2 (Z.eqb_neq c BOM)). }
  rewrite Hstrip, split_join_lines; [|done|].
  - cbn [List.filter]. rewrite Hv. cbn [negb map]. f_equal. clear Hstrip.
    induction Hr as [|es s rows ss (Hc & Hl & Hn) Hr IH]; [done|].
    cbn [map List.filter]. rewrite row_visible by done. cbn [negb map].
    rewrite (parse_row es s Hc) by (destruct es; [cbn in Hn; lia|done]). by rewrite IH.
  - apply Forall_cons. split; [done|]. clear Hstrip.
    induction Hr as [|es s rows ss (Hc & Hl & Hn) Hr IH]; [constructor|]. cbn. constructor; [by apply join_line|done].
Qed.

(** Cells written by [csvEscape] make a row. *)
Lemma escaped_row vs :
  (2 <= length vs)%nat → Forall (λ v, one_line (or_empty v)) vs → row_ok (map csvEscape vs) (map or_empty vs).
Proof.
  intros Hl Hv. split_and!; [|by apply Forall_map, (Forall_impl _ _ _ Hv), escape_line|by rewrite length_map].
  clear. induction vs; cbn; constructor; [apply cell_escape|done].
Qed.

(** ** Columns: only the ASCII case mapping matters *)

Lemma findCol_ascii {J : JsCase} headers ns :
  forallb (forallb is_ascii) ns = true → @findCol J headers ns = @findCol ascii_case headers ns.
Proof.
  induction ns as [|n ns IH]; [done|]. cbn [forallb]. rewrite andb_true_iff. intros [Hn Hns]. cbn [findCol].
  rewrite toLowerCase_ascii by done. change (@toLowerCase ascii_case n) with (map ascii_lower_unit n). by rewrite IH.
Qed.

Lemma lower_headers {J : JsCase} hs :
  forallb (forallb is_ascii) hs = true →
  map (λ h, trim (@toLowerCase J h)) hs = map (λ h, trim (map ascii_lower_unit h)) hs.
Proof.
  intros Hall. apply map_ext_in. intros h Hh. rewrite forallb_forall in Hall. by rewrite toLowerCase_ascii by auto.
Qed.

(** The names of a map, all ASCII. *)
Definition map_ascii (m : ColMap) : bool :=
  forallb (λ o : option (list jsstr), match o with Some l => forallb (forallb is_ascii) l | None => true end)
    [cm_title m; cm_url m; cm_username m; cm_password m; cm_notes m; cm_otp m; cm_folder m].

Lemma find_columns_ascii {J : JsCase} headers m :
  map_ascii m = true → @find_columns J headers m = @find_columns ascii_case headers m.
Proof.
  destruct m as [a b c d e f g]. unfold map_ascii. cbn [forallb cm_title cm_url cm_username cm_password cm_notes cm_otp cm_folder].
  rewrite !andb_true_iff. intros (Ha & Hb & Hc & Hd & He & Hf & Hg & _). unfold find_columns.
  cbn [cm_title cm_url cm_username cm_password cm_notes cm_otp cm_folder].
  f_equal; apply findCol_ascii; [destruct a|destruct b|destruct c|destruct d|destruct e|destruct f|destruct g]; done.
Qed.

(** Rows that are all kept. *)
Lemma import_rows_all {J : JsCase} {U : JsUrl} headers cols tf uuids (f : jsstr → list jsstr → Credential) rows : ∀ n,
  (∀ row, row ∈ rows → type_skips headers tf row = false ∧ ∀ u, row_credential cols u row = Some (f u row)) →
  import_rows headers cols tf uuids n rows = imap (λ i row, f (uuids (n + i)%nat) row) rows.
Proof.
  induction rows as [|row rows IH]; intros n Hall; [done|]. cbn [import_rows imap].
  destruct (Hall row) as [Hs Hc]; [left|]. rewrite Hs, Hc. rewrite Nat.add_0_r. f_equal.
  rewrite IH by (intros r Hr; apply Hall; by right). apply imap_ext. intros i x _. cbn. f_equal. f_equal. lia.
Qed.

(** A file of one header and rows that are all kept. *)
Lemma csvImport_rows {J : JsCase} {U : JsUrl} uuids h rows ss m fmt tf cols (f : jsstr → list jsstr → Credential) :
  header_ok h → Forall2 row_ok rows ss →
  forallb (forallb is_ascii) (parse_line h false []) = true → map_ascii m = true →
  let headers := map (λ h, trim (map ascii_lower_unit h)) (parse_line h false []) in
  @find_columns ascii_case headers m = cols →
  (∀ row, row ∈ ss → type_skips headers tf row = false ∧ ∀ u, row_credential cols u row = Some (f u row)) →
  csvImport uuids (join_unit [10] (h :: map (join_unit [44]) rows)) m fmt tf = mkImport (imap (λ i row, f (uuids i) row) ss) fmt.
Proof.
  intros Hh Hr Ha Hm. cbv zeta. intros Hcols Hall. unfold csvImport. rewrite (parse_file h rows ss) by done.
  rewrite (lower_headers (parse_line h false [])) by done.
  destruct ss as [|s ss]; [done|]. rewrite find_columns_ascii, Hcols by done. f_equal.
  rewrite (import_rows_all _ _ _ _ f) by done. done.
Qed.

(** ** The first line *)

Lemma first_line_text {J : JsCase} h rest :
  header_ok h → forallb is_ascii h = true → @first_line J (join_unit [10] (h :: rest)) = map ascii_lower_unit h.
Proof.
  intros (Hh & _ & Hb & Hne) Ha. unfold first_line.
  assert (Hstrip : strip_bom_text (join_unit [10] (h :: rest)) = join_unit [10] (h :: rest)).
  { destruct h as [|c h]; [done|]. cbn in Hb. destruct (Z.eqb_spec c BOM) as [->|Hc].
    - exfalso. apply (f_equal length) in Hb. cbn in Hb. lia.
    - destruct rest; cbn; by rewrite (proj2 (Z.eqb_neq c BOM)). }
  rewrite Hstrip. assert (Hl : hd [] (split_lines (join_unit [10] (h :: rest))) = h).
  { destruct rest as [|r rest]; [by rewrite split_lines_clean|].
    change (join_unit [10] (h :: r :: rest)) with (h ++ 10 :: join_unit [10] (r :: rest)). by rewrite split_lines_app. }
  by rewrite Hl, toLowerCase_ascii.
Qed.

(** Headers are checked by evaluation. *)
Definition header_okb (h : jsstr) : bool :=
  negb (has_unit 10 h) && negb (has_unit 13 h) && negb (str_empty (trim h)) && str_eqb (strip_bom_text h) h
  && negb (str_empty h) && forallb is_ascii h.

Lemma header_okb_ok h : header_okb h = true → header_ok h ∧ forallb is_ascii h = true.
Proof.
  unfold header_okb. rewrite !andb_true_iff, !negb_true_iff. intros (((((H1 & H2) & H3) & H4) & H5) & H6).
  apply has_unit_false in H1, H2. apply bool_decide_eq_true in H4. split; [|done]. split_and!; try done. by intros ->.
Qed.

(** The importer chosen for a text that starts with the header [h]. *)
Lemma chosen {J : JsCase} h rest :
  header_okb h = true →
  choose_importer (@first_line J (join_unit [10] (h :: rest))) = choose_importer (map ascii_lower_unit h).
Proof. intros Hh. apply header_okb_ok in Hh as [Hh Ha]. by rewrite first_line_text. Qed.

(** What a credential comes back as from the client's own CSV columns. *)
Definition csv_image {U : JsUrl} (uuid : jsstr) (c : Credential) : Credential :=
  basic_credential (IdString uuid) (str_or (trim (c_service c)) (js "Untitled")) (c_url c) (c_username c)
    (Some (or_empty (c_password c))) (js "active") (js "#22c55e") [] []
    (Some (if str_empty (c_folderId c) then [] else [c_folderId c]))
    (otp_of (or_empty (c_otpSecret c))) (Some (or_empty (c_description c))) None.

(** The columns the exporters write, without line breaks. *)
Definition csv_clean (c : Credential) : Prop :=
  Forall one_line [c_service c; c_url c; c_username c; or_empty (c_password c); or_empty (c_description c);
                   or_empty (c_otpSecret c); c_folderId c].

Definition pwdnow_cells (c : Credential) : list (option jsstr) :=
  [Some (c_service c); Some (c_url c); Some (c_username c); c_password c; c_description c; c_otpSecret c; Some (c_folderId c)].

Lemma csv_clean_cells c : csv_clean c → Forall (λ v, one_line (or_empty v)) (pwdnow_cells c).
Proof. intros H. unfold csv_clean in H. rewrite !Forall_cons in H. destruct_and!. repeat apply Forall_cons_2; done. Qed.

(** The rows of a file whose cells are all escaped. *)
Lemma escaped_rows {A} (f : A → list (option jsstr)) l :
  Forall (λ x, (2 <= length (f x))%nat ∧ Forall (λ v, one_line (or_empty v)) (f x)) l →
  Forall2 row_ok (map (λ x, map csvEscape (f x)) l) (map (λ x, map or_empty (f x)) l).
Proof. induction 1 as [|x l [H1 H2] _ IH]; cbn; constructor; [by apply escaped_row|done]. Qed.

Lemma pwdnow_rows l :
  Forall csv_clean l →
  Forall2 row_ok (map (λ c, map csvEscape (pwdnow_cells c)) l) (map (λ c, map or_empty (pwdnow_cells c)) l).
Proof.
  intros Hl. apply escaped_rows. apply (Forall_impl _ _ _ Hl). intros c Hc. split; [cbn; lia|by apply csv_clean_cells].
Qed.

(** The rows of the exporter of RoboForm. *)
Definition roboform_cells (folders : list Folder) (c : Credential) : list (option jsstr) :=
  [Some (c_service c); Some (c_url c); Some (c_username c); c_password c; c_description c;
   Some (folder_label folders (c_folderId c))].

(** A line break in a cell splits the row. *)
Lemma csv_line_break_splits :
  parseCSV (csv_text "name,note" [[csvEscape (Some (js "a")); csvEscape (Some ([120; 10; 121]))]]) =
    [[js "name"; js "note"]; [js "a"; js "x"]; [js "y"]].
Proof. reflexivity. Qed.

(** RoboForm files read as Keeper's, own files read as Chrome's. *)
Section misread.
Context {J : JsCase} {U : JsUrl}.

Lemma csv_dispatch_robo l folders : choose_importer (first_line (exportToRoboForm l folders)) = Keeper.
Proof. unfold exportToRoboForm, csv_text. rewrite chosen by (by vm_compute). by vm_compute. Qed.
Lemma csv_dispatch_own l : choose_importer (first_line (exportToPWDnowCSV l)) = Chrome.
Proof. unfold exportToPWDnowCSV, csv_text. rewrite chosen by (by vm_compute). by vm_compute. Qed.

Definition robo_image (folders : list Folder) (uuid : jsstr) (c : Credential) : Credential :=
  basic_credential (IdString uuid) (js "Untitled") [] (c_username c) (Some []) (js "active") (js "#22c55e") [] []
    (Some (let f := folder_label folders (c_folderId c) in if str_empty f then [] else [f])) None None None.

Lemma folder_label_line folders id : Forall (λ f, one_line (f_label f)) folders → one_line (folder_label folders id).
Proof.
  intros Hf. unfold folder_label. destruct (str_empty id); [apply one_line_nil|].
  destruct (List.find _ _) as [f|] eqn:E; [|apply one_line_nil]. apply List.find_some in E as [E _].
  rewrite Forall_forall in Hf. apply Hf. apply elem_of_reverse. by apply list_elem_of_In.
Qed.

Lemma robo_as_keeper uuids l folders :
  Forall csv_clean l → Forall (λ f, one_line (f_label f)) folders →
  importKeeperCSV uuids (exportToRoboForm l folders) = mkImport (imap (λ i c, robo_image folders (uuids i) c) l) (js "keeper-csv").
Proof.
  intros Hl Hf. unfold importKeeperCSV, exportToRoboForm, csv_text.
  pose (f := λ u (row : list jsstr), basic_credential (IdString u) (js "Untitled") [] (nth 2 row []) (Some [])
     (js "active") (js "#22c55e") [] [] (Some (if str_empty (nth 5 row []) then [] else [nth 5 row []])) None None None).
  assert (Hrows : Forall2 row_ok (map (λ c, map csvEscape (roboform_cells folders c)) l) (map (λ c, map or_empty (roboform_cells folders c)) l)).
  { apply escaped_rows. apply (Forall_impl _ _ _ Hl). intros c Hc. split; [cbn; lia|].
    unfold csv_clean in Hc. rewrite !Forall_cons in Hc. destruct_and!.
    repeat apply Forall_cons_2; try done. by apply folder_label_line. }
  rewrite (csvImport_rows uuids (js "Name,Url,Login,Pwd,Note,Folder")
    (map (λ c, map csvEscape (roboform_cells folders c)) l) (map (λ c, map or_empty (roboform_cells folders c)) l) _ _ _
    (mkCols None None (Some 2) None None None (Some 5))%nat f); [|by apply header_okb_ok|exact Hrows|done|done|by vm_compute|].
  - f_equal. by rewrite imap_fmap.
  - intros row Hin. apply list_elem_of_fmap in Hin as (c & -> & _). split; [done|]. intros u. unfold row_credential, f, cell.
    cbn. by destruct (folder_label folders (c_folderId c)).
Qed.

Definition chrome_image (uuid : jsstr) (c : Credential) : Credential :=
  basic_credential (IdString uuid) (str_or (trim (c_service c)) (js "Untitled")) (c_url c) (c_username c)
    (Some (or_empty (c_password c))) (js "active") (js "#22c55e") [] []
    (Some (if str_empty (c_folderId c) then [] else [c_folderId c])) None None None.

Lemma own_as_chrome uuids l :
  Forall csv_clean l →
  importChrome uuids (exportToPWDnowCSV l) = mkImport (imap (λ i c, chrome_image (uuids i) c) l) (js "chrome-csv").
Proof.
  intros Hl. unfold importChrome, exportToPWDnowCSV, csv_text.
  pose (f := λ u (row : list jsstr), basic_credential (IdString u) (str_or (trim (nth 0 row [])) (js "Untitled")) (nth 1 row [])
     (nth 2 row []) (Some (nth 3 row [])) (js "active") (js "#22c55e") [] []
     (Some (if str_empty (nth 6 row []) then [] else [nth 6 row []])) None None None).
  rewrite (csvImport_rows uuids (js "name,url,username,password,notes,otp_secret,folder")
    (map (λ c, map csvEscape (pwdnow_cells c)) l) (map (λ c, map or_empty (pwdnow_cells c)) l) _ _ _
    (mkCols (Some 0) (Some 1) (Some 2) (Some 3) None None (Some 6))%nat f); [|by apply header_okb_ok|by apply pwdnow_rows|done|done|by vm_compute|].
  - f_equal. by rewrite imap_fmap.
  - intros row Hin. apply list_elem_of_fmap in Hin as (c & -> & _). split; [done|]. intros u. unfold row_credential, f, cell.
    cbn. rewrite andb_false_r. by destruct (c_folderId c).
Qed.
End misread.

(** ** Sample values *)

#[export] Instance demo_url : JsUrl := {| url_secret _ := None; encodeURIComponent s := Some s |}.
Definition demo_login : Credential :=
  basic_credential (IdNumber 1) (js "Mail, work") (js "https://mail.example") (js "ann") (Some (34 :: js "p,w")) [] [] []
    (js "f1") None (Some (js "JBSWY3DPEHPK3PXP")) (Some (js "first note")) None.
Lemma demo_login_clean : Forall csv_clean [demo_login].
Proof. repeat constructor; apply has_unit_false; reflexivity. Qed.

Module CsvSpec.

(** Printing and parsing CSV are inverse: for a one-line header and rows of
    two or more cells without line breaks, whatever commas, quotation marks and
    spaces the cells hold, the parser returns exactly the cells that were
    escaped. *)
Theorem csv_parse_print header rows :
  header_ok (js header) →
  Forall (λ row, (2 <= length row)%nat ∧ Forall (λ v, one_line (or_empty v)) row) rows →
  parseCSV (csv_text header (map (map csvEscape) rows)) = parse_line (js header) false [] :: map (map or_empty) rows.
Proof. intros Hh Hr. apply parse_file; [done|]. exact (escaped_rows (λ r, r) rows Hr). Qed.

Lemma csv_parse_print_witness :
  parseCSV (csv_text "name,note" (map (map csvEscape) [[Some (js "a,b"); Some (34 :: js "q" ++ [34; 44])]])) =
    [[js "name"; js "note"]; [js "a,b"; 34 :: js "q" ++ [34; 44]]].
Proof.
  apply (csv_parse_print "name,note" [[Some (js "a,b"); Some (34 :: js "q" ++ [34; 44])]]).
  - apply header_okb_ok. reflexivity.
  - repeat constructor; try (cbn; lia); apply has_unit_false; reflexivity.
Defined.

(** A vault exported as PWDnow CSV comes back through the PWDnow importer:
    one credential per credential, in order, with a new id, the name trimmed (or
    'Untitled'), address, user name, password and notes unchanged, the folder id as
    a tag and the one-time-password secret kept. *)
Theorem pwdnow_csv_roundtrip {J : JsCase} {U : JsUrl} uuids l :
  Forall csv_clean l →
  importPWDnowCSV uuids (exportToPWDnowCSV l) = mkImport (imap (λ i c, csv_image (uuids i) c) l) (js "pwdnow-csv").
Proof.
  intros Hl. unfold importPWDnowCSV, exportToPWDnowCSV, csv_text.
  pose (f := λ u (row : list jsstr), basic_credential (IdString u) (str_or (trim (nth 0 row [])) (js "Untitled")) (nth 1 row [])
     (nth 2 row []) (Some (nth 3 row [])) (js "active") (js "#22c55e") [] []
     (Some (if str_empty (nth 6 row []) then [] else [nth 6 row []])) (otp_of (nth 5 row [])) (Some (nth 4 row [])) None).
  rewrite (csvImport_rows uuids (js "name,url,username,password,notes,otp_secret,folder")
    (map (λ c, map csvEscape (pwdnow_cells c)) l) (map (λ c, map or_empty (pwdnow_cells c)) l) _ _ _
    (mkCols (Some 0) (Some 1) (Some 2) (Some 3) (Some 4) (Some 5) (Some 6))%nat f); [|by apply header_okb_ok|by apply pwdnow_rows|done|done|by vm_compute|].
  - f_equal. by rewrite imap_fmap.
  - intros row Hin. apply list_elem_of_fmap in Hin as (c & -> & _). split; [done|]. intros u. unfold row_credential, f, cell.
    cbn. rewrite andb_false_r. by destruct (c_folderId c).
Qed.

Lemma pwdnow_csv_roundtrip_witness :
  importPWDnowCSV (λ _, js "id") (exportToPWDnowCSV [demo_login]) = mkImport [csv_image (js "id") demo_login] (js "pwdnow-csv").
Proof. apply (pwdnow_csv_roundtrip (λ _, js "id") [demo_login]). exact demo_login_clean. Defined.

(** The importer the client picks for the CSV files it writes itself: the
    right one for ten of its thirteen formats; for its own format, RoboForm and
    Enpass it picks that of Chrome, Keeper and Passbolt. *)
Theorem csv_dispatch {J : JsCase} {U : JsUrl} l folders guids now :
  let pick text := choose_importer (first_line text) in
  (∀ text, exportToBitwardenCSV l folders = Some text → pick text = Bitwarden) ∧
  (∀ text, exportTo1PasswordCSV l = Some text → pick text = OnePassword) ∧
  (∀ text, exportToLastPass l = Some text → pick text = LastPass) ∧
  (∀ text, exportToKeeperCSV l folders = Some text → pick text = Keeper) ∧
  pick (exportToNordPass l) = NordPass ∧ pick (exportToChrome l) = Chrome ∧
  pick (exportToFirefox guids now l) = Firefox ∧ pick (exportToKeePassCSV l) = KeePass ∧
  pick (exportToZohoCSV l) = Zoho ∧ pick (exportToPassboltCSV l) = Passbolt ∧
  pick (exportToPWDnowCSV l) = Chrome ∧ pick (exportToRoboForm l folders) = Keeper ∧
  (∀ text, exportToEnpassCSV l = Some text → pick text = Passbolt).
Proof.
  cbv zeta. split_and!;
    try (intros text Ht; apply bind_Some in Ht as (rows & _ & [= <-]));
    unfold exportToNordPass, exportToChrome, exportToFirefox, exportToKeePassCSV, exportToZohoCSV, exportToPassboltCSV,
      exportToPWDnowCSV, exportToRoboForm, csv_text; rewrite chosen by (by vm_compute); by vm_compute.
Qed.

(** Two of the wrong choices lose data. A file the client wrote for RoboForm
    comes back with every password, name and address gone, and one it wrote in its
    own format comes back without the notes and the one-time-password secrets,
    although each row is imported. *)
Theorem csv_misread {J : JsCase} {U : JsUrl} uuids l folders :
  Forall csv_clean l → Forall (λ f, one_line (f_label f)) folders →
  let robo := credentials (importCSVFile uuids (exportToRoboForm l folders)) in
  let own := credentials (importCSVFile uuids (exportToPWDnowCSV l)) in
  length robo = length l ∧ length own = length l ∧
  Forall (λ c, c_password c = Some [] ∧ c_service c = js "Untitled" ∧ c_url c = []) robo ∧
  Forall (λ c, c_description c = None ∧ c_otpSecret c = None) own.
Proof.
  intros Hl Hf. cbv zeta. pose proof (csv_dispatch_robo l folders) as Hrobo. pose proof (csv_dispatch_own l) as Hown.
  unfold importCSVFile. rewrite Hrobo, Hown. cbn [run_importer].
  rewrite (robo_as_keeper uuids l folders Hl Hf), (own_as_chrome uuids l Hl). cbn [credentials].
  rewrite !length_imap. split_and!; try done; apply Forall_lookup; intros i c Hc; rewrite list_lookup_imap in Hc;
    destruct (l !! i); [|done| |done]; injection Hc as <-; done.
Qed.

Lemma csv_misread_witness :
  Forall (λ c, c_password c = Some [] ∧ c_service c = js "Untitled" ∧ c_url c = [])
    (credentials (importCSVFile (λ _, js "id") (exportToRoboForm [demo_login] []))).
Proof. apply (csv_misread (λ _, js "id") [demo_login] []); [exact demo_login_clean|constructor]. Defined.

End CsvSpec.
