(* ===== verification/Zip.v ===== *)
(** * The single-file ZIP archive of the 1PUX export ([web/src/utils/importExport.ts])

    [crc32], [createSingleFileZip] and the minimal reader [extractFromZip], with
    their theorems. *)
From S2P Require Import Prelude JsRuntime JsText.

(** ** CRC-32 *)

(** One of the eight steps for a byte. *)
Definition crc_step (c : Z) : Z := if band c 1 =? 0 then shr c 1 else bxor (shr c 1) 0xEDB88320.

Definition crc_byte (c b : Z) : Z := Nat.iter 8 crc_step (bxor c b).

Definition crc32 (data : bytes) : Z := shr (bxor (fold_left crc_byte data 0xFFFFFFFF) 0xFFFFFFFF) 0.

(** ** Writing *)

(** [DataView.setUint16] and [setUint32], little endian. *)
Definition le16 (n : Z) : bytes := [n mod 256; n / 256 mod 256].
Definition le32 (n : Z) : bytes := [n mod 256; n / 256 mod 256; n / 65536 mod 256; n / 16777216 mod 256].

(** The local time. *)
Record date := mkDate { year : Z; month : Z; day : Z; hours : Z; minutes : Z; seconds : Z }.

(** [month] counts from 0, as [getMonth] does. *)
Definition dosDate (d : date) : Z := bor (bor (shl (year d - 1980) 9) (shl (month d + 1) 5)) (day d).
Definition dosTime (d : date) : Z := bor (bor (shl (hours d) 11) (shl (minutes d) 5)) (sar (seconds d) 1).

(** The fields of the headers are adjacent: each is written where the one
    before it ends. *)
Definition local_header (now : date) (nameBytes content : bytes) : bytes :=
  le32 0x04034B50 ++ le16 20 ++ le16 0 ++ le16 0 ++ le16 (dosTime now) ++ le16 (dosDate now) ++
  le32 (crc32 content) ++ le32 (len content) ++ le32 (len content) ++ le16 (len nameBytes) ++ le16 0 ++ nameBytes.

Definition central_header (now : date) (nameBytes content : bytes) : bytes :=
  le32 0x02014B50 ++ le16 20 ++ le16 20 ++ le16 0 ++ le16 0 ++ le16 (dosTime now) ++ le16 (dosDate now) ++
  le32 (crc32 content) ++ le32 (len content) ++ le32 (len content) ++ le16 (len nameBytes) ++ le16 0 ++ le16 0 ++
  le16 0 ++ le16 0 ++ le32 0x20 ++ le32 0 ++ nameBytes.

Definition end_record (cdSize cdOffset : Z) : bytes :=
  le32 0x06054B50 ++ le16 0 ++ le16 0 ++ le16 1 ++ le16 1 ++ le32 cdSize ++ le32 cdOffset ++ le16 0.

Definition createSingleFileZip (now : date) (filename : jsstr) (content : bytes) : bytes :=
  let nameBytes := utf8_encode filename in
  let lfh := local_header now nameBytes content in
  let cdOffset := len lfh + len content in
  let cd := central_header now nameBytes content in
  lfh ++ content ++ cd ++ end_record (len cd) cdOffset.

(** ** Reading *)

(** A read outside the buffer throws. *)
Inductive zip_error := RangeError | OutOfFuel.

Definition get16 (d : bytes) (off : nat) : result zip_error Z :=
  match drop off d with a :: b :: _ => Ok (a + b * 256) | _ => Throw RangeError end.
Definition get32 (d : bytes) (off : nat) : result zip_error Z :=
  match drop off d with
  | a :: b :: c :: e :: _ => Ok (a + b * 256 + c * 65536 + e * 16777216)
  | _ => Throw RangeError
  end.

(** The scanning loop; every turn moves on by at least one byte. *)
Fixpoint zip_scan (fuel : nat) (data : bytes) (targetName : jsstr) (offset : nat) : result zip_error (option bytes) :=
  match fuel with
  | O => Throw OutOfFuel
  | S fuel =>
      if Z.of_nat offset <? len data - 4 then
        sig ← get32 data offset;
        if negb (sig =? 0x04034B50) then zip_scan fuel data targetName (S offset)
        else
          nameLen ← get16 data (offset + 26);
          extraLen ← get16 data (offset + 28);
          compSize ← get32 data (offset + 18);
          let name := utf8_decode (slice data (offset + 30) (offset + 30 + Z.to_nat nameLen)) in
          let fileOffset := (offset + 30 + Z.to_nat nameLen + Z.to_nat extraLen)%nat in
          if str_eqb name targetName then Ok (Some (slice data fileOffset (fileOffset + Z.to_nat compSize)))
          else zip_scan fuel data targetName (fileOffset + Z.to_nat compSize)
      else Ok None
  end.

Definition extractFromZip (data : bytes) (targetName : jsstr) : result zip_error (option bytes) :=
  zip_scan (S (length data)) data targetName 0.

(** ** Lemmas *)

(** The published check value. *)
Lemma crc32_check : crc32 (utf8_encode (js "123456789")) = 0xCBF43926.
Proof. reflexivity. Qed.

Lemma get32_le n pre post off :
  0 <= n < 2 ^ 32 → length pre = off → get32 (pre ++ le32 n ++ post) off = Ok n.
Proof. intros Hn <-. unfold get32. rewrite drop_app_length. cbn. f_equal. lia. Qed.

Lemma get16_le n pre post off :
  0 <= n < 2 ^ 16 → length pre = off → get16 (pre ++ le16 n ++ post) off = Ok n.
Proof. intros Hn <-. unfold get16. rewrite drop_app_length. cbn. f_equal. lia. Qed.

Lemma slice_mid {A} (pre mid post : list A) a b :
  length pre = a → b = (a + length mid)%nat → slice (pre ++ mid ++ post) a b = mid.
Proof. intros <- ->. unfold slice. rewrite drop_app_length, take_app_length' by lia. done. Qed.

(** The loop never runs out of fuel. *)
Lemma zip_scan_fuel fuel data name offset :
  (length data - offset < fuel)%nat → zip_scan fuel data name offset ≠ Throw OutOfFuel.
Proof.
  revert offset. induction fuel as [|fuel IH]; intros offset Hf; cbn [zip_scan].
  - lia.
  - destruct (Z.ltb_spec (Z.of_nat offset) (len data - 4)); [|done]. unfold len in *.
    unfold get32, get16. destruct (drop offset data) as [|? [|? [|? [|? ?]]]]; try done. cbn [mbind result_bind].
    destruct (negb _); [apply IH; lia|].
    destruct (drop (offset + 26) data) as [|? [|? ?]]; try done. cbn [mbind result_bind].
    destruct (drop (offset + 28) data) as [|? [|? ?]]; try done. cbn [mbind result_bind].
    destruct (drop (offset + 18) data) as [|? [|? [|? [|? ?]]]]; try done. cbn [mbind result_bind].
    destruct (str_eqb _ _); [done|]. apply IH. lia.
Qed.

(** The scan of a buffer that starts with a local header: [h] is the part
    between the signature and the sizes. *)
Lemma zip_scan_hit fuel h size2 nb content tail :
  length h = 14%nat → len nb < 2 ^ 16 → len content < 2 ^ 32 →
  let data := le32 0x04034B50 ++ h ++ le32 (len content) ++ size2 ++ le16 (len nb) ++ le16 0 ++ nb ++ content ++ tail in
  length size2 = 4%nat → zip_scan (S fuel) data (utf8_decode nb) 0 = Ok (Some content).
Proof.
  intros Hh Hln Hlc data Hs. assert (Hlen : Z.of_nat 0 < len data - 4).
  { unfold data, len. rewrite !length_app, Hh. change (length (le32 67324752)) with 4%nat. lia. }
  cbn [zip_scan]. rewrite (proj2 (Z.ltb_lt _ _)) by done.
  assert (E0 : get32 data 0 = Ok 0x04034B50) by (apply (get32_le _ []); [lia|done]).
  assert (E18 : get32 data (0 + 18) = Ok (len content)).
  { unfold data. rewrite (app_assoc (le32 _)). apply get32_le; [unfold len in *; lia|by rewrite length_app, Hh]. }
  assert (E26 : get16 data (0 + 26) = Ok (len nb)).
  { unfold data. rewrite !(app_assoc (le32 67324752)), !(app_assoc (le32 67324752 ++ h)), (app_assoc ((le32 67324752 ++ h) ++ _)).
    apply get16_le; [unfold len in *; lia|by rewrite !length_app, Hh, Hs]. }
  assert (E28 : get16 data (0 + 28) = Ok 0).
  { unfold data. rewrite !(app_assoc (le32 67324752)), !(app_assoc (le32 67324752 ++ h)), (app_assoc ((le32 67324752 ++ h) ++ _)),
      (app_assoc (((le32 67324752 ++ h) ++ _) ++ _)).
    apply get16_le; [lia|by rewrite !length_app, Hh, Hs]. }
  rewrite E0, E26, E28, E18. cbn [mbind result_bind]. change (negb (0x04034B50 =? 0x04034B50)) with false. cbn iota.
  set (h30 := le32 0x04034B50 ++ h ++ le32 (len content) ++ size2 ++ le16 (len nb) ++ le16 0).
  assert (Hd : data = h30 ++ nb ++ content ++ tail) by (unfold data, h30; by rewrite <- !app_assoc).
  assert (H30 : length h30 = 30%nat) by (unfold h30; by rewrite !length_app, Hh, Hs).
  assert (Hnm : slice data (0 + 30) (0 + 30 + Z.to_nat (len nb)) = nb)
    by (rewrite Hd; apply slice_mid; [done|unfold len; lia]).
  rewrite Hnm. unfold str_eqb. rewrite bool_decide_true by done.
  do 2 f_equal. rewrite Hd, (app_assoc h30). apply slice_mid; [rewrite length_app, H30|]; unfold len; lia.
Qed.

Module ZipSpec.

(** The archive reader gives back what the writer stored: for a file name the
    encoding can carry and content of less than 4 GiB, [extractFromZip] finds the
    file in the archive [createSingleFileZip] made and returns its content, byte for
    byte, whatever the time and the content. *)
Theorem zip_roundtrip now name content :
  transportable name = true → len (utf8_encode name) < 2 ^ 16 → len content < 2 ^ 32 →
  extractFromZip (createSingleFileZip now name content) name = Ok (Some content).
Proof.
  intros Hn Hln Hlc. unfold extractFromZip. rewrite <- (utf8_roundtrip name Hn) at 3.
  unfold createSingleFileZip. cbv zeta.
  generalize (central_header now (utf8_encode name) content ++ end_record (len (central_header now (utf8_encode name) content))
    (len (local_header now (utf8_encode name) content) + len content)) as tail. intros tail.
  unfold local_header. rewrite <- !app_assoc.
  match goal with |- zip_scan (S ?n) _ _ _ = _ => generalize n end. intros fuel.
  pose proof (zip_scan_hit fuel (le16 20 ++ le16 0 ++ le16 0 ++ le16 (dosTime now) ++ le16 (dosDate now) ++ le32 (crc32 content))
    (le32 (len content)) (utf8_encode name) content tail) as Hit.
  cbv zeta in Hit. rewrite <- !app_assoc in Hit. by apply Hit.
Qed.

Lemma zip_roundtrip_witness :
  extractFromZip (createSingleFileZip (mkDate 2024 0 31 12 30 59) (js "export.data") [1; 2; 3]) (js "export.data") = Ok (Some [1; 2; 3]).
Proof.
  apply (zip_roundtrip (mkDate 2024 0 31 12 30 59) (js "export.data") [1; 2; 3]);
    reflexivity.
Defined.

(** Reading an archive always ends: the scan stops or throws on every input,
    within one turn per byte. *)
Theorem zip_reader_total data name : extractFromZip data name ≠ Throw OutOfFuel.
Proof. apply zip_scan_fuel. lia. Qed.

End ZipSpec.
