(* ===== verification/Kdbx.v ===== *)
(** * KeePass databases ([web/src/utils/kdbxFormat.ts])

    The walk over an opened database.  Opening it is the library's work: the tree
    it gives is a parameter. *)
From S2P Require Import Prelude JsRuntime JsText Base64 Json JsonSpec JsDyn Types JsonFormats.

(** A field is a text, or a protected value with its clear text and what its
    [toString] gives. *)
Inductive KField := KPlain (s : jsstr) | KProtected (text shown : jsstr).

Record KEntry := mkKEntry { k_fields : gmap jsstr KField }.

#[local] Set Warnings "-register-all".
Inductive KGroup := mkKGroup (name : option jsstr) (entries : list KEntry) (groups : list KGroup).

Definition k_name (g : KGroup) := let 'mkKGroup n _ _ := g in n.
Definition k_entries (g : KGroup) := let 'mkKGroup _ es _ := g in es.
Definition k_groups (g : KGroup) := let 'mkKGroup _ _ gs := g in gs.

(** [Kdbx.load] and [getDefaultGroup]: the file and the passphrase; what it throws is
    an [Error] with a message. *)
Class KdbxLib := { kdbx_root : bytes → jsstr → result jsstr KGroup }.

(** [f.get(k)?.toString()] *)
Definition k_toString (e : KEntry) (k : string) : option jsstr :=
  match k_fields e !! js k with
  | Some (KPlain s) => Some s
  | Some (KProtected _ shown) => Some shown
  | None => None
  end.

(** The clear text of a protected password, the text of a plain one. *)
Definition k_password (e : KEntry) : jsstr :=
  match k_fields e !! js "Password" with
  | Some (KPlain s) => s
  | Some (KProtected text _) => text
  | None => []
  end.

(** [resultCredentials], [resultFolders] and [folderByName], and how many ids have
    been drawn. *)
Record kstate := mkK { ks_credentials : list json; ks_folders : list Folder; ks_byName : gmap jsstr jsstr; ks_drawn : nat }.

Definition k_start : kstate := mkK [] [] ∅ 0.

Section kdbx.
Context (uuids : nat → jsstr) (now : Z).

(** An id that is the empty text would not count as a hit. *)
Definition getOrCreateFolder (name : jsstr) (s : kstate) : jsstr * kstate :=
  match ks_byName s !! name with
  | Some (c :: hit) => (c :: hit, s)
  | _ =>
      let id := uuids (ks_drawn s) in
      (id, mkK (ks_credentials s) (ks_folders s ++ [mkFolder id name (Some []) (Some (js "Folder")) None]) (<[name := id]> (ks_byName s)) (S (ks_drawn s)))
  end.

Definition k_credential (e : KEntry) (folderId id : jsstr) : json :=
  JObj ([(js "id", JStr id); (js "service", JStr (str_or (or_empty (k_toString e "Title")) (js "Untitled")));
         (js "url", JStr (or_empty (k_toString e "URL"))); (js "username", JStr (or_empty (k_toString e "UserName")));
         (js "password", JStr (k_password e))]
        ++ match or_undefined (or_empty (k_toString e "Notes")) with Some d => [(js "description", JStr d)] | None => [] end
        ++ [(js "status", JStr (js "active")); (js "statusColor", JStr (js "#22c55e")); (js "logo", JStr []);
            (js "folderId", JStr folderId); (js "tags", JArr []); (js "lastUsed", JNum (Int 0));
            (js "createdAt", JNum (Int now)); (js "updatedAt", JNum (Int now))]).

Definition pushEntry (folderId : jsstr) (s : kstate) (e : KEntry) : kstate :=
  mkK (ks_credentials s ++ [k_credential e folderId (uuids (ks_drawn s))]) (ks_folders s) (ks_byName s) (S (ks_drawn s)).

(** [traverse]: a group without a name takes the one above it. *)
Fixpoint traverse (parentFolderName : jsstr) (s : kstate) (g : KGroup) : kstate :=
  match g with
  | mkKGroup gname entries groups =>
      let name := default parentFolderName gname in
      let '(folderId, s) := if str_empty name then ([], s) else getOrCreateFolder name s in
      let s := fold_left (pushEntry folderId) entries s in
      fold_left (traverse name) groups s
  end.

Definition walk (root : KGroup) : kstate :=
  fold_left (traverse []) (k_groups root) (fold_left (pushEntry []) (k_entries root) k_start).
End kdbx.

Definition BAD_MASTER : jsstr := js "Invalid master password for KeePass database.".

Section import.
Context `{JsCase} `{KdbxLib}.

(** The message of a thrown error as the caller sees it. *)
Definition kdbx_message (m : jsstr) : jsstr :=
  if str_eqb m (js "InvalidKey") || includes (js "invalid key") (toLowerCase m) || includes (js "password") (toLowerCase m)
  then BAD_MASTER else m.

Definition importKdbx (uuids : nat → jsstr) (now : Z) (buffer : bytes) (passphrase : jsstr) : dyn (Imported * list Folder) :=
  match kdbx_root buffer passphrase with
  | Ok root => let s := walk uuids now root in Ok (mkImported (ks_credentials s) "keepass-kdbx", ks_folders s)
  | Throw m => Throw (ErrorMsg (kdbx_message m))
  end.
End import.

(** ** What the walk does *)

(** The entries of a group in the order of the walk, each with the name of the folder
    it belongs to. *)
Fixpoint flat (parent : jsstr) (g : KGroup) : list (KEntry * jsstr) :=
  match g with
  | mkKGroup gname entries groups =>
      let name := default parent gname in
      map (λ e, (e, name)) entries ++ concat (map (flat name) groups)
  end.

Definition flat_root (root : KGroup) : list (KEntry * jsstr) :=
  map (λ e, (e, [])) (k_entries root) ++ concat (map (flat []) (k_groups root)).

(** [fid] is the id of the folder of this name; the empty name has none. *)
Definition in_folder (fs : list Folder) (name fid : jsstr) : Prop :=
  if str_empty name then fid = [] else ∃ f, f ∈ fs ∧ f_label f = name ∧ f_id f = fid.

(** The credential of an entry, in the folder of its name. *)
Definition placed (now : Z) (fs : list Folder) (en : KEntry * jsstr) (c : json) : Prop :=
  ∃ fid id, c = k_credential now en.1 fid id ∧ in_folder fs en.2 fid.

Definition id_of (c : json) : option json := prop "id" c.

Section walk_lemmas.
Context (uuids : nat → jsstr) (now : Z) (uuids_text : ∀ n, uuids n ≠ []).

Lemma KGroup_tree_ind (P : KGroup → Prop) :
  (∀ n es gs, Forall P gs → P (mkKGroup n es gs)) → ∀ g, P g.
Proof.
  intros Hstep. fix IH 1. intros [n es gs]. apply Hstep. induction gs as [|g gs IHgs]; constructor; [apply IH|exact IHgs].
Qed.

Lemma in_folder_mono fs more name fid : in_folder fs name fid → in_folder (fs ++ more) name fid.
Proof. unfold in_folder. destruct (str_empty name); [done|]. intros (f & ? & ?). exists f. set_solver. Qed.

Lemma placed_mono fs more en c : placed now fs en c → placed now (fs ++ more) en c.
Proof. intros (fid & id & Hc & Hin). exists fid, id. by split; [|apply in_folder_mono]. Qed.

(** The map of the names and the list of the folders agree, and every id drawn is
    used once. *)
Record k_inv (s : kstate) : Prop := {
  ki_named : ∀ name id, ks_byName s !! name = Some id → id ≠ [] ∧ ∃ f, f ∈ ks_folders s ∧ f_label f = name ∧ f_id f = id;
  ki_folder : ∀ f, f ∈ ks_folders s → is_Some (ks_byName s !! f_label f);
  ki_labels : NoDup (map f_label (ks_folders s));
  ki_ids : map (λ f, Some (JStr (f_id f))) (ks_folders s) ++ map id_of (ks_credentials s)
           ≡ₚ map (λ n, Some (JStr (uuids n))) (seq 0 (ks_drawn s));
}.

(** From [s] to [s'] the walk has added the entries [l]. *)
Record k_grows (s : kstate) (l : list (KEntry * jsstr)) (s' : kstate) : Prop := {
  kg_inv : k_inv s';
  kg_folders : ∃ more, ks_folders s' = ks_folders s ++ more;
  kg_credentials : ∃ new, ks_credentials s' = ks_credentials s ++ new ∧ Forall2 (placed now (ks_folders s')) l new;
}.

Lemma k_grows_refl s : k_inv s → k_grows s [] s.
Proof. intros Hs. split; [done|exists []; by rewrite app_nil_r|exists []; split; [by rewrite app_nil_r|constructor]]. Qed.

Lemma k_grows_trans s1 l1 s2 l2 s3 : k_grows s1 l1 s2 → k_grows s2 l2 s3 → k_grows s1 (l1 ++ l2) s3.
Proof.
  intros [_ [m1 E1] (n1 & C1 & F1)] [I3 [m2 E2] (n2 & C2 & F2)]. split; [done|exists (m1 ++ m2); by rewrite E2, E1, app_assoc|].
  exists (n1 ++ n2). split; [by rewrite C2, C1, app_assoc|]. apply Forall2_app; [|done].
  eapply Forall2_impl; [exact F1|]. intros. rewrite E2. by apply placed_mono.
Qed.

(** A loop whose every turn adds [f x] adds them all. *)
Lemma k_grows_fold {A} (step : kstate → A → kstate) (f : A → list (KEntry * jsstr)) xs s :
  k_inv s → (∀ x, x ∈ xs → ∀ s0, k_inv s0 → k_grows s0 (f x) (step s0 x)) → k_grows s (concat (map f xs)) (fold_left step xs s).
Proof.
  revert s. induction xs as [|x xs IH]; intros s Hs Hstep; [by apply k_grows_refl|]. cbn [map concat fold_left].
  assert (Hx : k_grows s (f x) (step s x)) by (apply Hstep; set_solver).
  eapply k_grows_trans; [exact Hx|]. apply IH; [apply Hx|]. intros. apply Hstep; set_solver.
Qed.

Lemma pushEntry_grows folderId name s e :
  k_inv s → in_folder (ks_folders s) name folderId → k_grows s [(e, name)] (pushEntry uuids now folderId s e).
Proof.
  intros [I1 I2 I3 I4] Hin. split; [split; [done..|]| exists []; by rewrite app_nil_r|].
  - cbn [pushEntry ks_folders ks_credentials ks_drawn]. rewrite map_app, seq_S, map_app, app_assoc, I4. done.
  - exists [k_credential now e folderId (uuids (ks_drawn s))]. split; [done|]. repeat constructor. by exists folderId, (uuids (ks_drawn s)).
Qed.

Lemma pushEntries_grows folderId name es s :
  k_inv s → in_folder (ks_folders s) name folderId →
  k_grows s (map (λ e, (e, name)) es) (fold_left (pushEntry uuids now folderId) es s).
Proof.
  revert s. induction es as [|e es IH]; intros s Hs Hin; [by apply k_grows_refl|]. cbn [map fold_left].
  assert (He := pushEntry_grows folderId name s e Hs Hin).
  apply (k_grows_trans _ [(e, name)] _ _ _ He). apply IH; [apply He|]. exact Hin.
Qed.

Lemma getOrCreateFolder_grows name s fid s' :
  k_inv s → str_empty name = false → getOrCreateFolder uuids name s = (fid, s') →
  k_grows s [] s' ∧ in_folder (ks_folders s') name fid.
Proof.
  intros Hs Hname E. destruct Hs as [I1 I2 I3 I4]. unfold getOrCreateFolder in E. unfold in_folder. rewrite Hname.
  destruct (ks_byName s !! name) as [id|] eqn:El.
  - destruct (I1 _ _ El) as (Hid & f & Hf & Hl & Hi). destruct id as [|c hit]; [done|]. injection E as <- <-.
    split; [by apply k_grows_refl|]. by exists f.
  - injection E as <- <-. set (f := mkFolder _ name _ _ _). split; [split|].
    + split; cbn [ks_byName ks_folders ks_credentials ks_drawn].
      * intros n id. destruct (decide (n = name)) as [->|Hn]; simplify_map_eq.
        -- intros [= <-]. split; [apply uuids_text|]. exists f. set_solver.
        -- intros Hl. destruct (I1 _ _ Hl) as (? & g & ? & ?). split; [done|]. exists g. set_solver.
      * intros g [Hg| ->%list_elem_of_singleton]%elem_of_app; [|by simplify_map_eq].
        destruct (decide (f_label g = name)) as [Hl|Hl]; [rewrite Hl|]; simplify_map_eq; [done|by apply I2].
      * rewrite map_app. apply NoDup_app. split; [done|]. split; [|apply NoDup_singleton].
        intros x (g & Hx & Hg)%list_elem_of_fmap Hn%list_elem_of_singleton. destruct (I2 g Hg) as [? Hg']. cbn in Hn. congruence.
      * rewrite map_app, seq_S, map_app. cbn [map f_id f]. rewrite <- I4.
        rewrite <- (app_assoc (map _ _)), (Permutation_app_comm [_]), app_assoc. done.
    + by exists [f].
    + exists []. split; [by rewrite app_nil_r|constructor].
    + exists f. cbn. set_solver.
Qed.

Lemma traverse_grows g parent s : k_inv s → k_grows s (flat parent g) (traverse uuids now parent s g).
Proof.
  revert parent s. induction g as [gname es gs IH] using KGroup_tree_ind. intros parent s Hs. cbn [flat traverse].
  set (name := default parent gname).
  assert (Hroot : ∀ fid s1, k_inv s1 → in_folder (ks_folders s1) name fid →
    k_grows s1 (map (λ e, (e, name)) es ++ concat (map (flat name) gs))
      (fold_left (traverse uuids now name) gs (fold_left (pushEntry uuids now fid) es s1))).
  { intros fid s1 H1 Hin. assert (He := pushEntries_grows fid name es s1 H1 Hin). eapply k_grows_trans; [exact He|].
    apply k_grows_fold; [apply He|]. intros g Hg s0 H0. rewrite Forall_forall in IH. by apply IH. }
  destruct (str_empty name) eqn:En; [apply Hroot; [done|unfold in_folder; by rewrite En]|].
  destruct (getOrCreateFolder uuids name s) as [fid s1] eqn:Eg.
  destruct (getOrCreateFolder_grows _ _ _ _ Hs En Eg) as [Hg Hin].
  apply (k_grows_trans _ [] _ _ _ Hg). apply Hroot; [apply Hg|done].
Qed.

Lemma k_inv_start : k_inv k_start.
Proof. split; cbn; [done|set_solver|constructor|done]. Qed.

Lemma walk_grows root : k_grows k_start (flat_root root) (walk uuids now root).
Proof.
  assert (He := pushEntries_grows [] [] (k_entries root) k_start k_inv_start eq_refl).
  eapply k_grows_trans; [exact He|]. apply k_grows_fold; [apply He|]. intros. by apply traverse_grows.
Qed.
End walk_lemmas.

(** A library that opens one database, whose groups share a name. *)
Definition toy_root : KGroup :=
  mkKGroup (Some (js "Root")) [mkKEntry {[js "Title" := KPlain (js "a")]}]
    [mkKGroup (Some (js "Work")) [mkKEntry {[js "Password" := KProtected (js "p") (js "x")]}]
       [mkKGroup None [mkKEntry ∅] []];
     mkKGroup (Some (js "Work")) [] [mkKGroup (Some []) [mkKEntry ∅] []]].
Definition toy_kdbx : KdbxLib :=
  {| kdbx_root _ pass := if str_eqb pass (js "right") then Ok toy_root else Throw (js "Error InvalidKey: wrong password") |}.
Definition toy_uuids (n : nat) : jsstr := replicate (S n) 97.

Module KdbxSpec.
Section claims.
Context `{JsCase} `{KdbxLib}.

(** Importing a database the library opens keeps every entry: the credentials are
    those of the entries in the order of the walk, each in the folder of its group's
    name (a group without one uses the name above it, entries of the root have none);
    groups of one name share one folder, and no id is used twice. *)
Theorem kdbx_import_complete uuids now buffer pass root :
  (∀ n, uuids n ≠ []) → Inj eq eq uuids → kdbx_root buffer pass = Ok root →
  ∃ im fs, importKdbx uuids now buffer pass = Ok (im, fs) ∧
    Forall2 (placed now fs) (flat_root root) (im_credentials im) ∧
    NoDup (map f_label fs) ∧ NoDup (map (λ f, Some (JStr (f_id f))) fs ++ map id_of (im_credentials im)).
Proof.
  intros Htext Hinj Hroot. unfold importKdbx. rewrite Hroot. do 2 eexists. split; [done|]. cbn [im_credentials].
  destruct (walk_grows uuids now Htext root) as [[_ _ Hl Hids] _ (new & Hc & Hnew)]. rewrite Hc in Hids |- *.
  split; [exact Hnew|]. split; [exact Hl|]. rewrite Hids. apply NoDup_fmap; [intros ? ? [= E]; by apply Hinj|apply NoDup_seq].
Qed.
End claims.

Lemma toy_uuids_inj : Inj eq eq toy_uuids.
Proof. intros a b Hab. apply (f_equal length) in Hab. unfold toy_uuids in Hab. rewrite !length_replicate in Hab. lia. Qed.

Lemma kdbx_import_complete_witness :
  ∃ im fs, importKdbx (H0 := toy_kdbx) toy_uuids 7 [] (js "right") = Ok (im, fs) ∧
    Forall2 (placed 7 fs) (flat_root toy_root) (im_credentials im) ∧ NoDup (map f_label fs) ∧
    NoDup (map (λ f, Some (JStr (f_id f))) fs ++ map id_of (im_credentials im)).
Proof. apply (kdbx_import_complete (H0 := toy_kdbx)); [done|apply toy_uuids_inj|reflexivity]. Defined.
End KdbxSpec.
