(* ===== verification/ImportFile.v ===== *)
(** * Import and export of files ([web/src/utils/importExport.ts])

    The table of the formats, the password-protected JSON export, the 1PUX archive
    and [importFromFile], which finds the importer for a file. *)
From S2P Require Import Prelude JsRuntime JsText Base64 Json JsonSpec JsDyn Types Csv JsonFormats XmlFormats Kdbx Zip P2WBuffer P2WFile.

(** ** Formats *)

(** Labels and MIME types are display texts and left out. *)
Record FormatDef := mkFormat {
  fmt_id : string; fmt_group : string; importExts : option (list string); canImport : bool; canExport : bool;
  exportExt : option string; exportNote : option string; needsPassphrase : bool }.

Definition FORMATS : list FormatDef :=
  [
   mkFormat "pwdnow-p2w" "pwdnow" (Some ["p2w"]) true true (Some "p2w") (Some "Post-quantum AES-256-GCM + XChaCha20 double encryption") true;
   mkFormat "pwdnow-json" "pwdnow" (Some ["json"]) true true (Some "json") None false;
   mkFormat "pwdnow-json-enc" "pwdnow" (Some ["json"]) true false None (Some "Import only - use .p2w for new exports") false;
   mkFormat "pwdnow-csv" "pwdnow" (Some ["csv"]) true true (Some "csv") None false;
   mkFormat "pwdnow-xml" "pwdnow" (Some ["xml"]) true true (Some "xml") (Some "KeePass-compatible XML") false;
   mkFormat "pwdnow-1pux" "pwdnow" None false true (Some "1pux") (Some "Importable into 1Password") false;
   mkFormat "bitwarden-json" "online" (Some ["json"]) true true (Some "json") None false;
   mkFormat "bitwarden-csv" "online" (Some ["csv"]) true true (Some "csv") None false;
   mkFormat "bitwarden-enc" "online" None false false None (Some "Export as unencrypted JSON/CSV first.") false;
   mkFormat "1password-csv" "online" (Some ["csv"]) true true (Some "csv") None false;
   mkFormat "1password-1pux" "online" (Some ["1pux"]) true false None None false;
   mkFormat "1password-1pif" "online" (Some ["1pif"]) false false None (Some "Legacy format. Export to CSV from 1Password first.") false;
   mkFormat "1password-agile" "online" (Some ["agilekeychain"]) false false None (Some "Legacy format. Export to CSV first.") false;
   mkFormat "1password-opvault" "online" (Some ["opvault"]) false false None (Some "Legacy format. Export to CSV first.") false;
   mkFormat "keeper-json" "online" (Some ["json"]) true true (Some "json") None false;
   mkFormat "keeper-csv" "online" (Some ["csv"]) true true (Some "csv") None false;
   mkFormat "dashlane-json" "online" (Some ["json"]) true true (Some "json") None false;
   mkFormat "dashlane-csv" "online" (Some ["csv"]) true false None None false;
   mkFormat "nordpass-csv" "online" (Some ["csv"]) true true (Some "csv") None false;
   mkFormat "lastpass-csv" "online" (Some ["csv"]) true true (Some "csv") None false;
   mkFormat "protonpass-json" "online" (Some ["json"]) true true (Some "json") None false;
   mkFormat "zoho-csv" "online" (Some ["csv"]) true true (Some "csv") None false;
   mkFormat "passbolt-csv" "online" (Some ["csv"]) true true (Some "csv") None false;
   mkFormat "padloc-json" "online" (Some ["json"]) true true (Some "json") None false;
   mkFormat "passky-json" "online" (Some ["json"]) true true (Some "json") None false;
   mkFormat "keepass-xml" "offline" (Some ["xml"]) true true (Some "xml") None false;
   mkFormat "keepass-csv" "offline" (Some ["csv"]) true true (Some "csv") None false;
   mkFormat "keepass-kdbx" "offline" (Some ["kdbx"]) true true (Some "xml") (Some "Supported natively. Exporting as KeePass XML.") true;
   mkFormat "keepass-kdb" "offline" (Some ["kdb"]) false true (Some "csv") (Some "Legacy format. Exporting as KeePass CSV instead.") false;
   mkFormat "roboform-csv" "offline" (Some ["csv"]) true true (Some "csv") None false;
   mkFormat "roboform-rfp" "offline" (Some ["rfp"; "rfo"]) false true (Some "csv") (Some "Proprietary RoboForm format. Export as CSV from RoboForm first.") false;
   mkFormat "enpass-json" "offline" (Some ["json"]) true false None None false;
   mkFormat "enpass-csv" "offline" (Some ["csv"]) true true (Some "csv") None false;
   mkFormat "enpass-enpassdb" "offline" (Some ["enpassdb"]) false true (Some "csv") (Some "SQLCipher encrypted. Exporting as Enpass CSV instead.") false;
   mkFormat "enpass-epb" "offline" (Some ["epb"]) false false None (Some "Enpass encrypted backup. Decrypt in Enpass first, then export as JSON or CSV.") false;
   mkFormat "buttercup-json" "offline" (Some ["json"]) true true (Some "json") (Some "Unzip .bcup before importing") false;
   mkFormat "buttercup-bcup" "offline" (Some ["bcup"]) false false None (Some "Encrypted Buttercup vault. Open in Buttercup, export as unencrypted JSON first.") false;
   mkFormat "passwordsafe-csv" "offline" (Some ["csv"]) true true (Some "csv") None false;
   mkFormat "passwordsafe-psafe3" "offline" (Some ["psafe3"]) false true (Some "csv") (Some "Exporting as Password Safe CSV instead.") false;
   mkFormat "passwordsafe-dat" "offline" (Some ["dat"]) false true (Some "csv") (Some "Legacy format. Exporting as Password Safe CSV instead.") false;
   mkFormat "stickypassword-xml" "offline" (Some ["xml"]) true true (Some "xml") None false;
   mkFormat "stickypassword-spdb" "offline" (Some ["spdb"]) false true (Some "xml") (Some "Exporting as Sticky Password XML instead.") false;
   mkFormat "msecure-csv" "offline" (Some ["csv"]) true false None None false;
   mkFormat "safeincloud-xml" "offline" (Some ["xml"]) true false None None false;
   mkFormat "norton-csv" "online" (Some ["csv"]) true true (Some "csv") None false;
   mkFormat "truekey-csv" "online" (Some ["csv"]) true false None None false;
   mkFormat "chrome-csv" "browser" (Some ["csv"]) true true (Some "csv") None false;
   mkFormat "firefox-csv" "browser" (Some ["csv"]) true true (Some "csv") None false;
   mkFormat "safari-csv" "browser" (Some ["csv"]) true false None None false
  ]%string.

Definition getFormat (id : jsstr) : option FormatDef := List.find (λ f, str_eqb (js (fmt_id f)) id) FORMATS.

Definition has_ext (ext : jsstr) (f : FormatDef) : bool :=
  match importExts f with Some l => existsb (λ e, str_eqb (js e) ext) l | None => false end.

(** [Array.from(new Set(l))] *)
Fixpoint unique (seen l : list string) : list string :=
  match l with
  | [] => []
  | x :: l' => if bool_decide (x ∈ seen) then unique seen l' else x :: unique (x :: seen) l'
  end.

Definition supportedExts : list string := unique [] (concat (map (λ f, default [] (importExts f)) (List.filter canImport FORMATS))).

(** ** The password-protected JSON export *)

(** Key derivation (PBKDF2 with SHA-256; [iterations] is the value passed, which may be
    refused) and AES-GCM of the browser. *)
Class ExportCrypto := {
  ex_derive : bytes → bytes → json → option bytes;   (* passphrase, salt, iterations *)
  ex_seal : bytes → bytes → bytes → bytes;           (* key, iv, plaintext *)
  ex_open : bytes → bytes → bytes → option bytes;    (* key, iv, ciphertext *)
}.

Class ExportCryptoLaws (C : ExportCrypto) := {
  ex_derive_ok p s : is_Some (ex_derive p s (JNum (Int 600000)));
  ex_open_seal k iv p : Bytes p → ex_open k iv (ex_seal k iv p) = Some p;
  ex_seal_bytes k iv p : Bytes p → Bytes (ex_seal k iv p);
}.

Definition or_throw {A} (e : js_error) (o : option A) : dyn A := match o with Some x => Ok x | None => Throw e end.

Section encrypted.
Context `{JsFloat} `{ExportCrypto}.

(** The engine refuses a call with more than [max_args] arguments. *)
Definition exportToPWDnowEncrypted (max_args : Z) (salt iv : bytes) (now : jsstr) (credentials folders : list json) (passphrase : jsstr)
    : dyn jsstr :=
  let plaintext := buildPWDnowPayload now credentials folders in
  key ← or_throw OperationError (ex_derive (utf8_encode passphrase) salt (JNum (Int 600000)));
  let ct := ex_seal key iv (utf8_encode plaintext) in
  _ ← throw_if (len ct >? max_args) JsDyn.RangeError;
  Ok (stringify_2 (obj_ [("encrypted", JBool true); ("app", JStr (js "PWDnow")); ("kdf", JStr (js "pbkdf2-sha256"));
    ("iterations", JNum (Int 600000)); ("salt", JStr (bytesToHex salt)); ("iv", JStr (bytesToHex iv));
    ("ciphertext", JStr (btoa ct))]%string)).

Definition isEncryptedPWDnow (text : jsstr) : bool :=
  match parse text with
  | Some v => is_true (prop "encrypted" v) && bool_decide (prop "app" v = Some (JStr (js "PWDnow")))
  | None => false
  end.

(** A unit [.] matches. *)
Definition is_dot (c : Z) : bool := negb (existsb (Z.eqb c) [10; 13; 0x2028; 0x2029]).

(** [h.match(/../g)] *)
Fixpoint dot_pairs (h : jsstr) : list jsstr :=
  match h with
  | a :: t => match t with
              | b :: h' => if is_dot a && is_dot b then [a; b] :: dot_pairs h' else dot_pairs t
              | [] => []
              end
  | [] => []
  end.

Fixpoint take_hex (s : jsstr) : jsstr := match s with c :: s' => if is_hex c then c :: take_hex s' else [] | [] => [] end.

(** [parseInt(x, 16)]: white space and a sign, [0x], then the longest run of digits;
    [None] is [NaN]. *)
Definition parse_int_hex (x : jsstr) : option Z :=
  let s := trim_start x in
  let '(neg, s) := match s with c :: s' => if c =? 45 then (true, s') else if c =? 43 then (false, s') else (false, s) | [] => (false, s) end in
  let s := match s with z :: t :: s' => if (z =? 48) && (ascii_lower_unit t =? 120) then s' else s | _ => s end in
  match take_hex s with
  | [] => None
  | ds => let v := fold_left (λ a c, a * 16 + hex_value c) ds 0 in Some (if neg then - v else v)
  end.

(** The element a number becomes in a [Uint8Array]; [NaN] becomes 0. *)
Definition to_uint8 (v : option Z) : Z := default 0 v mod 256.

(** Only texts have the method [match], and a text without a pair gives [null]. *)
Definition fromHex (h : option json) : dyn bytes :=
  match h with
  | Some (JStr h) => match dot_pairs h with [] => Throw TypeError | l => Ok (map (λ x, to_uint8 (parse_int_hex x)) l) end
  | _ => Throw TypeError
  end.

Definition decryptPWDnowExport (text passphrase : jsstr) : dyn jsstr :=
  d ← parse_json text;
  salt ← get d "salt";
  salt ← fromHex salt;
  iterations ← get_or d "iterations" (JNum (Int 600000));
  key ← or_throw OperationError (ex_derive (utf8_encode passphrase) salt iterations);
  iv ← get d "iv";
  iv ← fromHex iv;
  ct ← get d "ciphertext";
  ct ← or_throw InvalidCharacter (atob (match ct with Some v => to_text v | None => js "undefined" end));
  plain ← or_throw OperationError (ex_open key iv ct);
  Ok (utf8_decode plain).
End encrypted.

Definition exportToPWDnow1PUX `{JsUrl} (now : date) (uuids : nat → jsstr) (seconds : Z) (l : list Credential) (folders : list Folder)
    : dyn bytes :=
  data ← data_1pux uuids seconds l folders;
  Ok (createSingleFileZip now (js "export.data") (utf8_encode (stringify_2 data))).

(** ** Import of a file *)

Record File := mkFile { file_name : jsstr; file_bytes : bytes }.
Definition file_text (f : File) : jsstr := utf8_decode (file_bytes f).

Inductive file_error := Js (e : js_error) | P2W (e : p2w_error) | Unzip (e : zip_error).

Definition lift {E A} (f : E → file_error) (r : result E A) : result file_error A :=
  match r with Ok x => Ok x | Throw e => Throw (f e) end.
Definition fail_with {A} (msg : jsstr) : result file_error A := Throw (Js (ErrorMsg msg)).

(** Objects of a JSON or XML file (with folders from a KeePass database) or the typed
    records of a CSV or .p2w file. *)
Inductive FileImport :=
  | Objects (r : Imported) (folders : option (list Folder))
  | Records (r : ImportResult).

Definition ENCRYPTED_PWDNOW : jsstr := js "ENCRYPTED_PWDNOW".

(** [k in obj] throws when [obj] is no object; the keys asked for are on no
    prototype. *)
Definition no_object_at_all (obj : json) : bool := match obj with JObj _ | JArr _ => false | _ => true end.
Definition has_key (k : string) (obj : json) : bool := bool_decide (is_Some (prop k obj)).

(** [v?.[0]?.[k]] for an array *)
Definition first_has (k : string) (v : option json) : option json :=
  match v with Some (JArr (x :: _)) => prop k x | _ => None end.
Definition is_array (v : option json) : bool := match v with Some (JArr _) => true | _ => false end.
Definition is_plain_object (v : option json) : bool := match v with Some (JObj _ | JNull) => true | _ => false end.

Inductive json_importer :=
  | JEncrypted | JPWDnow | JBitwarden | JDashlane | JKeeper | JProton | JPadloc | JPassky | JEnpass | J1PUX | JButtercup.

(** The order in which the shapes are tried. *)
Definition choose_json (obj : json) : dyn json_importer :=
  enc ← get obj "encrypted";
  app ← get obj "app";
  let pwdnow := bool_decide (app = Some (JStr (js "PWDnow"))) in
  if is_true enc && pwdnow then Ok JEncrypted
  else if pwdnow then Ok JPWDnow
  else
    _ ← throw_if (no_object_at_all obj) TypeError;
    let has (k : string) := has_key k obj in
    Ok (if has "items"%string && has "encrypted"%string then JBitwarden
        else if has "credentials"%string && is_array (prop "credentials" obj) && bool_decide (is_Some (first_has "url" (prop "credentials" obj))) then JDashlane
        else if has "records"%string || has "shared_folders"%string then JKeeper
        else if has "vaults"%string && is_plain_object (prop "vaults" obj) then JProton
        else if has "vaults"%string && is_array (prop "vaults" obj) && truthy (first_has "items" (prop "vaults" obj)) then JPadloc
        else if has "passwords"%string && is_array (prop "passwords" obj) then JPassky
        else if has "items"%string && is_array (prop "items" obj) then JEnpass
        else if has "accounts"%string then J1PUX
        else if has "groups"%string then JButtercup
        else JPWDnow).

Definition INVALID_JSON : jsstr := js "Invalid JSON file.".
Definition NOT_P2W : jsstr := js "Not a valid .p2w file - magic bytes missing.".
Definition NO_EXPORT_DATA : jsstr := js "Could not read export.data from .1pux file.".

Section import.
Context `{JsFloat} `{JsCase} `{JsUrl} `{C : P2WCrypto} `{ExportCrypto} `{KdbxLib} (uuids : nat → jsstr) (now : Z).

(** [(file.name.split('.').pop() ?? '').toLowerCase()] *)
Definition ext_of (name : jsstr) : jsstr := toLowerCase (default [] (last (split_unit 46 name))).

Definition run_json (i : json_importer) (text : jsstr) (passphrase : jsstr) : dyn Imported :=
  match i with
  | JEncrypted =>
      if str_empty passphrase then Throw (ErrorMsg ENCRYPTED_PWDNOW)
      else plain ← decryptPWDnowExport text passphrase; importPWDnow uuids plain
  | JPWDnow => importPWDnow uuids text
  | JBitwarden => importBitwardenJSON uuids text
  | JDashlane => importDashlaneJSON uuids text
  | JKeeper => importKeeperJSON uuids text
  | JProton => importProtonPass uuids text
  | JPadloc => importPadloc uuids text
  | JPassky => importPassky uuids text
  | JEnpass => importEnpassJSON uuids text
  | J1PUX => import1PUX uuids text
  | JButtercup => importButtercup uuids text
  end.

Definition import_json (text passphrase : jsstr) : dyn Imported :=
  obj ← or_throw (ErrorMsg INVALID_JSON) (parse text);
  i ← choose_json obj;
  run_json i text passphrase.

Definition is_safe_in_cloud (text : jsstr) : bool :=
  bool_decide (is_Some (find_tag (js "<database") text)) && bool_decide (is_Some (find_tag (js "<card") text)).

Definition UNSUPPORTED : jsstr :=
  js "Unsupported file format. Supported: " ++ toUpperCase (join_unit (js ", ") (map js supportedExts)) ++ js ".".

(** A missing passphrase is the empty text. *)
Definition importFromFile (file : File) (passphrase : jsstr) : result file_error FileImport :=
  let ext := ext_of (file_name file) in
  let named (s : string) := str_eqb ext (js s) in
  let text := file_text file in
  let objects (r : dyn Imported) := im ← lift Js r; Ok (Objects im None) in
  match List.find (has_ext ext) FORMATS with
  | Some {| canImport := false; exportNote := Some note |} => fail_with (js "Unsupported file format. " ++ js note)
  | _ =>
      if named "p2w"%string then
        if negb (isP2WFile (file_bytes file)) then fail_with NOT_P2W
        else if str_empty passphrase then fail_with ENCRYPTED_PWDNOW
        else '(credentials, _) ← lift P2W (importFromP2W uuids passphrase (file_bytes file));
             Ok (Records (mkImport credentials (js "pwdnow-p2w")))
      else if named "kdbx"%string then
        if str_empty passphrase then fail_with ENCRYPTED_PWDNOW
        else '(im, folders) ← lift Js (importKdbx uuids now (file_bytes file) passphrase); Ok (Objects im (Some folders))
      else if named "xml"%string then
        Ok (Objects (if is_safe_in_cloud text then importSafeInCloud uuids text else importKeePassXML uuids text) None)
      else if named "1pux"%string then
        data ← lift Unzip (extractFromZip (file_bytes file) (js "export.data"));
        match data with
        | None => fail_with NO_EXPORT_DATA
        | Some data => objects (import1PUX uuids (utf8_decode data))
        end
      else if named "json"%string then objects (import_json text passphrase)
      else if named "csv"%string then Ok (Records (importCSVFile uuids text))
      else fail_with UNSUPPORTED
  end.
End import.
