(* ===== verification/ReimportSpec.v ===== *)
(** * Exports read back

    What [importFromFile] makes of every JSON file, 1PUX archive and protected file
    the client exports. *)
From S2P Require Import Prelude JsRuntime JsText Base64 Json JsonSpec JsObject CryptoUtils JsDyn Types Csv JsonFormats XmlFormats XmlSpec Kdbx Zip P2WBuffer P2WFile ImportFile.

(** ** Values the exporters write *)

(** Different keys, none an array index. *)
Definition keys_ok (ks : list string) : bool :=
  bool_decide (NoDup (map js ks)) && forallb (λ k, bool_decide (index_of_key (js k) = None) && text_ok (js k)) ks.

Lemma json_ok_obj {JF : JsFloat} fields : keys_ok (map fst fields) = true → json_ok (obj_ fields) = forallb (λ kv, json_ok kv.2) fields.
Proof.
  unfold keys_ok, obj_. intros [Hn%bool_decide_eq_true Hk]%andb_prop. cbn [json_ok]. rewrite bool_decide_true.
  - cbn [andb]. clear Hn. induction fields as [|[k v] fields IH]; [done|]. cbn [map forallb fst snd] in *.
    apply andb_prop in Hk as [[_ Ht]%andb_prop Hk]. rewrite Ht. cbn [andb]. f_equal. by apply IH.
  - apply build_keys.
    + by rewrite map_map in Hn |- *.
    + rewrite List.Forall_forall. rewrite forallb_forall in Hk. intros [k v] ([k' v'] & [= <- <-] & Hin)%in_map_iff.
      specialize (Hk k' (in_map fst _ _ Hin)). by apply andb_prop in Hk as [?%bool_decide_eq_true _].
Qed.

(** The texts of a credential are texts of the language. *)
Definition texts_ok (c : Credential) : bool :=
  text_ok (c_service c) && text_ok (c_url c) && text_ok (c_username c) && text_ok (or_empty (c_password c)) && text_ok (or_empty (c_description c))
  && text_ok (or_empty (c_otpSecret c)) && text_ok (c_folderId c).
Definition folder_ok (f : Folder) : bool := text_ok (f_id f) && text_ok (f_label f).

(** The URL functions on the link the exporters write: a secret of letters and digits
    is read back, and the link is a text. *)
Definition plain_secret (s : jsstr) : bool := forallb (λ c, is_digit c || is_upper c || is_lower c) s.

(** The units [encodeURIComponent] leaves or writes. *)
Definition uri_unit (c : Z) : bool :=
  is_digit c || is_upper c || is_lower c || existsb (Z.eqb c) [45; 95; 46; 33; 126; 42; 39; 40; 41; 37].

Class JsUrlLaws (U : JsUrl) := {
  secret_read_back service secret uri :
    plain_secret secret = true → buildOtpUri service secret = Some uri → url_secret uri = Some secret;
  encoded_units s e : encodeURIComponent s = Some e → forallb uri_unit e = true;
}.

Lemma uri_unit_range c : uri_unit c = true → 33 <= c <= 126 ∧ c ≠ 38.
Proof.
  unfold uri_unit, is_digit, is_upper, is_lower. cbn [existsb]. rewrite orb_false_r. intros Hc.
  repeat (apply orb_prop in Hc as [Hc|Hc]); to_prop; lia.
Qed.

Lemma encoded_text {U : JsUrl} {UL : JsUrlLaws U} s e : encodeURIComponent s = Some e → text_ok e = true.
Proof.
  intros He%encoded_units. unfold text_ok. rewrite forallb_forall in *. intros c Hc. specialize (He c Hc). apply uri_unit_range in He.
  apply andb_true_intro. lia.
Qed.

Lemma text_ok_app a b : text_ok (a ++ b) = text_ok a && text_ok b.
Proof. apply forallb_app. Qed.

Lemma folder_label_ok folders id : forallb folder_ok folders = true → text_ok (folder_label folders id) = true.
Proof.
  intros Hf. unfold folder_label. destruct (str_empty id); [done|]. destruct (List.find _ _) as [f|] eqn:E; [|done].
  apply List.find_some in E as [Hin _]. rewrite forallb_forall in Hf. unfold folder_ok in Hf.
  apply list_elem_of_In, elem_of_reverse, list_elem_of_In, Hf in Hin. by to_prop.
Qed.

Lemma includes_skip p a s : 38 ∉ a → includes (38 :: p) (a ++ s) = includes (38 :: p) s.
Proof.
  induction a as [|c a IH]; intros Hn; [done|]. cbn [app includes]. rewrite XmlSpec.starts_with_mismatch by set_solver.
  cbn [orb]. apply IH. set_solver.
Qed.

Section otp.
Context {JF : JsFloat} {U : JsUrl} {UL : JsUrlLaws U} {J : JsCase}.

Lemma otp_uri_ok c d j : otp_uri c d = Ok j → text_ok (or_empty (c_otpSecret c)) = true → json_ok d = true → json_ok j = true.
Proof.
  unfold otp_uri. destruct (c_otpSecret c) as [[|o s]|]; [by intros [= ->]| |by intros [= ->]].
  destruct (buildOtpUri _ _) as [u|] eqn:E; [|done]. intros [= <-] Hs _. unfold buildOtpUri in E.
  destruct (encodeURIComponent _) as [e|] eqn:Ee; [|done]. cbn in E. injection E as <-. cbn [json_ok or_empty] in *.
  apply encoded_text in Ee.
  change (text_ok (js "otpauth://totp/" ++ e ++ js "?secret=" ++ (o :: s) ++ js "&digits=6&period=30") = true).
  by rewrite !text_ok_app, Ee, Hs.
Qed.

(** The text an importer reads where the exporter put the link. *)
Definition link_text (j : json) : jsstr := to_text (nullish (Some j) (JStr [])).

Lemma otp_uri_shape c d j :
  otp_uri c d = Ok j → j = d ∧ or_empty (c_otpSecret c) = [] ∨
  ∃ x u, j = JStr (x :: u) ∧ str_empty (or_empty (c_otpSecret c)) = false ∧ buildOtpUri (c_service c) (or_empty (c_otpSecret c)) = Some (x :: u).
Proof.
  unfold otp_uri. destruct (c_otpSecret c) as [[|o s]|]; intros Hj; try (left; by injection Hj). right.
  destruct (buildOtpUri _ _) as [u|] eqn:E; [|done]. injection Hj as <-. unfold buildOtpUri in E.
  destruct (encodeURIComponent _) as [e|]; [|done]. injection E as <-. by do 2 eexists.
Qed.

Lemma otp_uri_read c d j : otp_uri c d = Ok j → d = JNull ∨ d = JStr [] → plain_secret (or_empty (c_otpSecret c)) = true →
  otp_of (link_text j) = or_undefined (or_empty (c_otpSecret c)).
Proof.
  intros [[-> ->]|(x & u & -> & Hne & E)]%otp_uri_shape Hd Hs; [by destruct Hd as [-> | ->]|].
  unfold otp_of, link_text, extractOtpSecret. cbn [nullish to_text str_empty]. rewrite (secret_read_back _ _ _ Hs E).
  by destruct (or_empty (c_otpSecret c)).
Qed.

(** The link holds no entity. *)
Lemma link_no_entities service secret uri :
  plain_secret secret = true → buildOtpUri service secret = Some uri → no_entities uri = true.
Proof.
  unfold buildOtpUri. intros Hs E. destruct (encodeURIComponent service) as [e|] eqn:Ee; [|done]. cbn in E. injection E as <-.
  assert (H38 : 38 ∉ js "otpauth://totp/" ++ e ++ js "?secret=" ++ secret).
  { repeat rewrite not_elem_of_app. repeat split; [vm_compute; set_solver| |vm_compute; set_solver|].
    - apply encoded_units in Ee. rewrite forallb_forall in Ee. intros Hin%list_elem_of_In%Ee%uri_unit_range. lia.
    - unfold plain_secret in Hs. rewrite forallb_forall in Hs. by intros Hin%list_elem_of_In%Hs. }
  assert (Heq : js "otpauth://totp/" ++ e ++ js "?secret=" ++ secret ++ js "&digits=6&period=30"
    = (js "otpauth://totp/" ++ e ++ js "?secret=" ++ secret) ++ js "&digits=6&period=30") by (by rewrite <- !app_assoc).
  change (no_entities (js "otpauth://totp/" ++ e ++ js "?secret=" ++ secret ++ js "&digits=6&period=30") = true). rewrite Heq.
  revert H38. generalize (js "otpauth://totp/" ++ e ++ js "?secret=" ++ secret). clear. intros pre H38.
  unfold no_entities. cbn [forallb].
  change (js "&lt;") with (38 :: js "lt;"). change (js "&gt;") with (38 :: js "gt;").
  change (js "&quot;") with (38 :: js "quot;"). change (js "&apos;") with (38 :: js "apos;").
  rewrite !includes_skip by done. reflexivity.
Qed.
End otp.

(** ** What is kept *)

Inductive json_format := FBitwarden | FKeeper | FDashlane | FProton | FPadloc | FPassky | FButtercup.

Definition otp_link {U : JsUrl} (c : Credential) : option jsstr :=
  match otp_uri c (JStr []) with Ok j => or_undefined (link_text j) | Throw _ => None end.

Definition kept {U : JsUrl} (f : json_format) (c : Credential) : jsstr → json :=
  let secret := or_undefined (or_empty (c_otpSecret c)) in
  let notes := or_undefined (or_empty (c_description c)) in
  let make service := make_credential service (JStr (c_url c)) (c_username c) (or_empty (c_password c)) in
  match f with
  | FBitwarden | FDashlane | FProton => make (c_service c) notes secret
  | FKeeper => make (c_service c) notes (otp_link c)
  | FPadloc => make (c_service c) None secret
  | FPassky => make (c_url c) notes None
  | FButtercup => make (c_service c) None None
  end.

Section items.
Context {JF : JsFloat} {U : JsUrl} {UL : JsUrlLaws U} {J : JsCase}.

Lemma bitwarden_read uuids folders n c j :
  plain_secret (or_empty (c_otpSecret c)) = true → bitwarden_item uuids folders n c = Ok j → item_bitwarden j = Ok [kept FBitwarden c].
Proof.
  unfold bitwarden_item. intros Hs Hj. destruct (otp_uri c JNull) as [totp|] eqn:E; [|done]. injection Hj as <-.
  apply otp_uri_read in E; [|by left|done]. unfold kept. rewrite <- E. destruct (c_url c), (c_description c); reflexivity.
Qed.

Lemma keeper_read folders c j : keeper_record folders c = Ok j → item_keeper j = Ok [kept FKeeper c].
Proof.
  unfold keeper_record, kept, otp_link. intros Hj. destruct (otp_uri c (JStr [])) as [totp|] eqn:E; [|done]. injection Hj as <-.
  destruct (otp_uri_shape _ _ _ E) as [[-> _]|(x & u & -> & _)]; reflexivity.
Qed.

Lemma dashlane_read c : item_dashlane (dashlane_item c) = Ok [kept FDashlane c].
Proof. unfold kept, dashlane_item, opt_text. destruct (or_empty (c_otpSecret c)); reflexivity. Qed.

Lemma proton_read c j :
  plain_secret (or_empty (c_otpSecret c)) = true → proton_item c = Ok j → item_proton j = Ok [kept FProton c].
Proof.
  unfold proton_item. intros Hs Hj. destruct (otp_uri c (JStr [])) as [totp|] eqn:E; [|done]. injection Hj as <-.
  apply otp_uri_read in E; [|by right|done]. unfold kept. rewrite <- E. destruct (c_url c); reflexivity.
Qed.

Lemma passky_read c : item_passky (passky_item c) = Ok [kept FPassky c].
Proof. reflexivity. Qed.

Lemma buttercup_read folders c : entry_buttercup (buttercup_entry folders c) = Ok [kept FButtercup c].
Proof. reflexivity. Qed.

Ltac eval_names :=
  cbv zeta;
  repeat match goal with
         | |- context [str_eqb (js ?a) (js ?b)] =>
             let r := eval vm_compute in (str_eqb (js a) (js b)) in
             replace (str_eqb (js a) (js b)) with r by (vm_compute; reflexivity)
         end;
  cbn [orb andb negb].

(** One field of a Padloc item. *)
Lemma padloc_step name v t fields a low :
  toLowerCase (js name) = low →
  padloc_fields (padloc_field name (JStr v) t :: fields) a
  = let named s := str_eqb low (js s) in
    padloc_fields fields
      (if named "username"%string || named "email"%string then mkFound v (fd_password a) (fd_url a) (fd_otp a)
       else if named "password"%string then mkFound (fd_username a) v (fd_url a) (fd_otp a)
       else if named "url"%string || named "website"%string then mkFound (fd_username a) (fd_password a) v (fd_otp a)
       else if named "otp"%string || named "totp"%string then mkFound (fd_username a) (fd_password a) (fd_url a) v
       else a).
Proof. intros <-. reflexivity. Qed.

Lemma padloc_fields_read c otp :
  otp_uri c (JStr []) = Ok otp →
  padloc_fields (padloc_fields_of c otp) nothing_found = Ok (mkFound (c_username c) (or_empty (c_password c)) (c_url c) (link_text otp)).
Proof.
  intros E. unfold padloc_fields_of, opt_text. cbn [app].
  rewrite (padloc_step _ _ _ _ _ (js "username")) by (by apply toLowerCase_ascii). eval_names.
  rewrite (padloc_step _ _ _ _ _ (js "password")) by (by apply toLowerCase_ascii). eval_names.
  rewrite (padloc_step _ _ _ _ _ (js "url")) by (by apply toLowerCase_ascii). eval_names.
  destruct (otp_uri_shape _ _ _ E) as [[-> ->]|(x & u & -> & -> & _)]; [reflexivity|]. cbn [str_empty].
  rewrite (padloc_step _ _ _ _ _ (js "otp")) by (by apply toLowerCase_ascii). eval_names. reflexivity.
Qed.

Lemma padloc_read folders c j :
  plain_secret (or_empty (c_otpSecret c)) = true → padloc_item folders c = Ok j → item_padloc j = Ok [kept FPadloc c].
Proof.
  unfold padloc_item. intros Hs Hj. destruct (otp_uri c (JStr [])) as [otp|] eqn:E; [|done]. injection Hj as <-.
  pose proof (otp_uri_read _ _ _ E (or_intror eq_refl) Hs) as Er. unfold kept. rewrite <- Er.
  transitivity (a ← padloc_fields (padloc_fields_of c otp) nothing_found;
    Ok [make_credential (c_service c) (JStr (fd_url a)) (fd_username a) (fd_password a) None (otp_of (fd_otp a))]); [reflexivity|].
  by rewrite (padloc_fields_read c otp E).
Qed.
End items.

(** ** The items are values of the language *)

Section items_ok.
Context {JF : JsFloat} {U : JsUrl} {UL : JsUrlLaws U}.

Lemma text_ok_opt s : text_ok (or_empty s) = true → json_ok (opt_text s) = true.
Proof. done. Qed.

Lemma label_list_ok folders c : forallb folder_ok folders = true → json_ok (label_list folders c) = true.
Proof. intros. unfold label_list. destruct (str_empty _); [done|]. cbn. by rewrite folder_label_ok. Qed.

Lemma texts_ok_parts c :
  texts_ok c = true →
  text_ok (c_service c) = true ∧ text_ok (c_url c) = true ∧ text_ok (c_username c) = true ∧ text_ok (or_empty (c_password c)) = true ∧
  text_ok (or_empty (c_description c)) = true ∧ text_ok (or_empty (c_otpSecret c)) = true ∧ text_ok (c_folderId c) = true.
Proof. unfold texts_ok. intros. by to_prop. Qed.
End items_ok.

(** The value is a literal over texts that are known to be good. *)
Ltac json_literal :=
  repeat first
    [ reflexivity | assumption
    | rewrite json_ok_obj by reflexivity; cbn [map forallb fst snd]
    | lazymatch goal with |- _ && _ = true => apply andb_true_intro; split end
    | by apply label_list_ok
    | by apply folder_label_ok
    | progress cbn [json_ok forallb opt_text]
    | case_match ].

Section items_ok2.
Context {JF : JsFloat} {U : JsUrl} {UL : JsUrlLaws U}.

Lemma keeper_ok folders c j : texts_ok c = true → forallb folder_ok folders = true → keeper_record folders c = Ok j → json_ok j = true.
Proof.
  intros (? & ? & ? & ? & ? & ? & ?)%texts_ok_parts ? Hj. unfold keeper_record in Hj.
  destruct (otp_uri c (JStr [])) as [totp|] eqn:E; [|done]. injection Hj as <-. apply otp_uri_ok in E; [|done..].
  json_literal.
Qed.

Lemma dashlane_ok c : texts_ok c = true → json_ok (dashlane_item c) = true.
Proof. intros (? & ? & ? & ? & ? & ? & ?)%texts_ok_parts. unfold dashlane_item. json_literal. Qed.

Lemma passky_ok c : texts_ok c = true → json_ok (passky_item c) = true.
Proof. intros (? & ? & ? & ? & ? & ? & ?)%texts_ok_parts. unfold passky_item. json_literal. Qed.

Lemma buttercup_ok folders c : texts_ok c = true → forallb folder_ok folders = true → json_ok (buttercup_entry folders c) = true.
Proof. intros (? & ? & ? & ? & ? & ? & ?)%texts_ok_parts ?. unfold buttercup_entry. json_literal. Qed.

Lemma proton_ok c j : texts_ok c = true → proton_item c = Ok j → json_ok j = true.
Proof.
  intros (? & ? & ? & ? & ? & ? & ?)%texts_ok_parts Hj. unfold proton_item in Hj.
  destruct (otp_uri c (JStr [])) as [totp|] eqn:E; [|done]. injection Hj as <-. apply otp_uri_ok in E; [|done..]. json_literal.
Qed.

Lemma padloc_ok folders c j : texts_ok c = true → forallb folder_ok folders = true → padloc_item folders c = Ok j → json_ok j = true.
Proof.
  intros (? & ? & ? & ? & ? & ? & ?)%texts_ok_parts ? Hj. unfold padloc_item in Hj.
  destruct (otp_uri c (JStr [])) as [totp|] eqn:E; [|done]. injection Hj as <-. apply otp_uri_ok in E; [|done..].
  assert (Hf : forallb json_ok (padloc_fields_of c totp) = true).
  { unfold padloc_fields_of, padloc_field. cbn [app forallb]. json_literal. }
  json_literal.
Qed.

Lemma bitwarden_ok uuids folders n c j :
  (∀ n, text_ok (uuids n) = true) → texts_ok c = true → bitwarden_item uuids folders n c = Ok j → json_ok j = true.
Proof.
  intros Hu (? & ? & ? & ? & ? & ? & ?)%texts_ok_parts Hj. unfold bitwarden_item in Hj.
  destruct (otp_uri c JNull) as [totp|] eqn:E; [|done]. injection Hj as <-. apply otp_uri_ok in E; [|done..]. pose proof (Hu n).
  json_literal.
Qed.

Lemma archive_ok uuids seconds folders n c j :
  (∀ n, text_ok (uuids n) = true) → num_ok (Int seconds) = true → texts_ok c = true → forallb folder_ok folders = true →
  archive_item uuids seconds folders n c = Ok j → json_ok j = true.
Proof.
  intros Hu Hsec (? & ? & ? & ? & ? & ? & ?)%texts_ok_parts ? Hj. unfold archive_item in Hj.
  destruct (otp_uri c (JStr [])) as [otp|] eqn:E; [|done]. injection Hj as <-. apply otp_uri_ok in E; [|done..].
  assert (text_ok (no_dashes (uuids n)) = true).
  { specialize (Hu n). unfold text_ok, no_dashes in *. rewrite forallb_forall in *. intros x [? _]%filter_In. auto. }
  json_literal.
Qed.
End items_ok2.

(** ** Whole files *)

Lemma result_map_Forall {A B E} (f : A → result E B) (P : B → Prop) l ys :
  result_map f l = Ok ys → (∀ x y, x ∈ l → f x = Ok y → P y) → Forall P ys.
Proof.
  revert ys. induction l as [|x l IH]; intros ys Hm HP; cbn [result_map] in Hm; [injection Hm as <-; constructor|].
  destruct (f x) as [y|] eqn:Ex; [|done]. cbn in Hm. destruct (result_map f l) as [zs|] eqn:El; [|done]. injection Hm as <-.
  constructor; [apply (HP x); [set_solver|done]|]. apply (IH zs); [done|]. intros. apply (HP x0); set_solver.
Qed.

Lemma result_map_collect {A B C} (f : A → dyn B) (item : B → dyn (list C)) (g : A → C) l ys :
  result_map f l = Ok ys → (∀ x y, x ∈ l → f x = Ok y → item y = Ok [g x]) → collect item ys = Ok (map g l).
Proof.
  revert ys. induction l as [|x l IH]; intros ys Hm HP; cbn [result_map] in Hm; [by injection Hm as <-|].
  destruct (f x) as [y|] eqn:Ex; [|done]. cbn in Hm. destruct (result_map f l) as [zs|] eqn:El; [|done]. injection Hm as <-.
  cbn [collect map]. rewrite (HP x y) by set_solver. cbn. rewrite (IH zs); [done..|]. intros. apply HP; set_solver.
Qed.

Lemma zip_seq_elem {A} n x s (l : list A) : (n, x) ∈ zip (seq s (length l)) l → x ∈ l.
Proof.
  revert s. induction l as [|y l IH]; intros s; cbn; [set_solver|]. intros [[= -> ->]|Hin]%elem_of_cons; [set_solver|].
  apply IH in Hin. set_solver.
Qed.

Lemma map_zip_seq {A B} (g : A → B) s l : map (λ nc : nat * A, g nc.2) (zip (seq s (length l)) l) = map g l.
Proof. revert s. induction l as [|x l IH]; intros s; cbn; [done|]. by rewrite IH. Qed.

Lemma numbered_collect {A B C} (f : nat → A → dyn B) (item : B → dyn (list C)) (g : A → C) l ys :
  map_numbered f l = Ok ys → (∀ n x y, x ∈ l → f n x = Ok y → item y = Ok [g x]) → collect item ys = Ok (map g l).
Proof.
  intros Hm HP. rewrite <- (map_zip_seq g 0). eapply result_map_collect; [exact Hm|]. intros [n x] y Hin Hf.
  eapply HP; [by eapply zip_seq_elem|exact Hf].
Qed.

Lemma numbered_Forall {A B} (f : nat → A → dyn B) (P : B → Prop) l ys :
  map_numbered f l = Ok ys → (∀ n x y, x ∈ l → f n x = Ok y → P y) → Forall P ys.
Proof.
  intros Hm HP. eapply result_map_Forall; [exact Hm|]. intros [n x] y Hin Hf. eapply HP; [by eapply zip_seq_elem|exact Hf].
Qed.

Lemma collect_mapped {A B C} (f : A → B) (item : B → dyn (list C)) (g : A → C) l :
  (∀ x, item (f x) = Ok [g x]) → collect item (map f l) = Ok (map g l).
Proof. intros Hf. induction l as [|x l IH]; cbn [map collect]; [done|]. rewrite Hf. cbn. by rewrite IH. Qed.

Lemma forallb_Forall {A} (p : A → bool) l : Forall (λ x, p x = true) l → forallb p l = true.
Proof. rewrite forallb_forall, List.Forall_forall. done. Qed.

Section files.
Context {JF : JsFloat} {J : JsCase} {U : JsUrl} {UL : JsUrlLaws U} {PC : P2WCrypto} {EC : ExportCrypto} {KL : KdbxLib}.
Context (uuids : nat → jsstr) (now : Z).

(** A printed value in a file of this name is imported by the importer its shape
    chooses. *)
Lemma import_printed name v i pass :
  ext_of name = js "json" → json_ok v = true → choose_json v = Ok i →
  importFromFile uuids now (mkFile name (utf8_encode (stringify_2 v))) pass
  = (im ← lift Js (run_json uuids i (stringify_2 v) pass); Ok (Objects im None)).
Proof.
  intros Hext Hv Hi. unfold importFromFile. cbn [file_name]. rewrite Hext.
  change (List.find (has_ext (js "json")) FORMATS) with (Some (mkFormat "pwdnow-json" "pwdnow" (Some ["json"%string]) true true (Some "json"%string) None false)).
  cbn iota. change (str_eqb (js "json") (js "p2w")) with false. change (str_eqb (js "json") (js "kdbx")) with false.
  change (str_eqb (js "json") (js "xml")) with false. change (str_eqb (js "json") (js "1pux")) with false.
  change (str_eqb (js "json") (js "json")) with true. cbn iota. unfold file_text. cbn [file_bytes]. rewrite stringify_2_utf8 by done.
  unfold import_json, stringify_2. rewrite json_roundtrip by done. cbn [or_throw mbind result_bind]. by rewrite Hi.
Qed.

(** The credentials and folders of an export are texts, and the ids drawn are. *)
Record exportable (l : list Credential) (folders : list Folder) : Prop := {
  ex_texts : Forall (λ c, texts_ok c = true) l;
  ex_secrets : Forall (λ c, plain_secret (or_empty (c_otpSecret c)) = true) l;
  ex_folders : forallb folder_ok folders = true;
}.

Lemma exportable_in l folders c :
  exportable l folders → c ∈ l → texts_ok c = true ∧ plain_secret (or_empty (c_otpSecret c)) = true.
Proof. intros [H1 H2 _] Hc. rewrite Forall_forall in H1, H2. auto. Qed.

(** The value each exporter prints. *)
Definition export_value (ids : nat → jsstr) (vaultId : jsstr) (f : json_format) (l : list Credential) (folders : list Folder) : dyn json :=
  match f with
  | FBitwarden =>
      items ← map_numbered (bitwarden_item ids folders) l;
      Ok (obj_ [("encrypted", JBool false);
        ("folders", JArr (map (λ f, obj_ [("id", JStr (f_id f)); ("name", JStr (f_label f))]%string) folders)); ("items", JArr items)]%string)
  | FKeeper => records ← result_map (keeper_record folders) l; Ok (obj_ [("records", JArr records)]%string)
  | FDashlane => Ok (obj_ [("credentials", JArr (map dashlane_item l))]%string)
  | FProton =>
      items ← result_map proton_item l;
      Ok (obj_ [("encrypted", JBool false);
        ("vaults", JObj [(vaultId, obj_ [("name", JStr (js "PWDnow Vault")); ("items", JArr items)]%string)])]%string)
  | FPadloc =>
      items ← result_map (padloc_item folders) l;
      Ok (obj_ [("version", JStr (js "3")); ("vaults", JArr [obj_ [("name", JStr (js "PWDnow Vault")); ("items", JArr items)]])]%string)
  | FPassky => Ok (obj_ [("passwords", JArr (map passky_item l))]%string)
  | FButtercup =>
      Ok (obj_ [("groups", JArr [obj_ [("title", JStr (js "PWDnow")); ("entries", JArr (map (buttercup_entry folders) l))]])]%string)
  end.

(** The text of the export of a format. *)
Definition export_text (ids : nat → jsstr) (vaultId : jsstr) (f : json_format) (l : list Credential) (folders : list Folder) : dyn jsstr :=
  match f with
  | FBitwarden => exportToBitwardenJSON ids l folders
  | FKeeper => exportToKeeperJSON l folders
  | FDashlane => Ok (exportToDashlaneJSON l)
  | FProton => exportToProtonPass vaultId l
  | FPadloc => exportToPadlocJSON l folders
  | FPassky => Ok (exportToPasskyJSON l)
  | FButtercup => Ok (exportToButtercupJSON l folders)
  end.

Lemma export_text_value ids vaultId f l folders text :
  export_text ids vaultId f l folders = Ok text → ∃ v, export_value ids vaultId f l folders = Ok v ∧ text = stringify_2 v.
Proof.
  destruct f; cbn [export_text export_value]; unfold exportToBitwardenJSON, exportToKeeperJSON, exportToProtonPass, exportToPadlocJSON;
    intros Ht; try (destruct (map_numbered _ _) as [items|]; [|done]); try (destruct (result_map _ _) as [items|]; [|done]);
    injection Ht as <-; by eexists.
Qed.

Definition importer_of (f : json_format) : json_importer :=
  match f with
  | FBitwarden => JBitwarden | FKeeper => JKeeper | FDashlane => JDashlane | FProton => JProton
  | FPadloc => JPadloc | FPassky => JPassky | FButtercup => JButtercup
  end.

Definition format_name (f : json_format) : string :=
  match f with
  | FBitwarden => "bitwarden-json" | FKeeper => "keeper-json" | FDashlane => "dashlane-json" | FProton => "protonpass-json"
  | FPadloc => "padloc-json" | FPassky => "passky-json" | FButtercup => "buttercup-json"
  end.

Lemma export_chosen ids vaultId f l folders v :
  l ≠ [] → export_value ids vaultId f l folders = Ok v → choose_json v = Ok (importer_of f).
Proof.
  intros Hl Hv. destruct f; cbn [export_value] in Hv; try (destruct (map_numbered _ _) as [items|]; [|done]);
    try (destruct (result_map _ _) as [items|]; [|done]); injection Hv as <-; try reflexivity.
  destruct l as [|c l]; [done|]. reflexivity.
Qed.

Lemma export_ok ids vaultId f l folders v :
  (∀ n, text_ok (ids n) = true) → text_ok vaultId = true → exportable l folders →
  export_value ids vaultId f l folders = Ok v → json_ok v = true.
Proof.
  intros Hids Hvid He Hv.
  assert (Ht : ∀ c, c ∈ l → texts_ok c = true) by (intros c Hc; by apply (exportable_in _ _ _ He)). pose proof (ex_folders _ _ He) as Hfo.
  destruct f; cbn [export_value] in Hv; try (destruct (map_numbered _ _) as [items|] eqn:E; [|done]);
    try (destruct (result_map _ _) as [items|] eqn:E; [|done]); injection Hv as <-.
  - apply (numbered_Forall _ (λ j, json_ok j = true)) in E; [|intros; eapply bitwarden_ok; eauto]. apply forallb_Forall in E.
    assert (forallb json_ok (map (λ f, obj_ [("id", JStr (f_id f)); ("name", JStr (f_label f))]%string) folders) = true).
    { rewrite forallb_forall in *. intros j (f & <- & Hf)%in_map_iff. specialize (Hfo f Hf). unfold folder_ok in Hfo. to_prop. json_literal. }
    json_literal.
  - apply (result_map_Forall _ (λ j, json_ok j = true)) in E; [|intros; eapply keeper_ok; eauto]. apply forallb_Forall in E. json_literal.
  - assert (forallb json_ok (map dashlane_item l) = true).
    { rewrite forallb_forall. intros j (c & <- & Hc%list_elem_of_In)%in_map_iff. by apply dashlane_ok, Ht. }
    json_literal.
  - apply (result_map_Forall _ (λ j, json_ok j = true)) in E; [|intros; eapply proton_ok; eauto]. apply forallb_Forall in E.
    assert (json_ok (JObj [(vaultId, obj_ [("name", JStr (js "PWDnow Vault")); ("items", JArr items)]%string)]) = true).
    { cbn [json_ok forallb fst snd]. rewrite Hvid, andb_true_r. apply andb_true_intro. split; [|json_literal].
      apply bool_decide_eq_true. unfold build. cbn. unfold put. cbn. by destruct (index_of_key vaultId). }
    json_literal.
  - apply (result_map_Forall _ (λ j, json_ok j = true)) in E; [|intros; eapply padloc_ok; eauto]. apply forallb_Forall in E. json_literal.
  - assert (forallb json_ok (map passky_item l) = true).
    { rewrite forallb_forall. intros j (c & <- & Hc%list_elem_of_In)%in_map_iff. by apply passky_ok, Ht. }
    json_literal.
  - assert (forallb json_ok (map (buttercup_entry folders) l) = true).
    { rewrite forallb_forall. intros j (c & <- & Hc%list_elem_of_In)%in_map_iff. by apply buttercup_ok; [apply Ht|]. }
    json_literal.
Qed.

Lemma export_read ids vaultId f l folders v pass :
  exportable l folders → export_value ids vaultId f l folders = Ok v → json_ok v = true →
  run_json uuids (importer_of f) (stringify_2 v) pass = Ok (imported uuids (format_name f) (map (kept f) l)).
Proof.
  intros He Hv Hok. assert (Hp := parse_json_printed v Hok).
  assert (Hs : ∀ c, c ∈ l → plain_secret (or_empty (c_otpSecret c)) = true) by (intros c Hc; by apply (exportable_in _ _ _ He)).
  destruct f; cbn [export_value] in Hv; try (destruct (map_numbered _ _) as [items|] eqn:E; [|done]);
    try (destruct (result_map _ _) as [items|] eqn:E; [|done]); injection Hv as <-; cbn [importer_of run_json].
  - apply (numbered_collect _ item_bitwarden (kept FBitwarden)) in E; [|intros; eapply bitwarden_read; eauto].
    transitivity (r ← collect item_bitwarden items; Ok (imported uuids "bitwarden-json" r)); [|by rewrite E].
    unfold importBitwardenJSON. rewrite Hp. reflexivity.
  - apply (result_map_collect _ item_keeper (kept FKeeper)) in E; [|intros; eapply keeper_read; eauto].
    transitivity (r ← collect item_keeper (items ++ []); Ok (imported uuids "keeper-json" r)); [|by rewrite app_nil_r, E].
    unfold importKeeperJSON. rewrite Hp. reflexivity.
  - transitivity (r ← collect item_dashlane (map dashlane_item l); Ok (imported uuids "dashlane-json" r)).
    + unfold importDashlaneJSON. rewrite Hp. reflexivity.
    + by rewrite (collect_mapped _ _ (kept FDashlane) _ dashlane_read).
  - apply (result_map_collect _ item_proton (kept FProton)) in E; [|intros; eapply proton_read; eauto].
    transitivity (r ← (ys ← collect item_proton items; zs ← Ok []; Ok (ys ++ zs)); Ok (imported uuids "protonpass-json" r)).
    + unfold importProtonPass. rewrite Hp. reflexivity.
    + rewrite E. cbn. by rewrite app_nil_r.
  - apply (result_map_collect _ item_padloc (kept FPadloc)) in E; [|intros; eapply padloc_read; eauto].
    transitivity (r ← (ys ← collect item_padloc items; zs ← Ok []; Ok (ys ++ zs)); Ok (imported uuids "padloc-json" r)).
    + unfold importPadloc. rewrite Hp. reflexivity.
    + rewrite E. cbn. by rewrite app_nil_r.
  - transitivity (r ← collect item_passky (map passky_item l); Ok (imported uuids "passky-json" r)).
    + unfold importPassky. rewrite Hp. reflexivity.
    + by rewrite (collect_mapped _ _ (kept FPassky) _ passky_read).
  - transitivity (r ← (b ← (ys ← (a ← collect entry_buttercup (map (buttercup_entry folders) l); Ok (a ++ [])); Ok (ys ++ [])); Ok ([] ++ b));
      Ok (imported uuids "buttercup-json" r)).
    + unfold importButtercup. rewrite Hp. cbn [mbind result_bind]. reflexivity.
    + rewrite (collect_mapped _ _ (kept FButtercup) _ (buttercup_read folders)). cbn. by rewrite !app_nil_r.
Qed.

(** *** The 1PUX archive *)

Definition kept_1pux (c : Credential) : jsstr → json :=
  make_credential (c_service c) (JStr (c_url c)) (c_username c) (or_empty (c_password c)) (or_undefined (or_empty (c_description c))) None.

Lemma archive_read ids seconds folders n c j : archive_item ids seconds folders n c = Ok j → item_1pux j = Ok [kept_1pux c].
Proof.
  unfold archive_item. intros Hj. destruct (otp_uri c (JStr [])) as [otp|]; [|done]. injection Hj as <-. unfold kept_1pux.
  destruct (c_url c); reflexivity.
Qed.

Lemma data_1pux_shape ids seconds l folders data :
  data_1pux ids seconds l folders = Ok data →
  ∃ items, map_numbered (archive_item ids seconds folders) l = Ok items ∧
    data = obj_ [("accounts", JArr [obj_ [
      ("attrs", obj_ [("accountName", JStr (js "PWDnow Export")); ("name", JStr (js "PWDnow"))]);
      ("vaults", JArr [obj_ [("attrs", obj_ [("desc", JStr []); ("name", JStr (js "PWDnow Vault")); ("type", JStr (js "P"))]);
                             ("items", JArr items)]])]])]%string.
Proof. unfold data_1pux. destruct (map_numbered _ _) as [items|]; [|done]. intros [= <-]. by exists items. Qed.

Lemma data_1pux_ok ids seconds l folders data :
  (∀ n, text_ok (ids n) = true) → num_ok (Int seconds) = true → exportable l folders →
  data_1pux ids seconds l folders = Ok data → json_ok data = true.
Proof.
  intros Hids Hsec He (items & E & ->)%data_1pux_shape. pose proof (ex_folders _ _ He).
  apply (numbered_Forall _ (λ j, json_ok j = true)) in E.
  - apply forallb_Forall in E. json_literal.
  - intros. eapply archive_ok; eauto. by apply (exportable_in _ _ _ He).
Qed.

Lemma import_1pux_printed ids seconds l folders data :
  data_1pux ids seconds l folders = Ok data → json_ok data = true →
  import1PUX uuids (stringify_2 data) = Ok (imported uuids "1password-1pux" (map kept_1pux l)).
Proof.
  intros (items & E & ->)%data_1pux_shape Hok. assert (Hp := parse_json_printed _ Hok).
  apply (numbered_collect _ item_1pux kept_1pux) in E; [|intros; by eapply archive_read].
  transitivity (r ← (ys ← (zs ← collect item_1pux items; Ok (zs ++ [])); Ok (ys ++ [])); Ok (imported uuids "1password-1pux" r)).
  - unfold import1PUX. rewrite Hp. reflexivity.
  - rewrite E. cbn. by rewrite !app_nil_r.
Qed.

Lemma import_archive name date ids seconds l folders bs data pass :
  ext_of name = js "1pux" → data_1pux ids seconds l folders = Ok data → json_ok data = true → len (utf8_encode (stringify_2 data)) < 2 ^ 32 →
  exportToPWDnow1PUX date ids seconds l folders = Ok bs →
  importFromFile uuids now (mkFile name bs) pass
  = Ok (Objects (imported uuids "1password-1pux" (map kept_1pux l)) None).
Proof.
  intros Hext Hd Hok Hlen Hb. unfold exportToPWDnow1PUX in Hb. rewrite Hd in Hb. injection Hb as <-.
  unfold importFromFile. cbn [file_name file_bytes]. rewrite Hext.
  change (List.find (has_ext (js "1pux")) FORMATS) with (Some (mkFormat "1password-1pux" "online" (Some ["1pux"%string]) true false None None false)).
  cbn iota. change (str_eqb (js "1pux") (js "p2w")) with false. change (str_eqb (js "1pux") (js "kdbx")) with false.
  change (str_eqb (js "1pux") (js "xml")) with false. change (str_eqb (js "1pux") (js "1pux")) with true. cbn iota.
  rewrite ZipSpec.zip_roundtrip by (done || vm_compute; done). cbn [lift mbind result_bind].
  rewrite stringify_2_utf8 by done. by rewrite (import_1pux_printed _ _ _ _ _ Hd).
Qed.

(** *** The client's own JSON *)

Lemma payload_ok at_time creds folders :
  text_ok at_time = true → forallb json_ok creds = true → forallb json_ok folders = true → json_ok (pwdnow_payload at_time creds folders) = true.
Proof. intros. unfold pwdnow_payload. json_literal. Qed.

Lemma import_pwdnow_printed at_time creds folders :
  json_ok (pwdnow_payload at_time creds folders) = true →
  importPWDnow uuids (stringify_2 (pwdnow_payload at_time creds folders)) = Ok (imported uuids "pwdnow-json" (map with_id creds)).
Proof. intros Hok. unfold importPWDnow. rewrite (parse_json_printed _ Hok). reflexivity. Qed.

(** *** The protected JSON *)

Lemma hex_dot c : is_hex c = true → is_dot c = true ∧ is_space c = false ∧ c ≠ 45 ∧ c ≠ 43 ∧ ascii_lower_unit c ≠ 120.
Proof.
  unfold is_hex, is_digit, is_dot, is_space, ascii_lower_unit. intros Hc. cbn [existsb].
  assert (48 <= c <= 57 ∨ 97 <= c <= 102 ∨ 65 <= c <= 70) as Hr
    by (repeat (apply orb_prop in Hc as [Hc|Hc]); to_prop; lia).
  repeat (rewrite (proj2 (Z.eqb_neq c _)) by lia). cbn [orb negb].
  rewrite (proj2 (Z.leb_gt 0x2000 c)) by lia. repeat split; try done; try lia. case_match; lia.
Qed.

Lemma hex_pair a b : is_hex a = true → is_hex b = true → to_uint8 (parse_int_hex [a; b]) = (hex_value a * 16 + hex_value b) mod 256.
Proof.
  intros Ha Hb. destruct (hex_dot a Ha) as (_ & Hs & H45 & H43 & _), (hex_dot b Hb) as (_ & _ & _ & _ & Hx).
  unfold parse_int_hex. cbn [trim_start]. rewrite Hs. rewrite (proj2 (Z.eqb_neq a 45)), (proj2 (Z.eqb_neq a 43)) by done.
  rewrite (proj2 (Z.eqb_neq (ascii_lower_unit b) 120)), andb_false_r by done. cbn [take_hex]. rewrite Ha, Hb. cbn. done.
Qed.

Lemma from_hex_pairs bs : Bytes bs → map (λ x, to_uint8 (parse_int_hex x)) (dot_pairs (bytesToHex bs)) = bs.
Proof.
  induction 1 as [|b bs Hb Hbs IH]; [done|]. unfold bytesToHex in *. cbn [map concat hex_byte app].
  unfold is_byte in Hb. assert (Ha : is_hex (hex_digit (b / 16)) = true) by (apply is_hex_digit; lia).
  assert (Hc : is_hex (hex_digit (b mod 16)) = true) by (apply is_hex_digit; lia).
  cbn [dot_pairs]. rewrite (proj1 (hex_dot _ Ha)), (proj1 (hex_dot _ Hc)). cbn [andb map]. rewrite IH, hex_pair by done. f_equal.
  rewrite !hex_value_digit by lia. lia.
Qed.

Lemma from_hex_bytes bs : Bytes bs → bs ≠ [] → fromHex (Some (JStr (bytesToHex bs))) = Ok bs.
Proof.
  intros Hb Hne. unfold fromHex. pose proof (from_hex_pairs bs Hb) as Hp. destruct (dot_pairs (bytesToHex bs)) eqn:E; [|by rewrite <- Hp].
  cbn in Hp. by subst.
Qed.

Lemma text_ok_of s : Forall is_u16 s → text_ok s = true.
Proof. intros Hs. apply forallb_Forall. eapply Forall_impl; [exact Hs|]. unfold is_u16. intros c Hc. apply andb_true_intro. lia. Qed.

Lemma hex_text bs : Bytes bs → text_ok (bytesToHex bs) = true.
Proof. intros Hb. apply text_ok_of. by apply (CryptoUtils.hex_ascii (bytesToHex bs)), bytesToHex_hex. Qed.

Lemma btoa_text bs : Bytes bs → text_ok (btoa bs) = true.
Proof.
  intros Hb. rewrite btoa_split, text_ok_app, btoa_chars_vals. apply andb_true_intro. split.
  - apply text_ok_of, Forall_map. eapply Forall_impl; [by apply btoa_vals_range|]. unfold compose. intros v Hv%b64_char_ascii. unfold is_u16. lia.
  - apply text_ok_of, Forall_replicate. unfold is_u16. lia.
Qed.

(** The object of a protected export. *)
Definition sealed (salt iv ct : bytes) : json :=
  obj_ [("encrypted", JBool true); ("app", JStr (js "PWDnow")); ("kdf", JStr (js "pbkdf2-sha256"));
    ("iterations", JNum (Int 600000)); ("salt", JStr (bytesToHex salt)); ("iv", JStr (bytesToHex iv));
    ("ciphertext", JStr (btoa ct))]%string.

Lemma sealed_ok salt iv ct : Bytes salt → Bytes iv → Bytes ct → json_ok (sealed salt iv ct) = true.
Proof.
  intros Hs%hex_text Hi%hex_text Hc%btoa_text. unfold sealed. json_literal.
Qed.

(** Reading a protected export: the key of the passphrase opens the ciphertext or not. *)
Lemma decrypt_sealed salt iv ct pass key :
  Bytes salt → salt ≠ [] → Bytes iv → iv ≠ [] → Bytes ct →
  ex_derive (utf8_encode pass) salt (JNum (Int 600000)) = Some key →
  decryptPWDnowExport (stringify_2 (sealed salt iv ct)) pass
  = match ex_open key iv ct with Some p => Ok (utf8_decode p) | None => Throw OperationError end.
Proof.
  intros Hs Hs0 Hi Hi0 Hc Hk. unfold decryptPWDnowExport. rewrite parse_json_printed by (by apply sealed_ok). cbn [mbind result_bind].
  change (get (sealed salt iv ct) "salt") with (@Ok js_error _ (Some (JStr (bytesToHex salt)))). cbn [mbind result_bind].
  rewrite from_hex_bytes by done. cbn [mbind result_bind].
  change (get_or (sealed salt iv ct) "iterations" (JNum (Int 600000))) with (@Ok js_error _ (JNum (Int 600000))). cbn [mbind result_bind].
  rewrite Hk. cbn [or_throw mbind result_bind].
  change (get (sealed salt iv ct) "iv") with (@Ok js_error _ (Some (JStr (bytesToHex iv)))). cbn [mbind result_bind].
  rewrite from_hex_bytes by done. cbn [mbind result_bind].
  change (get (sealed salt iv ct) "ciphertext") with (@Ok js_error _ (Some (JStr (btoa ct)))). cbn [mbind result_bind to_text].
  rewrite atob_btoa by done. cbn [or_throw mbind result_bind]. by destruct (ex_open key iv ct).
Qed.
End files.
