(* ===== verification/ReimportClaims.v ===== *)
(** * Claims on import and export of files

    What every export becomes when it is imported again, and what is read from a tree of
    nested groups. *)
From S2P Require Import Prelude JsRuntime JsText Base64 Json JsonSpec JsDyn Types Csv JsonFormats XmlFormats XmlSpec Kdbx Zip P2WBuffer P2WFile P2WFileSpec ImportFile ReimportSpec.

(** ** The walk over nested groups ends *)

Lemma collect_throws {A B} (f : A → dyn (list B)) l e : collect f l = Throw e → ∃ x, x ∈ l ∧ f x = Throw e.
Proof.
  induction l as [|x l IH]; cbn [collect]; [done|]. destruct (f x) as [y|e'] eqn:Ex; cbn [mbind result_bind].
  - destruct (collect f l) as [|e'] eqn:El; cbn [mbind result_bind]; [done|]. intros [= ->]. destruct (IH eq_refl) as (z & ? & ?).
    exists z. set_solver.
  - intros [= ->]. exists x. set_solver.
Qed.

Lemma collect_ext {A B} (f g : A → dyn (list B)) l : (∀ x, x ∈ l → f x = g x) → collect f l = collect g l.
Proof.
  induction l as [|x l IH]; intros Hfg; [done|]. cbn [collect]. rewrite (Hfg x) by set_solver. by rewrite IH by set_solver.
Qed.

Lemma list_sum_in {A} (f : A → nat) l x : x ∈ l → (f x <= list_sum (map f l))%nat.
Proof.
  induction l as [|y l IH]; [set_solver|]. change (list_sum (map f (y :: l))) with (f y + list_sum (map f l))%nat.
  intros [->|Hin]%elem_of_cons; [lia|]. specialize (IH Hin). lia.
Qed.

Lemma prop_size k v x : prop k v = Some x → (json_size x < json_size v)%nat.
Proof.
  destruct v as [| | | | |l]; try done. cbn [prop json_size]. intros Hx.
  assert (∃ kk, (kk, x) ∈ l) as [kk Hin].
  { revert Hx. induction l as [|[k' y] l IH]; [done|]. cbn [lookup_key]. destruct (str_eqb _ _).
    - intros [= ->]. exists k'. set_solver.
    - intros [kk ?]%IH. exists kk. set_solver. }
  pose proof (list_sum_in (λ kv, json_size kv.2) l (kk, x) Hin). cbn [snd] in *. lia.
Qed.

Lemma get_size v k x : get v k = Ok (Some x) → (json_size x < json_size v)%nat.
Proof. intros Hx. apply (prop_size k). unfold get in Hx. destruct v; congruence. Qed.

Lemma get_first_size v ks d x : get_first v ks d = Ok x → x = d ∨ (json_size x < json_size v)%nat.
Proof.
  induction ks as [|k ks IH]; cbn [get_first]; [intros [= ->]; auto|].
  destruct (get v k) as [[y|]|] eqn:Eg; cbn [mbind result_bind]; [|exact IH|done]. apply get_size in Eg.
  destruct y; try exact IH; intros [= <-]; right; exact Eg.
Qed.

Lemma elements_size v l x : elements v = Ok l → x ∈ l → (json_size x <= json_size v)%nat.
Proof.
  destruct v as [| | |s|l'|]; try done; intros [= <-] Hin.
  - apply list_elem_of_fmap in Hin as (? & -> & _). done.
  - cbn [json_size]. pose proof (list_sum_in json_size _ _ Hin). lia.
Qed.

(** The subgroups of a group are smaller. *)
Lemma subgroup_size g subs l x :
  get_first g ["groups"; "children"]%string no_array = Ok subs → elements subs = Ok l → x ∈ l → (json_size x < json_size g)%nat.
Proof.
  intros [->|Hs]%get_first_size Hl Hx; [injection Hl as <-; set_solver|]. pose proof (elements_size _ _ _ Hl Hx). lia.
Qed.

Lemma get_throws v k e : get v k = Throw e → e = TypeError.
Proof. unfold get. destruct v; try done. by intros [= <-]. Qed.
Lemma get_or_throws v k d e : get_or v k d = Throw e → e = TypeError.
Proof. unfold get_or. destruct (get v k) eqn:E; cbn; [done|]. intros [= <-]. by eapply get_throws. Qed.
Lemma get_first_throws v ks d e : get_first v ks d = Throw e → e = TypeError.
Proof.
  induction ks as [|k ks IH]; cbn [get_first]; [done|]. destruct (get v k) as [[[]|]|] eqn:Eg; cbn [mbind result_bind]; try done.
  intros [= <-]. by eapply get_throws.
Qed.
Lemma text_or_throws v k d e : text_or v k d = Throw e → e = TypeError.
Proof. unfold text_or. destruct (get_or v k _) eqn:E; cbn; [done|]. intros [= <-]. by eapply get_or_throws. Qed.
Lemma elements_throws v e : elements v = Throw e → e = TypeError.
Proof. destruct v; try done; by intros [= <-]. Qed.

Create HintDb dynthrow.
#[local] Hint Resolve get_throws get_or_throws get_first_throws text_or_throws elements_throws : dynthrow.

(** One step of a sequence of reads: it fails with a TypeError or goes on. *)
Ltac next_read :=
  match goal with
  | |- (mbind _ ?m) = Throw _ → _ => let E := fresh in destruct m eqn:E; cbn [mbind result_bind];
      [|intros [= <-]; eauto with dynthrow]
  end.

Lemma entry_buttercup_throws entry e : entry_buttercup entry = Throw e → e = TypeError.
Proof.
  unfold entry_buttercup. next_read. next_read.
  destruct a0 as [[]|]; repeat (cbn [mbind result_bind]; first [next_read|done]).
Qed.

Lemma processGroup_ends fuel g : (json_size g < fuel)%nat → processGroup fuel g ≠ Throw JsDyn.RangeError.
Proof.
  intros Hf. assert (Hall : ∀ e, processGroup fuel g = Throw e → e = TypeError); [|intros He; apply Hall in He; discriminate].
  revert g Hf. induction fuel as [|fuel IH]; intros g Hf e; [lia|]. cbn [processGroup].
  destruct (match g with JArr _ => true | _ => false end); cbn [throw_if mbind result_bind]; [by intros [= <-]|].
  next_read. next_read. next_read; [|apply collect_throws in H1 as (x & _ & Hx); by eapply entry_buttercup_throws].
  next_read. next_read. next_read; [done|]. apply collect_throws in H4 as (x & Hx & Ht).
  eapply IH; [|exact Ht]. pose proof (subgroup_size _ _ _ _ H2 H3 Hx). lia.
Qed.

(** ** Trees of groups *)

(** An entry, with its fields under [properties] or in the entry itself. *)
Record bc_entry := mkBc { be_wrapped : bool; be_title : jsstr; be_url : jsstr; be_username : jsstr; be_password : jsstr }.

Definition bc_entry_json (e : bc_entry) : json :=
  if be_wrapped e then
    obj_ [("id", JStr (js "e")); ("properties", obj_ [("title", JStr (be_title e)); ("username", JStr (be_username e));
      ("password", JStr (be_password e)); ("URL", JStr (be_url e))])]%string
  else obj_ [("name", JStr (be_title e)); ("username", JStr (be_username e)); ("password", JStr (be_password e));
      ("url", JStr (be_url e))]%string.

(** A group, with its members under the one or the other pair of names. *)
Inductive bc_group := BcGroup (old : bool) (entries : list bc_entry) (subs : list bc_group).

Fixpoint bc_json (g : bc_group) : json :=
  match g with
  | BcGroup old es subs =>
      obj_ [("title", JStr (js "group")); (if old then "items" else "entries", JArr (map bc_entry_json es));
            (if old then "children" else "groups", JArr (map bc_json subs))]%string
  end.

Definition bc_credential (e : bc_entry) : jsstr → json :=
  make_credential (be_title e) (JStr (be_url e)) (be_username e) (be_password e) None None.

(** The entries of a group before those of its subgroups. *)
Fixpoint bc_credentials (g : bc_group) : list (jsstr → json) :=
  match g with BcGroup _ es subs => map bc_credential es ++ concat (map bc_credentials subs) end.

Lemma collect_tree {A B C} (f : A → B) (item : B → dyn (list C)) (g : A → list C) l :
  (∀ x, x ∈ l → item (f x) = Ok (g x)) → collect item (map f l) = Ok (concat (map g l)).
Proof.
  induction l as [|x l IH]; intros Hx; [done|]. cbn [map collect]. rewrite Hx by set_solver. cbn [mbind result_bind].
  rewrite IH by set_solver. done.
Qed.

Lemma entry_buttercup_json e : entry_buttercup (bc_entry_json e) = Ok [bc_credential e].
Proof. destruct e as [[] t u n p]; reflexivity. Qed.

Lemma entries_buttercup es : collect entry_buttercup (map bc_entry_json es) = Ok (map bc_credential es).
Proof.
  rewrite (collect_tree _ _ (λ e, [bc_credential e])) by (intros; apply entry_buttercup_json).
  f_equal. induction es as [|e es IH]; [done|]. cbn [map concat]. by rewrite IH.
Qed.

Lemma bc_size old es subs g : g ∈ subs → (json_size (bc_json g) < json_size (bc_json (BcGroup old es subs)))%nat.
Proof.
  intros Hin. assert (Hs := list_sum_in json_size (map bc_json subs) (bc_json g)).
  specialize (Hs ltac:(apply list_elem_of_fmap; by exists g)).
  destruct old; cbn [bc_json obj_ map json_size snd list_sum fold_right foldr]; lia.
Qed.

Lemma bc_members old es subs :
  let v := bc_json (BcGroup old es subs) in
  match v with JArr _ => true | _ => false end = false ∧
  get_first v ["entries"; "items"]%string no_array = Ok (JArr (map bc_entry_json es)) ∧
  get_first v ["groups"; "children"]%string no_array = Ok (JArr (map bc_json subs)).
Proof. by destruct old. Qed.

Lemma processGroup_tree fuel g :
  (json_size (bc_json g) < fuel)%nat → processGroup fuel (bc_json g) = Ok (bc_credentials g).
Proof.
  revert g. induction fuel as [|fuel IH]; intros [old es subs] Hf; [lia|].
  assert (Hsubs : collect (processGroup fuel) (map bc_json subs) = Ok (concat (map bc_credentials subs))).
  { apply collect_tree. intros g Hg. apply IH. pose proof (bc_size old es subs g Hg). lia. }
  destruct (bc_members old es subs) as (E0 & E1 & E2). cbn [processGroup bc_credentials]. rewrite E0. cbn [throw_if mbind result_bind].
  rewrite E1. cbn [mbind result_bind elements]. rewrite entries_buttercup. cbn [mbind result_bind].
  rewrite E2. cbn [mbind result_bind elements]. by rewrite Hsubs.
Qed.

(** ** Functions that satisfy the laws of the parameters *)

Definition toy_encode (c : Z) : jsstr := if is_digit c || is_upper c || is_lower c then [c] else 37 :: hex_byte (c mod 256).

Definition toy_url : JsUrl := {|
  url_secret uri :=
    '(_, q) ← find_unit 63 uri;
    if starts_with (js "secret=") q then '(s, _) ← find_unit 38 (drop 7 q); Some s else None;
  encodeURIComponent s := Some (concat (map toy_encode s)) |}.

Lemma toy_encode_units c : forallb uri_unit (toy_encode c) = true.
Proof.
  unfold toy_encode. destruct (is_digit c || is_upper c || is_lower c) eqn:E; [cbn; unfold uri_unit; by rewrite E|].
  assert (Hd : ∀ d, 0 <= d < 16 → uri_unit (hex_digit d) = true).
  { intros d Hd. assert (Hall : Forall (λ d, uri_unit (hex_digit d) = true) (seqZ 0 16)) by (by vm_compute; repeat constructor).
    rewrite Forall_forall in Hall. apply Hall, elem_of_seqZ. lia. }
  cbn [forallb hex_byte]. rewrite !Hd by lia. done.
Qed.

Lemma toy_encoded s : forallb uri_unit (concat (map toy_encode s)) = true.
Proof. induction s as [|c s IH]; [done|]. cbn [map concat]. by rewrite forallb_app, toy_encode_units. Qed.

Lemma toy_url_laws : JsUrlLaws toy_url.
Proof.
  split.
  - intros service secret uri Hs E.
    change (Some ((js "otpauth://totp/" ++ concat (map toy_encode service)
      ++ 63 :: js "secret=" ++ secret ++ 38 :: js "digits=6&period=30")) = Some uri) in E.
    apply (inj Some) in E. subst uri. unfold url_secret, toy_url. rewrite app_assoc, find_unit_first.
    + cbn [mbind option_bind]. rewrite starts_with_self, (drop_app_length' (js "secret=")) by done.
      rewrite find_unit_first; [done|]. unfold plain_secret in Hs. rewrite forallb_forall in Hs. by intros Hin%list_elem_of_In%Hs.
    + apply not_elem_of_app. split; [vm_compute; set_solver|]. pose proof (toy_encoded service) as He. rewrite forallb_forall in He.
      by intros Hin%list_elem_of_In%He.
  - intros s e [= <-]. apply toy_encoded.
Qed.

(** A cipher that appends a check unit of the key. *)
Definition toy_tag (k : bytes) : Z := fold_left Z.add k 0 mod 256.
Definition toy_export : ExportCrypto := {|
  ex_derive p s n := if json_eqb n (JNum (Int 600000)) then Some (p ++ s) else None;
  ex_seal k iv p := toy_tag k :: p;
  ex_open k iv c := match c with t :: p => if t =? toy_tag k then Some p else None | [] => None end |}.

Lemma toy_export_laws : ExportCryptoLaws toy_export.
Proof.
  split; cbn.
  - by eexists.
  - intros. by rewrite Z.eqb_refl.
  - intros. constructor; [|done]. unfold toy_tag, is_byte. lia.
Qed.

(** ** KeePass XML *)

(** No text of the credential holds an entity literally. *)
Definition xml_texts (c : Credential) : bool :=
  no_entities (c_service c) && no_entities (c_username c) && no_entities (or_empty (c_password c)) && no_entities (c_url c)
  && no_entities (or_empty (c_description c)).

(** A credential as KeePass XML keeps it; one without a name is dropped. *)
Definition named_entry (c : Credential) : list (jsstr → json) :=
  if str_empty (c_service c) then []
  else [make_credential (c_service c) (JStr (c_url c)) (c_username c) (or_empty (c_password c)) (or_undefined (or_empty (c_description c)))
          (or_undefined (or_empty (c_otpSecret c)))].

Section xml.
Context {JF : JsFloat} {J : JsCase} {U : JsUrl} {UL : JsUrlLaws U} {PC : P2WCrypto} {EC : ExportCrypto} {KL : KdbxLib}.

Lemma import_xml uuids now file pass :
  ext_of (file_name file) = js "xml" →
  importFromFile uuids now file pass
  = Ok (Objects (if is_safe_in_cloud (file_text file) then importSafeInCloud uuids (file_text file) else importKeePassXML uuids (file_text file)) None).
Proof.
  intros Hext. unfold importFromFile. rewrite Hext.
  change (List.find (has_ext (js "xml")) FORMATS) with
    (Some (mkFormat "pwdnow-xml" "pwdnow" (Some ["xml"%string]) true true (Some "xml"%string) (Some "KeePass-compatible XML"%string) false)).
  cbn iota. change (str_eqb (js "xml") (js "p2w")) with false. change (str_eqb (js "xml") (js "kdbx")) with false.
  change (str_eqb (js "xml") (js "xml")) with true. done.
Qed.

Lemma entry_kept folders otp c :
  xml_texts c = true → plain_secret (or_empty (c_otpSecret c)) = true → to_text <$> otp_uri c (JStr []) = Ok otp →
  keepass_entry (entry_body folders otp c) = named_entry c.
Proof.
  intros Hx Hs Ho. destruct (otp_uri c (JStr [])) as [j|] eqn:Ej; [|done]. injection Ho as <-.
  pose proof (otp_uri_read _ _ _ Ej (or_intror eq_refl) Hs) as Hr.
  assert (Hl : link_text j = to_text j ∧ no_entities (to_text j) = true).
  { destruct (otp_uri_shape _ _ _ Ej) as [[-> _]|(x & u & -> & _ & E)]; [done|]. split; [done|]. by eapply link_no_entities. }
  destruct Hl as [Hl Hn]. rewrite Hl in Hr. rewrite keepass_entry_read; [unfold kept_xml; by rewrite Hr|].
  unfold xml_safe, x_strings. unfold xml_texts in Hx. rewrite !andb_true_iff in Hx. destruct Hx as ((((H1 & H2) & H3) & H4) & H5). rewrite forallb_app.
  cbn [forallb x_value]. rewrite H1, H2, H3, H4, H5. cbn [andb]. destruct (str_empty _); [done|]. cbn [forallb x_value]. by rewrite Hn.
Qed.
End xml.

(** A credential and a folder. *)
Definition demo_cred : Credential :=
  basic_credential (IdNumber 1) (js "Mail & <more>") (js "https://mail.example") (js "ann") (Some (34 :: js "p,w")) [] [] []
    (js "f1") None (Some (js "JBSWY3DPEHPK3PXP")) (Some (js "it's a note")) None.
Definition demo_folder : Folder := mkFolder (js "f1") (js "Work") None None None.
Definition float_text : JsFloat := {| to_number := Float |}.

Module Reimport.

Section claims.
Context {JF : JsFloat} {J : JsCase} {U : JsUrl} {UL : JsUrlLaws U} {PC : P2WCrypto} {EC : ExportCrypto} {EL : ExportCryptoLaws EC} {KL : KdbxLib}.
Context (uuids : nat → jsstr) (now : Z).

(** C18: A JSON export in the format of Bitwarden, Keeper, Dashlane, Proton Pass, Padloc,
    Passky or Buttercup, written to a file and imported again, is recognised as that
    format and gives the credentials in order with what the format keeps of each
    ([kept]): everything for Bitwarden, Dashlane and Proton Pass; the link instead of
    the secret for Keeper; no notes for Padloc; the address as the name and no secret for
    Passky; neither notes nor secret for Buttercup. *)
Theorem json_exports_reimport ids vaultId f l folders text name pass :
  (∀ n, text_ok (ids n) = true) → text_ok vaultId = true → l ≠ [] → exportable l folders → ext_of name = js "json" →
  export_text ids vaultId f l folders = Ok text →
  importFromFile uuids now (mkFile name (utf8_encode text)) pass
  = Ok (Objects (imported uuids (format_name f) (map (kept f) l)) None).
Proof.
  intros Hids Hv Hl He Hext (v & Ev & ->)%export_text_value.
  assert (Hok : json_ok v = true) by (by eapply export_ok).
  rewrite (import_printed uuids now name v (importer_of f)) by (done || by eapply export_chosen).
  by rewrite (export_read uuids ids vaultId f l folders v pass).
Qed.

(** The archive of the 1PUX export, imported again, gives the credentials in order
    with name, address, user name, password and notes; one-time passwords are lost. *)
Theorem archive_reimport date ids seconds l folders data bs name pass :
  (∀ n, text_ok (ids n) = true) → num_ok (Int seconds) = true → exportable l folders → ext_of name = js "1pux" →
  data_1pux ids seconds l folders = Ok data → len (utf8_encode (stringify_2 data)) < 2 ^ 32 →
  exportToPWDnow1PUX date ids seconds l folders = Ok bs →
  importFromFile uuids now (mkFile name bs) pass = Ok (Objects (imported uuids "1password-1pux" (map kept_1pux l)) None).
Proof.
  intros Hids Hsec He Hext Hd Hlen Hb. eapply import_archive; [done|exact Hd| |done|exact Hb]. by eapply data_1pux_ok.
Qed.

(** A protected JSON export imported with its passphrase gives every credential with
    its fields and a new id; without a passphrase the import asks for one, and with a
    passphrase whose key does not open it the import fails. *)
Theorem protected_export_reimport max_args salt iv at_time creds folders pass text name :
  Bytes salt → salt ≠ [] → Bytes iv → iv ≠ [] → text_ok at_time = true → forallb json_ok creds = true → forallb json_ok folders = true →
  pass ≠ [] → ext_of name = js "json" → exportToPWDnowEncrypted max_args salt iv at_time creds folders pass = Ok text →
  let file := mkFile name (utf8_encode text) in
  importFromFile uuids now file pass = Ok (Objects (imported uuids "pwdnow-json" (map with_id creds)) None) ∧
  importFromFile uuids now file [] = Throw (Js (ErrorMsg ENCRYPTED_PWDNOW)) ∧
  (∀ pass' key ct, pass' ≠ [] → ex_derive (utf8_encode pass') salt (JNum (Int 600000)) = Some key →
     text = stringify_2 (sealed salt iv ct) → Bytes ct → ex_open key iv ct = None →
     importFromFile uuids now file pass' = Throw (Js OperationError)).
Proof.
  intros Hs Hs0 Hi Hi0 Ht Hc Hf Hp Hext He file. unfold exportToPWDnowEncrypted in He.
  destruct (ex_derive_ok (utf8_encode pass) salt) as [key Ek]. rewrite Ek in He. cbn [or_throw mbind result_bind] in He.
  destruct (len _ >? max_args); [done|]. cbn [throw_if mbind result_bind] in He. injection He as He.
  pose proof (payload_ok at_time creds folders Ht Hc Hf) as Hok.
  assert (Hb : Bytes (utf8_encode (buildPWDnowPayload at_time creds folders))).
  { apply utf8_encode_bytes, well_formed_u16. apply stringify_2_transportable, andb_prop in Hok as [Hok _]. exact Hok. }
  set (ct := ex_seal key iv (utf8_encode (buildPWDnowPayload at_time creds folders))) in He.
  assert (Hct : Bytes ct) by (by apply ex_seal_bytes). change (stringify_2 (sealed salt iv ct) = text) in He. subst text.
  assert (Hsel : ∀ p, importFromFile uuids now file p
    = (im ← lift Js (run_json uuids JEncrypted (stringify_2 (sealed salt iv ct)) p); Ok (Objects im None))).
  { intros p. by apply import_printed; [|apply sealed_ok|]. }
  rewrite !Hsel. cbn [run_json]. split; [|split].
  - destruct pass as [|p0 pass]; [done|]. cbn [str_empty]. rewrite (decrypt_sealed salt iv ct _ key) by done.
    unfold ct. rewrite ex_open_seal by done. cbn [mbind result_bind]. unfold buildPWDnowPayload.
    rewrite stringify_2_utf8 by done. by rewrite import_pwdnow_printed.
  - reflexivity.
  - intros pass' key' ct' Hp' Ek' Ect Hct' Ho. rewrite Hsel, Ect. cbn [run_json]. destruct pass' as [|q pass']; [done|]. cbn [str_empty].
    rewrite (decrypt_sealed salt iv ct' _ key') by done. by rewrite Ho.
Qed.

(** The KeePass XML export, read back from a file, is taken for KeePass XML and gives
    every credential that has a name, in order, with name, address, user name, password,
    notes and one-time-password secret, as long as no text holds one of the entities
    literally. *)
Theorem keepass_xml_roundtrip at_time l folders text file pass :
  no_tag at_time = true → Forall (λ c, xml_texts c = true) l → Forall (λ c, plain_secret (or_empty (c_otpSecret c)) = true) l →
  buildKeePassXML at_time l folders = Ok text → ext_of (file_name file) = js "xml" → file_text file = text →
  importFromFile uuids now file pass = Ok (Objects (imported uuids "keepass-xml" (concat (map named_entry l))) None).
Proof.
  intros Ht Hl Hs (ocs & <- & Hotp & ->)%buildKeePassXML_shape Hext Htext. rewrite import_xml by done. rewrite Htext.
  unfold is_safe_in_cloud. rewrite document_no_card, andb_false_r by done. cbn iota. do 3 f_equal.
  unfold importKeePassXML. rewrite matches_document by done. f_equal. rewrite !map_map. f_equal.
  rewrite Forall_map in Hl, Hs. clear -Hl Hs Hotp UL. induction ocs as [|[otp c] ocs IH]; [done|].
  inversion Hl as [|? ? Hlc Hl']; inversion Hs as [|? ? Hsc Hs']; inversion Hotp as [|? ? Ho Hotp']; subst. cbn [map fst snd] in *.
  f_equal; [|by apply IH]. by apply entry_kept.
Qed.

(** C33: From a Buttercup file that holds any tree of groups, at the top or under [root],
    of any depth, with either pair of names for the members of a group and either place
    for the fields of an entry, the import gives one credential per entry of the tree, the
    entries of a group before those of its subgroups in their order, each with the
    title, address, name and password of its entry. *)
Theorem buttercup_tree_imported text g :
  parse text = Some (bc_json g) ∨ parse text = Some (obj_ [("root", bc_json g)]%string) →
  importButtercup uuids text = Ok (imported uuids "buttercup-json" (bc_credentials g)).
Proof.
  intros Hp. assert (Hroot : ∃ data, parse text = Some data ∧ get_or data "root" data = Ok (bc_json g) ∧
    (∃ x, get data "groups" = Ok x) ∧ (json_size (bc_json g) <= json_size data)%nat).
  { destruct Hp as [Hp|Hp]; eexists; (split; [exact Hp|]).
    - destruct g as [[] es subs]; (split; [reflexivity|]); (split; [eexists; reflexivity|lia]).
    - split; [by destruct g|]. split; [eexists; reflexivity|]. cbn [obj_ map json_size snd list_sum foldr fold_right]. lia. }
  destruct Hroot as (data & Hd & Hr & (x & Hx) & Hs). unfold importButtercup, parse_json. rewrite Hd. cbn [mbind result_bind].
  rewrite Hx. cbn [mbind result_bind]. rewrite Hr. cbn [mbind result_bind]. by rewrite processGroup_tree by lia.
Qed.
End claims.

(** A text that holds an entity literally is not read back: the importer decodes the
    ampersand first, so the text for a less-than sign becomes the sign. *)
Theorem xml_entity_lost :
  xml_unescape (xmlEscape (js "a &lt; b")) = js "a < b" ∧ xml_unescape (xmlEscape (js "a &lt; b")) ≠ js "a &lt; b".
Proof. split; [reflexivity|vm_compute; congruence]. Qed.

#[local] Existing Instance float_text.
#[local] Existing Instance toy_url.
#[local] Existing Instance toy_url_laws.
#[local] Existing Instance toy_export.
#[local] Existing Instance toy_export_laws.
#[local] Existing Instance toy_kdbx.
#[local] Existing Instance P2WFileSpec.FileSpec.toy_crypto.

Definition no_ids (n : nat) : jsstr := js "id".

Lemma demo_exportable : exportable [demo_cred] [demo_folder].
Proof. split; [repeat constructor..|reflexivity]. Qed.

Lemma json_exports_reimport_witness :
  ∃ text, export_text no_ids (js "v") FKeeper [demo_cred] [demo_folder] = Ok text ∧
    importFromFile no_ids 0 (mkFile (js "keeper.json") (utf8_encode text)) []
    = Ok (Objects (imported no_ids "keeper-json" [kept FKeeper demo_cred]) None).
Proof.
  eexists. split; [reflexivity|].
  apply (json_exports_reimport no_ids 0 no_ids (js "v") FKeeper [demo_cred] [demo_folder]); try reflexivity; [done|apply demo_exportable].
Defined.

Lemma archive_reimport_witness :
  ∃ bs, exportToPWDnow1PUX (mkDate 2024 0 31 12 30 59) no_ids 1700000000 [demo_cred] [demo_folder] = Ok bs ∧
    importFromFile no_ids 0 (mkFile (js "x.1pux") bs) [] = Ok (Objects (imported no_ids "1password-1pux" [kept_1pux demo_cred]) None).
Proof.
  eexists. split; [reflexivity|].
  eapply (archive_reimport no_ids 0 (mkDate 2024 0 31 12 30 59) no_ids 1700000000 [demo_cred] [demo_folder]); try reflexivity; apply demo_exportable.
Defined.

Lemma protected_export_reimport_witness :
  ∃ text, exportToPWDnowEncrypted 65535 [1; 2] [3] (js "now") [obj_ [("service", JStr (js "a"))]%string] [] (js "pw") = Ok text ∧
    importFromFile no_ids 0 (mkFile (js "x.json") (utf8_encode text)) []= Throw (Js (ErrorMsg ENCRYPTED_PWDNOW)).
Proof.
  eexists. split; [reflexivity|].
  apply (protected_export_reimport no_ids 0 65535 [1; 2] [3] (js "now") [obj_ [("service", JStr (js "a"))]%string] [] (js "pw"));
    try reflexivity; try done; repeat constructor; unfold is_byte; lia.
Defined.

Lemma keepass_xml_roundtrip_witness :
  ∃ text, buildKeePassXML (js "2024-01-31T12:30:59.000Z") [demo_cred] [demo_folder] = Ok text ∧
    importFromFile no_ids 0 (mkFile (js "k.xml") (utf8_encode text)) []
    = Ok (Objects (imported no_ids "keepass-xml" (named_entry demo_cred)) None).
Proof.
  eexists. split; [reflexivity|].
  eapply (keepass_xml_roundtrip no_ids 0 (js "2024-01-31T12:30:59.000Z") [demo_cred] [demo_folder]);
    [reflexivity|repeat constructor|repeat constructor|reflexivity|reflexivity|vm_compute; reflexivity].
Defined.

(** Two groups inside each other, one of each kind. *)
Definition demo_tree : bc_group :=
  BcGroup false [mkBc true (js "Mail") (js "https://m.example") (js "ann") (js "pw1")]
    [BcGroup true [mkBc false (js "Bank") [] (js "bob") (js "pw2")] [BcGroup false [] []]; BcGroup false [] []].

Lemma buttercup_tree_imported_witness :
  importButtercup no_ids (stringify (obj_ [("root", bc_json demo_tree)]%string))
  = Ok (imported no_ids "buttercup-json"
      [make_credential (js "Mail") (JStr (js "https://m.example")) (js "ann") (js "pw1") None None;
       make_credential (js "Bank") (JStr []) (js "bob") (js "pw2") None None]).
Proof.
  apply (buttercup_tree_imported no_ids (stringify (obj_ [("root", bc_json demo_tree)]%string)) demo_tree).
  right. vm_compute. reflexivity.
Defined.

End Reimport.
