(* ===== verification/VaultSyncSpec.v ===== *)
(** * Theorems on vault synchronisation *)
From S2P Require Import Prelude JsRuntime JsText Types VaultSync.

(** ** Operations as data *)

(** What the user sees of a resource. *)
Definition ui (a : app) (r : resource) : payload :=
  match r with
  | folders => PFolders (a_folders a)
  | credentials => PCreds (a_credentials a)
  | asset_holder => PAssets (a_assetHolder a)
  end.

(** The operations that write one resource. *)
Inductive vop :=
| OAddFolder (f : Folder) (uuid : jsstr) | OUpdateFolder (f : Folder) | OReorder (l : list Folder)
| OAddCred (c : Credential) | OUpdateCred (c : Credential) | ODeleteCred (id : cred_id)
| OMove (source target : jsstr) (ids : option (list cred_id)) | OAssets (x : AssetHolder).

Definition forget {A} (r : result op_error A) : result op_error unit :=
  match r with Ok _ => Ok tt | Throw e => Throw e end.

Definition run_op (a : app) (op : vop) (o : net) (now : Z) : app * result op_error unit :=
  match op with
  | OAddFolder f uuid => let '(a', r) := addFolder a f uuid None o now in (a', forget r)
  | OUpdateFolder f => updateFolder a f None o now
  | OReorder l => reorderFolders a l None o now
  | OAddCred c => addCredential a c None o now
  | OUpdateCred c => updateCredential a c None o now
  | ODeleteCred id => deleteCredential a id None o now
  | OMove s t ids => moveCredentials a s t ids None o now
  | OAssets x => updateAssetHolder a x None o now
  end.

Definition op_resource (op : vop) : resource :=
  match op with
  | OAddFolder _ _ | OUpdateFolder _ | OReorder _ => folders
  | OAssets _ => asset_holder
  | _ => credentials
  end.

(** The change an operation makes to what the user sees. *)
Definition edit (a : app) (op : vop) : app :=
  match op with
  | OAddFolder f uuid => with_folders a (a_folders a ++ [set_folder_id f (ensureId (a_folders a) (f_id f) uuid)])
  | OUpdateFolder f => with_folders a (replace_folder f (a_folders a))
  | OReorder l => with_folders a l
  | OAddCred c => with_credentials a (a_credentials a ++ [c])
  | OUpdateCred c => with_credentials a (map (λ x, if same_id (c_id x) (c_id c) then c else x) (a_credentials a))
  | ODeleteCred id => with_credentials a (List.filter (λ x, negb (same_id (c_id x) id)) (a_credentials a))
  | OMove s t ids => with_credentials a (map (λ c, if to_move s ids c then set_folderId c t else c) (a_credentials a))
  | OAssets x => with_assets a x
  end.

(** Every operation is its edit, one write of the whole collection, and the
    rollback of the edit when the write fails. *)
Lemma run_op_eq a op o now :
  a_daemonConnected a = false →
  run_op a op o now =
    let '(w, res) := _localWrite (a_world a) (op_resource op) (ui (edit a op) (op_resource op)) o now in
    match res with
    | Saved | Queued _ => (with_world (edit a op) w, Ok tt)
    | e => (with_world a w, Throw (WriteError e))
    end.
Proof.
  destruct a as [fs cs x dm l rd w]. cbn [a_daemonConnected]. intros ->.
  destruct op; cbn [run_op op_resource ui edit];
    unfold addFolder, updateFolder, reorderFolders, addCredential, updateCredential, deleteCredential,
      moveCredentials, updateAssetHolder, save_credentials, persist;
    cbn -[_localWrite]; destruct (_localWrite _ _ _ _ _) as [w' []]; done.
Qed.

(** ** Where the authoritative copy of a resource is *)

Definition doc_value (ks : keys) (d : doc) : option payload :=
  match d with Encrypted s => decryptFromServer ks s | Legacy p => Some p end.

(** The server shows what the user sees. *)
Definition synced (a : app) : Prop :=
  ∀ r, doc_value (w_keys (a_world a)) (server_doc (a_world a) r) = Some (ui a r).

(** The last write of a resource: the queued one if there is one. *)
Definition effective (w : world) (r : resource) : option payload :=
  match outbox_get r (readOutbox w) with
  | Some e => decryptFromServer (w_keys w) (encryptedValue e)
  | None => doc_value (w_keys w) (server_doc w r)
  end.

(** Nothing the user sees is lost: every resource is on the server or queued. *)
Definition covered (a : app) : Prop := ∀ r, effective (a_world a) r = Some (ui a r).

(** A signed-in session: a cookie and the v1 key; the outbox, when there is one,
    is readable. *)
Record signed_in (w : world) (k : Z) : Prop := {
  in_session : w_session w = true;
  in_key : k1 (w_keys w) = Some k;
  in_outbox : ∀ s, w_outbox w = Some s → sealed_by s = k;
}.

(** A signed-in session in an engine that does not limit the arguments of a call:
    every write can be made. *)
Record live (w : world) (k : Z) : Prop := {
  live_session : w_session w = true;
  live_key : k1 (w_keys w) = Some k;
  live_outbox : ∀ s, w_outbox w = Some s → sealed_by s = k;
  live_engine : w_engine w = no_limit;
}.

(** A signed-in session whose outbox can be rewritten as its entries are sent. *)
Record flushable (w : world) (k : Z) : Prop := {
  fl_in : signed_in w k;
  fl_fits : ∀ o, o `sublist_of` readOutbox w → fits_outbox (w_engine w) o = true;
}.

Lemma live_in w k : live w k → signed_in w k.
Proof. by intros []. Qed.

Lemma live_flushable w k : live w k → flushable w k.
Proof. intros Hl. split; [by apply live_in|]. intros o _. by rewrite (live_engine _ _ Hl). Qed.

(** ** Lemmas on the stores *)

Lemma decrypt_k1 {A} ks k (v : A) : k1 ks = Some k → decryptFromServer ks (Seal k v) = Some v.
Proof. intros H. unfold decryptFromServer. cbn [existsb sealed_by]. by rewrite H, bool_decide_eq_true_2. Qed.

Lemma outbox_get_set r e o r' :
  outbox_get r' (outbox_set r e o) = if decide (r' = r) then Some e else outbox_get r' o.
Proof.
  induction o as [|[r0 e0] o IH]; cbn [outbox_set outbox_get].
  - by destruct (decide (r' = r)).
  - destruct (decide (r = r0)) as [->|]; cbn [outbox_get].
    + by destruct (decide (r' = r0)).
    + rewrite IH. destruct (decide (r' = r0)), (decide (r' = r)); congruence.
Qed.

Lemma outbox_get_delete r o r' :
  outbox_get r' (outbox_delete r o) = if decide (r' = r) then None else outbox_get r' o.
Proof.
  unfold outbox_delete. induction o as [|[r0 e0] o IH]; [by destruct (decide (r' = r))|].
  rewrite filter_cons. cbn [fst]. destruct (decide (r0 ≠ r)); cbn [outbox_get]; rewrite ?IH;
    destruct (decide (r' = r0)), (decide (r' = r)); try done; exfalso; subst; tauto.
Qed.

Lemma outbox_delete_absent r o : outbox_get r o = None → outbox_delete r o = o.
Proof.
  unfold outbox_delete. induction o as [|[r0 e0] o IH]; [done|]. cbn [outbox_get].
  destruct (decide (r = r0)); [done|]. intros H. rewrite filter_cons_True by (cbn; congruence). by rewrite IH.
Qed.

Lemma outbox_set_nonnil r e o : outbox_set r e o ≠ [].
Proof. destruct o as [|[r' e'] o]; simpl; [done|]. by destruct (decide (r = r')). Qed.

Lemma seal_fits {A} (fits : A → bool) ks k v :
  k1 ks = Some k → fits v = true → encryptForServer fits ks v = Some (Seal k v).
Proof. intros Hk Hf. unfold encryptForServer. by rewrite Hk, Hf. Qed.

Lemma seal_live {w k} (Hl : live w k) p :
  encryptForServer (fits_payload (w_engine w)) (w_keys w) p = Some (Seal k p).
Proof. apply seal_fits; [apply Hl|]. by rewrite (live_engine _ _ Hl). Qed.

Lemma readOutbox_fits w k o :
  k1 (w_keys w) = Some k → fits_outbox (w_engine w) o = true → readOutbox (writeOutbox w o) = o.
Proof.
  intros Hk Hf. unfold writeOutbox. destruct o as [|re o]; [done|]. rewrite (seal_fits _ _ k) by done.
  unfold readOutbox. cbn [w_outbox set_outbox w_keys]. by rewrite decrypt_k1.
Qed.

Lemma readOutbox_write w k o : live w k → readOutbox (writeOutbox w o) = o.
Proof. intros Hl. apply (readOutbox_fits _ k); [apply Hl|]. by rewrite (live_engine _ _ Hl). Qed.

Lemma writeOutbox_frame w o :
  w_keys (writeOutbox w o) = w_keys w ∧ w_session (writeOutbox w o) = w_session w ∧
  w_server (writeOutbox w o) = w_server w ∧ w_engine (writeOutbox w o) = w_engine w.
Proof. unfold writeOutbox. destruct o; [done|]. by destruct (encryptForServer _ _ _). Qed.

Lemma writeOutbox_in w k o : signed_in w k → signed_in (writeOutbox w o) k.
Proof.
  intros [Hs Hk Ho]. destruct (writeOutbox_frame w o) as (E1 & E2 & _).
  split; [congruence|congruence|]. intros s. unfold writeOutbox. destruct o; [done|].
  unfold encryptForServer. rewrite Hk. destruct (fits_outbox _ _); [by intros [= <-]|apply Ho].
Qed.

Lemma writeOutbox_live w k o : live w k → live (writeOutbox w o) k.
Proof.
  intros Hl. destruct (writeOutbox_in w k o (live_in _ _ Hl)) as [? ? ?].
  split; try done. destruct (writeOutbox_frame w o) as (_ & _ & _ & ->). apply Hl.
Qed.

Lemma clear_read w k r : flushable w k → readOutbox (clearQueuedWrite w r) = outbox_delete r (readOutbox w).
Proof.
  intros [Hin Hf]. unfold clearQueuedWrite. destruct (outbox_get r (readOutbox w)) eqn:E.
  - apply (readOutbox_fits _ k); [apply Hin|]. apply Hf, sublist_filter.
  - symmetry. by apply outbox_delete_absent.
Qed.

Lemma clear_frame w r :
  w_keys (clearQueuedWrite w r) = w_keys w ∧ w_server (clearQueuedWrite w r) = w_server w ∧
  w_engine (clearQueuedWrite w r) = w_engine w.
Proof.
  unfold clearQueuedWrite. destruct (outbox_get r _); [|done].
  by destruct (writeOutbox_frame w (outbox_delete r (readOutbox w))) as (? & _ & ? & ?).
Qed.

Lemma clear_flushable w k r : flushable w k → flushable (clearQueuedWrite w r) k.
Proof.
  intros Hl. split.
  - unfold clearQueuedWrite. destruct (outbox_get r _); [by apply writeOutbox_in, Hl|apply Hl].
  - intros o. rewrite (clear_read w k r Hl). destruct (clear_frame w r) as (_ & _ & ->). intros Ho.
    apply Hl. etrans; [exact Ho|apply sublist_filter].
Qed.

Lemma put_online_flushable w k r v : flushable w k → flushable (put w r v Online).1 k.
Proof. by intros [[H1 H2 H3] H4]. Qed.

(** ** What one write does to a resource *)

Lemma write_online w k r p now :
  live w k →
  ∃ w', _localWrite w r p Online now = (w', Saved) ∧ live w' k ∧ w_keys w' = w_keys w ∧
    w_server w' = <[r := Encrypted (Seal k p)]> (w_server w) ∧ readOutbox w' = readOutbox w.
Proof.
  intros Hl. unfold _localWrite. rewrite (live_session _ _ Hl), (seal_live Hl).
  cbn [put]. eexists. split; [done|]. split; [by destruct Hl; split|]. done.
Qed.


Lemma ui_edit_other a op r : r ≠ op_resource op → ui (edit a op) r = ui a r.
Proof. by destruct op, r. Qed.

Lemma ui_with_world a w r : ui (with_world a w) r = ui a r.
Proof. by destruct r. Qed.

(** What decides the last write of a resource. *)
Lemma effective_ext w w' r :
  w_keys w' = w_keys w → outbox_get r (readOutbox w') = outbox_get r (readOutbox w) →
  w_server w' !! r = w_server w !! r → effective w' r = effective w r.
Proof. intros Hk Ho Hs. unfold effective, server_doc. by rewrite Hk, Ho, Hs. Qed.

(** ** Flushing *)

(** Every entry of the outbox, seen through the flush of a snapshot: resources
    of the snapshot that remain are unchanged. *)
Lemma flush_loop_effective k w snap outs acc :
  flushable w k → NoDup snap.*1 →
  (∀ r e, (r, e) ∈ snap → outbox_get r (readOutbox w) = Some e) →
  let '(w', _) := flush_loop w snap outs (λ w, w) acc in
  flushable w' k ∧ w_keys w' = w_keys w ∧ ∀ r, effective w' r = effective w r.
Proof.
  revert w outs acc. induction snap as [|[r e] snap IH]; intros w outs acc Hl Hnd Hsnap; cbn [flush_loop]; [done|].
  destruct (hd Down outs) as [| |n] eqn:Ho; cbn [put]; [|done|done].
  set (w1 := set_server w (<[r:=Encrypted (encryptedValue e)]> (w_server w))).
  assert (Hl1 : flushable w1 k) by (by apply (put_online_flushable w k r (encryptedValue e))).
  assert (Hr1 : readOutbox w1 = readOutbox w) by done.
  inversion Hnd as [|? ? Hnotin Hnd']; subst.
  specialize (IH (clearQueuedWrite w1 r) (tl outs) (acc ++ [r]) (clear_flushable _ _ r Hl1) Hnd').
  destruct (clear_frame w1 r) as (Ek & Es & _).
  assert (Hget : ∀ r', outbox_get r' (readOutbox (clearQueuedWrite w1 r)) =
    if decide (r' = r) then None else outbox_get r' (readOutbox w)).
  { intros r'. by rewrite (clear_read w1 k r Hl1), outbox_get_delete, Hr1. }
  destruct (flush_loop _ snap _ _ _) as [w' fr]. destruct IH as (Hl' & Hk' & Heff).
  { intros r' e' Hin. rewrite Hget. destruct (decide (r' = r)) as [->|].
    - exfalso. apply Hnotin. apply list_elem_of_fmap. by exists (r, e').
    - apply Hsnap. by apply elem_of_cons; right. }
  split; [done|]. split; [by rewrite Hk', Ek|]. intros r'. rewrite Heff.
  destruct (decide (r' = r)) as [->|Hne].
  - unfold effective. rewrite Hget, decide_True by done. rewrite Ek.
    unfold server_doc. rewrite Es. cbn [w_server w1 set_server]. rewrite lookup_insert_eq. cbn [default doc_value].
    rewrite (Hsnap r e) by (by apply elem_of_cons; left). done.
  - apply effective_ext; [by rewrite Ek|by rewrite Hget, decide_False|].
    rewrite Es. cbn [w_server w1 set_server]. by rewrite lookup_insert_ne.
Qed.

(** The outbox is an object: one entry per resource. *)
Definition outbox_ok (w : world) : Prop := NoDup (readOutbox w).*1.

Lemma outbox_get_in r e o : NoDup o.*1 → (r, e) ∈ o → outbox_get r o = Some e.
Proof.
  induction o as [|[r0 e0] o IH]; intros Hnd Hin; [by apply not_elem_of_nil in Hin|].
  cbn [fmap list_fmap fst] in Hnd. inversion Hnd as [|? ? Hni Hnd']; subst. cbn [outbox_get].
  apply elem_of_cons in Hin as [[= -> ->]|Hin]; [by rewrite decide_True|].
  rewrite decide_False; [by apply IH|]. intros ->. apply Hni, list_elem_of_fmap. by exists (r0, e).
Qed.

Lemma outbox_get_None r o : outbox_get r o = None ↔ r ∉ o.*1.
Proof.
  induction o as [|[r0 e0] o IH]; cbn [outbox_get fmap list_fmap fst].
  - split; [intros _; apply not_elem_of_nil|done].
  - rewrite not_elem_of_cons. destruct (decide (r = r0)); [naive_solver|]. rewrite IH. naive_solver.
Qed.

Lemma outbox_delete_keys r o : r ∉ (outbox_delete r o).*1.
Proof. apply outbox_get_None. by rewrite outbox_get_delete, decide_True. Qed.

Lemma outbox_set_NoDup r e o : NoDup o.*1 → NoDup (outbox_set r e o).*1.
Proof.
  induction o as [|[r0 e0] o IH]; intros Hnd; cbn [outbox_set]; [by repeat constructor; apply not_elem_of_nil|].
  cbn [fmap list_fmap fst] in Hnd. inversion Hnd as [|? ? Hni Hnd']; subst.
  destruct (decide (r = r0)) as [->|Hne]; [by constructor|]. cbn [fmap list_fmap fst]. constructor; [|by apply IH].
  rewrite <- outbox_get_None, outbox_get_set, decide_False by congruence. by apply outbox_get_None.
Qed.

(** A flush whose requests all succeed empties the outbox of its snapshot and puts
    every entry of it on the server, and nothing else. *)
Lemma flush_loop_clears k w snap outs acc :
  flushable w k → NoDup snap.*1 → Forall (λ o, o = Online) outs → (length snap <= length outs)%nat →
  let '(w', res) := flush_loop w snap outs (λ w, w) acc in
  flushable w' k ∧ authExpired res = false ∧ flushed res = acc ++ snap.*1 ∧
  (∀ r, outbox_get r (readOutbox w') = if decide (r ∈ snap.*1) then None else outbox_get r (readOutbox w)) ∧
  ∀ r, server_doc w' r = match outbox_get r snap with Some e => Encrypted (encryptedValue e) | None => server_doc w r end.
Proof.
  revert w outs acc. induction snap as [|[r e] snap IH]; intros w outs acc Hl Hnd Hon Hlen; cbn [flush_loop].
  - split; [done|]. split; [done|]. split; [by rewrite app_nil_r|]. split; [|done]. intros r.
    rewrite decide_False; [done|]. apply not_elem_of_nil.
  - destruct outs as [|o outs]; [simpl in Hlen; lia|]. apply Forall_cons_iff in Hon as [-> Hon].
    inversion Hnd as [|? ? Hni Hnd']; subst.
    cbn [hd put tl]. set (w1 := set_server w (<[r:=Encrypted (encryptedValue e)]> (w_server w))).
    assert (Hl1 : flushable w1 k) by (by apply (put_online_flushable w k r (encryptedValue e))).
    specialize (IH (clearQueuedWrite w1 r) outs (acc ++ [r]) (clear_flushable _ _ r Hl1) Hnd' Hon).
    destruct (flush_loop _ snap _ _ _) as [w' res]. destruct IH as (Hl' & Ha & Hf & Hget & Hdoc); [simpl in Hlen; lia|].
    split; [done|]. split; [done|]. split; [by rewrite Hf, <- app_assoc|]. split.
    + intros r'. rewrite Hget, (clear_read w1 k r Hl1), outbox_get_delete. change (readOutbox w1) with (readOutbox w).
      cbn [fmap list_fmap fst]. destruct (decide (r' ∈ snap.*1)), (decide (r' = r)), (decide (r' ∈ r :: snap.*1));
        try done; exfalso; set_solver.
    + intros r'. rewrite Hdoc. cbn [outbox_get]. unfold server_doc. destruct (clear_frame w1 r) as (_ & -> & _).
      cbn [w1 w_server set_server]. destruct (decide (r' = r)) as [->|Hne].
      * apply outbox_get_None in Hni. by rewrite Hni, lookup_insert_eq.
      * by rewrite lookup_insert_ne.
Qed.

(** ** Unique ids *)

Section fresh.
Context (seen : list jsstr).

(** Seen ids at least as long as [id]: each suffix leaves fewer of them. *)
Definition longer (id : jsstr) : list jsstr := filter (λ s, (length id <= length s)%nat) seen.

Lemma longer_less id id' :
  id ∈ seen → (length id < length id')%nat → (length (longer id') < length (longer id))%nat.
Proof.
  intros Hin Hlt. unfold longer. induction seen as [|s l IH]; [by apply not_elem_of_nil in Hin|].
  assert (Hle : (length (filter (λ s, (length id' <= length s)%nat) l) <=
                 length (filter (λ s, (length id <= length s)%nat) l))%nat).
  { clear -Hlt. induction l as [|x l IH]; [done|]. rewrite !filter_cons.
    destruct (decide (length id' <= length x)%nat), (decide (length id <= length x)%nat); simpl; lia. }
  rewrite !filter_cons. apply elem_of_cons in Hin as [->|Hin].
  - rewrite (decide_False (P := (length id' <= length s)%nat)) by lia.
    rewrite (decide_True (P := (length s <= length s)%nat)) by lia. simpl. lia.
  - specialize (IH Hin). destruct (decide (length id' <= length s)%nat), (decide (length id <= length s)%nat);
      simpl; lia.
Qed.

Lemma fresh_id_notin fuel uuids id :
  (length (longer id) < fuel)%nat → fresh_id fuel seen uuids id ∉ seen.
Proof.
  revert id. induction fuel as [|f IH]; intros id Hf; [lia|]. cbn [fresh_id].
  destruct (decide (id ∈ seen)) as [Hin|]; [|done]. apply IH.
  pose proof (longer_less id (id ++ js "-" ++ take 8 (uuids f)) Hin) as Hless.
  rewrite !length_app in Hless. change (length (js "-")) with 1%nat in Hless. lia.
Qed.
End fresh.

Lemma longer_bound seen id : (length (longer seen id) <= length seen)%nat.
Proof. apply length_filter. Qed.

(** The loop terminates with an id that was not seen. *)
Lemma fresh_id_fresh seen uuids id : fresh_id (S (length seen)) seen uuids id ∉ seen.
Proof. apply fresh_id_notin. pose proof (longer_bound seen id). lia. Qed.

Lemma fresh_id_keep fuel seen uuids id : id ∉ seen → fresh_id (S fuel) seen uuids id = id.
Proof. intros H. cbn [fresh_id]. by rewrite decide_False. Qed.

Lemma dedup_folders_ids seen uuids l :
  NoDup (map f_id (dedup_folders seen uuids l)) ∧
  (∀ i, i ∈ seen → i ∉ map f_id (dedup_folders seen uuids l)).
Proof.
  revert seen. induction l as [|f l IH]; intros seen; cbn [dedup_folders map f_id].
  - split; [constructor|]. intros i _. apply not_elem_of_nil.
  - set (id := fresh_id _ _ _ _). destruct (IH (id :: seen)) as [Hnd Hdis]. split.
    + constructor; [|done]. apply Hdis. set_solver.
    + intros i Hi. rewrite not_elem_of_cons. split; [|apply Hdis; set_solver].
      intros ->. revert Hi. apply fresh_id_fresh.
Qed.

Lemma dedup_folders_id seen uuids l :
  NoDup (map f_id l) → (∀ f, f ∈ l → f_id f ∉ seen) → dedup_folders seen uuids l = l.
Proof.
  revert seen. induction l as [|f l IH]; intros seen Hnd Hs; [done|]. cbn [dedup_folders].
  inversion Hnd as [|? ? Hni Hnd']; subst. rewrite fresh_id_keep by (apply Hs; set_solver).
  rewrite IH; [by destruct f|done|]. intros g Hg. rewrite not_elem_of_cons. split; [|apply Hs; set_solver].
  intros Heq. apply Hni. rewrite <- Heq. apply list_elem_of_fmap. eauto.
Qed.

Lemma dedup_credentials_folder seen uuids l :
  map c_folderId (dedup_credentials seen uuids l) = map c_folderId l.
Proof. revert seen. induction l as [|c l IH]; intros seen; [done|]. simpl. by rewrite IH. Qed.

(** ** Two writes at once *)

Lemma iter_done r p o now n w res :
  Nat.iter n (λ wt, task_step r p o now wt.1 wt.2) (w, TDone res) = (w, TDone res).
Proof. induction n as [|n IH]; [done|]. change (Nat.iter (S n) ?f ?x) with (f (Nat.iter n f x)). by rewrite IH. Qed.

(** A write that runs alone, step by step, is [_localWrite]. *)
Lemma write_in_steps r p o now w :
  Nat.iter 5 (λ wt, task_step r p o now wt.1 wt.2) (w, TStart) =
  ((_localWrite w r p o now).1, TDone (_localWrite w r p o now).2).
Proof.
  rewrite Nat.iter_succ_r. cbn [fst snd task_step]. destruct (w_session w) eqn:Hs.
  2: { rewrite iter_done. unfold _localWrite. rewrite Hs. destruct (k2 (w_keys w)); [by destruct (fits_payload _ _)|done]. }
  unfold _localWrite. rewrite Hs.
  destruct (encryptForServer _ (w_keys w) p) as [v|]; [|by rewrite iter_done].
  rewrite Nat.iter_succ_r. cbn [fst snd task_step].
  destruct o as [| |n]; cbn [put]; [by rewrite iter_done| |by destruct (n =? 401); rewrite iter_done].
  do 3 (rewrite Nat.iter_succ_r; cbn [fst snd task_step]). cbn [Nat.iter nat_rect].
  unfold queueWrite, writeOutbox. destruct (outbox_set r (mkEntry v now) (readOutbox w)) eqn:E;
    [by apply outbox_set_nonnil in E|]. by destruct (encryptForServer _ _ (_ :: _)).
Qed.

(** Both read the outbox before either stores it: the second store wins. *)
Definition race : list bool := [true; false; true; false; true; false; true; false; true; false].

Lemma offline_race w k fs cs now :
  live w k →
  let s := run_both fs cs true race Down Down now w in
  pr_first s = Some (Queued folders) ∧
  pr_world s = set_outbox w (Some (Seal k (outbox_set credentials (mkEntry (Seal k (PCreds cs)) now) (readOutbox w)))).
Proof.
  intros [Hs Hk _ He]. destruct w as [[q1 ql q2] ses srv ob loc tv eng]. simpl in Hs, Hk, He. subst.
  unfold run_both, race. done.
Qed.

(** One after the other: both entries are queued. *)
Lemma offline_serial w k fs cs now :
  live w k →
  let s := run_both fs cs true [] Down Down now w in
  pr_first s = Some (Queued folders) ∧ live (pr_world s) k ∧ w_keys (pr_world s) = w_keys w ∧
  w_server (pr_world s) = w_server w ∧
  readOutbox (pr_world s) =
    outbox_set credentials (mkEntry (Seal k (PCreds cs)) now)
      (outbox_set folders (mkEntry (Seal k (PFolders fs)) now) (readOutbox w)).
Proof.
  intros Hl s. pose proof Hl as [Hs Hk _ He].
  set (q1 := outbox_set folders (mkEntry (Seal k (PFolders fs)) now) (readOutbox w)).
  set (w1 := set_outbox w (Some (Seal k q1))).
  set (q2 := outbox_set credentials (mkEntry (Seal k (PCreds cs)) now) (readOutbox w1)).
  assert (E : s = mkPair (set_outbox w1 (Some (Seal k q2))) (TDone (Queued folders)) (TDone (Queued credentials))
                (Some (Queued folders))).
  { subst s w1 q2 q1. destruct w as [[j1 jl j2] ses srv ob loc tv eng]. simpl in Hs, Hk, He. subst. done. }
  rewrite E. cbn [pr_first pr_world]. split; [done|]. split; [split; [done|done|by intros ? [= <-]|done]|].
  split; [done|]. split; [done|]. unfold readOutbox at 1. cbn [w_outbox set_outbox w_keys w1].
  rewrite decrypt_k1 by done. cbn [default]. unfold q2, readOutbox. cbn [w_outbox set_outbox w_keys w1].
  by rewrite decrypt_k1 by done.
Qed.

Lemma readOutbox_sealed w k q : k1 (w_keys w) = Some k → readOutbox (set_outbox w (Some (Seal k q))) = q.
Proof. intros H. unfold readOutbox. cbn [w_outbox set_outbox w_keys]. by rewrite decrypt_k1. Qed.

(** The folder write succeeds and the credential write is refused, in any
    order: the states the two writes can be in. *)
Definition refused_inv (w : world) (k n : Z) (fs : list Folder) (cs : list Credential) (s : pair_run) : Prop :=
  live (pr_world s) k ∧ w_keys (pr_world s) = w_keys w ∧
  (pr_folders s = TStart ∨ pr_folders s = TPut (Seal k (PFolders fs)) ∨
   pr_folders s = TDone Saved ∧ w_server (pr_world s) !! folders = Some (Encrypted (Seal k (PFolders fs)))) ∧
  ((pr_creds s = TStart ∨ pr_creds s = TPut (Seal k (PCreds cs))) ∧ pr_first s = None ∨
   pr_creds s = TDone (PutFailed n) ∧ pr_first s = Some (PutFailed n)).

Lemma refused_step w k n fs cs now s b :
  n ≠ 401 → refused_inv w k n fs cs s → refused_inv w k n fs cs (pair_step fs cs Online (Status n) now s b).
Proof.
  intros Hn (Hl & Hk & Hf & Hc). destruct s as [ws tf tc first]. cbn [pr_world pr_folders pr_creds pr_first] in *.
  pose proof Hl as [Hs Hkey Hob Heng].
  assert (Hfirst : ∀ t, rejection t = None → first_of first t = first) by (intros t Ht; by destruct first).
  destruct b; unfold pair_step; cbn [pr_world pr_folders pr_creds pr_first].
  - destruct Hf as [-> |[-> |[-> Hsv]]]; cbn [task_step]; rewrite ?Hs, ?(seal_live Hl); cbn [put];
      rewrite Hfirst by done; split_and!; cbn [pr_world pr_folders pr_creds pr_first]; try done; eauto.
    right. right. split; [done|]. cbn [w_server set_local set_server]. apply lookup_insert_eq.
  - destruct Hc as [[[-> | ->] ->]|[-> ->]]; cbn [task_step]; rewrite ?Hs, ?(seal_live Hl); cbn [put];
      rewrite ?(proj2 (Z.eqb_neq n 401)) by done; split_and!; cbn [pr_world pr_folders pr_creds pr_first]; eauto.
Qed.

Lemma refused_run w k n fs cs now schedule s :
  n ≠ 401 → refused_inv w k n fs cs s →
  refused_inv w k n fs cs (foldl (pair_step fs cs Online (Status n) now) s schedule).
Proof. intros Hn. revert s. induction schedule as [|b l IH]; intros s H; [done|]. by apply IH, refused_step. Qed.

(** Awaits a write still has before it. *)
Definition awaits (t : wtask) : nat :=
  match t with TStart => 5 | TPut _ => 4 | TRead _ => 3 | TSeal _ => 2 | TStore _ => 1 | TDone _ => 0 end.

Lemma awaits_step r p o now w t : (awaits (task_step r p o now w t).2 <= pred (awaits t))%nat.
Proof.
  destruct t; simpl; try lia.
  - destruct (w_session w); [|simpl; lia]. destruct (encryptForServer _ _ _); simpl; lia.
  - destruct o as [| |n]; simpl; try lia. destruct (n =? 401); simpl; lia.
Qed.

Lemma awaits_run fs cs o1 o2 now s l :
  let s' := foldl (pair_step fs cs o1 o2 now) s l in
  (awaits (pr_folders s') <= awaits (pr_folders s) - length (List.filter id l))%nat ∧
  (awaits (pr_creds s') <= awaits (pr_creds s) - length (List.filter negb l))%nat.
Proof.
  revert s. induction l as [|b l IH]; intros s; simpl; [lia|].
  specialize (IH (pair_step fs cs o1 o2 now s b)). simpl in IH. unfold pair_step in *. destruct b; simpl in *.
  - pose proof (awaits_step folders (PFolders fs) o1 now (pr_world s) (pr_folders s)) as Hs.
    destruct (task_step _ _ _ _ _ _) as [w t]. simpl in *. lia.
  - pose proof (awaits_step credentials (PCreds cs) o2 now (pr_world s) (pr_creds s)) as Hs.
    destruct (task_step _ _ _ _ _ _) as [w t]. simpl in *. lia.
Qed.

(** Both writes end, whatever the order of their steps. *)
Lemma run_both_done fs cs changed schedule o1 o2 now w :
  let s := run_both fs cs changed schedule o1 o2 now w in
  (∃ r, pr_folders s = TDone r) ∧ ∃ r, pr_creds s = TDone r.
Proof.
  intros s. subst s. unfold run_both. rewrite foldl_app. set (s1 := foldl _ _ schedule). clearbody s1.
  pose proof (awaits_run fs cs o1 o2 now s1 (replicate 5 true ++ replicate 5 false)) as H.
  cbv zeta in H. set (s2 := foldl _ _ _) in *. clearbody s2.
  change (length (List.filter id _)) with 5%nat in H. change (length (List.filter negb _)) with 5%nat in H.
  assert (H5 : ∀ t, (awaits t <= 5)%nat) by (intros []; simpl; lia).
  pose proof (H5 (pr_folders s1)). pose proof (H5 (pr_creds s1)).
  assert (Hend : ∀ t, awaits t = 0%nat → ∃ r, t = TDone r) by (intros []; simpl; try lia; eauto).
  split; apply Hend; lia.
Qed.

Lemma online_refused w k fs cs schedule n now :
  live w k → n ≠ 401 →
  let s := run_both fs cs true schedule Online (Status n) now w in
  pr_first s = Some (PutFailed n) ∧ w_keys (pr_world s) = w_keys w ∧
  w_server (pr_world s) !! folders = Some (Encrypted (Seal k (PFolders fs))).
Proof.
  intros Hl Hn. destruct (run_both_done fs cs true schedule Online (Status n) now w) as [[r1 E1] [r2 E2]].
  assert (H : refused_inv w k n fs cs (run_both fs cs true schedule Online (Status n) now w)).
  { apply refused_run; [done|]. split_and!; [done|done|by left|]. left. split; [by left|done]. }
  destruct H as (_ & Hk & Hf & Hc). rewrite E1 in Hf. rewrite E2 in Hc.
  split; [|split; [done|]].
  - destruct Hc as [[[?|?] _]|[_ ?]]; done.
  - by destruct Hf as [?|[?|[_ ?]]].
Qed.

Lemma creds_shrink id l :
  (∃ c, c ∈ l ∧ c_folderId c = id) → (len (kept_creds id l) =? len l) = false.
Proof.
  intros (c & Hc & Hcid). apply Z.eqb_neq. unfold len, kept_creds. intros Heq.
  assert (Hlt : (length (List.filter (λ c, negb (str_eqb (c_folderId c) id)) l) < length l)%nat); [|lia].
  clear Heq. induction l as [|x l IH]; [by apply not_elem_of_nil in Hc|].
  simpl. assert (Hle : (length (List.filter (λ c, negb (str_eqb (c_folderId c) id)) l) <= length l)%nat)
    by apply filter_length_le.
  apply elem_of_cons in Hc as [<-|Hc].
  - rewrite Hcid. rewrite (proj2 (str_eqb_eq id id)) by done. simpl. lia.
  - specialize (IH Hc). destruct (negb _); simpl; lia.
Qed.

Lemma folders_shrink id l : (∃ f, f ∈ l ∧ f_id f = id) → kept_folders id l = l → False.
Proof.
  intros (f & Hf & Hid) Heq. rewrite <- Heq in Hf. unfold kept_folders in Hf.
  apply list_elem_of_In, List.filter_In in Hf as [_ Hf]. rewrite Hid in Hf.
  by rewrite (proj2 (str_eqb_eq id id)) in Hf by done.
Qed.

(** *** Two writes that are both refused *)

(** The errors a refused write rejects with. *)
Definition refusal (n n' : Z) (e : write_result) : Prop := e = KeyNotReady ∨ e = PutFailed n ∨ e = PutFailed n'.

(** A write refused with [n] has not touched the stores: it waits or has failed. *)
Definition refused_task (n : Z) (t : wtask) : Prop :=
  t = TStart ∨ (∃ v, t = TPut v) ∨ t = TDone KeyNotReady ∨ t = TDone (PutFailed n).

Lemma refused_task_step r p n now w t :
  w_session w = true → n ≠ 401 → refused_task n t →
  (task_step r p (Status n) now w t).1 = w ∧ refused_task n (task_step r p (Status n) now w t).2.
Proof.
  intros Hs Hn Ht. unfold refused_task in *. destruct Ht as [-> |[[v ->]|[-> | ->]]]; cbn [task_step put].
  - rewrite Hs. destruct (encryptForServer _ _ _); cbn [fst snd]; eauto 10.
  - rewrite (proj2 (Z.eqb_neq n 401)) by done. cbn [fst snd]. auto.
  - auto.
  - auto.
Qed.

Lemma refused_rejects n n' first t :
  (∀ e, first = Some e → refusal n n' e) → refused_task n t ∨ refused_task n' t ∨ t = TDone Saved →
  ∀ e, first_of first t = Some e → refusal n n' e.
Proof.
  intros Hf Ht e He. destruct first as [e0|]; [by apply Hf|]. cbn [first_of] in He. unfold refusal.
  destruct Ht as [[-> |[[v ->]|[-> | ->]]]|[[-> |[[v ->]|[-> | ->]]]| ->]]; cbn in He; try done; injection He as <-; auto.
Qed.

Definition both_inv (w : world) (n n' : Z) (s : pair_run) : Prop :=
  pr_world s = w ∧ refused_task n (pr_folders s) ∧ (refused_task n' (pr_creds s) ∨ pr_creds s = TDone Saved) ∧
  (∀ e, pr_first s = Some e → refusal n n' e) ∧ (pr_first s = None → rejection (pr_folders s) = None).

Lemma both_step w n n' fs cs now s b :
  w_session w = true → n ≠ 401 → n' ≠ 401 → both_inv w n n' s →
  both_inv w n n' (pair_step fs cs (Status n) (Status n') now s b).
Proof.
  intros Hs Hn Hn' (Hw & Hf & Hc & Hfirst & Hnone). destruct s as [ws tf tc first].
  cbn [pr_world pr_folders pr_creds pr_first] in *. subst ws.
  destruct b; unfold pair_step; cbn [pr_world pr_folders pr_creds pr_first].
  - destruct (refused_task_step folders (PFolders fs) n now w tf Hs Hn Hf) as [E1 E2].
    destruct (task_step _ _ _ _ _ _) as [w' t]. cbn [fst snd] in *. split_and!; cbn; try done.
    + apply refused_rejects; auto.
    + by destruct first.
  - assert (Ht : (task_step credentials (PCreds cs) (Status n') now w tc).1 = w ∧
      (refused_task n' (task_step credentials (PCreds cs) (Status n') now w tc).2 ∨
       (task_step credentials (PCreds cs) (Status n') now w tc).2 = TDone Saved)).
    { destruct Hc as [Hc| ->]; [|auto].
      destruct (refused_task_step credentials (PCreds cs) n' now w tc Hs Hn' Hc). auto. }
    destruct Ht as [E1 E2].
    destruct (task_step _ _ _ _ _ _) as [w' t]. cbn [fst snd] in *. split_and!; cbn; try done.
    + apply refused_rejects; [done|]. destruct E2; auto.
    + destruct first; [done|]. intros _. by apply Hnone.
Qed.

Lemma both_refused w k fs cs changed schedule n n' now :
  signed_in w k → n ≠ 401 → n' ≠ 401 →
  let s := run_both fs cs changed schedule (Status n) (Status n') now w in
  ∃ e, refusal n n' e ∧ pr_first s = Some e ∧ pr_world s = w.
Proof.
  intros Hin Hn Hn' s. destruct (run_both_done fs cs changed schedule (Status n) (Status n') now w) as [[r1 E1] _]. fold s in E1.
  assert (H : both_inv w n n' s).
  { unfold s, run_both. generalize (schedule ++ replicate 5 true ++ replicate 5 false). intros l.
    assert (H0 : both_inv w n n' (mkPair w TStart (if changed then TStart else TDone Saved) None)).
    { split_and!; cbn; try done; [by left|]. destruct changed; [left; by left|by right]. }
    revert H0. generalize (mkPair w TStart (if changed then TStart else TDone Saved) None).
    induction l as [|b l IH]; intros s0 Hs0; [done|]. apply IH, both_step; try done. apply Hin. }
  destruct H as (Hw & Hf & _ & Hfirst & Hnone). destruct (pr_first s) as [e|] eqn:E; [by exists e; auto|].
  specialize (Hnone eq_refl). rewrite E1 in Hnone, Hf.
  by destruct Hf as [?|[[v ?]|[[= ->]|[= ->]]]].
Qed.

(** *** One write that is queued *)



(** *** The deletion of a folder offline *)






(** ** The theorems *)

Module SyncSpec.

(** While the server answers, the server and the screen agree.  An operation
    whose write succeeds keeps every collection on the server equal to the one
    the user sees. *)
Theorem online_op_synced a k op now :
  a_daemonConnected a = false → live (a_world a) k → synced a →
  let '(a', r) := run_op a op Online now in r = Ok tt ∧ synced a' ∧ ∀ x, ui a' x = ui (edit a op) x.
Proof.
  intros Hd Hl Hsync. rewrite run_op_eq by done.
  destruct (write_online (a_world a) k (op_resource op) (ui (edit a op) (op_resource op)) now Hl)
    as (w' & -> & Hl' & Hk & Hs & _).
  split; [done|]. split; [|intros; apply ui_with_world]. intros r. rewrite ui_with_world. cbn [a_world with_world].
  rewrite Hk. unfold server_doc. rewrite Hs. destruct (decide (r = op_resource op)) as [->|Hne].
  - rewrite lookup_insert_eq. cbn [default doc_value]. apply decrypt_k1. apply Hl.
  - rewrite lookup_insert_ne by done. rewrite ui_edit_other by done. apply Hsync.
Qed.

(** C28: a write the server refuses changes nothing.  When the server answers with an
    error status other than 401, an operation that writes one collection throws, the
    screen shows what it showed before and no store is touched, whether or not the
    collection fits the engine's limit; and so does the deletion of a folder, which
    writes two collections at once, when both writes are refused, whatever the order of
    their steps.  (When one of the two is refused and the other is not, see
    [deleteFolder_partial].) *)
Theorem refused_op_rolls_back a k n n' now :
  a_daemonConnected a = false → signed_in (a_world a) k → n ≠ 401 → n' ≠ 401 →
  (∀ op, run_op a op (Status n) now =
    (a, Throw (WriteError (if fits_payload (w_engine (a_world a)) (ui (edit a op) (op_resource op))
                           then PutFailed n else KeyNotReady)))) ∧
  (∀ id schedule, ∃ e, refusal n n' e ∧
    deleteFolder a id None schedule (Status n) (Status n') now = (a, Throw (WriteError e))).
Proof.
  intros Hd Hin Hn Hn'. split.
  - intros op. rewrite run_op_eq by done. unfold _localWrite. rewrite (in_session _ _ Hin).
    unfold encryptForServer. rewrite (in_key _ _ Hin). destruct (fits_payload _ _); [|by destruct a].
    cbn [put]. rewrite (proj2 (Z.eqb_neq n 401)) by done. by destruct a.
  - intros id schedule. unfold deleteFolder. rewrite Hd. cbn [a_world with_credentials with_folders].
    destruct (both_refused (a_world a) k (kept_folders id (a_folders a)) (kept_creds id (a_credentials a))
      (negb (len (kept_creds id (a_credentials a)) =? len (a_credentials a))) schedule n n' now Hin Hn Hn')
      as (e & He & -> & ->).
    exists e. split; [done|]. destruct a. by destruct He as [-> |[-> | ->]].
Qed.


(** C27: reconnecting delivers.  In a flush during which nothing else writes to the
    stores and every request succeeds, with an outbox the engine can rewrite as its
    entries are sent, every queued write is on the server, every other collection there
    is as it was, and the outbox is empty; so when every collection the user sees was
    on the server or queued, the server shows what the user sees.  Outside these
    conditions: an older queued write replaces a newer one ([stale_queue_overwrites]),
    and a write queued meanwhile is dropped ([flush_drops_newer]). *)
Theorem flush_delivers a k outcomes :
  flushable (a_world a) k → outbox_ok (a_world a) →
  Forall (λ o, o = Online) outcomes → (length (readOutbox (a_world a)) <= length outcomes)%nat →
  let '(w', res) := flushOutbox (a_world a) outcomes (λ w, w) in
  (∀ r, server_doc w' r = match outbox_get r (readOutbox (a_world a)) with
                          | Some e => Encrypted (encryptedValue e)
                          | None => server_doc (a_world a) r
                          end) ∧
  (∀ r, outbox_get r (readOutbox w') = None) ∧
  flushed res = (readOutbox (a_world a)).*1 ∧ authExpired res = false ∧
  (covered a → synced (with_world a w')).
Proof.
  intros Hl Hok Hon Hlen. unfold flushOutbox.
  pose proof (flush_loop_effective k (a_world a) _ outcomes [] Hl Hok (λ r e, outbox_get_in r e _ Hok)) as He.
  pose proof (flush_loop_clears k (a_world a) (readOutbox (a_world a)) outcomes [] Hl Hok Hon Hlen) as Hf.
  destruct (flush_loop _ _ _ _ _) as [w' res]. destruct He as (_ & Hk & Heff).
  destruct Hf as (_ & Ha & Hfl & Hget & Hdoc).
  assert (Hnone : ∀ r, outbox_get r (readOutbox w') = None).
  { intros r. rewrite Hget. case_decide as Hin; [done|]. by apply outbox_get_None. }
  split_and!; try done. intros Hc r. rewrite ui_with_world, <- (Hc r), <- Heff. unfold effective. by rewrite Hnone.
Qed.

(** A flush that is interrupted loses nothing: whatever the outcomes of its
    requests, every collection is still on the server or queued. *)
Theorem interrupted_flush_covered a k outcomes :
  flushable (a_world a) k → outbox_ok (a_world a) → covered a →
  covered (with_world a (flushOutbox (a_world a) outcomes (λ w, w)).1).
Proof.
  intros Hl Hok Hc. unfold flushOutbox.
  pose proof (flush_loop_effective k (a_world a) _ outcomes [] Hl Hok (λ r e, outbox_get_in r e _ Hok)) as He.
  destruct (flush_loop _ _ _ _ _) as [w' res]. destruct He as (_ & _ & Heff).
  intros r. cbn [fst a_world with_world]. by rewrite ui_with_world, Heff.
Qed.

(** A queued write outlives a newer one.  The code never removes the queued
    write of a resource when a later write of the same resource succeeds, so the
    next flush puts the older collection back on the server: the new state is
    only on the screen. *)
Theorem stale_queue_overwrites a k op now e outcomes :
  a_daemonConnected a = false → live (a_world a) k → outbox_ok (a_world a) →
  outbox_get (op_resource op) (readOutbox (a_world a)) = Some e →
  Forall (λ o, o = Online) outcomes → (length (readOutbox (a_world a)) <= length outcomes)%nat →
  let '(a', r) := run_op a op Online now in
  let '(w', res) := flushOutbox (a_world a') outcomes (λ w, w) in
  r = Ok tt ∧ server_doc (a_world a') (op_resource op) = Encrypted (Seal k (ui (edit a op) (op_resource op))) ∧
  doc_value (w_keys w') (server_doc w' (op_resource op)) = decryptFromServer (w_keys w') (encryptedValue e).
Proof.
  intros Hd Hl Hok He Hon Hlen. rewrite run_op_eq by done.
  destruct (write_online (a_world a) k (op_resource op) (ui (edit a op) (op_resource op)) now Hl)
    as (w1 & -> & Hl1 & Hk1 & Hs1 & Ho1). cbn [a_world with_world].
  unfold flushOutbox. rewrite Ho1.
  assert (Hok1 : NoDup (readOutbox w1).*1) by (by rewrite Ho1).
  assert (Hin1 : ∀ r e', (r, e') ∈ readOutbox (a_world a) → outbox_get r (readOutbox w1) = Some e').
  { intros r e' Hin. rewrite Ho1. by apply outbox_get_in. }
  pose proof (flush_loop_effective k w1 (readOutbox (a_world a)) outcomes [] (live_flushable _ _ Hl1) Hok Hin1) as Heff.
  pose proof (flush_loop_clears k w1 (readOutbox (a_world a)) outcomes [] (live_flushable _ _ Hl1) Hok Hon Hlen) as Hf.
  destruct (flush_loop w1 _ _ _ _) as [w2 res]. destruct Heff as (_ & Hk2 & Heff). destruct Hf as (_ & _ & _ & Hget & _).
  split; [done|]. split; [unfold server_doc; by rewrite Hs1, lookup_insert_eq|].
  specialize (Heff (op_resource op)). unfold effective in Heff.
  assert (Hin : op_resource op ∈ (readOutbox (a_world a)).*1).
  { destruct (decide (op_resource op ∈ (readOutbox (a_world a)).*1)) as [|Hn]; [done|].
    apply outbox_get_None in Hn. congruence. }
  rewrite Hget, decide_True in Heff by done. rewrite Heff, Ho1, He. by rewrite Hk2.
Qed.

(** A failed read becomes an empty vault, and the next edit makes it
    permanent.  When reading the credentials fails, the network being down or the
    server answering an error, the screen shows no credentials and the vault counts
    as loaded; adding one then replaces the whole collection on the server by the
    single new credential, whatever it held. *)
Theorem failed_load_overwrites a k uuids o c now :
  a_daemonConnected a = false → live (a_world a) k → (o = Down ∨ ∃ n, o = Status n ∧ n ≠ 401) →
  let a1 := performLoad a false true uuids Online o Online in
  a_credentials a1 = [] ∧ a_vaultReady a1 = true ∧ a_world a1 = a_world a ∧
  let '(a2, r) := run_op a1 (OAddCred c) Online now in
  r = Ok tt ∧ server_doc (a_world a2) credentials = Encrypted (Seal k (PCreds [c])).
Proof.
  intros Hd Hl Ho. pose proof Hl as [Hs Hk _ _].
  assert (Hread : _localRead (a_world a) credentials o = (a_world a, RNull)).
  { unfold _localRead. rewrite Hs. destruct Ho as [->|(n & -> & Hn)]; [done|].
    by repeat (match goal with |- context [match ?p with _ => _ end] => is_var p; destruct p end). }
  assert (Hon : ∀ r, ∃ x, _localRead (a_world a) r Online = (a_world a, x)).
  { intros r. unfold _localRead. rewrite Hs. destruct (server_doc _ r) as [s|p]; [|eauto].
    destruct (decryptFromServer _ s); eauto. }
  destruct (Hon folders) as [xf Hf]. destruct (Hon asset_holder) as [xa Ha].
  set (a1 := performLoad a false true uuids Online o Online).
  assert (Ha1 : a_credentials a1 = [] ∧ a_vaultReady a1 = true ∧ a_world a1 = a_world a ∧ a_daemonConnected a1 = false).
  { unfold a1, performLoad. rewrite Hread, Hf, Ha, Hs. cbn [andb orb negb].
    rewrite andb_false_r. cbn [loadLocalCredentials]. destruct (tv_active _); cbn [fmap option_fmap option_map];
      destruct (loadLocalFolders uuids xf), (loadLocalAssetHolder xa); split_and!; done || exact Hd. }
  destruct Ha1 as (Hc1 & Hr1 & Hw1 & Hd1). split; [done|]. split; [done|]. split; [done|].
  rewrite run_op_eq by done. cbn [op_resource ui edit a_credentials with_credentials]. rewrite Hc1, Hw1.
  change ([] ++ [c]) with [c].
  destruct (write_online (a_world a) k credentials (PCreds [c]) now Hl) as (w' & -> & _ & _ & Hsv & _).
  split; [done|]. cbn [a_world with_world]. unfold server_doc. by rewrite Hsv, lookup_insert_eq.
Qed.

(** Editing while travel mode is active deletes the hidden credentials.  The
    screen holds the collection without the hidden folders, and every edit writes
    what is on the screen as the whole collection: after one addition no
    credential of a hidden folder is left on the server. *)
Theorem travel_edit_drops_hidden a k uuids l c now :
  a_daemonConnected a = false → live (a_world a) k →
  server_doc (a_world a) credentials = Encrypted (Seal k (PCreds l)) →
  tv_active (w_travel (a_world a)) = true → c_folderId c ∉ tv_hidden (w_travel (a_world a)) →
  let a1 := performLoad a false true uuids Online Online Online in
  let '(a2, r) := run_op a1 (OAddCred c) Online now in
  r = Ok tt ∧ ∃ l', server_doc (a_world a2) credentials = Encrypted (Seal k (PCreds l')) ∧
    Forall (λ x, c_folderId x ∉ tv_hidden (w_travel (a_world a))) l'.
Proof.
  intros Hd Hl Hdoc Ht Hc. pose proof Hl as [Hs Hk _ _].
  assert (Hon : ∀ r, ∃ x, _localRead (a_world a) r Online = (a_world a, x)).
  { intros r. unfold _localRead. rewrite Hs. destruct (server_doc _ r) as [s|p]; [|eauto].
    destruct (decryptFromServer _ s); eauto. }
  destruct (Hon folders) as [xf Hf]. destruct (Hon asset_holder) as [xa Ha].
  assert (Hcr : _localRead (a_world a) credentials Online = (a_world a, RValue (PCreds l))).
  { unfold _localRead. rewrite Hs, Hdoc. by rewrite (decrypt_k1 _ k) by done. }
  set (a1 := performLoad a false true uuids Online Online Online).
  assert (Ha1 : a_credentials a1 = filter (λ x, c_folderId x ∉ tv_hidden (w_travel (a_world a))) (dedup_credentials [] uuids l)
              ∧ a_world a1 = a_world a ∧ a_daemonConnected a1 = false).
  { unfold a1, performLoad. rewrite Hcr, Hf, Ha, Hs. cbn [andb orb negb loadLocalCredentials].
    rewrite andb_false_r, Ht.
    cbn [fmap option_fmap option_map].
    destruct (loadLocalFolders uuids xf), (loadLocalAssetHolder xa); split_and!; done || exact Hd. }
  destruct Ha1 as (Hc1 & Hw1 & Hd1). cbv zeta. rewrite run_op_eq by done.
  cbn [op_resource ui edit a_credentials with_credentials]. rewrite Hc1, Hw1.
  match goal with |- context [_localWrite _ _ (PCreds ?m) _ _] =>
    destruct (write_online (a_world a) k credentials (PCreds m) now Hl) as (w' & -> & _ & _ & Hsv & _);
    split; [done|]; exists m end.
  split; [cbn [a_world with_world]; unfold server_doc; by rewrite Hsv, lookup_insert_eq|].
  apply Forall_app. split; [|by constructor].
  apply Forall_forall. intros x Hx. by apply list_elem_of_filter in Hx as [? _].
Qed.

(** Deleting a folder is not atomic.  When the folder list is written and the
    credential list is refused, in whatever order the two requests are answered,
    the operation throws and the screen shows folder and credentials again, but
    the folder is gone from the server. *)
Theorem deleteFolder_partial a k id schedule n now :
  a_daemonConnected a = false → live (a_world a) k → n ≠ 401 →
  (∃ f, f ∈ a_folders a ∧ f_id f = id) → (∃ c, c ∈ a_credentials a ∧ c_folderId c = id) →
  let '(a', r) := deleteFolder a id None schedule Online (Status n) now in
  r = Throw (WriteError (PutFailed n)) ∧ (∀ x, ui a' x = ui a x) ∧ ¬ synced a'.
Proof.
  intros Hd Hl Hn Hf Hc. unfold deleteFolder. rewrite Hd, (creds_shrink _ _ Hc). cbn [negb].
  destruct (online_refused (a_world a) k (kept_folders id (a_folders a)) (kept_creds id (a_credentials a)) schedule n now
    Hl Hn) as (E1 & Hk & Hs). cbn [a_world with_credentials with_folders].
  rewrite E1.
  split; [done|]. split; [by intros []|]. intros Hsync. specialize (Hsync folders).
  cbn [a_world with_credentials with_folders with_world ui a_folders] in Hsync.
  unfold server_doc in Hsync. rewrite Hs, Hk in Hsync.
  assert (Hdec : decryptFromServer (w_keys (a_world a)) (Seal k (PFolders (kept_folders id (a_folders a)))) =
    Some (PFolders (a_folders a))) by exact Hsync.
  rewrite (decrypt_k1 _ k) in Hdec by apply Hl. injection Hdec as Heq.
  by apply (folders_shrink id (a_folders a)).
Qed.

(** Deleting a folder offline loses the deletion.  The two writes queue their
    collections in one outbox, and nothing orders them.  One after the other, both
    are queued and nothing is lost.  When both read the outbox before either
    stores it, the second store drops the entry of the folders: the operation
    reports success, the screen shows no folder, and the last write of the folder
    list is still the one with the folder, while its credentials are gone. *)
Theorem offline_delete_race a k id now :
  a_daemonConnected a = false → live (a_world a) k → covered a →
  (∃ f, f ∈ a_folders a ∧ f_id f = id) → (∃ c, c ∈ a_credentials a ∧ c_folderId c = id) →
  (let '(a', r) := deleteFolder a id None [] Down Down now in r = Ok tt ∧ covered a') ∧
  let '(a', r) := deleteFolder a id None race Down Down now in
  r = Ok tt ∧ effective (a_world a') credentials = Some (ui a' credentials) ∧
  effective (a_world a') folders = Some (ui a folders) ∧ ui a' folders ≠ ui a folders.
Proof.
  intros Hd Hl Hc Hf Hcr. unfold deleteFolder. rewrite Hd, (creds_shrink _ _ Hcr). cbn [negb].
  cbn [a_world with_credentials with_folders].
  set (fs := kept_folders id (a_folders a)). set (cs := kept_creds id (a_credentials a)). split.
  - destruct (offline_serial (a_world a) k fs cs now Hl) as (-> & _ & Hk & Hs & Ho).
    split; [done|]. intros r. cbn [a_world with_world]. rewrite ui_with_world.
    unfold effective, server_doc. rewrite Ho, !outbox_get_set, Hk, Hs.
    destruct r; [exact (decrypt_k1 _ k _ (live_key _ _ Hl))..|exact (Hc asset_holder)].
  - destruct (offline_race (a_world a) k fs cs now Hl) as (-> & ->). split; [done|].
    cbn [a_world with_world with_credentials with_folders]. rewrite !ui_with_world.
    split; [|split].
    + unfold effective. rewrite readOutbox_sealed, outbox_get_set, decide_True by (done || apply Hl).
      cbn [encryptedValue w_keys set_outbox]. by rewrite (decrypt_k1 _ k) by apply Hl.
    + rewrite <- (Hc folders). apply effective_ext; [done| |done].
      by rewrite (readOutbox_sealed _ k), outbox_get_set, decide_False by (done || apply Hl).
    + cbn [ui a_folders]. intros [= Heq]. by apply (folders_shrink id (a_folders a)).
Qed.

(** A flush drops a newer queued write.  [flushOutbox] sends the entry of its
    snapshot and then removes whatever is queued for the resource: an edit that
    was queued while the request was awaited is gone from the outbox, and the
    server has the older collection. *)
Theorem flush_drops_newer a k op e now :
  live (a_world a) k → readOutbox (a_world a) = [(op_resource op, e)] →
  let newer w := queueWrite w (op_resource op) (Seal k (ui (edit a op) (op_resource op))) now in
  let '(w', res) := flushOutbox (a_world a) [Online] newer in
  flushed res = [op_resource op] ∧ effective w' (op_resource op) = decryptFromServer (w_keys w') (encryptedValue e) ∧
  outbox_get (op_resource op) (readOutbox w') = None.
Proof.
  intros Hl Ho newer. unfold flushOutbox. rewrite Ho. cbn [flush_loop hd tl put].
  set (r := op_resource op) in *. set (w1 := set_server _ _).
  assert (Hl1 : live w1 k) by (by destruct Hl).
  assert (Hl2 : live (newer w1) k) by (by apply writeOutbox_live).
  assert (Hget : outbox_get r (readOutbox (clearQueuedWrite (newer w1) r)) = None)
    by (by rewrite (clear_read _ k), outbox_get_delete, decide_True by (done || by apply live_flushable)).
  split; [done|]. split; [|done]. unfold effective. rewrite Hget.
  destruct (clear_frame (newer w1) r) as (-> & Es & _). unfold server_doc. rewrite Es.
  destruct (writeOutbox_frame w1 (outbox_set r {| encryptedValue := Seal k (ui (edit a op) r); queuedAt := now |}
    (readOutbox w1))) as (_ & _ & Ew & _). unfold newer, queueWrite. rewrite Ew. cbn [w_server w1 set_server].
  by rewrite lookup_insert_eq.
Qed.

(** Folder ids are unique.  Loading renames duplicates, the loop that looks
    for a free id always ends, ids already unique are kept, and adding a folder
    with a fresh UUID keeps them unique. *)
Theorem folder_ids_unique uuids l :
  NoDup (map f_id (dedup_folders [] uuids l)) ∧
  (NoDup (map f_id l) → dedup_folders [] uuids l = l) ∧
  ∀ a f uuid o now, a_daemonConnected a = false →
    NoDup (map f_id (a_folders a)) → uuid ∉ map f_id (a_folders a) →
    NoDup (map f_id (a_folders (addFolder a f uuid None o now).1)).
Proof.
  split; [apply dedup_folders_ids|]. split.
  { intros H. apply dedup_folders_id; [done|]. intros; apply not_elem_of_nil. }
  intros a f uuid o now Hd Hnd Hu. pose proof (run_op_eq a (OAddFolder f uuid) o now Hd) as H.
  cbn [run_op] in H. destruct (addFolder a f uuid None o now) as [a' r]. cbn [fst].
  assert (Hnew : ensureId (a_folders a) (f_id f) uuid ∉ map f_id (a_folders a)).
  { unfold ensureId. destruct (str_empty (f_id f)); [done|].
    destruct (existsb _ (a_folders a)) eqn:E; [done|]. intros Hin.
    apply list_elem_of_fmap in Hin as (g & Hg & Hin). apply not_true_iff_false in E. apply E.
    apply existsb_exists. exists g. split; [by apply list_elem_of_In|by apply str_eqb_eq]. }
  destruct (_localWrite _ _ _ _ _) as [w []]; injection H as -> _; cbn [a_folders with_world edit with_folders];
    try done; rewrite map_app; apply NoDup_app; (split; [done|]; split;
      [intros i Hi Hi2; apply list_elem_of_singleton in Hi2; subst; done|constructor; [apply not_elem_of_nil|constructor]]).
Qed.

(** Icons survive the daemon: a folder stored with [folderIconSvg] and read
    with [rowToFolder] keeps its icon name or its drawing, provided a drawing does
    not itself start with the marker of icon names. *)
Theorem folder_icon_roundtrip f :
  f_iconName f ≠ Some [] →
  (f_iconName f = None ∨ f_customSvg f = None) →
  (∀ s, f_customSvg f = Some s → starts_with ICON_PREFIX s = false) →
  rowToFolder (mkRow (f_id f) (f_label f) (f_description f) (folderIconSvg f)) = f.
Proof.
  destruct f as [id lb ds ic sv]. cbn [f_iconName f_customSvg]. intros Hne Hone Hsv.
  unfold folderIconSvg, rowToFolder. cbn [f_iconName f_customSvg icon_svg row_id row_name row_description f_id f_label f_description].
  destruct ic as [[|c n]|]; [done| |].
  - destruct Hone as [?| ->]; [done|]. done.
  - destruct sv as [s|]; [|done]. by rewrite (Hsv s).
Qed.

(** ** Witnesses *)

Definition s_folder : Folder := mkFolder (js "work") (js "Work") None None None.
Definition s_cred (id folder : string) : Credential :=
  basic_credential (IdString (js id)) (js "svc") [] (js "alice") None (js "active") [] [] (js folder) None None None None.
Definition s_assets : AssetHolder := mkAssetHolder [js "a@b"] [] [].

Definition s_world (box : option (sealed Outbox)) (travel : TravelView) : world :=
  mkWorld (mkKeys (Some 7) None None) true
    (<[folders := Encrypted (Seal 7 (PFolders [s_folder]))]>
     (<[credentials := Encrypted (Seal 7 (PCreds [s_cred "c1" "work"]))]>
      (<[asset_holder := Encrypted (Seal 7 (PAssets s_assets))]> ∅)))
    box ∅ travel no_limit.
Definition no_travel : TravelView := mkTravel false [].
Definition s_app (creds : list Credential) (w : world) : app := mkApp [s_folder] creds s_assets false false true w.

Definition s_online : app := s_app [s_cred "c1" "work"] (s_world None no_travel).
(** A second credential was added offline and is queued. *)
Definition s_entry : QueueEntry := mkEntry (Seal 7 (PCreds [s_cred "c1" "work"; s_cred "c2" "work"])) 5.
Definition s_box : sealed Outbox := Seal 7 [(credentials, s_entry)].
Definition s_offline : app :=
  s_app [s_cred "c1" "work"; s_cred "c2" "work"] (s_world (Some s_box) no_travel).

Lemma s_online_live : live (a_world s_online) 7.
Proof. split; [done|done| |done]. intros s H. discriminate H. Qed.
Lemma s_offline_live : live (a_world s_offline) 7.
Proof. split; [done|done| |done]. intros s H. injection H as <-. done. Qed.
Lemma s_online_synced : synced s_online.
Proof. intros []; done. Qed.
Lemma s_online_covered : covered s_online.
Proof. intros []; done. Qed.
Lemma s_offline_covered : covered s_offline.
Proof. intros []; done. Qed.
Lemma s_offline_ok : outbox_ok (a_world s_offline).
Proof. unfold outbox_ok. apply (bool_decide_unpack _). by vm_compute. Qed.

Definition s_op : vop := OAddCred (s_cred "c3" "work").

Lemma online_op_synced_witness :
  let '(a', r) := run_op s_online s_op Online 9 in
  r = Ok tt ∧ synced a' ∧ ∀ x, ui a' x = ui (edit s_online s_op) x.
Proof. apply (online_op_synced s_online 7 s_op 9); [done|apply s_online_live|apply s_online_synced]. Defined.

Lemma refused_op_rolls_back_witness :
  run_op s_online s_op (Status 500) 9 = (s_online, Throw (WriteError (PutFailed 500))) ∧
  ∃ e, refusal 500 503 e ∧
    deleteFolder s_online (js "work") None [false; true] (Status 500) (Status 503) 9 = (s_online, Throw (WriteError e)).
Proof.
  destruct (refused_op_rolls_back s_online 7 500 503 9) as [H1 H2]; [done|apply live_in, s_online_live|done|done|].
  split; [exact (H1 s_op)|exact (H2 _ _)].
Defined.


Lemma flush_delivers_witness :
  let '(w', res) := flushOutbox (a_world s_offline) [Online] (λ w, w) in
  server_doc w' credentials = Encrypted (encryptedValue s_entry) ∧ (∀ r, outbox_get r (readOutbox w') = None) ∧
  flushed res = [credentials] ∧ authExpired res = false ∧ synced (with_world s_offline w').
Proof.
  pose proof (flush_delivers s_offline 7 [Online] (live_flushable _ _ s_offline_live) s_offline_ok) as H.
  assert (P1 : Forall (λ o, o = Online) [Online]) by (by repeat constructor).
  assert (P2 : (length (readOutbox (a_world s_offline)) <= length [Online])%nat) by (by vm_compute; lia).
  specialize (H P1 P2). destruct (flushOutbox _ _ _) as [w' res]. destruct H as (H1 & H2 & H3 & H4 & H5).
  split; [exact (H1 credentials)|]. split; [exact H2|]. split; [exact H3|]. split; [exact H4|].
  apply H5, s_offline_covered.
Defined.

Lemma interrupted_flush_covered_witness :
  covered (with_world s_offline (flushOutbox (a_world s_offline) [Status 503] (λ w, w)).1).
Proof.
  apply (interrupted_flush_covered s_offline 7); [apply live_flushable, s_offline_live|apply s_offline_ok|apply s_offline_covered].
Defined.

Lemma stale_queue_overwrites_witness :
  let '(a', r) := run_op s_offline s_op Online 9 in
  let '(w', res) := flushOutbox (a_world a') [Online] (λ w, w) in
  r = Ok tt ∧ server_doc (a_world a') credentials = Encrypted (Seal 7 (ui (edit s_offline s_op) credentials)) ∧
  doc_value (w_keys w') (server_doc w' credentials) =
    decryptFromServer (w_keys w') (Seal 7 (PCreds [s_cred "c1" "work"; s_cred "c2" "work"])).
Proof.
  apply (stale_queue_overwrites s_offline 7 s_op 9
    (mkEntry (Seal 7 (PCreds [s_cred "c1" "work"; s_cred "c2" "work"])) 5) [Online]);
    [done|apply s_offline_live|apply s_offline_ok|done|by repeat constructor|by vm_compute; lia].
Defined.

Definition s_uuids (i n : nat) : jsstr := js "0123abcd".

Lemma failed_load_overwrites_witness :
  let a1 := performLoad s_online false true s_uuids Online (Status 500) Online in
  a_credentials a1 = [] ∧ a_vaultReady a1 = true ∧ a_world a1 = a_world s_online ∧
  let '(a2, r) := run_op a1 s_op Online 9 in
  r = Ok tt ∧ server_doc (a_world a2) credentials = Encrypted (Seal 7 (PCreds [s_cred "c3" "work"])).
Proof.
  apply (failed_load_overwrites s_online 7 s_uuids (Status 500)); [done|apply s_online_live|].
  right. by exists 500.
Defined.

Definition s_travelling : app := s_app [] (s_world None (mkTravel true [js "work"])).
Lemma s_travelling_live : live (a_world s_travelling) 7.
Proof. split; [done|done| |done]. intros s H. discriminate H. Qed.

Lemma travel_edit_drops_hidden_witness :
  let a1 := performLoad s_travelling false true s_uuids Online Online Online in
  let '(a2, r) := run_op a1 (OAddCred (s_cred "c3" "home")) Online 9 in
  r = Ok tt ∧ ∃ l', server_doc (a_world a2) credentials = Encrypted (Seal 7 (PCreds l')) ∧
    Forall (λ x, c_folderId x ∉ [js "work"]) l'.
Proof.
  apply (travel_edit_drops_hidden s_travelling 7 s_uuids [s_cred "c1" "work"]);
    [done|apply s_travelling_live|done|done|].
  apply (bool_decide_unpack _). by vm_compute.
Defined.

Lemma deleteFolder_partial_witness :
  let '(a', r) := deleteFolder s_online (js "work") None [false; true] Online (Status 500) 9 in
  r = Throw (WriteError (PutFailed 500)) ∧ (∀ x, ui a' x = ui s_online x) ∧ ¬ synced a'.
Proof.
  apply (deleteFolder_partial s_online 7); [done|apply s_online_live|done|..].
  - exists s_folder. split; [by left|done].
  - exists (s_cred "c1" "work"). split; [by left|done].
Defined.

Lemma offline_delete_race_witness :
  (let '(a', r) := deleteFolder s_online (js "work") None [] Down Down 9 in r = Ok tt ∧ covered a') ∧
  let '(a', r) := deleteFolder s_online (js "work") None race Down Down 9 in
  r = Ok tt ∧ effective (a_world a') credentials = Some (ui a' credentials) ∧
  effective (a_world a') folders = Some (ui s_online folders) ∧ ui a' folders ≠ ui s_online folders.
Proof.
  apply (offline_delete_race s_online 7); [done|apply s_online_live|apply s_online_covered|..].
  - exists s_folder. split; [by left|done].
  - exists (s_cred "c1" "work"). split; [by left|done].
Defined.

Lemma flush_drops_newer_witness :
  let newer w := queueWrite w credentials (Seal 7 (ui (edit s_offline s_op) credentials)) 9 in
  let '(w', res) := flushOutbox (a_world s_offline) [Online] newer in
  flushed res = [credentials] ∧
  effective w' credentials = decryptFromServer (w_keys w') (encryptedValue s_entry) ∧
  outbox_get credentials (readOutbox w') = None.
Proof. refine (flush_drops_newer s_offline 7 s_op s_entry 9 s_offline_live _). by vm_compute. Defined.

Lemma folder_icon_roundtrip_witness :
  let f := mkFolder (js "w") (js "W") None (Some (js "briefcase")) None in
  rowToFolder (mkRow (f_id f) (f_label f) (f_description f) (folderIconSvg f)) = f.
Proof. apply folder_icon_roundtrip; [done|by right|done]. Defined.

End SyncSpec.
