(* ===== verification/SettingsTransfer.v ===== *)
(** * Import and export from the settings page ([web/src/pages/Settings.tsx])

    The dispatch of an export, the steps of an import up to the confirmation, and the
    loop that stores the imported credentials through the vault context.

    The functions of the context are closures of one rendering: [addCredential] and
    [deleteCredential] hold the list of credentials as it was when the user clicked,
    however often they are called afterwards. *)
From S2P Require Import Prelude JsRuntime JsText Base64 Json JsonSpec JsDyn Types Csv JsonFormats XmlFormats Kdbx Zip P2WBuffer P2WFile ImportFile VaultSync VaultSyncSpec.

(** ** Export *)

Inductive content := TextContent (s : jsstr) | BinaryContent (b : bytes).

(** What is handed to the browser: content, file name and MIME type. *)
Record Download := mkDownload { d_content : content; d_name : jsstr; d_mime : string }.

(** The times, random values and the objects behind the credentials and folders. *)
Record export_env := mkExportEnv {
  e_date : jsstr;                       (* the day as eight digits *)
  e_isoTime : jsstr; e_now : Z; e_seconds : Z; e_local : date;
  e_ids : nat → jsstr; e_vaultId : jsstr; e_rand : nat → nat → bytes;
  e_credentials : list json; e_folders : list json }.

Section export.
Context `{JsUrl} `{C : P2WCrypto}.

(** [encodeURIComponent] throws a URIError. *)
Definition uri_text (o : option jsstr) : result file_error jsstr := match o with Some s => Ok s | None => Throw (Js URIError) end.

Definition file_of (prefix : string) (env : export_env) (ext : string) : jsstr := js prefix ++ js "_" ++ e_date env ++ js "." ++ js ext.

Definition as_json (name : string) (env : export_env) (r : dyn jsstr) : result file_error (option Download) :=
  s ← lift Js r; Ok (Some (mkDownload (TextContent s) (file_of name env "json") "application/json")).
Definition as_csv (name : string) (env : export_env) (r : option jsstr) : result file_error (option Download) :=
  s ← uri_text r; Ok (Some (mkDownload (TextContent s) (file_of name env "csv") "text/csv")).
Definition as_xml (name : string) (env : export_env) (r : dyn jsstr) : result file_error (option Download) :=
  s ← lift Js r; Ok (Some (mkDownload (TextContent s) (file_of name env "xml") "text/xml")).

Definition runExport (env : export_env) (l : list Credential) (folders : list Folder) (formatId passphrase : jsstr)
    : result file_error (option Download) :=
  let case (s : string) := str_eqb formatId (js s) in
  match getFormat formatId with
  | None => Ok None
  | Some fmt =>
  if negb (canExport fmt) then Ok None
  else if case "pwdnow-p2w"%string then
    b ← lift P2W (exportToP2W (e_rand env) (e_isoTime env) l folders passphrase None);
    Ok (Some (mkDownload (BinaryContent b) (file_of "pwdnow" env "p2w") "application/x-pwdnow-vault"))
  else if case "pwdnow-json"%string then as_json "pwdnow" env (Ok (exportToPWDnow (e_isoTime env) (e_credentials env) (e_folders env)))
  else if case "pwdnow-csv"%string then as_csv "pwdnow" env (Some (exportToPWDnowCSV l))
  else if case "pwdnow-xml"%string then as_xml "pwdnow" env (buildKeePassXML (e_isoTime env) l folders)
  else if case "pwdnow-1pux"%string then
    b ← lift Js (exportToPWDnow1PUX (e_local env) (e_ids env) (e_seconds env) l folders);
    Ok (Some (mkDownload (BinaryContent b) (file_of "pwdnow" env "1pux") "application/zip"))
  else if case "bitwarden-json"%string then as_json "bitwarden" env (exportToBitwardenJSON (e_ids env) l folders)
  else if case "bitwarden-csv"%string then as_csv "bitwarden" env (exportToBitwardenCSV l folders)
  else if case "1password-csv"%string then as_csv "1password" env (exportTo1PasswordCSV l)
  else if case "keeper-json"%string then as_json "keeper" env (exportToKeeperJSON l folders)
  else if case "keeper-csv"%string then as_csv "keeper" env (exportToKeeperCSV l folders)
  else if case "dashlane-json"%string then as_json "dashlane" env (Ok (exportToDashlaneJSON l))
  else if case "nordpass-csv"%string then as_csv "nordpass" env (Some (exportToNordPass l))
  else if case "lastpass-csv"%string then as_csv "lastpass" env (exportToLastPass l)
  else if case "protonpass-json"%string then as_json "protonpass" env (exportToProtonPass (e_vaultId env) l)
  else if case "zoho-csv"%string then as_csv "zoho" env (Some (exportToZohoCSV l))
  else if case "passbolt-csv"%string then as_csv "passbolt" env (Some (exportToPassboltCSV l))
  else if case "padloc-json"%string then as_json "padloc" env (exportToPadlocJSON l folders)
  else if case "passky-json"%string then as_json "passky" env (Ok (exportToPasskyJSON l))
  else if case "keepass-xml"%string then as_xml "keepass" env (buildKeePassXML (e_isoTime env) l folders)
  else if case "keepass-csv"%string then as_csv "keepass" env (Some (exportToKeePassCSV l))
  else if case "roboform-csv"%string then as_csv "roboform" env (Some (exportToRoboForm l folders))
  else if case "enpass-csv"%string then as_csv "enpass" env (exportToEnpassCSV l)
  else if case "buttercup-json"%string then as_json "buttercup" env (Ok (exportToButtercupJSON l folders))
  else if case "chrome-csv"%string then as_csv "chrome_passwords" env (Some (exportToChrome l))
  else if case "firefox-csv"%string then as_csv "firefox_passwords" env (Some (exportToFirefox (e_ids env) (e_now env) l))
  else Ok None
  end.

(** The fields of the export form and its error message. *)
Inductive export_error := PassphraseRequired | PassphraseMismatch | ExportFailed (e : file_error).
Record export_form := mkForm { selectedFormatId : jsstr; exportPassphrase : jsstr; exportPassphraseConfirm : jsstr;
                               exportPassphraseError : option export_error }.

Definition handleExport (env : export_env) (l : list Credential) (folders : list Folder) (s : export_form) : export_form * option Download :=
  match getFormat (selectedFormatId s) with
  | Some fmt =>
    if negb (canExport fmt) then (s, None)
    else
      let fail e := mkForm (selectedFormatId s) (exportPassphrase s) (exportPassphraseConfirm s) (Some e) in
      if needsPassphrase fmt && str_empty (exportPassphrase s) then (fail PassphraseRequired, None)
      else if needsPassphrase fmt && negb (str_eqb (exportPassphrase s) (exportPassphraseConfirm s)) then (fail PassphraseMismatch, None)
      else
        match runExport env l folders (selectedFormatId s) (exportPassphrase s) with
        | Ok d => (if needsPassphrase fmt then mkForm (selectedFormatId s) [] [] None
                   else mkForm (selectedFormatId s) (exportPassphrase s) (exportPassphraseConfirm s) None, d)
        | Throw e => (fail (ExportFailed e), None)
        end
  | None => (s, None)
  end.
End export.

(** ** Choosing and opening a file *)

Definition set_service (c : Credential) (service : jsstr) : Credential :=
  {| c_id := c_id c; c_service := service; c_url := c_url c; c_username := c_username c;
     c_password := c_password c; c_status := c_status c; c_statusColor := c_statusColor c;
     c_logo := c_logo c; c_folderId := c_folderId c; c_tags := c_tags c; c_phoneNumber := c_phoneNumber c;
     c_kba := c_kba c; c_u2fKeyName := c_u2fKeyName c; c_otpSecret := c_otpSecret c; c_otpAlgorithm := c_otpAlgorithm c;
     c_otpDigits := c_otpDigits c; c_accountType := c_accountType c; c_expiryEnabled := c_expiryEnabled c;
     c_expiryValue := c_expiryValue c; c_expiryUnit := c_expiryUnit c; c_expiryNotifyEmail := c_expiryNotifyEmail c;
     c_expirySetAt := c_expirySetAt c; c_description := c_description c; c_credentialType := c_credentialType c;
     c_rpId := c_rpId c; c_rpName := c_rpName c; c_credentialId := c_credentialId c; c_userHandle := c_userHandle c;
     c_authenticatorName := c_authenticatorName c; c_backedUp := c_backedUp c; c_noteContent := c_noteContent c;
     c_cardholderName := c_cardholderName c; c_cardNumber := c_cardNumber c; c_cardExpiry := c_cardExpiry c;
     c_cardCvv := c_cardCvv c; c_cardBillingAddress := c_cardBillingAddress c; c_cardType := c_cardType c;
     c_createdAt := c_createdAt c; c_updatedAt := c_updatedAt c; c_customFields := c_customFields c;
     c_phone := c_phone c; c_phoneCountry := c_phoneCountry c |}.

(** Credentials without a name get one in the language of the page. *)
Definition name_untitled (untitled : jsstr) (r : FileImport) : FileImport :=
  match r with
  | Records r =>
      Records (mkImport (map (λ c, if str_eqb (c_service c) (js "Untitled") then set_service c untitled else c) (Csv.credentials r)) (detectedFormat r))
  | Objects r fs =>
      Objects (mkImported (map (λ c, match c with
                                     | JObj l => if bool_decide (lookup_key (js "service") l = Some (JStr (js "Untitled")))
                                                 then JObj (Json.put (js "service") (JStr untitled) l) else c
                                     | _ => c
                                     end) (im_credentials r)) (im_format r)) fs
  end.

Definition import_count (r : FileImport) : nat :=
  match r with Records r => length (Csv.credentials r) | Objects r _ => length (im_credentials r) end.

Inductive import_message := Message (m : jsstr) | Failed | NoCredentials | WrongPassphrase.

(** The state of the import form. *)
Record import_form := mkImportForm {
  importResult : option FileImport; importFileName : jsstr; isImportModalOpen : bool; replaceMode : bool;
  importError : option import_message; pendingEncryptedFile : option File; importPassphrase : jsstr;
  importPassphraseError : option import_message }.

(** The message of an error, [''] when it is none of the source's own. *)
Definition error_text (e : file_error) : option jsstr := match e with Js (ErrorMsg m) => Some m | _ => None end.

Section import.
Context `{JsFloat} `{JsCase} `{JsUrl} `{C : P2WCrypto} `{ExportCrypto} `{KdbxLib} (uuids : nat → jsstr) (now : Z) (untitled : jsstr).

(** [platform_text]: the message of an error the platform or a library throws. *)
Definition processImportFile (platform_text : file_error → jsstr) (file : File) (s : import_form) : import_form :=
  match importFromFile uuids now file [] with
  | Ok r => mkImportForm (Some (name_untitled untitled r)) (file_name file) true false None (pendingEncryptedFile s) (importPassphrase s)
              (importPassphraseError s)
  | Throw e =>
      let msg := match error_text e with Some m => m | None => platform_text e end in
      if str_eqb msg ENCRYPTED_PWDNOW
      then mkImportForm (importResult s) (importFileName s) (isImportModalOpen s) (replaceMode s) None (Some file) [] None
      else mkImportForm (importResult s) (importFileName s) (isImportModalOpen s) (replaceMode s)
             (Some (if str_empty msg then Failed else Message msg)) (pendingEncryptedFile s) (importPassphrase s) (importPassphraseError s)
  end.

Definition handleEncryptedImport (s : import_form) : import_form :=
  let fail m := mkImportForm (importResult s) (importFileName s) (isImportModalOpen s) (replaceMode s) (importError s) (pendingEncryptedFile s)
                  (importPassphrase s) (Some m) in
  match pendingEncryptedFile s with
  | Some file =>
      if str_empty (importPassphrase s) then s
      else match importFromFile uuids now file (importPassphrase s) with
           | Ok r => if bool_decide (import_count r = 0%nat) then fail NoCredentials
                     else mkImportForm (Some (name_untitled untitled r)) (file_name file) true false (importError s) None [] None
           | Throw _ => fail WrongPassphrase
           end
  | None => s
  end.
End import.

(** ** Storing the credentials *)

(** [save_credentials] with the list the closure holds. *)
Definition save_captured (prevCreds : list Credential) (a : app) (updated : list Credential) (o : net) (now : Z)
    : app * result op_error unit :=
  let '(a, res) := persist (with_credentials a updated) credentials (PCreds updated) o now in
  match res with
  | Saved | Queued _ => (a, Ok tt)
  | e => (with_credentials a prevCreds, Throw (WriteError e))
  end.

(** [addCredential] and [deleteCredential] of a rendering whose credentials were
    [captured]; in daemon mode the list is updated from its present value. *)
Definition add_captured (captured : list Credential) (a : app) (newCredential : Credential) (d : option jsstr) (o : net) (now : Z)
    : app * result op_error unit :=
  if a_daemonConnected a then addCredential a newCredential d o now
  else save_captured captured a (captured ++ [newCredential]) o now.

Definition delete_captured (captured : list Credential) (a : app) (id : cred_id) (d : option unit) (o : net) (now : Z)
    : app * result op_error unit :=
  if a_daemonConnected a then deleteCredential a id d o now
  else save_captured captured a (List.filter (λ x, negb (same_id (c_id x) id)) captured) o now.

(** What answers a call: the id the daemon assigns ([None] when the call throws), the
    network and the time. *)
Record answer := mkAnswer { an_daemon : option jsstr; an_net : net; an_now : Z }.

(** The loops stop at the first call that throws; [n] calls have been made before. *)
Fixpoint delete_loop (captured : list Credential) (answers : nat → answer) (n : nat) (ids : list cred_id) (a : app)
    : app * result op_error nat :=
  match ids with
  | [] => (a, Ok n)
  | id :: ids =>
      let w := answers n in
      match delete_captured captured a id (const tt <$> an_daemon w) (an_net w) (an_now w) with
      | (a, Ok _) => delete_loop captured answers (S n) ids a
      | (a, Throw e) => (a, Throw e)
      end
  end.

Fixpoint add_loop (captured : list Credential) (answers : nat → answer) (n : nat) (l : list Credential) (a : app)
    : app * result op_error nat :=
  match l with
  | [] => (a, Ok n)
  | c :: l =>
      let w := answers n in
      match add_captured captured a c (an_daemon w) (an_net w) (an_now w) with
      | (a, Ok _) => add_loop captured answers (S n) l a
      | (a, Throw e) => (a, Throw e)
      end
  end.

(** The folder an imported credential goes to: the one of the import, or for the
    client's own JSON the folder of that id or name. *)
Definition target_folder (folders : list Folder) (format : jsstr) (importFolderId : jsstr) (cred : Credential) : jsstr :=
  if (str_eqb format (js "pwdnow") || str_eqb format (js "pwdnow-json")) && negb (str_empty (c_folderId cred)) then
    match List.find (λ f, str_eqb (f_id f) (c_folderId cred) || str_eqb (f_label f) (c_folderId cred)) folders with
    | Some f => f_id f
    | None => importFolderId
    end
  else importFolderId.

(** The texts of the page: the label and the description of the folder. *)
Definition import_folder (label description uuid : jsstr) : Folder := mkFolder uuid label (Some description) (Some (js "Download")) None.

(** The loop over the imported credentials, when the import has its folder. *)
Definition store_imported (captured : list Credential) (folders : list Folder) (format : jsstr) (imported : list Credential)
    (answers : nat → answer) (importFolderId : jsstr) (n : nat) (a : app) : app * result op_error unit :=
  match add_loop captured answers n (map (λ c, set_folderId c (target_folder folders format importFolderId c)) imported) a with
  | (a, Ok _) => (a, Ok tt)
  | (a, Throw e) => (a, Throw e)
  end.

(** [uuid] is the id generated for the folder, [uuid2] the one [addFolder] would draw. *)
Definition handleConfirmImport (label description uuid uuid2 : jsstr) (answers : nat → answer) (replace : bool) (format : jsstr)
    (imported : list Credential) (a : app) : app * result op_error unit :=
  let captured := a_credentials a in
  let folders := a_folders a in
  match (if replace then delete_loop captured answers 0 (map c_id captured) a else (a, Ok 0%nat)) with
  | (a, Throw e) => (a, Throw e)
  | (a, Ok n) =>
      match List.find (λ f, str_eqb (f_label f) label || str_eqb (f_label f) (js "Imported")) folders with
      | Some {| f_id := (x :: id) |} => store_imported captured folders format imported answers (x :: id) n a
      | _ =>
          let w := answers n in
          match addFolder a (import_folder label description uuid) uuid2 (an_daemon w) (an_net w) (an_now w) with
          | (a, Ok _) => store_imported captured folders format imported answers uuid (S n) a
          | (a, Throw e) => (a, Throw e)
          end
      end
  end.

(** * Theorems on import and export from the settings page *)

(** ** The captured operations *)

(** A call right after the click is the operation of the context. *)
Lemma add_captured_fresh a c d o now : add_captured (a_credentials a) a c d o now = addCredential a c d o now.
Proof. unfold add_captured, addCredential. by destruct (a_daemonConnected a). Qed.
Lemma delete_captured_fresh a id d o now : delete_captured (a_credentials a) a id d o now = deleteCredential a id d o now.
Proof. unfold delete_captured, deleteCredential. by destruct (a_daemonConnected a). Qed.

(** *** On the server *)

(** The application shows the credentials [cs] and so does the server. *)
Definition shows (a : app) (k : Z) (cs : list Credential) : Prop :=
  a_credentials a = cs ∧ w_server (a_world a) !! credentials = Some (Encrypted (Seal k (PCreds cs))).

Record server_mode (a : app) (k : Z) : Prop := { sm_daemon : a_daemonConnected a = false; sm_live : live (a_world a) k }.

Lemma save_captured_online prev a k cs now :
  server_mode a k →
  ∃ a', save_captured prev a cs Online now = (a', Ok tt) ∧ server_mode a' k ∧ shows a' k cs ∧ a_folders a' = a_folders a.
Proof.
  intros [Hd Hl]. unfold save_captured, persist. cbn [a_daemonConnected with_credentials]. rewrite Hd. cbn [a_world with_credentials with_folders].
  destruct (write_online (a_world a) k credentials (PCreds cs) now Hl) as (w' & -> & Hl' & _ & Hs & _).
  eexists. split; [done|]. split; [by split|]. split; [|done]. split; [done|]. cbn. rewrite Hs. by rewrite lookup_insert_eq.
Qed.

Section online.
Context (captured : list Credential) (answers : nat → answer) (k : Z).
Hypothesis all_online : ∀ n, an_net (answers n) = Online.

(** Only the last call counts. *)
Lemma add_loop_online n l c a :
  server_mode a k →
  ∃ a', add_loop captured answers n (l ++ [c]) a = (a', Ok (n + length l + 1)%nat) ∧ server_mode a' k ∧
    shows a' k (captured ++ [c]) ∧ a_folders a' = a_folders a.
Proof.
  revert n a. induction l as [|x l IH]; intros n a Hm; cbn [Datatypes.app add_loop].
  - unfold add_captured. rewrite (sm_daemon _ _ Hm), all_online.
    destruct (save_captured_online captured a k (captured ++ [c]) (an_now (answers n)) Hm) as (a' & -> & Hm' & Hs & Hf).
    exists a'. replace (n + length [] + 1)%nat with (S n) by (cbn; lia). done.
  - unfold add_captured at 1. rewrite (sm_daemon _ _ Hm), all_online.
    destruct (save_captured_online captured a k (captured ++ [x]) (an_now (answers n)) Hm) as (a1 & -> & Hm1 & _ & Hf1).
    destruct (IH (S n) a1 Hm1) as (a' & -> & Hm' & Hs & Hf). exists a'. rewrite Hf1 in Hf.
    replace (S n + length l + 1)%nat with (n + length (x :: l) + 1)%nat by (cbn; lia). done.
Qed.

Lemma delete_loop_online n ids a :
  server_mode a k →
  ∃ a', delete_loop captured answers n ids a = (a', Ok (n + length ids)%nat) ∧ server_mode a' k ∧ a_folders a' = a_folders a.
Proof.
  revert n a. induction ids as [|id ids IH]; intros n a Hm; cbn [delete_loop].
  - exists a. rewrite Nat.add_0_r. done.
  - unfold delete_captured at 1. rewrite (sm_daemon _ _ Hm), all_online.
    destruct (save_captured_online captured a k (List.filter (λ x, negb (same_id (c_id x) id)) captured) (an_now (answers n)) Hm)
      as (a1 & -> & Hm1 & _ & Hf1).
    destruct (IH (S n) a1 Hm1) as (a' & -> & Hm' & Hf). exists a'. rewrite Hf1 in Hf.
    replace (S n + length ids)%nat with (n + length (id :: ids))%nat by (cbn; lia). done.
Qed.
End online.

Lemma addFolder_online a k f uuid d now :
  server_mode a k →
  ∃ a' id, addFolder a f uuid d Online now = (a', Ok id) ∧ server_mode a' k ∧ a_credentials a' = a_credentials a.
Proof.
  intros [Hd Hl]. unfold addFolder, persist. cbn [a_daemonConnected with_folders]. rewrite Hd. cbn [a_world with_credentials with_folders].
  destruct (write_online (a_world a) k folders
    (PFolders (a_folders a ++ [set_folder_id f (ensureId (a_folders a) (f_id f) uuid)])) now Hl) as (w' & -> & Hl' & _).
  do 2 eexists. split; [done|]. by repeat split; try done; apply Hl'.
Qed.

(** *** With the daemon *)

Lemma add_loop_daemon captured answers ids n l a :
  a_daemonConnected a = true → (∀ i, (i < length l)%nat → an_daemon (answers (n + i)%nat) = Some (ids (n + i)%nat)) →
  ∃ a', add_loop captured answers n l a = (a', Ok (n + length l)%nat) ∧ a_daemonConnected a' = true ∧ a_folders a' = a_folders a ∧
    a_credentials a' = a_credentials a ++ imap (λ i c, set_cred_id c (IdString (ids (n + i)%nat))) l.
Proof.
  revert n a. induction l as [|c l IH]; intros n a Hd Ha; cbn [add_loop].
  - exists a. cbn. by rewrite Nat.add_0_r, app_nil_r.
  - pose proof (Ha 0%nat ltac:(cbn; lia)) as H0. rewrite Nat.add_0_r in H0.
    unfold add_captured, addCredential. rewrite Hd, H0. cbn iota.
    set (a1 := with_credentials a _).
    destruct (IH (S n) a1) as (a' & -> & Hd' & Hf & Hc); [done| |].
    { intros i Hi. specialize (Ha (S i) ltac:(cbn; lia)). by rewrite Nat.add_succ_r in Ha. }
    exists a'. replace (S n + length l)%nat with (n + length (c :: l))%nat by (cbn; lia). split; [done|]. split; [done|]. split; [done|].
    rewrite Hc. cbn [imap]. unfold a1. cbn [a_credentials with_credentials]. rewrite <- app_assoc. cbn [Datatypes.app].
    rewrite Nat.add_0_r. do 2 f_equal. apply imap_ext. intros i x _. unfold compose. by rewrite Nat.add_succ_r.
Qed.

(** The credentials whose ids are not deleted. *)
Lemma delete_loop_daemon captured answers n ids a :
  a_daemonConnected a = true → (∀ i, (i < length ids)%nat → is_Some (an_daemon (answers (n + i)%nat))) →
  ∃ a', delete_loop captured answers n ids a = (a', Ok (n + length ids)%nat) ∧ a_daemonConnected a' = true ∧ a_folders a' = a_folders a ∧
    a_credentials a' = List.filter (λ c, negb (existsb (same_id (c_id c)) ids)) (a_credentials a).
Proof.
  revert n a. induction ids as [|id ids IH]; intros n a Hd Ha; cbn [delete_loop].
  - exists a. rewrite Nat.add_0_r. split; [done|]. split; [done|]. split; [done|]. cbn. induction (a_credentials a) as [|c l IH]; [done|].
    cbn. by f_equal.
  - destruct (Ha 0%nat ltac:(cbn; lia)) as [d H0]. rewrite Nat.add_0_r in H0.
    unfold delete_captured, deleteCredential. rewrite Hd, H0. cbn [fmap option_fmap option_map].
    set (a1 := with_credentials a _).
    destruct (IH (S n) a1) as (a' & -> & Hd' & Hf & Hc); [done| |].
    { intros i Hi. specialize (Ha (S i) ltac:(cbn; lia)). by rewrite Nat.add_succ_r in Ha. }
    exists a'. replace (S n + length ids)%nat with (n + length (id :: ids))%nat by (cbn; lia). split; [done|]. split; [done|]. split; [done|].
    rewrite Hc. unfold a1. cbn [a_credentials with_credentials]. clear. induction (a_credentials a) as [|c l IH]; [done|].
    cbn [List.filter existsb]. destruct (same_id (c_id c) id); cbn [negb orb]; [done|]. cbn [List.filter].
    destruct (existsb _ ids); cbn [negb]; [done|]. by f_equal.
Qed.

Lemma delete_all l : List.filter (λ c, negb (existsb (same_id (c_id c)) (map c_id l))) l = [].
Proof.
  assert (H : ∀ l', (∀ c, c ∈ l' → c ∈ l) → List.filter (λ c, negb (existsb (same_id (c_id c)) (map c_id l))) l' = []).
  { induction l' as [|c l' IH]; intros Hin; [done|]. cbn [List.filter].
    assert (existsb (same_id (c_id c)) (map c_id l) = true) as ->.
    { apply existsb_exists. exists (c_id c). split; [|unfold same_id; by rewrite bool_decide_true].
      apply in_map, list_elem_of_In, Hin. set_solver. }
    cbn. apply IH. set_solver. }
  by apply H.
Qed.

(** ** Exports *)

(** Formats offered for export that no case of the dispatch handles. *)
Definition UNHANDLED : list string :=
  ["keepass-kdbx"; "keepass-kdb"; "roboform-rfp"; "enpass-enpassdb"; "passwordsafe-csv"; "passwordsafe-psafe3"; "passwordsafe-dat";
   "stickypassword-xml"; "stickypassword-spdb"; "norton-csv"]%string.

Lemma json_download name env r : as_json name env r ≠ Ok None.
Proof. unfold as_json. by destruct r. Qed.
Lemma csv_download name env r : as_csv name env r ≠ Ok None.
Proof. unfold as_csv. by destruct r. Qed.
Lemma xml_download name env r : as_xml name env r ≠ Ok None.
Proof. unfold as_xml. by destruct r. Qed.

(** What the dispatch does for a format: always nothing, or always a download or an
    error. *)
Definition dispatched `{JsUrl} `{P2WCrypto} (f : FormatDef) : Prop :=
  canExport f = true →
  if bool_decide (fmt_id f ∈ UNHANDLED) then ∀ env l fs pass, runExport env l fs (js (fmt_id f)) pass = Ok None
  else ∀ env l fs pass, runExport env l fs (js (fmt_id f)) pass ≠ Ok None.

Lemma all_dispatched `{JsUrl} `{P2WCrypto} : Forall dispatched FORMATS.
Proof.
  unfold FORMATS. repeat (apply List.Forall_cons || apply List.Forall_nil).
  all: intros Hc; vm_compute in Hc; try discriminate Hc; clear Hc.
  all: lazymatch goal with
       | |- if ?b then _ else _ => let r := eval vm_compute in b in
           let E := fresh in assert (E : b = r) by (vm_compute; reflexivity); rewrite E; clear E; cbn iota
       end.
  all: intros env l fs pass.
  all: first [reflexivity|apply json_download|apply csv_download|apply xml_download|idtac].
  all: cbn [fmt_id]; intros E.
  - change (runExport env l fs (js "pwdnow-p2w") pass) with
      (b ← lift P2W (exportToP2W (e_rand env) (e_isoTime env) l fs pass None);
       Ok (Some (mkDownload (BinaryContent b) (file_of "pwdnow" env "p2w") "application/x-pwdnow-vault"))) in E.
    by destruct (exportToP2W _ _ _ _ _ _).
  - change (runExport env l fs (js "pwdnow-1pux") pass) with
      (b ← lift Js (exportToPWDnow1PUX (e_local env) (e_ids env) (e_seconds env) l fs);
       Ok (Some (mkDownload (BinaryContent b) (file_of "pwdnow" env "1pux") "application/zip"))) in E.
    by destruct (exportToPWDnow1PUX _ _ _ _ _).
Qed.

(** ** The whole import *)

Definition existing_folder (label : jsstr) (fs : list Folder) : option jsstr :=
  match List.find (λ f, str_eqb (f_label f) label || str_eqb (f_label f) (js "Imported")) fs with
  | Some {| f_id := (x :: id) |} => Some (x :: id)
  | _ => None
  end.

(** The import, with the choice of the folder named. *)
Lemma handleConfirmImport_eq label description uuid uuid2 answers replace format imported a :
  handleConfirmImport label description uuid uuid2 answers replace format imported a =
  match (if replace then delete_loop (a_credentials a) answers 0 (map c_id (a_credentials a)) a else (a, Ok 0%nat)) with
  | (a1, Throw e) => (a1, Throw e)
  | (a1, Ok n) =>
      match existing_folder label (a_folders a) with
      | Some id => store_imported (a_credentials a) (a_folders a) format imported answers id n a1
      | None =>
          match addFolder a1 (import_folder label description uuid) uuid2 (an_daemon (answers n)) (an_net (answers n)) (an_now (answers n)) with
          | (a2, Ok _) => store_imported (a_credentials a) (a_folders a) format imported answers uuid (S n) a2
          | (a2, Throw e) => (a2, Throw e)
          end
      end
  end.
Proof.
  unfold handleConfirmImport, existing_folder. destruct (if replace then _ else _) as [a1 [n|e]]; [|done].
  by destruct (List.find _ (a_folders a)) as [[[|x id] ? ? ? ?]|].
Qed.

Lemma store_online captured fs format l c answers k fid n a :
  (∀ n, an_net (answers n) = Online) → server_mode a k →
  ∃ a', store_imported captured fs format (l ++ [c]) answers fid n a = (a', Ok tt) ∧
    shows a' k (captured ++ [set_folderId c (target_folder fs format fid c)]).
Proof.
  intros Hon Hm. unfold store_imported. rewrite map_app. cbn [map].
  destruct (add_loop_online captured answers k Hon n (map (λ c, set_folderId c (target_folder fs format fid c)) l)
    (set_folderId c (target_folder fs format fid c)) a Hm) as (a' & -> & _ & Hs & _). eauto.
Qed.

Lemma deleted_online answers k replace a :
  (∀ n, an_net (answers n) = Online) → server_mode a k →
  ∃ a1 n, (if (replace : bool) then delete_loop (a_credentials a) answers 0 (map c_id (a_credentials a)) a else (a, Ok 0%nat)) = (a1, Ok n) ∧
    server_mode a1 k.
Proof.
  intros Hon Hm. destruct replace; [|by exists a, 0%nat].
  destruct (delete_loop_online (a_credentials a) answers k Hon 0 (map c_id (a_credentials a)) a Hm) as (a1 & -> & Hm1 & _). eauto.
Qed.

(** The answers of the daemon from the [n]-th call on. *)
Definition daemon_answers (answers : nat → answer) (ids : nat → jsstr) : Prop := ∀ i, an_daemon (answers i) = Some (ids i).

Lemma deleted_daemon answers ids replace a :
  daemon_answers answers ids → a_daemonConnected a = true →
  ∃ a1, (if (replace : bool) then delete_loop (a_credentials a) answers 0 (map c_id (a_credentials a)) a else (a, Ok 0%nat))
      = (a1, Ok (if replace then length (a_credentials a) else 0%nat)) ∧
    a_daemonConnected a1 = true ∧ a_folders a1 = a_folders a ∧ a_credentials a1 = (if replace then [] else a_credentials a).
Proof.
  intros Ha Hd. destruct replace; [|by exists a].
  destruct (delete_loop_daemon (a_credentials a) answers 0 (map c_id (a_credentials a)) a Hd) as (a1 & -> & Hd1 & Hf & Hc).
  { intros i _. rewrite Ha. done. }
  exists a1. rewrite length_map. split; [done|]. split; [done|]. split; [done|]. rewrite Hc. apply delete_all.
Qed.

Lemma store_daemon captured fs format imported answers ids fid n a :
  daemon_answers answers ids → a_daemonConnected a = true →
  ∃ a', store_imported captured fs format imported answers fid n a = (a', Ok tt) ∧ a_folders a' = a_folders a ∧
    a_credentials a' = a_credentials a ++
      imap (λ i c, set_cred_id (set_folderId c (target_folder fs format fid c)) (IdString (ids (n + i)%nat))) imported.
Proof.
  intros Ha Hd. unfold store_imported.
  destruct (add_loop_daemon captured answers ids n (map (λ c, set_folderId c (target_folder fs format fid c)) imported) a Hd)
    as (a' & -> & _ & Hf & Hc); [intros; apply Ha|].
  exists a'. split; [done|]. split; [done|]. rewrite Hc. f_equal. change (map ?f imported) with (f <$> imported).
  by rewrite imap_fmap.
Qed.

Module Transfer.

(** C17: Importing several credentials while the server is used keeps only the last one:
    every call of the loop appends to the credentials of the moment the user clicked, so
    it undoes the calls before it, on the page and on the server; and replacing deletes
    nothing. *)
Theorem import_keeps_only_last label description uuid uuid2 answers replace format l c a k :
  server_mode a k → (∀ n, an_net (answers n) = Online) →
  ∃ a' fid, handleConfirmImport label description uuid uuid2 answers replace format (l ++ [c]) a = (a', Ok tt) ∧
    shows a' k (a_credentials a ++ [set_folderId c fid]).
Proof.
  intros Hm Hon. rewrite handleConfirmImport_eq. destruct (deleted_online answers k replace a Hon Hm) as (a1 & n & -> & Hm1).
  destruct (existing_folder label (a_folders a)) as [id|].
  - destruct (store_online (a_credentials a) (a_folders a) format l c answers k id n a1 Hon Hm1) as (a' & -> & Hs). eauto.
  - rewrite Hon. destruct (addFolder_online a1 k (import_folder label description uuid) uuid2 (an_daemon (answers n)) (an_now (answers n)) Hm1)
      as (a2 & id & -> & Hm2 & _).
    destruct (store_online (a_credentials a) (a_folders a) format l c answers k uuid (S n) a2 Hon Hm2) as (a' & -> & Hs). eauto.
Qed.

Lemma import_keeps_only_last_witness :
  ∃ a' fid, handleConfirmImport (js "Imported") [] (js "u1") (js "u2") (λ n, mkAnswer None Online 0) true (js "chrome-csv")
      [SyncSpec.s_cred "n1" ""; SyncSpec.s_cred "n2" ""] SyncSpec.s_online = (a', Ok tt) ∧
    shows a' 7 (a_credentials SyncSpec.s_online ++ [set_folderId (SyncSpec.s_cred "n2" "") fid]).
Proof.
  apply (import_keeps_only_last (js "Imported") [] (js "u1") (js "u2") (λ n, mkAnswer None Online 0) true (js "chrome-csv")
    [SyncSpec.s_cred "n1" ""] (SyncSpec.s_cred "n2" "") SyncSpec.s_online 7); [split; [reflexivity|apply SyncSpec.s_online_live]|reflexivity].
Defined.

(** With the daemon an import stores every credential in order, after the ones that
    were there or, when replacing, instead of them.  But when the import makes its own
    folder, the credentials carry the id the page generated and not the one the daemon
    assigned, so they are in no folder. *)
Theorem daemon_import_complete label description uuid uuid2 answers ids replace format imported a :
  daemon_answers answers ids → a_daemonConnected a = true →
  ∃ a' fid n, handleConfirmImport label description uuid uuid2 answers replace format imported a = (a', Ok tt) ∧
    a_credentials a' = (if replace then [] else a_credentials a) ++
      imap (λ i c, set_cred_id (set_folderId c (target_folder (a_folders a) format fid c)) (IdString (ids (n + i)%nat))) imported ∧
    (existing_folder label (a_folders a) = None → uuid ∉ map f_id (a_folders a) → (∀ i, ids i ≠ uuid) →
       fid = uuid ∧ fid ∉ map f_id (a_folders a')).
Proof.
  intros Ha Hd. rewrite handleConfirmImport_eq. destruct (deleted_daemon answers ids replace a Ha Hd) as (a1 & -> & Hd1 & Hf1 & Hc1).
  set (n := if replace then _ else _). destruct (existing_folder label (a_folders a)) as [id|].
  - destruct (store_daemon (a_credentials a) (a_folders a) format imported answers ids id n a1 Ha Hd1) as (a' & -> & _ & Hc).
    exists a', id, n. split; [done|]. split; [by rewrite Hc, Hc1|done].
  - unfold addFolder. rewrite Hd1, Ha. cbn iota. set (a2 := with_folders a1 _).
    destruct (store_daemon (a_credentials a) (a_folders a) format imported answers ids uuid (S n) a2 Ha) as (a' & -> & Hf & Hc); [done|].
    exists a', uuid, (S n). split; [done|]. split; [by rewrite Hc; unfold a2; cbn; rewrite Hc1|]. intros _ Hu Hids. split; [done|].
    rewrite Hf. unfold a2. cbn. rewrite Hf1, map_app. cbn. specialize (Hids n). set_solver.
Qed.

Lemma daemon_import_complete_witness :
  let a := mkApp [] [SyncSpec.s_cred "c1" ""] no_assets true false true (a_world SyncSpec.s_online) in
  ∃ a' fid n, handleConfirmImport (js "Imported") [] (js "u1") (js "u2") (λ n, mkAnswer (Some (js "d")) Online 0) true (js "chrome-csv")
      [SyncSpec.s_cred "n1" ""; SyncSpec.s_cred "n2" ""] a = (a', Ok tt) ∧
    a_credentials a' = [] ++
      imap (λ i c, set_cred_id (set_folderId c (target_folder [] (js "chrome-csv") fid c)) (IdString ((λ _, js "d") (n + i)%nat)))
        [SyncSpec.s_cred "n1" ""; SyncSpec.s_cred "n2" ""] ∧
    (existing_folder (js "Imported") [] = None → js "u1" ∉ map f_id [] → (∀ i : nat, js "d" ≠ js "u1") → fid = js "u1" ∧ fid ∉ map f_id (a_folders a')).
Proof.
  intros a. apply (daemon_import_complete (js "Imported") [] (js "u1") (js "u2") (λ n, mkAnswer (Some (js "d")) Online 0) (λ _, js "d") true
    (js "chrome-csv") [SyncSpec.s_cred "n1" ""; SyncSpec.s_cred "n2" ""] a); [intros i; reflexivity|reflexivity].
Defined.

(** Of the formats the settings page offers for export, ten are handled by no case:
    choosing one ends without a file and without a message.  For every other format the
    export gives a file or an error. *)
Theorem export_formats_dispatched `{JsUrl} `{P2WCrypto} : Forall dispatched FORMATS ∧
  List.filter (λ f, canExport f && bool_decide (fmt_id f ∈ UNHANDLED)) FORMATS = List.filter (λ f, bool_decide (fmt_id f ∈ UNHANDLED)) FORMATS ∧
  length (List.filter (λ f, canExport f && bool_decide (fmt_id f ∈ UNHANDLED)) FORMATS) = 10%nat.
Proof. split; [apply all_dispatched|]. split; vm_compute; reflexivity. Qed.
End Transfer.
