(* ===== verification/FolderPage.v ===== *)
(** * Managing folders ([web/src/pages/ManageFolders.tsx],
      [web/src/components/CreateFolderModal.tsx])

    The page with its dialogs over the vault of [VaultSync].  A handler is a function
    of the rendering it was created in; an element under the pointer is the id of the
    folder it carries. *)
From S2P Require Import Prelude JsRuntime JsText Base64 Types VaultSync VaultSyncSpec SettingsTransfer.

(** ** State *)

Record FolderPage := mkFolderPage {
  fp_editingId : option jsstr; fp_editLabel : jsstr; fp_editIcon : jsstr;
  fp_isAdding : bool; fp_newLabel : jsstr; fp_newDescription : jsstr; fp_newCustomSvg : jsstr; fp_newIcon : jsstr;
  fp_folderToDelete : option Folder; fp_targetFolderId : jsstr; fp_selected : list cred_id;
  fp_dragging : option cred_id; fp_hovered : option jsstr; fp_local : list Credential }.

Definition folder_page : FolderPage :=
  mkFolderPage None [] [] false [] [] [] (js "Folder") None [] [] None None [].

Definition set_editing (p : FolderPage) (id : option jsstr) (label icon : jsstr) : FolderPage :=
  mkFolderPage id label icon (fp_isAdding p) (fp_newLabel p) (fp_newDescription p) (fp_newCustomSvg p) (fp_newIcon p)
    (fp_folderToDelete p) (fp_targetFolderId p) (fp_selected p) (fp_dragging p) (fp_hovered p) (fp_local p).
Definition set_new (p : FolderPage) (adding : bool) (label description svg : jsstr) : FolderPage :=
  mkFolderPage (fp_editingId p) (fp_editLabel p) (fp_editIcon p) adding label description svg (fp_newIcon p)
    (fp_folderToDelete p) (fp_targetFolderId p) (fp_selected p) (fp_dragging p) (fp_hovered p) (fp_local p).
Definition set_deleting (p : FolderPage) (f : option Folder) (target : jsstr) (selected : list cred_id) : FolderPage :=
  mkFolderPage (fp_editingId p) (fp_editLabel p) (fp_editIcon p) (fp_isAdding p) (fp_newLabel p) (fp_newDescription p)
    (fp_newCustomSvg p) (fp_newIcon p) f target selected (fp_dragging p) (fp_hovered p) (fp_local p).
Definition set_drag (p : FolderPage) (dragging : option cred_id) (hovered : option jsstr) : FolderPage :=
  mkFolderPage (fp_editingId p) (fp_editLabel p) (fp_editIcon p) (fp_isAdding p) (fp_newLabel p) (fp_newDescription p)
    (fp_newCustomSvg p) (fp_newIcon p) (fp_folderToDelete p) (fp_targetFolderId p) (fp_selected p) dragging hovered (fp_local p).
Definition set_fp_local (p : FolderPage) (l : list Credential) : FolderPage :=
  mkFolderPage (fp_editingId p) (fp_editLabel p) (fp_editIcon p) (fp_isAdding p) (fp_newLabel p) (fp_newDescription p)
    (fp_newCustomSvg p) (fp_newIcon p) (fp_folderToDelete p) (fp_targetFolderId p) (fp_selected p) (fp_dragging p) (fp_hovered p) l.

(** ** The lists the page shows *)

Definition in_folder (id : jsstr) (c : Credential) : bool := str_eqb (c_folderId c) id.

Definition folderCredentials (p : FolderPage) (creds : list Credential) : list Credential :=
  match fp_folderToDelete p with Some f => List.filter (in_folder (f_id f)) creds | None => [] end.

Definition otherFolders (p : FolderPage) (folders : list Folder) : list Folder :=
  match fp_folderToDelete p with Some f => kept_folders (f_id f) folders | None => folders end.

(** The effect on [folderToDelete] and [credentials]. *)
Definition sync_local (p : FolderPage) (creds : list Credential) : FolderPage := set_fp_local p (folderCredentials p creds).

(** ** Editing *)

Definition or_text (a b : jsstr) : jsstr := if str_empty a then b else a.

Definition handleStartEdit (f : Folder) (p : FolderPage) : FolderPage :=
  set_editing p (Some (f_id f)) (f_label f) (or_text (default [] (f_iconName f)) (js "Folder")).

Definition edited (p : FolderPage) (f : Folder) : Folder :=
  mkFolder (f_id f) (fp_editLabel p) (f_description f) (Some (fp_editIcon p)) (f_customSvg f).

Definition handleSaveEdit (f : Folder) (d : option unit) (o : net) (now : Z) (p : FolderPage) (a : app) : FolderPage * app :=
  (set_editing p None (fp_editLabel p) (fp_editIcon p), (updateFolder a (edited p f) d o now).1).

(** ** Creating *)

Definition DESCRIPTION (label : jsstr) : jsstr :=
  js "Manage sensitive " ++ label ++ js " credentials with high-precision security protocols.".

Definition truthy_svg (s : jsstr) : option jsstr := if str_empty s then None else Some s.

Definition handleAddNew `{JsCase} (uuid1 uuid2 : jsstr) (d : option jsstr) (o : net) (now : Z) (p : FolderPage) (a : app)
    : FolderPage * app :=
  if str_empty (trim (fp_newLabel p)) then (p, a)
  else
    let f := mkFolder uuid1 (fp_newLabel p) (Some (or_text (fp_newDescription p) (DESCRIPTION (toLowerCase (fp_newLabel p)))))
               (if str_empty (fp_newCustomSvg p) then Some (fp_newIcon p) else None) (truthy_svg (fp_newCustomSvg p)) in
    match addFolder a f uuid2 d o now with
    | (a, Throw _) => (p, a)
    | (a, Ok resolvedId) =>
        let p := match fp_folderToDelete p with
                 | Some x => set_deleting p (Some x) resolvedId (fp_selected p)
                 | None => p
                 end in
        (set_new p false [] [] [], a)
    end.

(** The dialog for new folders. *)
Record CreateModal := mkCreateModal {
  cm_title : jsstr; cm_description : jsstr; cm_icon : jsstr; cm_svg : option jsstr; cm_open : bool }.

Definition handleTemplateClick (label : jsstr) (m : CreateModal) : CreateModal :=
  mkCreateModal label (cm_description m) (cm_icon m) (cm_svg m) (cm_open m).

(** [None]: the notification that the file is no SVG. *)
Definition handleFileUpload (content : jsstr) (m : CreateModal) : option CreateModal :=
  if includes (js "<svg") content then Some (mkCreateModal (cm_title m) (cm_description m) (js "custom") (Some content) (cm_open m)) else None.

Definition modal_folder `{JsCase} (uuid : jsstr) (m : CreateModal) : Folder :=
  let custom := str_eqb (cm_icon m) (js "custom") in
  mkFolder uuid (cm_title m) (Some (or_text (cm_description m) (DESCRIPTION (toLowerCase (cm_title m)))))
    (if custom then None else Some (cm_icon m)) (if custom then cm_svg m ≫= truthy_svg else None).

(** The folder handed to the vault, and the dialog after it. *)
Definition handleSubmit `{JsCase} (uuid : jsstr) (m : CreateModal) : option Folder * CreateModal :=
  if str_empty (trim (cm_title m)) then (None, m)
  else (Some (modal_folder uuid m), mkCreateModal [] [] (js "Folder") None false).

(** ** Selecting and moving *)

Definition toggleCredentialSelection (id : cred_id) (p : FolderPage) : FolderPage :=
  set_deleting p (fp_folderToDelete p) (fp_targetFolderId p)
    (if existsb (same_id id) (fp_selected p) then List.filter (λ i, negb (same_id i id)) (fp_selected p) else fp_selected p ++ [id]).

(** The button "Select All" compares lengths. *)
Definition select_all (creds : list Credential) (p : FolderPage) : FolderPage :=
  set_deleting p (fp_folderToDelete p) (fp_targetFolderId p)
    (if len (fp_selected p) =? len (folderCredentials p creds) then [] else map c_id (folderCredentials p creds)).

(** [setFolderToDelete(folder)] and [setFolderToDelete(null)] *)
Definition start_delete (f : Folder) (p : FolderPage) : FolderPage := set_deleting p (Some f) (fp_targetFolderId p) (fp_selected p).
Definition cancel_delete (p : FolderPage) : FolderPage := set_deleting p None (fp_targetFolderId p) (fp_selected p).

Definition handleDrag (under : option jsstr) (p : FolderPage) : FolderPage := set_drag p (fp_dragging p) under.

(** [under]: the [data-folder-id] of the first element under the pointer that has one. *)
Definition handleDragEnd (id : cred_id) (under : option jsstr) (d : option unit) (o : net) (now : Z) (p : FolderPage) (a : app)
    : FolderPage * app :=
  let p := set_drag p None None in
  match under, fp_folderToDelete p with
  | Some target, Some f =>
      if str_empty target then (p, a)
      else
        let idsToMove := if existsb (same_id id) (fp_selected p) then fp_selected p else [id] in
        let '(a, _) := moveCredentials a (f_id f) target (Some idsToMove) d o now in
        (set_deleting p (fp_folderToDelete p) (fp_targetFolderId p)
           (List.filter (λ i, negb (existsb (same_id i) idsToMove)) (fp_selected p)), a)
  | _, _ => (p, a)
  end.

(** ** Deleting *)

(** [deleteFolder] as the rendering holds it: over the server it starts from the lists of
    that rendering, with the daemon from the current ones. *)
Definition deleteFolder_captured (prevFolders : list Folder) (prevCreds : list Credential) (a : app) (folderId : jsstr)
    (d : option unit) (schedule : list bool) (o1 o2 : net) (now : Z) : app * result op_error unit :=
  if a_daemonConnected a then deleteFolder a folderId d schedule o1 o2 now
  else
    let newFolders := kept_folders folderId prevFolders in
    let newCreds := kept_creds folderId prevCreds in
    let a := with_credentials (with_folders a newFolders) newCreds in
    let fin := run_both newFolders newCreds (negb (len newCreds =? len prevCreds)) schedule o1 o2 now (a_world a) in
    let a := with_world a (pr_world fin) in
    match pr_first fin with
    | None | Some (Queued _) => (a, Ok tt)
    | Some e => (with_credentials (with_folders a prevFolders) prevCreds, Throw (WriteError e))
    end.

(** The requests of the move are answered before those of the deletion are sent; the
    button of the dialog calls it without a move. *)
Definition handleConfirmDelete (move : bool) (dm dd : option unit) (schedule : list bool) (o o1 o2 : net) (now : Z)
    (p : FolderPage) (a : app) : FolderPage * app :=
  match fp_folderToDelete p with
  | None => (p, a)
  | Some f =>
      let fs := a_folders a in
      let cs := a_credentials a in
      let a := if move && negb (str_empty (fp_targetFolderId p)) && (0 <? len (fp_selected p))
               then (moveCredentials a (f_id f) (fp_targetFolderId p) (Some (fp_selected p)) dm o now).1 else a in
      (set_deleting p None [] [], (deleteFolder_captured fs cs a (f_id f) dd schedule o1 o2 now).1)
  end.

(** ** Reordering with the keyboard *)

(** [findIndex] *)
Fixpoint find_index (id : jsstr) (l : list Folder) : option nat :=
  match l with
  | [] => None
  | f :: l' => if str_eqb (f_id f) id then Some O else S <$> find_index id l'
  end.

(** [splice(index, 1)] and [splice(newIndex, 0, moved)] *)
Definition move_item {A} (index newIndex : nat) (l : list A) : list A :=
  match l !! index with
  | Some moved => let rest := take index l ++ drop (S index) l in take newIndex rest ++ [moved] ++ drop newIndex rest
  | None => l
  end.

Definition handleKeyboardReorder (id : jsstr) (upwards : bool) (d : option unit) (o : net) (now : Z) (a : app) : app :=
  match find_index id (a_folders a) with
  | None => a
  | Some index =>
      let newIndex := if upwards then Z.of_nat index - 1 else Z.of_nat index + 1 in
      if (newIndex <? 0) || (len (a_folders a) <=? newIndex) then a
      else (reorderFolders a (move_item index (Z.to_nat newIndex) (a_folders a)) d o now).1
  end.

(** ** Properties *)

(** *** Lists *)

Lemma move_item_perm {A} index newIndex (l : list A) : move_item index newIndex l ≡ₚ l.
Proof.
  unfold move_item. destruct (l !! index) as [x|] eqn:Hx; [|done].
  rewrite (Permutation_app_swap_app (take newIndex _) [x]), take_drop.
  rewrite <- (take_drop_middle l index x Hx) at 3. by rewrite (Permutation_app_swap_app [x]).
Qed.

(** Moving an element to the next place swaps it with its neighbour. *)
Lemma move_item_next {A} (l1 l2 : list A) x y :
  move_item (length l1) (S (length l1)) (l1 ++ x :: y :: l2) = l1 ++ y :: x :: l2.
Proof.
  unfold move_item. rewrite list_lookup_middle by done. rewrite take_app_length.
  replace (drop (S (length l1)) (l1 ++ x :: y :: l2)) with (y :: l2).
  2:{ rewrite (cons_middle x), (assoc _). by rewrite drop_app_length' by (rewrite ?length_app; cbn [length]; lia). }
  rewrite (cons_middle y l1 l2), (assoc _ l1).
  rewrite take_app_length', drop_app_length' by (rewrite ?length_app; cbn [length]; lia). by rewrite <- (assoc _).
Qed.

Lemma move_item_prev {A} (l1 l2 : list A) x y :
  move_item (S (length l1)) (length l1) (l1 ++ x :: y :: l2) = l1 ++ y :: x :: l2.
Proof.
  unfold move_item. rewrite (cons_middle x l1 (y :: l2)). rewrite (app_assoc l1 [x] (y :: l2)).
  assert (Hn : S (length l1) = length (l1 ++ [x])) by (rewrite length_app; cbn [length]; lia).
  rewrite (list_lookup_middle (l1 ++ [x]) l2 y) by done. rewrite (take_app_length' (l1 ++ [x]) (y :: l2)) by done.
  rewrite (cons_middle y (l1 ++ [x]) l2), (app_assoc (l1 ++ [x]) [y] l2).
  rewrite (drop_app_length' ((l1 ++ [x]) ++ [y]) l2) by (rewrite length_app, <- Hn; cbn [length]; lia).
  rewrite <- (app_assoc l1 [x] l2). by rewrite take_app_length, drop_app_length.
Qed.

Lemma find_index_app id l1 f l2 :
  id ∉ map f_id l1 → f_id f = id → find_index id (l1 ++ f :: l2) = Some (length l1).
Proof.
  intros Hni Hf. induction l1 as [|g l1 IH]; cbn [Datatypes.app find_index length].
  - unfold str_eqb. by rewrite bool_decide_eq_true_2.
  - cbn [map] in Hni. apply not_elem_of_cons in Hni as [Hg Hni].
    unfold str_eqb. rewrite bool_decide_eq_false_2 by congruence. by rewrite IH.
Qed.

Lemma find_index_None id l : id ∉ map f_id l → find_index id l = None.
Proof.
  induction l as [|g l IH]; cbn [find_index map]; [done|]. intros [Hg Hni]%not_elem_of_cons.
  unfold str_eqb. rewrite bool_decide_eq_false_2 by congruence. by rewrite IH.
Qed.

Lemma filter_length_all {A} (f : A → bool) l : length (List.filter f l) = length l → List.filter f l = l.
Proof.
  induction l as [|x l IH]; [done|]. cbn [List.filter]. pose proof (List.filter_length_le f l).
  destruct (f x); cbn [length]; [|lia]. intros Heq. f_equal. apply IH. lia.
Qed.

(** *** Two writes that are both saved *)

Definition saved_inv (w : world) (k : Z) (fs : list Folder) (cs : list Credential) (changed : bool) (s : pair_run) : Prop :=
  live (pr_world s) k ∧ pr_first s = None ∧
  (pr_folders s = TStart ∨ pr_folders s = TPut (Seal k (PFolders fs)) ∨
   pr_folders s = TDone Saved ∧ w_server (pr_world s) !! folders = Some (Encrypted (Seal k (PFolders fs)))) ∧
  (if changed then
     pr_creds s = TStart ∨ pr_creds s = TPut (Seal k (PCreds cs)) ∨
     pr_creds s = TDone Saved ∧ w_server (pr_world s) !! credentials = Some (Encrypted (Seal k (PCreds cs)))
   else pr_creds s = TDone Saved ∧ w_server (pr_world s) !! credentials = w_server w !! credentials).

Lemma saved_step w k fs cs changed now s b :
  saved_inv w k fs cs changed s → saved_inv w k fs cs changed (pair_step fs cs Online Online now s b).
Proof.
  intros (Hl & Hfirst & Hf & Hc). destruct s as [ws tf tc first]. cbn [pr_world pr_folders pr_creds pr_first] in *. subst first.
  pose proof Hl as [Hs Hkey Hob Heng].
  assert (Hl' : ∀ r v, live (set_local (set_server ws (<[r := v]> (w_server ws))) (delete r (w_local ws))) k) by (by split).
  destruct b; unfold pair_step; cbn [pr_world pr_folders pr_creds pr_first].
  - destruct Hf as [-> |[-> |[-> Hsv]]]; cbn [task_step]; rewrite ?Hs, ?(seal_live Hl); cbn [put];
      (split; [by (done || apply Hl')|]); (split; [done|]); cbn [pr_world pr_folders pr_creds pr_first]; (split; [eauto|]); eauto.
    + right. right. split; [done|]. cbn. apply lookup_insert_eq.
    + destruct changed; cbn [w_server set_local set_server]; rewrite ?lookup_insert_ne by done; exact Hc.
  - destruct changed.
    + destruct Hc as [-> |[-> |[-> Hsv]]]; cbn [task_step]; rewrite ?Hs, ?(seal_live Hl); cbn [put];
        (split; [by (done || apply Hl')|]); (split; [done|]); cbn [pr_world pr_folders pr_creds pr_first]; (split; [eauto|eauto]).
      * cbn [w_server set_local set_server]. rewrite lookup_insert_ne by done. exact Hf.
      * right. right. split; [done|]. cbn. apply lookup_insert_eq.
    + destruct Hc as [-> Hsv]. by split_and!.
Qed.

Lemma online_both w k fs cs changed schedule now :
  live w k →
  let s := run_both fs cs changed schedule Online Online now w in
  pr_first s = None ∧ live (pr_world s) k ∧
  w_server (pr_world s) !! folders = Some (Encrypted (Seal k (PFolders fs))) ∧
  w_server (pr_world s) !! credentials =
    if changed then Some (Encrypted (Seal k (PCreds cs))) else w_server w !! credentials.
Proof.
  intros Hl. destruct (run_both_done fs cs changed schedule Online Online now w) as [[r1 E1] [r2 E2]].
  assert (Hinv : saved_inv w k fs cs changed (run_both fs cs changed schedule Online Online now w)).
  { unfold run_both. generalize (schedule ++ replicate 5 true ++ replicate 5 false). intros l.
    assert (H0 : saved_inv w k fs cs changed (mkPair w TStart (if changed then TStart else TDone Saved) None))
      by (destruct changed; split_and!; cbn; eauto).
    revert H0. generalize (mkPair w TStart (if changed then TStart else TDone Saved) None).
    induction l as [|b l IH]; intros s Hs; [done|]. by apply IH, saved_step. }
  destruct Hinv as (Hlive & Hfirst & Hf & Hc). rewrite E1 in Hf. rewrite E2 in Hc.
  split; [done|]. split; [done|]. split; [by destruct Hf as [?|[?|[_ ?]]]|].
  destruct changed; [by destruct Hc as [?|[?|[_ ?]]]|by destruct Hc].
Qed.

(** The page and the server show the folders [fs]. *)
Definition shows_folders (a : app) (k : Z) (fs : list Folder) : Prop :=
  a_folders a = fs ∧ w_server (a_world a) !! folders = Some (Encrypted (Seal k (PFolders fs))).

Lemma delete_captured_online fs cs a k id d schedule now :
  server_mode a k → (kept_creds id cs = cs → shows a k cs) →
  ∃ a', deleteFolder_captured fs cs a id d schedule Online Online now = (a', Ok tt) ∧ server_mode a' k ∧
    shows_folders a' k (kept_folders id fs) ∧ shows a' k (kept_creds id cs).
Proof.
  intros [Hd Hl] Hsh. unfold deleteFolder_captured. rewrite Hd. cbn [a_world with_credentials with_folders].
  destruct (online_both (a_world a) k (kept_folders id fs) (kept_creds id cs) (negb (len (kept_creds id cs) =? len cs)) schedule now Hl)
    as (-> & Hlive & Hsf & Hsc).
  eexists. split; [done|]. split; [by split|]. split; [by split|]. split; [done|]. cbn [a_world with_world].
  rewrite Hsc. destruct (Z.eqb_spec (len (kept_creds id cs)) (len cs)) as [Heq|]; [|done]. cbn [negb].
  assert (Hkept : kept_creds id cs = cs).
  { apply filter_length_all. unfold len in Heq. unfold kept_creds in Heq. lia. }
  rewrite Hkept. by apply Hsh.
Qed.

Lemma moveCredentials_online a k source target ids d now :
  server_mode a k →
  ∃ a', moveCredentials a source target ids d Online now = (a', Ok tt) ∧ server_mode a' k ∧
    shows a' k (map (λ c, if to_move source ids c then set_folderId c target else c) (a_credentials a)) ∧
    a_folders a' = a_folders a.
Proof.
  intros Hm. pose proof Hm as [Hd _]. unfold moveCredentials. rewrite Hd.
  apply (save_captured_online (a_credentials a) a k _ now Hm).
Qed.

(** The credentials left of a deleted folder after some were moved away. *)
Lemma kept_moved id target (moved : Credential → bool) l :
  target ≠ id →
  kept_creds id (map (λ c, if moved c then set_folderId c target else c) l) =
  map (λ c, if moved c then set_folderId c target else c) (List.filter (λ c, moved c || negb (in_folder id c)) l).
Proof.
  intros Hne. unfold kept_creds, in_folder. induction l as [|c l IH]; [done|]. cbn [map List.filter].
  destruct (moved c) eqn:Hm; cbn [orb].
  - cbn [set_folderId c_folderId]. unfold str_eqb at 1. rewrite bool_decide_eq_false_2 by done. cbn [negb map]. by rewrite Hm, IH.
  - destruct (str_eqb (c_folderId c) id); cbn [negb map]; [done|]. by rewrite Hm, IH.
Qed.

Module FolderSpec.

(** C14: credentials dragged out of a folder survive its deletion.  Online, after a drop on
    another folder and the confirmation, in whatever order the two requests of the
    deletion are answered, page and server hold the other folders, the credentials that
    were dragged, now in the folder they were dropped on, and those of the other folders;
    the rest of the deleted folder is gone, and the dialog starts clean the next time. *)
Theorem dragged_survive a k p f id target d dm dd schedule o now :
  server_mode a k → fp_folderToDelete p = Some f → target ≠ [] → target ≠ f_id f →
  let ids := if existsb (same_id id) (fp_selected p) then fp_selected p else [id] in
  let moved c := existsb (same_id (c_id c)) ids in
  let '(p1, a1) := handleDragEnd id (Some target) d Online now p a in
  let '(p2, a2) := handleConfirmDelete false dm dd schedule o Online Online now p1 a1 in
  shows_folders a2 k (kept_folders (f_id f) (a_folders a)) ∧
  shows a2 k (map (λ c, if moved c then set_folderId c target else c)
    (List.filter (λ c, moved c || negb (in_folder (f_id f) c)) (a_credentials a))) ∧
  fp_folderToDelete p2 = None ∧ fp_selected p2 = [].
Proof.
  intros Hm Hp Ht Hne ids moved. unfold handleDragEnd. cbn [set_drag fp_folderToDelete fp_selected fp_targetFolderId].
  rewrite Hp. destruct target as [|t0 t]; [done|]. cbn [str_empty]. fold ids.
  destruct (moveCredentials_online a k (f_id f) (t0 :: t) (Some ids) d now Hm) as (a1 & -> & Hm1 & Hs1 & Hf1).
  unfold handleConfirmDelete. cbn [set_deleting set_drag fp_folderToDelete andb].
  destruct (delete_captured_online (a_folders a1) (a_credentials a1) a1 k (f_id f) dd schedule now Hm1) as (a2 & -> & _ & Hsf & Hsc).
  { intros _. by rewrite (proj1 Hs1). }
  rewrite Hf1 in Hsf. rewrite (proj1 Hs1) in Hsc. cbn [to_move] in Hsc. rewrite kept_moved in Hsc by done.
  by split_and!.
Qed.

Definition t_folder (id : string) : Folder := mkFolder (js id) (js id) None None None.
Definition t_app : app :=
  with_credentials (with_folders SyncSpec.s_online [t_folder "work"; t_folder "home"])
    [SyncSpec.s_cred "c1" "work"; SyncSpec.s_cred "c2" "work"; SyncSpec.s_cred "c3" "home"].
Lemma t_app_mode : server_mode t_app 7.
Proof. split; [reflexivity|apply SyncSpec.s_online_live]. Qed.

Lemma dragged_survive_witness :
  let '(p1, a1) := handleDragEnd (IdString (js "c1")) (Some (js "home")) None Online 9
    (start_delete (t_folder "work") folder_page) t_app in
  let '(p2, a2) := handleConfirmDelete false None None [false] Down Online Online 9 p1 a1 in
  shows a2 7 [SyncSpec.s_cred "c1" "home"; SyncSpec.s_cred "c3" "home"].
Proof.
  pose proof (dragged_survive t_app 7 (start_delete (t_folder "work") folder_page) (t_folder "work") (IdString (js "c1")) (js "home")
    None None None [false] Down 9 t_app_mode eq_refl ltac:(discriminate) ltac:(discriminate)) as H.
  destruct (handleDragEnd _ _ _ _ _ _ _) as [p1 a1]. destruct (handleConfirmDelete _ _ _ _ _ _ _ _ _ _) as [p2 a2].
  exact (proj1 (proj2 H)).
Defined.

(** A selection outlives its dialog.  Credentials selected in the dialog of one folder
    stay selected when it is cancelled; when the dialog of another folder is opened and
    one of its credentials is selected and dragged, the earlier ones move with it, out of
    a folder that was not to be touched. *)
Theorem stale_selection_moves a k p f id target d now :
  server_mode a k → target ≠ [] → existsb (same_id id) (fp_selected p) = false →
  let p' := toggleCredentialSelection id (start_delete f (cancel_delete p)) in
  let '(_, a') := handleDragEnd id (Some target) d Online now p' a in
  shows a' k (map (λ c, if existsb (same_id (c_id c)) (fp_selected p ++ [id]) then set_folderId c target else c) (a_credentials a)).
Proof.
  intros Hm Ht Hid. unfold toggleCredentialSelection, start_delete, cancel_delete, handleDragEnd.
  cbn [set_deleting set_drag fp_folderToDelete fp_selected fp_targetFolderId]. rewrite Hid.
  destruct target as [|t0 t]; [done|]. cbn [str_empty].
  assert (Hin : existsb (same_id id) (fp_selected p ++ [id]) = true).
  { rewrite existsb_app. cbn [existsb]. unfold same_id at 2. by rewrite bool_decide_eq_true_2, orb_true_r. }
  rewrite Hin. destruct (moveCredentials_online a k (f_id f) (t0 :: t) (Some (fp_selected p ++ [id])) d now Hm) as (a1 & -> & _ & Hs & _).
  exact Hs.
Qed.

Lemma stale_selection_moves_witness :
  let p := toggleCredentialSelection (IdString (js "c3")) (start_delete (t_folder "home") folder_page) in
  let '(_, a') := handleDragEnd (IdString (js "c1")) (Some (js "other")) None Online 9
    (toggleCredentialSelection (IdString (js "c1")) (start_delete (t_folder "work") (cancel_delete p))) t_app in
  shows a' 7 [SyncSpec.s_cred "c1" "other"; SyncSpec.s_cred "c2" "work"; SyncSpec.s_cred "c3" "other"].
Proof.
  exact (stale_selection_moves t_app 7 (toggleCredentialSelection (IdString (js "c3")) (start_delete (t_folder "home") folder_page))
    (t_folder "work") (IdString (js "c1")) (js "other") None 9 t_app_mode ltac:(discriminate) eq_refl).
Defined.

(** Deleting with a move keeps nothing of the move: [onDeleteFolder] starts from the
    credentials of the rendering, in which they are still in the folder, so the
    credentials moved away a moment before are deleted with it. *)
Theorem confirm_move_loses a k p f dm dd schedule now :
  server_mode a k → fp_folderToDelete p = Some f → (∃ c, c ∈ a_credentials a ∧ c_folderId c = f_id f) →
  let '(_, a') := handleConfirmDelete true dm dd schedule Online Online Online now p a in
  shows a' k (kept_creds (f_id f) (a_credentials a)) ∧ shows_folders a' k (kept_folders (f_id f) (a_folders a)).
Proof.
  intros Hm Hp Hc. unfold handleConfirmDelete. rewrite Hp.
  match goal with |- context [if ?b then ?x else a] => set (a1 := if b then x else a) end.
  assert (Hm1 : server_mode a1 k).
  { subst a1. destruct (_ && _); [|done].
    by destruct (moveCredentials_online a k (f_id f) (fp_targetFolderId p) (Some (fp_selected p)) dm now Hm) as (a2 & -> & Hm2 & _). }
  destruct (delete_captured_online (a_folders a) (a_credentials a) a1 k (f_id f) dd schedule now Hm1) as (a2 & -> & _ & Hsf & Hsc); [|done].
  intros Heq. exfalso. pose proof (creds_shrink _ _ Hc) as Hlen. rewrite Heq in Hlen. by rewrite Z.eqb_refl in Hlen.
Qed.

(** Reordering with the arrow keys swaps a folder with its neighbour, on the page and on
    the server, and does nothing at the ends of the list or for a folder that is not
    listed. *)
Theorem keyboard_reorder_swaps a k l1 x y l2 d now :
  server_mode a k → a_folders a = l1 ++ x :: y :: l2 → NoDup (map f_id (a_folders a)) →
  shows_folders (handleKeyboardReorder (f_id x) false d Online now a) k (l1 ++ y :: x :: l2) ∧
  shows_folders (handleKeyboardReorder (f_id y) true d Online now a) k (l1 ++ y :: x :: l2).
Proof.
  intros [Hd Hl] Ha Hnd. rewrite Ha in Hnd. rewrite map_app in Hnd. cbn [map] in Hnd.
  apply NoDup_app in Hnd as (_ & Hdis & Hnd). apply NoDup_cons in Hnd as [Hxy _].
  assert (Hx : f_id x ∉ map f_id l1) by (intros Hin; apply (Hdis _ Hin), elem_of_cons; by left).
  assert (Hy : f_id y ∉ map f_id (l1 ++ [x])).
  { rewrite map_app, elem_of_app. intros [Hin|Hin].
    - apply (Hdis _ Hin), elem_of_cons; right; apply elem_of_cons; by left.
    - apply list_elem_of_singleton in Hin. apply Hxy. rewrite Hin. apply elem_of_cons; by left. }
  assert (Hsave : ∀ l, shows_folders (reorderFolders a l d Online now).1 k l).
  { intros l. unfold reorderFolders, persist. cbn [a_daemonConnected with_folders a_world]. rewrite Hd.
    destruct (write_online (a_world a) k folders (PFolders l) now Hl) as (w' & -> & _ & _ & Hs & _).
    split; [done|]. cbn. by rewrite Hs, lookup_insert_eq. }
  unfold handleKeyboardReorder. rewrite Ha. split.
  - rewrite find_index_app by done.
    rewrite (proj2 (Z.ltb_ge _ 0)), (proj2 (Z.leb_gt (len _) _)) by (unfold len; rewrite ?length_app; cbn [length]; lia). cbn [orb].
    replace (Z.to_nat (Z.of_nat (length l1) + 1)) with (S (length l1)) by lia. rewrite move_item_next. apply Hsave.
  - rewrite (cons_middle x l1), app_assoc, find_index_app by done.
    assert (Hlen : length (l1 ++ [x]) = S (length l1)) by (rewrite length_app; cbn [length]; lia). rewrite Hlen.
    rewrite (proj2 (Z.ltb_ge _ 0)), (proj2 (Z.leb_gt (len _) _)) by (unfold len; rewrite ?length_app; cbn [length]; lia). cbn [orb].
    replace (Z.to_nat (Z.of_nat (S (length l1)) - 1)) with (length l1) by lia. rewrite <- app_assoc. cbn [Datatypes.app]. rewrite move_item_prev. apply Hsave.
Qed.

Theorem keyboard_reorder_ends a d o now :
  (∀ id up, id ∉ map f_id (a_folders a) → handleKeyboardReorder id up d o now a = a) ∧
  (∀ x l, a_folders a = x :: l → handleKeyboardReorder (f_id x) true d o now a = a) ∧
  (∀ l x, a_folders a = l ++ [x] → f_id x ∉ map f_id l → handleKeyboardReorder (f_id x) false d o now a = a).
Proof.
  unfold handleKeyboardReorder. split_and!.
  - intros id up Hni. by rewrite find_index_None.
  - intros x l ->. change (x :: l) with ([] ++ x :: l). rewrite (find_index_app (f_id x) [] x l) by (done || set_solver). done.
  - intros l x -> Hni. rewrite (find_index_app (f_id x) l x []) by done.
    rewrite (proj2 (Z.leb_le (len _) _)); [by rewrite orb_true_r|]. unfold len. rewrite length_app. cbn [length]. lia.
Qed.

End FolderSpec.
