(* ===== verification/FormSpec.v ===== *)
(** * What the credential form saves ([web/src/pages/AddCredential.tsx],
      [web/src/context/VaultContext.tsx])

    The form with the vault it saves to: what an edit does to the stored credential,
    the shape of every credential the form can save, and saving again what was saved. *)
From S2P Require Import Prelude JsRuntime JsText Base64 Types CardUtils Generator CredentialForm VaultSync VaultSyncSpec.

(** ** Saving *)

(** How a submission ends: the form shows an error and stays, or it closes, with the
    notification for a changed password or without it. *)
Inductive Outcome := Stays (why : Submit) | SaveFailed (e : op_error) | Closed (goodShape : bool).

Definition closes (goodShape : bool) (r : app * result op_error unit) : app * Outcome :=
  match r with (a, Ok _) => (a, Closed goodShape) | (a, Throw e) => (a, SaveFailed e) end.

(** [!!password && !!initialData.password && password !== initialData.password], with expiry on *)
Definition good_shape (d : option Credential) (s : CredentialFormState) : bool :=
  bool_decide (fs_credentialType s = login) && fs_expiryEnabled s && negb (str_empty (fs_password s)) &&
  match d ≫= c_password with
  | Some old => negb (str_empty old) && negb (str_eqb (fs_password s) old)
  | None => false
  end.

(** The submit handler with the calls of the vault. *)
Definition submit_form (a : app) (e : FormEnv) (d : option Credential) (s : CredentialFormState)
    (new_id : option jsstr) (done_ : option unit) (o : net) (now : Z) : app * Outcome :=
  match onSubmit e d s with
  | AddIt c => closes false (addCredential a c new_id o now)
  | UpdateIt c => closes (good_shape d s) (updateCredential a c done_ o now)
  | why => (a, Stays why)
  end.

(** An update that succeeds puts the credential in the place of those with its id. *)
Lemma updateCredential_ok a c d o now a' :
  updateCredential a c d o now = (a', Ok tt) →
  a_credentials a' = map (λ x, if same_id (c_id x) (c_id c) then c else x) (a_credentials a).
Proof.
  unfold updateCredential, save_credentials, persist. destruct (a_daemonConnected a) eqn:Ed.
  - destruct d; [|done]. intros [= <-]. done.
  - cbn [a_daemonConnected with_credentials]. rewrite Ed. destruct (_localWrite _ _ _ _ _) as [w []]; intros [= <-]; done.
Qed.

Lemma onSubmit_saves e d s c : onSubmit e d s = AddIt c ∨ onSubmit e d s = UpdateIt c →
  (fs_credentialType s = login ∧ c = credData e d s (formatUrl (fs_url s)))
  ∨ (fs_credentialType s ≠ login ∧ c = non_login_credential e d s).
Proof.
  unfold onSubmit, give. destruct (str_empty _); [by intros []|]. destruct (bool_decide _) eqn:Eb; cbn [negb].
  - apply bool_decide_eq_true in Eb. destruct (_ && _); [by intros []|]. destruct (_ && _ && _); [by intros []|].
    destruct d; intros [[= <-]|[= <-]]; by left.
  - apply bool_decide_eq_false in Eb. destruct d; intros [[= <-]|[= <-]]; by right.
Qed.

Lemma mounted_inv `{JC : JsCase} wordList folders activeTab p_ids k_ids u_ids d ws f rest :
  mounted wordList folders activeTab p_ids k_ids u_ids d ws = Some (f, rest) →
  ∃ p, generatePassword wordList gen_defaults ws = Some (Some p, rest) ∧ len p = 24 ∧
    f = formReducer (open_form folders activeTab p_ids k_ids u_ids d) (set_password p).
Proof.
  intros Hm. destruct (generatePassword wordList gen_defaults ws) as [[q r]|] eqn:E.
  - assert (X := page_or_form_chars wordList (generatePassword wordList) gen_defaults ws (or_intror eq_refl) eq_refl ltac:(done)).
    rewrite E in X. assert (G := random_chars_good (charset (g_include gen_defaults)) (Z.to_nat (g_length gen_defaults)) ws).
    destruct (random_chars _ _ ws) as [[p r']|]; [|done]. injection X as -> ->. destruct G as (_ & Gl & Gp).
    exists p. unfold mounted, run_generator, mbind, gen_bind in Hm. rewrite E in Hm. injection Hm as <- <-.
    split; [done|]. split; [|done]. unfold len. rewrite Gp, length_map, Gl. done.
  - unfold mounted, run_generator, mbind, gen_bind in Hm. rewrite E in Hm. done.
Qed.

Lemma submit_update_inv a e c s new_id d o now a' b :
  submit_form a e (Some c) s new_id d o now = (a', Closed b) →
  ∃ c', onSubmit e (Some c) s = UpdateIt c' ∧
    a_credentials a' = map (λ x, if same_id (c_id x) (c_id c') then c' else x) (a_credentials a).
Proof.
  unfold submit_form. destruct (onSubmit e (Some c) s) as [| | |c'|c'] eqn:E; try done.
  - unfold onSubmit, give in E. repeat (case_match; try discriminate).
  - intros Hs. exists c'. split; [done|]. destruct (updateCredential a c' d o now) as [a2 [[]|e2]] eqn:Eu; [|done].
    injection Hs as <- _. by eapply updateCredential_ok.
Qed.

Lemma submit_closed a e c s new_id d o now a' b :
  submit_form a e (Some c) s new_id d o now = (a', Closed b) → (∃ c', onSubmit e (Some c) s = UpdateIt c') ∧ b = good_shape (Some c) s.
Proof.
  intros Hs. destruct (submit_update_inv _ _ _ _ _ _ _ _ _ _ Hs) as (c' & Hc & _). split; [by exists c'|].
  unfold submit_form in Hs. rewrite Hc in Hs. destruct (updateCredential _ _ _ _ _) as [a2 [[]|]]; [|done]. by injection Hs.
Qed.

(** Ids that [||] keeps. *)
Definition truthy_id (i : cred_id) : Prop := i ≠ IdString [] ∧ i ≠ IdNumber 0.

Lemma id_or_truthy c uuid : truthy_id (c_id c) → id_or (Some c) uuid = c_id c.
Proof.
  intros [H1 H2]. unfold id_or. cbn. destruct (c_id c) as [[]|n]; try done.
  destruct (Z.eqb_spec n 0) as [->|]; done.
Qed.

(** ** The check of the address *)

Definition alnum (c : Z) : bool := is_upper c || is_lower c || is_digit c.
Definition plain_name (s : jsstr) : Prop := s ≠ [] ∧ Forall (λ c, alnum c = true) s.

Lemma alnum_unit c : alnum c = true → is_word c = true ∧ host_unit c = true ∧ tld_unit c = true ∧ (c =? 46) = false.
Proof.
  intros H. unfold is_word, host_unit, tld_unit. unfold alnum in H. rewrite H. repeat split.
  destruct (Z.eqb_spec c 46) as [->|]; [|done]. by vm_compute in H.
Qed.

Lemma alnum_forallb (f : Z → bool) s : (∀ c, alnum c = true → f c = true) → Forall (λ c, alnum c = true) s → forallb f s = true.
Proof. intros Hf Hs. apply forallb_forall. intros c Hc. apply Hf. by eapply Forall_forall in Hs; [|apply list_elem_of_In]. Qed.

Lemma existsb_only {A} (f : A → bool) l x : x ∈ l → (∀ y, y ∈ l → f y = true → y = x) → existsb f l = f x.
Proof.
  intros Hx Hu. apply eq_true_iff_eq. rewrite existsb_exists. split.
  - intros (y & Hy & Hf). apply list_elem_of_In in Hy. by rewrite <- (Hu y Hy Hf).
  - intros Hf. exists x. by rewrite <- list_elem_of_In.
Qed.

Lemma existsb_none {A} (f : A → bool) l : (∀ y, y ∈ l → f y = false) → existsb f l = false.
Proof.
  intros Hn. apply not_true_is_false. rewrite existsb_exists. intros (y & Hy & Hf). apply list_elem_of_In in Hy. by rewrite Hn in Hf.
Qed.

Lemma boundary_alnum t m :
  Forall (λ c, alnum c = true) t → (1 <= m <= length t)%nat → boundary (take m t) (drop m t) = (m =? length t)%nat.
Proof.
  intros Ht Hm. unfold boundary. destruct (last (take m t)) as [c|] eqn:El.
  - assert (Hc : is_word c = true).
    { apply last_Some in El as [l' El]. apply alnum_unit. rewrite Forall_forall in Ht. apply Ht.
      eapply subseteq_take with (n := m). rewrite El. apply elem_of_app. right. left. }
    rewrite Hc. destruct (drop m t) as [|d rest] eqn:Ed.
    + apply (f_equal length) in Ed. rewrite length_drop in Ed. cbn in Ed. symmetry. apply Nat.eqb_eq. lia.
    + assert (is_word d = true) as ->.
      { apply alnum_unit. rewrite Forall_forall in Ht. apply Ht. eapply subseteq_drop with (n := m). rewrite Ed. left. }
      apply (f_equal length) in Ed. rewrite length_drop in Ed. cbn in Ed. symmetry. apply Nat.eqb_neq. lia.
  - apply last_None, (f_equal length) in El. rewrite length_take in El. cbn in El. lia.
Qed.

Lemma tld_matches_alnum t : plain_name t → tld_matches t = (length t <=? 6)%nat.
Proof.
  intros [Hne Ht]. assert (1 <= length t)%nat by (destruct t; [done|cbn; lia]). unfold tld_matches.
  set (f := λ m : nat, _).
  assert (Hf : ∀ m, m ∈ seq 1 6 → f m = true → m = length t).
  { intros m Hm. subst f. cbn beta. destruct (Nat.leb_spec m (length t)); [|done]. cbn [andb].
    rewrite list_elem_of_In, in_seq in Hm. rewrite boundary_alnum by (done || lia). intros (_ & E)%andb_true_iff. by apply Nat.eqb_eq. }
  destruct (Nat.leb_spec (length t) 6).
  - rewrite (existsb_only f _ (length t)); [|rewrite list_elem_of_In, in_seq; lia|done]. subst f. cbn beta.
    rewrite boundary_alnum by (done || lia). rewrite firstn_all, Nat.leb_refl, Nat.eqb_refl.
    by rewrite (alnum_forallb tld_unit t) by (done || intros; by apply alnum_unit).
  - apply existsb_none. intros m Hm. destruct (f m) eqn:E; [|done]. apply Hf in E; [|done].
    rewrite list_elem_of_In, in_seq in Hm. lia.
Qed.

(** A dot is found in a text only where there is one. *)
Lemma dot_at h t k d rest :
  Forall (λ c, alnum c = true) h → Forall (λ c, alnum c = true) t →
  drop k (h ++ 46 :: t) = d :: rest → (d =? 46) = true → k = length h ∧ rest = t.
Proof.
  intros Hh Ht Hd Ed. apply Z.eqb_eq in Ed as ->.
  assert (Hk : (h ++ 46 :: t) !! k = Some 46) by (rewrite <- (Nat.add_0_r k), <- lookup_drop, Hd; done).
  assert (Hnot : ∀ l : jsstr, Forall (λ c, alnum c = true) l → 46 ∉ l).
  { intros l Hl Hin. rewrite Forall_forall in Hl. apply Hl in Hin. by vm_compute in Hin. }
  apply lookup_app_Some in Hk as [Hk|[Hle Hk]].
  - apply list_elem_of_lookup_2 in Hk. by apply Hnot in Hk.
  - destruct (k - length h)%nat as [|n] eqn:En; [|cbn in Hk; apply list_elem_of_lookup_2 in Hk; by apply Hnot in Hk].
    assert (k = length h) as -> by lia. rewrite drop_app_length in Hd. by injection Hd as <-.
Qed.

Lemma host_matches_plain h t :
  plain_name h → plain_name t → (length h <= 256)%nat → host_matches (h ++ 46 :: t) = (length t <=? 6)%nat.
Proof.
  intros [Hn Hh] Ht H256. assert (1 <= length h)%nat by (destruct h; [done|cbn; lia]). unfold host_matches.
  rewrite (existsb_only _ _ (length h)).
  - rewrite length_app, take_app_length, drop_app_length, Z.eqb_refl, (tld_matches_alnum t Ht).
    rewrite (alnum_forallb host_unit h) by (done || intros; by apply alnum_unit).
    by rewrite (proj2 (Nat.leb_le _ _)) by lia.
  - rewrite list_elem_of_In, in_seq. lia.
  - intros k _ Hk. rewrite !andb_true_iff in Hk. destruct Hk as [_ Hk]. destruct (drop k _) as [|d rest] eqn:Ed; [done|].
    apply andb_true_iff in Hk as [Hd _]. destruct Ht as [_ Ht]. by destruct (dot_at h t k d rest Hh Ht Ed Hd).
Qed.

Lemma host_matches_nodot t : Forall (λ c, alnum c = true) t → host_matches t = false.
Proof.
  intros Ht. unfold host_matches. apply existsb_none. intros k _. destruct (drop k t) as [|d rest] eqn:Ed; [apply andb_false_r|].
  assert (Hd : d ∈ t) by (eapply subseteq_drop with (n := k); rewrite Ed; left). rewrite Forall_forall in Ht.
  apply Ht, alnum_unit in Hd as (_ & _ & _ & ->). apply andb_false_r.
Qed.

Lemma after_https s : after_scheme (js "https://" ++ s) = Some s.
Proof.
  unfold after_scheme. rewrite map_app. change (map ascii_lower_unit (js "https://")) with (js "https://").
  change (starts_with (js "http://") (js "https://" ++ map ascii_lower_unit s)) with false.
  by rewrite (proj2 (starts_with_spec _ _)) by (by eexists).
Qed.

(** A name with one dot and nothing after it passes when its last label has at most six characters. *)
Lemma urlPattern_plain h t :
  plain_name h → plain_name t → (length h <= 256)%nat → urlPattern (js "https://" ++ h ++ 46 :: t) = (length t <=? 6)%nat.
Proof.
  intros Hh Ht H256. unfold urlPattern.
  rewrite after_https.
  rewrite (host_matches_plain h t Hh Ht H256).
  destruct (starts_with (js "www.") (map ascii_lower_unit (h ++ 46 :: t))) eqn:Ew; [|done]. cbn [andb].
  apply starts_with_spec in Ew as [k Ew].
  assert (E4 : ∃ rest, drop 3 (h ++ 46 :: t) = 46 :: rest).
  { assert (E3 : drop 3 (map ascii_lower_unit (h ++ 46 :: t)) = 46 :: k) by (rewrite Ew; done).
    rewrite <- fmap_drop in E3. destruct (drop 3 (h ++ 46 :: t)) as [|c rest]; [done|]. injection E3 as Ec _. exists rest.
    f_equal. unfold ascii_lower_unit, is_upper in Ec. destruct (Z.leb_spec 65 c), (Z.leb_spec c 90); cbn in Ec; lia. }
  destruct E4 as [rest E4], Hh as [_ Hh], Ht as [Hne Ht]. destruct (dot_at h t 3 46 rest Hh Ht E4 eq_refl) as [_ ->].
  change (drop 4 (h ++ 46 :: t)) with (drop (3 + 1) (h ++ 46 :: t)). rewrite <- drop_drop, E4. cbn [drop]. rewrite host_matches_nodot by done. done.
Qed.

(** ** Trimming *)

(** No space at either end. *)
Definition trimmed (s : jsstr) : Prop :=
  (∀ c s', s = c :: s' → is_space c = false) ∧ (∀ c s', s = s' ++ [c] → is_space c = false).

Lemma trim_start_id s : (∀ c s', s = c :: s' → is_space c = false) → trim_start s = s.
Proof. destruct s as [|c s]; [done|]. intros H. cbn. by rewrite (H c s). Qed.

Lemma trim_start_head s c s' : trim_start s = c :: s' → is_space c = false.
Proof. induction s as [|d s IH]; [done|]. cbn. destruct (is_space d) eqn:E; [done|]. by intros [= -> ->]. Qed.

Lemma trim_start_suffix s : ∃ p, s = p ++ trim_start s.
Proof.
  induction s as [|c s [p IH]]; [by exists []|]. cbn. destruct (is_space c); [|by exists []]. exists (c :: p). cbn. by f_equal.
Qed.

Lemma trim_id s : trimmed s → trim s = s.
Proof.
  intros [H1 H2]. unfold trim. rewrite (trim_start_id s) by done. rewrite trim_start_id, reverse_involutive; [done|].
  intros c s' E. apply (H2 c (reverse s')). apply (f_equal reverse) in E. rewrite reverse_involutive, reverse_cons in E. done.
Qed.

Lemma trim_trimmed s : trimmed (trim s).
Proof.
  unfold trim. set (t := trim_start s). destruct (trim_start_suffix (reverse t)) as [p Hp]. set (u := trim_start (reverse t)) in *.
  assert (Ht : t = reverse u ++ reverse p) by (rewrite <- reverse_app, <- Hp; by rewrite reverse_involutive). split.
  - intros c s' E. rewrite E in Ht. by apply (trim_start_head s c (s' ++ reverse p)).
  - intros c s' E. apply (f_equal reverse) in E. rewrite reverse_involutive, reverse_app in E. cbn in E. by apply trim_start_head in E.
Qed.

Lemma trim_trim s : trim (trim s) = trim s.
Proof. apply trim_id, trim_trimmed. Qed.

(** Joining texts that show no space at the outer ends. *)
Lemma trimmed_app s t : s ≠ [] → t ≠ [] → trimmed s → trimmed t → trimmed (s ++ t).
Proof.
  intros Hs Ht [Hs1 _] [_ Ht2]. split.
  - intros c s' E. destruct s as [|d s]; [done|]. injection E as -> _. by eapply Hs1.
  - intros c s' E. destruct t as [|d t _] using rev_ind; [done|]. rewrite app_assoc in E. apply app_inj_tail in E as [_ ->]. by eapply Ht2.
Qed.

Lemma trimmed_no_space s : Forall (λ c, is_space c = false) s → trimmed s.
Proof.
  intros Hs. split; intros c s' ->; [by inversion Hs|]. apply Forall_app in Hs as [_ Hs]. by inversion Hs.
Qed.

Lemma alnum_no_space c : alnum c = true → is_space c = false.
Proof.
  intros Hc. destruct (is_space c) eqn:E; [|done]. unfold is_space in E. cbn [existsb] in E. unfold alnum, is_upper, is_lower, is_digit in Hc.
  rewrite ?orb_true_iff, ?andb_true_iff, ?Z.eqb_eq, ?Z.leb_le in *. lia.
Qed.

Lemma url_of_names h t : plain_name h → plain_name t → formatUrl (js "https://" ++ h ++ 46 :: t) = js "https://" ++ h ++ 46 :: t.
Proof.
  intros [_ Hh] [_ Ht]. unfold formatUrl. rewrite trim_id.
  - by rewrite after_https, andb_false_r.
  - apply trimmed_no_space. rewrite !Forall_app, Forall_cons. split; [by repeat constructor|]. split_and!; [|done|];
      by (eapply Forall_impl; [eassumption|]; apply alnum_no_space).
Qed.

(** ** The shape of what the form saves *)

Section shape.
Context (PAN_MAX_LENGTH : Z).

(** The actions the page dispatches: fields that take what is typed, and the handlers. *)
Inductive handler {JC : JsCase} (s : CredentialFormState) : FormAction → Prop :=
| h_credentialType v : handler s (set_credentialType v)
| h_rpId v : handler s (set_rpId v)
| h_rpName v : handler s (set_rpName v)
| h_credentialId v : handler s (set_credentialId v)
| h_authenticatorName v : handler s (set_authenticatorName v)
| h_backedUp : handler s (set_backedUp (negb (fs_backedUp s)))
| h_noteContent v : handler s (set_noteContent v)
| h_cardholderName v : handler s (set_cardholderName v)
| h_cardNumber v : handler s (set_cardNumber (pan_onChange PAN_MAX_LENGTH v).1)
| h_cardExpiry v : handler s (set_cardExpiry v)
| h_cardCvv v a : type_cardCvv s v = Some a → handler s a
| h_cardBillingAddress v : handler s (set_cardBillingAddress v)
| h_title v : handler s (set_title v)
| h_usernameType v : handler s (set_usernameType v)
| h_username v : handler s (set_username v)
| h_blur a : blur_email s = Some a → handler s a
| h_loginPhoneIso v : handler s (set_loginPhoneIso v)
| h_loginPhoneValue v iso : handler s (set_loginPhoneValue (formatPhoneNumber v iso))
| h_suggested_phone v c : country_of v = Some c → handler s (set_loginPhoneValue (without_code c v))
| h_other_phone v : handler s (set_loginPhoneValue v)
| h_url v : handler s (set_url v)
| h_password v : handler s (set_password v)
| h_accountType v a : type_accountType v = Some a → handler s a
| h_expiryEnabled : handler s (set_expiryEnabled (negb (fs_expiryEnabled s)))
| h_expiryValue n a : type_expiryValue n = Some a → handler s a
| h_expiryUnit v : handler s (set_expiryUnit v)
| h_expiryNotifyEmail : handler s (set_expiryNotifyEmail (negb (fs_expiryNotifyEmail s)))
| h_otpSecret v a : type_otpSecret v = Some a → handler s a
| h_folderId v : handler s (set_folderId v)
| h_description v : handler s (set_description v)
| h_toggleTag t a : toggleTag s t = Some a → handler s a
| h_addPhone id a : addPhoneNumber s id = Some a → handler s a
| h_phone_value id v a : updatePhone_value s id v = Some a → handler s a
| h_phone_iso id v a : updatePhone_iso s id v = Some a → handler s a
| h_removePhone id a : removePhoneNumber s id = Some a → handler s a
| h_addU2f id a : addU2fKey s id = Some a → handler s a
| h_updateU2f id v a : updateU2fKey s id v = Some a → handler s a
| h_removeU2f id a : removeU2fKey s id = Some a → handler s a
| h_addKba id a : addKbaQuestion s id = Some a → handler s a
| h_kba_question id v a : updateKba_question s id v = Some a → handler s a
| h_kba_answer id v a : updateKba_answer s id v = Some a → handler s a
| h_removeKba id a : removeKbaQuestion s id = Some a → handler s a.

(** The forms a user can reach. *)
Inductive reachable {JC : JsCase} (s0 : CredentialFormState) : CredentialFormState → Prop :=
| reach_start : reachable s0 s0
| reach_step s a : reachable s0 s → handler s a → reachable s0 (formReducer s a).

Definition digits (s : jsstr) : Prop := Forall (λ c, is_digit c = true) s.
Definition pan_ok (s : jsstr) : Prop := digits s ∧ len s <= Z.max 19 PAN_MAX_LENGTH.
Definition cvv_ok (s : jsstr) : Prop := digits s ∧ len s <= 4.

Definition form_ok (s : CredentialFormState) : Prop :=
  1 <= fs_expiryValue s <= 1000 ∧ len (fs_accountType s) <= 50 ∧ len (fs_phoneNumbers s) <= 2 ∧
  len (fs_u2fKeys s) <= 2 ∧ pan_ok (fs_cardNumber s) ∧ cvv_ok (fs_cardCvv s).

Lemma slice0_bound {A} n (l : list A) : 0 <= n → len (slice0 n l) <= n.
Proof. intros Hn. unfold len, slice0. rewrite length_take. lia. Qed.

Lemma digits_slice0 n s : digits s → digits (slice0 n s).
Proof. intros Hs. by apply Forall_take. Qed.

Lemma digits_only_digits s : digits (digits_only s).
Proof. apply Forall_forall. intros c Hc. apply list_elem_of_In, filter_In in Hc. apply Hc. Qed.

Lemma network_bounds s n : detectCardNetwork s = Some n → 0 <= maxPanLength PAN_MAX_LENGTH (Some n) <= 19 ∧ 0 <= cvvLength n <= 4.
Proof. unfold detectCardNetwork. intros E. repeat case_match; simplify_eq; by vm_compute. Qed.

Lemma len_map {A B} (f : A → B) l : len (map f l) = len l.
Proof. unfold len. by rewrite length_map. Qed.
Lemma len_filter {A} (f : A → bool) l : len (List.filter f l) <= len l.
Proof. unfold len. assert (H := filter_length_le f l). lia. Qed.

Lemma pan_onChange_len v : 0 <= PAN_MAX_LENGTH → len (pan_onChange PAN_MAX_LENGTH v).1 <= Z.max 19 PAN_MAX_LENGTH.
Proof.
  intros HP. unfold pan_onChange. cbn [fst]. destruct (detectCardNetwork (digits_only v)) as [n|] eqn:E.
  - destruct (network_bounds _ n E) as [B _]. assert (L := slice0_bound (maxPanLength PAN_MAX_LENGTH (Some n)) (digits_only v)). lia.
  - assert (L := slice0_bound PAN_MAX_LENGTH (digits_only v)). cbn [maxPanLength]. lia.
Qed.

Lemma cvv_len s n (v : jsstr) : detectCardNetwork s = Some n → len (slice0 (cvvLength n) v) <= 4.
Proof. intros [_ B]%network_bounds. assert (L := slice0_bound (cvvLength n) v). lia. Qed.

Lemma handler_ok {JC : JsCase} s a : 0 <= PAN_MAX_LENGTH → handler s a → form_ok s → form_ok (formReducer s a).
Proof.
  intros HP Hh (H1 & H2 & H3 & H4 & H5 & H6).
  destruct Hh; repeat match goal with H : _ = Some _ |- _ => unfold addPhoneNumber, addU2fKey, addKbaQuestion, updatePhone_value, updatePhone_iso,
    removePhoneNumber, updateU2fKey, removeU2fKey, updateKba_question, updateKba_answer, removeKbaQuestion, toggleTag, type_accountType,
    type_expiryValue, type_otpSecret, type_cardCvv, blur_email in H; cbv zeta in H; repeat case_match; simplify_eq end;
    (repeat split); cbn [formReducer fs_expiryValue fs_accountType fs_phoneNumbers fs_u2fKeys fs_cardNumber fs_cardCvv]; try done;
    rewrite ?len_map, ?len_app, ?len_cons, ?len_nil; try (destruct H5; done); try (destruct H6; done); try lia;
    try (by apply slice0_bound); try (by apply digits_slice0, digits_only_digits); try (etrans; [apply len_filter|done]);
    [by apply pan_onChange_len | by eapply cvv_len].
Qed.

Lemma reachable_ok {JC : JsCase} s0 s : 0 <= PAN_MAX_LENGTH → form_ok s0 → reachable s0 s → form_ok s.
Proof. intros HP H0 Hr. induction Hr as [|s a Hr IH Ha]; [done|]. by apply handler_ok. Qed.

(** *** Stored credentials *)

Definition expiry_ok (c : Credential) : Prop :=
  match c_expiryEnabled c with
  | Some true => (∃ v, c_expiryValue c = Some v ∧ 1 <= v <= 1000) ∧ is_Some (c_expiryUnit c) ∧
      is_Some (c_expiryNotifyEmail c) ∧ is_Some (c_expirySetAt c)
  | _ => c_expiryValue c = None ∧ c_expiryUnit c = None ∧ c_expiryNotifyEmail c = None ∧ c_expirySetAt c = None
  end.

Definition at_most_two (o : option str_or_list) : Prop :=
  match o with Some (ManyStr l) => len l <= 2 | Some (OneStr _) => False | None => True end.

(** A field is present exactly when its tag is. *)
Definition tags_ok (c : Credential) : Prop :=
  let has tag := has_tag tag (default [] (c_tags c)) = true in
  (is_Some (c_otpSecret c) ↔ has "OTP"%string) ∧ (is_Some (c_otpAlgorithm c) ↔ has "OTP"%string) ∧
  (is_Some (c_otpDigits c) ↔ has "OTP"%string) ∧ (is_Some (c_phoneNumber c) ↔ has "2FA"%string) ∧
  (is_Some (c_kba c) ↔ has "KBA"%string) ∧ (is_Some (c_u2fKeyName c) ↔ has "U2F"%string) ∧
  at_most_two (c_phoneNumber c) ∧ at_most_two (c_u2fKeyName c).

(** The fields of the other kinds are absent. *)
Definition kind_ok (c : Credential) : Prop :=
  let ty := c_credentialType c in
  (ty ≠ Some passkey → c_rpId c = None ∧ c_rpName c = None ∧ c_credentialId c = None ∧ c_userHandle c = None ∧
     c_authenticatorName c = None ∧ c_backedUp c = None) ∧
  (ty ≠ Some secure_note → c_noteContent c = None) ∧
  (ty ≠ Some payment_card → c_cardholderName c = None ∧ c_cardNumber c = None ∧ c_cardExpiry c = None ∧
     c_cardCvv c = None ∧ c_cardBillingAddress c = None ∧ c_cardType c = None) ∧ is_Some ty.

Definition cred_ok (c : Credential) : Prop :=
  expiry_ok c ∧ tags_ok c ∧ kind_ok c ∧ len (or_empty (c_accountType c)) <= 50 ∧
  pan_ok (or_empty (c_cardNumber c)) ∧ cvv_ok (or_empty (c_cardCvv c)).

Lemma open_form_ok folders activeTab p_ids k_ids u_ids d :
  0 <= PAN_MAX_LENGTH → (∀ c, d = Some c → cred_ok c) → form_ok (open_form folders activeTab p_ids k_ids u_ids d).
Proof.
  intros HP Hd. unfold form_ok. cbn [open_form fs_expiryValue fs_accountType fs_phoneNumbers fs_u2fKeys fs_cardNumber fs_cardCvv].
  destruct d as [c|]; [|by repeat split; cbn; rewrite ?len_cons, ?len_nil; try lia; constructor]. destruct (Hd c eq_refl) as (He & Ht & _ & Ha & Hp & Hc). cbn [mbind option_bind].
  split; [|split; [done|split; [|split; [|done]]]].
  - unfold expiry_ok in He. destruct (c_expiryEnabled c) as [[]|].
    + destruct He as [(v & -> & Hv) _]. done.
    + by destruct He as [-> _].
    + by destruct He as [-> _].
  - destruct Ht as (_ & _ & _ & _ & _ & _ & Ht & _). unfold init_phones. cbn [mbind option_bind].
    destruct (c_phoneNumber c) as [[]|]; try done. unfold len. by rewrite length_imap.
  - destruct Ht as (_ & _ & _ & _ & _ & _ & _ & Ht). unfold init_u2f. cbn [mbind option_bind].
    destruct (c_u2fKeyName c) as [[]|]; try done. unfold len. by rewrite length_imap.
Qed.

Lemma trim_len s : len (trim s) <= len s.
Proof.
  unfold trim. assert (L : ∀ t, (length (trim_start t) <= length t)%nat).
  { intros t. destruct (trim_start_suffix t) as [q Hq]. rewrite Hq at 2. rewrite length_app. lia. }
  unfold len. rewrite length_reverse. assert (L1 := L (reverse (trim_start s))). assert (L2 := L s). rewrite length_reverse in L1. lia.
Qed.

Lemma or_empty_undefined s : or_empty (or_undefined s) = s.
Proof. by destruct s. Qed.

Lemma is_Some_if {A} (b : bool) (v : A) : is_Some (if b then Some v else None) ↔ b = true.
Proof. by destruct b. Qed.

Lemma credData_ok e d s u :
  0 <= PAN_MAX_LENGTH → (∀ c, d = Some c → cred_ok c) → form_ok s → cred_ok (credData e d s u).
Proof.
  intros HP Hd (H1 & H2 & H3 & H4 & _ & _). split; [|split; [|split; [done|split; [|split]]]].
  - unfold expiry_ok. cbn. destruct (fs_expiryEnabled s); [|done]. split; [by eexists|]. split; [done|]. split; [done|].
    destruct d as [c|]; [|done]. destruct (Hd c eq_refl) as [He _]. unfold expiry_ok in He.
    destruct (c_expiryEnabled c) as [[]|]; [apply He|done..].
  - unfold tags_ok. cbn [credData c_otpSecret c_otpAlgorithm c_otpDigits c_phoneNumber c_kba c_u2fKeyName c_tags default].
    change (default [] (Some (fs_tags s))) with (fs_tags s). rewrite !is_Some_if. repeat (split; [done|]). split; [|].
    + destruct (has_tag _ _); [|done]. cbn. rewrite len_map. etrans; [apply len_filter|done].
    + destruct (has_tag _ _); [|done]. cbn. etrans; [apply len_filter|]. by rewrite len_map.
  - cbn. rewrite or_empty_undefined. etrans; [apply trim_len|done].
  - split; [constructor|]. cbn. rewrite len_nil. lia.
  - split; [constructor|]. cbn. rewrite len_nil. lia.
Qed.

Lemma non_login_ok e d s :
  0 <= PAN_MAX_LENGTH → fs_credentialType s ≠ login → form_ok s → cred_ok (non_login_credential e d s).
Proof.
  intros HP Hty (_ & _ & _ & _ & H5 & H6). split; [done|]. split; [|split; [|split; [done|]]].
  - unfold tags_ok. cbn. repeat split; try done; by intros [? [=]].
  - unfold kind_ok. cbn. split_and!; try done; intros Hne; rewrite ?bool_decide_false by congruence; done.
  - cbn. case_bool_decide; [by split|]. cbn. split; split; try constructor; cbn; rewrite len_nil; lia.
Qed.
End shape.

Module Form.

(** C37: opening a stored login in the form and saving it at once replaces its password by
    one of twenty-four random characters and drops its custom fields and times. *)
Theorem edit_loses_password (JC : JsCase) wordList folders activeTab p_ids k_ids u_ids c ws f rest a e d o now a' b :
  mounted wordList folders activeTab p_ids k_ids u_ids (Some c) ws = Some (f, rest) →
  default login (c_credentialType c) = login → truthy_id (c_id c) → c ∈ a_credentials a →
  submit_form a e (Some c) f None d o now = (a', Closed b) →
  ∃ p, generatePassword wordList gen_defaults ws = Some (Some p, rest) ∧ len p = 24 ∧
    (∃ x, x ∈ a_credentials a' ∧ c_id x = c_id c) ∧
    ∀ x, x ∈ a_credentials a' → c_id x = c_id c →
      c_password x = Some p ∧ c_customFields x = None ∧ c_createdAt x = None ∧ c_updatedAt x = None.
Proof.
  intros (p & Hg & Hl & ->)%mounted_inv Hty Hid Hin (c' & Hs & Ha)%submit_update_inv. exists p. split; [done|]. split; [done|].
  destruct (onSubmit_saves _ _ _ _ (or_intror Hs)) as [[_ Hc]|[Hn _]]; [|by destruct Hn].
  assert (Ei : c_id c' = c_id c) by (rewrite Hc; by apply id_or_truthy). rewrite Ha, Ei. split.
  - exists c'. split; [|done]. apply list_elem_of_fmap. exists c. split; [|done]. unfold same_id. by rewrite bool_decide_true.
  - intros x (y & -> & _)%list_elem_of_fmap Hx. unfold same_id in *. case_bool_decide as Hy; [|done]. by rewrite Hc.
Qed.

Definition old_login : Credential :=
  basic_credential (IdString (js "c1")) (js "Mail") (js "https://mail.com") (js "ann") (Some (js "hunter2"))
    [] [] [] (js "work") (Some []) None None (Some login).
Definition with_login : app := mkApp [] [old_login] no_assets false false true (mkWorld (mkKeys (Some 7) None None) true ∅ None ∅ (mkTravel false []) no_limit).
Definition plain_env : FormEnv := mkFormEnv (λ _ label, label) (λ _, true) (js "u1") 1000.
Definition words : list Z := seqZ 0 24.
Definition opened : CredentialFormState :=
  formReducer (open_form [] None (λ _, []) (λ _, []) (λ _, []) (Some old_login)) (set_password (js "ABCDEFGHIJKLMNOPQRSTUVWX")).

(** The password hunter2 of a login that is opened and saved unchanged is gone from the vault. *)
Lemma edit_loses_password_witness :
  ∃ x, x ∈ a_credentials (submit_form with_login plain_env (Some old_login) opened None None Online 5).1 ∧
    c_id x = IdString (js "c1") ∧ c_password x = Some (js "ABCDEFGHIJKLMNOPQRSTUVWX").
Proof.
  destruct (edit_loses_password ascii_case WORD_LIST_FALLBACK [] None (λ _, []) (λ _, []) (λ _, []) old_login words
    opened [] with_login plain_env None Online 5
    (submit_form with_login plain_env (Some old_login) opened None None Online 5).1 false) as (p & Hp & _ & (x & Hx & Hi) & Hall).
  - by vm_compute.
  - done.
  - done.
  - left.
  - by vm_compute.
  - exists x. split; [done|]. split; [done|]. rewrite (proj1 (Hall x Hx Hi)). vm_compute in Hp |- *. congruence.
Defined.

(** C34: every credential the form can save, after any sequence of its handlers from a new
    credential or a well-typed one, is well typed: expiry fields together and in range, the
    fields of each tag exactly with the tag, at most two phone numbers and keys, only the
    fields of its kind, card numbers and codes made of digits and bounded. *)
Theorem form_saves_well_typed (JC : JsCase) (PAN_MAX_LENGTH : Z) folders activeTab p_ids k_ids u_ids d e s :
  0 <= PAN_MAX_LENGTH → (∀ c, d = Some c → cred_ok PAN_MAX_LENGTH c) →
  reachable PAN_MAX_LENGTH (open_form folders activeTab p_ids k_ids u_ids d) s →
  ∀ c, onSubmit e d s = AddIt c ∨ onSubmit e d s = UpdateIt c → cred_ok PAN_MAX_LENGTH c.
Proof.
  intros HP Hd Hr c Hc. assert (Hs := reachable_ok PAN_MAX_LENGTH _ s HP (open_form_ok PAN_MAX_LENGTH _ _ _ _ _ d HP Hd) Hr).
  destruct (onSubmit_saves e d s c Hc) as [[_ ->]|[Hn ->]]; [by apply credData_ok|by apply non_login_ok].
Qed.

Definition with_title : CredentialFormState :=
  formReducer (open_form [] None (λ _, []) (λ _, []) (λ _, []) None) (set_title (js "Mail")).

Lemma form_saves_well_typed_witness :
  ∃ c, onSubmit plain_env None with_title = AddIt c ∧ cred_ok 19 c.
Proof.
  eexists. split; [by vm_compute|]. 
  eapply (form_saves_well_typed ascii_case 19 [] None (λ _, []) (λ _, []) (λ _, []) None plain_env with_title).
  - done.
  - done.
  - apply reach_step; [apply reach_start|apply h_title].
  - left. by vm_compute.
Defined.

(** The form refuses an address of a plain host name exactly when the last label has
    more than six characters. *)
Theorem long_tld_refused e d s h t :
  str_empty (trim (fs_title s)) = false → fs_credentialType s = login →
  fs_url s = js "https://" ++ h ++ js "." ++ t → plain_name h → plain_name t → len h <= 256 →
  onSubmit e d s = UrlError ↔ 6 < len t.
Proof.
  intros Htitle Hty Hu Hh Ht H256. change (js "." ++ t) with (46 :: t) in Hu. unfold onSubmit. rewrite Htitle, Hty, Hu, url_of_names by done.
  rewrite bool_decide_true by done. cbn [negb]. unfold len in *. rewrite (urlPattern_plain h t) by (done || lia).
  change (str_empty (js "https://" ++ h ++ 46 :: t)) with false. cbn [negb andb].
  destruct (Nat.leb_spec (length t) 6); cbn [negb]; [|split; [lia|done]]. split; [|lia].
  unfold give. repeat case_match; done.
Qed.

Lemma long_tld_refused_witness :
  onSubmit plain_env None (formReducer with_title (set_url (js "https://my.company"))) = UrlError.
Proof.
  apply (long_tld_refused plain_env None _ (js "my") (js "company")).
  - by vm_compute.
  - done.
  - done.
  - split; [done|]. by repeat constructor.
  - split; [done|]. by repeat constructor.
  - by vm_compute.
  - by vm_compute.
Defined.
End Form.
