(* ===== verification/FormReopen.v ===== *)
(** * Saving again what the form saved ([web/src/pages/AddCredential.tsx])

    A login saved by the form, opened again and saved with its password typed in,
    is stored as it was; the exceptions are usernames that read as phone numbers
    and dialling codes that begin with the code of another country. *)
From S2P Require Import Prelude JsRuntime JsText Base64 Types CardUtils Generator CredentialForm VaultSync FormSpec.

(** ** The address *)

Lemma formatUrl_idem u : formatUrl (formatUrl u) = formatUrl u.
Proof.
  unfold formatUrl at 2 3. destruct (str_empty (trim u)) eqn:Ee; cbn [negb andb].
  - unfold formatUrl. by rewrite trim_trim, Ee.
  - destruct (after_scheme (trim u)) as [r|] eqn:Ea.
    + unfold formatUrl. by rewrite trim_trim, Ee, Ea.
    + unfold formatUrl. rewrite trim_id, after_https, andb_false_r; [done|].
      apply trimmed_app; [done| |by apply trimmed_no_space; repeat constructor|apply trim_trimmed]. by destruct (trim u).
Qed.

(** ** Tags *)

Lemma push_tag_id (b : bool) tag tags : (b = true → has_tag tag tags = true) → push_tag b tag tags = tags.
Proof. intros Hb. unfold push_tag. destruct b; [|done]. by rewrite Hb. Qed.

Lemma init_tags_saved e d s u : init_tags (Some (credData e d s u)) = fs_tags s.
Proof.
  unfold init_tags. cbn [mbind option_bind credData c_tags c_otpSecret c_phoneNumber].
  change (default [] (Some (fs_tags s))) with (fs_tags s). rewrite (push_tag_id _ "OTP"), push_tag_id; [done| |].
  - by destruct (has_tag "2FA" (fs_tags s)).
  - by destruct (has_tag "OTP" (fs_tags s)).
Qed.

(** ** Telephone numbers *)

Definition no_space (s : jsstr) : Prop := Forall (λ c, (c =? 32) = false) s.

Lemma codes_plain : Forall (λ c, no_space (co_code c) ∧ Forall (λ u, is_space u = false) (co_code c) ∧ plus_digit (co_code c) = true) COUNTRIES.
Proof.
  apply Forall_forall. intros c Hc. assert (B : forallb (λ c, forallb (λ u, negb (u =? 32) && negb (is_space u)) (co_code c) && plus_digit (co_code c)) COUNTRIES = true) by by vm_compute.
  rewrite forallb_forall in B. specialize (B c ltac:(by apply list_elem_of_In)). apply andb_true_iff in B as [B1 B2].
  rewrite forallb_forall in B1. unfold no_space. rewrite !Forall_forall. split; [|split; [|done]]; intros u Hu;
    specialize (B1 u ltac:(by apply list_elem_of_In)); apply andb_true_iff in B1 as [B1 B3]; by apply negb_true_iff.
Qed.

(** A text without a space is a prefix up to the first space. *)
Lemma starts_with_space p s t : no_space p → starts_with p (s ++ 32 :: t) = starts_with p s.
Proof.
  revert s. induction p as [|c p IH]; intros s Hp; [done|]. inversion Hp as [|? ? Hc Hp']; subst. destruct s as [|d s]; cbn.
  - by rewrite Hc.
  - by rewrite IH.
Qed.

Lemma country_of_space code t : country_of (code ++ 32 :: t) = country_of code.
Proof.
  unfold country_of. assert (C := codes_plain). induction COUNTRIES as [|c l IH]; [done|]. inversion C as [|? ? [Hc _] Hl]; subst. cbn [List.find].
  rewrite starts_with_space by done. destruct (starts_with _ _); [done|]. by apply IH.
Qed.

(** The form finds the code of this country again in a number it saved. *)
Definition stable_iso (iso : jsstr) : bool :=
  match country_iso iso with
  | Some c => match country_of (co_code c) with Some c' => str_eqb (co_code c') (co_code c) | None => false end
  | None => false
  end.

(** The other ones: their codes begin with the code of a country that is listed before. *)
Lemma unstable_isos :
  List.filter (λ iso, negb (stable_iso iso)) (map co_iso COUNTRIES)
  = map js ["DM"; "DO"; "GD"; "GU"; "JM"; "MS"; "MP"; "PR"; "KN"; "LC"; "VC"; "TT"; "TC"; "VG"; "VI"]%string.
Proof. by vm_compute. Qed.

Lemma country_of_iso s c : country_of s = Some c → country_iso (co_iso c) = Some c.
Proof.
  intros Hc. unfold country_of in Hc. apply find_some in Hc as [Hc _].
  assert (B : forallb (λ c, bool_decide (co_code <$> country_iso (co_iso c) = Some (co_code c)) && bool_decide (co_iso <$> country_iso (co_iso c) = Some (co_iso c)) && bool_decide (co_format <$> country_iso (co_iso c) = Some (co_format c))) COUNTRIES = true) by by vm_compute.
  rewrite forallb_forall in B. specialize (B c Hc). rewrite !andb_true_iff, !bool_decide_eq_true in B.
  destruct (country_iso (co_iso c)) as [c'|], B as [[B1 B2] B3]; [|done]. destruct c, c'; cbn in *. congruence.
Qed.

Lemma phone_text_code iso v c : country_iso iso = Some c → phone_text iso v = co_code c ++ 32 :: v.
Proof.
  intros Hc. unfold phone_text. rewrite Hc. unfold country_iso in Hc. apply find_some in Hc as [Hc _].
  assert (C := codes_plain). rewrite Forall_forall in C. destruct (C c ltac:(by apply list_elem_of_In)) as (_ & _ & Hp). by destruct (co_code c).
Qed.

Lemma trim_space v : trim (32 :: v) = trim v.
Proof. done. Qed.

Lemma stable_inv iso : stable_iso iso = true →
  ∃ c c', country_iso iso = Some c ∧ country_of (co_code c) = Some c' ∧ co_code c' = co_code c ∧ country_iso (co_iso c') = Some c'
    ∧ Forall (λ u, is_space u = false) (co_code c) ∧ plus_digit (co_code c) = true.
Proof.
  unfold stable_iso. destruct (country_iso iso) as [c|] eqn:Ec; [|done]. destruct (country_of (co_code c)) as [c'|] eqn:Eo; [|done].
  intros E%str_eqb_eq. exists c, c'. assert (Hi := country_of_iso _ _ Eo). unfold country_iso in Ec. apply find_some in Ec as [Ec _].
  assert (C := codes_plain). rewrite Forall_forall in C. destruct (C c ltac:(by apply list_elem_of_In)) as (_ & Hs & Hp). done.
Qed.

(** A saved number, opened and saved again. *)
Lemma phone_again id iso v :
  stable_iso iso = true → trimmed v →
  phone_text (ph_iso (phone_item id (phone_text iso v))) (ph_value (phone_item id (phone_text iso v))) = phone_text iso v.
Proof.
  intros (c & c' & Ec & Eo & Ecode & Ei & _)%stable_inv Hv. rewrite (phone_text_code iso v c Ec). unfold phone_item.
  rewrite country_of_space, Eo. cbn [ph_iso ph_value]. rewrite (phone_text_code _ _ c' Ei), Ecode. unfold without_code.
  rewrite Ecode, drop_app_length, trim_space, trim_id by done. done.
Qed.

Lemma phone_item_value id iso v : stable_iso iso = true → trimmed v → ph_value (phone_item id (phone_text iso v)) = v.
Proof.
  intros (c & c' & Ec & Eo & Ecode & Ei & _)%stable_inv Hv. rewrite (phone_text_code iso v c Ec). unfold phone_item.
  rewrite country_of_space, Eo. cbn [ph_value]. unfold without_code. rewrite Ecode, drop_app_length, trim_space. by apply trim_id.
Qed.

(** The username of a phone login. *)
Lemma isos_named : Forall (λ c, co_iso c ≠ []) COUNTRIES.
Proof.
  apply Forall_forall. intros c Hc. assert (B : forallb (λ c, negb (str_empty (co_iso c))) COUNTRIES = true) by by vm_compute.
  rewrite forallb_forall in B. specialize (B c ltac:(by apply list_elem_of_In)). by destruct (co_iso c).
Qed.

Lemma trim_code_value code v :
  Forall (λ u, is_space u = false) code → code ≠ [] → trimmed v →
  trim (code ++ 32 :: v) = match v with [] => code | _ => code ++ 32 :: v end.
Proof.
  intros Hs Hn Hv. destruct v as [|d v].
  - destruct code as [|u code]; [done|]. unfold trim. rewrite (trim_start_id ((u :: code) ++ [32])), reverse_app.
    + change (trim_start (reverse [32] ++ reverse (u :: code))) with (trim_start (reverse (u :: code))).
      rewrite trim_start_id, reverse_involutive; [done|]. intros x t Hx.
      assert (x ∈ u :: code) by (rewrite <- elem_of_reverse, Hx; left). rewrite Forall_forall in Hs. by apply Hs.
    + intros x t [= -> _]. by inversion Hs.
  - apply trim_id. split.
    + intros x t. destruct code as [|u code]; [done|]. intros [= -> _]. by inversion Hs.
    + intros x t E. destruct (exists_last (l := d :: v) ltac:(done)) as (v' & y & Ev). rewrite Ev in E, Hv.
      change (32 :: v' ++ [y]) with ((32 :: v') ++ [y]) in E. rewrite app_assoc in E. apply app_inj_tail in E as [_ <-]. by eapply (proj2 Hv).
Qed.

Lemma phone_username iso v u :
  stable_iso iso = true → trimmed v → u = trim (phone_text iso v) →
  init_usernameType u = Phone ∧ u ≠ [] ∧ trim (phone_text (init_loginPhoneIso u) (init_loginPhoneValue u)) = u.
Proof.
  intros (c & c' & Ec & Eo & Ecode & Ei & Hs & Hp)%stable_inv Hv Hu. rewrite (phone_text_code iso v c Ec) in Hu.
  assert (Hn : co_code c ≠ []) by (by destruct (co_code c)).
  rewrite trim_code_value in Hu by done. assert (Ht : trim u = u).
  { rewrite Hu. destruct v as [|d v]; [by apply trim_id, trimmed_no_space|]. rewrite <- (trim_code_value (co_code c) (d :: v)) by done. apply trim_trim. }
  assert (Hplus : plus_digit u = true) by (rewrite Hu; destruct (co_code c) as [|x [|y l]], v; done).
  assert (Hno : no_username u = false).
  { unfold no_username. destruct u as [|x u']; [done|]. cbn [str_empty orb]. destruct (str_eqb _ _) eqn:E; [|done].
    apply str_eqb_eq in E. rewrite E in Hplus. done. }
  assert (Hco : country_of u = Some c').
  { rewrite Hu. destruct v; [done|]. by rewrite country_of_space. }
  split; [|split].
  - unfold init_usernameType. by rewrite Hno, Ht, Hplus.
  - intros ->. done.
  - unfold init_loginPhoneIso, init_loginPhoneValue. rewrite Hno, Hco.
    assert (N := isos_named). rewrite Forall_forall in N. assert (co_iso c' ≠ []).
    { apply N. unfold country_of in Hco. apply find_some in Hco as [Hco _]. by apply list_elem_of_In. }
    assert (str_or (co_iso c') (js "US") = co_iso c') as -> by (by destruct (co_iso c')).
    rewrite (phone_text_code _ _ c' Ei), Ecode. unfold without_code. rewrite Ecode.
    assert (Hval : trim (drop (length (co_code c)) u) = v).
    { rewrite Hu. destruct v as [|d v]; [by rewrite drop_all|]. rewrite drop_app_length, trim_space. by apply trim_id. }
    rewrite Hval, trim_code_value by done. done.
Qed.

Lemma plain_username u w :
  plus_digit (trim w) = false → u = str_or (trim w) NO_USERNAME →
  init_usernameType u ≠ Phone ∧ str_or (trim (init_username u)) NO_USERNAME = u.
Proof.
  intros Hp Hu. unfold init_usernameType, init_username. destruct (no_username u) eqn:En.
  - split; [done|]. rewrite Hu in En |- *. cbn. unfold no_username in En. destruct (trim w); [done|]. cbn in *. symmetry. by apply str_eqb_eq.
  - assert (Eu : u = trim w).
    { rewrite Hu. destruct (trim w); [|done]. by rewrite Hu in En. }
    rewrite Eu, trim_trim, Hp. split; [by case_match|]. rewrite trim_trim, <- Hu. done.
Qed.

(** ** The whole form *)

Definition reopen_ok (s : CredentialFormState) : Prop :=
  fs_folderId s ≠ [] ∧ fs_kba s ≠ [] ∧
  match fs_usernameType s with
  | Phone => stable_iso (fs_loginPhoneIso s) = true ∧ trimmed (fs_loginPhoneValue s)
  | _ => plus_digit (trim (fs_username s)) = false
  end ∧
  Forall (λ p, stable_iso (ph_iso p) = true ∧ trimmed (ph_value p)) (fs_phoneNumbers s).

(** The form of a saved credential, its password typed again. *)
Definition reopened folders activeTab p_ids k_ids u_ids c p : CredentialFormState :=
  formReducer (open_form folders activeTab p_ids k_ids u_ids (Some c)) (set_password p).

Lemma imap_map {A B C} (f : nat → A → B) (g : B → C) (h : A → C) l n :
  (∀ i x, x ∈ l → g (f i x) = h x) → map g (imap (λ i, f (n + i)%nat) l) = map h l.
Proof.
  revert n. induction l as [|x l IH]; intros n Hg; [done|]. cbn. f_equal; [apply Hg; left|].
  rewrite <- (IH (S n)); [|intros; apply Hg; by right]. f_equal. apply imap_ext. intros i y _. cbn. by rewrite Nat.add_succ_r.
Qed.

Section again.
Context (e : FormEnv) (d : option Credential) (s : CredentialFormState) (u : jsstr).
Context (folders : list Folder) (activeTab : option jsstr) (p_ids k_ids u_ids : nat → jsstr).
Hypothesis R : reopen_ok s.
Let c := credData e d s u.
Let f2 := reopened folders activeTab p_ids k_ids u_ids c (fs_password s).

Lemma again_username : stored_username f2 = c_username c.
Proof using R.
  destruct R as (_ & _ & Hu & _). unfold stored_username, f2, c. cbn [reopened formReducer open_form fs_usernameType fs_loginPhoneIso fs_loginPhoneValue fs_username mbind option_bind].
  cbn [credData c_username fmap option_fmap option_map or_empty]. set (w := stored_username s). unfold stored_username in w.
  destruct (fs_usernameType s).
  1,2: destruct (plain_username w (fs_username s) Hu eq_refl) as [Hn Hs]; by destruct (init_usernameType w).
  destruct Hu as [Hu1 Hu2]. set (t := trim (phone_text (fs_loginPhoneIso s) (fs_loginPhoneValue s))) in *.
  destruct (phone_username (fs_loginPhoneIso s) (fs_loginPhoneValue s) t Hu1 Hu2 eq_refl) as (Hp & Hn & Hs).
  assert (w = t) as -> by (subst w; by destruct t). rewrite Hp, Hs. by destruct t.
Qed.

Lemma filter_all {A} (f : A → bool) l : (∀ x, x ∈ l → f x = true) → List.filter f l = l.
Proof. induction l as [|x l IH]; [done|]. intros Hf. cbn. rewrite Hf by left. f_equal. apply IH. intros; apply Hf; by right. Qed.

Definition shown (p : PhoneItem) : bool := len (trim (ph_value p)) >? 0.
Definition text (p : PhoneItem) : jsstr := phone_text (ph_iso p) (ph_value p).

Lemma again_phones :
  map text (List.filter shown (imap (λ i p, phone_item (p_ids i) p) (map text (List.filter shown (fs_phoneNumbers s)))))
  = map text (List.filter shown (fs_phoneNumbers s)).
Proof using R.
  destruct R as (_ & _ & _ & Hp). rewrite Forall_forall in Hp.
  assert (Hall : ∀ t, t ∈ map text (List.filter shown (fs_phoneNumbers s)) → ∀ id, shown (phone_item id t) = true ∧ text (phone_item id t) = t).
  { intros t (p & -> & Hin)%list_elem_of_fmap id. apply list_elem_of_In, filter_In in Hin as [Hin Hs].
    destruct (Hp p ltac:(by apply list_elem_of_In)) as [H1 H2]. unfold shown, text in *. split; [by rewrite phone_item_value|by apply phone_again]. }
  rewrite filter_all.
  - rewrite (imap_map (λ i t, phone_item (p_ids i) t) text (λ t, t) _ 0); [apply map_id|]. intros i t Ht. by apply Hall.
  - intros x (i & t & -> & Ht)%elem_of_lookup_imap_1. apply Hall. by eapply list_elem_of_lookup_2.
Qed.

Lemma again_kba : map (λ k, mkKba (ki_question k) (ki_answer k)) (init_kba k_ids (Some c)) = map (λ k, mkKba (ki_question k) (ki_answer k)) (fs_kba s)
  ∨ has_tag "KBA" (fs_tags s) = false.
Proof using R.
  destruct R as (_ & Hk & _). destruct (has_tag "KBA" (fs_tags s)) eqn:Et; [left|by right].
  unfold init_kba, c. cbn [mbind option_bind credData c_kba]. rewrite Et. destruct (fs_kba s) as [|k l]; [done|]. cbn [map].
  rewrite (imap_map (λ i k, mkKbaItem (k_ids i) (kba_question k) (kba_answer k)) _ (λ k, k) (_ :: _) 0); [apply map_id|].
  by intros i [].
Qed.

Lemma again_u2f :
  List.filter (λ u, negb (str_empty u)) (map uk_value (imap (λ i u, mkU2f (u_ids i) u) (List.filter (λ u, negb (str_empty u)) (map uk_value (fs_u2fKeys s)))))
  = List.filter (λ u, negb (str_empty u)) (map uk_value (fs_u2fKeys s)).
Proof.
  rewrite (imap_map (λ i u, mkU2f (u_ids i) u) uk_value (λ u, u) _ 0) by done. rewrite map_id. apply filter_all.
  intros x Hx. apply list_elem_of_In, filter_In in Hx. apply Hx.
Qed.
Lemma again_accountless (o : option jsstr) : or_undefined (trim (or_empty (or_undefined (trim (or_empty o))))) = or_undefined (trim (or_empty o)).
Proof. by rewrite or_empty_undefined, trim_trim. Qed.

Lemma credData_again e2 :
  env_t e2 = env_t e → truthy_id (c_id c) → u = formatUrl u → credData e2 (Some c) f2 (formatUrl (fs_url f2)) = c.
Proof using R.
  intros Et Hid Hu. assert (Hun := again_username). assert (Hk := again_kba). destruct R as (Hf & _ & _ & _).
  assert (Htags : fs_tags f2 = fs_tags s) by apply init_tags_saved.
  assert (Hfold : fs_folderId f2 = fs_folderId s) by (unfold f2, c; cbn; unfold initial_folder; cbn; by destruct (fs_folderId s)).
  unfold credData at 1. rewrite id_or_truthy, Hun, Et, !Htags, Hfold by done.
  transitivity (credData e d s u); [|done]. unfold credData at 1. f_equal.
  - symmetry. exact Hu.
  - destruct (has_tag "2FA" (fs_tags s)) eqn:E2; [|done]. apply (f_equal (λ l, Some (ManyStr l))). etrans; [|exact again_phones]. unfold f2, c.
    cbn [reopened formReducer open_form fs_phoneNumbers]. unfold init_phones. cbn [mbind option_bind credData c_phoneNumber]. by rewrite E2.
  - destruct Hk as [Hk| ->]; [|done]. destruct (has_tag "KBA" (fs_tags s)); [|done]. f_equal. exact Hk.
  - destruct (has_tag "U2F" (fs_tags s)) eqn:E2; [|done]. apply (f_equal (λ l, Some (ManyStr l))). etrans; [|exact again_u2f]. unfold f2, c.
    cbn [reopened formReducer open_form fs_u2fKeys]. unfold init_u2f. cbn [mbind option_bind credData c_u2fKeyName]. by rewrite E2.
  - destruct (has_tag "OTP" (fs_tags s)) eqn:E2; [|done]. unfold f2, c. cbn. by rewrite E2.
  - destruct (has_tag "OTP" (fs_tags s)) eqn:E2; [|done]. unfold c. cbn [mbind option_bind credData c_otpAlgorithm]. by rewrite E2.
  - destruct (has_tag "OTP" (fs_tags s)) eqn:E2; [|done]. unfold c. cbn [mbind option_bind credData c_otpDigits]. rewrite E2.
    destruct (d ≫= c_otpDigits) as [n|]; [|done]. destruct (n =? 0) eqn:En; [done|]. by rewrite En.
  - unfold f2, c. cbn [reopened formReducer open_form fs_accountType mbind option_bind credData c_accountType]. by rewrite or_empty_undefined, trim_trim.
  - unfold f2, c. cbn. by destruct (fs_expiryEnabled s).
  - unfold f2, c. cbn. by destruct (fs_expiryEnabled s).
  - unfold f2, c. cbn. by destruct (fs_expiryEnabled s).
  - unfold f2, c. cbn. by destruct (fs_expiryEnabled s).
  - unfold f2, c. cbn [reopened formReducer open_form fs_description mbind option_bind credData c_description]. by rewrite or_empty_undefined, trim_trim.
Qed.
End again.

(** The checks a login passes. *)
Definition checks (e : FormEnv) (s : CredentialFormState) : Prop :=
  str_empty (trim (fs_title s)) = false ∧
  negb (str_empty (formatUrl (fs_url s))) && negb (urlPattern (formatUrl (fs_url s))) = false ∧
  has_tag "OTP" (fs_tags s) && negb (str_empty (fs_otpSecret s)) && negb (env_totp e (fs_otpSecret s)) = false.

Lemma onSubmit_checks e d s c : fs_credentialType s = login →
  onSubmit e d s = AddIt c ∨ onSubmit e d s = UpdateIt c → checks e s.
Proof.
  intros Hty. unfold onSubmit, checks. rewrite Hty, bool_decide_true by done. cbn [negb].
  destruct (str_empty _); [by intros []|]. destruct (_ && negb (urlPattern _)); [by intros []|].
  destruct (_ && _ && _); [by intros []|]. done.
Qed.

Lemma checks_onSubmit e d s : fs_credentialType s = login → checks e s → onSubmit e d s = give d (credData e d s (formatUrl (fs_url s))).
Proof. intros Hty (H1 & H2 & H3). unfold onSubmit. by rewrite H1, Hty, bool_decide_true, H2, H3 by done. Qed.

Module Reopen.

(** C36: a login saved by the form, opened again with the password it had and submitted
    without another change, is saved as the same credential, for forms that satisfy
    [reopen_ok]: a folder is chosen and the list of questions has a row; every dialling
    code belongs to the first country whose code is a prefix of the number (fifteen
    countries do not, [unstable_isos]: they reopen as another one and the number is saved
    with a different text); the numbers have no space at either end; and a user name that
    is not a phone number does not start like one, with a plus sign and a digit. *)
Theorem saved_login_reopens e e2 d s c folders activeTab p_ids k_ids u_ids :
  onSubmit e d s = AddIt c ∨ onSubmit e d s = UpdateIt c → fs_credentialType s = login → truthy_id (c_id c) → reopen_ok s →
  env_t e2 = env_t e → env_totp e2 = env_totp e →
  onSubmit e2 (Some c) (reopened folders activeTab p_ids k_ids u_ids c (fs_password s)) = UpdateIt c.
Proof.
  intros Hs Hty Hid HR Et Eo. destruct (onSubmit_checks e d s c Hty Hs) as (H1 & H2 & H3).
  destruct (onSubmit_saves e d s c Hs) as [[_ ->]|[Hn _]]; [|done].
  set (u := formatUrl (fs_url s)) in *. assert (Hu : u = formatUrl u) by (symmetry; apply formatUrl_idem).
  assert (A := credData_again e d s u folders activeTab p_ids k_ids u_ids HR e2 Et Hid Hu).
  set (f2 := reopened _ _ _ _ _ _ _) in *. rewrite checks_onSubmit, A; [done|done|]. split; [exact H1|]. split.
  - change (fs_url f2) with u. by rewrite <- Hu.
  - change (fs_tags f2) with (init_tags (Some (credData e d s u))). rewrite init_tags_saved, Eo.
    destruct (has_tag "OTP" (fs_tags s)) eqn:E2; [|done]. assert (fs_otpSecret f2 = fs_otpSecret s) as -> by (unfold f2; cbn; by rewrite E2).
    exact H3.
Qed.

Definition mail_form : CredentialFormState :=
  mkFormState login [] [] [] [] [] false [] [] [] [] [] [] (js "Mail") [] (js "mail.com") (js "hunter2") (js "JBSWY3DP") SHA1 6
    (js " my mail ") [] Phone (js "DE") (js "151-2345") true 90 days false (js "work") [js "OTP"; js "2FA"; js "KBA"]
    [mkPhone (js "p1") (js "US") (js "(555) 123-4567")] [mkKbaItem (js "k1") (js "Pet") (js "Rex")] [mkU2f (js "u1") []].
Definition env (now : Z) : FormEnv := mkFormEnv (λ _ label, label) (λ _, true) (js "c1") now.
Definition mail : Credential := credData (env 1000) None mail_form (js "https://mail.com").

Lemma saved_login_reopens_witness :
  onSubmit (env 1000) None mail_form = AddIt mail ∧ c_username mail = js "+49 151-2345" ∧
  onSubmit (env 9999) (Some mail) (reopened [] None (λ _, []) (λ _, []) (λ _, []) mail (js "hunter2")) = UpdateIt mail.
Proof.
  split; [by vm_compute|]. split; [by vm_compute|].
  apply (saved_login_reopens (env 1000) (env 9999) None mail_form mail [] None (λ _, []) (λ _, []) (λ _, [])).
  - left. by vm_compute.
  - done.
  - done.
  - split; [done|]. split; [done|]. split; [split; [by vm_compute|]|].
    + apply trimmed_no_space. by repeat constructor.
    + apply Forall_singleton. split; [by vm_compute|]. split; [by intros x t [= <- _]|]. intros x t E. apply (f_equal last) in E. rewrite last_snoc in E. by injection E as <-.
  - done.
  - done.
Defined.
End Reopen.
