(* ===== verification/VaultPage.v ===== *)
(** * The vault page ([web/src/pages/Vault.tsx])

    Expiry of passwords and its notices, the search and its order, the scores, and
    the dialogs that change credentials.  The time zone, the case mapping, the
    translations and the check of a one-time password secret are arguments. *)
From S2P Require Import Prelude JsRuntime JsText Base64 Types JsDate CardUtils CredentialForm VaultSync FormSpec FormReopen.

(** ** Expiry *)

Section expiry.
Context `{JsZone}.

(** [computeExpiryDate]; [None] is NaN. *)
Definition computeExpiryDate (value : Z) (unit : ExpiryUnit) (from : Z) : option Z :=
  match TimeClip from with
  | None => None
  | Some d =>
      match unit with
      | days => setDate d (getDate d + value)
      | months => setMonth d (getMonth d + value)
      | years => setFullYear d (getFullYear d + value)
      end
  end.

(** The four fields when none of them is missing, zero or false. *)
Definition expiry_fields (c : Credential) : option (Z * ExpiryUnit * Z) :=
  match c_expiryEnabled c, c_expirySetAt c, c_expiryValue c, c_expiryUnit c with
  | Some true, Some at_, Some v, Some u => if (at_ =? 0) || (v =? 0) then None else Some (v, u, at_)
  | _, _, _, _ => None
  end.

Definition isExpired (now : Z) (c : Credential) : bool :=
  match expiry_fields c with
  | None => false
  | Some (v, u, from) => match computeExpiryDate v u from with Some t => now >? t | None => false end
  end.

(** [Math.ceil((expiryMs - Date.now()) / 86_400_000)] *)
Definition daysLeft (now : Z) (c : Credential) : option Z :=
  '(v, u, from) ← expiry_fields c; t ← computeExpiryDate v u from; Some (- ((now - t) / msPerDay)).

(** The credentials an e-mail is sent for. *)
Definition expired_notified (now : Z) (l : list Credential) : list Credential :=
  List.filter (λ c, default false (c_expiryEnabled c) && default false (c_expiryNotifyEmail c) && isExpired now c) l.

(** *** Notices *)

(** The message: expired, or the days left ([None] is NaN). *)
Inductive NoticeText := ExpiredText | InDays (n : option Z).

(** The fields of a notification this page sets and reads. *)
Record Notice := mkNotice {
  no_expiring : bool;                 (* [type === 'credential_expiring'] *)
  no_credentialId : option cred_id;   (* [data?.credentialId] *)
  no_folderId : jsstr;
  no_location : jsstr; no_text : NoticeText;
  no_read : bool }.

Definition EXPIRY_WARN_DAYS : Z := 30.

(** The days left, when a notice is due: [!(daysLeft > EXPIRY_WARN_DAYS)]; a date
    out of range gives NaN, which counts as due and not as expired. *)
Definition due (now : Z) (c : Credential) : option (option Z) :=
  match expiry_fields c with
  | None => None
  | Some _ =>
      match daysLeft now c with
      | Some n => if n >? EXPIRY_WARN_DAYS then None else Some (Some n)
      | None => Some None
      end
  end.

Definition notified (notifications : list Notice) (c : Credential) : bool :=
  existsb (λ n, no_expiring n && bool_decide (no_credentialId n = Some (c_id c)) && negb (no_read n)) notifications.

Definition location (folders : list Folder) (c : Credential) : jsstr :=
  match List.find (λ f, str_eqb (f_id f) (c_folderId c)) folders with
  | Some f => f_label f ++ js " / " ++ c_service c
  | None => c_service c
  end.

Definition notice_for (folders : list Folder) (c : Credential) (n : option Z) : Notice :=
  mkNotice true (Some (c_id c)) (c_folderId c) (location folders c)
    (match n with Some k => if k <=? 0 then ExpiredText else InDays n | None => InDays None end) false.

(** The effect on [credentials] and [folders]: the notices it adds, the last on top.
    Every credential is compared with the list as it was when the effect started. *)
Definition expiry_notices (now : Z) (folders : list Folder) (notifications : list Notice) (l : list Credential) : list Notice :=
  fold_left (λ acc c,
    match due now c with
    | Some n => if notified notifications c then acc else notice_for folders c n :: acc
    | None => acc
    end) l notifications.
End expiry.

(** ** Search *)

Section search.
Context {JC : JsCase}.

(** [url.replace(/^https?:\/\//i, '').toLowerCase()] *)
Definition cleanUrl (url : jsstr) : jsstr := toLowerCase (default url (after_scheme url)).

Definition serviceMatch (search : jsstr) (c : Credential) : bool := includes search (toLowerCase (c_service c)).
Definition urlMatch (search : jsstr) (c : Credential) : bool := includes search (cleanUrl (c_url c)).
Definition userMatch (search : jsstr) (c : Credential) : bool := includes search (toLowerCase (c_username c)).
Definition tagMatch (search : jsstr) (c : Credential) : bool :=
  existsb (λ t, includes search (toLowerCase t)) (default [] (c_tags c)).

(** The comparison of two rows. *)
Definition prefer (a b : bool) (rest : Z) : Z := if a && negb b then -1 else if negb a && b then 1 else rest.
Definition compare_rows (search : jsstr) (a b : Credential) : Z :=
  if str_empty search then 0
  else prefer (serviceMatch search a) (serviceMatch search b)
        (prefer (urlMatch search a) (urlMatch search b)
          (prefer (userMatch search a) (userMatch search b) 0)).

(** [Array.prototype.sort] is stable: an element goes behind those it is not less than. *)
Fixpoint insert_row {A} (cmp : A → A → Z) (x : A) (l : list A) : list A :=
  match l with
  | [] => [x]
  | y :: l' => if cmp x y <? 0 then x :: l else y :: insert_row cmp x l'
  end.
Definition sort_rows {A} (cmp : A → A → Z) (l : list A) : list A := fold_left (λ acc x, insert_row cmp x acc) l [].

Definition folderCredentials (activeTab : jsstr) (l : list Credential) : list Credential :=
  if str_eqb activeTab (js "vault") then l else List.filter (λ c, str_eqb (c_folderId c) activeTab) l.

Definition displayedCredentials (activeTab searchTerm : jsstr) (l : list Credential) : list Credential :=
  let search := toLowerCase searchTerm in
  sort_rows (compare_rows search)
    (List.filter (λ c, serviceMatch search c || urlMatch search c || userMatch search c || tagMatch search c)
      (folderCredentials activeTab l)).

(** The button that deletes is enabled. *)
Definition delete_enabled (deleteInput : jsstr) : bool := str_eqb (toLowerCase deleteInput) (js "delete").
End search.

(** ** Scores *)

Definition getScore (status : jsstr) : Z :=
  if str_eqb status (js "Excellent") then 100 else if str_eqb status (js "Very Strong") then 90
  else if str_eqb status (js "Strong") then 80 else if str_eqb status (js "Medium") then 60
  else if str_eqb status (js "Weak") then 40 else if str_eqb status (js "Very Weak") then 20 else 0.

(** [Math.round(n / d)] of integers, [d] positive. *)
Definition round_div (n d : Z) : Z := (2 * n + d) / (2 * d).

Definition sum_scores (l : list Credential) : Z := fold_left (λ acc c, acc + getScore (c_status c)) l 0.
Definition securityHealthScore (l : list Credential) : Z :=
  if 0 <? len l then round_div (sum_scores l) (len l) else 0.

Definition is_weak_label (s : jsstr) : bool := existsb (str_eqb s) [js "Weak"; js "Very Weak"; js "Medium"].
Definition weakCount (l : list Credential) : Z := len (List.filter (λ c, is_weak_label (c_status c)) l).

(** [SecurityBadge]: the colour of its dot. *)
Definition isGood (status : jsstr) : bool := existsb (str_eqb status) [js "Strong"; js "Very Strong"; js "Excellent"].
Definition dotColor (status statusColor : jsstr) : jsstr :=
  match split_unit 32 statusColor with
  | _ :: _ :: _ :: d :: _ => d
  | _ => if isGood status then js "bg-green-500" else js "bg-orange-500"
  end.

(** [formatUsername] *)
Definition formatUsername (username : jsstr) : option jsstr :=
  if no_username username then None else Some (take 2 username ++ replicate 8 8226).

(** ** Dialogs *)

(** [{ ...c, otpSecret }] and [{ otpSecret, ...rest }] *)
Definition set_otpSecret_of (c : Credential) (secret : option jsstr) : Credential :=
  mkCredential (c_id c) (c_service c) (c_url c) (c_username c) (c_password c) (c_status c) (c_statusColor c) (c_logo c)
    (c_folderId c) (c_tags c) (c_phoneNumber c) (c_kba c) (c_u2fKeyName c) secret (c_otpAlgorithm c) (c_otpDigits c)
    (c_accountType c) (c_expiryEnabled c) (c_expiryValue c) (c_expiryUnit c) (c_expiryNotifyEmail c) (c_expirySetAt c)
    (c_description c) (c_credentialType c) (c_rpId c) (c_rpName c) (c_credentialId c) (c_userHandle c)
    (c_authenticatorName c) (c_backedUp c) (c_noteContent c) (c_cardholderName c) (c_cardNumber c) (c_cardExpiry c)
    (c_cardCvv c) (c_cardBillingAddress c) (c_cardType c) (c_createdAt c) (c_updatedAt c) (c_customFields c) (c_phone c)
    (c_phoneCountry c).

(** Saving a secret: [None] is the error under the field.  The update is not awaited,
    its failure is not shown. *)
Definition save_otp (totp_ok : jsstr → bool) (a : app) (item : Credential) (input : jsstr) (d : option unit) (o : net) (now : Z)
    : option app :=
  if totp_ok input then Some (updateCredential a (set_otpSecret_of item (Some input)) d o now).1 else None.

Definition remove_otp (a : app) (item : Credential) (d : option unit) (o : net) (now : Z) : app :=
  (updateCredential a (set_otpSecret_of item None) d o now).1.

Definition confirm_delete `{JsCase} (a : app) (item : Credential) (deleteInput : jsstr) (d : option unit) (o : net) (now : Z) : app :=
  if delete_enabled deleteInput then (deleteCredential a (c_id item) d o now).1 else a.

(** * What the vault page shows ([web/src/pages/Vault.tsx])

    The order of the search results, the notices of expiring passwords, and what
    becomes of a rotated password and of a label in another language. *)
From Stdlib Require Import Sorted.

(** ** Stable sorting by a rank *)

Section ranked.
Context {A : Type} (cmp : A → A → Z) (rank : A → Z).
Hypothesis cmp_rank : ∀ x y, (cmp x y <? 0) = (rank x <? rank y).

Definition bucket (r : Z) (l : list A) : list A := List.filter (λ x, rank x =? r) l.
Definition buckets (rs : list Z) (l : list A) : list A := concat (map (λ r, bucket r l) rs).

Lemma bucket_snoc r l x : bucket r (l ++ [x]) = bucket r l ++ (if rank x =? r then [x] else []).
Proof. unfold bucket. rewrite List.filter_app. cbn. by destruct (rank x =? r). Qed.

Lemma bucket_rank r l x : x ∈ bucket r l → rank x = r.
Proof. intros Hx. apply list_elem_of_In, filter_In in Hx as [_ Hx]. by apply Z.eqb_eq. Qed.

Lemma insert_behind x l k : (∀ y, y ∈ l → rank y <= rank x) → insert_row cmp x (l ++ k) = l ++ insert_row cmp x k.
Proof.
  induction l as [|y l IH]; intros Hl; [done|]. cbn. rewrite cmp_rank. assert (rank y <= rank x) by (apply Hl; left).
  destruct (Z.ltb_spec (rank x) (rank y)); [lia|]. rewrite IH; [done|]. intros; apply Hl; by right.
Qed.

Lemma insert_first x k : (∀ y, y ∈ k → rank x < rank y) → insert_row cmp x k = x :: k.
Proof.
  destruct k as [|y k]; [done|]. intros Hk. cbn. rewrite cmp_rank. assert (rank x < rank y) by (apply Hk; left).
  by destruct (Z.ltb_spec (rank x) (rank y)); [|lia].
Qed.

Lemma buckets_snoc_other rs l x : Forall (λ r, rank x < r) rs → buckets rs (l ++ [x]) = buckets rs l.
Proof.
  unfold buckets. induction 1 as [|r rs Hr Hrs IH]; [done|]. cbn. rewrite IH, bucket_snoc.
  destruct (Z.eqb_spec (rank x) r); [lia|]. by rewrite app_nil_r.
Qed.

Lemma insert_buckets rs l x :
  StronglySorted Z.lt rs → rank x ∈ rs → insert_row cmp x (buckets rs l) = buckets rs (l ++ [x]).
Proof.
  induction 1 as [|r rs Hs IH Hr]; intros Hx; [by apply not_elem_of_nil in Hx|].
  change (buckets (r :: rs) l) with (bucket r l ++ buckets rs l). change (buckets (r :: rs) (l ++ [x])) with (bucket r (l ++ [x]) ++ buckets rs (l ++ [x])).
  rewrite bucket_snoc. apply elem_of_cons in Hx as [Hx|Hx].
  - rewrite insert_behind by (intros y Hy%bucket_rank; lia). rewrite Hx, Z.eqb_refl, <- app_assoc. f_equal.
    rewrite buckets_snoc_other by (by rewrite Hx). apply insert_first. intros y Hy. unfold buckets in Hy.
    apply list_elem_of_In, in_concat in Hy as (b & Hb & Hy). apply in_map_iff in Hb as (q & <- & Hq).
    apply list_elem_of_In, bucket_rank in Hy. rewrite Forall_forall in Hr. specialize (Hr q ltac:(by apply list_elem_of_In)). lia.
  - rewrite Forall_forall in Hr. assert (Hlt := Hr _ Hx). rewrite insert_behind by (intros y Hy%bucket_rank; lia).
    destruct (Z.eqb_spec (rank x) r); [lia|]. rewrite app_nil_r. f_equal. by apply IH.
Qed.

Lemma sort_buckets rs l :
  StronglySorted Z.lt rs → (∀ x, x ∈ l → rank x ∈ rs) → sort_rows cmp l = buckets rs l.
Proof.
  intros Hs. induction l as [|x l IH] using rev_ind; intros Hl.
  - unfold sort_rows, buckets. cbn. clear. induction rs; done.
  - unfold sort_rows in *. rewrite fold_left_app. cbn. rewrite IH by (intros; apply Hl; apply elem_of_app; by left).
    apply insert_buckets; [done|]. apply Hl, elem_of_app. right. left.
Qed.
End ranked.

(** ** The search *)

Section order.
Context {JC : JsCase} (search : jsstr).

Definition row_rank (c : Credential) : Z :=
  (if serviceMatch search c then 0 else 4) + (if urlMatch search c then 0 else 2) + (if userMatch search c then 0 else 1).

Lemma compare_rank a b : search ≠ [] → (compare_rows search a b <? 0) = (row_rank a <? row_rank b).
Proof.
  intros Hs. unfold compare_rows, row_rank. assert (str_empty search = false) as -> by (by destruct search).
  by destruct (serviceMatch search a), (serviceMatch search b), (urlMatch search a), (urlMatch search b),
    (userMatch search a), (userMatch search b).
Qed.

Lemma row_rank_range c : row_rank c ∈ [0; 1; 2; 3; 4; 5; 6; 7].
Proof. unfold row_rank. destruct (serviceMatch _ _), (urlMatch _ _), (userMatch _ _); by rewrite list_elem_of_In; cbn; tauto. Qed.

(** The rows whose three matches are as given. *)
Definition rows (l : list Credential) (s u n : bool) : list Credential :=
  List.filter (λ c, eqb (serviceMatch search c) s && eqb (urlMatch search c) u && eqb (userMatch search c) n) l.

Lemma rows_bucket l s u n :
  rows l s u n = bucket row_rank ((if s then 0 else 4) + (if u then 0 else 2) + (if n then 0 else 1)) l.
Proof.
  unfold rows, bucket. apply List.filter_ext. intros c. unfold row_rank.
  by destruct (serviceMatch search c), (urlMatch search c), (userMatch search c), s, u, n.
Qed.
End order.

Lemma insert_perm {A} (cmp : A → A → Z) x l : insert_row cmp x l ≡ₚ x :: l.
Proof.
  induction l as [|y l IH]; [done|]. cbn. destruct (cmp x y <? 0); [done|]. rewrite IH. apply Permutation_swap.
Qed.

Lemma sort_perm {A} (cmp : A → A → Z) l : sort_rows cmp l ≡ₚ l.
Proof.
  induction l as [|x l IH] using rev_ind; [done|]. unfold sort_rows in *. rewrite fold_left_app. cbn.
  rewrite insert_perm, IH. by rewrite Permutation_app_comm.
Qed.

Lemma sort_zero {A} (cmp : A → A → Z) l : (∀ x y, cmp x y = 0) → sort_rows cmp l = l.
Proof.
  intros Hz. induction l as [|x l IH] using rev_ind; [done|]. unfold sort_rows in *. rewrite fold_left_app. cbn. rewrite IH. clear IH.
  induction l as [|y l IH]; [done|]. cbn. rewrite Hz. cbn. by f_equal.
Qed.

Lemma includes_nil s : includes [] s = true.
Proof. by destruct s. Qed.

(** The rows the search keeps, before they are sorted. *)
Definition matching `{JsCase} (activeTab searchTerm : jsstr) (l : list Credential) : list Credential :=
  let search := toLowerCase searchTerm in
  List.filter (λ c, serviceMatch search c || urlMatch search c || userMatch search c || tagMatch search c)
    (folderCredentials activeTab l).

Lemma displayed_sorted `{JsCase} activeTab searchTerm l :
  displayedCredentials activeTab searchTerm l = sort_rows (compare_rows (toLowerCase searchTerm)) (matching activeTab searchTerm l).
Proof. done. Qed.

(** ** Scores *)

Lemma getScore_range s : 0 <= getScore s <= 100.
Proof. unfold getScore. repeat case_match; lia. Qed.

Lemma sum_scores_range l : 0 <= sum_scores l <= 100 * len l.
Proof.
  unfold sum_scores. assert (G : ∀ acc, 0 <= fold_left (λ acc c, acc + getScore (c_status c)) l acc - acc <= 100 * len l); [|specialize (G 0); lia].
  induction l as [|c l IH]; intros acc; cbn; [unfold len; cbn; lia|]. specialize (IH (acc + getScore (c_status c))).
  assert (R := getScore_range (c_status c)). rewrite len_cons. lia.
Qed.

Lemma health_range l : 0 <= securityHealthScore l <= 100.
Proof.
  unfold securityHealthScore. assert (R := sum_scores_range l). destruct (Z.ltb_spec 0 (len l)); [|lia]. unfold round_div. split.
  - apply Z.div_pos; lia.
  - assert ((2 * sum_scores l + len l) / (2 * len l) < 101); [|lia]. apply Z.div_lt_upper_bound; lia.
Qed.

(** The labels the page compares with. *)
Definition english (s : jsstr) : bool :=
  existsb (str_eqb s) [js "Excellent"; js "Very Strong"; js "Strong"; js "Medium"; js "Weak"; js "Very Weak"].

Lemma not_english s : english s = false → getScore s = 0 ∧ is_weak_label s = false ∧ isGood s = false.
Proof.
  unfold english, getScore, is_weak_label, isGood. cbn [existsb]. rewrite !orb_false_iff. intros (-> & -> & -> & -> & -> & -> & _). done.
Qed.

Lemma english_score s : english s = true → 20 <= getScore s.
Proof.
  unfold english, getScore. cbn [existsb]. rewrite !orb_true_iff, !str_eqb_eq.
  intros [-> |[-> |[-> |[-> |[-> |[-> |[=]]]]]]]; by vm_compute.
Qed.

(** ** Notices *)

Section notices.
Context `{JsZone} (now : Z) (folders : list Folder).

(** The notice one credential gives. *)
Definition new_notice (ns : list Notice) (c : Credential) : list Notice :=
  match due now c with
  | Some n => if notified ns c then [] else [notice_for folders c n]
  | None => []
  end.

Lemma expiry_notices_new ns l : expiry_notices now folders ns l = reverse (flat_map (new_notice ns) l) ++ ns.
Proof.
  unfold expiry_notices. enough (G : ∀ acc, fold_left (λ acc c, match due now c with
      | Some n => if notified ns c then acc else notice_for folders c n :: acc | None => acc end) l acc
    = reverse (flat_map (new_notice ns) l) ++ acc) by apply G.
  induction l as [|c l IH]; intros acc; [done|]. cbn [fold_left flat_map]. rewrite IH, reverse_app, <- app_assoc. f_equal.
  unfold new_notice. destruct (due now c); [|done]. by destruct (notified ns c).
Qed.

Lemma notice_for_notified ns c n : notified (notice_for folders c n :: ns) c = true.
Proof. unfold notified, notice_for. cbn. by rewrite bool_decide_true. Qed.

Lemma notified_app ns ks c : notified (ns ++ ks) c = notified ns c || notified ks c.
Proof. unfold notified. apply existsb_app. Qed.

Lemma notified_elem ns c n : n ∈ ns → no_expiring n = true → no_credentialId n = Some (c_id c) → no_read n = false → notified ns c = true.
Proof.
  intros Hn H1 H2 H3. unfold notified. apply existsb_exists. exists n. split; [by apply list_elem_of_In|]. rewrite H1, H3.
  by rewrite bool_decide_true.
Qed.

Lemma due_notified ns l c : c ∈ l → is_Some (due now c) → notified (expiry_notices now folders ns l) c = true.
Proof.
  intros Hc [n Hd]. rewrite expiry_notices_new, notified_app. destruct (notified ns c) eqn:En; [by rewrite orb_true_r|].
  rewrite (notified_elem _ c (notice_for folders c n)); [done| |done..]. apply elem_of_reverse, list_elem_of_In, in_flat_map.
  exists c. split; [by apply list_elem_of_In|]. unfold new_notice. rewrite Hd, En. by left.
Qed.

Lemma new_notices_spec ns l x : x ∈ flat_map (new_notice ns) l →
  ∃ c n, c ∈ l ∧ due now c = Some n ∧ notified ns c = false ∧ x = notice_for folders c n.
Proof.
  intros (c & Hc & Hx)%list_elem_of_In%in_flat_map. unfold new_notice in Hx. destruct (due now c) as [n|] eqn:Ed; [|done].
  destruct (notified ns c) eqn:En; [done|]. destruct Hx as [<-|[]]. exists c, n. split; [by apply list_elem_of_In|done].
Qed.

Lemma new_notices_once ns l : NoDup (map c_id l) → NoDup (map no_credentialId (flat_map (new_notice ns) l)).
Proof.
  induction l as [|c l IH]; [constructor|]. cbn [map flat_map]. intros [Hc Hl]%NoDup_cons. rewrite map_app. apply NoDup_app.
  split; [|split; [|by apply IH]].
  - unfold new_notice. destruct (due now c); [|constructor]. destruct (notified ns c); [constructor|]. apply NoDup_singleton.
  - intros i Hi (x & -> & Hx)%list_elem_of_fmap. apply Hc. apply new_notices_spec in Hx as (c' & n & Hc' & _ & _ & ->).
    unfold new_notice in Hi. destruct (due now c); [|by apply not_elem_of_nil in Hi]. destruct (notified ns c); [by apply not_elem_of_nil in Hi|].
    apply list_elem_of_singleton in Hi. injection Hi as Hi. apply list_elem_of_fmap. by exists c'.
Qed.

Lemma expiry_notices_again ns l : expiry_notices now folders (expiry_notices now folders ns l) l = expiry_notices now folders ns l.
Proof.
  rewrite (expiry_notices_new (expiry_notices _ _ _ _)).
  destruct (flat_map (new_notice (expiry_notices now folders ns l)) l) as [|x k] eqn:Ef; [done|].
  destruct (new_notices_spec (expiry_notices now folders ns l) l x ltac:(rewrite Ef; left)) as (c & n & Hc & Hd & Hn & _).
  rewrite due_notified in Hn by (done || by exists n). done.
Qed.
End notices.

Module Page.

(** C38: a search shows exactly the matching credentials of the folder, ordered by whether
    the service, then the address, then the user name matches, and in the order of the vault
    within each of the eight groups; an empty search shows the folder as it is. *)
Theorem search_order (JC : JsCase) (activeTab searchTerm : jsstr) (l : list Credential) :
  let m := matching activeTab searchTerm l in
  let at_ := rows (toLowerCase searchTerm) m in
  (toLowerCase searchTerm ≠ [] →
     displayedCredentials activeTab searchTerm l
     = at_ true true true ++ at_ true true false ++ at_ true false true ++ at_ true false false
       ++ at_ false true true ++ at_ false true false ++ at_ false false true ++ at_ false false false) ∧
  displayedCredentials activeTab searchTerm l ≡ₚ m ∧
  displayedCredentials activeTab [] l = folderCredentials activeTab l.
Proof.
  intros m at_. split; [|split].
  - intros Hs. rewrite displayed_sorted. subst at_. rewrite !rows_bucket. unfold row_rank.
    rewrite (sort_buckets _ (row_rank (toLowerCase searchTerm)) (λ x y, compare_rank _ x y Hs) [0; 1; 2; 3; 4; 5; 6; 7]).
    + unfold buckets. cbn [map concat]. by rewrite app_nil_r.
    + by repeat constructor.
    + intros x _. apply row_rank_range.
  - rewrite displayed_sorted. apply sort_perm.
  - rewrite displayed_sorted. unfold matching. rewrite (toLowerCase_ascii []) by done. cbn [map].
    rewrite sort_zero by done. apply FormReopen.filter_all. intros x _. unfold serviceMatch. by rewrite includes_nil.
Qed.

Definition row (id service url username : string) : Credential :=
  basic_credential (IdString (js id)) (js service) (js url) (js username) None [] [] [] [] None None None None.
Definition three_rows : list Credential :=
  [row "1" "Forge" "https://git.example" "ann"; row "2" "Bank" "https://bank.example" "github-user"; row "3" "GitHub" "https://github.com" "bob"].

(** The service is found first, then the address, then the name of the user. *)
Lemma search_order_witness :
  map c_id (displayedCredentials (js "vault") (js "GIT") three_rows) = map (λ i, IdString (js i)) ["3"; "1"; "2"]%string.
Proof.
  rewrite (proj1 (search_order ascii_case (js "vault") (js "GIT") three_rows)); [by vm_compute|]. by vm_compute.
Defined.

(** After the check of the page every credential that is due has an unread notice,
    checking again adds none, and the notices added are those of due credentials without one,
    one per credential. *)
Theorem expiry_notified_once (Z0 : JsZone) now folders ns l :
  let after := expiry_notices now folders ns l in
  (∀ c, c ∈ l → is_Some (due now c) → notified after c = true) ∧
  expiry_notices now folders after l = after ∧
  ∃ new, after = new ++ ns ∧ (NoDup (map c_id l) → NoDup (map no_credentialId new)) ∧
    ∀ x, x ∈ new → ∃ c n, c ∈ l ∧ due now c = Some n ∧ notified ns c = false ∧ x = notice_for folders c n.
Proof.
  intros after. split; [intros c; apply due_notified|]. split; [apply expiry_notices_again|].
  exists (reverse (flat_map (new_notice now folders ns) l)). split; [apply expiry_notices_new|]. split.
  - intros Hl. rewrite reverse_Permutation. by apply new_notices_once.
  - intros x Hx. rewrite elem_of_reverse in Hx. by apply new_notices_spec in Hx.
Qed.

(** A credential saved with a translated strength label scores nothing, is not good
    and not counted as weak on the vault page, whatever its password. *)
Theorem foreign_label_unscored e d s u :
  english (env_t e (strength_key (getStrength (fs_password s))) (strength_default (getStrength (fs_password s)))) = false →
  let c := credData e d s u in
  getScore (c_status c) = 0 ∧ isGood (c_status c) = false ∧ weakCount [c] = 0 ∧ securityHealthScore [c] = 0.
Proof.
  intros Hn c. destruct (not_english _ Hn) as (H1 & H2 & H3). change (c_status c) with (env_t e (strength_key (getStrength (fs_password s))) (strength_default (getStrength (fs_password s)))).
  split; [done|]. split; [done|]. unfold weakCount, securityHealthScore, sum_scores. cbn [List.filter fold_left].
  change (c_status c) with (env_t e (strength_key (getStrength (fs_password s))) (strength_default (getStrength (fs_password s)))).
  rewrite H1, H2. done.
Qed.

Definition italian (key : string) (label : jsstr) : jsstr :=
  if String.eqb key "vault.strength.weak" then js "Debole" else label.

(** A weak password saved with the page in Italian counts as no action. *)
Lemma foreign_label_unscored_witness :
  weakCount [credData (mkFormEnv italian (λ _, true) (js "u1") 0) None (formReducer Form.with_title (set_password (js "secret"))) []] = 0.
Proof.
  apply (foreign_label_unscored (mkFormEnv italian (λ _, true) (js "u1") 0) None (formReducer Form.with_title (set_password (js "secret"))) []).
  by vm_compute.
Defined.

(** Changing the password of an expired credential in the form shows the message that
    the account is in good shape and leaves it expired exactly as before. *)
Theorem rotated_stays_expired (Z0 : JsZone) folders activeTab p_ids k_ids u_ids c old p a e d o now a' b :
  isExpired now c = true → default login (c_credentialType c) = login → truthy_id (c_id c) →
  c_password c = Some old → old ≠ [] → p ≠ [] → p ≠ old →
  submit_form a e (Some c) (reopened folders activeTab p_ids k_ids u_ids c p) None d o now = (a', Closed b) →
  b = true ∧ ∀ x, x ∈ a_credentials a' → c_id x = c_id c → c_password x = Some p ∧ ∀ t, isExpired t x = isExpired t c.
Proof.
  intros Hx Hty Hid Hold Ho Hp Hne Hs. assert (He : expiry_fields c ≠ None) by (unfold isExpired in Hx; by destruct (expiry_fields c)).
  assert (Hen : c_expiryEnabled c = Some true) by (unfold expiry_fields in He; by destruct (c_expiryEnabled c) as [[]|]). split.
  - assert (G : good_shape (Some c) (reopened folders activeTab p_ids k_ids u_ids c p) = true).
    { unfold good_shape. cbn [reopened formReducer open_form fs_credentialType fs_expiryEnabled fs_password mbind option_bind].
      rewrite bool_decide_true, Hen, Hold by done. cbn. destruct p, old; try done. cbn [str_empty negb andb].
      destruct (str_eqb _ _) eqn:E; [|done]. by apply str_eqb_eq in E. }
    destruct (submit_closed _ _ _ _ _ _ _ _ _ _ Hs) as [_ ->]. exact G.
  - destruct (submit_update_inv _ _ _ _ _ _ _ _ _ _ Hs) as (c' & Hc & ->). intros x (y & -> & _)%list_elem_of_fmap Hi.
    destruct (onSubmit_saves _ _ _ _ (or_intror Hc)) as [[_ E]|[Hn _]]; [|by destruct Hn].
    assert (Ei : c_id c' = c_id c) by (rewrite E; by apply id_or_truthy). rewrite Ei in *.
    unfold same_id in *. case_bool_decide; [|done]. split; [by rewrite E|]. intros t.
    assert (Ef : expiry_fields c' = expiry_fields c); [|unfold isExpired; by rewrite Ef].
    rewrite E. unfold expiry_fields in *. cbn [credData reopened formReducer open_form c_expiryEnabled c_expirySetAt c_expiryValue c_expiryUnit
      fs_expiryEnabled fs_expiryValue fs_expiryUnit mbind option_bind]. rewrite Hen in *. cbn.
    destruct (c_expirySetAt c), (c_expiryValue c), (c_expiryUnit c); done.
Qed.

(** Ninety days, set on 1 January 1970 and a millisecond. *)
Definition stale : Credential :=
  credData (mkFormEnv (λ _ label, label) (λ _, true) (js "c1") 1) None
    (fold_left formReducer [set_title (js "Mail"); set_password (js "old"); set_expiryEnabled true] Form.with_title) [].
Definition renewed : CredentialFormState := reopened [] None (λ _, []) (λ _, []) (λ _, []) stale (js "new").
Definition holding : app := mkApp [] [stale] no_assets true false true (a_world Form.with_login).

Lemma rotated_stays_expired_witness :
  @isExpired (fixed_zone 0) 8000000000 stale = true ∧
  ∃ x, a_credentials (submit_form holding Form.plain_env (Some stale) renewed None (Some tt) Online 8000000000).1 = [x] ∧
    c_password x = Some (js "new") ∧ @isExpired (fixed_zone 0) 8000000000 x = true.
Proof.
  assert (Hx : @isExpired (fixed_zone 0) 8000000000 stale = true) by by vm_compute. split; [done|].
  destruct (rotated_stays_expired (fixed_zone 0) [] None (λ _, []) (λ _, []) (λ _, []) stale (js "old") (js "new") holding Form.plain_env
    (Some tt) Online 8000000000 (submit_form holding Form.plain_env (Some stale) renewed None (Some tt) Online 8000000000).1 true)
    as [_ Hall]; [exact Hx|by vm_compute|by split; vm_compute|by vm_compute|by vm_compute|by vm_compute|by vm_compute|by vm_compute|].
  eexists. split; [by vm_compute|]. destruct (Hall (credData Form.plain_env (Some stale) renewed [])) as [H1 H2].
  - by vm_compute; left.
  - by vm_compute.
  - split; [by vm_compute|]. specialize (H2 8000000000). rewrite Hx in H2. vm_compute in H2 |- *. done.
Defined.
End Page.
