(* ===== verification/SecurityModes.v ===== *)
(** * Lockout, duress mode and travel mode ([web/src/utils/securityModes.ts])

    The stores are typed: a slot of [localStorage] or of the server holds the
    value its JSON text stands for, [None] when it is absent or unreadable.
    Requests are answered by a list of outcomes, one per request in order.
    The login-policy message that [saveDuressModeConfig] sends to a connected
    daemon, whose outcome the code ignores, is not part of the store. *)
From S2P Require Import Prelude JsRuntime JsText Types CryptoUtils VaultSync.

(** ** Configurations *)

Record LockoutConfig := mkLockout {
  l_enabled : bool; l_maxAttempts : Z; lockoutDurationMins : Z; attemptsMade : Z; lockedUntil : option Z }.

Record DuressModeConfig := mkDuress {
  armed : bool; passwordHash : option jsstr; maxAttempts : Z; attemptsRemaining : Z; salt : jsstr }.

Record Sentinel := mkSentinel { sn_armed : bool; sn_maxAttempts : Z; sn_attemptsRemaining : Z }.

Record TravelModeConfig := mkTravelCfg {
  t_active : bool; t_passwordHash : option jsstr; hiddenFolderIds : list jsstr; t_salt : jsstr; ivHex : jsstr;
  kdf_version : option Z }.

(** The local travel slot: plain JSON, or an encrypted token of an earlier
    version that the session keys still open. *)
Inductive travel_slot := Plain (c : TravelModeConfig) | Sealed (c : TravelModeConfig).

(** [{ iv, ct }], both in hexadecimal: the hidden part of the vault encrypted
    with the travel password. *)
Record envelope := mkEnvelope { e_iv : jsstr; e_ct : jsstr }.

Record store := mkStore {
  s_session : bool;                          (* a server session *)
  s_csrf : bool;                             (* a readable CSRF token *)
  lockout : option LockoutConfig;            (* localStorage 'login_lockout_config' *)
  duress : option DuressModeConfig;          (* localStorage 'duress_mode_config' *)
  sentinel : option Sentinel;                (* localStorage '..._sentinel' *)
  srv_duress : option DuressModeConfig;      (* /api/vault/duress-config *)
  srv_enforce : option Z;                    (* /api/vault/duress-enforce: armed with maxAttempts *)
  travel : option travel_slot;               (* localStorage '_tm_cfg' *)
  srv_travel : option TravelModeConfig;      (* /api/vault/travel-config *)
  travel_vault : option envelope;            (* localStorage '_cache_local_xvc' *)
  srv_travel_vault : option envelope;        (* /api/vault/travel-vault *)
  nets : list net;
}.

Definition set_lockout (s : store) (x : option LockoutConfig) : store :=
  mkStore (s_session s) (s_csrf s) x (duress s) (sentinel s) (srv_duress s) (srv_enforce s) (travel s)
    (srv_travel s) (travel_vault s) (srv_travel_vault s) (nets s).
Definition set_duress (s : store) (x : option DuressModeConfig) (y : option Sentinel) : store :=
  mkStore (s_session s) (s_csrf s) (lockout s) x y (srv_duress s) (srv_enforce s) (travel s)
    (srv_travel s) (travel_vault s) (srv_travel_vault s) (nets s).
Definition set_srv_duress (s : store) (x : option DuressModeConfig) : store :=
  mkStore (s_session s) (s_csrf s) (lockout s) (duress s) (sentinel s) x (srv_enforce s) (travel s)
    (srv_travel s) (travel_vault s) (srv_travel_vault s) (nets s).
Definition set_srv_enforce (s : store) (x : option Z) : store :=
  mkStore (s_session s) (s_csrf s) (lockout s) (duress s) (sentinel s) (srv_duress s) x (travel s)
    (srv_travel s) (travel_vault s) (srv_travel_vault s) (nets s).
Definition set_travel (s : store) (x : option travel_slot) : store :=
  mkStore (s_session s) (s_csrf s) (lockout s) (duress s) (sentinel s) (srv_duress s) (srv_enforce s) x
    (srv_travel s) (travel_vault s) (srv_travel_vault s) (nets s).
Definition set_srv_travel (s : store) (x : option TravelModeConfig) : store :=
  mkStore (s_session s) (s_csrf s) (lockout s) (duress s) (sentinel s) (srv_duress s) (srv_enforce s) (travel s)
    x (travel_vault s) (srv_travel_vault s) (nets s).
Definition set_travel_vault (s : store) (x : option envelope) : store :=
  mkStore (s_session s) (s_csrf s) (lockout s) (duress s) (sentinel s) (srv_duress s) (srv_enforce s) (travel s)
    (srv_travel s) x (srv_travel_vault s) (nets s).
Definition set_srv_travel_vault (s : store) (x : option envelope) : store :=
  mkStore (s_session s) (s_csrf s) (lockout s) (duress s) (sentinel s) (srv_duress s) (srv_enforce s) (travel s)
    (srv_travel s) (travel_vault s) x (nets s).
Definition set_nets (s : store) (x : list net) : store :=
  mkStore (s_session s) (s_csrf s) (lockout s) (duress s) (sentinel s) (srv_duress s) (srv_enforce s) (travel s)
    (srv_travel s) (travel_vault s) (srv_travel_vault s) x.

(** One request: its outcome, [Down] when none is given. *)
Definition request (s : store) : net * store := (hd Down (nets s), set_nets s (tl (nets s))).

(** A request whose failure is ignored: [f] is its effect on success. *)
Definition request_ignoring (s : store) (f : store → store) : store :=
  let '(o, s) := request s in match o with Online => f s | _ => s end.

(** ** Lockout *)

Definition default_lockout : LockoutConfig := mkLockout true 3 5 0 None.
Definition getLockoutConfig (s : store) : LockoutConfig := default default_lockout (lockout s).
Definition saveLockoutConfig (s : store) (c : LockoutConfig) : store := set_lockout s (Some c).

(** [{ locked, remainingMins }]; [null] and 0 are both falsy. *)
Definition checkIsLockedOut (s : store) (now : Z) : bool * Z :=
  let cfg := getLockoutConfig s in
  match lockedUntil cfg with
  | Some u =>
      if negb (l_enabled cfg) || (u =? 0) then (false, 0)
      else if now >=? u then (false, 0)
      else (true, (u - now + 59999) / 60000)
  | None => (false, 0)
  end.

(** The first half of [recordFailedLoginAttempt]. *)
Definition record_lockout (s : store) (now : Z) : store :=
  let cfg := getLockoutConfig s in
  if l_enabled cfg then
    let made := attemptsMade cfg + 1 in
    let until := if made >=? l_maxAttempts cfg then Some (now + lockoutDurationMins cfg * 60000)
                 else lockedUntil cfg in
    saveLockoutConfig s (mkLockout (l_enabled cfg) (l_maxAttempts cfg) (lockoutDurationMins cfg) made until)
  else s.

(** ** Duress mode *)

Definition default_duress (uuid : jsstr) : DuressModeConfig := mkDuress false None 5 5 uuid.

(** The view before login. *)
Definition getDuressModeConfig (s : store) (uuid : jsstr) : DuressModeConfig :=
  match sentinel s with
  | Some p =>
      let max := if sn_maxAttempts p >? 0 then sn_maxAttempts p else 5 in
      let rem := if sn_attemptsRemaining p >=? 0 then sn_attemptsRemaining p else max in
      mkDuress (sn_armed p) None max rem uuid
  | None => default_duress uuid
  end.

Definition sentinel_of (c : DuressModeConfig) : Sentinel := mkSentinel (armed c) (maxAttempts c) (attemptsRemaining c).

(** The local copy, or the default. *)
Definition local_duress (s : store) (uuid : jsstr) : DuressModeConfig := default (default_duress uuid) (duress s).

Definition getDuressModeConfigFull (s : store) (uuid : jsstr) : store * DuressModeConfig :=
  if s_session s then
    let '(o, s) := request s in
    match o with
    | Online =>
        match srv_duress s with
        | Some c => (set_duress s (Some c) (Some (sentinel_of c)), c)
        | None => let s := set_duress s None None in (s, local_duress s uuid)
        end
    | _ => (s, local_duress s uuid)
    end
  else (s, local_duress s uuid).

Definition saveDuressModeConfig (s : store) (c : DuressModeConfig) : store :=
  let s := set_duress s (Some c) (Some (sentinel_of c)) in
  if s_session s then request_ignoring s (λ s, set_srv_duress s (Some c)) else s.

(** Returns [true] when the wipe is to be triggered. *)
Definition recordFailedLoginAttempt (s : store) (now : Z) (uuid : jsstr) : store * bool :=
  let s := record_lockout s now in
  let '(s, d) := getDuressModeConfigFull s uuid in
  if negb (armed d) then (s, false)
  else
    let rem := Z.max 0 (attemptsRemaining d - 1) in
    let d := mkDuress (armed d) (passwordHash d) (maxAttempts d) rem (salt d) in
    (saveDuressModeConfig s d, rem =? 0).

Definition resetLoginAttempts (s : store) (uuid : jsstr) : store :=
  let '(s, d) := getDuressModeConfigFull s uuid in
  let s := if armed d
           then saveDuressModeConfig s (mkDuress (armed d) (passwordHash d) (maxAttempts d) (maxAttempts d) (salt d))
           else s in
  let l := getLockoutConfig s in
  saveLockoutConfig s (mkLockout (l_enabled l) (l_maxAttempts l) (lockoutDurationMins l) 0 None).

(** [DuressSyncError] *)
Inductive sync_error := MissingCsrf | ServerStatus (n : Z) | NetworkError.

Definition syncDuressEnforce (s : store) (armed : bool) (max : Z) : store * result sync_error unit :=
  if negb (s_session s) then (s, Ok tt)
  else if negb (s_csrf s) then (s, Throw MissingCsrf)
  else
    let '(o, s) := request s in
    match o with
    | Online => (set_srv_enforce s (if armed then Some max else None), Ok tt)
    | Status n => (s, Throw (ServerStatus n))
    | Down => (s, Throw NetworkError)
    end.

Class Argon2 := { argon2 : bytes → bytes → Z → Z → Z → bytes  (* password, salt, m, t, p: 32 bytes *) }.

(** [`$argon2id$v=19$m=262144,t=3,p=1$${saltHex}$${hashHex}`] *)
Definition phc_string (saltHex hashHex : jsstr) : jsstr :=
  js "$argon2id$v=19$m=262144,t=3,p=1$" ++ saltHex ++ js "$" ++ hashHex.

Section duress.
Context `{Argon2}.

(** [saltBytes]: the sixteen random bytes. *)
Definition armDuressMode (s : store) (saltBytes : bytes) (duressPassword : jsstr) (max : Z)
    : store * result sync_error unit :=
  let hash := argon2 (utf8_encode duressPassword) saltBytes (256 * 1024) 3 1 in
  let phc := phc_string (bytesToHex saltBytes) (bytesToHex hash) in
  let s := saveDuressModeConfig s (mkDuress true (Some phc) max max (bytesToHex saltBytes)) in
  syncDuressEnforce s true max.

Definition disarmDuressMode (s : store) : store :=
  let s := set_duress s None None in
  let s := if s_session s then request_ignoring s (λ s, set_srv_duress s None) else s in
  (syncDuressEnforce s false 0).1.

(** [str.match(/k=(\d+)/)]: the digits after the first [k=] that has one. *)
Fixpoint take_digits (s : jsstr) : jsstr :=
  match s with c :: s' => if is_digit c then c :: take_digits s' else [] | [] => [] end.
Fixpoint match_param (k : Z) (s : jsstr) : option Z :=
  match s with
  | [] => None
  | c :: s' =>
      match s' with
      | 61 :: d :: _ =>
          if (c =? k) && is_digit d then Some (dec_value (take_digits (drop 1 s'))) else match_param k s'
      | _ => match_param k s'
      end
  end.

Definition phc_matches (phc entered : jsstr) : bool :=
  let parts := split_unit 36 phc in
  if len parts <? 6 then false
  else
    let paramStr := nth 3 parts [] in
    let saltHex := nth 4 parts [] in
    let hashHex := nth 5 parts [] in
    let m := default 65536 (match_param 109 paramStr) in
    let t := default 2 (match_param 116 paramStr) in
    let p := default 1 (match_param 112 paramStr) in
    let hash := argon2 (utf8_encode entered) (hexToBytes saltHex) m t p in
    timingSafeEqual (bytesToHex hash) hashHex.

Definition checkIsDuressPassword (s : store) (uuid entered : jsstr) : store * bool :=
  let '(s, cfg) := getDuressModeConfigFull s uuid in
  match passwordHash cfg with
  | Some (c :: phc) => if armed cfg then (s, phc_matches (c :: phc) entered) else (s, false)
  | _ => (s, false)
  end.
End duress.

(** ** Travel mode *)

(** WebCrypto and the noble libraries.  [seal] and [unseal] are AES-GCM on the
    UTF-8 bytes of the JSON text of the hidden credentials and folders. *)
Class TravelCrypto := {
  tc_argon2 :: Argon2;
  tc_hash :: PasswordHash;
  pbkdf2_sha256 : bytes → bytes → Z → bytes;    (* password, salt, iterations *)
  subtleAvailable : bool;
  seal : bytes → bytes → list Credential * list Folder → bytes;        (* key, iv *)
  unseal : bytes → bytes → bytes → option (list Credential * list Folder);
}.

Definition deriveTravelKeyBytes `{TravelCrypto} (password saltHex : jsstr) (version : Z) : bytes :=
  let pwBytes := utf8_encode password in
  let saltBytes := utf8_encode saltHex in
  if version =? 2 then
    if subtleAvailable then argon2 pwBytes saltBytes (64 * 1024) 2 1 else pbkdf2_sha256 pwBytes saltBytes 600000
  else pbkdf2_sha256 pwBytes saltBytes 120000.

Definition defaultTravelConfig (uuid : jsstr) : TravelModeConfig := mkTravelCfg false None [] uuid [] None.

Definition getTravelModeConfig (s : store) (uuid : jsstr) : TravelModeConfig :=
  match travel s with Some (Plain c) => c | _ => defaultTravelConfig uuid end.

(** [s !== null && s !== ''] *)
Definition truthy_str (o : option jsstr) : bool := match o with Some (_ :: _) => true | _ => false end.

(** Without an answer from the server: the plain slot, else the legacy token,
    which is rewritten as plain JSON. *)
Definition travel_local (s : store) (uuid : jsstr) : store * TravelModeConfig :=
  let sync := getTravelModeConfig s uuid in
  if t_active sync || truthy_str (t_passwordHash sync) then (s, sync)
  else match travel s with
       | Some (Sealed c) => (set_travel s (Some (Plain c)), c)
       | _ => (s, sync)
       end.

Definition getTravelModeConfigAsync (s : store) (uuid : jsstr) : store * TravelModeConfig :=
  if s_session s then
    let '(o, s) := request s in
    match o with
    | Online =>
        match srv_travel s with
        | Some c => (set_travel s (Some (Plain c)), c)
        | None => (set_travel s None, defaultTravelConfig uuid)
        end
    | _ => travel_local s uuid
    end
  else travel_local s uuid.

Definition saveTravelModeConfig (s : store) (c : TravelModeConfig) : store :=
  let s := set_travel s (Some (Plain c)) in
  if s_session s then request_ignoring s (λ s, set_srv_travel s (Some c)) else s.

Section travel.
Context `{TravelCrypto}.

Definition is_hidden (ids : list jsstr) (folderId : jsstr) : bool := existsb (str_eqb folderId) ids.

(** [saltUuid] and [iv]: the generated values. *)
Definition enableTravelMode (s : store) (saltUuid : jsstr) (iv : bytes) (travelPassword : jsstr) (ids : list jsstr)
    (allCredentials : list Credential) (allFolders : list Folder)
    : store * (list Credential * list Folder) :=
  let ph := hashPassword travelPassword saltUuid in
  let hiddenCredentials := List.filter (λ c, is_hidden ids (c_folderId c)) allCredentials in
  let hiddenFolders := List.filter (λ f, is_hidden ids (f_id f)) allFolders in
  let visibleCredentials := List.filter (λ c, negb (is_hidden ids (c_folderId c))) allCredentials in
  let visibleFolders := List.filter (λ f, negb (is_hidden ids (f_id f))) allFolders in
  let key := deriveTravelKeyBytes travelPassword saltUuid 2 in
  let ct := seal key iv (hiddenCredentials, hiddenFolders) in
  let env := mkEnvelope (bytesToHex iv) (bytesToHex ct) in
  let s := set_travel_vault s (Some env) in
  let s := if s_session s then request_ignoring s (λ s, set_srv_travel_vault s (Some env)) else s in
  let s := saveTravelModeConfig s (mkTravelCfg true (Some ph) ids saltUuid (bytesToHex iv) (Some 2)) in
  (s, (visibleCredentials, visibleFolders)).

(** [cfg.kdf_version || 1] *)
Definition kdf_or_1 (v : option Z) : Z := match v with Some v => if v =? 0 then 1 else v | None => 1 end.

(** The stored envelope: local, or the server's copy when there is none. *)
Definition find_envelope (s : store) : store * option envelope :=
  match travel_vault s with
  | Some e => (s, Some e)
  | None =>
      if s_session s then
        let '(o, s) := request s in
        match o with Online => (s, srv_travel_vault s) | _ => (s, None) end
      else (s, None)
  end.

(** [JSON.parse(TextDecoder.decode(await travelDecrypt(key, iv, ct)))]; the
    rewrite of a version 1 envelope that may follow is deleted again before
    the function returns. *)
Definition open_envelope (key : bytes) (e : envelope) : option (list Credential * list Folder) :=
  unseal key (hexToBytes (e_iv e)) (hexToBytes (e_ct e)).

(** [{ ok, credentials, folders }] *)
Definition disableTravelMode (s : store) (uuid uuid2 travelPassword : jsstr)
    (currentCredentials : list Credential) (currentFolders : list Folder)
    : store * (bool * list Credential * list Folder) :=
  let '(s, cfg) := getTravelModeConfigAsync s uuid in
  match t_passwordHash cfg with
  | Some (h0 :: ph) =>
      if negb (t_active cfg) then (s, (false, [], []))
      else if negb (timingSafeEqual (hashPassword travelPassword (t_salt cfg)) (h0 :: ph))
      then (s, (false, [], []))
      else
        let '(s, stored) := find_envelope s in
        match (match stored with
               | None => Some ([], [])
               | Some e => open_envelope (deriveTravelKeyBytes travelPassword (t_salt cfg) (kdf_or_1 (kdf_version cfg))) e
               end) with
        | None => (s, (false, [], []))
        | Some (hiddenCredentials, hiddenFolders) =>
            let s := set_travel_vault s None in
            let s := if s_session s then request_ignoring s (λ s, set_srv_travel_vault s None) else s in
            let mergedCredentials := currentCredentials ++ hiddenCredentials in
            let mergedFolders := currentFolders ++ hiddenFolders in
            let s := if s_session s then request_ignoring s (λ s, set_srv_travel s None) else s in
            let s := saveTravelModeConfig s (mkTravelCfg false None [] uuid2 [] None) in
            (s, (true, mergedCredentials, mergedFolders))
        end
  | _ => (s, (false, [], []))
  end.
End travel.
