(* ===== verification/SecurityModesSpec.v ===== *)
(** * Theorems on lockout, duress mode and travel mode *)
From S2P Require Import Prelude JsRuntime JsText Types P2WFile P2WFileSpec CryptoUtils VaultSync SecurityModes.

(** ** Lockout *)

(** Failed logins at the times [ts]. *)
Definition fail_at (uuid : jsstr) (s : store) (ts : list Z) : store :=
  fold_left (λ s t, (recordFailedLoginAttempt s t uuid).1) ts s.

Lemma request_ignoring_lockout s f :
  (∀ s, lockout (f s) = lockout s) → lockout (request_ignoring s f) = lockout s.
Proof. intros H. unfold request_ignoring, request. destruct (hd Down (nets s)); cbn; by rewrite ?H. Qed.

Lemma saveDuress_lockout s c : lockout (saveDuressModeConfig s c) = lockout s.
Proof. unfold saveDuressModeConfig. destruct (s_session _); [by rewrite request_ignoring_lockout|done]. Qed.

Lemma getDuress_lockout s uuid : lockout (getDuressModeConfigFull s uuid).1 = lockout s.
Proof.
  unfold getDuressModeConfigFull, request. destruct (s_session s); [|done].
  destruct (hd Down (nets s)); cbn; try done. by destruct (srv_duress s).
Qed.

(** The duress half of a failure leaves the lockout alone. *)
Lemma recordFailed_lockout s now uuid :
  lockout (recordFailedLoginAttempt s now uuid).1 = lockout (record_lockout s now).
Proof.
  unfold recordFailedLoginAttempt. cbv zeta. rewrite <- (getDuress_lockout (record_lockout s now) uuid).
  destruct (getDuressModeConfigFull _ uuid) as [s' d]. destruct (armed d); cbn [negb fst]; [by rewrite saveDuress_lockout|done].
Qed.

Lemma fail_at_snoc uuid s ts t :
  lockout (fail_at uuid s (ts ++ [t])) = lockout (record_lockout (fail_at uuid s ts) t).
Proof. unfold fail_at. by rewrite fold_left_app, <- (recordFailed_lockout _ t uuid). Qed.

(** The counter after failures at the times [ts], last one at [last]. *)
Lemma fail_at_config uuid s c ts :
  lockout s = Some c → l_enabled c = true → attemptsMade c = 0 → lockedUntil c = None →
  ∃ u, lockout (fail_at uuid s ts) =
      Some (mkLockout true (l_maxAttempts c) (lockoutDurationMins c) (len ts) u) ∧
    (ts ≠ [] → l_maxAttempts c <= len ts →
       ∃ t, last ts = Some t ∧ u = Some (t + lockoutDurationMins c * 60000)) ∧
    (len ts < l_maxAttempts c → u = None).
Proof.
  intros Hc He Hm Hu. induction ts as [|t ts IH] using rev_ind.
  - exists None. split; [|split; done]. cbn. rewrite Hc. destruct c; simpl in *; by subst.
  - destruct IH as (u & Hs & _ & Hlt). rewrite fail_at_snoc. unfold record_lockout, getLockoutConfig.
    rewrite Hs. cbn [default from_option id l_enabled l_maxAttempts lockoutDurationMins attemptsMade lockedUntil].
    rewrite len_app. change (len [t]) with 1. eexists. split; [done|]. rewrite Z.geb_leb. split.
    + intros _ Hge. exists t. rewrite last_snoc. split; [done|]. by rewrite (proj2 (Z.leb_le _ _)) by lia.
    + intros Hl. rewrite (proj2 (Z.leb_gt _ _)) by lia. apply Hlt. lia.
Qed.

(** ** Duress *)

(** [n] failed logins without a server session; the verdicts in order. *)
Fixpoint failures (n : nat) (s : store) (now : Z) (uuid : jsstr) : store * list bool :=
  match n with
  | O => (s, [])
  | S m => let '(s, b) := recordFailedLoginAttempt s now uuid in
           let '(s, bs) := failures m s now uuid in (s, b :: bs)
  end.

Lemma record_lockout_frame s now :
  duress (record_lockout s now) = duress s ∧ s_session (record_lockout s now) = s_session s ∧
  srv_duress (record_lockout s now) = srv_duress s ∧ nets (record_lockout s now) = nets s.
Proof. unfold record_lockout. by destruct (l_enabled _). Qed.

Lemma record_local s now uuid d :
  s_session s = false → duress s = Some d → armed d = true →
  let rem := Z.max 0 (attemptsRemaining d - 1) in
  ∃ s', recordFailedLoginAttempt s now uuid = (s', rem =? 0) ∧ s_session s' = false ∧
    duress s' = Some (mkDuress true (passwordHash d) (maxAttempts d) rem (salt d)).
Proof.
  intros Hs Hd Ha. destruct (record_lockout_frame s now) as (Ed & Es & _ & _).
  unfold recordFailedLoginAttempt, getDuressModeConfigFull. rewrite Es, Hs.
  unfold local_duress. rewrite Ed, Hd. cbn [default from_option id]. rewrite Ha. cbn [negb].
  eexists. split; [done|]. unfold saveDuressModeConfig. cbn [s_session set_duress]. rewrite Es, Hs.
  cbn [s_session set_duress duress]. by rewrite Es, Hs.
Qed.

Lemma failures_local n s now uuid d :
  s_session s = false → duress s = Some d → armed d = true → 0 <= attemptsRemaining d →
  (failures n s now uuid).2 = map (λ i, attemptsRemaining d <=? Z.of_nat i) (seq 1 n).
Proof.
  revert s d. induction n as [|n IH]; intros s d Hs Hd Ha Hr; [done|]. cbn [failures].
  destruct (record_local s now uuid d Hs Hd Ha) as (s' & -> & Hs' & Hd').
  pose proof (IH s' _ Hs' Hd' eq_refl) as IH'. cbn [attemptsRemaining] in IH'.
  destruct (failures n s' now uuid) as [s2 bs]. cbn [snd] in *. rewrite IH' by lia. cbn [seq map]. f_equal.
  - destruct (Z.eqb_spec (Z.max 0 (attemptsRemaining d - 1)) 0), (Z.leb_spec (attemptsRemaining d) (Z.of_nat 1)); lia.
  - rewrite <- (seq_shift n 1), map_map. apply map_ext. intros i.
    destruct (Z.leb_spec (Z.max 0 (attemptsRemaining d - 1)) (Z.of_nat i)),
      (Z.leb_spec (attemptsRemaining d) (Z.of_nat (S i))); lia.
Qed.

(** ** The stored hash *)

Lemma hex_no_dollar s : Forall (λ c, is_hex c = true) s → 36 ∉ s.
Proof. intros H Hin. rewrite Forall_forall in H. by apply H in Hin. Qed.

(** The parts of a stored hash, joined by dollars. *)
Lemma split_phc a b :
  36 ∉ a → 36 ∉ b →
  split_unit 36 (phc_string a b) = [[]; js "argon2id"; js "v=19"; js "m=262144,t=3,p=1"; a; b].
Proof.
  intros Ha Hb.
  assert (E : phc_string a b = join_unit [36] [[]; js "argon2id"; js "v=19"; js "m=262144,t=3,p=1"; a; b]) by done.
  rewrite E. apply split_join_unit; [done|].
  assert (Hlit : ∀ l : jsstr, has_unit 36 l = false → 36 ∉ l) by (intros l; apply has_unit_false).
  repeat (apply Forall_cons_2; [first [assumption | apply Hlit; reflexivity]|]). by apply Forall_nil_2.
Qed.

Lemma phc_matches_spec `{Argon2} pw entered saltBytes :
  Bytes saltBytes → (∀ p s m t q, Bytes (argon2 p s m t q)) →
  phc_matches (phc_string (bytesToHex saltBytes) (bytesToHex (argon2 (utf8_encode pw) saltBytes (256 * 1024) 3 1))) entered = true
  ↔ argon2 (utf8_encode entered) saltBytes (256 * 1024) 3 1 = argon2 (utf8_encode pw) saltBytes (256 * 1024) 3 1.
Proof.
  intros Hs HB. unfold phc_matches. rewrite split_phc by (apply hex_no_dollar, bytesToHex_hex; auto).
  cbn [nth]. change (len [_; _; _; _; _; _] <? 6) with false. cbn iota.
  change (match_param 109 (js "m=262144,t=3,p=1")) with (Some 262144).
  change (match_param 116 (js "m=262144,t=3,p=1")) with (Some 3).
  change (match_param 112 (js "m=262144,t=3,p=1")) with (Some 1). cbn [default from_option id].
  rewrite hex_roundtrip by done. rewrite timingSafeEqual_hex by (apply bytesToHex_hex; apply HB).
  split; [|by intros <-]. intros Heq. apply (f_equal hexToBytes) in Heq. by rewrite !hex_roundtrip in Heq by apply HB.
Qed.

(** ** Travel *)

Lemma filter_split_perm {A} (P : A → bool) l : List.filter (λ x, negb (P x)) l ++ List.filter P l ≡ₚ l.
Proof.
  induction l as [|x l IH]; [done|]. simpl. destruct (P x); simpl.
  - by rewrite <- Permutation_middle, IH.
  - by rewrite IH.
Qed.

Lemma request_ignoring_frame s f :
  (∀ s, travel_vault (f s) = travel_vault s) → (∀ s, travel (f s) = travel s) → (∀ s, s_session (f s) = s_session s) →
  travel_vault (request_ignoring s f) = travel_vault s ∧ travel (request_ignoring s f) = travel s ∧
  s_session (request_ignoring s f) = s_session s.
Proof.
  intros H1 H2 H3. unfold request_ignoring, request. destruct (hd Down (nets s)); cbn; rewrite ?H1, ?H2, ?H3; done.
Qed.

(** ** More on the duress counter *)

(** The local slot after a save, whatever the server answers. *)
Lemma saveDuress_duress s c :
  duress (saveDuressModeConfig s c) = Some c ∧ sentinel (saveDuressModeConfig s c) = Some (sentinel_of c) ∧
  s_session (saveDuressModeConfig s c) = s_session s.
Proof.
  unfold saveDuressModeConfig, request_ignoring, request. cbn. destruct (s_session s) eqn:E; cbn; [|by rewrite E].
  destruct (hd Down (nets s)); cbn; by rewrite E.
Qed.

(** A failure whose read of the server copy succeeds and whose write fails. *)
Lemma record_stuck s now uuid d rest o :
  s_session s = true → srv_duress s = Some d → armed d = true → nets s = Online :: o :: rest → o ≠ Online →
  ∃ s', recordFailedLoginAttempt s now uuid = (s', Z.max 0 (attemptsRemaining d - 1) =? 0) ∧
    s_session s' = true ∧ srv_duress s' = Some d ∧ nets s' = rest.
Proof.
  intros Hs Hd Ha Hn Ho. destruct (record_lockout_frame s now) as (_ & Es & Ed & En).
  unfold recordFailedLoginAttempt, getDuressModeConfigFull, request. rewrite Es, Hs, En, Hn. cbn [hd tl set_nets srv_duress].
  rewrite Ed, Hd. rewrite Ha. cbn [negb]. eexists. split; [done|].
  unfold saveDuressModeConfig, request_ignoring, request. cbn [s_session set_duress set_nets]. rewrite Es, Hs.
  cbn [nets set_duress set_nets hd tl]. destruct o; [done|..]; cbn; rewrite ?Es, ?Ed, ?Hs, ?Hd; done.
Qed.

(** Answers to [n] failures: each read succeeds, each write fails. *)
Definition read_only_server (n : nat) (o : net) : list net := concat (replicate n [Online; o]).

Lemma failures_stuck n s now uuid d o :
  s_session s = true → srv_duress s = Some d → armed d = true → nets s = read_only_server n o → o ≠ Online →
  (failures n s now uuid).2 = replicate n (Z.max 0 (attemptsRemaining d - 1) =? 0).
Proof.
  revert s. induction n as [|n IH]; intros s Hs Hd Ha Hn Ho; [done|]. cbn [failures replicate].
  destruct (record_stuck s now uuid d (read_only_server n o) o Hs Hd Ha Hn Ho) as (s' & -> & Hs' & Hd' & Hn').
  pose proof (IH s' Hs' Hd' Ha Hn' Ho) as IH'. destruct (failures n s' now uuid) as [s2 bs]. cbn [snd] in *. by rewrite IH'.
Qed.

(** ** Arming *)

(** The server answers everything it is asked while the mode is armed and the
    password checked, or there is no session. *)
Definition answered (s : store) : Prop :=
  s_session s = false ∨ ∃ rest, nets s = Online :: Online :: Online :: rest ∧ s_csrf s = true.

(** The configuration the next read returns after arming. *)
Lemma arm_then_read `{Argon2} s saltBytes pw max uuid :
  answered s →
  let a := armDuressMode s saltBytes pw max in
  a.2 = Ok tt ∧
  (getDuressModeConfigFull a.1 uuid).2 =
    mkDuress true (Some (phc_string (bytesToHex saltBytes) (bytesToHex (argon2 (utf8_encode pw) saltBytes (256 * 1024) 3 1))))
      max max (bytesToHex saltBytes).
Proof.
  intros Ha. cbv zeta. unfold armDuressMode, saveDuressModeConfig, syncDuressEnforce, getDuressModeConfigFull, request_ignoring, request.
  generalize (phc_string (bytesToHex saltBytes) (bytesToHex (argon2 (utf8_encode pw) saltBytes (256 * 1024) 3 1))) as phc. intros phc.
  destruct Ha as [Hs|(rest & Hn & Hc)].
  - cbn. rewrite !Hs. cbn. rewrite !Hs. cbn. by rewrite Hs.
  - destruct (s_session s) eqn:Hs; cbn; rewrite ?Hs; cbn; rewrite ?Hn; cbn; rewrite ?Hs; cbn; rewrite ?Hc; cbn; rewrite ?Hs; by cbn.
Qed.

(** ** Travel mode, step by step *)

Class TravelLaws `{TravelCrypto} := {
  unseal_seal : ∀ k iv p, unseal k iv (seal k iv p) = Some p;
  seal_bytes : ∀ k iv p, Bytes (seal k iv p);
  hash_bytes : ∀ p s, Bytes (pbkdf2_bits p s);
  hash_length : ∀ p s, length (pbkdf2_bits p s) = 32%nat;
}.

Lemma hashPassword_cons `{TravelLaws} p s : ∃ c h, hashPassword p s = c :: h.
Proof.
  unfold hashPassword. pose proof (hash_length (utf8_encode p) (salt_bytes s)) as Hl.
  destruct (pbkdf2_bits _ _) as [|b l]; [done|]. by eexists _, _.
Qed.

Lemma hashPassword_hex `{TravelLaws} p s : Forall (λ c, is_hex c = true) (hashPassword p s).
Proof. apply bytesToHex_hex, hash_bytes. Qed.

(** What [enableTravelMode] leaves behind. *)
Lemma enable_effect `{TravelCrypto} s salt iv pw ids cs fs :
  let s' := (enableTravelMode s salt iv pw ids cs fs).1 in
  let cfg := mkTravelCfg true (Some (hashPassword pw salt)) ids salt (bytesToHex iv) (Some 2) in
  travel s' = Some (Plain cfg) ∧ s_session s' = s_session s ∧
  travel_vault s' = Some (mkEnvelope (bytesToHex iv) (bytesToHex (seal (deriveTravelKeyBytes pw salt 2) iv
    (List.filter (λ c, is_hidden ids (c_folderId c)) cs, List.filter (λ f, is_hidden ids (f_id f)) fs)))) ∧
  (s_session s = true → nets s' = drop 2 (nets s)) ∧
  (s_session s = true → nth 1 (nets s) Down = Online → srv_travel s' = Some cfg).
Proof.
  cbv zeta. unfold enableTravelMode, saveTravelModeConfig, request_ignoring, request. cbn [fst s_session set_travel_vault].
  destruct s as [[] csrf lo du sn sd se tr st tv stv ns]; [|done].
  destruct ns as [|[| |] [|[| |] rest]]; cbn; by split_and!.
Qed.

(** What the read of the configuration leaves alone. *)
Lemma getTravelAsync_frame s uuid :
  let s' := (getTravelModeConfigAsync s uuid).1 in
  travel_vault s' = travel_vault s ∧ srv_travel_vault s' = srv_travel_vault s ∧ srv_travel s' = srv_travel s ∧
  s_session s' = s_session s ∧ (s_session s = true → nets s' = tl (nets s)).
Proof.
  assert (Hloc : ∀ s uuid, travel_vault (travel_local s uuid).1 = travel_vault s ∧
    srv_travel_vault (travel_local s uuid).1 = srv_travel_vault s ∧ srv_travel (travel_local s uuid).1 = srv_travel s ∧
    s_session (travel_local s uuid).1 = s_session s ∧ nets (travel_local s uuid).1 = nets s).
  { intros s0 u. unfold travel_local. destruct (_ || _); [done|]. by destruct (travel s0) as [[]|]. }
  cbv zeta. unfold getTravelModeConfigAsync, request. destruct (s_session s) eqn:Hs.
  - destruct (hd Down (nets s)); [destruct (srv_travel s) eqn:Es; cbn; by rewrite ?Hs, ?Es|..];
      destruct (Hloc (set_nets s (tl (nets s))) uuid) as (-> & -> & -> & -> & ->); by cbn.
  - destruct (Hloc s uuid) as (-> & -> & -> & -> & ->). by rewrite Hs.
Qed.

(** An active plain configuration is what the read returns, when the server is
    not reached or agrees. *)
Lemma getTravelAsync_active s uuid cfg :
  travel s = Some (Plain cfg) → t_active cfg = true →
  s_session s = false ∨ hd Down (nets s) ≠ Online ∨ srv_travel s = Some cfg →
  (getTravelModeConfigAsync s uuid).2 = cfg.
Proof.
  intros Ht Ha Hok. unfold getTravelModeConfigAsync, request.
  assert (Hl : ∀ s, travel s = Some (Plain cfg) → (travel_local s uuid).2 = cfg).
  { intros s0 H0. unfold travel_local, getTravelModeConfig. by rewrite H0, Ha. }
  destruct (s_session s) eqn:Hs; [|by apply Hl].
  destruct (hd Down (nets s)) eqn:Hh; [|by apply Hl..].
  destruct Hok as [?|[?|Hsrv]]; [done|done|]. cbn. by rewrite Hsrv.
Qed.

(** A match of the password on an active configuration. *)
Lemma disable_matching `{TravelLaws} s uuid uuid2 pw cs fs :
  let cfg := (getTravelModeConfigAsync s uuid).2 in
  let s1 := (getTravelModeConfigAsync s uuid).1 in
  t_active cfg = true → t_passwordHash cfg = Some (hashPassword pw (t_salt cfg)) →
  (disableTravelMode s uuid uuid2 pw cs fs).2 =
    match (match (find_envelope s1).2 with
           | None => Some ([], [])
           | Some e => open_envelope (deriveTravelKeyBytes pw (t_salt cfg) (kdf_or_1 (kdf_version cfg))) e
           end) with
    | None => (false, [], [])
    | Some (hc, hf) => (true, cs ++ hc, fs ++ hf)
    end.
Proof.
  cbv zeta. unfold disableTravelMode. destruct (getTravelModeConfigAsync s uuid) as [s1 cfg]. cbn [fst snd].
  intros Ha Hp. rewrite Hp, Ha. destruct (hashPassword_cons pw (t_salt cfg)) as (c & h & E). rewrite E. cbn [negb].
  rewrite <- E, (proj2 (timingSafeEqual_hex _ _ (hashPassword_hex _ _) (hashPassword_hex _ _)) eq_refl). cbn [negb].
  destruct (find_envelope s1) as [s2 [e|]]; cbn [snd]; [|done].
  by destruct (open_envelope _ _) as [[hc hf]|].
Qed.

(** ** Sample stores *)

Definition demo_duress : DuressModeConfig := mkDuress true None 5 3 [].
Definition demo_store : store :=
  mkStore false true (Some default_lockout) (Some demo_duress) None None None None None None None [].
Definition demo_session (ns : list net) : store :=
  mkStore true true (Some default_lockout) None None (Some demo_duress) None None None None None ns.

(** A toy hash: the password, salt and parameters reduced to one byte. *)
Definition demo_argon2 : Argon2 := {| argon2 p s m t q := replicate 32 (foldr Z.add (m + t + q) (p ++ s) mod 256) |}.
Lemma demo_argon2_bytes p s m t q : Bytes (@argon2 demo_argon2 p s m t q).
Proof. apply Forall_replicate. unfold is_byte. lia. Qed.

(** A toy cipher: the bits of the pair's number, one per byte. *)
Definition demo_travel : TravelCrypto := {|
  tc_argon2 := demo_argon2;
  tc_hash := {| pbkdf2_bits p s := replicate 32 (foldr Z.add 0 (p ++ s) mod 256) |};
  pbkdf2_sha256 p s n := replicate 32 ((n + foldr Z.add 0 (p ++ s)) mod 256);
  subtleAvailable := true;
  seal _ _ p := pos_bits (encode p);
  unseal _ _ c := decode (bits_pos c) |}.
#[export] Instance demo_travel_laws : @TravelLaws demo_travel.
Proof.
  split; cbn [unseal seal pbkdf2_bits tc_hash demo_travel]; intros.
  - by rewrite bits_pos_bits, decode_encode.
  - apply pos_bits_bytes.
  - apply Forall_replicate. unfold is_byte. lia.
  - apply length_replicate.
Qed.

Definition demo_cred (n : Z) (folder : jsstr) : Credential :=
  basic_credential (IdNumber n) (js "s") [] [] None [] [] [] folder None None None None.
Definition demo_folder (i : jsstr) : Folder := mkFolder i (js "f") None None None.
Definition demo_creds : list Credential := [demo_cred 1 (js "a"); demo_cred 2 (js "b"); demo_cred 3 (js "a")].
Definition demo_folders : list Folder := [demo_folder (js "a"); demo_folder (js "b")].
Definition demo_travel_cfg : TravelModeConfig :=
  mkTravelCfg true (Some (@hashPassword (@tc_hash demo_travel) (js "pw") (js "salt"))) [js "a"] (js "salt") [] (Some 2).
(** A session whose browser data was cleared. *)
Definition demo_cleared (e : envelope) (ns : list net) : store :=
  mkStore true true None None None None None None (Some demo_travel_cfg) None (Some e) ns.

Module ModesSpec.

(** Failures lock the login out exactly when there are at least
    [maxAttempts] of them, and until the configured number of minutes after the
    last one; the minutes reported as left are between 1 and that number. *)
Theorem lockout_threshold uuid s c ts t now :
  lockout s = Some c → l_enabled c = true → attemptsMade c = 0 → lockedUntil c = None →
  last ts = Some t → 0 < t <= now → 0 < lockoutDurationMins c →
  let r := checkIsLockedOut (fail_at uuid s ts) now in
  (r.1 = true ↔ l_maxAttempts c <= len ts ∧ now < t + lockoutDurationMins c * 60000) ∧
  (r.1 = true → 1 <= r.2 <= lockoutDurationMins c).
Proof.
  intros Hc He Hm Hu Hlast Ht Hd.
  destruct (fail_at_config uuid s c ts Hc He Hm Hu) as (u & Hs & Hge & Hlt).
  assert (Hne : ts ≠ []) by (intros ->; done).
  unfold checkIsLockedOut, getLockoutConfig. rewrite Hs.
  cbn [default from_option id l_enabled l_maxAttempts lockoutDurationMins attemptsMade lockedUntil]. cbv zeta.
  destruct (Z.lt_ge_cases (len ts) (l_maxAttempts c)) as [Hl|Hl].
  - rewrite Hlt by done. cbn. split; [|done]. split; [done|lia].
  - destruct (Hge Hne Hl) as (t' & Ht' & ->). rewrite Hlast in Ht'. injection Ht' as <-.
    rewrite (proj2 (Z.eqb_neq _ 0)) by lia. cbn [negb orb]. rewrite Z.geb_leb.
    destruct (Z.leb_spec (t + lockoutDurationMins c * 60000) now); cbn [fst snd]; (split; [split; [done || lia|]|]); try done; lia.
Qed.

Lemma lockout_threshold_witness :
  (checkIsLockedOut (fail_at [] demo_store [1000; 2000; 3000]) 4000).1 = true.
Proof.
  apply (lockout_threshold [] demo_store default_lockout [1000; 2000; 3000] 3000 4000); try done.
Defined.

(** After a successful login nothing is locked at any time, and if a duress
    configuration is armed its counter is back at [maxAttempts]. *)
Theorem login_success_resets s uuid :
  let d := (getDuressModeConfigFull s uuid).2 in
  let s' := resetLoginAttempts s uuid in
  (∀ now, checkIsLockedOut s' now = (false, 0)) ∧
  (armed d = true → ∃ d', duress s' = Some d' ∧ armed d' = true ∧ passwordHash d' = passwordHash d ∧
                          attemptsRemaining d' = maxAttempts d).
Proof.
  cbv zeta. unfold resetLoginAttempts. destruct (getDuressModeConfigFull s uuid) as [s1 d]. cbn [snd]. split.
  - intros now. unfold checkIsLockedOut, getLockoutConfig. by cbn.
  - intros Ha. rewrite Ha. cbn [duress saveLockoutConfig set_lockout]. eexists. rewrite (proj1 (saveDuress_duress _ _)).
    by split_and!.
Qed.

(** Without a server session, an armed duress configuration with [r]
    attempts left asks for the wipe at the [r]-th failed login and not before. *)
Theorem duress_countdown n s now uuid d i :
  s_session s = false → duress s = Some d → armed d = true → 0 <= attemptsRemaining d → 1 <= Z.of_nat i <= Z.of_nat n →
  (failures n s now uuid).2 !! (i - 1)%nat = Some (attemptsRemaining d <=? Z.of_nat i).
Proof.
  intros Hs Hd Ha Hr Hi. rewrite (failures_local n s now uuid d) by done.
  rewrite list_lookup_fmap, lookup_seq_lt by lia. simpl. do 3 f_equal. lia.
Qed.

Lemma duress_countdown_witness :
  (failures 5 demo_store 0 []).2 !! 2%nat = Some true ∧ (failures 5 demo_store 0 []).2 !! 1%nat = Some false.
Proof.
  split; [apply (duress_countdown 5 demo_store 0 [] demo_duress 3)|apply (duress_countdown 5 demo_store 0 [] demo_duress 2)]; try done; lia.
Defined.

(** With a server session, while the server's copy can be read but not
    written, the counter never goes down: with two or more attempts left on the
    server no number of failed logins asks for the wipe. *)
Theorem duress_counter_stuck n s now uuid d o :
  s_session s = true → srv_duress s = Some d → armed d = true → 2 <= attemptsRemaining d →
  nets s = read_only_server n o → o ≠ Online →
  (failures n s now uuid).2 = replicate n false.
Proof.
  intros Hs Hd Ha Hr Hn Ho. rewrite (failures_stuck n s now uuid d o) by done. f_equal. apply Z.eqb_neq. lia.
Qed.

Lemma duress_counter_stuck_witness :
  (failures 100 (demo_session (read_only_server 100 (Status 503))) 0 []).2 = replicate 100 false.
Proof.
  apply (duress_counter_stuck 100 (demo_session (read_only_server 100 (Status 503))) 0 [] demo_duress (Status 503)); try done; lia.
Defined.

(** After arming succeeds, the duress check accepts exactly the passwords
    whose Argon2id hash under the stored salt and parameters is that of the
    duress password. *)
Theorem duress_password_check `{Argon2} s saltBytes pw max uuid entered :
  answered s → Bytes saltBytes → (∀ p s m t q, Bytes (argon2 p s m t q)) →
  let a := armDuressMode s saltBytes pw max in
  a.2 = Ok tt ∧
  ((checkIsDuressPassword a.1 uuid entered).2 = true ↔
     argon2 (utf8_encode entered) saltBytes (256 * 1024) 3 1 = argon2 (utf8_encode pw) saltBytes (256 * 1024) 3 1).
Proof.
  intros Ha Hs HB. cbv zeta. destruct (arm_then_read s saltBytes pw max uuid Ha) as [Hok Hread].
  split; [done|]. unfold checkIsDuressPassword. destruct (getDuressModeConfigFull _ uuid) as [s' cfg]. cbn [snd] in Hread.
  subst cfg. cbn [passwordHash armed]. rewrite <- phc_matches_spec by done. done.
Qed.

Lemma duress_password_check_witness :
  let a := @armDuressMode demo_argon2 (demo_session [Online; Online; Online]) (seqZ 0 16) (js "run") 5 in
  (@checkIsDuressPassword demo_argon2 a.1 [] (js "run")).2 = true.
Proof.
  apply (@duress_password_check demo_argon2 (demo_session [Online; Online; Online]) (seqZ 0 16) (js "run") 5 [] (js "run"));
    [right; by eexists|by apply (bool_decide_unpack _); vm_compute|intros p s m t q; by apply demo_argon2_bytes|done].
Defined.

(** Turning travel mode off with the password it was turned on with gives
    the vault back: every credential and folder is returned once, the visible
    ones first; without a session, or unless the write of the configuration to
    the server failed and its read then succeeds. *)
Theorem travel_roundtrip `{TravelLaws} s salt iv pw ids cs fs uuid uuid2 :
  Bytes iv →
  s_session s = false ∨ nth 1 (nets s) Down = Online ∨ nth 2 (nets s) Down ≠ Online →
  let '(s1, (vc, vf)) := enableTravelMode s salt iv pw ids cs fs in
  let '(ok, cs', fs') := (disableTravelMode s1 uuid uuid2 pw vc vf).2 in
  ok = true ∧ cs' ≡ₚ cs ∧ fs' ≡ₚ fs ∧ vc `prefix_of` cs' ∧ vf `prefix_of` fs'.
Proof.
  intros Hiv Hnet. destruct (enable_effect s salt iv pw ids cs fs) as (Ht & Hs & Hv & Hn & Hsrv).
  destruct (enableTravelMode s salt iv pw ids cs fs) as [s1 [vc vf]] eqn:E. cbn [fst] in *.
  injection E as _ <- <-. set (cfg := mkTravelCfg _ _ _ _ _ _) in *.
  assert (Hcfg : (getTravelModeConfigAsync s1 uuid).2 = cfg).
  { apply getTravelAsync_active; [done|done|]. rewrite Hs. destruct (s_session s); [|by left]. right.
    destruct Hnet as [?|[?|Hd]]; [done|right; auto|left]. rewrite Hn by done. destruct (nets s) as [|? [|? [|? ?]]]; done. }
  pose proof (getTravelAsync_frame s1 uuid) as (Hv' & _). cbv zeta in Hv'.
  rewrite disable_matching by (rewrite Hcfg; done). rewrite Hcfg. unfold find_envelope. rewrite Hv', Hv. cbn [snd].
  unfold open_envelope. cbn [e_iv e_ct kdf_version cfg kdf_or_1 t_salt]. change (kdf_or_1 (Some 2)) with 2.
  rewrite !hex_roundtrip by (done || apply seal_bytes). rewrite unseal_seal.
  split_and!; [done|apply (filter_split_perm (λ c, is_hidden ids (c_folderId c)))
    |apply (filter_split_perm (λ f, is_hidden ids (f_id f)))|by apply prefix_app_r|by apply prefix_app_r].
Qed.

Lemma travel_roundtrip_witness :
  let '(s1, (vc, vf)) := @enableTravelMode demo_travel (demo_session []) (js "u") (seqZ 0 12) (js "pw") [js "a"] demo_creds demo_folders in
  let '(ok, cs', fs') := (@disableTravelMode demo_travel s1 [] [] (js "pw") vc vf).2 in
  ok = true ∧ cs' ≡ₚ demo_creds ∧ fs' ≡ₚ demo_folders ∧ vc `prefix_of` cs' ∧ vf `prefix_of` fs'.
Proof.
  apply (@travel_roundtrip demo_travel demo_travel_laws (demo_session []) (js "u") (seqZ 0 12) (js "pw") [js "a"] demo_creds demo_folders [] []);
    [by apply (bool_decide_unpack _); vm_compute|right; right; done].
Defined.

(** A wrong travel password is refused and leaves both copies of the hidden
    vault, and the server's configuration, as they were. *)
Theorem travel_wrong_password `{TravelLaws} s uuid uuid2 pw cs fs :
  let cfg := (getTravelModeConfigAsync s uuid).2 in
  (∀ h, t_passwordHash cfg = Some h → Forall (λ c, is_hex c = true) h ∧ h ≠ hashPassword pw (t_salt cfg)) →
  let '(s', r) := disableTravelMode s uuid uuid2 pw cs fs in
  r = (false, [], []) ∧ travel_vault s' = travel_vault s ∧ srv_travel_vault s' = srv_travel_vault s ∧
  srv_travel s' = srv_travel s.
Proof.
  cbv zeta. intros Hw. pose proof (getTravelAsync_frame s uuid) as Hf. cbv zeta in Hf. unfold disableTravelMode.
  destruct (getTravelModeConfigAsync s uuid) as [s1 cfg]. cbn [fst snd] in *. destruct Hf as (H1 & H2 & H3 & _).
  destruct (t_passwordHash cfg) as [[|c h]|] eqn:Ep; [by split_and!| |by split_and!].
  destruct (Hw _ eq_refl) as [Hh Hne]. destruct (t_active cfg); cbn [negb]; [|by split_and!].
  destruct (timingSafeEqual _ _) eqn:Et; cbn [negb]; [|by split_and!].
  apply timingSafeEqual_hex in Et; [|apply hashPassword_hex|done]. by rewrite Et in Hne.
Qed.

Lemma travel_wrong_password_witness :
  let '(s', r) := @disableTravelMode demo_travel (demo_cleared (mkEnvelope [] []) [Online]) [] [] (js "guess") [] [] in
  r = (false, [], []) ∧ travel_vault s' = None ∧ srv_travel_vault s' = Some (mkEnvelope [] []) ∧
  srv_travel s' = Some demo_travel_cfg.
Proof.
  apply (@travel_wrong_password demo_travel demo_travel_laws (demo_cleared (mkEnvelope [] []) [Online]) [] [] (js "guess") [] []).
  intros h Hh. change (Some (@hashPassword (@tc_hash demo_travel) (js "pw") (js "salt")) = Some h) in Hh. injection Hh as <-.
  split; [apply (@hashPassword_hex demo_travel demo_travel_laws)|intros Hc; vm_compute in Hc; discriminate Hc].
Defined.

(** With no local copy of the hidden vault and a failing read of the
    server's copy, turning travel mode off with the right password reports
    success, returns only the visible vault, and deletes the server's copy. *)
Theorem travel_disable_data_loss `{TravelLaws} s uuid uuid2 pw cs fs cfg o rest :
  s_session s = true → travel_vault s = None → srv_travel s = Some cfg →
  nets s = Online :: o :: Online :: rest → o ≠ Online →
  t_active cfg = true → t_passwordHash cfg = Some (hashPassword pw (t_salt cfg)) →
  let '(s', r) := disableTravelMode s uuid uuid2 pw cs fs in
  r = (true, cs, fs) ∧ srv_travel_vault s' = None ∧ travel_vault s' = None.
Proof.
  intros Hs Hv Hc Hn Ho Ha Hp. destruct s as [ss csrf lo du sn sd se tr st tv stv ns]. cbn in Hs, Hv, Hc, Hn. subst.
  unfold disableTravelMode. cbn [getTravelModeConfigAsync s_session request nets hd tl set_nets srv_travel set_travel].
  rewrite Hp, Ha. destruct (hashPassword_cons pw (t_salt cfg)) as (c & h & E). rewrite E. cbn [negb].
  rewrite <- E, (proj2 (timingSafeEqual_hex _ _ (hashPassword_hex _ _) (hashPassword_hex _ _)) eq_refl). cbn [negb].
  destruct o; [done|..]; (destruct rest as [|[| |] [|[| |] rest]]; cbn; by rewrite !app_nil_r).
Qed.

Lemma travel_disable_data_loss_witness :
  let '(s', r) := @disableTravelMode demo_travel (demo_cleared (mkEnvelope [] []) [Online; Status 503; Online]) [] [] (js "pw")
    [demo_cred 2 (js "b")] [demo_folder (js "b")] in
  r = (true, [demo_cred 2 (js "b")], [demo_folder (js "b")]) ∧ srv_travel_vault s' = None ∧ travel_vault s' = None.
Proof.
  apply (@travel_disable_data_loss demo_travel demo_travel_laws (demo_cleared (mkEnvelope [] []) [Online; Status 503; Online]) [] [] (js "pw")
    [demo_cred 2 (js "b")] [demo_folder (js "b")] demo_travel_cfg (Status 503) []); done.
Defined.

End ModesSpec.
