(* ===== verification/LoginPage.v ===== *)
(** * The login page ([web/src/pages/Login.tsx], [wipeVaultData] of
      [web/src/utils/securityModes.ts])

    The page asks for the e-mail address, then for the password, then possibly for a
    code.  [LoginPage] is its state, [Browser] what it shares with the rest of the
    client: the keys of the tab, the salts in [localStorage], the lockout and duress
    configuration, the cache of the MFA configuration.  A handler reads the state of
    the rendering it was created in, so it is a function of that state.  Answers of
    daemon and server, the clock and random values are arguments; work that the page
    starts and does not wait for is returned as a list of tasks. *)
From S2P Require Import Prelude JsRuntime JsText Base64 CryptoUtils Mfa MfaSetup Keystore VaultSync SecurityModes.

(** ** State *)

Inductive Step := StepEmail | StepMethod | StepTotp.
Inductive MfaMethod := ByTotp | ByEmail.
Inductive LoginError :=
| AccountLocked | MfaLocked | RateLimited | ServiceUnavailable
| InvalidCredentials (attemptsRemaining : option Z).
Inductive CodeError := IncorrectCode | CodeServerError.

(** Where the browser is: on the page, in the vault, or on a fresh login page after a wipe. *)
Inductive Place := AtLogin | AtVault | Replaced.

Record LoginPage := mkLogin {
  lp_step : Step; lp_email : jsstr; lp_password : jsstr; lp_error : option LoginError; lp_loading : bool;
  lp_mfaMethod : MfaMethod; lp_daemonWasUnlocked : bool; lp_partialToken : option jsstr;
  lp_legacyLkSalt : option jsstr; lp_serverHasCryptoSalt : bool; lp_isServerAccount : bool;
  lp_hints : LoginHints; lp_code : list jsstr; lp_codeError : option CodeError; lp_at : Place }.

Definition login_page : LoginPage :=
  mkLogin StepEmail [] [] None false ByTotp false None None false false getLoginHints (empty_boxes 6) None AtLogin.

Record Browser := mkBrowser {
  b_tab : Keystore.tab; b_salts : salts; b_salt_legacy : option jsstr;
  b_modes : SecurityModes.store; b_mfa : option MfaConfig;
  b_pending : option PendingEmailOtp; b_used : periods }.

Definition set_tab (b : Browser) (t : Keystore.tab) : Browser :=
  mkBrowser t (b_salts b) (b_salt_legacy b) (b_modes b) (b_mfa b) (b_pending b) (b_used b).
Definition set_salts (b : Browser) (s : salts) (legacy : option jsstr) : Browser :=
  mkBrowser (b_tab b) s legacy (b_modes b) (b_mfa b) (b_pending b) (b_used b).
Definition set_modes (b : Browser) (m : SecurityModes.store) : Browser :=
  mkBrowser (b_tab b) (b_salts b) (b_salt_legacy b) m (b_mfa b) (b_pending b) (b_used b).
Definition set_mfa (b : Browser) (m : option MfaConfig) : Browser :=
  mkBrowser (b_tab b) (b_salts b) (b_salt_legacy b) (b_modes b) m (b_pending b) (b_used b).
Definition set_otp (b : Browser) (p : option PendingEmailOtp) (u : periods) : Browser :=
  mkBrowser (b_tab b) (b_salts b) (b_salt_legacy b) (b_modes b) (b_mfa b) p u.

(** The cookies of an answer: the session and its CSRF token. *)
Definition with_cookie (b : Browser) (set : bool) : Browser :=
  if set then
    let m := b_modes b in
    set_modes b (mkStore true true (lockout m) (duress m) (sentinel m) (srv_duress m) (srv_enforce m) (travel m)
                   (srv_travel m) (travel_vault m) (srv_travel_vault m) (nets m))
  else b.

(** [a] when it is there and not empty. *)
Definition truthy_text (o : option jsstr) : option jsstr := match o with Some (c :: s) => Some (c :: s) | _ => None end.

(** ** Arriving on the page *)

(** The first effect: [keyStore.restoreAsync()], then the test for a usable session. *)
Definition mount (p : LoginPage) (b : Browser) : LoginPage * Browser :=
  let t := restoreAsync (b_tab b) in
  let k := mem t in
  let hasLocalKeys := bool_decide (is_Some (localKeyV1 k)) || bool_decide (is_Some (localKeyV2 k)) in
  let goes := bool_decide (is_Some (k_token k)) || (s_session (b_modes b) && hasLocalKeys) in
  (if goes then
     mkLogin (lp_step p) (lp_email p) (lp_password p) (lp_error p) (lp_loading p) (lp_mfaMethod p) (lp_daemonWasUnlocked p)
       (lp_partialToken p) (lp_legacyLkSalt p) (lp_serverHasCryptoSalt p) (lp_isServerAccount p) (lp_hints p) (lp_code p)
       (lp_codeError p) AtVault
   else p, set_tab b t).

(** ** The e-mail step *)

(** The hints of the daemon. *)
Record DaemonHints := mkDaemonHints { dh_password : bool; dh_totp : bool; dh_emailOtp : bool; dh_fido2 : list bytes }.

Definition hints_of_daemon (d : DaemonHints) : LoginHints :=
  let keys := 0 <? len (dh_fido2 d) in
  mkHints (dh_totp d) (dh_emailOtp d) (dh_password d) keys (negb (dh_password d) && keys).

(** [hints && hints.cryptoSalt]: the salts as the page leaves them, the salt it replaces
    and whether the server has one. *)
Definition take_crypto_salt (p : LoginPage) (b : Browser) (sh : option (LoginHints * option jsstr))
    : Browser * option jsstr * bool :=
  match sh with
  | None => (b, lp_legacyLkSalt p, lp_serverHasCryptoSalt p)
  | Some (_, cryptoSalt) =>
      match truthy_text cryptoSalt with
      | None => (b, lp_legacyLkSalt p, false)
      | Some cs =>
          let legacy := match truthy_text (lk_salt (b_salts b)) with
                        | Some e => if str_eqb e cs then None else Some e
                        | None => None
                        end in
          (set_salts b (mkSalts (Some cs) (Some cs)) (b_salt_legacy b), legacy, true)
      end
  end.

(** The most secure method: keys need no channel, then TOTP, then e-mail. *)
Definition choose_method (m : MfaMethod) (h : option LoginHints) : MfaMethod :=
  match h with
  | Some h => if h_webauthn h || h_passwordlessEnabled h then m else if h_totp h then ByTotp
              else if h_emailOtp h then ByEmail else m
  | None => m
  end.

(** [dh]: the daemon's answer; [sh]: the server's hints for this e-mail with the salt. *)
Definition handleEmailContinue (dh : option DaemonHints) (sh : option (LoginHints * option jsstr)) (p : LoginPage) (b : Browser)
    : LoginPage * Browser :=
  if str_empty (trim (lp_email p)) then (p, b)
  else
    let hints := match sh with Some (h, _) => Some h | None => hints_of_daemon <$> dh end in
    let '(b, legacy, has) := take_crypto_salt p b sh in
    (mkLogin StepMethod (lp_email p) (lp_password p) None false (choose_method (lp_mfaMethod p) hints) (lp_daemonWasUnlocked p)
       (lp_partialToken p) legacy has (bool_decide (is_Some sh)) (default (lp_hints p) hints) (lp_code p)
       (lp_codeError p) (lp_at p), b).

(** ** Completing a login *)

(** [publishCryptoSaltIfNeeded]; [answer]: [data.cryptoSalt], [None] when the request fails. *)
Definition publishCryptoSaltIfNeeded (p : LoginPage) (answer : option (option jsstr)) (b : Browser) : Browser :=
  if lp_serverHasCryptoSalt p then b
  else match truthy_text (lk_salt (b_salts b)), answer with
  | Some _, Some cs =>
      match truthy_text cs with
      | Some cs => set_salts b (mkSalts (Some cs) (Some cs)) (b_salt_legacy b)
      | None => b
      end
  | _, _ => b
  end.

Definition set_place (p : LoginPage) (at_ : Place) : LoginPage :=
  mkLogin (lp_step p) (lp_email p) (lp_password p) (lp_error p) (lp_loading p) (lp_mfaMethod p) (lp_daemonWasUnlocked p)
    (lp_partialToken p) (lp_legacyLkSalt p) (lp_serverHasCryptoSalt p) (lp_isServerAccount p) (lp_hints p) (lp_code p)
    (lp_codeError p) at_.

(** [completeDaemonLogin] and [completeServerLogin]: what they leave, in their order. *)
Definition complete (p : LoginPage) (uuid : jsstr) (publish : option (option jsstr)) (b : Browser) : LoginPage * Browser :=
  (set_place p AtVault, publishCryptoSaltIfNeeded p publish (set_modes b (resetLoginAttempts (b_modes b) uuid))).

(** ** The wipe *)

(** [wipeVaultData(daemon)] without a password for the server: the daemon is told when
    the tab has a ticket; the stores of the browser are emptied. *)
Definition wipeVaultData (daemonConnected : bool) (b : Browser) : Browser * option (bytes * bytes) :=
  let told := if daemonConnected then wipeTicket (mem (b_tab b)) else None in
  let t := Keystore.clear (b_tab b) in
  let m := b_modes b in
  (mkBrowser (Keystore.mkTab (mem t) None (wrap t) (jobs t)) (mkSalts None None) None
     (mkStore (s_session m) (s_csrf m) None None None (srv_duress m) (srv_enforce m) None (srv_travel m) None
        (srv_travel_vault m) (nets m)) (b_mfa b) (b_pending b) (b_used b), told).

(** ** The password step *)

(** Work that is started and not awaited. *)
Inductive task := StoreLegacy (k : bytes) | BindV2 (master : bytes) (salt token : jsstr).

Section password.
Context `{KeyDerivation} `{Argon2}.

Definition run_task (k : task) (t : Keystore.tab) : Keystore.tab :=
  match k with
  | StoreLegacy key => storeLegacyKey (Some key) t
  | BindV2 master salt token =>
      let v2 := hkdfV2Bind master salt token in
      setV2Salt (hexToBytes salt) (storeSigningKey (sigKey v2) 2 (storeLocalKey (encKey v2) 2 t))
  end.

(** The answer of the server to [POST /api/auth/login]. *)
Record LoginAnswer := mkLoginAnswer {
  la_status : Z; la_ok : bool;                  (* [data.ok !== false] *)
  la_error : option jsstr; la_duressWipe : bool; la_duressRemaining : option Z;
  la_partialToken : option jsstr; la_methods : list jsstr;
  la_salt : option jsstr;                       (* the header [X-Vault-Salt] *)
  la_cookie : bool }.

Record LoginEnv := mkLoginEnv {
  le_now : Z; le_uuid : jsstr; le_token : jsstr; le_rand : bytes; le_draws : list Z;
  le_daemonConnected : bool;
  le_subtle : bool;                             (* WebCrypto is there *)
  le_background_first : bool;                   (* of two derivations started together, the one that is not awaited settles first *)
  le_daemon : option (jsstr * option (bytes * bytes));   (* a token and a wipe ticket, [None]: the daemon refuses *)
  le_server : option LoginAnswer;               (* [None]: not reachable *)
  le_mfa : option MfaConfig;                    (* the cache after the loads *)
  le_publish : option (option jsstr) }.

Definition v1_keys (e : LoginEnv) (password salt : jsstr) : option KeyPair :=
  if le_subtle e then Some (deriveV1Only password salt) else None.

Definition store_v1 (v1 : option KeyPair) (t : Keystore.tab) : Keystore.tab :=
  match v1 with
  | Some k => storeSigningKey (sigKey k) 1 (storeLocalKey (encKey k) 1 t)
  | None => t
  end.

(** [generateEmailCode(email)]; the draws hold an accepted one. *)
Definition email_code (e : LoginEnv) (email : jsstr) (b : Browser) : Browser :=
  match generateEmailCode (le_draws e) (le_now e) email with
  | Some (_, pending) => set_otp b pending (b_used b)
  | None => b
  end.

(** Asking for a code. *)
Definition ask_code (p : LoginPage) (e : LoginEnv) (method : MfaMethod) (partial : option jsstr) (has : bool) (b : Browser)
    : LoginPage * Browser :=
  (mkLogin StepTotp (lp_email p) (lp_password p) None false method false partial (lp_legacyLkSalt p) has (lp_isServerAccount p)
     (lp_hints p) (lp_code p) (lp_codeError p) (lp_at p),
   match method with ByEmail => email_code e (lp_email p) b | ByTotp => b end).

(** An error under the form; the password field is emptied. *)
Definition login_failed (p : LoginPage) (err : LoginError) : LoginPage :=
  mkLogin (lp_step p) (lp_email p) [] (Some err) false (lp_mfaMethod p) (lp_daemonWasUnlocked p)
    (lp_partialToken p) (lp_legacyLkSalt p) (lp_serverHasCryptoSalt p) (lp_isServerAccount p) (lp_hints p) (lp_code p)
    (lp_codeError p) (lp_at p).

(** The daemon has unlocked: its token, the v1 keys, and the rest in the background. *)
Definition daemon_login (p : LoginPage) (e : LoginEnv) (salt tok : jsstr) (ticket : option (bytes * bytes)) (b : Browser)
    : LoginPage * Browser * list task :=
  let t := match ticket with Some (ct, nonce) => storeWipeTicket ct nonce (b_tab b) | None => b_tab b end in
  let t := Keystore.store tok t in
  let t := store_v1 (v1_keys e (lp_password p) salt) t in
  let tasks := match deriveArgon2idMaster (lp_password p) salt with Some m => [BindV2 m salt tok] | None => [] end
               ++ match truthy_text (lp_legacyLkSalt p) with
                  | Some l => [StoreLegacy (deriveLocalKey (lp_password p) l)] | None => [] end in
  (complete p (le_uuid e) (le_publish e) (set_tab b t), tasks).

(** The salt of the server, if its header is one. *)
Definition server_salt (a : LoginAnswer) : option jsstr :=
  match truthy_text (la_salt a) with Some s => if is_hex32 s then Some s else None | None => None end.

(** The keys of a login over the server: [salt] is the salt of this browser. *)
Definition server_keys (p : LoginPage) (e : LoginEnv) (salt : jsstr) (a : LoginAnswer) (b : Browser) : Browser * list task :=
  let t := Keystore.store (le_token e) (b_tab b) in
  let ss := server_salt a in
  let drift := match ss with Some s => negb (str_eqb s salt) | None => false end in
  let lk := b_salts b in
  let legacy := if drift then match truthy_text (b_salt_legacy b) with
                              | None => if str_empty salt then b_salt_legacy b else Some salt
                              | Some _ => b_salt_legacy b end
                else b_salt_legacy b in
  let lk := match ss with Some s => mkSalts (Some s) (lk_salt lk) | None => lk end in
  let primary := v1_keys e (lp_password p) (match ss with Some s => s | None => salt end) in
  let t := store_v1 primary t in
  let legacy_task :=
    if drift then match v1_keys e (lp_password p) salt with Some k => [StoreLegacy (encKey k)] | None => [] end
    else match truthy_text legacy with
         | Some l => if str_eqb l salt then []
                     else match v1_keys e (lp_password p) l with Some k => [StoreLegacy (encKey k)] | None => [] end
         | None => []
         end in
  let v2_task := match deriveArgon2idMaster (lp_password p) salt with
                 | Some m => [BindV2 m (match ss with Some s => s | None => salt end) (le_token e)] | None => [] end in
  (* the key of [legacyLkSalt] is awaited; the other derivation may settle before it or after *)
  let '(t, legacy_task) :=
    match truthy_text (lp_legacyLkSalt p) with
    | Some l =>
        if le_subtle e then
          let own := storeLegacyKey (Some (deriveLocalKey (lp_password p) l)) in
          if le_background_first e then (own (fold_left (λ t k, run_task k t) legacy_task t), []) else (own t, legacy_task)
        else (t, legacy_task)
    | None => (t, legacy_task)
    end in
  (set_mfa (set_salts (set_tab b t) lk legacy) (le_mfa e), legacy_task ++ v2_task).

(** The answer was positive. *)
Definition server_login (p : LoginPage) (e : LoginEnv) (salt : jsstr) (a : LoginAnswer) (b : Browser)
    : LoginPage * Browser * list task :=
  match truthy_text (la_partialToken a) with
  | Some tok =>
      (ask_code p e (if existsb (str_eqb (js "totp")) (la_methods a) then ByTotp else ByEmail) (Some tok)
         (lp_serverHasCryptoSalt p) b, [])
  | None =>
      let '(b, tasks) := server_keys p e salt a b in
      let has := lp_serverHasCryptoSalt p || bool_decide (is_Some (server_salt a)) in
      let cfg := getMfaConfig (b_mfa b) in
      if otp_enabled (totp cfg) || em_enabled (email cfg) then
        (ask_code p e (if otp_enabled (totp cfg) then ByTotp else ByEmail) (lp_partialToken p) has b, tasks)
      else (complete p (le_uuid e) (le_publish e) b, tasks)
  end.

Definition is_rate_code (c : jsstr) : bool :=
  existsb (str_eqb c) [js "account_locked"; js "mfa_locked"; js "too_many_requests"].
Definition rate_error (c : jsstr) : LoginError :=
  if str_eqb c (js "account_locked") then AccountLocked else if str_eqb c (js "mfa_locked") then MfaLocked else RateLimited.

(** Neither daemon nor server accepted. *)
Definition both_failed (p : LoginPage) (e : LoginEnv) (a : LoginAnswer) (b : Browser) : LoginPage * Browser :=
  if la_duressWipe a then (set_place p Replaced, (wipeVaultData (le_daemonConnected e) b).1)
  else
    let '(m, shouldWipe) := recordFailedLoginAttempt (b_modes b) (le_now e) (le_uuid e) in
    let b := set_modes b m in
    if shouldWipe : bool then (set_place p Replaced, (wipeVaultData (le_daemonConnected e) b).1)
    else
      let cfg := getDuressModeConfig m (le_uuid e) in
      (login_failed p (InvalidCredentials
         (match la_duressRemaining a with
          | Some n => Some n
          | None => if armed cfg then Some (attemptsRemaining cfg) else None
          end)), b).

(** [setError(''); setLoading(true)] *)
Definition started (p : LoginPage) : LoginPage :=
  mkLogin (lp_step p) (lp_email p) (lp_password p) None true (lp_mfaMethod p) (lp_daemonWasUnlocked p)
    (lp_partialToken p) (lp_legacyLkSalt p) (lp_serverHasCryptoSalt p) (lp_isServerAccount p) (lp_hints p) (lp_code p)
    (lp_codeError p) (lp_at p).

Definition handleLogin (e : LoginEnv) (p : LoginPage) (b : Browser) : LoginPage * Browser * list task :=
  if lp_loading p then (p, b, [])
  else if (checkIsLockedOut (b_modes b) (le_now e)).1 then
    (mkLogin (lp_step p) (lp_email p) (lp_password p) (Some AccountLocked) (lp_loading p) (lp_mfaMethod p) (lp_daemonWasUnlocked p)
       (lp_partialToken p) (lp_legacyLkSalt p) (lp_serverHasCryptoSalt p) (lp_isServerAccount p) (lp_hints p) (lp_code p)
       (lp_codeError p) (lp_at p), b, [])
  else
    let p := started p in
    let '(m, isDuress) := if armed (getDuressModeConfig (b_modes b) (le_uuid e))
                          then checkIsDuressPassword (b_modes b) (le_uuid e) (lp_password p) else (b_modes b, false) in
    let b := set_modes b m in
    if isDuress : bool then (set_place p Replaced, (wipeVaultData (le_daemonConnected e) b).1, [])
    else
      let '(sl, salt) := getOrCreateLocalKeySalt (le_rand e) (b_salts b) in
      let b := set_salts b sl (b_salt_legacy b) in
      match (if lp_isServerAccount p then None else le_daemon e) with
      | Some (tok, ticket) => daemon_login p e salt tok ticket b
      | None =>
          match le_server e with
          | None => (login_failed p ServiceUnavailable, b, [])
          | Some a =>
              let b := with_cookie b (la_cookie a) in
              let limited := match la_error a with
                             | Some c => if is_rate_code c then Some (rate_error c) else if la_status a =? 429 then Some (rate_error c) else None
                             | None => if la_status a =? 429 then Some RateLimited else None
                             end in
              match limited with
              | Some err => (login_failed p err, b, [])
              | None =>
                  if (200 <=? la_status a) && (la_status a <=? 299) && la_ok a then server_login p e salt a b
                  else (both_failed p e a b, [])
              end
          end
      end.
End password.

(** ** The code step *)

Definition set_boxes (p : LoginPage) (code : list jsstr) : LoginPage :=
  mkLogin (lp_step p) (lp_email p) (lp_password p) (lp_error p) (lp_loading p) (lp_mfaMethod p) (lp_daemonWasUnlocked p)
    (lp_partialToken p) (lp_legacyLkSalt p) (lp_serverHasCryptoSalt p) (lp_isServerAccount p) (lp_hints p) code
    (lp_codeError p) (lp_at p).

Definition handleTotpDigit (index : nat) (value : jsstr) (p : LoginPage) : LoginPage :=
  match box_value value with
  | Some v => set_boxes p (<[index := v]> (lp_code p))
  | None => p
  end.

(** [text.replace(/\D/g, '').slice(0, 6)], one digit per box. *)
Definition handleTotpPaste (text : jsstr) (p : LoginPage) : LoginPage :=
  let ds := take 6 (List.filter is_digit text) in
  set_boxes p (map (λ d, [d]) ds ++ drop (length ds) (lp_code p)).

(** The body of [POST /api/auth/login/finish]. *)
Record FinishBody := mkFinish { fb_partialToken : jsstr; fb_totpCode : option jsstr; fb_emailCode : option jsstr }.

Definition code_failed (p : LoginPage) (partial : option jsstr) : LoginPage :=
  mkLogin (lp_step p) (lp_email p) (lp_password p) (lp_error p) false (lp_mfaMethod p) (lp_daemonWasUnlocked p)
    partial (lp_legacyLkSalt p) (lp_serverHasCryptoSalt p) (lp_isServerAccount p) (lp_hints p) (empty_boxes 6)
    (Some IncorrectCode) (lp_at p).

(** [setLoading(true); setTotpError('')], with the partial token that is left. *)
Definition submitted (p : LoginPage) (partial : option jsstr) : LoginPage :=
  mkLogin (lp_step p) (lp_email p) (lp_password p) (lp_error p) true (lp_mfaMethod p) (lp_daemonWasUnlocked p)
    partial (lp_legacyLkSalt p) (lp_serverHasCryptoSalt p) (lp_isServerAccount p) (lp_hints p) (lp_code p)
    None (lp_at p).

Section code.
Context `{JsCase} `{OtpHmac}.

(** The check the page itself makes. *)
Definition check_code (p : LoginPage) (now : Z) (b : Browser) : bool * Browser :=
  let token := concat (lp_code p) in
  let cfg := getMfaConfig (b_mfa b) in
  match lp_mfaMethod p with
  | ByTotp =>
      match truthy_text (otp_secret (totp cfg)) with
      | Some secret =>
          let '(ok, used) := verifyTotp (b_used b) now secret token (default (js "SHA-1") (otp_algorithm (totp cfg)))
                               (default 6 (otp_digits (totp cfg))) in
          (ok, set_otp b (b_pending b) used)
      | None =>
          match hotp cfg with
          | Some h =>
              match truthy_text (otp_secret h) with
              | Some secret =>
                  if otp_enabled h then
                    let '(ok, next) := verifyHotp secret (otp_counter h) token 10 (default (js "SHA-1") (otp_algorithm h))
                                         (default 6 (otp_digits h)) in
                    (ok, if ok : bool then set_mfa b (Some (set_hotp cfg (Some (mkOtp (otp_enabled h) (otp_secret h) next
                                                      (otp_enabledAt h) (otp_algorithm h) (otp_digits h))))) else b)
                  else (false, b)
              | None => (false, b)
              end
          | None => (false, b)
          end
      end
  | ByEmail => let '(ok, pending) := verifyEmailCode (b_pending b) now token in (ok, set_otp b pending (b_used b))
  end.

(** [finish]: the answer of the server to the body, [None] when the request fails;
    the cookies come with a positive one.  Also returned: the body sent. *)
Definition handleTotpSubmit (now : Z) (uuid : jsstr) (publish : option (option jsstr)) (finish : FinishBody → option bool)
    (p : LoginPage) (b : Browser) : LoginPage * Browser * option FinishBody :=
  let token := concat (lp_code p) in
  let '(ok, b) := check_code p now b in
  if negb ok then (code_failed p (lp_partialToken p), b, None)
  else match truthy_text (lp_partialToken p) with
  | Some tok =>
      if lp_daemonWasUnlocked p then (complete (submitted p (lp_partialToken p)) uuid publish b, None)
      else
        let body := match lp_mfaMethod p with
                    | ByTotp => mkFinish tok (Some token) None
                    | ByEmail => mkFinish tok None (Some token) end in
        match finish body with
        | Some true => (complete (submitted p None) uuid publish (with_cookie b true), Some body)
        | Some false => (code_failed p None, b, Some body)
        | None =>
            (mkLogin (lp_step p) (lp_email p) (lp_password p) (lp_error p) false (lp_mfaMethod p) (lp_daemonWasUnlocked p)
               (lp_partialToken p) (lp_legacyLkSalt p) (lp_serverHasCryptoSalt p) (lp_isServerAccount p) (lp_hints p) (lp_code p)
               (Some CodeServerError) (lp_at p), b, Some body)
        end
  | None => (complete (submitted p (lp_partialToken p)) uuid publish b, None)
  end.
End code.

Definition handleSwitchMfaMethod (draws : list Z) (now : Z) (p : LoginPage) (b : Browser) : LoginPage * Browser :=
  let next := match lp_mfaMethod p with ByTotp => ByEmail | ByEmail => ByTotp end in
  (mkLogin (lp_step p) (lp_email p) (lp_password p) (lp_error p) (lp_loading p) next (lp_daemonWasUnlocked p)
     (lp_partialToken p) (lp_legacyLkSalt p) (lp_serverHasCryptoSalt p) (lp_isServerAccount p) (lp_hints p) (empty_boxes 6)
     None (lp_at p),
   match next with
   | ByEmail => match generateEmailCode draws now (lp_email p) with Some (_, pending) => set_otp b pending (b_used b) | None => b end
   | ByTotp => b
   end).
