(* ===== verification/LoginPageSpec.v ===== *)
(** * What the login page does ([web/src/pages/Login.tsx],
      [web/src/pages/Settings/hooks/useMfaSetup.ts])

    The keys of a login over the server do not depend on what the browser had stored;
    failures lock the page; and what becomes of second factors between the settings,
    the page and the server. *)
From S2P Require Import Prelude JsRuntime JsText Base64 CryptoUtils CardUtils Mfa MfaSpec MfaSetup Keystore VaultSync SecurityModes SecurityModesSpec LoginPage.

(** ** Tasks *)

Section keys.
Context `{KeyDerivation} `{Argon2}.

Definition run_tasks (ts : list task) (t : Keystore.tab) : Keystore.tab := fold_left (λ t k, run_task k t) ts t.

Lemma run_tasks_cons k ts t : run_tasks (k :: ts) t = run_tasks ts (run_task k t).
Proof. done. Qed.

(** Tasks leave the token and the v1 keys alone. *)
Lemma run_tasks_v1 ts t :
  k_token (mem (run_tasks ts t)) = k_token (mem t) ∧ localKeyV1 (mem (run_tasks ts t)) = localKeyV1 (mem t) ∧
  sigKeyV1 (mem (run_tasks ts t)) = sigKeyV1 (mem t).
Proof.
  revert t. induction ts as [|k ts IH]; intros t; [done|]. rewrite run_tasks_cons. destruct (IH (run_task k t)) as (-> & -> & ->).
  by destruct k.
Qed.

Definition legacy_tasks (ts : list task) : list bytes :=
  omap (λ k, match k with StoreLegacy b => Some b | BindV2 _ _ _ => None end) ts.

Lemma run_tasks_legacy ts t :
  legacyKeyV1 (mem (run_tasks ts t)) = match last (legacy_tasks ts) with Some k => Some k | None => legacyKeyV1 (mem t) end.
Proof.
  revert t. induction ts as [|k ts IH]; intros t; [done|]. rewrite run_tasks_cons, IH.
  destruct k as [k|]; [|done]. change (legacy_tasks (StoreLegacy k :: ts)) with (k :: legacy_tasks ts).
  destruct (legacy_tasks ts) as [|b l]; [done|]. rewrite last_cons_cons. destruct (last (b :: l)) eqn:El; [done|]. by apply last_None in El.
Qed.

(** One key among the tasks is the key in the end, in whatever order they finish. *)
Lemma run_tasks_one ts ts' t k :
  ts' ≡ₚ ts → legacy_tasks ts = [k] → legacyKeyV1 (mem (run_tasks ts' t)) = Some k.
Proof.
  intros Hp Hk. rewrite run_tasks_legacy. assert (Hl : legacy_tasks ts' ≡ₚ [k]) by (rewrite <- Hk; unfold legacy_tasks; by rewrite Hp).
  apply Permutation_singleton_r in Hl. by rewrite Hl.
Qed.

(** ** The keys of a login over the server *)

(** A positive answer that asks for no code on the side of the server. *)
Definition accepts (a : LoginAnswer) : Prop :=
  200 <= la_status a <= 299 ∧ la_ok a = true ∧ la_error a = None ∧ la_partialToken a = None.

(** The page hands the password to the server. *)
Definition submits (e : LoginEnv) (p : LoginPage) (b : Browser) : Prop :=
  lp_loading p = false ∧ (checkIsLockedOut (b_modes b) (le_now e)).1 = false ∧
  armed (getDuressModeConfig (b_modes b) (le_uuid e)) = false ∧ (lp_isServerAccount p = true ∨ le_daemon e = None).

(** The salt of this browser before the login. *)
Definition own_salt (e : LoginEnv) (b : Browser) : jsstr := (getOrCreateLocalKeySalt (le_rand e) (b_salts b)).2.

Lemma submits_server e p b a :
  submits e p b → le_server e = Some a → la_error a = None → 200 <= la_status a <= 299 → la_ok a = true →
  handleLogin e p b = server_login (started p) e (own_salt e b) a
    (with_cookie (set_salts b (getOrCreateLocalKeySalt (le_rand e) (b_salts b)).1 (b_salt_legacy b)) (la_cookie a)).
Proof.
  intros (H1 & H2 & H3 & H4) Hs He Hst Hok. unfold handleLogin, own_salt. rewrite H1, H2, H3, Hs, He.
  assert ((if lp_isServerAccount p then None else le_daemon e) = None) as Hd by (destruct H4 as [->| ->]; [done|by destruct (lp_isServerAccount p)]).
  change (lp_isServerAccount (started p)) with (lp_isServerAccount p). rewrite Hd.
  cbn [set_modes b_salts b_salt_legacy b_modes]. destruct (getOrCreateLocalKeySalt _ _) as [sl salt]. cbn [fst snd].
  assert ((la_status a =? 429) = false) as -> by lia. assert ((200 <=? la_status a) && (la_status a <=? 299) = true) as -> by lia.
  rewrite Hok. done.
Qed.

Lemma email_code_frame e m b :
  b_tab (email_code e m b) = b_tab b ∧ b_salts (email_code e m b) = b_salts b ∧ b_modes (email_code e m b) = b_modes b.
Proof. unfold email_code. by destruct (generateEmailCode _ _ _) as [[c o]|]. Qed.

Lemma publish_frame p o b :
  b_tab (publishCryptoSaltIfNeeded p o b) = b_tab b ∧
  (b_salts (publishCryptoSaltIfNeeded p o b) = b_salts b ∨
   ∃ cs, lp_serverHasCryptoSalt p = false ∧ o = Some (Some cs) ∧ b_salts (publishCryptoSaltIfNeeded p o b) = mkSalts (Some cs) (Some cs)).
Proof.
  unfold publishCryptoSaltIfNeeded. destruct (lp_serverHasCryptoSalt p); [by split; [|left]|].
  destruct (truthy_text (lk_salt _)); [|by split; [|left]]. destruct o as [[[|c cs]|]|]; cbn [truthy_text]; try (by split; [|left]).
  split; [done|]. right. by exists (c :: cs).
Qed.

(** After the keys the page asks for a code or is done; the keys and tasks stay. *)
Lemma server_login_frame p e salt a b :
  la_partialToken a = None →
  let r := server_login p e salt a b in
  let k := server_keys p e salt a b in
  b_tab r.1.2 = b_tab k.1 ∧ r.2 = k.2 ∧
  (b_salts r.1.2 = b_salts k.1 ∨
   ∃ cs, lp_serverHasCryptoSalt p = false ∧ le_publish e = Some (Some cs) ∧ b_salts r.1.2 = mkSalts (Some cs) (Some cs)).
Proof.
  intros Hp r k. subst r. unfold server_login. rewrite Hp. cbn [truthy_text]. fold k. destruct k as [b1 tasks].
  destruct (otp_enabled _ || em_enabled _).
  - unfold ask_code. cbn [fst snd]. destruct (otp_enabled _); [by split; [|split; [|left]]|].
    destruct (email_code_frame e (lp_email p) b1) as (-> & -> & _). by split; [|split; [|left]].
  - unfold complete. cbn [fst snd]. destruct (publish_frame p (le_publish e) (set_modes b1 (resetLoginAttempts (b_modes b1) (le_uuid e)))) as [-> Hs].
    by split.
Qed.

Lemma server_salt_truthy a S : server_salt a = Some S → ∃ c s, S = c :: s.
Proof. unfold server_salt. destruct (la_salt a) as [[|c s]|]; cbn; try done. destruct (is_hex32 _); [|done]. intros [= <-]. by exists c, s. Qed.

(** The token, the v1 key and the MFA settings, whatever the salts. *)
Lemma server_keys_frame p e salt a b :
  le_subtle e = true →
  let r := server_keys p e salt a b in
  k_token (mem (b_tab r.1)) = Some (utf8_encode (le_token e)) ∧
  localKeyV1 (mem (b_tab r.1)) = Some (encKey (deriveV1Only (lp_password p) (default salt (server_salt a)))) ∧ b_mfa r.1 = le_mfa e.
Proof.
  intros He. unfold server_keys, v1_keys, store_v1. rewrite He.
  destruct (truthy_text (lp_legacyLkSalt p)) as [l|]; [destruct (le_background_first e)|]; [|by destruct (server_salt a)..].
  cbv zeta. cbn [fst]. match goal with |- context [fold_left _ ?ts ?t] => destruct (run_tasks_v1 ts t) as (T1 & T2 & T3) end. unfold run_tasks in *.
  split; [exact T1|]. split; [|done]. etransitivity; [exact T2|]. by destruct (server_salt a).
Qed.

(** The v1 keys a login stores, and the tasks it leaves. *)
Lemma server_keys_v1 p e salt a b S :
  server_salt a = Some S → le_subtle e = true →
  let r := server_keys p e salt a b in
  let keys := deriveV1Only (lp_password p) S in
  localKeyV1 (mem (b_tab r.1)) = Some (encKey keys) ∧ sigKeyV1 (mem (b_tab r.1)) = Some (sigKey keys) ∧
  k_token (mem (b_tab r.1)) = Some (utf8_encode (le_token e)) ∧ pwd_lks (b_salts r.1) = Some S.
Proof.
  intros HS He. unfold server_keys, v1_keys, store_v1. rewrite HS, He.
  destruct (truthy_text (lp_legacyLkSalt p)) as [l|]; [destruct (le_background_first e)|]; [|done..]. cbv zeta. cbn [fst].
  match goal with |- context [fold_left _ ?ts ?t] => destruct (run_tasks_v1 ts t) as (T1 & T2 & T3) end. unfold run_tasks in *.
  split; [exact T2|]. split; [exact T3|]. split; [exact T1|done].
Qed.

(** The key for old data when the salt has changed: that of the salt of this browser, or
    that of [legacyLkSalt] when its derivation settles last. *)
Definition drifted_key (p : LoginPage) (e : LoginEnv) (salt : jsstr) : bytes :=
  match truthy_text (lp_legacyLkSalt p) with
  | Some l => if le_background_first e then deriveLocalKey (lp_password p) l else encKey (deriveV1Only (lp_password p) salt)
  | None => encKey (deriveV1Only (lp_password p) salt)
  end.

Lemma server_keys_legacy p e salt a b S ts :
  server_salt a = Some S → le_subtle e = true → salt ≠ S →
  ts ≡ₚ (server_keys p e salt a b).2 →
  legacyKeyV1 (mem (run_tasks ts (b_tab (server_keys p e salt a b).1))) = Some (drifted_key p e salt).
Proof.
  intros HS He Hn. unfold server_keys, v1_keys, drifted_key. rewrite HS, He.
  destruct (str_eqb S salt) eqn:E; [by apply str_eqb_eq in E|]. cbn [negb].
  destruct (truthy_text (lp_legacyLkSalt p)) as [l|]; [destruct (le_background_first e)|]; cbn [fst snd]; intros Hts;
    try (eapply run_tasks_one; [exact Hts|]; cbn [Datatypes.app]; by destruct (deriveArgon2idMaster _ _)).
  rewrite run_tasks_legacy. assert (legacy_tasks ts = []) as ->; [|done].
  apply Permutation_nil_r. unfold legacy_tasks. rewrite Hts. by destruct (deriveArgon2idMaster _ _).
Qed.

Lemma server_keys_stored_legacy p e salt a b l :
  server_salt a = Some salt → le_subtle e = true → truthy_text (lp_legacyLkSalt p) = Some l → truthy_text (b_salt_legacy b) = None →
  let r := server_keys p e salt a b in
  legacy_tasks r.2 = [] ∧ legacyKeyV1 (mem (b_tab r.1)) = Some (deriveLocalKey (lp_password p) l).
Proof.
  intros HS He Hl Hb. unfold server_keys, v1_keys, store_v1. rewrite HS, He, Hl.
  destruct (str_eqb salt salt) eqn:E; [|by rewrite (proj2 (str_eqb_eq salt salt)) in E]. cbn [negb]. rewrite Hb.
  by destruct (le_background_first e), (deriveArgon2idMaster _ _).
Qed.
End keys.

(** ** Typing a code *)

Inductive press := Digit (index : nat) (value : jsstr) | Paste (text : jsstr).
Definition typed (l : list press) (p : LoginPage) : LoginPage :=
  fold_left (λ p k, match k with Digit i v => handleTotpDigit i v p | Paste t => handleTotpPaste t p end) l p.

(** Six boxes with at most one digit each. *)
Definition boxes_ok (code : list jsstr) : Prop :=
  length code = 6%nat ∧ Forall (λ v, v = [] ∨ ∃ c, is_digit c = true ∧ v = [c]) code.

Lemma box_value_ok v w : box_value v = Some w → w = [] ∨ ∃ c, is_digit c = true ∧ w = [c].
Proof.
  unfold box_value. destruct (if len v >? 1 then last_unit v else v) as [|c [|d l]]; [intros [= <-]; by left| |done].
  destruct (is_digit c) eqn:E; [|done]. intros [= <-]. right. by exists c.
Qed.

Lemma typed_frame l p :
  boxes_ok (lp_code p) →
  boxes_ok (lp_code (typed l p)) ∧ ∃ code, typed l p = set_boxes p code.
Proof.
  revert p. induction l as [|k l IH]; intros p Hp; [by split; [|exists (lp_code p); by destruct p]|].
  assert (K : ∃ code, match k with Digit i v => handleTotpDigit i v p | Paste t => handleTotpPaste t p end = set_boxes p code ∧ boxes_ok code).
  { destruct Hp as [Hl Hf]. destruct k as [i v|t].
    - unfold handleTotpDigit. destruct (box_value v) as [w|] eqn:Ev; [|exists (lp_code p); split; [by destruct p|done]].
      eexists. split; [done|]. split; [by rewrite length_insert|]. apply Forall_insert; [done|]. by apply box_value_ok in Ev.
    - eexists. split; [done|]. split.
      + rewrite length_app, length_map, length_drop, Hl. assert (length (take 6 (List.filter is_digit t)) <= 6)%nat by (rewrite length_take; lia). lia.
      + apply Forall_app. split; [|by apply Forall_drop]. apply Forall_map, Forall_take, Forall_forall. intros c [_ Hc]%list_elem_of_In%filter_In.
        right. by exists c. }
  destruct K as (code & E & Hc). unfold typed. cbn [fold_left]. rewrite E.
  destruct (IH (set_boxes p code) Hc) as [H1 [code' H2]]. split; [exact H1|]. exists code'. exact H2.
Qed.

Lemma empty_boxes_ok : boxes_ok (empty_boxes 6).
Proof. split; [done|]. by repeat constructor. Qed.

(** What stands in the boxes: at most six digits. *)
Lemma boxes_digits code : boxes_ok code → len (concat code) <= 6 ∧ Forall (λ c, is_digit c = true) (concat code).
Proof.
  intros [Hl Hf]. assert (len (concat code) <= len code ∧ Forall (λ c, is_digit c = true) (concat code)) as [H1 H2].
  { clear Hl. induction Hf as [|v code Hv Hf IH]; [done|]. cbn [concat]. rewrite len_app, len_cons. destruct IH as [IH1 IH2].
    destruct Hv as [->|(c & Hc & ->)]; cbn [Datatypes.app]; rewrite ?len_cons, len_nil; split; try lia; [done|]. by constructor. }
  split; [|done]. unfold len in *. lia.
Qed.

Lemma strip_digits (s : jsstr) : Forall (λ c, is_digit c = true) s → strip_spaces s = s.
Proof. intros Hs. by apply strip_spaces_id, Digits_no_space. Qed.

(** A code of eight digits does not fit into the boxes. *)
Lemma check_eight p now b o `{JsCase} `{OtpHmac} :
  boxes_ok (lp_code p) → lp_mfaMethod p = ByTotp → totp (getMfaConfig (b_mfa b)) = o → otp_digits o = Some 8 →
  (∃ c s, otp_secret o = Some (c :: s)) → ∃ b', check_code p now b = (false, b').
Proof.
  intros Hb Hm Ho Hd (c & s & Hs). unfold check_code. rewrite Hm, Ho, Hs. cbn [truthy_text]. rewrite Hd. cbn [default from_option id].
  destruct (boxes_digits _ Hb) as [Hl Hf]. unfold verifyTotp. rewrite strip_digits by done. unfold all_digits.
  assert ((len (concat (lp_code p)) =? 8) = false) as -> by lia. by eexists.
Qed.

(** ** Failures *)

Lemma duress_check_lockout `{Argon2} s uuid entered : lockout (checkIsDuressPassword s uuid entered).1 = lockout s.
Proof.
  unfold checkIsDuressPassword. rewrite <- (getDuress_lockout s uuid). destruct (getDuressModeConfigFull s uuid) as [s' cfg].
  destruct (passwordHash cfg) as [[|c phc]|]; [done| |done]. by destruct (armed cfg).
Qed.

Lemma record_lockout_get s1 s2 t :
  getLockoutConfig s1 = getLockoutConfig s2 → getLockoutConfig (record_lockout s1 t) = getLockoutConfig (record_lockout s2 t).
Proof. intros E. unfold record_lockout. rewrite E. by destruct (l_enabled _). Qed.

Lemma lockout_get s1 s2 : lockout s1 = lockout s2 → getLockoutConfig s1 = getLockoutConfig s2.
Proof. unfold getLockoutConfig. by intros ->. Qed.

Section failing.
Context `{KeyDerivation} `{Argon2}.

(** A submission that ends with wrong credentials counts one failure. *)
Lemma handleLogin_failed e p b p' b' tasks r :
  lp_loading p = false → handleLogin e p b = (p', b', tasks) → lp_error p' = Some (InvalidCredentials r) →
  (checkIsLockedOut (b_modes b) (le_now e)).1 = false ∧
  getLockoutConfig (b_modes b') = getLockoutConfig (record_lockout (b_modes b) (le_now e)).
Proof.
  intros Hl Hr He. unfold handleLogin in Hr. rewrite Hl in Hr. destruct (checkIsLockedOut _ _).1; [by injection Hr as <- <- <-|]. split; [done|].
  assert (D : lockout (if armed (getDuressModeConfig (b_modes b) (le_uuid e)) then checkIsDuressPassword (b_modes b) (le_uuid e) (lp_password (started p)) else (b_modes b, false)).1 = lockout (b_modes b))
    by (destruct (armed _); [apply duress_check_lockout|done]).
  destruct (if armed _ then _ else _) as [m []]; [by injection Hr as <- <- <-|]. cbn [fst] in D.
  destruct (getOrCreateLocalKeySalt _ _) as [sl salt]. destruct (if lp_isServerAccount _ then None else le_daemon e) as [[tok ticket]|];
    [unfold daemon_login, complete in Hr; by injection Hr as <- <- <-|].
  destruct (le_server e) as [a|]; [|by injection Hr as <- <- <-].
  set (b0 := with_cookie _ _) in Hr. assert (D0 : lockout (b_modes b0) = lockout (b_modes b)) by (unfold b0; by destruct (la_cookie a)).
  destruct (match la_error a with Some c => _ | None => _ end) as [err|] eqn:El.
  { injection Hr as <- <- <-. cbn in He. injection He as ->. unfold rate_error in El.
    destruct (la_error a); repeat case_match; congruence. }
  destruct (_ && _ && la_ok a).
  - exfalso. unfold server_login in Hr. destruct (truthy_text _); [unfold ask_code in Hr; by injection Hr as <- <- <-|].
    destruct (server_keys _ _ _ _ _) as [b1 ts]. destruct (_ || _); unfold ask_code, complete in Hr; by injection Hr as <- <- <-.
  - unfold both_failed in Hr. destruct (la_duressWipe a); [by injection Hr as <- <- <-|].
    assert (R := recordFailed_lockout (b_modes b0) (le_now e) (le_uuid e)). destruct (recordFailedLoginAttempt _ _ _) as [m' []]; injection Hr as <- <- <-; [done|].
    cbn [b_modes set_modes fst] in *. rewrite (lockout_get _ _ R). apply record_lockout_get. by apply lockout_get.
Qed.

(** Submissions in a row that end with wrong credentials, with their times. *)
Inductive failing (b : Browser) : list Z → Browser → Prop :=
| fail_start : failing b [] b
| fail_again ts b1 e p p' b' tasks r :
    failing b ts b1 → lp_loading p = false → handleLogin e p b1 = (p', b', tasks) →
    lp_error p' = Some (InvalidCredentials r) → failing b (ts ++ [le_now e]) b'.

Lemma failing_config b ts b' c s0 :
  failing b ts b' → getLockoutConfig (b_modes b) = c → lockout s0 = Some c →
  getLockoutConfig (b_modes b') = getLockoutConfig (fail_at [] s0 ts).
Proof.
  intros Hf Hc Hs. induction Hf as [|ts b1 e p p' b' tasks r Hf IH Hl Hr He]; [unfold fail_at, getLockoutConfig in *; cbn; by rewrite Hs|].
  destruct (handleLogin_failed _ _ _ _ _ _ _ Hl Hr He) as [_ ->]. rewrite (lockout_get _ _ (fail_at_snoc [] s0 ts (le_now e))).
  by apply record_lockout_get.
Qed.
End failing.

Definition no_modes : SecurityModes.store := mkStore false false None None None None None None None None None [].

(** ** Concrete logins *)

#[export] Instance toy_kdf : KeyDerivation := {|
  kd_pbkdf2 pw salt := take 64 (salt ++ pw ++ zeros 64);
  kd_argon2 pw salt _ _ _ := Some (salt ++ pw);
  kd_hkdf master salt inf n := take n (master ++ salt ++ inf) |}.
#[export] Instance toy_argon2 : Argon2 := {| argon2 pw salt _ _ _ := salt ++ pw |}.

Definition SALT : jsstr := js "00112233445566778899aabbccddeeff".
Definition OLD_SALT : jsstr := js "ffeeddccbbaa99887766554433221100".
Definition at_password : LoginPage :=
  mkLogin StepMethod (js "a@b.c") (js "hunter2") None false ByTotp false None None true true getLoginHints (empty_boxes 6) None AtLogin.
Definition old_browser : Browser :=
  mkBrowser (Keystore.mkTab Keystore.no_keys None true []) (mkSalts None (Some OLD_SALT)) None no_modes None None ∅.
Definition positive : LoginAnswer := mkLoginAnswer 200 true None false None None [] (Some SALT) true.
Definition negative : LoginAnswer := mkLoginAnswer 200 false (Some (js "invalid_credentials")) false None None [] None false.
Definition asks_code : LoginAnswer := mkLoginAnswer 200 true None false None (Some (js "partial")) [js "email"] None false.
Definition env_with (now : Z) (a : LoginAnswer) (m : option MfaConfig) : LoginEnv :=
  mkLoginEnv now (js "u") (js "tok") (zeros 16) [123456] false true false None (Some a) m None.
Definition with_totp : MfaConfig :=
  set_totp DEFAULT_MFA (mkOtp true (Some (js "JBSWY3DPEHPK3PXP")) 0 (Some 1) (Some (js "SHA-256")) (Some 8)).

Lemma triple_eta {A B C} (r : A * B * C) : r = (r.1.1, r.1.2, r.2).
Proof. by destruct r as [[? ?] ?]. Qed.

Module LoginSpecs.
#[local] Existing Instance OtpSpec.toy_hmac.

(** C9: whatever salts the browser has stored, a login the server accepts with its salt
    leaves the token and the keys derived from the password and that salt, also after
    the background work in any order and to any extent, and the next login starts from
    it; the key of a different salt this browser had, found now or in the e-mail step
    (of both, the one whose derivation settles last), is kept for reading. *)
Theorem login_key_anchored (KD : KeyDerivation) (A2 : Argon2) e p b a S p' b' tasks :
  submits e p b → le_server e = Some a → accepts a → server_salt a = Some S → le_subtle e = true →
  (lp_serverHasCryptoSalt p = true ∨ ∀ cs, le_publish e = Some (Some cs) → cs = S) →
  handleLogin e p b = (p', b', tasks) →
  let keys := deriveV1Only (lp_password p) S in
  (∀ ts, ts ⊆ tasks →
     let k := mem (run_tasks ts (b_tab b')) in
     localKeyV1 k = Some (encKey keys) ∧ sigKeyV1 k = Some (sigKey keys) ∧ k_token k = Some (utf8_encode (le_token e))) ∧
  (∀ rand, (getOrCreateLocalKeySalt rand (b_salts b')).2 = S) ∧
  (∀ ts, ts ≡ₚ tasks →
     let legacy := legacyKeyV1 (mem (run_tasks ts (b_tab b'))) in
     (own_salt e b ≠ S → legacy = Some (drifted_key p e (own_salt e b))) ∧
     (own_salt e b = S → ∀ l, truthy_text (lp_legacyLkSalt p) = Some l → truthy_text (b_salt_legacy b) = None →
        legacy = Some (encKey (deriveV1Only (lp_password p) l)))).
Proof.
  intros Hsub Hserv (Hst & Hok & Herr & Hpt) HS Hsubtle Hpub Hr keys. rewrite (submits_server e p b a) in Hr by done.
  set (b0 := with_cookie _ _) in Hr. assert (F := server_login_frame (started p) e (own_salt e b) a b0 Hpt). rewrite Hr in F. cbn [fst snd] in F.
  destruct F as (Ft & -> & Fs). destruct (server_keys_v1 (started p) e (own_salt e b) a b0 S HS Hsubtle) as (K1 & K2 & K3 & K4).
  split; [|split].
  - intros ts _ k. destruct (run_tasks_v1 ts (b_tab b')) as (T1 & T2 & T3). unfold k. by rewrite T1, T2, T3, Ft.
  - intros rand. unfold getOrCreateLocalKeySalt. destruct (server_salt_truthy a S HS) as (c & s & ->).
    destruct Fs as [->|(cs & H1 & H2 & ->)]; [by rewrite K4|]. cbn [pwd_lks]. destruct Hpub as [Hp|Hp]; [by change (lp_serverHasCryptoSalt (started p)) with (lp_serverHasCryptoSalt p) in H1; rewrite Hp in H1|].
    rewrite (Hp cs H2). done.
  - intros ts Hts legacy. split.
    + intros Hn. unfold legacy. rewrite Ft. exact (server_keys_legacy (started p) e _ a b0 S ts HS Hsubtle Hn Hts).
    + intros Heq l Hl Hb. assert (Hb0 : truthy_text (b_salt_legacy b0) = None) by (unfold b0; by destruct (la_cookie a)).
      rewrite <- Heq in HS. destruct (server_keys_stored_legacy (started p) e (own_salt e b) a b0 l HS Hsubtle Hl Hb0) as [L1 L2].
      unfold legacy. rewrite run_tasks_legacy. assert (legacy_tasks ts = []) as ->.
      { apply Permutation_nil_r. rewrite <- L1. unfold legacy_tasks. by rewrite Hts. }
      cbn [last]. rewrite Ft. exact L2.
Qed.

(** A browser with another salt: its key is kept, the new one comes from the server's salt. *)
Lemma login_key_anchored_witness :
  let r := handleLogin (env_with 1000 positive None) at_password old_browser in
  localKeyV1 (mem (b_tab r.1.2)) = Some (take 32 (hexToBytes SALT ++ utf8_encode (js "hunter2") ++ zeros 64)) ∧
  legacyKeyV1 (mem (run_tasks r.2 (b_tab r.1.2))) = Some (take 32 (hexToBytes OLD_SALT ++ utf8_encode (js "hunter2") ++ zeros 64)).
Proof.
  set (r := handleLogin _ _ _).
  destruct (login_key_anchored toy_kdf toy_argon2 (env_with 1000 positive None) at_password old_browser positive SALT r.1.1 r.1.2 r.2)
    as (H1 & _ & H3).
  - split; [done|]. split; [done|]. split; [done|]. by left.
  - done.
  - by repeat split.
  - by vm_compute.
  - done.
  - by left.
  - exact (triple_eta r).
  - split.
    + destruct (H1 [] ltac:(apply list_subseteq_nil)) as (H & _). cbn [run_tasks fold_left] in H. rewrite H. by vm_compute.
    + destruct (H3 r.2 ltac:(done)) as [H _]. rewrite H; by vm_compute.
Defined.

(** When the page asks for a second factor after a login over the server, the token
    and the keys are already in the tab: coming to the login page again, before any code
    was typed, leads straight to the vault. *)
Theorem second_step_skippable (KD : KeyDerivation) (A2 : Argon2) e p b a p' b' tasks :
  submits e p b → le_server e = Some a → accepts a → le_subtle e = true →
  otp_enabled (totp (getMfaConfig (le_mfa e))) = true →
  handleLogin e p b = (p', b', tasks) →
  lp_step p' = StepTotp ∧ lp_at p' = lp_at p ∧ is_Some (localKeyV1 (mem (b_tab b'))) ∧
  ∀ q ts, lp_at (mount q (set_tab b' (run_tasks ts (b_tab b')))).1 = AtVault.
Proof.
  intros Hsub Hserv (Hst & Hok & Herr & Hpt) Hsubtle Hmfa Hr. rewrite (submits_server e p b a) in Hr by done.
  set (b0 := with_cookie _ _) in Hr. assert (F := server_login_frame (started p) e (own_salt e b) a b0 Hpt). rewrite Hr in F. cbn [fst snd] in F.
  destruct F as (Ft & _ & _). unfold server_login in Hr. rewrite Hpt in Hr. cbn [truthy_text] in Hr.
  assert (K : k_token (mem (b_tab (server_keys (started p) e (own_salt e b) a b0).1)) = Some (utf8_encode (le_token e)) ∧
    is_Some (localKeyV1 (mem (b_tab (server_keys (started p) e (own_salt e b) a b0).1))) ∧ b_mfa (server_keys (started p) e (own_salt e b) a b0).1 = le_mfa e).
  { destruct (server_keys_frame (started p) e (own_salt e b) a b0 Hsubtle) as (E1 & E2 & E3). by rewrite E1, E2, E3. }
  destruct K as (K1 & K2 & K3). destruct (server_keys _ _ _ _ _) as [b1 ts1]. cbn [fst snd] in *. rewrite K3, Hmfa in Hr. cbn [orb] in Hr.
  unfold ask_code in Hr. injection Hr as <- <- <-. split; [done|]. split; [done|]. split; [done|]. intros q ts.
  unfold mount. cbn [fst b_tab set_tab]. destruct (run_tasks_v1 ts (b_tab b1)) as (T1 & _ & _). rewrite K1 in T1.
  assert (R : is_Some (k_token (mem (restoreAsync (run_tasks ts (b_tab b1)))))).
  { unfold restoreAsync. destruct (session _) as [d|]; [|by rewrite T1]. destruct (wrap _); [|by rewrite T1]. cbn. rewrite T1. by destruct (sn_token d). }
  rewrite (bool_decide_true _ R). done.
Qed.

Lemma second_step_skippable_witness :
  let r := handleLogin (env_with 1000 positive (Some with_totp)) at_password old_browser in
  lp_step r.1.1 = StepTotp ∧ lp_at (mount login_page r.1.2).1 = AtVault.
Proof.
  set (r := handleLogin _ _ _).
  destruct (second_step_skippable toy_kdf toy_argon2 (env_with 1000 positive (Some with_totp)) at_password old_browser positive r.1.1 r.1.2 r.2)
    as (H1 & _ & _ & H2).
  - split; [done|]. split; [done|]. split; [done|]. by left.
  - done.
  - by repeat split.
  - done.
  - done.
  - exact (triple_eta r).
  - split; [done|]. specialize (H2 login_page []). by destruct (r.1.2).
Defined.

(** An authenticator app set up in the settings has codes of eight digits, and the
    boxes of the login page hold six: whatever is typed or pasted, no code of it is
    accepted and nothing is sent. *)
Theorem enrolled_totp_unusable (JC : JsCase) (OH : OtpHmac) code now s p b l now' uuid publish finish :
  su_type s = TotpType → su_secret s ≠ [] → su_modal s ≠ Some (TypeTotp, 3) →
  su_modal (handleTotpVerify code now s) = Some (TypeTotp, 3) →
  b_mfa b = su_cache (handleTotpVerify code now s) →
  lp_mfaMethod p = ByTotp → lp_code p = empty_boxes 6 →
  ∃ b', handleTotpSubmit now' uuid publish finish (typed l p) b = (code_failed (typed l p) (lp_partialToken p), b', None).
Proof.
  intros Ht Hsec Hm0 Hm Hb Hby Hcode. unfold handleTotpVerify in Hm, Hb. rewrite Ht in Hm, Hb.
  destruct (verifyTotp _ _ _ _ _ _) as [[] used]; [|done].
  cbn [su_cache set_modal] in Hb. rewrite refresh_cache in Hb. cbn in Hb.
  destruct (typed_frame l p) as [Hok [code' E]]; [rewrite Hcode; apply empty_boxes_ok|].
  destruct (check_eight (typed l p) now' b (totp (getMfaConfig (b_mfa b))) Hok) as [b' Hc].
  - by rewrite E.
  - done.
  - by rewrite Hb.
  - rewrite Hb. destruct (su_secret s) as [|c q] eqn:Es; [done|]. by exists c, q.
  - exists b'. unfold handleTotpSubmit. rewrite Hc. cbn [negb]. by rewrite E.
Qed.

Definition shown_code : list jsstr := map (λ d, [d]) (@computeHotp ascii_case OtpSpec.toy_hmac (js "JBSWY3DPEHPK3PXP") 100 (js "SHA-256") 8).
Definition setting_up : Setup :=
  mkSetup (Some (TypeTotp, 2)) (js "JBSWY3DPEHPK3PXP") TotpType 0 shown_code false [] (empty_boxes 6) None false None None None ∅ true.

(** The code the settings accepted, pasted on the login page within the same period. *)
Lemma enrolled_totp_unusable_witness :
  su_modal (handleTotpVerify shown_code 3000000 setting_up) = Some (TypeTotp, 3) ∧
  ∃ b', handleTotpSubmit 3000001 [] None (λ _, Some true) (typed [Paste (concat shown_code)] at_password)
          (LoginPage.set_mfa old_browser (su_cache (handleTotpVerify shown_code 3000000 setting_up)))
        = (code_failed (typed [Paste (concat shown_code)] at_password) None, b', None).
Proof.
  assert (M : su_modal (handleTotpVerify shown_code 3000000 setting_up) = Some (TypeTotp, 3)) by by vm_compute.
  split; [done|]. eapply (enrolled_totp_unusable ascii_case OtpSpec.toy_hmac shown_code 3000000 setting_up at_password); done.
Defined.

(** C10: wrong credentials in a row lock the login page exactly when there are as many as
    the configuration allows, until its number of minutes after the last one; a locked
    page sends nothing and changes nothing. *)
Theorem login_lockout (KD : KeyDerivation) (A2 : Argon2) b c ts t b' e p :
  getLockoutConfig (b_modes b) = c → l_enabled c = true → attemptsMade c = 0 → lockedUntil c = None →
  failing b ts b' → last ts = Some t → 0 < t → 0 < lockoutDurationMins c → lp_loading p = false →
  let locked := l_maxAttempts c <= len ts ∧ le_now e < t + lockoutDurationMins c * 60000 in
  ((checkIsLockedOut (b_modes b') (le_now e)).1 = true ↔ locked) ∧
  (locked → ∃ p', handleLogin e p b' = (p', b', []) ∧ lp_error p' = Some AccountLocked ∧ lp_at p' = lp_at p).
Proof.
  intros Hc Hen Hm Hu Hf Hlast Ht Hd Hl locked.
  set (s0 := set_lockout no_modes (Some c)). assert (E := failing_config b ts b' c s0 Hf Hc eq_refl).
  destruct (fail_at_config [] s0 c ts eq_refl Hen Hm Hu) as (u & Hs & Hge & Hlt).
  assert (Hne : ts ≠ []) by (intros ->; done).
  assert (L : (checkIsLockedOut (b_modes b') (le_now e)).1 = true ↔ locked).
  { unfold checkIsLockedOut. rewrite E. unfold getLockoutConfig. rewrite Hs. cbn. unfold locked.
    destruct (Z.lt_ge_cases (len ts) (l_maxAttempts c)) as [Hlt'|Hge']; [rewrite Hlt by done; cbn; lia|].
    destruct (Hge Hne Hge') as (t' & Ht' & ->). rewrite Hlast in Ht'. injection Ht' as <-.
    rewrite (proj2 (Z.eqb_neq _ 0)) by lia. rewrite Z.geb_leb. destruct (Z.leb_spec (t + lockoutDurationMins c * 60000) (le_now e)); cbn; split; try done; lia. }
  split; [done|]. intros Hk%L. unfold handleLogin. rewrite Hl, Hk. by eexists.
Qed.

Lemma login_lockout_witness :
  let r1 := handleLogin (env_with 1000 negative None) at_password old_browser in
  let r2 := handleLogin (env_with 2000 negative None) at_password r1.1.2 in
  let r3 := handleLogin (env_with 3000 negative None) at_password r2.1.2 in
  (checkIsLockedOut (b_modes r3.1.2) 4000).1 = true.
Proof.
  intros r1 r2 r3.
  apply (login_lockout toy_kdf toy_argon2 old_browser default_lockout [1000; 2000; 3000] 3000 r3.1.2 (env_with 4000 negative None) at_password); try done.
  change [1000; 2000; 3000] with ((([] ++ [le_now (env_with 1000 negative None)]) ++ [le_now (env_with 2000 negative None)]) ++ [le_now (env_with 3000 negative None)]).
  eapply fail_again with (b1 := r2.1.2) (p := at_password) (p' := r3.1.1) (tasks := r3.2) (r := None);
    [eapply fail_again with (b1 := r1.1.2) (p := at_password) (p' := r2.1.1) (tasks := r2.2) (r := None);
      [eapply fail_again with (b1 := old_browser) (p := at_password) (p' := r1.1.1) (tasks := r1.2) (r := None); [apply fail_start|..]|..]|..];
    by vm_compute.
Defined.

(** When the server asks for the second factor, the page stores no keys and checks
    the code itself first: without a configuration in memory it accepts none of an
    authenticator app, and of e-mail codes only the one it made up; the vault is reached
    only if the server takes that one, and then without keys. *)
Theorem server_factor_unusable (KD : KeyDerivation) (A2 : Argon2) (JC : JsCase) (OH : OtpHmac)
    e p b a tok own pending p1 b1 tasks l now uuid publish finish :
  submits e p b → le_server e = Some a → 200 <= la_status a <= 299 → la_ok a = true → la_error a = None →
  la_partialToken a = Some tok → tok ≠ [] → b_mfa b = None → lp_code p = empty_boxes 6 →
  generateEmailCode (le_draws e) (le_now e) (lp_email p) = Some (own, pending) →
  handleLogin e p b = (p1, b1, tasks) →
  let r := handleTotpSubmit now uuid publish finish (typed l p1) b1 in
  lp_step p1 = StepTotp ∧ tasks = [] ∧ mem (b_tab r.1.2) = mem (b_tab b) ∧
  (∀ body, r.2 = Some body → body = mkFinish tok None (Some own)) ∧
  (lp_at p ≠ AtVault → lp_at r.1.1 = AtVault → finish (mkFinish tok None (Some own)) = Some true).
Proof.
  intros Hsub Hserv Hst Hok Herr Hpt Htok Hmfa Hcode Hgen Hr r. rewrite (submits_server e p b a) in Hr by done.
  set (b0 := with_cookie _ _) in Hr. assert (B : mem (b_tab b0) = mem (b_tab b) ∧ b_mfa b0 = None) by (unfold b0; by destruct (la_cookie a)).
  destruct B as [B1 B2]. unfold server_login in Hr. rewrite Hpt in Hr. destruct tok as [|x tok]; [done|]. cbn [truthy_text] in Hr.
  unfold ask_code in Hr. injection Hr as <- <- <-. split; [done|]. split; [done|].
  set (method := if existsb _ _ then ByTotp else ByEmail) in *. set (p1 := mkLogin _ _ _ _ _ _ _ _ _ _ _ _ _ _ _) in r.
  destruct (typed_frame l p1) as [Hbox [code' E]]; [cbn; rewrite Hcode; apply empty_boxes_ok|].
  destruct (boxes_digits _ Hbox) as [_ Hdig]. unfold r, handleTotpSubmit. unfold check_code.
  assert (lp_mfaMethod (typed l p1) = method) as -> by (by rewrite E). assert (lp_partialToken (typed l p1) = Some (x :: tok)) as Hp by (by rewrite E).
  assert (lp_daemonWasUnlocked (typed l p1) = false) as Hdw by (by rewrite E).
  destruct method.
  - rewrite B2. cbn [getMfaConfig default from_option id truthy_text]. cbn. split; [done|]. split; [done|]. rewrite E. done.
  - unfold email_code. change (lp_email (started p)) with (lp_email p). rewrite Hgen. cbn [b_pending set_otp].
    assert (pending = Some (mkPending own (lp_email p) (le_now e + 5 * 60 * 1000))) as ->.
    { unfold generateEmailCode in Hgen. destruct (draw_below _ _); cbn in Hgen; [|done]. by injection Hgen as <- <-. }
    cbn [verifyEmailCode po_code po_expires]. destruct (now >? _); [cbn; split; [done|]; split; [done|]; by rewrite E|].
    rewrite strip_digits by done. destruct (str_eqb own _) eqn:Eo; [|cbn; split; [done|]; split; [done|]; by rewrite E].
    apply str_eqb_eq in Eo as <-. cbn [negb]. rewrite Hp, Hdw. cbn [truthy_text]. destruct (finish _) as [[]|] eqn:Ef.
    + unfold complete. cbn [fst snd]. split; [by rewrite (proj1 (publish_frame _ _ _))|]. split; [by intros body [= <-]|]. done.
    + cbn. split; [done|]. split; [by intros body [= <-]|]. by rewrite E.
    + cbn. split; [done|]. split; [by intros body [= <-]|]. by rewrite E.
Qed.

Lemma server_factor_unusable_witness :
  let r := handleLogin (env_with 1000 asks_code None) at_password old_browser in
  let s := handleTotpSubmit 2000 [] None (λ body, Some (bool_decide (fb_emailCode body = Some (js "654321"))))
             (typed [Paste (js "654321")] r.1.1) r.1.2 in
  lp_step r.1.1 = StepTotp ∧ lp_at s.1.1 ≠ AtVault ∧ mem (b_tab s.1.2) = Keystore.no_keys.
Proof.
  set (r := handleLogin _ _ _). intros s.
  destruct (server_factor_unusable toy_kdf toy_argon2 ascii_case OtpSpec.toy_hmac (env_with 1000 asks_code None) at_password old_browser asks_code (js "partial")
    (js "123456") (Some (mkPending (js "123456") (js "a@b.c") 301000)) r.1.1 r.1.2 r.2 [Paste (js "654321")] 2000 []
    None (λ body, Some (bool_decide (fb_emailCode body = Some (js "654321"))))) as (H1 & _ & H3 & _ & H5).
  - split; [done|]. split; [done|]. split; [done|]. by left.
  - done.
  - done.
  - done.
  - done.
  - done.
  - done.
  - done.
  - done.
  - by vm_compute.
  - exact (triple_eta r).
  - split; [done|]. split; [|exact H3]. intros Hv. specialize (H5 ltac:(done) Hv). done.
Defined.
End LoginSpecs.
