(* ===== verification/FileCrypto.v ===== *)
(** * Encrypted files of the server
    ([web/lib/fileCrypto.js], [web/lib/vaultRepository.js])

    The key derivation with its cache, the blob format, files that hold the
    encrypted JSON text of a value, the transactions on the list of users and the
    file repository.  The file system is a finite map from paths to contents. *)
From S2P Require Import Prelude JsRuntime JsText Json JsonSpec Base64.

(** The primitives of Node's [crypto]. *)
Class NodeCrypto := {
  hkdf_sha384 : bytes → bytes → Z → bytes;                   (* key, info, length *)
  gcm_encrypt : bytes → bytes → bytes → bytes * bytes;       (* key, iv, plaintext: ciphertext and tag *)
  gcm_decrypt : bytes → bytes → bytes → bytes → option bytes (* key, iv, ciphertext, tag *)
}.

(** What AES-GCM guarantees of them. *)
Class NodeCryptoLaws `{NodeCrypto} := {
  gcm_tag_length k iv p : length (gcm_encrypt k iv p).2 = 16%nat;
  gcm_roundtrip k iv p : gcm_decrypt k iv (gcm_encrypt k iv p).1 (gcm_encrypt k iv p).2 = Some p;
}.

(** [buf.toString('utf8')]: as [TextDecoder], but a byte order mark stays. *)
Definition buf_utf8 (b : bytes) : jsstr := of_scalars (utf8_run utf8_init b).

Abbreviation fs := (@gmap (list Z) (@list_eq_dec Z Z.eq_dec) (@list_countable Z Z.eq_dec Z_countable) (list Z)).

(** How a callback ends: a result with the users to save, a result that skips
    the save ([false]), or an error. *)
Inductive tx (R : Type) := Commit (r : R) (users : json) | Skip (r : R) | Abandon (err : jsstr).
Arguments Commit {R} r users.
Arguments Skip {R} r.
Arguments Abandon {R} err.

(** ** Keys *)

Section keys.
Context `{NodeCrypto} (MASTER_KEY : bytes).

Definition cache_key (info : jsstr) (length : Z) : jsstr := info ++ js ":" ++ dec length.

(** [derivedKey] with [ctx.derivedKeyCache]. *)
Definition derivedKey (info : jsstr) (length : Z) (cache : gmap jsstr bytes) : gmap jsstr bytes * bytes :=
  match cache !! cache_key info length with
  | Some key => (cache, key)
  | None =>
      let key := hkdf_sha384 MASTER_KEY (utf8_encode info) length in
      (<[cache_key info length := key]> cache, key)
  end.

(** The key the cache stands for. *)
Definition derived (info : jsstr) : bytes := hkdf_sha384 MASTER_KEY (utf8_encode info) 32.

(** ** Blobs *)

Definition encryptBlob (iv : bytes) (info : jsstr) (plaintext : bytes) : bytes :=
  let '(ct, tag) := gcm_encrypt (derived info) iv plaintext in iv ++ tag ++ ct.

Definition decryptBlob (info : jsstr) (blob : bytes) : option bytes :=
  if len blob <? 12 + 16 then None
  else gcm_decrypt (derived info) (take 12 blob) (drop 28 blob) (slice blob 12 28).

(** ** Files *)

Definition tmp_of (filePath : jsstr) : jsstr := filePath ++ js ".tmp".

(** The steps the file system takes for [writeEncryptedFile], between any two of
    which the process may die: [writeFileSync] creates or truncates the file and then
    adds the bytes one after the other (a partial file is what a crash inside it
    leaves), [renameSync] replaces the target at once. *)
Inductive fs_step := Truncate (p : jsstr) | Append (p : jsstr) (b : Z) | Rename (p q : jsstr).

Definition fs_do (f : fs) (s : fs_step) : fs :=
  match s with
  | Truncate p => <[p := []]> f
  | Append p b => <[p := default [] (f !! p) ++ [b]]> f
  | Rename p q => match f !! p with Some b => <[q := b]> (delete p f) | None => f end
  end.

(** [fs.writeFileSync(p, data)]. *)
Definition writeFileSync (p : jsstr) (data : bytes) : list fs_step := Truncate p :: map (Append p) data.

Definition write_steps (iv : bytes) (filePath info : jsstr) (v : json) : list fs_step :=
  writeFileSync (tmp_of filePath) (encryptBlob iv info (utf8_encode (stringify v)))
  ++ [Rename (tmp_of filePath) filePath].

Definition writeEncryptedFile (iv : bytes) (filePath info : jsstr) (v : json) (f : fs) : fs :=
  fold_left fs_do (write_steps iv filePath info v) f.

Context `{JsFloat}.

Definition open_value (info : jsstr) (blob : bytes) : option json := pt ← decryptBlob info blob; parse (buf_utf8 pt).

Definition readEncryptedFile (filePath info : jsstr) (fallback : json) (f : fs) : json :=
  match f !! filePath with
  | None => fallback
  | Some blob => match open_value info blob with Some v => v | None => fallback end
  end.

(** The strict reader throws ([None]) when the file does not open. *)
Definition readEncryptedFileStrict (filePath info : jsstr) (fallback : json) (f : fs) : option json :=
  match f !! filePath with None => Some fallback | Some blob => open_value info blob end.

(** ** Paths *)

Context (DATA_DIR : jsstr).

Definition usersPath : jsstr := DATA_DIR ++ js "/users.enc".
Definition userVaultDir (uid : jsstr) : jsstr := DATA_DIR ++ js "/vault/" ++ uid.
Definition userVaultFile (uid name : jsstr) : jsstr := userVaultDir uid ++ js "/" ++ name ++ js ".enc".
Definition userInfo (uid name : jsstr) : jsstr := js "vault/" ++ uid ++ js "/" ++ name.

Definition USERS_INFO : jsstr := js "users/enc".

(** ** Users *)

Definition loadUsers (f : fs) : json := readEncryptedFile usersPath USERS_INFO (JArr []) f.
Definition saveUsers (iv : bytes) (users : json) (f : fs) : fs := writeEncryptedFile iv usersPath USERS_INFO users f.

Definition withUsersLock {R} (iv0 iv1 : bytes) (fn : json → tx R) (f : fs) : fs * result jsstr R :=
  let f := match f !! usersPath with None => writeEncryptedFile iv0 usersPath USERS_INFO (JArr []) f | Some _ => f end in
  match fn (readEncryptedFile usersPath USERS_INFO (JArr []) f) with
  | Commit r users => (saveUsers iv1 users f, Ok r)
  | Skip r => (f, Ok r)
  | Abandon err => (f, Throw err)
  end.

(** ** [FileVaultRepository] *)

Definition users_list (users : json) : list json := match users with JArr l => l | _ => [] end.

Definition has_field (k : string) (v : jsstr) (u : json) : bool :=
  match prop k u with Some (JStr s) => str_eqb s v | _ => false end.

Definition findUserByEmailHash (emailHash : jsstr) (f : fs) : option json :=
  List.find (has_field "emailHash" emailHash) (users_list (loadUsers f)).

Definition findUserById (id : jsstr) (f : fs) : option json :=
  List.find (has_field "id" id) (users_list (loadUsers f)).

Definition emailHash_of (u : json) : option json := prop "emailHash" u.

Definition insertUser (iv0 iv1 : bytes) (user : json) (f : fs) : fs * result jsstr (option json) :=
  withUsersLock iv0 iv1 (λ users,
    if existsb (λ u, bool_decide (emailHash_of u = emailHash_of user)) (users_list users) then Abandon (js "USER_EXISTS")
    else Commit (prop "id" user) (JArr (users_list users ++ [user]))) f.

(** The first user with the id is replaced by what [fn] makes of it. *)
Fixpoint update_first {A} (p : A → bool) (fn : A → A) (l : list A) : list A :=
  match l with [] => [] | x :: l' => if p x then fn x :: l' else x :: update_first p fn l' end.

Fixpoint remove_first {A} (p : A → bool) (l : list A) : list A :=
  match l with [] => [] | x :: l' => if p x then l' else x :: remove_first p l' end.

(** [fn] gives the changed user, or [None] for [false]; the answer is whether a
    user matched and whether it was written. *)
Definition updateUserById (iv0 iv1 : bytes) (id : jsstr) (fn : json → option json) (f : fs)
    : fs * result jsstr (option bool) :=
  withUsersLock iv0 iv1 (λ users,
    match List.find (has_field "id" id) (users_list users) with
    | None => Skip None
    | Some u => match fn u with
                | None => Skip (Some false)
                | Some u' => Commit (Some true) (JArr (update_first (has_field "id" id) (λ _, u') (users_list users)))
                end
    end) f.

Definition deleteUserById (iv0 iv1 : bytes) (id : jsstr) (f : fs) : fs * result jsstr unit :=
  withUsersLock iv0 iv1 (λ users,
    match List.find (has_field "id" id) (users_list users) with
    | None => Skip tt
    | Some _ => Commit tt (JArr (remove_first (has_field "id" id) (users_list users)))
    end) f.

Definition getResource (uid name : jsstr) (f : fs) : json :=
  readEncryptedFile (userVaultFile uid name) (userInfo uid name) JNull f.

Definition setResource (iv : bytes) (uid name : jsstr) (v : json) (f : fs) : fs :=
  writeEncryptedFile iv (userVaultFile uid name) (userInfo uid name) v f.

Definition deleteResource (uid name : jsstr) (f : fs) : fs := delete (userVaultFile uid name) f.

Definition deleteUserData (uid : jsstr) (f : fs) : fs :=
  filter (λ pb, starts_with (userVaultDir uid ++ js "/") pb.1 = false) f.
End keys.

(** Digests as lower-case hexadecimal text. *)
Class ServerHash := {
  sha256_hex : bytes → jsstr;
  hmac_sha256_hex : bytes → bytes → jsstr;   (* key, data *)
}.

(** [hashEmail]: the index of users. *)
Definition hashEmail `{ServerHash, JsCase} (MASTER_KEY : bytes) (email : jsstr) : jsstr :=
  hmac_sha256_hex MASTER_KEY (utf8_encode (toLowerCase (trim email))).

(** * Theorems on the encrypted files of the server *)

Section files.
Context {NC : NodeCrypto} {NL : NodeCryptoLaws} {JF : JsFloat} (MASTER_KEY : bytes).

Lemma buf_utf8_stringify j : json_ok j = true → buf_utf8 (utf8_encode (stringify j)) = stringify j.
Proof.
  intros Hj. assert (Hw : well_formed (stringify j) = true).
  { rewrite <- (app_nil_r (stringify j)). by rewrite neutral_stringify. }
  unfold buf_utf8, utf8_encode. rewrite utf8_run_scalars by (by apply to_scalars_scalar). by apply of_to_scalars.
Qed.

(** ** Blobs and files *)

Lemma blob_roundtrip iv info p : length iv = 12%nat → decryptBlob MASTER_KEY info (encryptBlob MASTER_KEY iv info p) = Some p.
Proof.
  intros Hiv. unfold encryptBlob, decryptBlob. pose proof (gcm_tag_length (derived MASTER_KEY info) iv p) as Ht.
  pose proof (gcm_roundtrip (derived MASTER_KEY info) iv p) as Hr.
  destruct (gcm_encrypt (derived MASTER_KEY info) iv p) as [ct tag]. cbn [fst snd] in *.
  rewrite (proj2 (Z.ltb_ge _ _)) by (unfold len; rewrite !length_app; lia).
  rewrite (take_app_length' iv) by (by rewrite Hiv). unfold slice.
  rewrite (drop_app_length' iv (tag ++ ct) 12) by (by rewrite Hiv). change (28 - 12)%nat with 16%nat.
  rewrite (take_app_length' tag) by (by rewrite Ht).
  assert (drop 28 (iv ++ tag ++ ct) = ct) as ->; [|done].
  rewrite app_assoc. apply drop_app_length'. rewrite length_app. lia.
Qed.

Lemma tmp_ne p : tmp_of p ≠ p.
Proof. unfold tmp_of. intros E. apply (f_equal length) in E. rewrite length_app in E. cbn in E. lia. Qed.

(** While bytes are added to [t], [t] holds a prefix and every other file is as it was. *)
Lemma append_all t (d e : bytes) (f : fs) :
  fold_left fs_do (map (Append t) d) (<[t := e]> f) = <[t := e ++ d]> f.
Proof.
  revert e. induction d as [|b d IH]; intros e; cbn [map fold_left]; [by rewrite app_nil_r|].
  assert (fs_do (<[t := e]> f) (Append t b) = <[t := e ++ [b]]> f) as ->.
  { cbn [fs_do]. rewrite lookup_insert_eq. cbn [from_option id]. by rewrite insert_insert_eq. }
  by rewrite IH, <- app_assoc.
Qed.

Lemma writeFileSync_all t d (f : fs) : fold_left fs_do (writeFileSync t d) f = <[t := d]> f.
Proof. unfold writeFileSync. cbn [fold_left fs_do]. by rewrite append_all. Qed.

Lemma writeFileSync_prefix t d (f : fs) n q :
  q ≠ t → fold_left fs_do (take n (writeFileSync t d)) f !! q = f !! q.
Proof.
  intros Hq. unfold writeFileSync. destruct n as [|n]; [done|]. cbn [take fold_left fs_do].
  rewrite firstn_map, append_all. by rewrite lookup_insert_ne.
Qed.

(** A write has two outcomes: the temporary file alone has changed, or it has
    become the file. *)
Lemma write_steps_prefix (iv p info : jsstr) (v : json) (f : fs) n q :
  q ≠ tmp_of p →
  fold_left fs_do (take n (write_steps MASTER_KEY iv p info v)) f !! q = f !! q ∨
  take n (write_steps MASTER_KEY iv p info v) = write_steps MASTER_KEY iv p info v.
Proof.
  intros Hq. unfold write_steps. set (W := writeFileSync _ _).
  destruct (decide (n ≤ length W)%nat) as [Hn|Hn].
  - left. rewrite take_app_le by done. by apply writeFileSync_prefix.
  - right. apply take_ge. rewrite length_app. cbn [length]. lia.
Qed.

Lemma write_result (iv p info : jsstr) (v : json) (f : fs) :
  writeEncryptedFile MASTER_KEY iv p info v f
  = <[p := encryptBlob MASTER_KEY iv info (utf8_encode (stringify v))]> (delete (tmp_of p) f).
Proof.
  unfold writeEncryptedFile, write_steps. rewrite fold_left_app, writeFileSync_all. cbn [fold_left fs_do].
  by rewrite lookup_insert_eq, delete_insert_eq.
Qed.

Lemma write_lookup (iv p info : jsstr) (v : json) (f : fs) :
  writeEncryptedFile MASTER_KEY iv p info v f !! p = Some (encryptBlob MASTER_KEY iv info (utf8_encode (stringify v))).
Proof.
  by rewrite write_result, lookup_insert_eq.
Qed.

Lemma write_frame (iv p info : jsstr) (v : json) (f : fs) q :
  q ≠ p → q ≠ tmp_of p → writeEncryptedFile MASTER_KEY iv p info v f !! q = f !! q.
Proof.
  intros Hp Ht. by rewrite write_result, lookup_insert_ne, lookup_delete_ne.
Qed.

Lemma open_written iv info v :
  length iv = 12%nat → json_ok v = true →
  open_value MASTER_KEY info (encryptBlob MASTER_KEY iv info (utf8_encode (stringify v))) = Some v.
Proof.
  intros Hiv Hv. unfold open_value. rewrite blob_roundtrip by done. cbn [mbind option_bind].
  rewrite buf_utf8_stringify by done. by apply parse_stringify.
Qed.

Lemma read_written (iv p info : jsstr) (v fb : json) (f : fs) :
  length iv = 12%nat → json_ok v = true →
  readEncryptedFile MASTER_KEY p info fb (writeEncryptedFile MASTER_KEY iv p info v f) = v.
Proof. intros. unfold readEncryptedFile. rewrite write_lookup. by rewrite open_written. Qed.

(** ** Transactions on the users *)

Context (DATA_DIR : jsstr).

(** The users a readable (or absent) file holds. *)
Definition holds (us : list json) (f : fs) : Prop :=
  match f !! usersPath DATA_DIR with
  | None => us = []
  | Some blob => open_value MASTER_KEY USERS_INFO blob = Some (JArr us)
  end.

Lemma holds_load us f : holds us f → loadUsers MASTER_KEY DATA_DIR f = JArr us.
Proof.
  unfold holds, loadUsers, readEncryptedFile. destruct (f !! usersPath DATA_DIR); [by intros ->|by intros ->].
Qed.

Lemma save_holds (iv : bytes) (us : list json) (f : fs) :
  length iv = 12%nat → json_ok (JArr us) = true → holds us (saveUsers MASTER_KEY DATA_DIR iv (JArr us) f).
Proof. intros Hiv Hu. unfold holds, saveUsers. rewrite write_lookup. by apply open_written. Qed.

(** A transaction on a file that holds [us] is the callback on [us]. *)
Lemma lock_holds {R} (iv0 iv1 : bytes) (fn : json → tx R) (f : fs) (us : list json) :
  length iv0 = 12%nat → length iv1 = 12%nat → holds us f →
  (∀ r us', fn (JArr us) = Commit r us' → json_ok us' = true) →
  match fn (JArr us), withUsersLock MASTER_KEY DATA_DIR iv0 iv1 fn f with
  | Commit r (JArr us'), (f', o) => holds us' f' ∧ o = Ok r
  | Commit r _, (f', o) => o = Ok r
  | Skip r, (f', o) => holds us f' ∧ o = Ok r
  | Abandon e, (f', o) => holds us f' ∧ o = Throw e
  end.
Proof.
  intros H0 H1 Hh Hok. unfold withUsersLock.
  set (f1 := match f !! usersPath DATA_DIR with None => _ | Some _ => _ end).
  assert (Hf1 : holds us f1).
  { unfold f1, holds in *. destruct (f !! usersPath DATA_DIR) as [b|] eqn:E; [by rewrite E|]. subst us.
    rewrite write_lookup. by apply open_written. }
  clearbody f1. pose proof (holds_load us f1 Hf1) as Hl. unfold loadUsers in Hl. rewrite Hl.
  destruct (fn (JArr us)) as [r us'|r|e]; [|done|done]. specialize (Hok r us' eq_refl).
  destruct us'; try done. split; [|done]. by apply save_holds.
Qed.

(** ** Key cache *)

Definition cache_ok (cache : gmap jsstr bytes) : Prop :=
  ∀ info n key, 0 <= n → cache !! cache_key info n = Some key → key = hkdf_sha384 MASTER_KEY (utf8_encode info) n.

Lemma digits_no_colon n : 0 <= n → 58 ∉ dec n.
Proof.
  intros Hn Hin. unfold dec in Hin. rewrite (proj2 (Z.ltb_ge n 0)) in Hin by done.
  destruct (dec_nonneg_spec n Hn) as (_ & Hd & _). rewrite Forall_forall in Hd. by specialize (Hd 58 Hin).
Qed.

Lemma last_colon_inj (a b : jsstr) (x y : jsstr) :
  58 ∉ x → 58 ∉ y → a ++ 58 :: x = b ++ 58 :: y → a = b ∧ x = y.
Proof.
  intros Hx Hy. revert b. induction a as [|c a IH]; intros [|d b] E; cbn in E.
  - by injection E as ->.
  - injection E; intros; subst. set_solver.
  - injection E; intros; subst. set_solver.
  - injection E as -> E. destruct (IH b E) as [-> ->]. done.
Qed.

Lemma dec_inj n m : 0 <= n → 0 <= m → dec n = dec m → n = m.
Proof.
  intros Hn Hm E. unfold dec in E. rewrite (proj2 (Z.ltb_ge n 0)), (proj2 (Z.ltb_ge m 0)) in E by done.
  apply (f_equal dec_value) in E. by rewrite (proj1 (dec_nonneg_spec n Hn)), (proj1 (dec_nonneg_spec m Hm)) in E.
Qed.

Lemma cache_key_inj i j n m : 0 <= n → 0 <= m → cache_key i n = cache_key j m → i = j ∧ n = m.
Proof.
  intros Hn Hm E. apply last_colon_inj in E as [-> E]; [|by apply digits_no_colon..]. split; [done|by apply dec_inj].
Qed.

Lemma derivedKey_ok info n cache :
  0 <= n → cache_ok cache →
  cache_ok (derivedKey MASTER_KEY info n cache).1 ∧
  (derivedKey MASTER_KEY info n cache).2 = hkdf_sha384 MASTER_KEY (utf8_encode info) n.
Proof.
  intros Hn Hc. unfold derivedKey. destruct (cache !! cache_key info n) as [key|] eqn:E; cbn [fst snd].
  - split; [done|]. by apply (Hc info n).
  - split; [|done]. intros i m key Hm Hk. destruct (decide (cache_key i m = cache_key info n)) as [Eq|Ne].
    + apply cache_key_inj in Eq as [-> ->]; [|done..]. rewrite lookup_insert_eq in Hk. by injection Hk.
    + rewrite lookup_insert_ne in Hk by done. by apply (Hc i m).
Qed.

(** ** Paths *)

Definition no_slash (s : jsstr) : Prop := 47 ∉ s.

Lemma slash_inj (a b x y : jsstr) : no_slash a → no_slash b → a ++ 47 :: x = b ++ 47 :: y → a = b ∧ x = y.
Proof.
  unfold no_slash. revert b. induction a as [|c a IH]; intros [|d b] Ha Hb E; cbn in E.
  - by injection E as ->.
  - injection E; intros; subst. set_solver.
  - injection E; intros; subst. set_solver.
  - injection E as -> E. destruct (IH b) as [-> ->]; [set_solver|set_solver|done|done].
Qed.

Lemma dir_split uid uid' (x y : jsstr) :
  no_slash uid → no_slash uid' →
  userVaultDir DATA_DIR uid ++ js "/" ++ x = userVaultDir DATA_DIR uid' ++ js "/" ++ y → uid = uid' ∧ x = y.
Proof.
  intros Hu Hu'. unfold userVaultDir. rewrite <- !app_assoc. intros E. apply app_inv_head, app_inv_head in E.
  by apply slash_inj.
Qed.

Lemma vault_file_inj uid uid' name name' :
  no_slash uid → no_slash uid' →
  userVaultFile DATA_DIR uid name = userVaultFile DATA_DIR uid' name' → uid = uid' ∧ name = name'.
Proof.
  intros Hu Hu' E. apply dir_split in E as [-> E]; [|done..]. split; [done|]. by apply app_inv_tail in E.
Qed.

Lemma vault_file_tmp uid uid' name name' : userVaultFile DATA_DIR uid name ≠ tmp_of (userVaultFile DATA_DIR uid' name').
Proof.
  unfold userVaultFile, tmp_of. intros E. apply (f_equal last) in E.
  rewrite !app_assoc, (last_app _ (js ".enc")), (last_app _ (js ".tmp")) in E. done.
Qed.
End files.

(** ** The repository on lists *)

(** The specification: operations on the list of users. *)
Inductive repo_op := OpInsert (user : json) | OpUpdate (id : jsstr) (fn : json → option json) | OpDelete (id : jsstr).

Definition list_do (us : list json) (op : repo_op) : list json :=
  match op with
  | OpInsert u => if existsb (λ v, bool_decide (emailHash_of v = emailHash_of u)) us then us else us ++ [u]
  | OpUpdate id fn =>
      match List.find (has_field "id" id) us with
      | Some u => match fn u with Some u' => update_first (has_field "id" id) (λ _, u') us | None => us end
      | None => us
      end
  | OpDelete id => remove_first (has_field "id" id) us
  end.

Section repository.
Context {NC : NodeCrypto} {NL : NodeCryptoLaws} {JF : JsFloat} (MASTER_KEY DATA_DIR iv : bytes).

Definition file_do (f : fs) (op : repo_op) : fs :=
  match op with
  | OpInsert u => (insertUser MASTER_KEY DATA_DIR iv iv u f).1
  | OpUpdate id fn => (updateUserById MASTER_KEY DATA_DIR iv iv id fn f).1
  | OpDelete id => (deleteUserById MASTER_KEY DATA_DIR iv iv id f).1
  end.

(** The values written are values of the language. *)
Definition op_ok (op : repo_op) : Prop :=
  match op with
  | OpInsert u => json_ok u = true
  | OpUpdate _ fn => ∀ u u', json_ok u = true → fn u = Some u' → json_ok u' = true
  | OpDelete _ => True
  end.

Definition all_ok (us : list json) : Prop := json_ok (JArr us) = true.

Lemma all_ok_app us vs : all_ok (us ++ vs) ↔ all_ok us ∧ all_ok vs.
Proof. unfold all_ok. cbn [json_ok]. rewrite forallb_app. apply andb_true_iff. Qed.

Lemma find_ok p us u : all_ok us → List.find p us = Some u → json_ok u = true.
Proof.
  unfold all_ok. cbn [json_ok]. intros Ha Hf. apply find_some in Hf as [Hin _]. rewrite forallb_forall in Ha. by apply Ha.
Qed.

Lemma update_first_ok p (u' : json) us : all_ok us → json_ok u' = true → all_ok (update_first p (λ _, u') us).
Proof.
  unfold all_ok. cbn [json_ok]. intros Ha Hu. induction us as [|v us IH]; [done|]. cbn in *. to_prop.
  destruct (p v); cbn; apply andb_true_intro; auto.
Qed.

Lemma remove_first_ok p us : all_ok us → all_ok (remove_first p us).
Proof.
  unfold all_ok. cbn [json_ok]. induction us as [|v us IH]; [done|]. cbn. intros. to_prop.
  destruct (p v); [done|]. cbn. apply andb_true_intro. auto.
Qed.

Lemma list_do_ok us op : all_ok us → op_ok op → all_ok (list_do us op).
Proof.
  intros Ha Ho. destruct op as [u|id fn|id]; cbn [list_do].
  - destruct (existsb _ us); [done|]. apply all_ok_app. split; [done|]. unfold all_ok. cbn in *. by rewrite Ho.
  - destruct (List.find _ us) as [u|] eqn:E; [|done]. destruct (fn u) as [u'|] eqn:Ef; [|done].
    apply update_first_ok; [done|]. exact (Ho u u' (find_ok _ us u Ha E) Ef).
  - by apply remove_first_ok.
Qed.

Lemma remove_none {A} (p : A → bool) l : List.find p l = None → remove_first p l = l.
Proof. induction l as [|x l IH]; [done|]. cbn. destruct (p x); [done|]. intros. by rewrite IH. Qed.

Lemma file_do_holds us f op :
  length iv = 12%nat → all_ok us → op_ok op → holds MASTER_KEY DATA_DIR us f →
  holds MASTER_KEY DATA_DIR (list_do us op) (file_do f op).
Proof.
  intros Hiv Ha Ho Hh. pose proof (list_do_ok us op Ha Ho) as Hl. destruct op as [u|id fn|id]; cbn [list_do file_do] in *.
  - unfold insertUser. match goal with |- holds _ _ _ (withUsersLock _ _ _ _ ?g f).1 =>
      pose proof (lock_holds MASTER_KEY DATA_DIR iv iv g f us Hiv Hiv Hh) as Hk end.
    cbn [users_list] in *. destruct (existsb _ us).
    + destruct (withUsersLock _ _ _ _ _ f). apply Hk. done.
    + destruct (withUsersLock _ _ _ _ _ f). apply Hk. intros ? ? [= <- <-]. exact Hl.
  - unfold updateUserById. match goal with |- holds _ _ _ (withUsersLock _ _ _ _ ?g f).1 =>
      pose proof (lock_holds MASTER_KEY DATA_DIR iv iv g f us Hiv Hiv Hh) as Hk end.
    cbn [users_list] in *. destruct (List.find _ us) as [u|]; [destruct (fn u) as [u'|]|].
    + destruct (withUsersLock _ _ _ _ _ f). apply Hk. intros ? ? [= <- <-]. exact Hl.
    + destruct (withUsersLock _ _ _ _ _ f). by apply Hk.
    + destruct (withUsersLock _ _ _ _ _ f). by apply Hk.
  - unfold deleteUserById. match goal with |- holds _ _ _ (withUsersLock _ _ _ _ ?g f).1 =>
      pose proof (lock_holds MASTER_KEY DATA_DIR iv iv g f us Hiv Hiv Hh) as Hk end.
    cbn [users_list] in *. destruct (List.find _ us) as [u|] eqn:E.
    + destruct (withUsersLock _ _ _ _ _ f). apply Hk. intros ? ? [= <- <-]. exact Hl.
    + rewrite remove_none by done. destruct (withUsersLock _ _ _ _ _ f). by apply Hk.
Qed.
End repository.

(** ** A concrete instance *)

Module ToyNode.
(** The tag depends on the key, so that another key does not open the blob. *)
Definition tag (k : bytes) : bytes := take 16 (k ++ zeros 16).
#[export] Instance node : NodeCrypto := {|
  hkdf_sha384 mk info n := take (Z.to_nat n) (mk ++ info ++ zeros 32);
  gcm_encrypt k iv p := (p, tag k);
  gcm_decrypt k iv c t := if bool_decide (t = tag k) then Some c else None |}.
#[export] Instance node_laws : NodeCryptoLaws.
Proof.
  split; intros; cbn [gcm_encrypt gcm_decrypt node fst snd].
  - unfold tag. rewrite length_take, length_app, zeros_length. lia.
  - by rewrite bool_decide_true.
Qed.
#[export] Instance float : JsFloat := {| to_number := Float |}.

Definition user (id email : string) : json := JObj [(js "id", JStr (js id)); (js "emailHash", JStr (js email))].
Definition iv : bytes := zeros 12.
End ToyNode.

Module ServerFiles.
Section claims.
Context {NC : NodeCrypto} {NL : NodeCryptoLaws} {JF : JsFloat}.

(** C22: Any sequence of insertions, updates and deletions through the encrypted
    users file leaves it holding the list the same operations give, starting from
    an absent or readable file; the lookups find what they find in the list. *)
Theorem users_file_refines MASTER_KEY DATA_DIR iv us f ops :
  length iv = 12%nat → all_ok us → Forall op_ok ops → holds MASTER_KEY DATA_DIR us f →
  let f' := fold_left (file_do MASTER_KEY DATA_DIR iv) ops f in
  let us' := fold_left list_do ops us in
  loadUsers MASTER_KEY DATA_DIR f' = JArr us' ∧
  ∀ x, findUserById MASTER_KEY DATA_DIR x f' = List.find (has_field "id" x) us' ∧
       findUserByEmailHash MASTER_KEY DATA_DIR x f' = List.find (has_field "emailHash" x) us'.
Proof.
  intros Hiv Ha Hops Hh. cbv zeta.
  assert (Hl : loadUsers MASTER_KEY DATA_DIR (fold_left (file_do MASTER_KEY DATA_DIR iv) ops f) = JArr (fold_left list_do ops us)).
  { revert us f Ha Hh. induction Hops as [|op ops Ho _ IH]; intros us f Ha Hh; [by apply holds_load|].
    cbn [fold_left]. apply IH; [by apply list_do_ok|by apply file_do_holds]. }
  split; [done|]. intros x. unfold findUserById, findUserByEmailHash. by rewrite Hl.
Qed.

(** C29: [writeFileSync] truncates its file and writes it byte by byte, so that a
    process that dies inside it leaves a partial file. If the process dies after any
    number of the steps of [writeEncryptedFile], the target is exactly as it was or
    reads as the whole new value, every other file but the temporary one is as it was,
    and the next write of the same file, over whatever the first left in the
    temporary file, reads back as its own value. *)
Theorem write_crash_safe MASTER_KEY iv p info (v v2 fb : json) (f : fs) n :
  length iv = 12%nat → json_ok v = true → json_ok v2 = true →
  let f' := fold_left fs_do (take n (write_steps MASTER_KEY iv p info v)) f in
  (f' !! p = f !! p ∨ readEncryptedFile MASTER_KEY p info fb f' = v) ∧
  (∀ q, q ≠ p → q ≠ tmp_of p → f' !! q = f !! q) ∧
  readEncryptedFile MASTER_KEY p info fb (writeEncryptedFile MASTER_KEY iv p info v2 f') = v2.
Proof.
  intros Hiv Hv Hv2 f'. split_and!.
  - destruct (write_steps_prefix MASTER_KEY iv p info v f n p) as [E|E]; [apply not_eq_sym, tmp_ne|by left|].
    right. unfold f'. rewrite E. by apply read_written.
  - intros q Hp Ht. destruct (write_steps_prefix MASTER_KEY iv p info v f n q Ht) as [E|E]; [done|].
    unfold f'. rewrite E. by apply write_frame.
  - by apply read_written.
Qed.

(** Written in place instead, a file the process dies in the middle of is lost: it
    neither is as it was nor opens. *)
Example in_place_write_torn :
  let f : fs := {[js "p" := [1; 2; 3]]} in
  let f' := fold_left fs_do (take 2 (writeFileSync (js "p") [4; 5; 6])) f in
  f' !! js "p" = Some [4].
Proof. reflexivity. Qed.

(** When the users file does not open (another master key, a damaged file)
    nobody is found and the next registration replaces the file by one that holds
    the new user alone. *)
Theorem unreadable_users_lost MASTER_KEY DATA_DIR iv (f : fs) blob user :
  length iv = 12%nat → json_ok user = true →
  f !! usersPath DATA_DIR = Some blob → open_value MASTER_KEY USERS_INFO blob = None →
  (∀ x, findUserByEmailHash MASTER_KEY DATA_DIR x f = None) ∧
  loadUsers MASTER_KEY DATA_DIR (insertUser MASTER_KEY DATA_DIR iv iv user f).1 = JArr [user].
Proof.
  intros Hiv Hu Hf Ho.
  assert (Hl : readEncryptedFile MASTER_KEY (usersPath DATA_DIR) USERS_INFO (JArr []) f = JArr [])
    by (unfold readEncryptedFile; by rewrite Hf, Ho).
  split; [intros x; unfold findUserByEmailHash, loadUsers; by rewrite Hl|].
  unfold insertUser, withUsersLock. rewrite Hf, Hl. cbn [users_list existsb app fst].
  apply holds_load, save_holds; [done|]. cbn. by rewrite Hu.
Qed.

(** What is written for one user under one name is read back under it, leaves
    every other resource of every user alone, and removing a user's data removes all
    of that user's resources and no other. *)
Theorem resources_isolated MASTER_KEY DATA_DIR iv uid name (v : json) (f : fs) :
  length iv = 12%nat → json_ok v = true → no_slash uid →
  let f' := setResource MASTER_KEY DATA_DIR iv uid name v f in
  getResource MASTER_KEY DATA_DIR uid name f' = v ∧
  getResource MASTER_KEY DATA_DIR uid name (deleteResource DATA_DIR uid name f') = JNull ∧
  getResource MASTER_KEY DATA_DIR uid name (deleteUserData DATA_DIR uid f') = JNull ∧
  ∀ uid' name', no_slash uid' → (uid', name') ≠ (uid, name) →
    getResource MASTER_KEY DATA_DIR uid' name' f' = getResource MASTER_KEY DATA_DIR uid' name' f ∧
    (uid' ≠ uid → getResource MASTER_KEY DATA_DIR uid' name' (deleteUserData DATA_DIR uid f')
                  = getResource MASTER_KEY DATA_DIR uid' name' f).
Proof.
  intros Hiv Hv Hu f'.
  assert (Hframe : ∀ uid' name', no_slash uid' → (uid', name') ≠ (uid, name) →
    f' !! userVaultFile DATA_DIR uid' name' = f !! userVaultFile DATA_DIR uid' name').
  { intros uid' name' Hu' Hne. apply write_frame; [|apply vault_file_tmp].
    intros E. apply vault_file_inj in E as [-> ->]; done. }
  assert (Hstart : ∀ uid' name', starts_with (userVaultDir DATA_DIR uid ++ js "/") (userVaultFile DATA_DIR uid' name') = true →
    no_slash uid' → uid' = uid).
  { intros uid' name' Hs Hu'. apply starts_with_spec in Hs as [k Hk]. unfold userVaultFile in Hk.
    rewrite <- app_assoc in Hk. by apply dir_split in Hk as [-> _]. }
  split_and!.
  - by apply read_written.
  - unfold getResource, deleteResource, readEncryptedFile. by rewrite lookup_delete_eq.
  - unfold getResource, deleteUserData, readEncryptedFile. rewrite map_lookup_filter_None_2; [done|right].
    intros b _ Hs. cbn [fst] in Hs. rewrite (proj2 (starts_with_spec _ _)) in Hs; [done|].
    exists (name ++ js ".enc"). unfold userVaultFile. by rewrite <- app_assoc.
  - intros uid' name' Hu' Hne. unfold getResource, readEncryptedFile. rewrite <- (Hframe uid' name' Hu' Hne). split; [done|].
    intros Hd. assert (deleteUserData DATA_DIR uid f' !! userVaultFile DATA_DIR uid' name' = f' !! userVaultFile DATA_DIR uid' name') as ->; [|done].
    unfold deleteUserData. destruct (f' !! userVaultFile DATA_DIR uid' name') as [b|] eqn:E.
    + apply map_lookup_filter_Some. split; [done|]. cbn [fst].
      destruct (starts_with _ _) eqn:Es; [|done]. by apply Hstart in Es.
    + apply map_lookup_filter_None_2. by left.
Qed.

(** In every run the key cache hands out for an info and a length exactly the
    key that HKDF derives for them. *)
Theorem key_cache_transparent MASTER_KEY calls info n :
  0 <= n → Forall (λ c, 0 <= c.2) calls →
  let cache := fold_left (λ c call, (derivedKey MASTER_KEY call.1 call.2 c).1) calls ∅ in
  (derivedKey MASTER_KEY info n cache).2 = hkdf_sha384 MASTER_KEY (utf8_encode info) n.
Proof.
  intros Hn Hc cache. apply derivedKey_ok; [done|]. unfold cache.
  assert (Hrun : ∀ c, cache_ok MASTER_KEY c → cache_ok MASTER_KEY (fold_left (λ c call, (derivedKey MASTER_KEY call.1 call.2 c).1) calls c)).
  { clear cache. induction Hc as [|[i m] calls Hm _ IH]; intros c Hok; [done|]. cbn [fold_left]. by apply IH, derivedKey_ok. }
  apply Hrun. intros i m key _. by rewrite lookup_empty.
Qed.
End claims.

Import ToyNode.

Lemma users_file_refines_witness :
  let ops := [OpInsert (user "1" "a"); OpInsert (user "2" "a"); OpInsert (user "2" "b"); OpDelete (js "1")] in
  let f' := fold_left (file_do (js "k") (js "d") iv) ops ∅ in
  loadUsers (js "k") (js "d") f' = JArr [user "2" "b"] ∧
  ∀ x, findUserById (js "k") (js "d") x f' = List.find (has_field "id" x) [user "2" "b"] ∧
       findUserByEmailHash (js "k") (js "d") x f' = List.find (has_field "emailHash" x) [user "2" "b"].
Proof.
  exact (users_file_refines (js "k") (js "d") iv [] ∅
    [OpInsert (user "1" "a"); OpInsert (user "2" "a"); OpInsert (user "2" "b"); OpDelete (js "1")]
    eq_refl eq_refl ltac:(repeat constructor) eq_refl).
Defined.

Lemma write_crash_safe_witness :
  let f : fs := {[js "p" := [1; 2; 3]]} in
  let f' := fold_left fs_do (take 5 (write_steps (js "k") iv (js "p") (js "i") JNull)) f in
  length (default [] (f' !! tmp_of (js "p"))) = 4%nat ∧
  (f' !! js "p" = f !! js "p" ∨ readEncryptedFile (js "k") (js "p") (js "i") (JArr []) f' = JNull) ∧
  (∀ q, q ≠ js "p" → q ≠ tmp_of (js "p") → f' !! q = f !! q) ∧
  readEncryptedFile (js "k") (js "p") (js "i") (JArr [])
    (writeEncryptedFile (js "k") iv (js "p") (js "i") (JBool true) f') = JBool true.
Proof.
  split; [vm_compute; reflexivity|].
  exact (write_crash_safe (js "k") iv (js "p") (js "i") JNull (JBool true) (JArr []) {[js "p" := [1; 2; 3]]} 5 eq_refl eq_refl eq_refl).
Defined.

Lemma unreadable_users_lost_witness :
  let f := (insertUser (js "old") (js "d") iv iv (user "1" "a") ∅).1 in
  (∀ x, findUserByEmailHash (js "new") (js "d") x f = None) ∧
  loadUsers (js "new") (js "d") (insertUser (js "new") (js "d") iv iv (user "2" "b") f).1 = JArr [user "2" "b"].
Proof.
  intros f. apply (unreadable_users_lost (js "new") (js "d") iv f
    (encryptBlob (js "old") iv USERS_INFO (utf8_encode (stringify (JArr [user "1" "a"])))) (user "2" "b"));
    [reflexivity|vm_compute; reflexivity..].
Defined.

Lemma resources_isolated_witness :
  let f' := setResource (js "k") (js "d") iv (js "u1") (js "folders") (JBool true) ∅ in
  getResource (js "k") (js "d") (js "u1") (js "folders") f' = JBool true ∧
  getResource (js "k") (js "d") (js "u1") (js "folders") (deleteResource (js "d") (js "u1") (js "folders") f') = JNull ∧
  getResource (js "k") (js "d") (js "u1") (js "folders") (deleteUserData (js "d") (js "u1") f') = JNull ∧
  ∀ uid' name', no_slash uid' → (uid', name') ≠ (js "u1", js "folders") →
    getResource (js "k") (js "d") uid' name' f' = getResource (js "k") (js "d") uid' name' ∅ ∧
    (uid' ≠ js "u1" → getResource (js "k") (js "d") uid' name' (deleteUserData (js "d") (js "u1") f')
                      = getResource (js "k") (js "d") uid' name' ∅).
Proof.
  exact (resources_isolated (js "k") (js "d") iv (js "u1") (js "folders") (JBool true) ∅ eq_refl eq_refl
    ltac:(unfold no_slash; vm_compute; set_solver)).
Defined.

Lemma key_cache_transparent_witness :
  let cache := fold_left (λ c call, (derivedKey (js "k") call.1 call.2 c).1) [(js "a", 32); (js "a:3", 2)] ∅ in
  (derivedKey (js "k") (js "a") 32 cache).2 = hkdf_sha384 (js "k") (utf8_encode (js "a")) 32.
Proof.
  exact (key_cache_transparent (js "k") [(js "a", 32); (js "a:3", 2)] (js "a") 32 ltac:(lia)
    ltac:(repeat constructor; cbn; lia)).
Defined.
End ServerFiles.
