(* ===== verification/StateStore.v ===== *)
(** * The ephemeral store of the server
    ([web/lib/stateStore.js], [web/lib/redisStateStore.js])

    Keys with a time to live, an atomic counter and a single-use read.  The
    interface the two implementations share is a class, with the contract the
    rate limiters rely on; both implementations are shown to meet it. *)
From S2P Require Import Prelude JsRuntime JsText.

(** The store keeps strings.  The code writes counters, the JSON text of a
    lockout record, and flags; they are kept here as the values they encode. *)
Inductive sval := VNum (n : Z) | VLock (count lockedUntil : Z) | VText (s : jsstr).

#[export] Instance sval_eq_dec : EqDecision sval.
Proof. solve_decision. Defined.

(** [Number(value)] of a counter. *)
Definition as_number (v : sval) : Z := match v with VNum n => n | _ => 0 end.

(** ** The interface

    [now] is [Date.now()], times to live are in milliseconds, [0] is none. *)
Class StateStore (S : Type) := {
  store_get : Z → jsstr → S → S * option sval;
  store_set : Z → jsstr → sval → Z → S → S;
  store_del : jsstr → S → S;
  store_incrExpire : Z → jsstr → Z → S → S * Z;
  store_decr : Z → jsstr → S → S * Z;
  store_getdel : Z → jsstr → S → S * option sval;
}.

(** The contract.  [peek s now k] is what a read at [now] finds.  At the very
    millisecond of expiry an implementation may answer either way. *)
Class StateStoreSpec (S : Type) {HS : StateStore S} := {
  peek : S → Z → jsstr → option sval;
  peek_later s n n' k : n <= n' → peek s n' k = peek s n k ∨ peek s n' k = None;
  get_spec s now k :
    (store_get now k s).2 = peek s now k ∧
    ∀ n k', now <= n → peek (store_get now k s).1 n k' = peek s n k';
  set_spec s now k v ttl :
    0 <= now → 0 < ttl →
    (∀ n, now <= n < now + ttl → peek (store_set now k v ttl s) n k = Some v) ∧
    (∀ n, now + ttl < n → peek (store_set now k v ttl s) n k = None) ∧
    ∀ n k', k' ≠ k → peek (store_set now k v ttl s) n k' = peek s n k';
  del_spec s k :
    (∀ n, peek (store_del k s) n k = None) ∧ ∀ n k', k' ≠ k → peek (store_del k s) n k' = peek s n k';
  incr_new s now k ttl :
    0 <= now → 0 < ttl → peek s now k = None →
    (store_incrExpire now k ttl s).2 = 1 ∧
    ∀ n, now <= n < now + ttl → peek (store_incrExpire now k ttl s).1 n k = Some (VNum 1);
  (* a counter that was decremented to 0 gets a new time to live from one
     implementation and keeps the old one in the other *)
  incr_old s now k ttl c :
    0 < c → peek s now k = Some (VNum c) →
    (store_incrExpire now k ttl s).2 = c + 1 ∧
    ∀ n, now <= n → peek s n k = Some (VNum c) → peek (store_incrExpire now k ttl s).1 n k = Some (VNum (c + 1));
  incr_frame s now k ttl n k' :
    k' ≠ k → now <= n → peek (store_incrExpire now k ttl s).1 n k' = peek s n k';
  decr_frame s now k n k' :
    k' ≠ k → now <= n → peek (store_decr now k s).1 n k' = peek s n k';
}.

(** ** [InMemoryStateStore] *)

Module InMemory.

Record entry := mkEntry { value : sval; expiresAt : Z }.
Abbreviation store := (gmap jsstr entry).

Definition _evict (k : jsstr) (m : store) : store := delete k m.

(** [e.expiresAt && Date.now() > e.expiresAt] *)
Definition expired (now : Z) (e : entry) : bool := negb (expiresAt e =? 0) && (now >? expiresAt e).

Definition get (now : Z) (k : jsstr) (m : store) : store * option sval :=
  match m !! k with
  | None => (m, None)
  | Some e => if expired now e then (_evict k m, None) else (m, Some (value e))
  end.

Definition set (now : Z) (k : jsstr) (v : sval) (ttlMs : Z) (m : store) : store :=
  <[k := mkEntry v (if ttlMs >? 0 then now + ttlMs else 0)]> (_evict k m).

Definition del (k : jsstr) (m : store) : store := _evict k m.

Definition incrExpire (now : Z) (k : jsstr) (ttlMs : Z) (m : store) : store * Z :=
  let fresh := (set now k (VNum 1) ttlMs (_evict k m), 1) in
  match m !! k with
  | None => fresh
  | Some e =>
      if expired now e then fresh
      else let newVal := as_number (value e) + 1 in (<[k := mkEntry (VNum newVal) (expiresAt e)]> m, newVal)
  end.

Definition decr (now : Z) (k : jsstr) (m : store) : store * Z :=
  match m !! k with
  | None => (m, 0)
  | Some e =>
      if expired now e then (_evict k m, 0)
      else let newVal := Z.max 0 (as_number (value e) - 1) in (<[k := mkEntry (VNum newVal) (expiresAt e)]> m, newVal)
  end.

Definition getdel (now : Z) (k : jsstr) (m : store) : store * option sval :=
  match m !! k with
  | None => (m, None)
  | Some e => if expired now e then (_evict k m, None) else (_evict k m, Some (value e))
  end.

(** The timers of [set] that have fired by [now]. *)
Definition timers (now : Z) (m : store) : store :=
  filter (λ ke, expiresAt ke.2 = 0 ∨ now < expiresAt ke.2) m.

#[global] Instance store_ops : StateStore store := {
  store_get := get; store_set := set; store_del := del;
  store_incrExpire := incrExpire; store_decr := decr; store_getdel := getdel }.

Definition visible (m : store) (now : Z) (k : jsstr) : option sval :=
  e ← m !! k; if expired now e then None else Some (value e).

Lemma visible_insert m k e now k' :
  visible (<[k := e]> m) now k' = if decide (k' = k) then (if expired now e then None else Some (value e)) else visible m now k'.
Proof.
  unfold visible. destruct (decide (k' = k)) as [->|]; [by rewrite lookup_insert_eq|by rewrite lookup_insert_ne].
Qed.

Lemma visible_delete m k now k' :
  visible (delete k m) now k' = if decide (k' = k) then None else visible m now k'.
Proof.
  unfold visible. destruct (decide (k' = k)) as [->|]; [by rewrite lookup_delete_eq|by rewrite lookup_delete_ne].
Qed.

Lemma expired_later e n n' : n <= n' → expired n e = true → expired n' e = true.
Proof. unfold expired. intros Hle H. to_prop. rewrite Z.gtb_ltb. apply andb_true_intro. split; [by apply negb_true_iff, Z.eqb_neq|]. apply Z.ltb_lt. lia. Qed.

Lemma expired_at now ttl v n : 0 < ttl → expired n (mkEntry v (now + ttl)) = true → now + ttl < n.
Proof. unfold expired. cbn [expiresAt]. intros ? H. to_prop. lia. Qed.

Lemma visible_set m now k v ttl n :
  0 < ttl → visible (set now k v ttl m) n k = if expired n (mkEntry v (now + ttl)) then None else Some v.
Proof.
  intros Ht. unfold set. rewrite visible_insert, decide_True by done.
  by rewrite Z.gtb_ltb, (proj2 (Z.ltb_lt 0 ttl)).
Qed.

Lemma visible_fresh m now k v ttl n :
  0 < ttl → now <= n < now + ttl → visible (set now k v ttl m) n k = Some v.
Proof.
  intros Ht Hn. rewrite visible_set by done. destruct (expired _ _) eqn:E; [|done]. apply expired_at in E; lia.
Qed.

Lemma expired_past now ttl v n : 0 <= now → 0 < ttl → now + ttl < n → expired n (mkEntry v (now + ttl)) = true.
Proof.
  intros. unfold expired. cbn [expiresAt]. rewrite Z.gtb_ltb, (proj2 (Z.ltb_lt _ _)), (proj2 (Z.eqb_neq _ 0)) by lia. done.
Qed.

Lemma visible_entry m now k v :
  visible m now k = Some v → ∃ e, m !! k = Some e ∧ expired now e = false ∧ value e = v.
Proof. unfold visible. destruct (m !! k) as [e|]; [|done]. cbn. destruct (expired now e) eqn:E; naive_solver. Qed.

Lemma incr_absent m now k ttl :
  visible m now k = None → incrExpire now k ttl m = (set now k (VNum 1) ttl (_evict k m), 1).
Proof. unfold visible, incrExpire. destruct (m !! k) as [e|]; [|done]. cbn. by destruct (expired now e). Qed.

(** Only the millisecond of expiry can tell whether a timer has fired. *)
Lemma timers_unseen m now n k : now < n → visible (timers now m) n k = visible m n k.
Proof.
  intros Hn. unfold visible, timers. destruct (m !! k) as [e|] eqn:E.
  - destruct (decide (expiresAt e = 0 ∨ now < expiresAt e)) as [H|H].
    + by rewrite (proj2 (map_lookup_filter_Some _ m k e)).
    + rewrite map_lookup_filter_None_2; [|right; naive_solver]. cbn.
      assert (expired n e = true) as ->; [|done]. unfold expired. rewrite Z.gtb_ltb.
      apply andb_true_intro. split; [apply negb_true_iff, Z.eqb_neq; lia|apply Z.ltb_lt; lia].
  - rewrite map_lookup_filter_None_2; [done|by left].
Qed.

#[global] Instance store_spec : StateStoreSpec store.
Proof.
  refine {| peek := visible |}; cbn [store_get store_set store_del store_incrExpire store_decr store_ops].
  - intros m n n' k Hle. unfold visible. destruct (m !! k) as [e|]; [|by left]. cbn.
    destruct (expired n e) eqn:E; [rewrite (expired_later e n n') by done; by left|].
    destruct (expired n' e); [by right|by left].
  - intros m now k. unfold get. destruct (m !! k) as [e|] eqn:E; [destruct (expired now e) eqn:Ex|]; cbn [fst snd];
      (split; [unfold visible; rewrite E; cbn; by rewrite ?Ex|]); [|done|done].
    intros n k' Hn. unfold _evict. rewrite visible_delete. destruct (decide (k' = k)) as [->|]; [|done].
    unfold visible. rewrite E. cbn. by rewrite (expired_later e now n).
  - intros m now k v ttl H0 Ht. split; [intros n Hn; by apply visible_fresh|]. split.
    + intros n Hn. rewrite visible_set by done. by rewrite (expired_past now).
    + intros n k' Hk. unfold set, _evict. by rewrite visible_insert, decide_False, visible_delete, decide_False.
  - intros m k. split; intros n; [|intros k' Hk]; unfold del, _evict; rewrite visible_delete;
      [by rewrite decide_True|by rewrite decide_False].
  - intros m now k ttl H0 Ht Hv. rewrite incr_absent by done. cbn [fst snd]. split; [done|].
    intros n Hn. by apply visible_fresh.
  - intros m now k ttl c _ Hv. destruct (visible_entry m now k _ Hv) as (e & E & Ex & Hc).
    unfold incrExpire. rewrite E, Ex, Hc. cbn [fst snd as_number]. split; [done|].
    intros n Hn Hvn. rewrite visible_insert, decide_True by done. unfold visible in Hvn. rewrite E in Hvn. cbn in Hvn.
    destruct (expired n e) eqn:En; [discriminate Hvn|]. unfold expired in *. cbn [expiresAt value]. by rewrite En.
  - intros m now k ttl n k' Hk Hn. unfold incrExpire.
    destruct (m !! k) as [e|]; [destruct (expired now e)|]; cbn [fst]; unfold set, _evict;
      by rewrite ?visible_insert, decide_False, ?visible_delete, ?decide_False.
  - intros m now k n k' Hk Hn. unfold decr.
    destruct (m !! k) as [e|]; [destruct (expired now e)|done]; cbn [fst]; unfold _evict;
      by rewrite ?visible_insert, ?visible_delete, decide_False.
Defined.
End InMemory.

(** ** [RedisStateStore] *)

(** The commands of a Redis server the client calls; [redis_getdel] is absent
    before Redis 6.2, where the command is refused. *)
Class Redis (R : Type) := {
  redis_get : Z → jsstr → R → option sval;
  redis_set : Z → jsstr → sval → option Z → R → R;      (* SET key value [PX ttl] *)
  redis_del : jsstr → R → R;
  redis_incr : Z → jsstr → R → R * Z;
  redis_pexpire : Z → jsstr → Z → R → R;
  redis_decr : Z → jsstr → R → R * Z;
  redis_getdel : option (Z → jsstr → R → R * option sval);
}.

(** What the commands are documented to do. *)
Class RedisLaws (R : Type) `{Redis R} := {
  redis_later r n n' k : n <= n' → redis_get n' k r = redis_get n k r ∨ redis_get n' k r = None;
  redis_set_px r now k v ttl n :
    0 < ttl → now <= n → redis_get n k (redis_set now k v (Some ttl) r) = if n <? now + ttl then Some v else None;
  redis_set_frame r now k v px n k' : k' ≠ k → redis_get n k' (redis_set now k v px r) = redis_get n k' r;
  redis_del_spec r k n k' : redis_get n k' (redis_del k r) = if decide (k' = k) then None else redis_get n k' r;
  redis_incr_new r now k :
    redis_get now k r = None →
    (redis_incr now k r).2 = 1 ∧ ∀ n, now <= n → redis_get n k (redis_incr now k r).1 = Some (VNum 1);
  redis_incr_old r now k c :
    redis_get now k r = Some (VNum c) →
    (redis_incr now k r).2 = c + 1 ∧
    ∀ n, now <= n → redis_get n k r = Some (VNum c) → redis_get n k (redis_incr now k r).1 = Some (VNum (c + 1));
  redis_incr_frame r now k n k' : k' ≠ k → redis_get n k' (redis_incr now k r).1 = redis_get n k' r;
  redis_decr_frame r now k n k' : k' ≠ k → redis_get n k' (redis_decr now k r).1 = redis_get n k' r;
  redis_pexpire_spec r now k ttl v n :
    redis_get now k r = Some v → 0 < ttl → now <= n < now + ttl → redis_get n k (redis_pexpire now k ttl r) = Some v;
  redis_pexpire_frame r now k ttl n k' : k' ≠ k → redis_get n k' (redis_pexpire now k ttl r) = redis_get n k' r;
}.

Module RedisStore.
Section redis.
Context {R : Type} `{Redis R}.

Definition get (now : Z) (k : jsstr) (r : R) : R * option sval := (r, redis_get now k r).

Definition set (now : Z) (k : jsstr) (v : sval) (ttlMs : Z) (r : R) : R :=
  if ttlMs >? 0 then redis_set now k v (Some ttlMs) r else redis_set now k v None r.

Definition del (k : jsstr) (r : R) : R := redis_del k r.

(** [INCR_EXPIRE_SCRIPT], one atomic step of the server. *)
Definition incrExpire (now : Z) (k : jsstr) (ttlMs : Z) (r : R) : R * Z :=
  let '(r, cur) := redis_incr now k r in
  (if cur =? 1 then redis_pexpire now k ttlMs r else r, cur).

Definition decr (now : Z) (k : jsstr) (r : R) : R * Z :=
  let '(r, val) := redis_decr now k r in
  if val <? 0 then (redis_set now k (VNum 0) None r, 0) else (r, val).

Definition getdel (now : Z) (k : jsstr) (r : R) : R * option sval :=
  match redis_getdel with
  | Some f => f now k r
  | None => match redis_get now k r with
            | None => (r, None)
            | Some v => (redis_del k r, Some v)
            end
  end.

#[export] Instance store_ops : StateStore R := {
  store_get := get; store_set := set; store_del := del;
  store_incrExpire := incrExpire; store_decr := decr; store_getdel := getdel }.

Context `{!RedisLaws R}.

#[export] Instance store_spec : StateStoreSpec R.
Proof.
  refine {| peek := λ r now k, redis_get now k r |}; cbn [store_get store_set store_del store_incrExpire store_decr store_ops].
  - intros. by apply redis_later.
  - intros. by cbn.
  - intros r now k v ttl _ Ht. unfold set. rewrite Z.gtb_ltb, (proj2 (Z.ltb_lt _ _)) by done. split; [|split].
    + intros n Hn. rewrite redis_set_px, (proj2 (Z.ltb_lt _ _)) by lia. done.
    + intros n Hn. rewrite redis_set_px, (proj2 (Z.ltb_ge _ _)) by lia. done.
    + intros. by apply redis_set_frame.
  - intros r k. split; intros; unfold del; rewrite redis_del_spec; [by rewrite decide_True|by rewrite decide_False].
  - intros r now k ttl _ Ht Hv. destruct (redis_incr_new r now k Hv) as [E Hg]. unfold incrExpire.
    destruct (redis_incr now k r) as [r' cur]. cbn [fst snd] in *. subst cur. split; [done|]. intros n Hn.
    cbn [Z.eqb]. change (1 =? 1) with true. apply redis_pexpire_spec; [|done|done]. apply Hg. lia.
  - intros r now k ttl c Hc Hv. destruct (redis_incr_old r now k c Hv) as [E Hg].
    unfold incrExpire. destruct (redis_incr now k r) as [r' cur]. cbn [fst snd] in *. subst cur. split; [done|].
    intros n Hn Hvn. rewrite (proj2 (Z.eqb_neq _ _)) by lia. by apply Hg.
  - intros r now k ttl n k' Hk Hn. unfold incrExpire. pose proof (redis_incr_frame r now k n k' Hk) as Hf.
    destruct (redis_incr now k r) as [r' cur]. cbn [fst snd] in *.
    destruct (cur =? 1); [by rewrite redis_pexpire_frame|done].
  - intros r now k n k' Hk Hn. unfold decr. pose proof (redis_decr_frame r now k n k' Hk) as Hf.
    destruct (redis_decr now k r) as [r' val]. cbn [fst snd] in *.
    destruct (val <? 0); [cbn [fst]; by rewrite redis_set_frame|done].
Qed.
End redis.
End RedisStore.
