(* ===== verification/RateLimiter.v ===== *)
(** * Rate limits and lockouts of the server ([web/lib/rateLimiter.js])

    The fixed-window limiters, the progressive lockouts of accounts and of client
    fingerprints, and the log of fingerprints, over any store that implements
    [StateStore]. *)
From S2P Require Import Prelude JsRuntime JsText StateStore FileCrypto.

(** ** Requests *)

(** What the handlers read of a request. *)
Record Req := mkReq {
  rq_ip : option jsstr;               (* req.ip *)
  rq_remoteAddress : option jsstr;    (* req.socket.remoteAddress *)
  rq_userAgent : option jsstr;        (* req.headers['user-agent'] *)
}.

(** The fingerprint a client sends; a field is [None] when it is no string. *)
Record Fp := mkFp {
  fp_screen : option jsstr; fp_visitorId : option jsstr; fp_timezone : option jsstr; fp_locale : option jsstr }.

(** [a || b] on strings that may be undefined. *)
Definition or_else (a : option jsstr) (b : jsstr) : jsstr :=
  match a with Some (c :: s) => c :: s | _ => b end.

(** [getClientIp] of [lib/session.js]. *)
Definition getClientIp (req : Req) : jsstr :=
  or_else (rq_ip req) (or_else (rq_remoteAddress req) (js "127.0.0.1")).

Definition userAgent (req : Req) : jsstr := or_else (rq_userAgent req) [].

(** ** Fixed windows *)

Definition LOGIN_MAX_PER_WINDOW : Z := 10.
Definition LOGIN_WINDOW_MS : Z := 5 * 60 * 1000.
Definition HINTS_MAX_PER_WINDOW : Z := 60.
Definition HINTS_WINDOW_MS : Z := 5 * 60 * 1000.
Definition RPC_MAX_PER_WINDOW : Z := 60.
Definition RPC_WINDOW_MS : Z := 60 * 1000.
Definition REGISTER_MAX_PER_WINDOW : Z := 5.
Definition REGISTER_WINDOW_MS : Z := 60 * 60 * 1000.
Definition REGISTER_EMAIL_MAX_PER_WINDOW : Z := 3.
Definition REGISTER_EMAIL_WINDOW_MS : Z := 24 * 60 * 60 * 1000.
Definition EMERGENCY_MAX_PER_WINDOW : Z := 5.
Definition EMERGENCY_WINDOW_MS : Z := 60 * 1000.
Definition SETUP_EXEC_MAX_PER_WINDOW : Z := 5.
Definition SETUP_EXEC_WINDOW_MS : Z := 5 * 60 * 1000.
Definition DNS_CHECK_MAX_PER_WINDOW : Z := 10.
Definition DNS_CHECK_WINDOW_MS : Z := 60 * 1000.
Definition SHARE_CREATE_MAX_PER_WINDOW : Z := 20.
Definition SHARE_CREATE_WINDOW_MS : Z := 60 * 60 * 1000.

(** The headers set when a response is passed. *)
Record RateHeaders := mkRateHeaders { X_RateLimit_Limit : Z; X_RateLimit_Remaining : Z; Retry_After : option Z }.

Definition rate_headers (max window count : Z) : RateHeaders :=
  mkRateHeaders max (Z.max 0 (max - count)) (if count >? max then Some ((window + 999) / 1000) else None).

Section limiter.
Context {S : Type} {HS : StateStore S}.

(** The common body: allowed, and the headers. *)
Definition check_rate (key : jsstr) (max window now : Z) (s : S) : S * (bool * RateHeaders) :=
  let '(s, count) := store_incrExpire now key window s in (s, (count <=? max, rate_headers max window count)).

Definition checkLoginRate (ip : jsstr) := check_rate (js "rl:login:" ++ ip) LOGIN_MAX_PER_WINDOW LOGIN_WINDOW_MS.
Definition checkHintsRate (ip : jsstr) := check_rate (js "rl:hints:" ++ ip) HINTS_MAX_PER_WINDOW HINTS_WINDOW_MS.
Definition checkRpcRate (ip : jsstr) := check_rate (js "rl:rpc:" ++ ip) RPC_MAX_PER_WINDOW RPC_WINDOW_MS.
Definition checkRegisterRate (ip : jsstr) :=
  check_rate (js "rl:register:" ++ ip) REGISTER_MAX_PER_WINDOW REGISTER_WINDOW_MS.
Definition checkRegisterEmailRate (emailHash : jsstr) :=
  check_rate (js "rl:register:email:" ++ emailHash) REGISTER_EMAIL_MAX_PER_WINDOW REGISTER_EMAIL_WINDOW_MS.
Definition checkEmergencyRate (ip : jsstr) :=
  check_rate (js "rl:emergency:" ++ ip) EMERGENCY_MAX_PER_WINDOW EMERGENCY_WINDOW_MS.
Definition checkSetupExecRate (ip : jsstr) :=
  check_rate (js "rl:setupexec:" ++ ip) SETUP_EXEC_MAX_PER_WINDOW SETUP_EXEC_WINDOW_MS.
Definition checkDnsRate (ip : jsstr) := check_rate (js "rl:dnscheck:" ++ ip) DNS_CHECK_MAX_PER_WINDOW DNS_CHECK_WINDOW_MS.
Definition checkShareCreateRate (uid : jsstr) :=
  check_rate (js "rl:sharecreate:" ++ uid) SHARE_CREATE_MAX_PER_WINDOW SHARE_CREATE_WINDOW_MS.

(** ** Progressive lockouts *)

Definition ACCOUNT_LOCKOUT_SCHEDULE_MS : list Z := [0; 0; 0; 0; 0; 30000; 60000; 120000; 300000; 600000].
Definition FINGERPRINT_LOCKOUT_SCHEDULE_MS : list Z := [0; 0; 0; 0; 0; 30000; 60000; 120000; 300000; 600000].

Definition check_lockout (key : jsstr) (now : Z) (s : S) : S * bool :=
  let '(s, raw) := store_get now key s in
  (s, match raw with
      | Some (VLock _ lockedUntil) => negb (negb (lockedUntil =? 0) && (now <? lockedUntil))
      | _ => true
      end).

(** The record after one more failure, and its time to live. *)
Definition next_lockout (schedule : list Z) (raw : option sval) (now : Z) : sval * Z :=
  let prev := match raw with Some (VLock c _) => c | _ => 0 end in
  let count := prev + 1 in
  let lockMs := nth (Z.to_nat (Z.min count (len schedule - 1))) schedule 0 in
  let lockedUntil := if lockMs >? 0 then now + lockMs else 0 in
  (VLock count lockedUntil, Z.max lockMs (60 * 60 * 1000)).

(** A failure is recorded in two steps: the read, and the write of what the
    read gave. *)
Definition record_read (key : jsstr) (now : Z) (s : S) : S * option sval := store_get now key s.
Definition record_write (schedule : list Z) (key : jsstr) (raw : option sval) (now : Z) (s : S) : S :=
  let '(v, ttl) := next_lockout schedule raw now in store_set now key v ttl s.

Definition record_failure (schedule : list Z) (key : jsstr) (now : Z) (s : S) : S :=
  let '(s, raw) := record_read key now s in record_write schedule key raw now s.

Definition account_key (emailHash : jsstr) : jsstr := js "lockout:acct:" ++ emailHash.
Definition fingerprint_key (clientIdentity : jsstr) : jsstr := js "lockout:fp:" ++ clientIdentity.

Definition checkAccountRate (emailHash : jsstr) := check_lockout (account_key emailHash).
Definition recordAccountFailure (emailHash : jsstr) :=
  record_failure ACCOUNT_LOCKOUT_SCHEDULE_MS (account_key emailHash).
Definition resetAccountFailures (emailHash : jsstr) : S → S := store_del (account_key emailHash).

Definition checkFingerprintRate (clientIdentity : jsstr) := check_lockout (fingerprint_key clientIdentity).
Definition recordFingerprintFailure (clientIdentity : jsstr) :=
  record_failure FINGERPRINT_LOCKOUT_SCHEDULE_MS (fingerprint_key clientIdentity).
Definition resetFingerprintFailures (clientIdentity : jsstr) : S → S := store_del (fingerprint_key clientIdentity).
End limiter.

(** ** Identities of clients *)

Section identity.
Context `{ServerHash}.

(** [fp && typeof fp.x === 'string' ? fp.x.slice(0, n) : ''] *)
Definition fp_field (fp : option Fp) (field : Fp → option jsstr) (n : Z) : jsstr :=
  match fp with Some f => slice0 n (or_empty (field f)) | None => [] end.

Definition deriveClientIdentity (req : Req) (fp : option Fp) : jsstr :=
  sha256_hex (utf8_encode (getClientIp req ++ js "|" ++ userAgent req ++ js "|" ++ fp_field fp fp_screen 32 ++ js "|"
                           ++ fp_field fp fp_visitorId 64)).

Definition deriveLockoutIdentity (req : Req) : jsstr :=
  sha256_hex (utf8_encode (getClientIp req ++ js "|" ++ userAgent req)).
End identity.

(** ** The log of fingerprints *)

Definition FINGERPRINT_LOG_CAP : Z := 32.

Record FpEntry := mkFpEntry {
  fe_id : jsstr; fe_visitorId : jsstr; fe_screen : jsstr; fe_timezone : jsstr; fe_locale : jsstr;
  fe_ip : jsstr; fe_ua : jsstr; fe_firstSeen : Z; fe_lastSeen : Z; fe_failureCount : Z; fe_successCount : Z }.

#[export] Instance FpEntry_eq_dec : EqDecision FpEntry.
Proof. solve_decision. Defined.

Definition lockoutIdentityFromLogEntry `{ServerHash} (entry : FpEntry) : jsstr :=
  sha256_hex (utf8_encode (fe_ip entry ++ js "|" ++ fe_ua entry)).

Definition makeFingerprintLogEntry (clientIdentity : jsstr) (fp : option Fp) (req : Req) (success : bool) (now : Z)
    : FpEntry :=
  mkFpEntry clientIdentity (fp_field fp fp_visitorId 64) (fp_field fp fp_screen 32) (fp_field fp fp_timezone 64)
    (fp_field fp fp_locale 16) (getClientIp req) (slice0 256 (userAgent req)) now now
    (if success then 0 else 1) (if success then 1 else 0).

(** The entry of a fingerprint seen again. *)
Definition merge_entry (ex new : FpEntry) : FpEntry :=
  mkFpEntry (fe_id ex) (fe_visitorId ex) (fe_screen ex) (fe_timezone ex) (fe_locale ex) (fe_ip new) (fe_ua new)
    (fe_firstSeen ex) (fe_lastSeen new) (fe_failureCount ex + fe_failureCount new)
    (fe_successCount ex + fe_successCount new).

(** [list.findIndex(e => e.id === id)] and the update in place. *)
Fixpoint merge_at (l : list FpEntry) (new : FpEntry) : option (list FpEntry) :=
  match l with
  | [] => None
  | e :: l' => if str_eqb (fe_id e) (fe_id new) then Some (merge_entry e new :: l') else cons e <$> merge_at l' new
  end.

Definition mergeFingerprintLog (log : list FpEntry) (newEntry : FpEntry) : list FpEntry :=
  match merge_at log newEntry with
  | Some l => l
  | None =>
      let l := log ++ [newEntry] in
      if len l >? FINGERPRINT_LOG_CAP then drop (Z.to_nat (len l - FINGERPRINT_LOG_CAP)) l else l
  end.

(** * Theorems on rate limits and lockouts

    Proved against the contract of the store; the instances of [StateStore] give
    them for the in-memory and the Redis store. *)
From Stdlib Require Import Sorted.

(** ** Fixed windows *)

Section windows.
Context {S : Type} {HS : StateStore S} {HSp : StateStoreSpec S}.
Context (key : jsstr) (max window : Z).

(** A run of requests at the given times: every request with its answer. *)
Fixpoint run_checks (ts : list Z) (s : S) : list (Z * bool) :=
  match ts with
  | [] => []
  | t :: ts' => let '(s, (ok, _)) := check_rate key max window t s in (t, ok) :: run_checks ts' s
  end.

(** Requests allowed in the half-open interval from [x] of the window's length. *)
Definition allowed_in (x : Z) (l : list (Z * bool)) : Z :=
  len (List.filter (λ tb, tb.2 && (x <=? tb.1) && (tb.1 <? x + window)) l).

Definition in_span (x t : Z) : bool := (x <=? t) && (t <? x + window).

Lemma allowed_cons x t ok l :
  allowed_in x ((t, ok) :: l) = (if ok && in_span x t then 1 else 0) + allowed_in x l.
Proof.
  unfold allowed_in, in_span. cbn [List.filter fst snd].
  destruct ok; cbn [andb]; [|lia]. destruct ((x <=? t) && (t <? x + window))%bool; [rewrite len_cons|]; lia.
Qed.

(** The counter as the last request, at [t], left it: opened at [o], at [c]. *)
Definition open_window (s : S) (t o c : Z) : Prop :=
  o <= t ∧ 1 <= c ∧ (∀ n, t <= n < o + window → peek s n key = Some (VNum c)) ∧
  ∀ n, t <= n → peek s n key = Some (VNum c) ∨ peek s n key = None.

Lemma window_new s t :
  0 <= t → 0 < window → peek s t key = None →
  (store_incrExpire t key window s).2 = 1 ∧ open_window (store_incrExpire t key window s).1 t t 1.
Proof.
  intros H0 Hw Hn. destruct (incr_new s t key window H0 Hw Hn) as [-> Hv]. split; [done|].
  split; [lia|]. split; [lia|]. split; [done|]. intros n Hle.
  assert (Ht : peek (store_incrExpire t key window s).1 t key = Some (VNum 1)) by (apply Hv; lia).
  destruct (peek_later (store_incrExpire t key window s).1 t n key Hle) as [->| ->]; [left; exact Ht|by right].
Qed.

Lemma window_old s t t' o c :
  open_window s t o c → t <= t' → peek s t' key = Some (VNum c) →
  (store_incrExpire t' key window s).2 = c + 1 ∧ open_window (store_incrExpire t' key window s).1 t' o (c + 1).
Proof.
  intros (Ho & Hc & Hin & _) Ht Hv. destruct (incr_old s t' key window c) as [-> Hs]; [lia|done|].
  split; [done|]. split; [lia|]. split; [lia|]. split; [intros n Hn; apply Hs; [lia|]; apply Hin; lia|].
  intros n Hle. assert (Ht' : peek (store_incrExpire t' key window s).1 t' key = Some (VNum (c + 1))) by (by apply Hs).
  destruct (peek_later (store_incrExpire t' key window s).1 t' n key Hle) as [->| ->]; [left; exact Ht'|by right].
Qed.

(** Requests allowed so far, against the window that is open. *)
Definition budget (x t o c a : Z) : Prop :=
  a <= 2 * max - 1 ∧ (t < x → a = 0) ∧ (o < x → a <= Z.max 0 (Z.min c max - 1)) ∧
  (x <= o < x + window → a <= max - 1 + Z.min c max).

Lemma run_checks_open x s t o c a ts :
  0 <= o → 0 < window → 1 <= max → open_window s t o c → budget x t o c a →
  StronglySorted Z.le (t :: ts) → a + allowed_in x (run_checks ts s) <= 2 * max - 1.
Proof.
  revert s t o c a. induction ts as [|t' ts IH]; intros s t o c a H0 Hw Hm Hopen Hb Hs.
  { unfold allowed_in. cbn. unfold budget in Hb. rewrite len_nil. lia. }
  inversion Hs as [|? ? Hs' Hall]; subst. inversion Hall as [|? ? Ht Hall']; subst.
  cbn [run_checks]. unfold check_rate.
  destruct (proj2 (proj2 (proj2 Hopen)) t' Ht) as [Hv|Hv].
  - destruct (window_old s t t' o c Hopen Ht Hv) as [E Hopen'].
    destruct (store_incrExpire t' key window s) as [s' n]. cbn [fst snd] in E, Hopen'. subst n.
    rewrite allowed_cons, Z.add_assoc. apply (IH s' t' o (c + 1)); try done.
    destruct Hb as (B1 & B2 & B3 & B4). destruct Hopen as (? & ? & _). unfold budget, in_span.
    destruct (Z.leb_spec (c + 1) max), (Z.leb_spec x t'), (Z.ltb_spec t' (x + window)); cbn [andb]; lia.
  - assert (Hge : o + window <= t').
    { destruct (Z_lt_le_dec t' (o + window)) as [Hlt|]; [|done].
      rewrite (proj1 (proj2 (proj2 Hopen))) in Hv by lia. done. }
    destruct (window_new s t') as [E Hopen']; [lia|done|done|].
    destruct (store_incrExpire t' key window s) as [s' n]. cbn [fst snd] in E, Hopen'. subst n.
    rewrite allowed_cons, Z.add_assoc. apply (IH s' t' t' 1); try done; [lia|].
    destruct Hb as (B1 & B2 & B3 & B4). destruct Hopen as (? & ? & _). unfold budget, in_span.
    destruct (Z.leb_spec 1 max), (Z.leb_spec x t'), (Z.ltb_spec t' (x + window)); cbn [andb]; lia.
Qed.

(** Whatever the requests, no interval as long as the window has more than
    [2 * max - 1] allowed ones. *)
Lemma run_checks_bound x s ts :
  0 < window → 1 <= max → (∀ n, peek s n key = None) → StronglySorted Z.le (0 :: ts) →
  allowed_in x (run_checks ts s) <= 2 * max - 1.
Proof.
  intros Hw Hm Hs Hts. destruct ts as [|t ts]; [unfold allowed_in; cbn; rewrite len_nil; lia|].
  inversion Hts as [|? ? Hts' Hall]; subst. inversion Hall as [|? ? Ht Hall']; subst.
  cbn [run_checks]. unfold check_rate. destruct (window_new s t) as [E Hopen]; [lia|done|apply Hs|].
  destruct (store_incrExpire t key window s) as [s' n]. cbn [fst snd] in E, Hopen. subst n.
  rewrite allowed_cons. apply (run_checks_open x s' t t 1); [lia|done|done|done| |done].
  unfold budget, in_span.
  destruct (Z.leb_spec 1 max), (Z.leb_spec x t), (Z.ltb_spec t (x + window)); cbn [andb]; lia.
Qed.
End windows.

(** ** Lockouts *)

Section lockouts.
Context {S : Type} {HS : StateStore S} {HSp : StateStoreSpec S}.

Definition fail_at (schedule : list Z) (key : jsstr) (s : S) (t : Z) : S := record_failure schedule key t s.

(** How long failure number [n] locks. *)
Definition lock_ms (schedule : list Z) (n : Z) : Z := nth (Z.to_nat (Z.min n (len schedule - 1))) schedule 0.

Definition lockout_state (schedule : list Z) (n t : Z) : sval :=
  VLock n (if lock_ms schedule n >? 0 then t + lock_ms schedule n else 0).

(** The count a read at [t] finds. *)
Definition count_at (s : S) (key : jsstr) (t : Z) : Z :=
  match peek s t key with Some (VLock c _) => c | _ => 0 end.

Lemma record_failure_peek schedule key t s :
  0 <= t →
  let n := count_at s key t + 1 in
  ∀ m, t <= m < t + Z.max (lock_ms schedule n) 3600000 →
    peek (record_failure schedule key t s) m key = Some (lockout_state schedule n t).
Proof.
  intros Ht n m Hm. unfold record_failure, record_read, record_write.
  destruct (get_spec s t key) as [Eg _]. destruct (store_get t key s) as [s' raw]. cbn [fst snd] in Eg. subst raw.
  unfold next_lockout. fold (lock_ms schedule (count_at s key t + 1)).
  apply set_spec; [done| |exact Hm]. lia.
Qed.

(** Failures one after the other, each within an hour of the last. *)
Fixpoint hourly (t : Z) (ts : list Z) : Prop :=
  match ts with [] => True | t' :: ts' => t <= t' < t + 3600000 ∧ hourly t' ts' end.

(** The time of the last failure. *)
Fixpoint latest (t : Z) (ts : list Z) : Z := match ts with [] => t | t' :: ts' => latest t' ts' end.

Lemma latest_le t ts : hourly t ts → t <= latest t ts.
Proof. revert t. induction ts as [|t' ts IH]; intros t Hh; cbn; [lia|]. destruct Hh as [? Hh]. specialize (IH t' Hh). lia. Qed.

Lemma failures_count schedule key s t ts n :
  0 <= t → (∀ m, t <= m < t + 3600000 → peek s m key = Some (lockout_state schedule n t)) → hourly t ts →
  let last := latest t ts in
  ∀ m, last <= m < last + 3600000 →
    peek (fold_left (fail_at schedule key) ts s) m key = Some (lockout_state schedule (n + len ts) last).
Proof.
  revert s t n. induction ts as [|t' ts IH]; intros s t n Ht Hs Hh.
  { intros last m Hm. rewrite len_nil, Z.add_0_r. by apply Hs. }
  destruct Hh as [Ht' Hh]. intros last m Hm. cbn [fold_left].
  rewrite len_cons, Z.add_assoc.
  assert (Hc : count_at s key t' = n) by (unfold count_at; rewrite Hs by lia; done).
  apply (IH (fail_at schedule key s t') t' (n + 1)); [lia| |done|done].
  intros m' Hm'. pose proof (record_failure_peek schedule key t' s) as Hp. cbv zeta in Hp. rewrite Hc in Hp.
  apply Hp; lia.
Qed.

Lemma check_lockout_peek key t s :
  (check_lockout key t s).2 =
    match peek s t key with Some (VLock _ u) => negb (negb (u =? 0) && (t <? u)) | _ => true end.
Proof.
  unfold check_lockout. destruct (get_spec s t key) as [<- _]. by destruct (store_get t key s).
Qed.

(** After [n] failures in a row the key is locked for exactly the time of the
    schedule. *)
Lemma lockout_after schedule key s t ts n m :
  0 <= t → peek s t key = None → hourly t ts → n = 1 + len ts → (∀ k, 0 <= lock_ms schedule k <= 3600000) →
  let last := latest t ts in
  last <= m < last + 3600000 →
  (check_lockout key m (fold_left (fail_at schedule key) (t :: ts) s)).2 = (last + lock_ms schedule n <=? m).
Proof.
  intros Ht Hs Hh Hn Hsch last Hm. rewrite check_lockout_peek. cbn [fold_left].
  assert (Hc : count_at s key t = 0) by (unfold count_at; by rewrite Hs).
  pose proof (failures_count schedule key (fail_at schedule key s t) t ts 1 Ht) as Hf.
  cbv zeta in Hf. rewrite Hf; [|clear Hf|done|exact Hm].
  - unfold lockout_state. rewrite <- Hn. fold last. pose proof (Hsch n).
    rewrite Z.gtb_ltb. destruct (Z.ltb_spec 0 (lock_ms schedule n)).
    + destruct (Z.eqb_spec (last + lock_ms schedule n) 0) as [Heq|Hne].
      * pose proof (latest_le t ts Hh). lia.
      * cbn [negb andb]. destruct (Z.ltb_spec m (last + lock_ms schedule n)), (Z.leb_spec (last + lock_ms schedule n) m);
          cbn [negb]; (done || lia).
    + cbn. symmetry. apply Z.leb_le. lia.
  - intros m' Hm'. pose proof (record_failure_peek schedule key t s Ht) as Hp. cbv zeta in Hp. rewrite Hc in Hp.
    apply Hp. lia.
Qed.

(** Failures recorded at the same moment: every read comes before every write. *)
Definition simultaneous (schedule : list Z) (key : jsstr) (t : Z) (n : nat) (s : S) : S :=
  let reads := List.map (λ _, (record_read key t s).2) (seq 0 n) in
  fold_left (λ s raw, record_write schedule key raw t s) reads (record_read key t s).1.

Lemma simultaneous_peek schedule key t n s m :
  0 <= t → (0 < n)%nat →
  let k := count_at s key t + 1 in
  t <= m < t + Z.max (lock_ms schedule k) 3600000 →
  peek (simultaneous schedule key t n s) m key = Some (lockout_state schedule k t).
Proof.
  intros Ht Hn k Hm. unfold simultaneous, record_read. destruct (get_spec s t key) as [Eg _].
  destruct (store_get t key s) as [s' raw]. cbn [fst snd] in *. subst raw.
  assert (Hw : ∀ s0, peek (record_write schedule key (peek s t key) t s0) m key = Some (lockout_state schedule k t)).
  { intros s0. unfold record_write, next_lockout. fold (lock_ms schedule (count_at s key t + 1)).
    apply set_spec; [done| |exact Hm]. lia. }
  destruct n as [|n]; [lia|]. clear Hn. revert s'. induction n as [|n IH]; intros s'; [apply Hw|].
  rewrite seq_S, map_app, fold_left_app. cbn [List.map fold_left]. apply Hw.
Qed.
End lockouts.

(** ** The log of fingerprints *)

Lemma merge_at_ids l new l' : merge_at l new = Some l' → map fe_id l' = map fe_id l.
Proof.
  revert l'. induction l as [|e l IH]; intros l'; cbn; [done|]. destruct (str_eqb _ _); [intros [= <-]; done|].
  destruct (merge_at l new) as [k|]; cbn; [|done]. intros [= <-]. cbn. by rewrite (IH k).
Qed.

Lemma merge_at_fresh l new : merge_at l new = None → fe_id new ∉ map fe_id l.
Proof.
  induction l as [|e l IH]; cbn; [set_solver|]. destruct (str_eqb _ _) eqn:E; [done|].
  destruct (merge_at l new); [done|]. intros _. assert (fe_id e ≠ fe_id new).
  { intros Heq. rewrite (proj2 (str_eqb_eq _ _) Heq) in E. done. }
  rewrite elem_of_cons. intros [?|?]; [congruence|by apply IH].
Qed.

Lemma merge_at_in l new l' :
  merge_at l new = Some l' → ∃ e, e ∈ l ∧ fe_id e = fe_id new ∧ merge_entry e new ∈ l'.
Proof.
  revert l'. induction l as [|e l IH]; intros l'; cbn; [done|]. destruct (str_eqb _ _) eqn:E.
  - intros [= <-]. exists e. apply str_eqb_eq in E. set_solver.
  - destruct (merge_at l new) as [k|]; cbn; [|done]. intros [= <-].
    destruct (IH k eq_refl) as (e' & ? & ? & ?). exists e'. set_solver.
Qed.

(** The log after one more login. *)
Lemma merge_log_ok log new :
  len log <= FINGERPRINT_LOG_CAP → NoDup (map fe_id log) →
  let log' := mergeFingerprintLog log new in
  len log' <= FINGERPRINT_LOG_CAP ∧ NoDup (map fe_id log') ∧
  (new ∈ log' ∨ ∃ e, e ∈ log ∧ fe_id e = fe_id new ∧ merge_entry e new ∈ log').
Proof.
  intros Hl Hn log'. unfold log', mergeFingerprintLog. destruct (merge_at log new) as [l|] eqn:E.
  - pose proof (merge_at_ids _ _ _ E) as Hid. split; [|split; [by rewrite Hid|right; by apply merge_at_in]].
    apply (f_equal length) in Hid. rewrite !length_map in Hid. unfold len in *. by rewrite Hid.
  - pose proof (merge_at_fresh _ _ E) as Hf.
    assert (Hn' : NoDup (map fe_id (log ++ [new]))).
    { rewrite map_app. apply NoDup_app. split_and!; [done|set_solver|apply NoDup_singleton]. }
    rewrite len_app. change (len [new]) with 1. destruct (Z.gtb_spec (len log + 1) FINGERPRINT_LOG_CAP) as [Hgt|Hle].
    + assert (Hcap : len log = 32) by (unfold FINGERPRINT_LOG_CAP in *; lia). rewrite Hcap.
      change (Z.to_nat (32 + 1 - FINGERPRINT_LOG_CAP)) with 1%nat.
      destruct log as [|e log]; [discriminate Hcap|]. cbn [drop app]. rewrite drop_0. rewrite len_cons in Hcap. split_and!.
      * rewrite len_app. change (len [new]) with 1. unfold FINGERPRINT_LOG_CAP. lia.
      * inversion Hn'; subst. done.
      * left. set_solver.
    + split_and!; [rewrite len_app; change (len [new]) with 1; lia|done|left; set_solver].
Qed.

Module RateSpec.

(** C32: No five minutes have more than 19 login attempts of one address let
    through, whatever the store that meets the contract, and 19 happen: the window is a
    fixed one that starts with the first attempt, so that two windows meet in five
    minutes.  (The comment on the limit and the end-to-end test speak of ten attempts in
    five minutes, which is not what the code keeps.) *)
Theorem login_rate_window :
  (∀ S (HS : StateStore S) (HSp : StateStoreSpec S) ip (s : S) ts x,
     (∀ n, peek s n (js "rl:login:" ++ ip) = None) → StronglySorted Z.le (0 :: ts) →
     allowed_in LOGIN_WINDOW_MS x
       (run_checks (js "rl:login:" ++ ip) LOGIN_MAX_PER_WINDOW LOGIN_WINDOW_MS ts s) <= 19) ∧
  (let ts := 0 :: replicate 9 299000 ++ replicate 10 300001 in
   allowed_in LOGIN_WINDOW_MS 299000
     (run_checks (js "rl:login:10.0.0.1") LOGIN_MAX_PER_WINDOW LOGIN_WINDOW_MS ts (∅ : InMemory.store)) = 19).
Proof.
  split; [|vm_compute; reflexivity]. intros S HS HSp ip s ts x Hs Hts.
  change 19 with (2 * LOGIN_MAX_PER_WINDOW - 1). apply run_checks_bound; [done|done|exact Hs|exact Hts].
Qed.

Lemma account_lock_range k : 0 <= lock_ms ACCOUNT_LOCKOUT_SCHEDULE_MS k <= 3600000.
Proof.
  unfold lock_ms. set (i := Z.to_nat _). assert (Hi : (i < 10)%nat) by (unfold i; change (len ACCOUNT_LOCKOUT_SCHEDULE_MS) with 10; lia).
  clearbody i. do 10 (destruct i as [|i]; [cbn; lia|]). lia.
Qed.

(** C31: After [n] failures of an account, each within an hour of the last, the
    account is locked for exactly the time of the schedule: the first four lock
    nothing, the fifth 30 s, then 60 s, 2 and 5 minutes, from the ninth on 10 minutes;
    [resetAccountFailures] unlocks it. *)
Theorem account_lockout_schedule S (HS : StateStore S) (HSp : StateStoreSpec S) emailHash (s : S) t ts m :
  0 <= t → peek s t (account_key emailHash) = None → hourly t ts → latest t ts <= m < latest t ts + 3600000 →
  let locked := fold_left (λ s t, recordAccountFailure emailHash t s) (t :: ts) s in
  (checkAccountRate emailHash m locked).2 =
    (latest t ts + nth (Z.to_nat (Z.min (1 + len ts) 9)) [0; 0; 0; 0; 0; 30000; 60000; 120000; 300000; 600000] 0 <=? m) ∧
  (checkAccountRate emailHash m (resetAccountFailures emailHash locked)).2 = true.
Proof.
  intros Ht Hs Hh Hm locked. split.
  - apply (lockout_after ACCOUNT_LOCKOUT_SCHEDULE_MS (account_key emailHash) s t ts (1 + len ts) m);
      [done|done|done|done|apply account_lock_range|done].
  - unfold checkAccountRate, resetAccountFailures. rewrite check_lockout_peek.
    by rewrite (proj1 (del_spec locked (account_key emailHash))).
Qed.

Lemma account_lockout_schedule_witness :
  let locked := fold_left (λ s t, recordAccountFailure (js "ab") t s) [1000; 2000; 3000; 4000; 5000] (∅ : InMemory.store) in
  (checkAccountRate (js "ab") 34999 locked).2 = (35000 <=? 34999) ∧
  (checkAccountRate (js "ab") 34999 (resetAccountFailures (js "ab") locked)).2 = true.
Proof.
  exact (account_lockout_schedule InMemory.store _ _ (js "ab") ∅ 1000 [2000; 3000; 4000; 5000] 34999
    ltac:(lia) eq_refl ltac:(cbn; lia) ltac:(cbn; lia)).
Defined.

(** Any number of failed logins whose reads all come before their writes
    count as one failure: the account is not locked, however many there were. *)
Theorem simultaneous_failures_count_once S (HS : StateStore S) (HSp : StateStoreSpec S) emailHash (s : S) t n m :
  0 <= t → (0 < n)%nat → peek s t (account_key emailHash) = None → t <= m < t + 3600000 →
  let s' := simultaneous ACCOUNT_LOCKOUT_SCHEDULE_MS (account_key emailHash) t n s in
  peek s' m (account_key emailHash) = Some (VLock 1 0) ∧ (checkAccountRate emailHash m s').2 = true.
Proof.
  intros Ht Hn Hs Hm s'.
  assert (Hp : peek s' m (account_key emailHash) = Some (VLock 1 0)).
  { pose proof (simultaneous_peek ACCOUNT_LOCKOUT_SCHEDULE_MS (account_key emailHash) t n s m Ht Hn) as Hp.
    cbv zeta in Hp. unfold count_at in Hp. rewrite Hs in Hp. apply Hp.
    change (lock_ms ACCOUNT_LOCKOUT_SCHEDULE_MS (0 + 1)) with 0. lia. }
  split; [exact Hp|]. unfold checkAccountRate. rewrite check_lockout_peek, Hp. done.
Qed.

Lemma simultaneous_failures_count_once_witness :
  let s' := simultaneous ACCOUNT_LOCKOUT_SCHEDULE_MS (account_key (js "ab")) 1000 50 (∅ : InMemory.store) in
  peek s' 1500 (account_key (js "ab")) = Some (VLock 1 0) ∧ (checkAccountRate (js "ab") 1500 s').2 = true.
Proof.
  exact (simultaneous_failures_count_once InMemory.store _ _ (js "ab") ∅ 1000 50 1500
    ltac:(lia) ltac:(lia) eq_refl ltac:(lia)).
Defined.

(** The log of fingerprints never holds more than 32 entries nor an id twice,
    and after a merge it holds the new entry, its counts added to those of the
    entry with the same id. *)
Theorem fingerprint_log_invariant log new :
  len log <= FINGERPRINT_LOG_CAP → NoDup (map fe_id log) →
  let log' := mergeFingerprintLog log new in
  len log' <= FINGERPRINT_LOG_CAP ∧ NoDup (map fe_id log') ∧
  (new ∈ log' ∨ ∃ e, e ∈ log ∧ fe_id e = fe_id new ∧ merge_entry e new ∈ log').
Proof. apply merge_log_ok. Qed.

Lemma fingerprint_log_invariant_witness :
  let log := [mkFpEntry (js "a") [] [] [] [] [] [] 1 1 1 0] in
  let new := mkFpEntry (js "a") [] [] [] [] [] [] 2 2 0 1 in
  let log' := mergeFingerprintLog log new in
  len log' <= FINGERPRINT_LOG_CAP ∧ NoDup (map fe_id log') ∧
  (new ∈ log' ∨ ∃ e, e ∈ log ∧ fe_id e = fe_id new ∧ merge_entry e new ∈ log').
Proof. intros log new. apply (fingerprint_log_invariant log new); [vm_compute; discriminate|apply NoDup_singleton]. Defined.
End RateSpec.
