(* ===== verification/SsrfGuard.v ===== *)
(** * The guard against internal mail hosts ([web/lib/ssrfGuard.js])

    The text patterns of private addresses and [resolvesToPublicHost]; the
    addresses a textual literal stands for, as [net.isIP] accepts them (without
    zone identifiers). *)
From S2P Require Import Prelude JsRuntime JsText Base64.

(** ** Address literals *)

Definition small_dec (s : jsstr) : option Z :=
  if negb (str_empty s) && forallb is_digit s && (len s <=? 3) && str_eqb (dec (dec_value s)) s && (dec_value s <? 256)
  then Some (dec_value s) else None.

Definition parse_v4 (s : jsstr) : option (Z * Z * Z * Z) :=
  match split_unit 46 s with
  | [a; b; c; d] =>
      a ← small_dec a; b ← small_dec b; c ← small_dec c; d ← small_dec d; Some (a, b, c, d)
  | _ => None
  end.

Definition group (s : jsstr) : option Z :=
  if negb (str_empty s) && forallb is_hex s && (len s <=? 4)
  then Some (fold_left (λ a c, a * 16 + hex_value c) s 0) else None.

(** Groups of 16 bits; the last may be a dotted quad. *)
Fixpoint groups (l : list jsstr) : option (list Z) :=
  match l with
  | [] => Some []
  | [s] => match parse_v4 s with
           | Some (a, b, c, d) => Some [a * 256 + b; c * 256 + d]
           | None => g ← group s; Some [g]
           end
  | s :: l' => g ← group s; gs ← groups l'; Some (g :: gs)
  end.

Definition groups_of (s : jsstr) : option (list Z) := match s with [] => Some [] | _ => groups (split_unit 58 s) end.

(** The text before and after the first [::]. *)
Fixpoint split_gap (s : jsstr) : option (jsstr * jsstr) :=
  match s with
  | 58 :: 58 :: r => Some ([], r)
  | c :: s' => '(a, b) ← split_gap s'; Some (c :: a, b)
  | [] => None
  end.

Definition parse_v6 (s : jsstr) : option (list Z) :=
  match split_gap s with
  | Some (a, b) =>
      if includes (js ".") a then None
      else ga ← groups_of a; gb ← groups_of b;
        if (length ga + length gb <=? 7)%nat then Some (ga ++ replicate (8 - length ga - length gb) 0 ++ gb) else None
  | None => g ← groups (split_unit 58 s); if (length g =? 8)%nat then Some g else None
  end.

(** [net.isIP] *)
Definition isIP (s : jsstr) : Z :=
  match parse_v4 s with Some _ => 4 | None => match parse_v6 s with Some _ => 6 | None => 0 end end.

(** ** The patterns of the code *)

(** [1[6-9]|2\d|3[01]] and a dot *)
Definition rfc1918_second (s : jsstr) : bool :=
  match s with
  | a :: b :: s' =>
      (((a =? 49) && (54 <=? b) && (b <=? 57)) || ((a =? 50) && is_digit b) || ((a =? 51) && ((b =? 48) || (b =? 49))))
      && starts_with (js ".") s'
  | _ => false
  end.

(** One unit of a range and a dot. *)
Definition range_dot (lo hi : Z) (s : jsstr) : bool :=
  match s with c :: s' => (lo <=? c) && (c <=? hi) && starts_with (js ".") s' | [] => false end.

(** [6[4-9]|[7-9]\d|1[01]\d|12[0-7]] and a dot *)
Definition cgnat_second (s : jsstr) : bool :=
  match s with
  | a :: b :: s' =>
      ((((a =? 54) && (52 <=? b) && (b <=? 57)) || ((55 <=? a) && (a <=? 57) && is_digit b)) && starts_with (js ".") s')
      || ((a =? 49) && ((b =? 48) || (b =? 49)) && range_dot 48 57 s')
      || ((a =? 49) && (b =? 50) && range_dot 48 55 s')
  | _ => false
  end.

Definition isPrivateV4 (ip : jsstr) : bool :=
  starts_with (js "0.") ip ||
  starts_with (js "127.") ip ||
  starts_with (js "10.") ip ||
  (starts_with (js "172.") ip && rfc1918_second (drop 4 ip)) ||
  starts_with (js "192.168.") ip ||
  starts_with (js "169.254.") ip ||
  (starts_with (js "100.") ip && cgnat_second (drop 4 ip)).

Section guard.
Context `{JsCase}.

Definition isPrivateV6 (ip : jsstr) : bool :=
  let lower := toLowerCase ip in
  if str_eqb lower (js "::1") || str_eqb lower (js "::") then true
  else if starts_with (js "fe80:") lower then true
  else if starts_with (js "fc") lower || starts_with (js "fd") lower then true
  else if starts_with (js "::ffff:") lower then isPrivateV4 (drop 7 lower)
  else false.

(** An address of [dns.lookup] with its family. *)
Definition bad_address (af : jsstr * Z) : bool :=
  ((af.2 =? 4) && isPrivateV4 af.1) || ((af.2 =? 6) && isPrivateV6 af.1).

(** [lookup] is [dns.lookup(host, { all: true, verbatim: true })], [None] when it
    rejects. *)
Definition resolvesToPublicHost (lookup : jsstr → option (list (jsstr * Z))) (hostname : jsstr) : bool :=
  let lower := toLowerCase (trim hostname) in
  if str_empty lower || str_eqb lower (js "localhost") then false
  else if isIP lower =? 4 then negb (isPrivateV4 lower)
  else if isIP lower =? 6 then negb (isPrivateV6 lower)
  else match lookup lower with
       | None => false
       | Some [] => false
       | Some addrs => forallb (λ af, negb (bad_address af)) addrs
       end.
End guard.

(** ** What the patterns are meant to be *)

Definition v4_number (a b c d : Z) : Z := a * 2 ^ 24 + b * 2 ^ 16 + c * 2 ^ 8 + d.
Definition v4_text (a b c d : Z) : jsstr := dec a ++ js "." ++ dec b ++ js "." ++ dec c ++ js "." ++ dec d.

(** [n] is in the block [base/bits]. *)
Definition in_block (n : Z) (blk : Z * Z) : bool := n / 2 ^ (32 - blk.2) =? blk.1 / 2 ^ (32 - blk.2).

Definition PRIVATE_V4 : list (Z * Z) :=
  [(v4_number 0 0 0 0, 8); (v4_number 127 0 0 0, 8); (v4_number 10 0 0 0, 8); (v4_number 172 16 0 0, 12);
   (v4_number 192 168 0 0, 16); (v4_number 169 254 0 0, 16); (v4_number 100 64 0 0, 10)].

(** An IPv6 address that stands for an IPv4 one. *)
Definition v4_mapped (g : list Z) : option Z :=
  match g with [0; 0; 0; 0; 0; 65535; h; l] => Some (h * 65536 + l) | _ => None end.

(** The address is loopback, link-local or unique-local, or maps a private IPv4
    address. *)
Definition private_v6 (g : list Z) : bool :=
  match g with
  | [0; 0; 0; 0; 0; 0; 0; l] => (l =? 0) || (l =? 1)
  | h :: _ => (h / 64 =? 0xfe80 / 64) || (h / 512 =? 0xfc00 / 512) ||
              match v4_mapped g with Some n => existsb (in_block n) PRIVATE_V4 | None => false end
  | [] => false
  end.

(** * Theorems on the guard against internal hosts *)

(** ** Patterns on text against blocks of numbers *)

(** The blocks by their first two octets. *)
Definition private_octets (a b : Z) : bool :=
  (a =? 0) || (a =? 127) || (a =? 10) || ((a =? 172) && (16 <=? b) && (b <=? 31)) || ((a =? 192) && (b =? 168))
  || ((a =? 169) && (b =? 254)) || ((a =? 100) && (64 <=? b) && (b <=? 127)).

(** An octet by its two hexadecimal digits. *)
Definition digits16 : list Z := [0; 1; 2; 3; 4; 5; 6; 7; 8; 9; 10; 11; 12; 13; 14; 15].

Lemma octet_digits (P : Z → Prop) :
  (∀ i j, In i digits16 → In j digits16 → P (16 * i + j)) → ∀ a, 0 <= a < 256 → P a.
Proof.
  intros HP a Ha. replace a with (16 * (a / 16) + a mod 16) by lia.
  assert (Hin : ∀ d, 0 <= d < 16 → In d digits16) by (intros d Hd; cbn; lia).
  apply HP; apply Hin; lia.
Qed.

Ltac each_octet :=
  refine (octet_digits _ _); intros i j Hi Hj;
  repeat (destruct Hi as [<-|Hi]; [|]); [..|destruct Hi];
  (repeat (destruct Hj as [<-|Hj]; [|]); [..|destruct Hj]);
  first [exact I | intros t; vm_compute; reflexivity].

(** First octets that decide alone. *)
Definition decided (a : Z) : bool := negb ((a =? 172) || (a =? 192) || (a =? 169) || (a =? 100)).

Lemma first_octet a :
  0 <= a < 256 → if decided a then ∀ t, isPrivateV4 (dec a ++ 46 :: t) = private_octets a 0 else True.
Proof. revert a. each_octet. Qed.

Lemma second_octet_172 b t : 0 <= b < 256 → isPrivateV4 (js "172." ++ dec b ++ 46 :: t) = private_octets 172 b.
Proof. intros Hb. revert b Hb t. each_octet. Qed.

Lemma second_octet_192 b t : 0 <= b < 256 → isPrivateV4 (js "192." ++ dec b ++ 46 :: t) = private_octets 192 b.
Proof. intros Hb. revert b Hb t. each_octet. Qed.

Lemma second_octet_169 b t : 0 <= b < 256 → isPrivateV4 (js "169." ++ dec b ++ 46 :: t) = private_octets 169 b.
Proof. intros Hb. revert b Hb t. each_octet. Qed.

Lemma second_octet_100 b t : 0 <= b < 256 → isPrivateV4 (js "100." ++ dec b ++ 46 :: t) = private_octets 100 b.
Proof. intros Hb. revert b Hb t. each_octet. Qed.

Lemma isPrivateV4_octets a b t :
  0 <= a < 256 → 0 <= b < 256 → isPrivateV4 (dec a ++ 46 :: dec b ++ 46 :: t) = private_octets a b.
Proof.
  intros Ha Hb. destruct (decided a) eqn:E.
  - pose proof (first_octet a Ha) as Hf. rewrite E in Hf.
    rewrite Hf. unfold decided, private_octets in *. to_prop.
    rewrite (proj2 (Z.eqb_neq a 172)), (proj2 (Z.eqb_neq a 192)), (proj2 (Z.eqb_neq a 169)), (proj2 (Z.eqb_neq a 100)) by done.
    done.
  - unfold decided in E. apply negb_false_iff in E. repeat (apply orb_prop in E as [E|E]); apply Z.eqb_eq in E; subst a.
    + by apply second_octet_172.
    + by apply second_octet_192.
    + by apply second_octet_169.
    + by apply second_octet_100.
Qed.

Lemma blocks_octets a b c d :
  0 <= a < 256 → 0 <= b < 256 → 0 <= c < 256 → 0 <= d < 256 →
  existsb (in_block (v4_number a b c d)) PRIVATE_V4 = private_octets a b.
Proof.
  intros Ha Hb Hc Hd. apply eq_true_iff_eq. unfold PRIVATE_V4, in_block, private_octets, v4_number. cbn [existsb fst snd].
  rewrite !orb_true_iff, !andb_true_iff, !Z.eqb_eq, !Z.leb_le. cbn -[Z.div Z.mul Z.add].
  change (2 ^ 24) with 16777216. change (2 ^ 16) with 65536. change (2 ^ 8) with 256.
  change (2 ^ 20) with 1048576. change (2 ^ 22) with 4194304.
  split; intros Hx; [|lia]. destruct_or! Hx; try done; lia.
Qed.

(** ** Literals *)

Lemma small_dec_inv s a : small_dec s = Some a → s = dec a ∧ 0 <= a < 256.
Proof.
  unfold small_dec. destruct (_ && _)%bool eqn:E; [|done]. intros [= <-]. to_prop.
  match goal with Hs : str_eqb _ _ = true |- _ => apply str_eqb_eq in Hs; rename Hs into Heq end.
  split; [done|]. split; [|done].
  match goal with Hd : forallb is_digit s = true |- _ => revert Hd end. clear.
  unfold dec_value. assert (Hg : ∀ acc, 0 <= acc → forallb is_digit s = true → 0 <= fold_left (λ a c, a * 10 + (c - 48)) s acc).
  { induction s as [|c s IH]; [done|]. cbn. intros acc Hacc Hd. to_prop. apply IH; [|done]. unfold is_digit in *. to_prop. lia. }
  by apply Hg.
Qed.

Lemma split_unit_inv c s : join_unit [c] (split_unit c s) = s.
Proof.
  induction s as [|x s IH]; [done|]. cbn [split_unit]. destruct (Z.eqb_spec x c) as [->|].
  - destruct (split_unit c s) as [|p ps] eqn:E; [by apply split_unit_nonnil in E|].
    change (join_unit [c] ([] :: p :: ps)) with ([c] ++ join_unit [c] (p :: ps)). by rewrite IH.
  - destruct (split_unit c s) as [|p ps] eqn:E; [by apply split_unit_nonnil in E|].
    destruct ps as [|q ps]; cbn [join_unit] in *; by rewrite <- IH.
Qed.

Lemma parse_v4_inv s a b c d :
  parse_v4 s = Some (a, b, c, d) →
  s = v4_text a b c d ∧ 0 <= a < 256 ∧ 0 <= b < 256 ∧ 0 <= c < 256 ∧ 0 <= d < 256.
Proof.
  unfold parse_v4. pose proof (split_unit_inv 46 s) as Hj.
  destruct (split_unit 46 s) as [|sa [|sb [|sc [|sd [|? ?]]]]]; try done.
  destruct (small_dec sa) as [a'|] eqn:Ea; [|done]. destruct (small_dec sb) as [b'|] eqn:Eb; [|done].
  destruct (small_dec sc) as [c'|] eqn:Ec; [|done]. destruct (small_dec sd) as [d'|] eqn:Ed; [|done].
  intros [= -> -> -> ->]. apply small_dec_inv in Ea as [-> ?], Eb as [-> ?], Ec as [-> ?], Ed as [-> ?].
  split; [by rewrite <- Hj|done].
Qed.

(** On a lower-case ASCII literal every case mapping agrees. *)
Lemma lower_literal (J : JsCase) lookup s :
  forallb is_ascii s && bool_decide (trim s = s) && bool_decide (map ascii_lower_unit s = s) && (isIP s =? 6)
    && negb (str_empty s || str_eqb s (js "localhost")) = true →
  @resolvesToPublicHost J lookup s = negb (@isPrivateV6 ascii_case s).
Proof.
  intros Hs. to_prop. assert (Hl : @toLowerCase J s = s) by (by rewrite toLowerCase_ascii).
  assert (Hl' : @toLowerCase ascii_case s = s) by done.
  unfold resolvesToPublicHost, isPrivateV6.
  match goal with Ht : trim s = s, Hi : isIP s = 6 |- _ => rewrite Ht, !Hl, Hl', Hi end.
  match goal with He : str_empty s = false, Hh : str_eqb s _ = false |- _ => by rewrite He, Hh end.
Qed.

Module SsrfSpec.

(** C30: On every dotted address the patterns of [isPrivateV4] hold exactly when the
    number of the address is in one of the seven blocks. *)
Theorem private_patterns_are_blocks a b c d :
  0 <= a < 256 → 0 <= b < 256 → 0 <= c < 256 → 0 <= d < 256 →
  isPrivateV4 (v4_text a b c d) = existsb (in_block (v4_number a b c d)) PRIVATE_V4.
Proof.
  intros. rewrite blocks_octets by done. unfold v4_text. by apply (isPrivateV4_octets a b (dec c ++ js "." ++ dec d)).
Qed.

Lemma private_patterns_are_blocks_witness :
  isPrivateV4 (v4_text 172 31 0 9) = existsb (in_block (v4_number 172 31 0 9)) PRIVATE_V4.
Proof. apply (private_patterns_are_blocks 172 31 0 9); lia. Defined.

(** A host the guard accepts is either an IPv4 literal outside the blocks, an
    IPv6 literal the patterns do not match, or a name that resolves, to addresses of
    which none matches. *)
Theorem accepted_host (J : JsCase) lookup hostname :
  resolvesToPublicHost lookup hostname = true →
  let host := toLowerCase (trim hostname) in
  host ≠ [] ∧ host ≠ js "localhost" ∧
  match parse_v4 host, parse_v6 host with
  | Some (a, b, c, d), _ => existsb (in_block (v4_number a b c d)) PRIVATE_V4 = false
  | None, Some _ => isPrivateV6 host = false
  | None, None => ∃ addrs, lookup host = Some addrs ∧ addrs ≠ [] ∧ Forall (λ af, bad_address af = false) addrs
  end.
Proof.
  unfold resolvesToPublicHost. intros Hr. cbv zeta in *. set (host := toLowerCase (trim hostname)) in *. clearbody host.
  destruct (str_empty host || str_eqb host (js "localhost")) eqn:E; [done|]. to_prop.
  split; [by destruct host|]. split; [intros ->; done|]. unfold isIP in Hr.
  destruct (parse_v4 host) as [[[[a b] c] d]|] eqn:E4.
  - change (4 =? 4) with true in Hr. cbv iota in Hr. apply negb_true_iff in Hr. apply parse_v4_inv in E4 as (-> & ? & ? & ? & ?).
    rewrite blocks_octets by done. rewrite <- (isPrivateV4_octets a b (dec c ++ js "." ++ dec d)) by done. exact Hr.
  - destruct (parse_v6 host) as [g|].
    { change (6 =? 4) with false in Hr. change (6 =? 6) with true in Hr. cbv iota in Hr. by apply negb_true_iff in Hr. }
    change (0 =? 4) with false in Hr. change (0 =? 6) with false in Hr. cbv iota in Hr.
    destruct (lookup host) as [addrs|]; [|done]. exists addrs. split; [done|]. destruct addrs as [|x addrs]; [done|].
    split; [done|]. apply List.Forall_forall. intros af Hin. rewrite forallb_forall in Hr. specialize (Hr af Hin). by to_prop.
Qed.

Lemma accepted_host_witness :
  let host := toLowerCase (trim (js " smtp.example.org ")) in
  host ≠ [] ∧ host ≠ js "localhost" ∧
  match parse_v4 host, parse_v6 host with
  | Some (a, b, c, d), _ => existsb (in_block (v4_number a b c d)) PRIVATE_V4 = false
  | None, Some _ => isPrivateV6 host = false
  | None, None => ∃ addrs, Some [(js "93.184.216.34", 4)] = Some addrs ∧ addrs ≠ [] ∧ Forall (λ af, bad_address af = false) addrs
  end.
Proof. exact (accepted_host ascii_case (λ _, Some [(js "93.184.216.34", 4)]) (js " smtp.example.org ") eq_refl). Defined.

(** Three literals the guard accepts although they denote internal addresses:
    127.0.0.1 mapped into IPv6 and written in hexadecimal, the loopback address
    written out, and a link-local address outside [fe80::/16]. *)
Theorem internal_literals_accepted (J : JsCase) lookup :
  Forall (λ host, resolvesToPublicHost lookup host = true ∧
                  ∃ g, parse_v6 host = Some g ∧ private_v6 g = true)
    [js "::ffff:7f00:1"; js "0:0:0:0:0:0:0:1"; js "fe90::1"].
Proof.
  apply List.Forall_cons; [|apply List.Forall_cons; [|apply List.Forall_cons; [|apply List.Forall_nil]]].
  - split; [rewrite lower_literal; [reflexivity|vm_compute; reflexivity]|].
    exists [0; 0; 0; 0; 0; 65535; 0x7f00; 1]. split; vm_compute; reflexivity.
  - split; [rewrite lower_literal; [reflexivity|vm_compute; reflexivity]|].
    exists [0; 0; 0; 0; 0; 0; 0; 1]. split; vm_compute; reflexivity.
  - split; [rewrite lower_literal; [reflexivity|vm_compute; reflexivity]|].
    exists [0xfe90; 0; 0; 0; 0; 0; 0; 1]. split; vm_compute; reflexivity.
Qed.
End SsrfSpec.
