(* ===== verification/ServerState.v ===== *)
(** * State and helpers of the server
    ([web/lib/session.js], [web/lib/csrf.js], [web/routes/auth/utils.js])

    The users, sessions, pending tokens and blobs the handlers share; password
    verification with its gate, sessions and the middleware that accepts them, the
    CSRF check, the tokens and codes of the second step of a login.

    A handler is a computation on the state that ends in a reply; [stop] is an
    early [return res...].  What the handlers read of time, randomness and the
    request are arguments. *)
From S2P Require Import Prelude JsRuntime JsText Json Base64 FileCrypto StateStore RateLimiter.

(** ** Data *)

Record User := mkUser {
  u_id : jsstr;
  u_emailHash : jsstr;
  u_passwordHash : option jsstr;
  u_salt : option jsstr;
  u_cryptoSalt : option jsstr;
  u_recoveryKeyHash : option jsstr;
  u_recoveryKeySalt : option jsstr;
  u_recoveryKeyExpiresAt : option Z;
  u_recoveryKeyGeneratedAt : option Z;
  u_passwordChangedAt : option Z;
  u_revocationEpoch : Z;
  u_duressEnforce : option Z;          (* { armed: true, maxAttempts } or null *)
  u_duressFailureCount : Z;
  u_fingerprintLog : list FpEntry;
  u_mfaTotp : bool;                    (* mfaEnforce.totp *)
  u_mfaEmail : bool;                   (* mfaEnforce.email *)
  u_mfaTotpSecret : option jsstr;
  u_loginHints : option (list (jsstr * bool));
}.

Record Session := mkSession {
  s_jti : jsstr; s_timestamp : Z; s_deviceName : jsstr; s_ip : jsstr; s_isCurrent : bool }.

#[export] Instance Session_eq_dec : EqDecision Session.
Proof. solve_decision. Defined.

(** An entry of [_setupOtps]. *)
Record SetupOtp := mkSetupOtp {
  so_code : jsstr; so_email : jsstr; so_expires : Z; so_attempts : Z;
  so_sendCount : Z; so_windowStart : Z; so_lastSentAt : Z }.

(** When a share expires, as its file holds it: a number, [null], or a text. *)
Inductive Expiry := ExpiresAt (n : Z) | ExpiresNull | ExpiresText.

(** A share as its file holds it. *)
Record Share := mkShare {
  sh_label : jsstr; sh_encryptedBlob : jsstr; sh_iv : jsstr; sh_createdAt : Z; sh_expiresAt : Expiry;
  sh_singleView : bool; sh_viewed : bool }.

Record Server (S : Type) := mkServer {
  users : list User;
  sessions : gmap jsstr (list Session);
  store : S;                                   (* ctx.stateStore *)
  tokens : gmap jsstr (jsstr * Z);             (* mfa_pending: user id, expiry *)
  emailOtps : gmap jsstr (jsstr * Z);          (* mfa_pending: code, expiry *)
  usedTotp : gmap jsstr (gset Z);              (* _usedTotpPeriods *)
  setupOtps : gmap jsstr SetupOtp;
  blobs : gmap (jsstr * jsstr) json;           (* resources by user and name *)
  auditQueue : list (jsstr * json);
  outbox : list (jsstr * jsstr);               (* mails sent: address, code *)
  shareIndex : gmap jsstr jsstr;               (* share_index.json: owner of a share *)
  shareFiles : gmap (jsstr * jsstr) Share;     (* by owner and id *)
}.
Arguments mkServer {S} _ _ _ _ _ _ _ _ _ _ _ _.
Arguments users {S}. Arguments sessions {S}. Arguments store {S}. Arguments tokens {S}. Arguments emailOtps {S}.
Arguments usedTotp {S}. Arguments setupOtps {S}. Arguments blobs {S}. Arguments auditQueue {S}. Arguments outbox {S}.
Arguments shareIndex {S}. Arguments shareFiles {S}.

(** ** Replies *)

Inductive reply :=
| RErr (status : Z) (error : string)                                     (* { error } *)
| ROk                                                                    (* { ok: true } *)
| RLimited (error reason : string)                                       (* 200 { ok: false, error }, X-Rate-Limited *)
| RInvalid (duressRemaining : option Z) (duressWipe : bool)              (* 200 { ok: false, error: 'invalid_credentials' } *)
| RPartial (partialToken : jsstr) (methods : list string)
| RSession (token csrf : jsstr) (vaultSalt : option jsstr)               (* { ok: true } with session cookies *)
| RNotOk                                                                 (* 200 { ok: false } *)
| RWait (status : Z) (error : string) (n : option Z)                     (* waitMs or attemptsLeft; [None] is NaN *)
| RLeft (n : Z)                                                          (* { ok: true, sendsLeft } or attemptsLeft *)
| RJson (v : json).

(** ** Computations of handlers *)

Definition H (S A : Type) : Type := Server S → Server S * result reply A.

#[export] Instance H_ret S : MRet (H S) := λ A a s, (s, Ok a).
#[export] Instance H_bind S : MBind (H S) := λ A B f m s,
  match m s with (s, Ok a) => f a s | (s, Throw r) => (s, Throw r) end.

Definition stop {S A} (r : reply) : H S A := λ s, (s, Throw r).
Definition stop_if {S} (b : bool) (r : reply) : H S unit := λ s, (s, if b then Throw r else Ok tt).
Definition gets {S A} (f : Server S → A) : H S A := λ s, (s, Ok (f s)).
Definition modify {S} (f : Server S → Server S) : H S unit := λ s, (f s, Ok tt).

(** The state after a request and its reply. *)
Definition run {S} (h : H S reply) (s : Server S) : Server S * reply :=
  match h s with (s, Ok r) => (s, r) | (s, Throw r) => (s, r) end.

(** [try { m } catch { handler }] *)
Definition try_or {S A} (m : H S A) (a : A) : H S A :=
  λ s, match m s with (s, Ok x) => (s, Ok x) | (s, Throw _) => (s, Ok a) end.

Section setters.
Context {S : Type}.
Implicit Types s : Server S.

Definition set_users x s := mkServer x (sessions s) (store s) (tokens s) (emailOtps s) (usedTotp s) (setupOtps s) (blobs s) (auditQueue s) (outbox s) (shareIndex s) (shareFiles s).
Definition set_sessions x s := mkServer (users s) x (store s) (tokens s) (emailOtps s) (usedTotp s) (setupOtps s) (blobs s) (auditQueue s) (outbox s) (shareIndex s) (shareFiles s).
Definition set_store (x : S) s : Server S := mkServer (users s) (sessions s) x (tokens s) (emailOtps s) (usedTotp s) (setupOtps s) (blobs s) (auditQueue s) (outbox s) (shareIndex s) (shareFiles s).
Definition set_tokens x s := mkServer (users s) (sessions s) (store s) x (emailOtps s) (usedTotp s) (setupOtps s) (blobs s) (auditQueue s) (outbox s) (shareIndex s) (shareFiles s).
Definition set_emailOtps x s := mkServer (users s) (sessions s) (store s) (tokens s) x (usedTotp s) (setupOtps s) (blobs s) (auditQueue s) (outbox s) (shareIndex s) (shareFiles s).
Definition set_usedTotp x s := mkServer (users s) (sessions s) (store s) (tokens s) (emailOtps s) x (setupOtps s) (blobs s) (auditQueue s) (outbox s) (shareIndex s) (shareFiles s).
Definition set_setupOtps x s := mkServer (users s) (sessions s) (store s) (tokens s) (emailOtps s) (usedTotp s) x (blobs s) (auditQueue s) (outbox s) (shareIndex s) (shareFiles s).
Definition set_blobs x s := mkServer (users s) (sessions s) (store s) (tokens s) (emailOtps s) (usedTotp s) (setupOtps s) x (auditQueue s) (outbox s) (shareIndex s) (shareFiles s).
Definition set_auditQueue x s := mkServer (users s) (sessions s) (store s) (tokens s) (emailOtps s) (usedTotp s) (setupOtps s) (blobs s) x (outbox s) (shareIndex s) (shareFiles s).
Definition set_outbox x s := mkServer (users s) (sessions s) (store s) (tokens s) (emailOtps s) (usedTotp s) (setupOtps s) (blobs s) (auditQueue s) x (shareIndex s) (shareFiles s).
Definition set_shareIndex x s := mkServer (users s) (sessions s) (store s) (tokens s) (emailOtps s) (usedTotp s) (setupOtps s) (blobs s) (auditQueue s) (outbox s) x (shareFiles s).
Definition set_shareFiles x s := mkServer (users s) (sessions s) (store s) (tokens s) (emailOtps s) (usedTotp s) (setupOtps s) (blobs s) (auditQueue s) (outbox s) (shareIndex s) x.
End setters.

(** ** The repository *)

Definition by_id (id : jsstr) (u : User) : bool := str_eqb (u_id u) id.
Definition by_hash (h : jsstr) (u : User) : bool := str_eqb (u_emailHash u) h.

Definition find_id {S} (id : jsstr) (s : Server S) : option User := List.find (by_id id) (users s).
Definition find_hash {S} (h : jsstr) (s : Server S) : option User := List.find (by_hash h) (users s).

(** [updateUserById]: [fn] gives the changed user or [None] for [false]; the answer
    is the user as it is written, or why nothing was. *)
Inductive updated := NoUser | Skipped | Updated (u : User).

Definition update_id {S} (id : jsstr) (fn : User → option User) : H S updated := λ s,
  match find_id id s with
  | None => (s, Ok NoUser)
  | Some u => match fn u with
              | None => (s, Ok Skipped)
              | Some u' => (set_users (update_first (by_id id) (λ _, u') (users s)) s, Ok (Updated u'))
              end
  end.

Definition delete_id {S} (id : jsstr) : H S unit := modify (λ s, set_users (remove_first (by_id id) (users s)) s).

Definition loadSessions {S} (uid : jsstr) (s : Server S) : list Session := default [] (sessions s !! uid).
Definition saveSessions {S} (uid : jsstr) (l : list Session) : H S unit :=
  modify (λ s, set_sessions (<[uid := l]> (sessions s)) s).

Definition readUserBlob {S} (uid : jsstr) (name : string) (fallback : json) (s : Server S) : json :=
  nullish (blobs s !! (uid, js name)) fallback.
Definition writeUserBlob {S} (uid : jsstr) (name : string) (v : json) : H S unit :=
  modify (λ s, set_blobs (<[(uid, js name) := v]> (blobs s)) s).

(** [appendAuditEvent]: at most 5000 events wait. *)
Definition appendAuditEvent {S} (uid : jsstr) (event : json) : H S unit :=
  modify (λ s, if len (auditQueue s) <? 5000 then set_auditQueue (auditQueue s ++ [(uid, event)]) s else s).

(** [performServerWipe]: the user's directory, then the user. *)
Definition performServerWipe {S} (uid : jsstr) : H S unit :=
  _ ← modify (λ s, set_shareFiles (filter (λ kv, kv.1.1 ≠ uid) (shareFiles s))
        (set_blobs (filter (λ kv, kv.1.1 ≠ uid) (blobs s)) (set_sessions (delete uid (sessions s)) s)));
  delete_id uid.

(** ** Libraries *)

(** The password hash functions of Node and of the [argon2] package. *)
Class ServerPassword := {
  argon2_hash : jsstr → bytes → jsstr;      (* password, salt drawn: an encoded hash *)
  argon2_verify : jsstr → jsstr → option bool;   (* encoded hash, password; [None]: it rejects a text that is no hash *)
  scrypt_hash : bytes → bytes → bytes;      (* password, salt: 64 bytes *)
  pbkdf2_sha512_1M : bytes → bytes → bytes; (* password, salt: 64 bytes *)
}.

(** [TOTP.generate(secret, { timestamp })] of [totp-generator]. *)
Class TotpGenerator := { totp_generate : jsstr → Z → jsstr }.

(** The encrypted session tokens of [jose]: subject, [jti], expiry. *)
Class Jwe := {
  jwe_seal : jsstr → jsstr → Z → jsstr;
  jwe_open : Z → jsstr → option (jsstr * jsstr * Z);   (* at a time; refuses expired tokens *)
}.

(** ** The store *)

Section with_store.
Context {S : Type} {HS : StateStore S}.

(** Runs an operation of the store. *)
Definition on_store {A} (f : S → S * A) : H S A := λ s, let '(st, a) := f (store s) in (set_store st s, Ok a).
Definition on_store_ (f : S → S) : H S unit := λ s, (set_store (f (store s)) s, Ok tt).

(** ** Passwords *)

Context {SH : ServerHash}.

Context {SP : ServerPassword}.

Definition ARGON2_MAX_CONCURRENT : Z := 3.
Definition PBKDF2_HASH_PREFIX : jsstr := js "$pbkdf2sha512$".

(** [Buffer.from(s, 'hex')]: pairs up to the first that is no hexadecimal. *)
Fixpoint from_hex (s : jsstr) : bytes :=
  match s with
  | a :: b :: s' => if is_hex a && is_hex b then hex_value a * 16 + hex_value b :: from_hex s' else []
  | _ => []
  end.

Definition constEq (a b : jsstr) : bool := bool_decide (from_hex a = from_hex b).

Definition scryptHash (password saltHex : jsstr) : jsstr :=
  bytesToHex (scrypt_hash (utf8_encode password) (from_hex saltHex)).

Definition pbkdf2Sha512Verify (stored password : jsstr) : bool :=
  if negb (starts_with PBKDF2_HASH_PREFIX stored) then false
  else match split_unit 36 (drop (length PBKDF2_HASH_PREFIX) stored) with
       | [saltHex; expectedHex] =>
           bool_decide (pbkdf2_sha512_1M (utf8_encode password) (from_hex saltHex) = from_hex expectedHex)
       | _ => false
       end.

(** The gate around the hash functions: at most three at a time. *)
Definition argon2_gate {A} (now : Z) (m : H S A) : H S A :=
  count ← on_store (store_incrExpire now (js "argon2:active") 120000);
  if count >? ARGON2_MAX_CONCURRENT then
    _ ← on_store (store_decr now (js "argon2:active")); stop (RErr 429 "too_many_requests")
  else
    λ s, let '(s, r) := m s in
         let '(st, _) := store_decr now (js "argon2:active") (store s) in (set_store st s, r).

Definition hashPassword (now : Z) (salt : bytes) (password : jsstr) : H S jsstr :=
  argon2_gate now (mret (argon2_hash password salt)).

(** What a stored hash says to a password; [None] when the check throws. *)
Definition password_matches (hashOrLegacy : option jsstr) (password : jsstr) (legacySaltHex : option jsstr) : option bool :=
  match hashOrLegacy with
  | Some ((_ :: _) as h) =>
      if starts_with (js "$argon2id$") h then argon2_verify h password
      else if starts_with PBKDF2_HASH_PREFIX h then Some (pbkdf2Sha512Verify h password)
      else if starts_with (js "$argon2") h then argon2_verify h password
      else match legacySaltHex with
           | Some ((_ :: _) as salt) => Some (constEq (scryptHash password salt) h)
           | _ => Some false
           end
  | _ => Some false
  end.

Definition verifyPassword (now : Z) (hashOrLegacy : option jsstr) (password : jsstr) (legacySaltHex : option jsstr)
    : H S bool :=
  argon2_gate now match password_matches hashOrLegacy password legacySaltHex with
                  | Some b => mret b
                  | None => stop (RErr 500 "exception")
                  end.

(** ** Lockout of the second factor *)

Definition MFA_MAX_ATTEMPTS : Z := 5.
Definition MFA_LOCKOUT_MS : Z := 10 * 60 * 1000.
Definition MFA_WINDOW_MS : Z := 15 * 60 * 1000.

Definition mfa_fail_key (uid : jsstr) : jsstr := js "mfa:fail:" ++ uid.
Definition mfa_lock_key (uid : jsstr) : jsstr := js "mfa:lock:" ++ uid.

Definition isMfaLocked (now : Z) (uid : jsstr) : H S bool :=
  v ← on_store (store_get now (mfa_lock_key uid)); mret (bool_decide (is_Some v)).

Definition recordMfaFailure (now : Z) (uid : jsstr) : H S unit :=
  count ← on_store (store_incrExpire now (mfa_fail_key uid) MFA_WINDOW_MS);
  if count >=? MFA_MAX_ATTEMPTS then
    _ ← on_store_ (store_set now (mfa_lock_key uid) (VText (js "1")) MFA_LOCKOUT_MS);
    on_store_ (store_del (mfa_fail_key uid))
  else mret tt.

Definition clearMfaFailure (uid : jsstr) : H S unit :=
  _ ← on_store_ (store_del (mfa_fail_key uid)); on_store_ (store_del (mfa_lock_key uid)).

(** ** Partial tokens and mailed codes *)

Definition PARTIAL_MFA_TTL_MS : Z := 5 * 60 * 1000.

(** [withMfaPendingLock] drops what has expired before it runs the callback. *)
Definition unexpired (now : Z) (m : gmap jsstr (jsstr * Z)) : gmap jsstr (jsstr * Z) := filter (λ kv, now <= kv.2.2) m.

Definition withMfaPendingLock {A} (now : Z) (m : H S A) : H S A :=
  _ ← modify (λ s, set_tokens (unexpired now (tokens s)) (set_emailOtps (unexpired now (emailOtps s)) s)); m.

Definition token_hash (token : jsstr) : jsstr := sha256_hex (from_hex token).
Definition otp_key (token : jsstr) : jsstr := sha256_hex (utf8_encode token).

Definition issueMfaToken (now : Z) (token userId : jsstr) : H S jsstr :=
  _ ← withMfaPendingLock now
        (modify (λ s, set_tokens (<[token_hash token := (userId, now + PARTIAL_MFA_TTL_MS)]> (tokens s)) s));
  mret token.

(** Reads and deletes an entry; one that has expired counts as absent. *)
Definition take_entry (now : Z) (k : jsstr) (m : gmap jsstr (jsstr * Z)) : gmap jsstr (jsstr * Z) * option jsstr :=
  match m !! k with
  | None => (m, None)
  | Some (v, expiresAt) => (delete k m, if now >? expiresAt then None else Some v)
  end.

Definition consumeMfaToken (now : Z) (token : jsstr) : H S (option jsstr) :=
  withMfaPendingLock now (λ s,
    let '(m, r) := take_entry now (token_hash token) (tokens s) in (set_tokens m s, Ok r)).

Definition storeEmailOtp (now : Z) (code partialToken : jsstr) : H S jsstr :=
  _ ← withMfaPendingLock now
        (modify (λ s, set_emailOtps (<[otp_key partialToken := (code, now + PARTIAL_MFA_TTL_MS)]> (emailOtps s)) s));
  mret code.

Definition consumeEmailOtp (now : Z) (partialToken : jsstr) : H S (option jsstr) :=
  withMfaPendingLock now (λ s,
    let '(m, r) := take_entry now (otp_key partialToken) (emailOtps s) in (set_emailOtps m s, Ok r)).

(** ** One-time passwords *)

Context {TG : TotpGenerator}.

Fixpoint try_drifts (drifts : list Z) (now : Z) (secret code secretHash : jsstr) (used : gmap jsstr (gset Z))
    : gmap jsstr (gset Z) * bool :=
  match drifts with
  | [] => (used, false)
  | d :: ds =>
      let ts := now + d in
      let period := ts / 30000 in
      if str_eqb (totp_generate secret ts) code then
        let periods := default ∅ (used !! secretHash) in
        if decide (period ∈ periods) then (<[secretHash := periods]> used, false)
        else (<[secretHash := {[period]} ∪ periods]> used, true)
      else try_drifts ds now secret code secretHash used
  end.

Definition is_otp_code (code : jsstr) : bool := forallb is_digit code && (6 <=? len code) && (len code <=? 8).

Definition verifyTotpCode (now : Z) (secret code : jsstr) : H S bool := λ s,
  if is_otp_code code then
    let '(used, ok) := try_drifts [-30000; 0; 30000] now secret code (sha256_hex (utf8_encode secret)) (usedTotp s) in
    (set_usedTotp used s, Ok ok)
  else (s, Ok false).

(** The timer that forgets old periods. *)
Definition totp_gc (now : Z) (s : Server S) : Server S :=
  let cutoff := now / 30000 - 4 in
  set_usedTotp (filter (λ kv, kv.2 ≠ ∅) (filter (λ p, cutoff <= p) <$> usedTotp s)) s.

(** ** Sessions *)

Context {JW : Jwe}.

Definition JWE_TTL_SECONDS : Z := 60 * 60 * 24.

Definition issueJwt (now : Z) (jti userId : jsstr) : jsstr := jwe_seal userId jti (now / 1000 + JWE_TTL_SECONDS).

Record AuthUser := mkAuthUser { au_id : jsstr; au_emailHash : jsstr; au_jti : jsstr; au_exp : Z }.

(** [authMiddleware]: [req.user]. *)
Definition authMiddleware (now : Z) (cookie : option jsstr) (s : Server S) : option AuthUser :=
  token ← cookie;
  '(sub, jti, exp) ← (if str_empty token then None else jwe_open now token);
  u ← find_id sub s;
  if existsb (λ x, str_eqb (s_jti x) jti) (loadSessions (u_id u) s)
  then Some (mkAuthUser (u_id u) (u_emailHash u) jti exp) else None.

Definition requireAuth (now : Z) (cookie : option jsstr) : H S AuthUser := λ s,
  match authMiddleware now cookie s with Some a => (s, Ok a) | None => (s, Throw (RErr 401 "unauthenticated")) end.

(** The double-submit check of a request that changes state. *)
Record Csrf := mkCsrf { csrf_method : string; csrf_header : option jsstr; csrf_cookie : option jsstr }.

Definition csrf_ok (c : Csrf) : bool :=
  if negb (existsb (String.eqb (csrf_method c)) ["POST"; "PUT"; "PATCH"; "DELETE"]%string) then true
  else match csrf_header c, csrf_cookie c with
       | Some ((_ :: _) as h), Some ((_ :: _) as k) => bool_decide (utf8_encode h = utf8_encode k)
       | _, _ => false
       end.

Definition requireCsrf (c : Csrf) : H S unit := stop_if (negb (csrf_ok c)) (RErr 403 "csrf").

(** ** Names of devices *)

Definition lower_ascii (s : jsstr) : jsstr := map ascii_lower_unit s.

(** [/p/i.test(s)] for a literal of lower-case ASCII. *)
Definition has_ci (p : string) (s : jsstr) : bool := includes (js p) (lower_ascii s).

(** [/p\d/i.test(s)] *)
Fixpoint has_ci_digit (p : jsstr) (s : jsstr) : bool :=
  (starts_with p s && match drop (length p) s with c :: _ => is_digit c | [] => false end)
  || match s with [] => false | _ :: s' => has_ci_digit p s' end.
Definition has_digit (p : string) (s : jsstr) : bool := has_ci_digit (js p) (lower_ascii s).

Definition parseUA (ua : jsstr) : jsstr :=
  let os :=
    if has_ci "macintosh" ua || has_ci "mac os x" ua then js "macOS"
    else if has_ci "windows nt 10" ua then js "Windows 10/11"
    else if has_ci "windows" ua then js "Windows"
    else if has_ci "iphone" ua || has_ci "ipad" ua then js "iOS"
    else if has_ci "android" ua then js "Android"
    else if has_ci "linux" ua then js "Linux" else js "Unknown OS" in
  let br :=
    if has_ci "vivaldi" ua then js "Vivaldi"
    else if has_ci "edg/" ua then js "Edge"
    else if has_ci "opr/" ua || has_ci "opera" ua then js "Opera"
    else if has_digit "chrome/" ua && negb (has_ci "chromium" ua) then js "Chrome"
    else if has_digit "firefox/" ua then js "Firefox"
    else if has_digit "safari/" ua then js "Safari" else js "Unknown Browser" in
  os ++ js " - " ++ br.

(** [s.replace(p, r)] for the first occurrence. *)
Fixpoint replace_first (p r s : jsstr) : jsstr :=
  if starts_with p s then r ++ drop (length p) s
  else match s with [] => [] | c :: s' => c :: replace_first p r s' end.

Definition is_hint_unit (c : Z) : bool :=
  is_digit c || is_upper c || is_lower c || (c =? 95) || is_space c || (c =? 45) || (c =? 46).

Definition device_name (ua : jsstr) (browserHint : option jsstr) : jsstr :=
  let deviceName := parseUA ua in
  let safe := or_empty ((λ b, List.filter is_hint_unit (slice0 50 b)) <$> browserHint) in
  if negb (str_empty safe) && negb (str_eqb safe (js "Unknown")) && includes (js "Chrome") deviceName
  then replace_first (js "Chrome") safe deviceName else deviceName.

(** What a request has for [recordSession]: the hint of the body, today's date and
    the answer of [getServerPublicIp]. *)
Record SessionCtx := mkSessionCtx { sc_browser : option jsstr; sc_today : jsstr; sc_publicIp : option jsstr }.

Definition is_loopback (ip : jsstr) : bool :=
  str_eqb ip (js "127.0.0.1") || str_eqb ip (js "::1") || str_eqb ip (js "::ffff:127.0.0.1").

Definition display_ip (ip : jsstr) (c : SessionCtx) : jsstr :=
  if is_loopback ip then or_else (sc_publicIp c) (js "Local") else slice0 8 (sha256_hex (utf8_encode (ip ++ sc_today c))).

Definition not_current (x : Session) : Session := mkSession (s_jti x) (s_timestamp x) (s_deviceName x) (s_ip x) false.

(** The list after one more session, at most twenty. *)
Definition add_session (jti : jsstr) (new : Session) (l : list Session) : list Session :=
  let updated := map not_current (List.filter (λ x, negb (str_eqb (s_jti x) jti)) l) ++ [new] in
  if len updated >? 20 then drop (Z.to_nat (len updated - 20)) updated else updated.

Definition recordSession (now : Z) (uid jti : jsstr) (req : Req) (c : SessionCtx) : H S unit :=
  l ← gets (loadSessions uid);
  saveSessions uid (add_session jti
    (mkSession jti now (device_name (userAgent req) (sc_browser c)) (display_ip (getClientIp req) c) true) l).
End with_store.
