(* ===== verification/LoginRoute.v ===== *)
(** * Login and account routes ([web/routes/auth/login.js])

    Every handler as a computation on the server's state. *)
From S2P Require Import Prelude JsRuntime JsText Json Base64 FileCrypto StateStore RateLimiter ServerState.

(** ** Requests *)

(** What a login request carries, with what the middleware and the runtime add. *)
Record LoginReq := mkLoginReq {
  lq_req : Req;
  lq_email : jsstr;
  lq_password : jsstr;
  lq_fp : option Fp;
  lq_ctx : SessionCtx;
  lq_ipInfo : json;               (* compactIpInfo(req.ipRecord) *)
  lq_riskFlags : json;
}.

(** The random values a handler draws. *)
Record Rand := mkRand { rd_jti : jsstr; rd_csrf : jsstr; rd_token : jsstr; rd_code : jsstr; rd_salt : bytes }.

(** An object literal; fields that are [undefined] do not reach the JSON text. *)
Definition obj (fields : list (string * option json)) : json :=
  JObj (omap (λ kv, (λ v, (js kv.1, v)) <$> kv.2) fields).

Definition str_field (s : jsstr) : option json := Some (JStr s).

Definition short_event (action : string) (ip : jsstr) (success : bool) : json :=
  obj [("action", Some (JStr (js action))); ("ip", str_field ip); ("success", Some (JBool success))]%string.

(** The events of a login, with the fingerprint of the client. *)
Definition login_event (action : string) (auth_method : option json) (q : LoginReq) (success : bool) (cid : option jsstr) : json :=
  obj ([("action", Some (JStr (js action))); ("auth_method", auth_method); ("ip", str_field (getClientIp (lq_req q)));
        ("ipInfo", Some (lq_ipInfo q)); ("userAgent", str_field (userAgent (lq_req q))); ("success", Some (JBool success));
        ("riskFlags", Some (lq_riskFlags q))]%string
       ++ match cid with
          | Some c => [("fingerprintId", str_field (slice0 16 c)); ("screen", JStr <$> (lq_fp q ≫= fp_screen));
                       ("timezone", JStr <$> (lq_fp q ≫= fp_timezone))]%string
          | None => []
          end).

(** ** Changes of a user *)

Definition set_fingerprintLog (l : list FpEntry) (u : User) : User :=
  mkUser (u_id u) (u_emailHash u) (u_passwordHash u) (u_salt u) (u_cryptoSalt u) (u_recoveryKeyHash u) (u_recoveryKeySalt u)
    (u_recoveryKeyExpiresAt u) (u_recoveryKeyGeneratedAt u) (u_passwordChangedAt u) (u_revocationEpoch u)
    (u_duressEnforce u) (u_duressFailureCount u) l (u_mfaTotp u) (u_mfaEmail u) (u_mfaTotpSecret u) (u_loginHints u).

Definition set_password (h : option jsstr) (salt : option jsstr) (u : User) : User :=
  mkUser (u_id u) (u_emailHash u) h salt (u_cryptoSalt u) (u_recoveryKeyHash u) (u_recoveryKeySalt u)
    (u_recoveryKeyExpiresAt u) (u_recoveryKeyGeneratedAt u) (u_passwordChangedAt u) (u_revocationEpoch u)
    (u_duressEnforce u) (u_duressFailureCount u) (u_fingerprintLog u) (u_mfaTotp u) (u_mfaEmail u) (u_mfaTotpSecret u) (u_loginHints u).

Definition set_recovery (h salt : option jsstr) (expires generated : option Z) (u : User) : User :=
  mkUser (u_id u) (u_emailHash u) (u_passwordHash u) (u_salt u) (u_cryptoSalt u) h salt expires generated
    (u_passwordChangedAt u) (u_revocationEpoch u)
    (u_duressEnforce u) (u_duressFailureCount u) (u_fingerprintLog u) (u_mfaTotp u) (u_mfaEmail u) (u_mfaTotpSecret u) (u_loginHints u).

Definition set_duress (enforce : option Z) (count : Z) (u : User) : User :=
  mkUser (u_id u) (u_emailHash u) (u_passwordHash u) (u_salt u) (u_cryptoSalt u) (u_recoveryKeyHash u) (u_recoveryKeySalt u)
    (u_recoveryKeyExpiresAt u) (u_recoveryKeyGeneratedAt u) (u_passwordChangedAt u) (u_revocationEpoch u)
    enforce count (u_fingerprintLog u) (u_mfaTotp u) (u_mfaEmail u) (u_mfaTotpSecret u) (u_loginHints u).

Definition set_changed (at_ : option Z) (epoch : Z) (u : User) : User :=
  mkUser (u_id u) (u_emailHash u) (u_passwordHash u) (u_salt u) (u_cryptoSalt u) (u_recoveryKeyHash u) (u_recoveryKeySalt u)
    (u_recoveryKeyExpiresAt u) (u_recoveryKeyGeneratedAt u) at_ epoch
    (u_duressEnforce u) (u_duressFailureCount u) (u_fingerprintLog u) (u_mfaTotp u) (u_mfaEmail u) (u_mfaTotpSecret u) (u_loginHints u).

Definition set_cryptoSalt (salt : option jsstr) (u : User) : User :=
  mkUser (u_id u) (u_emailHash u) (u_passwordHash u) (u_salt u) salt (u_recoveryKeyHash u) (u_recoveryKeySalt u)
    (u_recoveryKeyExpiresAt u) (u_recoveryKeyGeneratedAt u) (u_passwordChangedAt u) (u_revocationEpoch u)
    (u_duressEnforce u) (u_duressFailureCount u) (u_fingerprintLog u) (u_mfaTotp u) (u_mfaEmail u) (u_mfaTotpSecret u) (u_loginHints u).

Definition set_loginHints (h : option (list (jsstr * bool))) (u : User) : User :=
  mkUser (u_id u) (u_emailHash u) (u_passwordHash u) (u_salt u) (u_cryptoSalt u) (u_recoveryKeyHash u) (u_recoveryKeySalt u)
    (u_recoveryKeyExpiresAt u) (u_recoveryKeyGeneratedAt u) (u_passwordChangedAt u) (u_revocationEpoch u)
    (u_duressEnforce u) (u_duressFailureCount u) (u_fingerprintLog u) (u_mfaTotp u) (u_mfaEmail u) (u_mfaTotpSecret u) h.

Definition set_mfa (totp email : bool) (secret : option jsstr) (u : User) : User :=
  mkUser (u_id u) (u_emailHash u) (u_passwordHash u) (u_salt u) (u_cryptoSalt u) (u_recoveryKeyHash u) (u_recoveryKeySalt u)
    (u_recoveryKeyExpiresAt u) (u_recoveryKeyGeneratedAt u) (u_passwordChangedAt u) (u_revocationEpoch u)
    (u_duressEnforce u) (u_duressFailureCount u) (u_fingerprintLog u) totp email secret (u_loginHints u).

(** ** Handlers *)

(** The e-mail check of [zod], and the SMTP settings of the environment. *)
Class ServerEnv := {
  zod_email : jsstr → bool;
  MASTER_KEY : bytes;
  envSmtp : option json;          (* getEnvSmtpConfig() *)
  env_SHARE_TTL_MS : option jsstr;
  env_SETUP_OTP_MAX_ATTEMPTS : option jsstr;
}.

(** [v ? parseInt(v, 10) : d]; [None] is NaN. *)
Definition env_int (v : option jsstr) (d : Z) : option Z :=
  match v with Some ((_ :: _) as t) => parseInt10 t | _ => Some d end.

Section handlers.
Context {S : Type} {HS : StateStore S} {SH : ServerHash} {SP : ServerPassword} {TG : TotpGenerator} {JW : Jwe}
        {JC : JsCase} {SE : ServerEnv}.

Definition valid_login (q : LoginReq) : bool :=
  zod_email (lq_email q) && (len (lq_email q) <=? 320) && (1 <=? len (lq_password q)) && (len (lq_password q) <=? 128).

Definition is_armed (u : option User) : bool := match u with Some u => bool_decide (is_Some (u_duressEnforce u)) | None => false end.

(** [Number(maxAttempts) || 3] between 1 and 20. *)
Definition clamp_attempts (m : Z) : Z := Z.max 1 (Z.min 20 (if m =? 0 then 3 else m)).

Inductive duress_outcome := NotArmed | Wipe | Remaining (n : Z) (u : User).

(** The callback that counts a failure of an armed account. *)
Definition count_duress (fu : User) : duress_outcome :=
  match u_duressEnforce fu with
  | None => NotArmed
  | Some m =>
      let max := clamp_attempts m in
      let next := u_duressFailureCount fu + 1 in
      if next >=? max then Wipe else Remaining (max - next) (set_duress (u_duressEnforce fu) next fu)
  end.

Definition log_fingerprint (q : LoginReq) (cid : jsstr) (now : Z) (success : bool) (fu : User) : User :=
  set_fingerprintLog
    (mergeFingerprintLog (u_fingerprintLog fu) (makeFingerprintLogEntry cid (lq_fp q) (lq_req q) success now)) fu.

(** The counter of an armed account: what is left, and whether to wipe. *)
Definition duress_failure (armed : bool) (uid : jsstr) : H S (option Z * bool) :=
  if armed then
    fu ← gets (find_id uid);
    match count_duress <$> fu with
    | Some (Remaining n fu') => _ ← update_id uid (λ _, Some fu'); mret (Some n, false)
    | Some Wipe => mret (None, true)
    | _ => mret (None, false)
    end
  else mret (None, false).

(** A wrong password for a known user. *)
Definition failed_user (now : Z) (q : LoginReq) (armed : bool) (uid cid : jsstr) : H S reply :=
  _ ← update_id uid (λ fu, Some (log_fingerprint q cid now false fu));
  '(remaining, wipe) ← duress_failure armed uid;
  _ ← (if wipe : bool then
         _ ← appendAuditEvent uid (short_event "duress_wipe_triggered" (getClientIp (lq_req q)) true);
         performServerWipe uid
       else appendAuditEvent uid (login_event "login_failed" None q false (Some cid)));
  mret (RInvalid remaining wipe).

(** The branch for a wrong password. *)
Definition login_failed (now : Z) (q : LoginReq) (uSnapshot : option User) (cid emailHash : jsstr) : H S reply :=
  _ ← on_store_ (recordFingerprintFailure cid now);
  _ ← (if is_armed uSnapshot then mret tt else on_store_ (recordAccountFailure emailHash now));
  match uSnapshot with
  | None => mret (RInvalid None false)
  | Some u => failed_user now q (is_armed uSnapshot) (u_id u) cid
  end.

(** [credentials?.length ?? 0] *)
Definition js_length (v : option json) : Z :=
  match v with Some (JArr l) => len l | Some (JStr s) => len s | _ => 0 end.

Definition has_keys (method : string) (cfg : json) : bool :=
  truthy (opt_prop "enabled" (prop method cfg)) && (js_length (opt_prop "credentials" (prop method cfg)) >? 0).

Definition hasHardwareMfa (cfg : json) : bool := has_keys "webauthn" cfg || has_keys "passkey" cfg || has_keys "platform" cfg.

(** [sendOtpEmail] needs a host, a user and a password. *)
Definition sendOtpEmail (cfg : json) (toEmail code : jsstr) : H S bool :=
  if truthy (prop "host" cfg) && truthy (prop "username" cfg) && truthy (prop "password" cfg)
  then _ ← modify (λ s, set_outbox (outbox s ++ [(toEmail, code)]) s); mret true
  else mret false.

(** A session and its cookies. *)
Definition open_session (now : Z) (rnd : Rand) (uid : jsstr) (q : LoginReq) : H S jsstr :=
  _ ← recordSession now uid (rd_jti rnd) (lq_req q) (lq_ctx q);
  mret (issueJwt now (rd_jti rnd) uid).

Definition mfa_methods (u : User) : list string :=
  (if u_mfaTotp u then ["totp"%string] else []) ++ (if u_mfaEmail u then ["email"%string] else []).

(** Mails the code of a partial token, when there is an address and a server. *)
Definition mail_login_code (now : Z) (rnd : Rand) (uid token : jsstr) : H S unit :=
  otp ← storeEmailOtp now (rd_code rnd) token;
  profile ← gets (readUserBlob uid "profile" (JObj [(js "email", JStr [])]));
  blob ← gets (readUserBlob uid "smtp_config" JNull);
  let cfg := match blob with JNull => envSmtp | v => Some v end in
  let toEmail := trim (or_empty (as_string (prop "email" profile))) in
  match str_empty toEmail, cfg with
  | false, Some c => if truthy (Some c) then _ ← sendOtpEmail c toEmail otp; mret tt else mret tt
  | _, _ => mret tt
  end.

(** The user as a login leaves it. *)
Definition after_login (q : LoginReq) (cid : jsstr) (now : Z) (snap : User) (recoveryConsumed : bool)
    (newPasswordHash : option jsstr) (fu : User) : User :=
  let fu := if recoveryConsumed then set_recovery None None None (u_recoveryKeyGeneratedAt fu) fu else fu in
  let fu := match newPasswordHash with
            | Some h => if decide (u_passwordHash fu = u_passwordHash snap) then set_password (Some h) None fu else fu
            | None => fu
            end in
  let fu := if u_duressFailureCount fu >? 0 then set_duress (u_duressEnforce fu) 0 fu else fu in
  log_fingerprint q cid now true fu.

(** What follows a right password: a partial token when a second factor is
    enforced, a session otherwise. *)
Definition login_verified (now : Z) (rnd : Rand) (q : LoginReq) (cid : jsstr) (authMethod : string) (u : User) : H S reply :=
  mfaCfg ← gets (readUserBlob (u_id u) "mfa_config" (JObj []));
  let methods := mfa_methods u in
  if hasHardwareMfa mfaCfg && (length methods =? 0)%nat then
    _ ← appendAuditEvent (u_id u) (short_event "login_blocked_hardware_mfa" (getClientIp (lq_req q)) false);
    stop (RErr 403 "hardware_mfa_requires_daemon")
  else if (0 <? length methods)%nat then
    locked ← isMfaLocked now (u_id u);
    _ ← stop_if locked (RErr 429 "mfa_locked");
    token ← issueMfaToken now (rd_token rnd) (u_id u);
    _ ← (if u_mfaEmail u then mail_login_code now rnd (u_id u) token else mret tt);
    mret (RPartial token methods)
  else
    token ← open_session now rnd (u_id u) q;
    _ ← appendAuditEvent (u_id u) (login_event "login" (Some (JStr (js authMethod))) q true (Some cid));
    mret (RSession token (rd_csrf rnd) (u_cryptoSalt u)).

(** Whether the password, or else an unexpired recovery key, is right: with the
    method and whether the key was used up. *)
Definition authenticate (now : Z) (u : option User) (password : jsstr) : H S (bool * string * bool) :=
  authenticated ← verifyPassword now (u ≫= u_passwordHash) password (u ≫= u_salt);
  match authenticated, u with
  | false, Some u =>
      match u_recoveryKeyHash u with
      | Some ((_ :: _) as rk) =>
          let expired := match u_recoveryKeyExpiresAt u with Some e => negb (e =? 0) && (now >? e) | None => false end in
          if expired then mret (false, "password"%string, false)
          else ok ← verifyPassword now (Some rk) password (u_recoveryKeySalt u);
               mret (if ok : bool then (true, "recovery_key"%string, true) else (false, "password"%string, false))
      | _ => mret (false, "password"%string, false)
      end
  | a, _ => mret (a, "password"%string, false)
  end.

(** A legacy hash is replaced after a right password. *)
Definition upgrade_hash (now : Z) (rnd : Rand) (u : User) (password : jsstr) : H S (option jsstr) :=
  match u_passwordHash u with
  | Some ((_ :: _) as h) =>
      if starts_with (js "$argon2id$") h then mret None
      else try_or (x ← hashPassword now (rd_salt rnd) password; mret (Some x)) None
  | _ => mret None
  end.

Definition login_blocked (now : Z) (ipOk fpOk acctOk : bool) : H S reply :=
  _ ← try_or (argon2_gate now (mret tt)) tt;
  mret (RLimited (if acctOk then "too_many_requests" else "account_locked")
                 (if acctOk then (if fpOk then "ip" else "fingerprint") else "account")).

(** The handler after it has read the user; [meanwhile] is what other requests do while
    the password is hashed. *)
Definition login_with (now : Z) (rnd : Rand) (meanwhile : Server S → Server S) (q : LoginReq) (uSnapshot : option User) : H S reply :=
  let emailHash := hashEmail MASTER_KEY (lq_email q) in
  let cid := deriveClientIdentity (lq_req q) (lq_fp q) in
  ipOk ← on_store (λ st, let '(st, (ok, _)) := checkLoginRate (getClientIp (lq_req q)) now st in (st, ok));
  fpOk ← on_store (checkFingerprintRate cid now);
  acctOk ← (if is_armed uSnapshot then mret true else on_store (checkAccountRate emailHash now));
  if negb (ipOk && fpOk && acctOk) then login_blocked now ipOk fpOk acctOk
  else
    '(authenticated, authMethod, recoveryConsumed) ← authenticate now uSnapshot (lq_password q);
    _ ← modify meanwhile;
    match authenticated, uSnapshot with
    | true, Some snap =>
        newHash ← upgrade_hash now rnd snap (lq_password q);
        _ ← on_store_ (resetAccountFailures emailHash);
        _ ← on_store_ (resetFingerprintFailures cid);
        r ← update_id (u_id snap) (λ fu, Some (after_login q cid now snap recoveryConsumed newHash fu));
        match r with
        | Updated u => login_verified now rnd q cid authMethod u
        | _ => stop (RErr 401 "user_not_found")
        end
    | _, _ => login_failed now q uSnapshot cid emailHash
    end.

(** POST /api/auth/login *)
Definition login_during (now : Z) (rnd : Rand) (meanwhile : Server S → Server S) (q : LoginReq) : H S reply :=
  _ ← stop_if (negb (valid_login q)) (RErr 400 "invalid_input");
  uSnapshot ← gets (find_hash (hashEmail MASTER_KEY (lq_email q)));
  login_with now rnd meanwhile q uSnapshot.

(** ... when nothing else happens. *)
Definition login (now : Z) (rnd : Rand) (q : LoginReq) : H S reply := login_during now rnd (λ s, s) q.

(** ** The second step *)

Record FinishReq := mkFinishReq {
  fq_login : LoginReq;                  (* request, session context, ip information *)
  fq_partialToken : option jsstr;
  fq_totpCode : option json;
  fq_emailCode : option json;
}.

(** A wrong code. *)
Definition mfa_failed (now : Z) (q : FinishReq) (uid : jsstr) : H S unit :=
  _ ← recordMfaFailure now uid;
  _ ← appendAuditEvent uid (short_event "mfa_failed" (getClientIp (lq_req (fq_login q))) false);
  stop (RErr 401 "invalid_mfa_code").

(** [totpCode ?? emailCode] *)
Definition totp_or_email (q : FinishReq) : option json :=
  match fq_totpCode q with None | Some JNull => fq_emailCode q | v => v end.

(** The mailed code, read once. *)
Definition check_email_code (now : Z) (q : FinishReq) (token : jsstr) (u : User) : H S unit :=
  match as_string (fq_emailCode q) with
  | None => stop (RErr 401 "mfa_required")
  | Some emailCode =>
      stored ← consumeEmailOtp now token;
      match stored with
      | Some ((_ :: _) as stored) =>
          let supplied := slice0 8 (trim emailCode) in
          if len supplied =? len stored then
            (* [timingSafeEqual] throws on buffers of different lengths *)
            if len (utf8_encode supplied) =? len (utf8_encode stored) then
              if decide (utf8_encode supplied = utf8_encode stored) then mret tt else mfa_failed now q (u_id u)
            else stop (RErr 500 "exception")
          else mfa_failed now q (u_id u)
      | _ => mfa_failed now q (u_id u)
      end
  end.

(** The code that is asked for, checked. *)
Definition check_second_factor (now : Z) (q : FinishReq) (token : jsstr) (u : User) : H S unit :=
  match u_mfaTotp u, u_mfaTotpSecret u with
  | true, Some ((_ :: _) as secret) =>
      match as_string (totp_or_email q) with
      | None => stop (RErr 401 "mfa_required")
      | Some code => ok ← verifyTotpCode now secret code; if ok : bool then mret tt else mfa_failed now q (u_id u)
      end
  | _, _ => if u_mfaEmail u then check_email_code now q token u else mret tt
  end.

(** POST /api/auth/login/finish *)
Definition login_finish (now : Z) (rnd : Rand) (q : FinishReq) : H S reply :=
  match fq_partialToken q with
  | None => stop (RErr 400 "invalid_input")
  | Some token =>
      userId ← consumeMfaToken now token;
      match userId with
      | Some ((_ :: _) as userId) =>
          u ← gets (find_id userId);
          match u with
          | None => stop (RErr 401 "user_not_found")
          | Some u =>
              locked ← isMfaLocked now (u_id u);
              _ ← stop_if locked (RErr 429 "mfa_locked");
              _ ← check_second_factor now q token u;
              _ ← clearMfaFailure (u_id u);
              tok ← open_session now rnd userId (fq_login q);
              _ ← appendAuditEvent userId (login_event "login" None (fq_login q) true None);
              mret (RSession tok (rd_csrf rnd) (u_cryptoSalt u))
          end
      | _ => stop (RErr 401 "invalid_or_expired_mfa_token")
      end
  end.
End handlers.
