(* ===== verification/AccountRoutes.v ===== *)
(** * Account routes
    ([web/routes/auth/login.js], [register.js], [sessions.js], [mfa.js])

    Registration, sessions, the password, the recovery key, login hints, the log of
    fingerprints and the codes that confirm an e-mail address.  Where a handler
    re-checks what it read before a slow hash, [meanwhile] is what other requests
    do to the state in between. *)
From S2P Require Import Prelude JsRuntime JsText Json Base64 FileCrypto StateStore RateLimiter ServerState LoginRoute.

Section routes.
Context {S : Type} {HS : StateStore S} {SH : ServerHash} {SP : ServerPassword} {TG : TotpGenerator} {JW : Jwe}
        {JC : JsCase} {SE : ServerEnv}.

(** [authMiddleware, requireAuth, requireCsrf] *)
Definition guarded (now : Z) (cookie : option jsstr) (c : Csrf) : H S AuthUser :=
  a ← requireAuth now cookie; _ ← requireCsrf c; mret a.

Definition rate (f : S → S * (bool * RateHeaders)) : H S bool :=
  on_store (λ st, let '(st, (ok, _)) := f st in (st, ok)).

(** [if (typeof x !== 'string') return res.status(400)...] *)
Definition need_string (x : option jsstr) (error : string) : H S jsstr :=
  match x with Some x => mret x | None => stop (RErr 400 error) end.

(** ** Registration *)

Record RegisterReq := mkRegisterReq {
  rg_login : LoginReq; rg_firstName : jsstr; rg_lastName : jsstr; rg_cryptoSalt : option jsstr; rg_id : jsstr }.

Definition valid_register (q : RegisterReq) : bool :=
  let l := rg_login q in
  zod_email (lq_email l) && (len (lq_email l) <=? 320) && (12 <=? len (lq_password l)) && (len (lq_password l) <=? 128)
  && (1 <=? len (rg_firstName q)) && (len (rg_firstName q) <=? 100)
  && (1 <=? len (rg_lastName q)) && (len (rg_lastName q) <=? 100).

Definition new_user (id emailHash hash : jsstr) (cryptoSalt : option jsstr) : User :=
  mkUser id emailHash (Some hash) None (cryptoSalt ≫= or_undefined) None None None None None 0 None 0 [] false false None None.

(** [insertUser]: refuses an index that is taken. *)
Definition insert_user (u : User) : H S bool := λ s,
  if existsb (by_hash (u_emailHash u)) (users s) then (s, Ok false)
  else (set_users (users s ++ [u]) s, Ok true).

(** POST /api/auth/register *)
Definition register (now : Z) (rnd : Rand) (meanwhile : Server S → Server S) (q : RegisterReq) : H S reply :=
  ok ← rate (checkRegisterRate (getClientIp (lq_req (rg_login q))) now);
  _ ← stop_if (negb ok) (RErr 429 "too_many_requests");
  _ ← stop_if (negb (valid_register q)) (RErr 400 "invalid_input");
  let emailHash := hashEmail MASTER_KEY (lq_email (rg_login q)) in
  taken ← gets (find_hash emailHash);
  _ ← stop_if (bool_decide (is_Some taken)) (RErr 409 "email_taken");
  hash ← hashPassword now (rd_salt rnd) (lq_password (rg_login q));
  _ ← modify meanwhile;
  inserted ← insert_user (new_user (rg_id q) emailHash hash (rg_cryptoSalt q));
  _ ← stop_if (negb inserted) (RErr 409 "email_taken");
  _ ← writeUserBlob (rg_id q) "profile"
        (obj [("firstName", str_field (rg_firstName q)); ("lastName", str_field (rg_lastName q));
              ("email", str_field (trim (lq_email (rg_login q))))]%string);
  _ ← writeUserBlob (rg_id q) "credentials" (JArr []);
  _ ← writeUserBlob (rg_id q) "folders" (JArr []);
  _ ← writeUserBlob (rg_id q) "asset_holder"
        (JObj [(js "emails", JArr []); (js "phoneNumbers", JArr []); (js "u2fKeys", JArr [])]);
  token ← open_session now rnd (rg_id q) (rg_login q);
  mret (RSession token (rd_csrf rnd) None).

(** ** Sessions *)

(** [list.sort((a, b) => b.timestamp - a.timestamp)], a stable sort. *)
Fixpoint insert_desc (x : Session) (l : list Session) : list Session :=
  match l with
  | [] => [x]
  | y :: l' => if s_timestamp y <? s_timestamp x then x :: l else y :: insert_desc x l'
  end.
Definition sort_sessions (l : list Session) : list Session := fold_left (λ acc x, insert_desc x acc) l [].

Definition session_json (x : Session) : json :=
  obj [("id", str_field (s_jti x)); ("timestamp", Some (JNum (Int (s_timestamp x)))); ("deviceName", str_field (s_deviceName x));
       ("ip", str_field (s_ip x)); ("isCurrent", Some (JBool (s_isCurrent x)))]%string.

(** GET /api/auth/sessions *)
Definition list_sessions (now : Z) (cookie : option jsstr) : H S reply :=
  a ← requireAuth now cookie;
  l ← gets (loadSessions (au_id a));
  mret (RJson (JArr (map session_json (sort_sessions l)))).

(** POST /api/auth/sessions/revoke-others *)
Definition revoke_others (now : Z) (cookie : option jsstr) (c : Csrf) : H S reply :=
  a ← guarded now cookie c;
  _ ← update_id (au_id a) (λ u, Some (set_changed (u_passwordChangedAt u) (u_revocationEpoch u + 1) u));
  l ← gets (loadSessions (au_id a));
  _ ← saveSessions (au_id a) (List.filter (λ x, str_eqb (s_jti x) (au_jti a)) l);
  mret ROk.

(** POST /api/auth/logout; [q] gives the request for the audit event. *)
Definition logout (now : Z) (cookie : option jsstr) (c : Csrf) (q : LoginReq) : H S reply :=
  a ← gets (authMiddleware now cookie);
  _ ← requireCsrf c;
  _ ← match a with
      | None => mret tt
      | Some a =>
          l ← gets (loadSessions (au_id a));
          _ ← saveSessions (au_id a) (List.filter (λ x, negb (str_eqb (s_jti x) (au_jti a))) l);
          appendAuditEvent (au_id a) (login_event "logout" None q true None)
      end;
  mret ROk.

(** GET /api/auth/me *)
Definition me (now : Z) (cookie : option jsstr) : H S reply :=
  a ← gets (authMiddleware now cookie);
  u ← gets (λ s, a ≫= λ a, find_id (au_id a) s);
  match u with
  | None => mret (RJson (JObj [(js "authenticated", JBool false)]))
  | Some u =>
      profile ← gets (readUserBlob (u_id u) "profile"
                 (JObj [(js "firstName", JStr []); (js "lastName", JStr []); (js "email", JStr [])]));
      mret (RJson (JObj [(js "authenticated", JBool true);
        (js "user", obj [("firstName", prop "firstName" profile); ("lastName", prop "lastName" profile);
                         ("email", prop "email" profile);
                         ("passwordChangedAt", (λ n, JNum (Int n)) <$> u_passwordChangedAt u);
                         ("recoveryKeyGeneratedAt", (λ n, JNum (Int n)) <$> u_recoveryKeyGeneratedAt u)]%string)]))
  end.

(** ** The password *)

(** POST /api/auth/password *)
Definition change_password (now : Z) (rnd : Rand) (cookie : option jsstr) (c : Csrf) (meanwhile : Server S → Server S)
    (old new : option jsstr) (q : LoginReq) : H S reply :=
  a ← guarded now cookie c;
  oldPassword ← need_string old "invalid_input";
  newPassword ← need_string new "invalid_input";
  _ ← stop_if (len newPassword <? 12) (RErr 400 "weak_password");
  uSnap ← gets (find_id (au_id a));
  match uSnap with
  | None => stop (RErr 401 "user_not_found")
  | Some uSnap =>
      authenticated ← verifyPassword now (u_passwordHash uSnap) oldPassword (u_salt uSnap);
      _ ← stop_if (negb authenticated) (RErr 401 "invalid_credentials");
      newHash ← hashPassword now (rd_salt rnd) newPassword;
      _ ← modify meanwhile;
      cur ← gets (find_id (au_id a));
      match cur with
      | None => stop (RErr 401 "user_not_found")
      | Some u =>
          _ ← stop_if (negb (bool_decide (u_passwordHash u = u_passwordHash uSnap))) (RErr 409 "password_changed");
          _ ← update_id (au_id a) (λ u, Some (set_changed (Some now) (u_revocationEpoch u + 1) (set_password (Some newHash) None u)));
          _ ← saveSessions (au_id a) [];
          _ ← appendAuditEvent (au_id a) (login_event "password_changed" None q true None);
          mret ROk
      end
  end.

(** POST /api/auth/verify-password *)
Definition verify_password (now : Z) (cookie : option jsstr) (c : Csrf) (meanwhile : Server S → Server S) (req : Req)
    (password : option jsstr) : H S reply :=
  a ← guarded now cookie c;
  ok ← rate (checkLoginRate (getClientIp req) now);
  _ ← stop_if (negb ok) (RErr 429 "too_many_requests");
  match password with
  | None => stop (RErr 400 "invalid_input")
  | Some password =>
      u ← gets (find_id (au_id a));
      match u with
      | None => stop (RErr 401 "user_not_found")
      | Some u =>
          locked ← isMfaLocked now (u_id u);
          _ ← stop_if locked (RErr 429 "too_many_attempts");
          (* the gate's error is caught and answered with 500 *)
          authenticated ← (λ s, match verifyPassword now (u_passwordHash u) password (u_salt u) s with
                                | (s, Throw _) => (s, Throw (RErr 500 "server_error"))
                                | r => r
                                end);
          _ ← modify meanwhile;
          if authenticated : bool then _ ← clearMfaFailure (u_id u); mret ROk
          else _ ← recordMfaFailure now (u_id u); mret RNotOk
      end
  end.

(** ** The recovery key *)

Definition is_crockford (c : Z) : bool :=
  let c := ascii_upper_unit c in
  is_digit c || ((65 <=? c) && (c <=? 72)) || (c =? 74) || (c =? 75) || (c =? 77) || (c =? 78)
  || ((80 <=? c) && (c <=? 84)) || ((86 <=? c) && (c <=? 90)).

Definition clean_key (k : jsstr) : jsstr := List.filter (λ c, negb ((c =? 45) || is_space c)) k.

Definition NINETY_DAYS : Z := 90 * 24 * 60 * 60 * 1000.

(** POST /api/auth/recovery-key *)
Definition set_recovery_key (now : Z) (rnd : Rand) (cookie : option jsstr) (c : Csrf) (meanwhile : Server S → Server S)
    (key pass : option jsstr) : H S reply :=
  a ← guarded now cookie c;
  recoveryKey ← need_string key "invalid_input";
  password ← need_string pass "invalid_input";
  _ ← stop_if (len recoveryKey <? 26) (RErr 400 "weak_recovery_key");
  _ ← stop_if (str_empty (clean_key recoveryKey) || negb (forallb is_crockford (clean_key recoveryKey)))
        (RErr 400 "invalid_charset");
  uSnap ← gets (find_id (au_id a));
  match uSnap with
  | None => stop (RErr 401 "user_not_found")
  | Some uSnap =>
      verified ← verifyPassword now (u_passwordHash uSnap) password (u_salt uSnap);
      _ ← stop_if (negb verified) (RErr 401 "invalid_password");
      hash ← hashPassword now (rd_salt rnd) recoveryKey;
      _ ← modify meanwhile;
      cur ← gets (find_id (au_id a));
      match cur with
      | None => stop (RErr 401 "user_not_found")
      | Some u =>
          _ ← stop_if (negb (bool_decide (u_passwordHash u = u_passwordHash uSnap))) (RErr 409 "password_changed");
          _ ← update_id (au_id a) (λ u, Some (set_recovery (Some hash) None (Some (now + NINETY_DAYS)) (Some now) u));
          mret ROk
      end
  end.

(** ** Login hints *)

Definition SAFE_KEYS : list jsstr :=
  map js ["totp"; "emailOtp"; "webauthn"; "passkey"; "platform"; "passwordEnabled"; "passwordlessEnabled"]%string.

Definition sanitize_hints (fields : list (jsstr * json)) : list (jsstr * bool) :=
  omap (λ kv, if bool_decide (kv.1 ∈ SAFE_KEYS) then match kv.2 with JBool b => Some (kv.1, b) | _ => None end else None) fields.

Definition DEFAULT_HINTS : list (jsstr * bool) :=
  [(js "totp", false); (js "emailOtp", false); (js "passwordEnabled", true); (js "webauthn", false);
   (js "passwordlessEnabled", false)].

Fixpoint hint_of (k : jsstr) (l : list (jsstr * bool)) : option bool :=
  match l with [] => None | (k', b) :: l' => if str_eqb k k' then Some b else hint_of k l' end.

Definition hints_json (l : list (jsstr * bool)) : json := JObj [(js "hints", JObj (map (λ kb, (kb.1, JBool kb.2)) l))].

(** POST /api/auth/login-hints with [hints] *)
Definition update_hints (now : Z) (cookie : option jsstr) (c : Csrf) (hints : json) : H S reply :=
  a ← guarded now cookie c;
  match hints with
  | JObj fields =>
      r ← update_id (au_id a) (λ u, Some (set_loginHints (Some (sanitize_hints fields)) u));
      match r with NoUser => stop (RErr 401 "user_not_found") | _ => mret ROk end
  | _ => stop (RErr 400 "invalid_hints")
  end.

Definition safe_hints (raw : list (jsstr * bool)) : list (jsstr * bool) :=
  map (λ kb, (kb.1, default kb.2 (hint_of kb.1 raw))) DEFAULT_HINTS.

(** POST /api/auth/login-hints without *)
Definition read_hints (now : Z) (req : Req) (email : option jsstr) : H S reply :=
  ok ← rate (checkHintsRate (getClientIp req) now);
  _ ← stop_if (negb ok) (RErr 429 "too_many_requests");
  match email with
  | None => stop (RErr 400 "invalid_input")
  | Some email =>
      u ← gets (find_hash (hashEmail MASTER_KEY email));
      mret (RJson (hints_json match u ≫= u_loginHints with None => DEFAULT_HINTS | Some raw => safe_hints raw end))
  end.

(** ** The salt of the vault keys *)

(** POST /api/auth/crypto-salt: the first salt stays. *)
Definition crypto_salt (now : Z) (cookie : option jsstr) (c : Csrf) (salt : option jsstr) : H S reply :=
  a ← guarded now cookie c;
  cryptoSalt ← need_string salt "invalid_salt";
  _ ← stop_if (negb (forallb is_hex cryptoSalt && (len cryptoSalt =? 32))) (RErr 400 "invalid_salt");
  r ← update_id (au_id a) (λ u, Some (match u_cryptoSalt u with Some (_ :: _) => u | _ => set_cryptoSalt (Some cryptoSalt) u end));
  match r with
  | Updated u => mret (RSession [] [] (u_cryptoSalt u))
  | _ => stop (RErr 401 "user_not_found")
  end.

(** ** Fingerprints *)

(** DELETE /api/auth/fingerprints/:id *)
Definition delete_fingerprint (now : Z) (cookie : option jsstr) (c : Csrf) (targetId : jsstr) : H S reply :=
  a ← guarded now cookie c;
  _ ← stop_if (negb (forallb is_hex targetId && (4 <=? len targetId) && (len targetId <=? 128))) (RErr 400 "invalid_id");
  r ← update_id (au_id a) (λ u,
        let kept := List.filter (λ e, negb (str_eqb (fe_id e) targetId)) (u_fingerprintLog u) in
        if (length kept =? length (u_fingerprintLog u))%nat then None else Some (set_fingerprintLog kept u));
  match r with
  | Updated _ => _ ← on_store_ (resetFingerprintFailures targetId); mret ROk
  | _ => stop (RErr 404 "not_found")
  end.

(** [list.sort((a, b) => (b.lastSeen || 0) - (a.lastSeen || 0))], a stable sort. *)
Fixpoint insert_recent (x : FpEntry) (l : list FpEntry) : list FpEntry :=
  match l with
  | [] => [x]
  | y :: l' => if fe_lastSeen y <? fe_lastSeen x then x :: l else y :: insert_recent x l'
  end.
Definition sort_recent (l : list FpEntry) : list FpEntry := fold_left (λ acc x, insert_recent x acc) l [].

(** GET /api/auth/fingerprints: the entries of the reply. *)
Definition list_fingerprints (now : Z) (cookie : option jsstr) : H S (list FpEntry) :=
  a ← requireAuth now cookie;
  u ← gets (find_id (au_id a));
  match u with
  | None => stop (RErr 401 "user_not_found")
  | Some u => mret (sort_recent (u_fingerprintLog u))
  end.

(** ** Codes that confirm an e-mail address *)

(** POST /api/auth/send-setup-otp *)
Definition send_setup_otp (now : Z) (rnd : Rand) (cookie : option jsstr) (c : Csrf) (toEmail : option jsstr) : H S reply :=
  a ← guarded now cookie c;
  match toEmail with
  | Some toEmail =>
      _ ← stop_if (negb (includes (js "@") toEmail) || (len toEmail >? 320)) (RErr 400 "invalid_input");
      prev ← gets (λ s, setupOtps s !! au_id a);
      _ ← (match prev with
           | Some p => let wait := now - so_lastSentAt p in
               stop_if (negb (so_lastSentAt p =? 0) && (wait <? 30000)) (RWait 429 "resend_too_soon" (Some (30000 - wait)))
           | None => mret tt
           end);
      let stale := match prev with Some p => now - so_windowStart p >? 10 * 60000 | None => true end in
      let windowStart := match prev with Some p => if stale then now else so_windowStart p | None => now end in
      let sendCount := match prev with Some p => if stale then 0 else so_sendCount p | None => 0 end in
      _ ← stop_if (sendCount >=? 5) (RWait 429 "rate_limited" (Some (10 * 60000 - (now - windowStart))));
      _ ← modify (λ s, set_setupOtps
            (<[au_id a := mkSetupOtp (rd_code rnd) toEmail (now + 5 * 60000) 0 (sendCount + 1) windowStart now]> (setupOtps s)) s);
      blob ← gets (readUserBlob (au_id a) "smtp_config" JNull);
      sent ← (match blob, envSmtp with
              | JNull, None => mret false
              | JNull, Some v => sendOtpEmail v toEmail (rd_code rnd)
              | v, _ => sendOtpEmail v toEmail (rd_code rnd)
              end);
      _ ← stop_if (negb sent) (RErr 503 "smtp_not_configured");
      mret (RLeft (5 - (sendCount + 1)))
  | None => stop (RErr 400 "invalid_input")
  end.

Definition SETUP_OTP_MAX_ATTEMPTS : option Z := env_int env_SETUP_OTP_MAX_ATTEMPTS 3.

(** [s.padEnd(6, ' ')] *)
Definition pad6 (s : jsstr) : jsstr := s ++ replicate (6 - length s) 32.

Definition bump_attempts (e : SetupOtp) : SetupOtp :=
  mkSetupOtp (so_code e) (so_email e) (so_expires e) (so_attempts e + 1) (so_sendCount e) (so_windowStart e) (so_lastSentAt e).

(** POST /api/auth/verify-setup-otp *)
Definition verify_setup_otp (now : Z) (cookie : option jsstr) (c : Csrf) (code : option jsstr) : H S reply :=
  a ← guarded now cookie c;
  match code with
  | None => stop (RErr 400 "invalid_input")
  | Some code =>
      entry ← gets (λ s, setupOtps s !! au_id a);
      let forget := modify (λ s, set_setupOtps (delete (au_id a) (setupOtps s)) s) in
      match entry with
      | Some e =>
          if now >? so_expires e then _ ← forget; stop (RErr 401 "expired_or_invalid")
          else if decide (utf8_encode (pad6 (strip_spaces code)) = utf8_encode (pad6 (so_code e))) then
            _ ← forget; mret (RJson (obj [("ok", Some (JBool true)); ("email", str_field (so_email e))]%string))
          else
            let attempts := so_attempts e + 1 in
            if match SETUP_OTP_MAX_ATTEMPTS with Some max => attempts >=? max | None => false end then _ ← forget; stop (RErr 401 "too_many_attempts")
            else
              _ ← modify (λ s, set_setupOtps (<[au_id a := bump_attempts e]> (setupOtps s)) s);
              stop (RWait 401 "invalid_code" ((λ max, max - attempts) <$> SETUP_OTP_MAX_ATTEMPTS))
      | None => _ ← forget; stop (RErr 401 "expired_or_invalid")
      end
  end.
End routes.
