(* ===== verification/ServerLogic.v ===== *)
(** * Reasoning about handlers

    Weakest preconditions of the computations of [ServerState]: [wp m Q E s] says
    that [m], run on [s], ends normally in [Q] or with an early reply in [E]. *)
From S2P Require Import Prelude JsRuntime JsText Json FileCrypto StateStore RateLimiter ServerState.

Definition wp {S A} (m : H S A) (Q : A → Server S → Prop) (E : reply → Server S → Prop) (s : Server S) : Prop :=
  match m s with (s', Ok a) => Q a s' | (s', Throw r) => E r s' end.

Section rules.
Context {S : Type}.
Implicit Types s : Server S.

Lemma wp_bind {A B} (m : H S A) (f : A → H S B) Q E s :
  wp m (λ a s', wp (f a) Q E s') E s → wp (m ≫= f) Q E s.
Proof. unfold wp, mbind, H_bind. destruct (m s) as [s' [a|r]]; done. Qed.

Lemma wp_ret {A} (a : A) Q E s : Q a s → wp (mret a) Q E s.
Proof. done. Qed.

Lemma wp_stop {A} r (Q : A → _) E s : E r s → wp (stop r) Q E s.
Proof. done. Qed.

Lemma wp_stop_if b r Q E s : (b = true → E r s) → (b = false → Q tt s) → wp (stop_if b r) Q E s.
Proof. unfold wp, stop_if. destruct b; auto. Qed.

Lemma wp_gets {A} (f : Server S → A) Q E s : Q (f s) s → wp (gets f) Q E s.
Proof. done. Qed.

Lemma wp_modify f Q E s : Q tt (f s) → wp (modify f) Q E s.
Proof. done. Qed.

Lemma wp_mono {A} (m : H S A) (Q Q' : A → Server S → Prop) (E E' : reply → Server S → Prop) s :
  wp m Q E s → (∀ a s', Q a s' → Q' a s') → (∀ r s', E r s' → E' r s') → wp m Q' E' s.
Proof. unfold wp. destruct (m s) as [s' [a|r]]; auto. Qed.

(** Summarise a computation that ends normally. *)
Lemma wp_cut {A} (R : A → Server S → Prop) (m : H S A) Q E s :
  wp m R (λ _ _, False) s → (∀ a s', R a s' → Q a s') → wp m Q E s.
Proof. intros Hm HR. by apply (wp_mono _ _ _ _ _ _ Hm HR). Qed.

Lemma wp_and {A} (m : H S A) (Q Q' : A → Server S → Prop) (E E' : reply → Server S → Prop) s :
  wp m Q E s → wp m Q' E' s → wp m (λ a s', Q a s' ∧ Q' a s') (λ r s', E r s' ∧ E' r s') s.
Proof. unfold wp. destruct (m s) as [s' [a|r]]; auto. Qed.

Lemma wp_try_or {A} (m : H S A) a Q E s : wp m Q (λ _ s', Q a s') s → wp (try_or m a) Q E s.
Proof. unfold wp, try_or. destruct (m s) as [s' [x|r]]; done. Qed.

Lemma wp_if {A} (b : bool) (m n : H S A) Q E s :
  (b = true → wp m Q E s) → (b = false → wp n Q E s) → wp (if b then m else n) Q E s.
Proof. destruct b; auto. Qed.

(** From a run to the postcondition and back. *)
Lemma wp_run (h : H S reply) (P : reply → Server S → Prop) s : wp h P P s → P (run h s).2 (run h s).1.
Proof. unfold wp, run. destruct (h s) as [s' [a|r]]; done. Qed.

Lemma wp_update_id id fn Q E s :
  match find_id id s with
  | None => Q NoUser s
  | Some u => match fn u with
              | None => Q Skipped s
              | Some u' => Q (Updated u') (set_users (update_first (by_id id) (λ _, u') (users s)) s)
              end
  end → wp (update_id id fn) Q E s.
Proof. unfold wp, update_id. destruct (find_id id s) as [u|]; [|done]. by destruct (fn u). Qed.

Context {HS : StateStore S}.

(** Operations of the store change nothing else. *)
Lemma wp_on_store {A} (f : S → S * A) Q E s :
  Q (f (store s)).2 (set_store (f (store s)).1 s) → wp (on_store f) Q E s.
Proof. unfold wp, on_store. by destruct (f (store s)). Qed.

Lemma wp_on_store_ f Q E s : Q tt (set_store (f (store s)) s) → wp (on_store_ f) Q E s.
Proof. done. Qed.

(** The gate lets through or answers 429; either way only the store changes. *)
Lemma wp_gate {A} now (a : A) Q E s :
  (∀ st, Q a (set_store st s)) → (∀ st, E (RErr 429 "too_many_requests") (set_store st s)) →
  wp (argon2_gate now (mret a)) Q E s.
Proof.
  intros HQ HE. unfold argon2_gate. apply wp_bind, wp_on_store. destruct (_ >? _).
  - apply wp_bind, wp_on_store, wp_stop. exact (HE _).
  - unfold wp, mret, H_ret. destruct (store_decr now _ _) as [st x]. exact (HQ _).
Qed.

(** A password is checked, or the gate answers 429, or the check throws. *)
Lemma wp_verify {SH : ServerHash} {SP : ServerPassword} now h pw salt Q E s :
  (∀ st b, password_matches h pw salt = Some b → Q b (set_store st s)) →
  (∀ st r, r = RErr 429 "too_many_requests" ∨ r = RErr 500 "exception" → E r (set_store st s)) →
  wp (verifyPassword now h pw salt) Q E s.
Proof.
  intros HQ HE. unfold verifyPassword. destruct (password_matches h pw salt) as [b|]; [apply wp_gate; auto|].
  unfold argon2_gate. apply wp_bind, wp_on_store. destruct (_ >? _).
  - apply wp_bind, wp_on_store, wp_stop. apply (HE _ _ (or_introl eq_refl)).
  - unfold wp, stop. destruct (store_decr now _ _) as [st x]. exact (HE _ _ (or_intror eq_refl)).
Qed.
End rules.

(** One step of symbolic execution. *)
Ltac wp_step :=
  lazymatch goal with
  | |- wp (_ ≫= _) _ _ _ => apply wp_bind
  | |- wp (mret _) _ _ _ => apply wp_ret
  | |- wp (stop _) _ _ _ => apply wp_stop
  | |- wp (stop_if _ _) _ _ _ => apply wp_stop_if; intros ?
  | |- wp (gets _) _ _ _ => apply wp_gets
  | |- wp (modify _) _ _ _ => apply wp_modify
  | |- wp (on_store _) _ _ _ => apply wp_on_store
  | |- wp (on_store_ _) _ _ _ => apply wp_on_store_
  | |- wp (try_or _ _) _ _ _ => apply wp_try_or
  | |- wp (argon2_gate _ (mret _)) _ _ _ => apply wp_gate; intros ?
  | |- wp (verifyPassword _ _ _ _) _ _ _ => apply wp_verify; [intros ? ? ?|intros ? ? ?]
  | |- wp (hashPassword _ _ _) _ _ _ => apply wp_gate; intros ?
  | |- wp (update_id _ _) _ _ _ => apply wp_update_id
  | |- wp (appendAuditEvent _ _) _ _ _ => apply wp_modify
  | |- wp (saveSessions _ _) _ _ _ => apply wp_modify
  | |- wp (writeUserBlob _ _ _) _ _ _ => apply wp_modify
  | |- wp (delete_id _) _ _ _ => apply wp_modify
  end.
Ltac wp_steps := repeat wp_step.

(** ** Projections of the setters *)

Section projections.
Context {S : Type}.
Implicit Types s : Server S.

(** The state of accounts: everything but the store, the queue and the mails. *)
Definition same_accounts s s' : Prop :=
  users s' = users s ∧ sessions s' = sessions s ∧ blobs s' = blobs s.

Lemma same_accounts_refl s : same_accounts s s.
Proof. done. Qed.

Lemma same_accounts_trans s1 s2 s3 : same_accounts s1 s2 → same_accounts s2 s3 → same_accounts s1 s3.
Proof. unfold same_accounts. intros (? & ? & ?) (? & ? & ?). split_and!; congruence. Qed.
End projections.
#[export] Hint Resolve same_accounts_refl : pwd.

(** ** Lists of users *)

Lemma by_id_eq id u : by_id id u = true ↔ u_id u = id.
Proof. apply str_eqb_eq. Qed.

Lemma find_update id (u' : User) us u :
  List.find (by_id id) us = Some u → u_id u' = id →
  List.find (by_id id) (update_first (by_id id) (λ _, u') us) = Some u'.
Proof.
  intros Hf Hid. induction us as [|x us IH]; [done|]. cbn [List.find update_first] in *. destruct (by_id id x) eqn:E.
  - cbn [List.find]. by rewrite (proj2 (by_id_eq id u') Hid).
  - cbn [List.find]. rewrite E. by apply IH.
Qed.

Lemma find_id_id {S} id (s : Server S) u : find_id id s = Some u → u_id u = id ∧ u ∈ users s.
Proof. intros Hf. apply find_some in Hf as [Hin Hid]. split; [by apply by_id_eq|by apply list_elem_of_In]. Qed.

Lemma find_hash_hash {S} h (s : Server S) u : find_hash h s = Some u → u_emailHash u = h ∧ u ∈ users s.
Proof. intros Hf. apply find_some in Hf as [Hin Hh]. split; [by apply str_eqb_eq|by apply list_elem_of_In]. Qed.

Lemma update_first_other {A} (p q : A → bool) f l :
  (∀ x, p x = true → q x = false ∧ q (f x) = false) → List.find q (update_first p f l) = List.find q l.
Proof.
  intros Hp. induction l as [|x l IH]; [done|]. cbn [List.find update_first]. destruct (p x) eqn:E; cbn [List.find].
  - destruct (Hp x E) as [-> ->]. done.
  - by rewrite IH.
Qed.

Lemma find_update_other id id' (u' : User) us :
  id' ≠ id → u_id u' = id → List.find (by_id id') (update_first (by_id id) (λ _, u') us) = List.find (by_id id') us.
Proof.
  intros Hne Hid. apply update_first_other. intros x Hx. apply by_id_eq in Hx. unfold by_id. rewrite Hx, Hid.
  assert (str_eqb id id' = false) as ->; [|done]. destruct (str_eqb id id') eqn:E; [|done]. apply str_eqb_eq in E. congruence.
Qed.

(** [update_first] keeps a field when the update does. *)
Lemma map_update_first {A B} (g : A → B) (p : A → bool) x l :
  (∀ y, y ∈ l → p y = true → g x = g y) → map g (update_first p (λ _, x) l) = map g l.
Proof.
  intros Hg. induction l as [|y l IH]; [done|]. cbn. destruct (p y) eqn:E; cbn.
  - rewrite (Hg y); [done|set_solver|done].
  - rewrite IH; [done|]. intros z Hz. apply Hg. set_solver.
Qed.

(** ** Computations that respect a relation on states *)

Definition stable {S A} (R : Server S → Server S → Prop) (m : H S A) : Prop := ∀ s, R s (m s).1.

Section stability.
Context {S : Type} (R : Server S → Server S → Prop) `{!PreOrder R}.

Lemma stable_bind {A B} (m : H S A) (f : A → H S B) : stable R m → (∀ a, stable R (f a)) → stable R (m ≫= f).
Proof.
  intros Hm Hf s. unfold mbind, H_bind. specialize (Hm s). destruct (m s) as [s' [a|r]]; [|done].
  cbn in Hm. etransitivity; [exact Hm|apply Hf].
Qed.

Lemma stable_ret {A} (a : A) : stable R (mret a).
Proof. intros s. reflexivity. Qed.
Lemma stable_stop {A} r : stable R (stop r : H S A).
Proof. intros s. reflexivity. Qed.
Lemma stable_stop_if b r : stable R (stop_if b r).
Proof. intros s. reflexivity. Qed.
Lemma stable_gets {A} (f : Server S → A) : stable R (gets f).
Proof. intros s. reflexivity. Qed.
Lemma stable_modify f : (∀ s, R s (f s)) → stable R (modify f).
Proof. intros Hf s. apply Hf. Qed.
Lemma stable_if {A} (b : bool) (m n : H S A) : stable R m → stable R n → stable R (if b then m else n).
Proof. by destruct b. Qed.
Lemma stable_try {A} (m : H S A) a : stable R m → stable R (try_or m a).
Proof. intros Hm s. unfold try_or. specialize (Hm s). by destruct (m s) as [s' [x|r]]. Qed.
Lemma stable_run (h : H S reply) s : stable R h → R s (run h s).1.
Proof. intros Hh. specialize (Hh s). unfold run. by destruct (h s) as [s' [r|r]]. Qed.

Context {HS : StateStore S} (Hstore : ∀ s st, R s (set_store st s)).

Lemma stable_on_store {A} (f : S → S * A) : stable R (on_store f).
Proof. intros s. unfold on_store. destruct (f (store s)). apply Hstore. Qed.
Lemma stable_on_store_ f : stable R (on_store_ f).
Proof. intros s. apply Hstore. Qed.
Lemma stable_gate {A} now (m : H S A) : stable R m → stable R (argon2_gate now m).
Proof.
  intros Hm. apply stable_bind; [apply stable_on_store|]. intros count. apply stable_if.
  - apply stable_bind; [apply stable_on_store|]. intros _. apply stable_stop.
  - intros s. specialize (Hm s). destruct (m s) as [s' r]. destruct (store_decr now _ _) as [st x]. cbn in *.
    etransitivity; [exact Hm|apply Hstore].
Qed.
End stability.

Ltac stable_step :=
  lazymatch goal with
  | |- stable _ (_ ≫= _) => apply stable_bind; [typeclasses eauto| |intros ?]
  | |- stable _ (mret _) => apply stable_ret; typeclasses eauto
  | |- stable _ (stop _) => apply stable_stop; typeclasses eauto
  | |- stable _ (stop_if _ _) => apply stable_stop_if; typeclasses eauto
  | |- stable _ (gets _) => apply stable_gets; typeclasses eauto
  | |- stable _ (try_or _ _) => apply stable_try
  | |- stable _ (on_store _) => apply stable_on_store
  | |- stable _ (on_store_ _) => apply stable_on_store_
  | |- stable _ (argon2_gate _ _) => apply stable_gate
  | |- stable _ (verifyPassword _ _ _ _) => apply stable_gate
  | |- stable _ (hashPassword _ _ _) => apply stable_gate
  | |- stable _ (match ?x with _ => _ end) => destruct x
  | |- PreOrder _ => typeclasses eauto
  end.
