(* ===== verification/LoginSpec.v ===== *)
(** * Theorems on logins *)
From S2P Require Import Prelude JsRuntime JsText Json Base64 FileCrypto StateStore RateLimiter ServerState ServerLogic LoginRoute.

Section login.
Context {S : Type} {HS : StateStore S} {SH : ServerHash} {SP : ServerPassword} {TG : TotpGenerator} {JW : Jwe}
        {JC : JsCase} {SE : ServerEnv}.
Implicit Types s : Server S.

(** The password is right, or it is a recovery key that has not expired. *)
Definition recovery_expired (now : Z) (u : User) : bool :=
  match u_recoveryKeyExpiresAt u with Some e => negb (e =? 0) && (now >? e) | None => false end.

Definition accepts (hash : option jsstr) (password : jsstr) (salt : option jsstr) : bool :=
  bool_decide (password_matches hash password salt = Some true).

Definition right_password (now : Z) (u : User) (password : jsstr) : bool :=
  accepts (u_passwordHash u) password (u_salt u)
  || match u_recoveryKeyHash u with
     | Some (_ :: _) => negb (recovery_expired now u) && accepts (u_recoveryKeyHash u) password (u_recoveryKeySalt u)
     | _ => false
     end.

Definition right_for (now : Z) (u : option User) (password : jsstr) : bool :=
  match u with Some u => right_password now u password | None => false end.

Lemma wp_authenticate now u password (Q : bool * string * bool → Server S → Prop) E s :
  (∀ st m c, Q (right_for now u password, m, c) (set_store st s)) →
  (∀ st r, r = RErr 429 "too_many_requests" ∨ r = RErr 500 "exception" → E r (set_store st s)) →
  wp (authenticate now u password) Q E s.
Proof.
  intros HQ HE. unfold authenticate. wp_step. wp_step; [|by apply HE]. rename H into Hb.
  destruct u as [u|]; cbn [mbind option_bind right_for] in *; [|injection Hb as <-; apply wp_ret, HQ].
  unfold right_password, accepts in HQ. fold (recovery_expired now u). rewrite Hb in HQ. destruct b; [apply wp_ret, HQ|].
  destruct (u_recoveryKeyHash u) as [[|c rk]|]; cbn [orb] in HQ; [apply wp_ret, HQ| |apply wp_ret, HQ].
  destruct (recovery_expired now u); cbn [negb andb] in HQ; [apply wp_ret, HQ|].
  wp_step. wp_step; [|by apply (HE _)]. apply wp_ret. rewrite H in HQ. destruct b; exact (HQ _ _ _).
Qed.

(** Sessions and pending tokens are as before. *)
Definition no_access s s' : Prop := sessions s' = sessions s ∧ tokens s' = tokens s.

(** What a login may answer. *)
Definition login_post (now : Z) (q : LoginReq) s (r : reply) s' : Prop :=
  let u := find_hash (hashEmail MASTER_KEY (lq_email q)) s in
  let right := right_for now u (lq_password q) in
  match r with
  | RSession _ _ _ => right = true ∧ (∃ v fu, u = Some v ∧ find_id (u_id v) s = Some fu ∧ mfa_methods fu = [])
  | RPartial _ ms => right = true ∧ sessions s' = sessions s ∧
                     ∃ v fu, u = Some v ∧ find_id (u_id v) s = Some fu ∧ ms = mfa_methods fu ∧ ms ≠ []
  | RInvalid _ _ => right = false ∧ ∀ uid, sessions s' !! uid = sessions s !! uid ∨ sessions s' !! uid = None
  | _ => no_access s s'
  end.

Lemma after_login_methods q cid now snap c h fu :
  mfa_methods (after_login q cid now snap c h fu) = mfa_methods fu ∧ u_id (after_login q cid now snap c h fu) = u_id fu.
Proof.
  unfold after_login, log_fingerprint.
  destruct c; (destruct h as [h|]; [destruct (decide _)|]); cbv zeta;
    (match goal with |- context [if ?b then _ else _] => destruct b end); done.
Qed.

(** A wrong password opens no session; a wipe closes those of the user. *)
Lemma wp_failed_user now q armed uid cid s :
  wp (failed_user now q armed uid cid)
     (λ r s', (∃ n w, r = RInvalid n w) ∧ ∀ k, sessions s' !! k = sessions s !! k ∨ sessions s' !! k = None) (λ _ _, False) s.
Proof.
  unfold failed_user. wp_step. apply (wp_cut (λ _ s2, sessions s2 = sessions s)).
  { apply wp_update_id. destruct (find_id _ _); done. }
  intros _ s2 Hs2. wp_step. apply (wp_cut (λ _ s3, sessions s3 = sessions s)).
  { unfold duress_failure. apply wp_if; intros _; [|exact Hs2]. wp_step. wp_step.
    destruct (count_duress <$> _) as [[| |n fu']|]; try (apply wp_ret; exact Hs2).
    wp_step. apply wp_update_id. destruct (find_id _ _); apply wp_ret; exact Hs2. }
  clear s2 Hs2. intros [n w] s2 Hs2. wp_step.
  apply (wp_cut (λ _ s3, ∀ k, sessions s3 !! k = sessions s !! k ∨ sessions s3 !! k = None)).
  - destruct w.
    + wp_step. apply wp_modify. unfold performServerWipe. wp_step. apply wp_modify. wp_step.
      intros k. destruct (_ <? 5000); cbn; (destruct (decide (k = uid)) as [->|];
        [right; apply lookup_delete_eq|left; rewrite lookup_delete_ne by done; by rewrite Hs2]).
    + apply wp_modify. intros k. destruct (_ <? 5000); cbn; left; by rewrite Hs2.
  - intros _ s3 H3. apply wp_ret. eauto.
Qed.

Lemma wp_login_failed now q u cid h s s1 :
  right_for now (find_hash (hashEmail MASTER_KEY (lq_email q)) s) (lq_password q) = false → sessions s1 = sessions s →
  wp (login_failed now q u cid h) (login_post now q s) (login_post now q s) s1.
Proof.
  intros Hr Hs. unfold login_failed. do 2 wp_step. wp_step.
  apply (wp_cut (λ _ s2, sessions s2 = sessions s)).
  { apply wp_if; intros _; [apply wp_ret|apply wp_on_store_]; exact Hs. }
  intros _ s2 Hs2. destruct u as [v|].
  - apply (wp_cut _ _ _ _ _ (wp_failed_user _ _ _ _ _ _)). intros r s' [(n & w & ->) Hk].
    split; [done|]. intros k. rewrite <- Hs2. apply Hk.
  - apply wp_ret. split; [done|]. rewrite Hs2. auto.
Qed.

(** What follows a right password. *)
Lemma wp_login_verified now rnd q cid m u v fu s s1 :
  find_hash (hashEmail MASTER_KEY (lq_email q)) s = Some v → right_password now v (lq_password q) = true →
  find_id (u_id v) s = Some fu → mfa_methods u = mfa_methods fu →
  sessions s1 = sessions s → tokens s1 = tokens s →
  wp (login_verified now rnd q cid m u) (login_post now q s) (login_post now q s) s1.
Proof.
  intros Hv Hr Hfu Hm Hs Ht. unfold login_verified. wp_step. wp_step. rewrite Hm.
  assert (Hright : right_for now (find_hash (hashEmail MASTER_KEY (lq_email q)) s) (lq_password q) = true) by (by rewrite Hv).
  apply wp_if; intros E1.
  { wp_step. apply wp_modify, wp_stop. destruct (_ <? 5000); done. }
  apply wp_if; intros E2.
  - unfold isMfaLocked. wp_step. wp_step. wp_step. wp_step. wp_step. wp_step; [split; done|].
    wp_step. unfold issueMfaToken, withMfaPendingLock. do 2 wp_step. wp_step. wp_step. wp_step.
    match goal with |- wp _ _ _ ?s2 => set (s3 := s2); assert (Hs3 : sessions s3 = sessions s) by exact Hs; clearbody s3 end.
    wp_step. apply (wp_cut (λ _ s4, sessions s4 = sessions s)).
    { apply wp_if; intros _; [|exact Hs3]. unfold mail_login_code, storeEmailOtp, withMfaPendingLock. wp_steps.
      cbn [str_empty]. destruct (str_empty _); [exact Hs3|]. destruct (match readUserBlob _ _ _ _ with JNull => _ | _ => _ end); [|exact Hs3].
      apply wp_if; intros _; [|exact Hs3]. unfold sendOtpEmail. wp_step. apply wp_if; intros _; wp_steps; exact Hs3. }
    intros _ s4 Hs4. apply wp_ret. split; [done|]. split; [done|]. exists v, fu. split_and!; [done|done|done|].
    intros E. by rewrite E in E2.
  - unfold open_session, recordSession. wp_steps. split; [done|]. exists v, fu. split_and!; [done|done|].
    by destruct (mfa_methods fu).
Qed.

Lemma wp_upgrade_hash now rnd u pw (Q : option jsstr → Server S → Prop) E s :
  (∀ h st, Q h (set_store st s)) → wp (upgrade_hash now rnd u pw) Q E s.
Proof.
  intros HQ. assert (Hn : ∀ h, Q h s) by (intros h; generalize (HQ h (store s)); by destruct s).
  unfold upgrade_hash. destruct (u_passwordHash u) as [[|c h]|]; [apply wp_ret, Hn| |apply wp_ret, Hn].
  apply wp_if; intros _; [apply wp_ret, Hn|]. wp_step. wp_step. wp_step; [apply wp_ret, HQ|apply HQ].
Qed.

Lemma wp_login now rnd q s : wp (login now rnd q) (login_post now q s) (login_post now q s) s.
Proof.
  unfold login, login_during, login_with. wp_step. wp_step; [done|]. do 2 wp_step. cbv zeta. do 2 wp_step. do 2 wp_step. wp_step.
  apply (wp_cut (λ _ s2, ∃ st, s2 = set_store st s)).
  { apply wp_if; intros _; [apply wp_ret|apply wp_on_store]; by eexists. }
  intros acctOk s2 [st ->]. apply wp_if; intros _.
  { unfold login_blocked. wp_step. wp_step. wp_step; apply wp_ret; done. }
  wp_step. apply wp_authenticate; [|intros ? ? [-> | ->]; split; done]. intros st2 m c. wp_step. wp_step. cbn beta.
  destruct (right_for now _ (lq_password q)) eqn:Er; [|by apply wp_login_failed].
  destruct (find_hash (hashEmail MASTER_KEY (lq_email q)) s) as [v|] eqn:Ev; [|discriminate Er].
  wp_step. apply wp_upgrade_hash. intros h st3. do 4 wp_step. wp_step. apply wp_update_id.
  destruct (find_id (u_id v) _) as [fu|] eqn:Ef; [|apply wp_stop; done].
  destruct (after_login_methods q (deriveClientIdentity (lq_req q) (lq_fp q)) now v c h fu) as [Hm _].
  by eapply wp_login_verified.
Qed.

(** ** The second step *)

(** A code of one of the three periods, not used before. *)
Definition totp_accepts (now : Z) (secret code : jsstr) s : Prop :=
  is_otp_code code = true ∧
  ∃ d, d ∈ [-30000; 0; 30000] ∧ totp_generate secret (now + d) = code ∧
       (now + d) / 30000 ∉ default ∅ (usedTotp s !! sha256_hex (utf8_encode secret)).

(** What the second step asks a user for: a one-time password when that is enforced and
    the server has the secret; otherwise a mailed code when that is enforced; otherwise
    nothing, although a one-time password may be enforced. *)
Inductive factor := AskTotp (secret : jsstr) | AskMail | AskNothing.

Definition asked (u : User) : factor :=
  match u_mfaTotp u, u_mfaTotpSecret u with
  | true, Some ((_ :: _) as secret) => AskTotp secret
  | _, _ => if u_mfaEmail u then AskMail else AskNothing
  end.

(** The request holds what is asked for. *)
Definition factor_passed (now : Z) (q : FinishReq) (token : jsstr) (f : factor) s : Prop :=
  match f with
  | AskTotp secret => ∃ code, as_string (totp_or_email q) = Some code ∧ totp_accepts now secret code s
  | AskMail =>
      ∃ code stored e, as_string (fq_emailCode q) = Some code ∧ emailOtps s !! otp_key token = Some (stored, e) ∧
        now <= e ∧ utf8_encode (slice0 8 (trim code)) = utf8_encode stored
  | AskNothing => True
  end.

Lemma try_drifts_true ds now secret code h used :
  (try_drifts ds now secret code h used).2 = true →
  ∃ d, d ∈ ds ∧ totp_generate secret (now + d) = code ∧ (now + d) / 30000 ∉ default ∅ (used !! h).
Proof.
  induction ds as [|d ds IH]; cbn [try_drifts]; [done|]. destruct (str_eqb _ _) eqn:E.
  - destruct (decide _) as [|Hn]; [done|]. intros _. exists d. apply str_eqb_eq in E. set_solver.
  - intros Hr. destruct (IH Hr) as (d' & ? & ? & ?). exists d'. set_solver.
Qed.

Lemma take_entry_some now k m v m' :
  take_entry now k m = (m', Some v) → ∃ e, m !! k = Some (v, e) ∧ now <= e.
Proof.
  unfold take_entry. destruct (m !! k) as [[v' e]|]; [|done]. destruct (Z.gtb_spec now e); [done|].
  intros [= _ <-]. eauto.
Qed.

Lemma unexpired_some now m k v : unexpired now m !! k = Some v → m !! k = Some v.
Proof. intros Hl. by apply map_lookup_filter_Some in Hl as [? _]. Qed.

Lemma take_entry_gone now k m : (take_entry now k m).1 !! k = None.
Proof. unfold take_entry. destruct (m !! k) as [[v e]|] eqn:E; [apply lookup_delete_eq|done]. Qed.

(** What the checks leave alone; expired tokens may go. *)
Definition kept (now : Z) s s' : Prop :=
  users s' = users s ∧ sessions s' = sessions s ∧ (tokens s' = tokens s ∨ tokens s' = unexpired now (tokens s)).

Lemma kept_refl now s : kept now s s.
Proof. by split_and!; [| |left]. Qed.

Definition refused (now : Z) s (r : reply) s' : Prop := (∃ st e, r = RErr st e) ∧ kept now s s'.

Lemma wp_mfa_failed now q uid s s1 Q :
  kept now s s1 → wp (mfa_failed now q uid) Q (refused now s) s1.
Proof.
  intros Hk. unfold mfa_failed, recordMfaFailure. do 3 wp_step. apply (wp_cut (λ _ s2, kept now s s2)).
  - apply wp_if; intros _; wp_steps; exact Hk.
  - intros _ s2 Hk2. wp_step. apply wp_modify, wp_stop. split; [eauto|]. destruct (_ <? 5000); exact Hk2.
Qed.

Lemma wp_check_email_code now q token u s :
  wp (check_email_code now q token u)
     (λ _ s', kept now s s' ∧
        ∃ code stored e, as_string (fq_emailCode q) = Some code ∧ emailOtps s !! otp_key token = Some (stored, e) ∧
          now <= e ∧ utf8_encode (slice0 8 (trim code)) = utf8_encode stored)
     (refused now s) s.
Proof.
  unfold check_email_code. destruct (as_string (fq_emailCode q)) as [code|];
    [|apply wp_stop; split; [eauto|apply kept_refl]].
  wp_step. unfold consumeEmailOtp, withMfaPendingLock. do 2 wp_step. unfold wp at 1.
  destruct (take_entry now (otp_key token) _) as [m r] eqn:Et. cbn [emailOtps set_emailOtps set_tokens] in Et.
  set (s1 := set_emailOtps m _). assert (Hk : kept now s s1) by (by split_and!; [| |right]). clearbody s1.
  destruct r as [[|c stored]|]; [by apply wp_mfa_failed| |by apply wp_mfa_failed].
  apply take_entry_some in Et as (e & Hl & He). apply unexpired_some in Hl. cbv zeta.
  apply wp_if; intros _; [|by apply wp_mfa_failed]. apply wp_if; intros _; [|apply wp_stop; split; eauto].
  destruct (decide _) as [Heq|]; [|by apply wp_mfa_failed]. apply wp_ret. split; [done|]. by exists code, (c :: stored), e.
Qed.

Lemma wp_check_second_factor now q token u s :
  wp (check_second_factor now q token u) (λ _ s', kept now s s' ∧ factor_passed now q token (asked u) s) (refused now s) s.
Proof.
  assert (Hmail : ∀ P : Prop, (u_mfaEmail u = false → P) →
    ((∃ code stored e, as_string (fq_emailCode q) = Some code ∧ emailOtps s !! otp_key token = Some (stored, e) ∧
       now <= e ∧ utf8_encode (slice0 8 (trim code)) = utf8_encode stored) → u_mfaEmail u = true → P) →
    wp (if u_mfaEmail u then check_email_code now q token u else mret tt) (λ _ s', kept now s s' ∧ P) (refused now s) s).
  { intros P H0 H1. apply wp_if; intros Em; [|apply wp_ret; split; [apply kept_refl|auto]].
    eapply wp_mono; [apply wp_check_email_code| |done]. intros _ s' [Hk Hc]. auto. }
  unfold check_second_factor, asked, factor_passed.
  destruct (u_mfaTotp u); [destruct (u_mfaTotpSecret u) as [[|c secret]|]|].
  2: { destruct (as_string (totp_or_email q)) as [code|]; [|apply wp_stop; split; [eauto|apply kept_refl]].
       wp_step. unfold verifyTotpCode. unfold wp at 1. destruct (is_otp_code code) eqn:Ec.
       - destruct (try_drifts _ _ _ _ _ _) as [used ok] eqn:Et. destruct ok; [|apply wp_mfa_failed; by split_and!; [| |left]].
         apply wp_ret. split; [by split_and!; [| |left]|]. exists code. split; [done|]. split; [done|].
         apply (try_drifts_true _ _ _ _ (sha256_hex (utf8_encode (c :: secret)))). by rewrite Et.
       - apply wp_mfa_failed, kept_refl. }
  all: apply Hmail; [intros ->; exact I|intros Hc ->; exact Hc].
Qed.

(** What the second step may answer. *)
Definition finish_post (now : Z) (q : FinishReq) s (r : reply) s' : Prop :=
  match r with
  | RSession _ _ _ =>
      ∃ token uid e u, fq_partialToken q = Some token ∧ tokens s !! token_hash token = Some (uid, e) ∧ now <= e ∧
        find_id uid s = Some u ∧ factor_passed now q token (asked u) s
  | RErr _ _ => sessions s' = sessions s
  | _ => False
  end.

Lemma finish_aux now rnd q s :
  wp (login_finish now rnd q)
     (λ r s', finish_post now q s r s' ∧ ∀ token, fq_partialToken q = Some token → tokens s' !! token_hash token = None)
     (λ r s', finish_post now q s r s' ∧ ∀ token, fq_partialToken q = Some token → tokens s' !! token_hash token = None) s.
Proof.
  unfold login_finish. destruct (fq_partialToken q) as [token|] eqn:Hq; [|apply wp_stop; by split].
  wp_step. unfold consumeMfaToken, withMfaPendingLock. do 2 wp_step. unfold wp at 1.
  destruct (take_entry now (token_hash token) _) as [m r] eqn:Et. cbn [tokens set_emailOtps set_tokens] in Et.
  assert (Hgone : m !! token_hash token = None).
  { pose proof (take_entry_gone now (token_hash token) (unexpired now (tokens s))) as Hg. by rewrite Et in Hg. }
  set (s1 := set_tokens m _).
  assert (Hk : ∀ s2, kept now s1 s2 → tokens s2 !! token_hash token = None).
  { intros s2 (_ & _ & [->| ->]); [done|]. destruct (unexpired now (tokens s1) !! _) as [v|] eqn:E; [|done].
    apply unexpired_some in E. cbn in E. congruence. }
  assert (Hs1 : sessions s1 = sessions s ∧ users s1 = users s ∧ emailOtps s1 = unexpired now (emailOtps s) ∧ usedTotp s1 = usedTotp s ∧ tokens s1 = m)
    by done. clearbody s1. destruct Hs1 as (Hse & Hus & Hem & Hut & Hto).
  assert (Herr : ∀ st e, finish_post now q s (RErr st e) s1 ∧ ∀ token0, Some token = Some token0 → tokens s1 !! token_hash token0 = None).
  { intros st e. split; [done|]. intros ? [= <-]. by rewrite Hto. }
  destruct r as [[|c uid]|]; [apply wp_stop, Herr| |apply wp_stop, Herr].
  apply take_entry_some in Et as (e & Hl & He). apply unexpired_some in Hl.
  do 2 wp_step. destruct (find_id (c :: uid) s1) as [u|] eqn:Eu; [|apply wp_stop, Herr].
  unfold isMfaLocked. do 4 wp_step. wp_step. wp_step; [split; [exact Hse|intros ? [= <-]; cbn; by rewrite Hto]|].
  wp_step. set (s2 := set_store _ s1). eapply wp_mono; [apply wp_check_second_factor| |].
  - intros _ s3 [Hk3 Hf]. unfold clearMfaFailure, open_session, recordSession. wp_steps. split.
    + exists token, (c :: uid), e, u. split_and!; [done|done|done| |].
      { unfold find_id in *. by rewrite <- Hus. }
      unfold factor_passed, totp_accepts in *. cbn [s2 set_store usedTotp emailOtps] in Hf. rewrite Hut, Hem in Hf.
      destruct (asked u); [exact Hf| |done].
      destruct Hf as (code & stored & e' & ? & Hl' & ? & ?). apply unexpired_some in Hl'. by exists code, stored, e'.
    + intros ? [= <-]. destruct (_ <? 5000); cbn; by apply Hk.
  - intros r s3 [(st & err & ->) Hk3]. split; [|intros ? [= <-]; by apply Hk].
    change (sessions s3 = sessions s). destruct Hk3 as (_ & Hs3 & _). rewrite Hs3. exact Hse.
Qed.
End login.

(** * What failed logins may destroy

    The server counts the failures of an armed account and wipes it; no login
    destroys anything else. *)

Section duress.
Context {S : Type} {HS : StateStore S} {SH : ServerHash} {SP : ServerPassword} {TG : TotpGenerator} {JW : Jwe}
        {JC : JsCase} {SE : ServerEnv}.
Implicit Types s : Server S.

(** The user [k], with the resources and shares under that id, is still there. *)
Definition spares (k : jsstr) s s' : Prop :=
  (k ∈ map u_id (users s) → k ∈ map u_id (users s')) ∧
  (∀ name, blobs s' !! (k, name) = blobs s !! (k, name)) ∧
  ∀ id, shareFiles s' !! (k, id) = shareFiles s !! (k, id).

#[local] Instance spares_preorder k : PreOrder (spares k).
Proof.
  split.
  - intros s. by split.
  - intros s1 s2 s3 (H1 & H2 & H3) (H4 & H5 & H6). split; [auto|]. split; intros x; [by rewrite H5|by rewrite H6].
Qed.

Lemma spares_store k s st : spares k s (set_store st s).
Proof. by split. Qed.

(** An update that keeps the id keeps the user. *)
Lemma stable_update k id fn :
  (∀ u u', fn u = Some u' → u_id u' = u_id u) → stable (spares k) (update_id (S := S) id fn).
Proof.
  intros Hfn s. unfold update_id. destruct (find_id id s) as [u|] eqn:E; [|by split].
  destruct (fn u) as [u'|] eqn:Ef; [|by split]. split; [|by split]. cbn [fst users set_users].
  rewrite map_update_first; [done|]. intros y _ Hy. apply by_id_eq in Hy. apply find_id_id in E as [E _].
  by rewrite (Hfn u u' Ef), Hy, E.
Qed.

Lemma stable_audit k uid e : stable (spares k) (appendAuditEvent (S := S) uid e).
Proof. intros s. unfold appendAuditEvent, modify. cbn. by destruct (_ <? 5000). Qed.

Lemma remove_first_other k uid us : k ≠ uid → k ∈ map u_id us → k ∈ map u_id (remove_first (by_id uid) us).
Proof.
  intros Hne. induction us as [|u us IH]; [done|]. cbn [map remove_first].
  rewrite elem_of_cons. intros [->|Hk].
  - destruct (by_id uid u) eqn:E; [by apply by_id_eq in E|]. cbn [map]. set_solver.
  - destruct (by_id uid u); [done|]. cbn [map]. set_solver.
Qed.

(** A wipe touches its user alone. *)
Lemma stable_wipe k uid : k ≠ uid → stable (spares k) (performServerWipe (S := S) uid).
Proof.
  intros Hne s. unfold performServerWipe, mbind, H_bind, modify, delete_id. cbn. split; [|split].
  - by apply remove_first_other.
  - intros name. cbn. destruct (blobs s !! (k, name)) as [v|] eqn:E.
    + by apply map_lookup_filter_Some.
    + apply map_lookup_filter_None_2. by left.
  - intros id. cbn. destruct (shareFiles s !! (k, id)) as [v|] eqn:E.
    + by apply map_lookup_filter_Some.
    + apply map_lookup_filter_None_2. by left.
Qed.

Ltac stable_steps :=
  repeat first
    [ stable_step
    | apply spares_store
    | apply stable_audit
    | apply stable_update; let Hu := fresh in intros ? ? Hu; injection Hu as <-; done ].

Lemma after_login_id q cid now snap c h fu : u_id (after_login q cid now snap c h fu) = u_id fu.
Proof.
  unfold after_login, log_fingerprint. destruct c; (destruct h as [h|]; [destruct (decide _)|]); cbv zeta;
    (match goal with |- context [if ?b then _ else _] => destruct b end); done.
Qed.

Lemma count_duress_id fu n fu' : count_duress fu = Remaining n fu' → u_id fu' = u_id fu.
Proof. unfold count_duress. destruct (u_duressEnforce fu); [|done]. destruct (_ >=? _); [done|]. by intros [= _ <-]. Qed.

Lemma stable_duress_failure k armed uid : stable (spares k) (duress_failure (S := S) armed uid).
Proof.
  unfold duress_failure. apply stable_if; [|stable_steps]. intros s. unfold mbind, H_bind, gets. cbn.
  destruct (find_id uid s) as [u|] eqn:Eu; [|reflexivity]. cbn. destruct (count_duress u) as [| |n fu'] eqn:Ec; [done|done|].
  cbn. unfold update_id. rewrite Eu. cbn. split; [|by split]. cbn [fst users set_users]. rewrite map_update_first; [done|].
  intros y _ Hy. apply by_id_eq in Hy. apply find_id_id in Eu as [Eu _]. by rewrite (count_duress_id _ _ _ Ec), Hy, Eu.
Qed.

Lemma stable_failed_user k now q armed uid cid :
  (armed = true → k ≠ uid) → stable (spares k) (failed_user (S := S) now q armed uid cid).
Proof.
  intros Hk. unfold failed_user. stable_step; [stable_steps|]. destruct armed.
  - stable_step; [apply stable_duress_failure|]. stable_steps. apply stable_wipe. auto.
  - intros s. unfold mbind, H_bind, duress_failure, mret, H_ret, appendAuditEvent, modify. cbn. by destruct (_ <? 5000).
Qed.

Lemma stable_login_verified k now rnd q cid m u : stable (spares k) (login_verified (S := S) now rnd q cid m u).
Proof.
  unfold login_verified, open_session, recordSession, saveSessions, isMfaLocked, issueMfaToken, mail_login_code, storeEmailOtp,
    withMfaPendingLock, sendOtpEmail. stable_steps; try (apply stable_modify; by split).
Qed.

Lemma stable_authenticate k now u pw : stable (spares k) (authenticate (S := S) now u pw).
Proof. unfold authenticate. stable_steps. Qed.

Lemma stable_upgrade k now rnd u pw : stable (spares k) (upgrade_hash (S := S) now rnd u pw).
Proof. unfold upgrade_hash. stable_steps. Qed.

Lemma stable_login_with k now rnd q u :
  (∀ v, u = Some v → is_armed (Some v) = true → k ≠ u_id v) → stable (spares k) (login_with (S := S) now rnd (λ s, s) q u).
Proof.
  intros Hk. unfold login_with, login_blocked. cbv zeta.
  assert (Hfail : stable (spares k) (login_failed (S := S) now q u (deriveClientIdentity (lq_req q) (lq_fp q)) (hashEmail MASTER_KEY (lq_email q)))).
  { unfold login_failed. destruct u as [v|]; stable_steps. apply stable_failed_user. intros. by apply Hk. }
  do 3 (stable_step; [stable_steps|]). apply stable_if; [stable_steps|]. stable_step; [apply stable_authenticate|].
  match goal with x : bool * string * bool |- _ => destruct x as [[ok m] c] end. stable_step; [by apply stable_modify|]. destruct ok; [|done].
  destruct u as [v|]; [|done]. stable_step; [apply stable_upgrade|]. do 2 (stable_step; [stable_steps|]).
  stable_step; [|stable_steps; apply stable_login_verified].
  apply stable_update. intros fu fu' [= <-]. apply after_login_id.
Qed.

Lemma stable_login k now rnd q s :
  (∀ v, find_hash (hashEmail MASTER_KEY (lq_email q)) s = Some v → is_armed (Some v) = true → k ≠ u_id v) →
  spares k s (run (login now rnd q) s).1.
Proof.
  intros Hk. unfold run, login, login_during, mbind, H_bind, stop_if, gets. cbn. destruct (negb (valid_login q)); [done|].
  pose proof (stable_login_with k now rnd q _ Hk s) as Hs. by destruct (login_with _ _ _ _ _ s) as [s' [r|r]].
Qed.

(** ** The countdown *)

Definition armed_at (uid : jsstr) (m n : Z) s : Prop :=
  ∃ u, find_id uid s = Some u ∧ u_duressEnforce u = Some m ∧ u_duressFailureCount u = n.

Lemma update_armed uid fn s u u' :
  find_id uid s = Some u → fn u = Some u' → u_id u' = uid →
  ∃ s', update_id uid fn s = (s', Ok (Updated u')) ∧ find_id uid s' = Some u' ∧ sessions s' = sessions s ∧ blobs s' = blobs s ∧
        map u_id (users s') = map u_id (users s).
Proof.
  intros Hf Hfn Hid. eexists. unfold update_id. rewrite Hf, Hfn. split; [reflexivity|]. split_and!; [|done|done|].
  - by eapply find_update.
  - apply map_update_first. intros y _ Hy. apply by_id_eq in Hy. congruence.
Qed.

Lemma failed_user_counts now q uid cid m n s :
  armed_at uid m n s →
  ∃ s', failed_user now q true uid cid s =
          (s', Ok (if n + 1 >=? clamp_attempts m then RInvalid None true else RInvalid (Some (clamp_attempts m - (n + 1))) false)) ∧
        (n + 1 < clamp_attempts m → armed_at uid m (n + 1) s' ∧ blobs s' = blobs s) ∧
        (clamp_attempts m <= n + 1 → NoDup (map u_id (users s)) →
           find_id uid s' = None ∧ sessions s' !! uid = None ∧ ∀ name, blobs s' !! (uid, name) = None).
Proof.
  intros (u & Hu & Hm & Hn). unfold failed_user.
  destruct (update_armed uid (λ fu, Some (log_fingerprint q cid now false fu)) s u _ Hu eq_refl) as (s1 & E1 & Hf1 & Hs1 & Hb1 & Hi1).
  { apply find_id_id in Hu as [Hu _]. exact Hu. }
  set (u1 := log_fingerprint q cid now false u) in *.
  assert (Hm1 : u_duressEnforce u1 = Some m) by exact Hm. assert (Hn1 : u_duressFailureCount u1 = n) by exact Hn. clearbody u1.
  unfold mbind at 1, H_bind at 1. rewrite E1.
  unfold duress_failure, mbind, H_bind, gets. cbv beta iota. rewrite Hf1. cbn [fmap option_fmap option_map].
  unfold count_duress. rewrite Hm1, Hn1. cbv zeta. rewrite Z.geb_leb.
  destruct (Z.leb_spec (clamp_attempts m) (n + 1)) as [Hge|Hlt].
  - unfold mret, H_ret, appendAuditEvent, performServerWipe, delete_id, modify, mbind, H_bind. cbv beta iota zeta.
    eexists. split; [reflexivity|]. split; [lia|]. intros _ Hnd.
    set (s2 := if len (auditQueue s1) <? 5000 then _ else s1).
    assert (H2 : users s2 = users s1 ∧ blobs s2 = blobs s1 ∧ sessions s2 = sessions s1) by (unfold s2; by destruct (_ <? 5000)).
    clearbody s2. destruct H2 as (Hu2 & Hb2 & Hs2). cbn. split_and!.
    + unfold find_id. cbn. rewrite Hu2. rewrite <- Hi1 in Hnd. clear -Hnd. induction (users s1) as [|x l IH]; [done|].
      cbn [map remove_first] in *. apply NoDup_cons in Hnd as [Hx Hl]. destruct (by_id uid x) eqn:E.
      * apply by_id_eq in E. subst uid. clear IH Hl. induction l as [|y l IH]; [done|]. cbn [List.find map] in *.
        destruct (by_id (u_id x) y) eqn:Ey; [apply by_id_eq in Ey; set_solver|]. apply IH. set_solver.
      * cbn [List.find]. rewrite E. by apply IH.
    + apply lookup_delete_eq.
    + intros name. apply map_lookup_filter_None_2. right. intros v _. cbn. naive_solver.
  - destruct (update_armed uid (λ _, Some (set_duress (Some m) (n + 1) u1)) s1 u1 _ Hf1 eq_refl) as (s2 & E2 & Hf2 & Hs2 & Hb2 & Hi2).
    { apply find_id_id in Hf1 as [Hf1 _]. exact Hf1. }
    rewrite E2. unfold mret, H_ret, appendAuditEvent, modify. cbv beta iota zeta.
    eexists. split; [reflexivity|]. split; [|lia]. intros _. split.
    + exists (set_duress (Some m) (n + 1) u1). unfold find_id in *. by destruct (_ <? 5000).
    + destruct (_ <? 5000); cbn; congruence.
Qed.
End duress.
