(* ===== verification/ServerAudit.v ===== *)
(** * The audit log ([web/lib/audit.js])

    Events are objects chained by an HMAC over their JSON text and the hash of the
    event before.  The queue, the flush, and the check of the chain on reading. *)
From S2P Require Import Prelude JsRuntime JsText Json JsonSpec JsObject FileCrypto StateStore RateLimiter ServerState ServerLogic.

(** [const { k, ...rest } = o] *)
Definition without (k : string) (l : list (jsstr * json)) : list (jsstr * json) :=
  List.filter (λ kv, negb (str_eqb kv.1 (js k))) l.

Definition fields_of (e : json) : list (jsstr * json) := match e with JObj l => l | _ => [] end.

(** What the hash of an event covers. *)
Definition event_data (e : json) : json := JObj (without "integrity_failure" (without "hash" (fields_of e))).

Definition event_hash (e : json) : option jsstr :=
  match prop "hash" e with Some (JStr (c :: h)) => Some (c :: h) | _ => None end.

Definition flag (e : json) : json := JObj (put (js "integrity_failure") (JBool true) (fields_of e)).

Definition ZERO_HASH : jsstr := replicate 64 48.

Section audit.
Context {SH : ServerHash} (audit_key : bytes).   (* derivedKey('audit/chain') *)

Definition chain_hash (data : json) (prevHash : jsstr) : jsstr :=
  hmac_sha256_hex audit_key (utf8_encode (stringify data ++ prevHash)).

(** The loop of [loadAuditLog]: events whose hash is missing or wrong are marked. *)
Fixpoint verify_chain (prevHash : jsstr) (events : list json) : list json :=
  match events with
  | [] => []
  | e :: events' =>
      match event_hash e with
      | None => flag e :: verify_chain prevHash events'
      | Some h => (if str_eqb h (chain_hash (event_data e) prevHash) then e else flag e) :: verify_chain h events'
      end
  end.

Context {S : Type}.

Definition stored_events (uid : jsstr) (s : Server S) : list json :=
  match readUserBlob uid "audit_log" (JArr []) s with JArr l => l | _ => [] end.

Definition loadAuditLog (uid : jsstr) (s : Server S) : list json := verify_chain ZERO_HASH (stored_events uid s).

Definition saveAuditLog (uid : jsstr) (events : list json) : H S unit := writeUserBlob uid "audit_log" (JArr events).

(** [/^(127\.|::1$|::ffff:127\.)/] *)
Definition LOOPBACK_RE (ip : jsstr) : bool :=
  starts_with (js "127.") ip || str_eqb ip (js "::1") || starts_with (js "::ffff:127.") ip.

(** What the environment knows of the server's own address: the address and, when
    the intelligence service is on, the record found for it. *)
Record PublicIp := mkPublicIp { pi_ip : option jsstr; pi_info : option json }.

Definition enrich (pub : PublicIp) (event : list (jsstr * json)) : list (jsstr * json) :=
  if LOOPBACK_RE (or_empty (as_string (lookup_key (js "ip") event))) then
    match pi_ip pub with
    | Some ((_ :: _) as ip) =>
        let event := put (js "publicIp") (JStr ip) event in
        match pi_info pub with
        | Some info => if truthy (lookup_key (js "ipInfo") event) then event else put (js "ipInfo") info event
        | None => event
        end
    | _ => event
    end
  else event.

Definition last_hash (events : list json) : jsstr :=
  match last events with Some e => match event_hash e with Some h => h | None => ZERO_HASH end | None => ZERO_HASH end.

(** [{ id, ts, ...enriched }] *)
Definition new_event (id : jsstr) (ts : Z) (enriched : list (jsstr * json)) : list (jsstr * json) :=
  fold_left (λ acc kv, put kv.1 kv.2 acc) enriched [(js "id", JStr id); (js "ts", JNum (Int ts))].

Definition seal_event (l : list (jsstr * json)) (prevHash : jsstr) : json :=
  JObj (put (js "hash") (JStr (chain_hash (JObj l) prevHash)) l).

Definition ring (events : list json) : list json :=
  if len events >? 2000 then drop (Z.to_nat (len events - 2000)) events else events.

(** The log after one more event. *)
Definition append_event (id : jsstr) (ts : Z) (pub : PublicIp) (event : json) (events : list json) : list json :=
  let events := verify_chain ZERO_HASH events in
  ring (events ++ [seal_event (new_event id ts (enrich pub (fields_of event))) (last_hash events)]).

Definition processAuditEvent (id : jsstr) (ts : Z) (pub : PublicIp) (uid : jsstr) (event : json) : H S unit :=
  l ← gets (stored_events uid);
  saveAuditLog uid (append_event id ts pub event l).

(** One turn of [flushAuditQueue]: the queue is drained and its events are
    processed in order; [ids] are the ids drawn. *)
Fixpoint process_all (ids : list jsstr) (ts : Z) (pub : PublicIp) (drained : list (jsstr * json)) : H S unit :=
  match ids, drained with
  | id :: ids, (uid, event) :: drained => _ ← processAuditEvent id ts pub uid event; process_all ids ts pub drained
  | _, _ => mret tt
  end.

Definition flushAuditQueue (ids : list jsstr) (ts : Z) (pub : PublicIp) : H S unit :=
  drained ← gets auditQueue;
  _ ← modify (set_auditQueue []);
  process_all ids ts pub drained.

(** GET /api/audit/events: the newest first. *)
Definition list_events (limit offset since : Z) (action : option jsstr) (events : list json) : list json * Z :=
  let events := match action with
                | Some ((_ :: _) as a) => List.filter (λ e, bool_decide (prop "action" e = Some (JStr a))) events
                | _ => events
                end in
  let ts e := match prop "ts" e with Some (JNum (Int n)) => n | _ => -1 end in
  let events := if since =? 0 then events else List.filter (λ e, since <=? ts e) events in
  let events := reverse events in
  let limit := Z.min (if limit =? 0 then 50 else limit) 200 in
  let offset := Z.max offset 0 in
  (take (Z.to_nat limit) (drop (Z.to_nat offset) events), len events).
End audit.

(** * Theorems on the audit log *)

(** ** Properties of objects *)

Lemma without_absent k l : lookup_key (js k) l = None → without k l = l.
Proof.
  induction l as [|[k' v] l IH]; [done|]. cbn [lookup_key without List.filter fst]. intros Hl.
  assert (Hs : str_eqb k' (js k) = str_eqb (js k) k').
  { unfold str_eqb. by apply bool_decide_ext. }
  rewrite Hs. destruct (str_eqb (js k) k'); [done|]. cbn [negb]. unfold without in IH. by rewrite IH.
Qed.

(** ** The chain *)

Definition unmarked (k : string) (l : list (jsstr * json)) : Prop := lookup_key (js k) l = None.

Section chain.
Context {SH : ServerHash} (key : bytes).

(** Every event has a hash that is right for the one before. *)
Fixpoint chained (prev : jsstr) (events : list json) : Prop :=
  match events with
  | [] => True
  | e :: l => ∃ h, event_hash e = Some h ∧ h = chain_hash key (event_data e) prev ∧ chained h l
  end.

Lemma chained_verifies prev l : chained prev l → verify_chain key prev l = l.
Proof.
  revert prev. induction l as [|e l IH]; intros prev; [done|]. cbn. intros (h & -> & Hh & Hl).
  rewrite (proj2 (str_eqb_eq _ _) Hh). by rewrite IH.
Qed.

(** The hash the next event builds on. *)
Fixpoint hash_after (prev : jsstr) (l : list json) : jsstr :=
  match l with [] => prev | e :: l' => hash_after (default prev (event_hash e)) l' end.

Lemma chained_app prev l l' : chained prev (l ++ l') ↔ chained prev l ∧ chained (hash_after prev l) l'.
Proof.
  revert prev. induction l as [|e l IH]; intros prev; [cbn; tauto|]. cbn [app chained hash_after]. split.
  - intros (h & He & Hh & Hc). apply IH in Hc as [Hl Hl']. rewrite He. cbn. split; [by exists h|done].
  - intros [(h & He & Hh & Hl) Hl']. rewrite He in Hl'. cbn in Hl'. exists h. split_and!; [done|done|]. by apply IH.
Qed.

Lemma chained_last prev l :
  chained prev l → match last l with Some e => event_hash e = Some (hash_after prev l) | None => hash_after prev l = prev end.
Proof.
  revert prev. induction l as [|e l IH]; intros prev; [done|]. intros (h & He & Hh & Hl). specialize (IH h Hl).
  cbn [hash_after]. rewrite He. cbn [default from_option id]. destruct l as [|x l]; [cbn; by rewrite He|].
  change (last (e :: x :: l)) with (last (x :: l)). destruct (last (x :: l)) eqn:E; [done|]. by apply last_None in E.
Qed.

Lemma chained_last_hash l : chained ZERO_HASH l → last_hash l = hash_after ZERO_HASH l.
Proof. intros Hl. apply chained_last in Hl. unfold last_hash. destruct (last l); [by rewrite Hl|done]. Qed.

(** A sealed event carries the hash of its data. *)
Lemma seal_ok l prev :
  unmarked "hash" l → unmarked "integrity_failure" l → chain_hash key (JObj l) prev ≠ [] →
  event_hash (seal_event key l prev) = Some (chain_hash key (JObj l) prev) ∧ event_data (seal_event key l prev) = JObj l.
Proof.
  intros Hh Hi Hne. unfold seal_event. rewrite put_absent by done. split.
  - unfold event_hash, prop. rewrite lookup_app, Hh.
    change (match Some (JStr (chain_hash key (JObj l) prev)) with Some (JStr (c :: h)) => Some (c :: h) | _ => None end
            = Some (chain_hash key (JObj l) prev)). by destruct (chain_hash key (JObj l) prev).
  - unfold event_data, fields_of. f_equal. unfold without at 2. rewrite List.filter_app.
    change (List.filter (λ kv : jsstr * json, negb (str_eqb kv.1 (js "hash"))) [(js "hash", JStr (chain_hash key (JObj l) prev))])
      with (@nil (jsstr * json)). rewrite app_nil_r.
    fold (without "hash" l). rewrite (without_absent "hash") by done. by apply without_absent.
Qed.
End chain.

(** HMAC digests are 64 ASCII units. *)
Class ServerHashLaws {SH : ServerHash} := {
  hmac_length k d : length (hmac_sha256_hex k d) = 64%nat;
  hmac_ascii k d : forallb is_ascii (hmac_sha256_hex k d) = true;
}.

Section log.
Context {SH : ServerHash} {SL : ServerHashLaws} (key : bytes).

Lemma chain_hash_nonempty d prev : chain_hash key d prev ≠ [].
Proof. intros E. pose proof (hmac_length key (utf8_encode (stringify d ++ prev))) as Hl. unfold chain_hash in E. by rewrite E in Hl. Qed.

(** The keys an event of the code may have. *)
Definition plain_event (event : json) : Prop :=
  unmarked "hash" (fields_of event) ∧ unmarked "integrity_failure" (fields_of event).

Lemma unmarked_put k k' v l : js k ≠ k' → unmarked k l → unmarked k (put k' v l).
Proof.
  unfold unmarked. intros Hne Hl. rewrite lookup_put. destruct (str_eqb (js k) k') eqn:E; [|done].
  by apply str_eqb_eq in E.
Qed.

Lemma unmarked_enrich k pub l :
  js k ≠ js "publicIp" → js k ≠ js "ipInfo" → unmarked k l → unmarked k (enrich pub l).
Proof.
  intros H1 H2 Hl. unfold enrich. destruct (LOOPBACK_RE _); [|done]. destruct (pi_ip pub) as [[|c ip]|]; [done| |done].
  destruct (pi_info pub); [destruct (truthy _)|]; repeat apply unmarked_put; done.
Qed.

Lemma unmarked_new k id ts l :
  js k ≠ js "id" → js k ≠ js "ts" → unmarked k l → unmarked k (new_event id ts l).
Proof.
  intros H1 H2. unfold new_event.
  assert (Hg : ∀ acc, unmarked k acc → unmarked k l → unmarked k (fold_left (λ acc kv, put kv.1 kv.2 acc) l acc)).
  { induction l as [|[j v] l IH]; intros acc Ha Hl; [done|]. unfold unmarked in Hl. cbn in Hl.
    destruct (str_eqb (js k) j) eqn:E; [done|]. cbn [fold_left fst snd]. apply IH; [|done]. apply unmarked_put; [|done].
    intros <-. by rewrite (proj2 (str_eqb_eq _ _)) in E. }
  apply Hg. unfold unmarked. cbn [lookup_key].
  destruct (str_eqb (js k) (js "id")) eqn:E; [by apply str_eqb_eq in E|].
  destruct (str_eqb (js k) (js "ts")) eqn:E'; [by apply str_eqb_eq in E'|done].
Qed.

(** One more event keeps the chain, up to the size of the ring. *)
Lemma append_chained id ts pub event l :
  plain_event event → chained key ZERO_HASH l → len l < 2000 → chained key ZERO_HASH (append_event key id ts pub event l).
Proof.
  intros [Hh Hi] Hl Hn. unfold append_event. rewrite (chained_verifies key) by done. unfold ring.
  rewrite len_app. change (len [_]) with 1. rewrite Z.gtb_ltb, (proj2 (Z.ltb_ge _ _)) by lia.
  apply chained_app. split; [done|]. rewrite (chained_last_hash key) by done. cbn [chained].
  set (d := new_event id ts (enrich pub (fields_of event))).
  destruct (seal_ok key d (hash_after ZERO_HASH l)) as [E1 E2].
  - by apply unmarked_new, unmarked_enrich.
  - by apply unmarked_new, unmarked_enrich.
  - apply chain_hash_nonempty.
  - exists (chain_hash key (JObj d) (hash_after ZERO_HASH l)). by rewrite E2.
Qed.

Definition marked (e : json) : bool := is_true (prop "integrity_failure" e).

Lemma flag_marked e : marked (flag e) = true.
Proof.
  unfold marked, flag, prop. rewrite lookup_put. by rewrite (proj2 (str_eqb_eq _ _)).
Qed.

(** ** What a hash determines *)

Definition hash_input (data : json) (prev : jsstr) : bytes := utf8_encode (stringify data ++ prev).

(** The texts hashed along a log. *)
Fixpoint inputs (prev : jsstr) (l : list json) : list bytes :=
  match l with
  | [] => []
  | e :: l' => hash_input (event_data e) prev :: inputs (chain_hash key (event_data e) prev) l'
  end.

(** No two of the texts have the same HMAC, and none has the hash of an empty log. *)
Definition collision_free (ts : list bytes) : Prop :=
  (∀ a b, a ∈ ts → b ∈ ts → hmac_sha256_hex key a = hmac_sha256_hex key b → a = b) ∧
  ∀ a, a ∈ ts → hmac_sha256_hex key a ≠ ZERO_HASH.

Lemma inputs_app prev l l' : chained key prev l → inputs prev (l ++ l') = inputs prev l ++ inputs (hash_after prev l) l'.
Proof.
  revert prev. induction l as [|e l IH]; intros prev; [done|]. intros (h & He & -> & Hl). cbn [app inputs hash_after].
  rewrite He. cbn [default from_option id]. by rewrite IH.
Qed.

Definition hash_text (p : jsstr) : Prop := forallb is_ascii p = true ∧ length p = 64%nat.

Lemma chain_hash_text d p : hash_text (chain_hash key d p).
Proof. split; [apply hmac_ascii|apply hmac_length]. Qed.

Lemma hash_after_text prev l : hash_text prev → chained key prev l → hash_text (hash_after prev l).
Proof.
  revert prev. induction l as [|e l IH]; intros prev Hp; [done|]. intros (h & He & -> & Hl). cbn [hash_after].
  rewrite He. cbn [default from_option id]. apply IH; [apply chain_hash_text|done].
Qed.

Context {JF : JsFloat}.

Lemma hash_input_inj d d' p p' :
  json_ok d = true → json_ok d' = true → hash_text p → hash_text p' → hash_input d p = hash_input d' p' → d = d' ∧ p = p'.
Proof.
  intros Hd Hd' [Hp Lp] [Hp' Lp'] E. unfold hash_input in E.
  assert (Hw : ∀ x q, json_ok x = true → forallb is_ascii q = true → well_formed (stringify x ++ q) = true).
  { intros x q Hx Hq. rewrite neutral_stringify by done. rewrite <- (app_nil_r q). by rewrite well_formed_ascii. }
  assert (Et : stringify d ++ p = stringify d' ++ p').
  { rewrite <- (of_to_scalars _ (Hw d p Hd Hp)), <- (of_to_scalars _ (Hw d' p' Hd' Hp')).
    apply (f_equal (utf8_run utf8_init)) in E. unfold utf8_encode in E.
    rewrite !utf8_run_scalars in E by (apply to_scalars_scalar; by apply Hw). by rewrite E. }
  apply app_inj_2 in Et as [Es ->]; [|congruence]. split; [by apply stringify_inj|done].
Qed.

Lemma zero_text : hash_text ZERO_HASH.
Proof. by split. Qed.

Lemma hash_after_snoc p l e h : event_hash e = Some h → hash_after p (l ++ [e]) = h.
Proof. intros He. revert p. induction l as [|x l IH]; intros p; cbn; [by rewrite He|]. apply IH. Qed.

(** A chained log is determined by its last hash. *)
Lemma chained_determined l l' :
  chained key ZERO_HASH l → chained key ZERO_HASH l' →
  forallb json_ok (map event_data l) = true → forallb json_ok (map event_data l') = true →
  collision_free (inputs ZERO_HASH l ++ inputs ZERO_HASH l') →
  hash_after ZERO_HASH l = hash_after ZERO_HASH l' → map event_data l = map event_data l'.
Proof.
  revert l'. induction l as [|e l IH] using rev_ind; intros l' Hl Hl' Hj Hj' [Hc Hz] Hh.
  - destruct l' as [|e' l' _] using rev_ind; [done|]. exfalso.
    rewrite (inputs_app _ l') in Hz by (by apply chained_app in Hl' as [? _]).
    apply chained_app in Hl' as [Hl' (h & He & -> & _)].
    rewrite (hash_after_snoc _ l' e' _ He) in Hh. cbn [hash_after] in Hh. symmetry in Hh.
    apply (Hz (hash_input (event_data e') (hash_after ZERO_HASH l'))); [|exact Hh]. cbn. set_solver.
  - destruct l' as [|e' l' _] using rev_ind.
    + exfalso. rewrite (inputs_app _ l) in Hz by (by apply chained_app in Hl as [? _]).
      apply chained_app in Hl as [Hl (h & He & -> & _)]. rewrite (hash_after_snoc _ l e _ He) in Hh.
      apply (Hz (hash_input (event_data e) (hash_after ZERO_HASH l))); [|exact Hh]. cbn. set_solver.
    + apply chained_app in Hl as [Hl (h & He & -> & _)], Hl' as [Hl' (h' & He' & -> & _)].
      rewrite (hash_after_snoc _ l e _ He), (hash_after_snoc _ l' e' _ He') in Hh. rewrite !inputs_app in Hc, Hz by done.
      rewrite map_app, forallb_app in Hj, Hj'. cbn [map forallb] in Hj, Hj'. to_prop.
      assert (Hin : hash_input (event_data e) (hash_after ZERO_HASH l) = hash_input (event_data e') (hash_after ZERO_HASH l')).
      { apply Hc; [cbn; set_solver|cbn; set_solver|exact Hh]. }
      apply hash_input_inj in Hin as [Hd Hp]; [|done|done|by apply hash_after_text; [apply zero_text|]..].
      rewrite !map_app. cbn [map]. rewrite Hd. f_equal. apply IH; [done|done|done|done| |done].
      split; [intros a b Ha Hb; apply Hc; set_solver|intros a Ha; apply Hz; set_solver].
Qed.
End log.

(** ** A concrete digest *)

Module ToyHash.
Fixpoint hex_digits (n : nat) (v : Z) : jsstr :=
  match n with O => [] | S n => hex_digits n (v / 16) ++ [hex_digit (v mod 16)] end.

Lemma hex_digits_length n v : length (hex_digits n v) = n.
Proof. revert v. induction n as [|n IH]; intros v; [done|]. cbn. rewrite length_app, IH. cbn. lia. Qed.

Lemma hex_digits_ascii n v : forallb is_ascii (hex_digits n v) = true.
Proof.
  revert v. induction n as [|n IH]; intros v; [done|]. cbn [hex_digits]. rewrite forallb_app, IH. cbn.
  by rewrite hex_digit_ascii by lia.
Qed.

(** A polynomial digest. *)
Definition digest (l : bytes) : jsstr := hex_digits 64 (fold_left (λ a b, (a * 65599 + b + 1) mod (2 ^ 61 - 1)) l 7).

#[export] Instance hash : ServerHash := {| sha256_hex := digest; hmac_sha256_hex k d := digest (k ++ d) |}.
#[export] Instance hash_laws : ServerHashLaws.
Proof. split; intros; [apply hex_digits_length|apply hex_digits_ascii]. Qed.
#[export] Instance float : JsFloat := {| to_number := Float |}.

Definition pub : PublicIp := mkPublicIp (Some (js "192.0.2.7")) None.
Definition event (a ip : string) : json := JObj [(js "action", JStr (js a)); (js "ip", JStr (js ip))].
Definition append (l : list json) (i : Z) (a : string) : list json := append_event (js "k") (dec i) i pub (event a "127.0.0.1") l.
Definition log : list json := append (append (append [] 1 "login") 2 "mfa_changed") 3 "logout".
End ToyHash.

Module AuditSpec.
Section claims.
Context {SH : ServerHash} {SL : ServerHashLaws} {JF : JsFloat}.

(** Up to 2000 events, in any order and with any enrichment, reading the log
    marks none of them: the chain the server writes is the chain it checks. *)
Theorem audit_log_verifies key (evs : list (jsstr * Z * PublicIp * json)) :
  Forall (λ x, plain_event x.2) evs → len evs <= 2000 →
  let log := fold_left (λ l x, append_event key x.1.1.1 x.1.1.2 x.1.2 x.2 l) evs [] in
  verify_chain key ZERO_HASH log = log ∧ length log = length evs.
Proof.
  intros Hall Hn log. assert (Hc : chained key ZERO_HASH log ∧ length log = length evs); [|by destruct Hc; split; [apply chained_verifies|]].
  unfold log. clear log. induction evs as [|x evs IH] using rev_ind; [done|].
  apply Forall_app in Hall as [Hall Hx]. rewrite len_app in Hn. change (len [x]) with 1 in Hn.
  destruct (IH Hall) as [Hc Hl]; [lia|]. rewrite fold_left_app. cbn [fold_left].
  set (l := fold_left _ evs []) in *. assert (Hlen : len l < 2000) by (unfold len in *; lia). split.
  - apply append_chained; [by inversion Hx|done|done].
  - unfold append_event. rewrite (chained_verifies key) by done. unfold ring. rewrite len_app. change (len [_]) with 1.
    rewrite Z.gtb_ltb, (proj2 (Z.ltb_ge _ _)) by lia. rewrite !length_app. cbn. lia.
Qed.

(** Two logs that read back with no event marked and end in the same hash are
    the same history: with the last hash an event cannot be changed, dropped,
    reordered or inserted anywhere, unless two of the texts collide under HMAC. *)
Theorem audit_history_determined key l l' :
  Forall (λ e, is_Some (event_hash e) ∧ marked e = false) l → Forall (λ e, is_Some (event_hash e) ∧ marked e = false) l' →
  verify_chain key ZERO_HASH l = l → verify_chain key ZERO_HASH l' = l' →
  forallb json_ok (map event_data l) = true → forallb json_ok (map event_data l') = true →
  collision_free key (inputs key ZERO_HASH l ++ inputs key ZERO_HASH l') →
  last_hash l = last_hash l' → map event_data l = map event_data l'.
Proof.
  intros Hl Hl' Hv Hv' Hj Hj' Hc Hh.
  assert (Hch : ∀ k p, Forall (λ e, is_Some (event_hash e) ∧ marked e = false) k → verify_chain key p k = k → chained key p k).
  { clear. induction k as [|e k IH]; intros p Hk E; [done|]. inversion Hk as [|? ? [[h Eh] Hm] Hk']; subst. cbn in *. rewrite Eh in E.
    injection E as E1 E2. exists h. split_and!; [done| |by apply IH].
    destruct (str_eqb h _) eqn:Es; [by apply str_eqb_eq in Es|]. pose proof (flag_marked e) as Hf. rewrite E1 in Hf. congruence. }
  pose proof (Hch l _ Hl Hv) as Hl1. pose proof (Hch l' _ Hl' Hv') as Hl2.
  rewrite (chained_last_hash key l Hl1), (chained_last_hash key l' Hl2) in Hh.
  exact (chained_determined key l l' Hl1 Hl2 Hj Hj' Hc Hh).
Qed.

(** When the log is full, the next event drops the oldest and every later
    read marks the new oldest event as tampered, although nothing was. *)
Theorem full_log_marks_oldest key e0 e1 l id ts pub event h0 :
  plain_event event → verify_chain key ZERO_HASH (e0 :: e1 :: l) = e0 :: e1 :: l → len l = 1998 →
  event_hash e0 = Some h0 → event_hash e1 = Some (chain_hash key (event_data e1) h0) →
  chain_hash key (event_data e1) h0 ≠ chain_hash key (event_data e1) ZERO_HASH →
  head (verify_chain key ZERO_HASH (append_event key id ts pub event (e0 :: e1 :: l))) = Some (flag e1) ∧
  marked (flag e1) = true.
Proof.
  intros Hp Hv Hn H0 H1 Hne. split; [|apply flag_marked]. unfold append_event. rewrite Hv. unfold ring.
  rewrite len_app, !len_cons, Hn, len_nil.
  change (1 + (1 + 1998) + (1 + 0) >? 2000) with true. change (Z.to_nat (1 + (1 + 1998) + (1 + 0) - 2000)) with 1%nat. cbv iota.
  cbn [app drop]. rewrite ?drop_0. cbn [verify_chain head]. rewrite H1.
  destruct (str_eqb (chain_hash key (event_data e1) h0) (chain_hash key (event_data e1) ZERO_HASH)) eqn:E; [|done].
  by apply str_eqb_eq in E.
Qed.

(** Dropping events from the end of a log goes unnoticed: what is left reads
    with no event marked. *)
Theorem truncation_unnoticed key l1 l2 :
  verify_chain key ZERO_HASH (l1 ++ l2) = l1 ++ l2 → verify_chain key ZERO_HASH l1 = l1.
Proof.
  assert (Hg : ∀ p, verify_chain key p (l1 ++ l2) = l1 ++ l2 → verify_chain key p l1 = l1); [|apply Hg].
  induction l1 as [|e l1 IH]; intros p; [done|]. cbn [app verify_chain].
  destruct (event_hash e); intros E; injection E as E1 E2; rewrite E1; f_equal; by apply IH.
Qed.
End claims.

Lemma all_hashed l :
  forallb (λ e, bool_decide (is_Some (event_hash e)) && negb (marked e)) l = true →
  Forall (λ e, is_Some (event_hash e) ∧ marked e = false) l.
Proof.
  rewrite forallb_forall. intros Hb. apply List.Forall_forall. intros e He. specialize (Hb e He). cbv beta in Hb. by to_prop.
Qed.

Lemma free_check (SH : ServerHash) key ts :
  forallb (λ a, negb (str_eqb (hmac_sha256_hex key a) ZERO_HASH) &&
                forallb (λ b, negb (str_eqb (hmac_sha256_hex key a) (hmac_sha256_hex key b)) || bool_decide (a = b)) ts) ts = true →
  collision_free key ts.
Proof.
  rewrite forallb_forall. intros Hts. split.
  - intros a b Ha Hb E. apply list_elem_of_In in Ha, Hb. specialize (Hts a Ha). cbv beta in Hts. to_prop.
    rewrite forallb_forall in H0. specialize (H0 b Hb). cbv beta in H0. rewrite E in H0.
    rewrite (proj2 (str_eqb_eq _ _) eq_refl) in H0. cbn in H0. by to_prop.
  - intros a Ha E. apply list_elem_of_In in Ha. specialize (Hts a Ha). cbv beta in Hts. rewrite E in Hts. to_prop.
    by rewrite (proj2 (str_eqb_eq _ _) eq_refl) in *.
Qed.

Import ToyHash.

Lemma audit_log_verifies_witness :
  let evs := [(js "1", 1, pub, event "login" "127.0.0.1"); (js "2", 2, pub, event "logout" "203.0.113.9")] in
  let log := fold_left (λ l x, append_event (js "k") x.1.1.1 x.1.1.2 x.1.2 x.2 l) evs [] in
  verify_chain (js "k") ZERO_HASH log = log ∧ length log = length evs.
Proof.
  intros evs. apply (audit_log_verifies (js "k") evs); [repeat constructor|vm_compute; discriminate].
Defined.

Lemma audit_history_determined_witness : map event_data log = map event_data log.
Proof.
  assert (Hf : Forall (λ e, is_Some (event_hash e) ∧ marked e = false) log).
  { apply all_hashed. vm_compute. reflexivity. }
  refine (audit_history_determined (js "k") log log Hf Hf _ _ _ _ (free_check _ _ _ _) eq_refl); vm_compute; reflexivity.
Defined.

(** A full log of sealed events. *)
Fixpoint seal_all (ds : list (list (jsstr * json))) (prev : jsstr) : list json :=
  match ds with
  | [] => []
  | d :: ds => seal_event (js "k") d prev :: seal_all ds (chain_hash (js "k") (JObj d) prev)
  end.

Lemma seal_all_chained ds prev :
  Forall (λ d, unmarked "hash" d ∧ unmarked "integrity_failure" d) ds → chained (js "k") prev (seal_all ds prev).
Proof.
  intros Hd. revert prev. induction Hd as [|d ds [Hh Hi] _ IH]; intros prev; [done|]. cbn [seal_all chained].
  destruct (seal_ok (js "k") d prev Hh Hi (chain_hash_nonempty _ _ _)) as [E1 E2].
  exists (chain_hash (js "k") (JObj d) prev). rewrite E1, E2. split_and!; [done|done|apply IH].
Qed.

Lemma seal_all_length ds prev : length (seal_all ds prev) = length ds.
Proof. revert prev. induction ds as [|d ds IH]; intros prev; [done|]. cbn [seal_all length]. by rewrite IH. Qed.

Definition id_data (i : string) : list (jsstr * json) := [(js "id", JStr (js i))].
Definition first_event : json := seal_event (js "k") (id_data "1") ZERO_HASH.
Definition first_hash : jsstr := chain_hash (js "k") (JObj (id_data "1")) ZERO_HASH.
Definition second_event : json := seal_event (js "k") (id_data "2") first_hash.
Definition second_hash : jsstr := chain_hash (js "k") (JObj (id_data "2")) first_hash.
Definition rest : list json := seal_all (replicate 1998 (id_data "3")) second_hash.
Definition full_log : list json := first_event :: second_event :: rest.

Lemma full_log_verifies : verify_chain (js "k") ZERO_HASH full_log = full_log.
Proof.
  apply chained_verifies. apply (seal_all_chained (id_data "1" :: id_data "2" :: replicate 1998 (id_data "3"))).
  apply List.Forall_forall. intros d [<-|[<-|Hd]]; [done|done|]. apply list_elem_of_In, elem_of_replicate in Hd as [-> _]. done.
Qed.

Lemma rest_length : len rest = 1998.
Proof. unfold len, rest. rewrite seal_all_length, length_replicate. vm_compute. reflexivity. Qed.

Lemma id_event_ok i prev :
  event_hash (seal_event (js "k") (id_data i) prev) = Some (chain_hash (js "k") (JObj (id_data i)) prev) ∧
  event_data (seal_event (js "k") (id_data i) prev) = JObj (id_data i).
Proof. apply seal_ok; [done|done|apply chain_hash_nonempty]. Qed.

Lemma first_has_hash : event_hash first_event = Some first_hash.
Proof. apply id_event_ok. Qed.

Lemma second_has_hash : event_hash second_event = Some (chain_hash (js "k") (event_data second_event) first_hash).
Proof. destruct (id_event_ok "2" first_hash) as [E1 E2]. unfold second_event. by rewrite E2. Qed.

Lemma second_differs : chain_hash (js "k") (event_data second_event) first_hash ≠ chain_hash (js "k") (event_data second_event) ZERO_HASH.
Proof. unfold second_event. rewrite (proj2 (id_event_ok "2" first_hash)). vm_compute. discriminate. Qed.

Lemma full_log_marks_oldest_witness :
  head (verify_chain (js "k") ZERO_HASH (append_event (js "k") (js "3") 3 pub (event "logout" "203.0.113.9") full_log))
    = Some (flag second_event) ∧ marked (flag second_event) = true.
Proof.
  exact (full_log_marks_oldest (js "k") first_event second_event rest (js "3") 3 pub
    (event "logout" "203.0.113.9") first_hash (conj eq_refl eq_refl)
    full_log_verifies rest_length first_has_hash second_has_hash second_differs).
Defined.

Lemma truncation_unnoticed_witness : verify_chain (js "k") ZERO_HASH (take 1 log) = take 1 log.
Proof. apply (truncation_unnoticed (js "k") (take 1 log) (drop 1 log)). vm_compute. reflexivity. Defined.
End AuditSpec.
