(* ===== verification/VaultRoutes.v ===== *)
(** * Vault routes ([web/routes/vaultRoutes.js])

    The encrypted blobs, the flags the server enforces, shared secrets, emergency
    access, the wipe and the audit log. *)
From S2P Require Import Prelude JsRuntime JsText Json Base64 FileCrypto StateStore RateLimiter ServerState ServerLogic SsrfGuard ServerAudit LoginRoute AccountRoutes LoginSpec.

Section routes.
Context {S : Type} {HS : StateStore S} {SH : ServerHash} {SP : ServerPassword} {TG : TotpGenerator} {JW : Jwe}
        {JC : JsCase} {SE : ServerEnv} (audit_key : bytes).

(** ** Encrypted blobs *)

(** GET of a resource. *)
Definition get_blob (now : Z) (cookie : option jsstr) (name : string) (fallback : json) : H S reply :=
  a ← requireAuth now cookie;
  v ← gets (readUserBlob (au_id a) name fallback);
  mret (RJson v).

(** PUT of a resource: the body must have a text [data], within the limit. *)
Definition put_blob (now : Z) (cookie : option jsstr) (c : Csrf) (name : string) (limit : option Z) (body : json) : H S reply :=
  a ← guarded now cookie c;
  match as_string (prop "data" body) with
  | None => stop (RErr 400 "invalid_input")
  | Some data =>
      _ ← stop_if (match limit with Some n => len data >? n | None => false end) (RErr 413 "payload_too_large");
      _ ← writeUserBlob (au_id a) name body;
      mret ROk
  end.

(** DELETE of a mirrored configuration. *)
Definition clear_blob (now : Z) (cookie : option jsstr) (c : Csrf) (name : string) : H S reply :=
  a ← guarded now cookie c;
  _ ← writeUserBlob (au_id a) name (JObj [(js "data", JNull)]);
  mret ROk.

Definition put_credentials (now : Z) (cookie : option jsstr) (c : Csrf) := put_blob now cookie c "credentials" None.
Definition put_folders (now : Z) (cookie : option jsstr) (c : Csrf) := put_blob now cookie c "folders" None.
Definition put_asset_holder (now : Z) (cookie : option jsstr) (c : Csrf) := put_blob now cookie c "asset_holder" None.
Definition put_profile (now : Z) (cookie : option jsstr) (c : Csrf) := put_blob now cookie c "profile" None.
Definition put_travel_vault (now : Z) (cookie : option jsstr) (c : Csrf) := put_blob now cookie c "travel_vault" (Some (5 * 1024 * 1024)).
Definition put_travel_config (now : Z) (cookie : option jsstr) (c : Csrf) := put_blob now cookie c "travel_config" (Some (64 * 1024)).
Definition put_duress_config (now : Z) (cookie : option jsstr) (c : Csrf) := put_blob now cookie c "duress_config" (Some (64 * 1024)).

Definition no_data : json := JObj [(js "data", JNull)].
Definition get_credentials (now : Z) (cookie : option jsstr) := get_blob now cookie "credentials" (JArr []).
Definition get_folders (now : Z) (cookie : option jsstr) := get_blob now cookie "folders" (JArr []).
Definition get_asset_holder (now : Z) (cookie : option jsstr) :=
  get_blob now cookie "asset_holder" (JObj [(js "emails", JArr []); (js "phoneNumbers", JArr []); (js "u2fKeys", JArr [])]).
Definition get_travel_vault (now : Z) (cookie : option jsstr) := get_blob now cookie "travel_vault" no_data.
Definition get_travel_config (now : Z) (cookie : option jsstr) := get_blob now cookie "travel_config" no_data.
Definition get_duress_config (now : Z) (cookie : option jsstr) := get_blob now cookie "duress_config" no_data.
Definition get_profile (now : Z) (cookie : option jsstr) :=
  get_blob now cookie "profile" (JObj [(js "firstName", JStr []); (js "lastName", JStr []); (js "email", JStr [])]).
Definition get_mfa (now : Z) (cookie : option jsstr) :=
  let off := (js "enabled", JBool false) in
  let keys := JObj [off; (js "credentials", JArr [])] in
  get_blob now cookie "mfa_config"
    (JObj [(js "totp", JObj [off]); (js "webauthn", keys); (js "passkey", keys); (js "platform", keys); (js "email", JObj [off]);
           (js "passwordlessEnabled", JBool false)]).

Definition delete_travel_vault (now : Z) (cookie : option jsstr) (c : Csrf) := clear_blob now cookie c "travel_vault".
Definition delete_travel_config (now : Z) (cookie : option jsstr) (c : Csrf) := clear_blob now cookie c "travel_config".
Definition delete_duress_config (now : Z) (cookie : option jsstr) (c : Csrf) := clear_blob now cookie c "duress_config".

(** ** Flags the server enforces *)

(** PUT /api/vault/duress-enforce; [maxAttempts] is [Number(...)], 0 when it is
    no number. *)
Definition put_duress_enforce (now : Z) (cookie : option jsstr) (c : Csrf) (armed : option bool) (maxAttempts : Z) : H S reply :=
  a ← guarded now cookie c;
  match armed with
  | None => stop (RErr 400 "invalid_input")
  | Some armed =>
      let max := clamp_attempts maxAttempts in
      r ← update_id (au_id a) (λ u, Some (set_duress (if armed then Some max else None) 0 u));
      match r with
      | Updated u => _ ← on_store_ (resetAccountFailures (u_emailHash u)); mret ROk
      | _ => stop (RErr 401 "user_not_found")
      end
  end.

(** DELETE /api/vault/duress-enforce *)
Definition delete_duress_enforce (now : Z) (cookie : option jsstr) (c : Csrf) : H S reply :=
  a ← guarded now cookie c;
  r ← update_id (au_id a) (λ u, Some (set_duress None 0 u));
  match r with Updated _ => mret ROk | _ => stop (RErr 401 "user_not_found") end.

(** [enforce && typeof enforce === 'object'] *)
Definition is_object (v : option json) : bool := match v with Some (JObj _) | Some (JArr _) => true | _ => false end.

(** The callback of PUT /api/vault/mfa. *)
Definition apply_mfa (body : json) (u : User) : User :=
  let enforce := prop "enforce" body in
  let totp := if is_object enforce then is_true (opt_prop "totp" enforce) else u_mfaTotp u in
  let email := if is_object enforce then is_true (opt_prop "email" enforce) else u_mfaEmail u in
  let secret := match as_string (prop "serverSecret" body) with
                | Some (c :: s) => Some (c :: s)
                | _ => if is_false (opt_prop "totp" enforce) then None else u_mfaTotpSecret u
                end in
  set_mfa totp email secret u.

(** PUT /api/vault/mfa *)
Definition put_mfa (now : Z) (cookie : option jsstr) (c : Csrf) (body : json) (q : LoginReq) : H S reply :=
  a ← guarded now cookie c;
  match as_string (prop "data" body) with
  | None => stop (RErr 400 "invalid_input")
  | Some _ =>
      _ ← writeUserBlob (au_id a) "mfa_config" body;
      _ ← update_id (au_id a) (λ u, Some (apply_mfa body u));
      _ ← appendAuditEvent (au_id a) (login_event "mfa_changed" None q true None);
      mret ROk
  end.

(** ** SMTP settings *)

(** GET /api/vault/smtp-config: everything but the password. *)
Definition get_smtp (now : Z) (cookie : option jsstr) : H S reply :=
  a ← requireAuth now cookie;
  cfg ← gets (readUserBlob (au_id a) "smtp_config" JNull);
  mret (RJson match cfg with
              | JObj l => JObj (put (js "passwordSet") (JBool (truthy (lookup_key (js "password") l))) (without "password" l))
              | JNull => JNull
              | v => if truthy (Some v) then JObj [(js "passwordSet", JBool false)] else JNull
              end).

(** PUT /api/vault/smtp-config; [lookup] is the resolver of the guard. *)
Definition put_smtp (now : Z) (cookie : option jsstr) (c : Csrf) (lookup : jsstr → option (list (jsstr * Z))) (body : json)
    : H S reply :=
  a ← guarded now cookie c;
  match as_string (prop "host" body), as_string (prop "username" body) with
  | Some host, Some username =>
      _ ← stop_if (str_empty host || negb (truthy (prop "port" body)) || str_empty username) (RErr 400 "invalid_input");
      _ ← stop_if (negb (resolvesToPublicHost lookup (trim host))) (RErr 400 "invalid_smtp_host");
      _ ← writeUserBlob (au_id a) "smtp_config"
            (obj [("host", prop "host" body); ("port", prop "port" body); ("protocol", prop "protocol" body);
                  ("username", prop "username" body);
                  ("password", Some (if truthy (prop "password" body) then default (JStr []) (prop "password" body) else JStr []));
                  ("fromName", prop "fromName" body); ("fromAddress", prop "fromAddress" body);
                  ("mxVerified", prop "mxVerified" body)]%string);
      mret ROk
  | _, _ => stop (RErr 400 "invalid_input")
  end.

(** DELETE /api/vault/smtp-config *)
Definition delete_smtp (now : Z) (cookie : option jsstr) (c : Csrf) : H S reply :=
  a ← guarded now cookie c;
  _ ← writeUserBlob (au_id a) "smtp_config" JNull;
  mret ROk.

(** ** Shared secrets *)

Definition HOUR : Z := 3600000.

(** The names every object inherits. *)
Definition INHERITED : list jsstr :=
  map js ["constructor"; "__defineGetter__"; "__defineSetter__"; "hasOwnProperty"; "__lookupGetter__"; "__lookupSetter__";
          "isPrototypeOf"; "propertyIsEnumerable"; "toString"; "valueOf"; "__proto__"; "toLocaleString"]%string.

(** [SHARE_TTL_MS['24h']]; [None] is NaN. *)
Definition day_ttl : option Z := env_int env_SHARE_TTL_MS (24 * HOUR).

(** [Date.now() + SHARE_TTL_MS[ttl] ?? SHARE_TTL_MS['24h']] as the file of the share holds
    it: NaN is stored as [null], and a time plus an inherited member is a text. *)
Definition expires_in (now : Z) (ttl : option Z) : Expiry := match ttl with Some t => ExpiresAt (now + t) | None => ExpiresNull end.

Definition share_expiry (now : Z) (ttl : option jsstr) : Expiry :=
  match ttl with
  | Some t =>
      if str_eqb t (js "1h") then ExpiresAt (now + HOUR)
      else if str_eqb t (js "24h") then expires_in now day_ttl
      else if str_eqb t (js "7d") then ExpiresAt (now + 7 * 24 * HOUR)
      else if bool_decide (t ∈ INHERITED) then ExpiresText
      else expires_in now day_ttl
  | None => expires_in now day_ttl
  end.

(** [now > expiresAt]: [null] counts as 0, a text that is no number is never passed. *)
Definition past (now : Z) (e : Expiry) : bool :=
  match e with ExpiresAt n => now >? n | ExpiresNull => now >? 0 | ExpiresText => false end.

Definition is_share_id (s : jsstr) : bool := forallb (λ c, is_digit c || ((97 <=? c) && (c <=? 102))) s && (len s =? 32).

(** The events of shares carry their label. *)
Definition share_event (action : string) (q : LoginReq) (label : jsstr) : json :=
  obj [("action", Some (JStr (js action))); ("ip", str_field (getClientIp (lq_req q))); ("ipInfo", Some (lq_ipInfo q));
       ("userAgent", str_field (userAgent (lq_req q))); ("success", Some (JBool true)); ("resourceLabel", str_field label);
       ("riskFlags", Some (lq_riskFlags q))]%string.

(** POST /api/vault/shares; [shareId] is drawn. *)
Definition create_share (now : Z) (cookie : option jsstr) (c : Csrf) (shareId : jsstr) (body : json) (q : LoginReq) : H S reply :=
  a ← guarded now cookie c;
  ok ← rate (checkShareCreateRate (au_id a) now);
  _ ← stop_if (negb ok) (RErr 429 "too_many_requests");
  match as_string (prop "encryptedBlob" body), as_string (prop "iv" body) with
  | Some ((_ :: _) as blob), Some ((_ :: _) as iv) =>
      let label := slice0 100 (or_empty (as_string (prop "label" body))) in
      let record := mkShare label blob iv now (share_expiry now (as_string (prop "ttl" body)))
                      (truthy (prop "singleView" body)) false in
      _ ← modify (λ s, set_shareFiles (<[(au_id a, shareId) := record]> (shareFiles s)) s);
      _ ← modify (λ s, set_shareIndex (<[shareId := au_id a]> (shareIndex s)) s);
      _ ← appendAuditEvent (au_id a) (share_event "share_created" q label);
      mret (RJson (obj [("ok", Some (JBool true)); ("shareId", str_field shareId)]%string))
  | Some (_ :: _), _ => stop (RErr 400 "missing_iv")
  | _, _ => stop (RErr 400 "missing_blob")
  end.

(** DELETE /api/vault/shares/:shareId *)
Definition revoke_share (now : Z) (cookie : option jsstr) (c : Csrf) (shareId : jsstr) (q : LoginReq) : H S reply :=
  a ← guarded now cookie c;
  _ ← stop_if (negb (is_share_id shareId)) (RErr 400 "invalid_id");
  old ← gets (λ s, shareFiles s !! (au_id a, shareId));
  _ ← modify (λ s, match old with
                   | Some _ => set_shareIndex (delete shareId (shareIndex s)) (set_shareFiles (delete (au_id a, shareId) (shareFiles s)) s)
                   | None => s
                   end);
  _ ← appendAuditEvent (au_id a) (share_event "share_revoked" q (or_empty (sh_label <$> old)));
  mret ROk.

Definition view (r : Share) : Share :=
  mkShare (sh_label r) (sh_encryptedBlob r) (sh_iv r) (sh_createdAt r) (sh_expiresAt r) (sh_singleView r) true.

Definition share_json (r : Share) : json :=
  obj [("ok", Some (JBool true)); ("encryptedBlob", str_field (sh_encryptedBlob r)); ("iv", str_field (sh_iv r));
       ("expiresAt", match sh_expiresAt r with ExpiresAt n => Some (JNum (Int n)) | ExpiresNull => Some JNull | ExpiresText => None end); ("singleView", Some (JBool (sh_singleView r)))]%string.

(** GET /api/share/:shareId, open to everyone. *)
Definition open_share (now : Z) (req : Req) (shareId : jsstr) : H S reply :=
  ok ← rate (checkEmergencyRate (getClientIp req) now);
  _ ← stop_if (negb ok) (RErr 429 "too_many_requests");
  _ ← stop_if (negb (is_share_id shareId)) (RErr 400 "invalid_id");
  owner ← gets (λ s, shareIndex s !! shareId);
  match owner with
  | Some ((_ :: _) as owner) =>
      record ← gets (λ s, shareFiles s !! (owner, shareId));
      match record with
      | None => stop (RErr 404 "not_found")
      | Some r =>
          if past now (sh_expiresAt r) then
            _ ← modify (λ s, set_shareIndex (delete shareId (shareIndex s)) (set_shareFiles (delete (owner, shareId) (shareFiles s)) s));
            stop (RErr 410 "expired")
          else if sh_singleView r then
            if sh_viewed r then stop (RErr 410 "already_viewed")
            else _ ← modify (λ s, set_shareFiles (<[(owner, shareId) := view r]> (shareFiles s)) s);
                 mret (RJson (share_json (view r)))
          else mret (RJson (share_json r))
      end
  | _ => stop (RErr 404 "not_found")
  end.

(** ** Emergency access *)

(** What follows the re-entry of the password, shared by three routes: [after] runs
    when it is right, [on_wrong] is recorded when it is not; [meanwhile] is what other
    requests do while the password is hashed. *)
Definition with_password (now : Z) (a : AuthUser) (meanwhile : Server S → Server S) (password : option jsstr) (on_wrong : H S unit)
    (after : User → H S reply) : H S reply :=
  match password with
  | None => stop (RErr 400 "password_required")
  | Some password =>
      u ← gets (find_id (au_id a));
      match u with
      | None => stop (RErr 401 "user_not_found")
      | Some u =>
          locked ← isMfaLocked now (u_id u);
          _ ← stop_if locked (RErr 429 "too_many_attempts");
          verified ← verifyPassword now (u_passwordHash u) password (u_salt u);
          _ ← modify meanwhile;
          if verified : bool then _ ← clearMfaFailure (u_id u); after u
          else _ ← recordMfaFailure now (u_id u); _ ← on_wrong; stop (RErr 401 "invalid_credentials")
      end
  end.

(** The settings; [token] is drawn. *)
Definition emergency_config (now hours : Z) (email token : jsstr) : json :=
  obj [("enabled", Some (JBool true)); ("contactEmail", str_field (toLowerCase (trim email)));
       ("waitPeriodHours", Some (JNum (Int hours))); ("token", str_field token); ("createdAt", Some (JNum (Int now)))]%string.

(** [Number(v)] of what a body may hold; [None] is [NaN]. *)
Definition js_number (v : option json) : option Z :=
  match v with
  | Some (JNum (Int n)) => Some n
  | Some JNull => Some 0
  | Some (JBool b) => Some (if b then 1 else 0)
  | Some (JStr s) => let t := trim s in
      if str_empty t then Some 0 else if forallb is_digit t then Some (dec_value t) else None
  | _ => None
  end.

(** POST /api/vault/emergency *)
Definition put_emergency (now : Z) (cookie : option jsstr) (c : Csrf) (meanwhile : Server S → Server S) (token : jsstr) (body : json)
    : H S reply :=
  a ← guarded now cookie c;
  match as_string (prop "password" body) with
  | None => stop (RErr 400 "password_required")
  | Some password =>
      match as_string (prop "contactEmail" body) with
      | Some ((_ :: _) as email) =>
          match js_number (prop "waitPeriodHours" body) with
          | Some hours =>
              _ ← stop_if (negb (bool_decide (hours ∈ [24; 48; 72; 168]))) (RErr 400 "invalid_wait_period");
              with_password now a meanwhile (Some password) (mret tt) (λ u,
                let cfg := emergency_config now hours email token in
                _ ← writeUserBlob (au_id a) "emergency" cfg;
                mret (RJson (JObj [(js "ok", JBool true); (js "config", JObj (without "token" (fields_of cfg)))])))
          | None => stop (RErr 400 "invalid_wait_period")
          end
      | _ => stop (RErr 400 "invalid_email")
      end
  end.

(** GET /api/vault/emergency *)
Definition get_emergency (now : Z) (cookie : option jsstr) : H S reply :=
  a ← requireAuth now cookie;
  cfg ← gets (readUserBlob (au_id a) "emergency" JNull);
  mret (RJson (JObj [(js "ok", JBool true); (js "config", cfg)])).

(** DELETE /api/vault/emergency *)
Definition delete_emergency (now : Z) (cookie : option jsstr) (c : Csrf) : H S reply :=
  a ← guarded now cookie c;
  _ ← modify (λ s, set_blobs (delete (au_id a, js "emergency") (blobs s)) s);
  mret ROk.

Definition is_hex64 (s : jsstr) : bool := forallb (λ c, is_digit c || ((97 <=? c) && (c <=? 102))) s && (len s =? 64).

(** [/^[^@\s]+@[^@\s]+\.[^@\s]+$/] *)
Definition at_free (s : jsstr) : bool := forallb (λ c, negb ((c =? 64) || is_space c)) s.
Fixpoint has_inner_dot (s : jsstr) : bool :=
  match s with
  | _ :: ((46 :: (_ :: _)) as s') => true
  | _ :: s' => has_inner_dot s'
  | [] => false
  end.
Definition looks_like_email (s : jsstr) : bool :=
  match split_unit 64 s with
  | [a; b] => negb (str_empty a) && at_free a && at_free b && has_inner_dot b
  | _ => false
  end.

Definition token_matches (token : jsstr) (cfg : json) : bool :=
  truthy (prop "enabled" cfg) &&
  match as_string (prop "token" cfg) with
  | Some ((_ :: _) as t) => (len t =? len token) && bool_decide (from_hex t = from_hex token)
  | _ => false
  end.

Definition requests_of (uid : jsstr) (s : Server S) : list json :=
  match readUserBlob uid "emergency_requests" (JArr []) s with JArr l => l | _ => [] end.

(** GET /api/vault/emergency/requests *)
Definition list_emergency_requests (now : Z) (cookie : option jsstr) : H S reply :=
  a ← requireAuth now cookie;
  l ← gets (readUserBlob (au_id a) "emergency_requests" (JArr []));
  mret (RJson (JObj [(js "ok", JBool true); (js "requests", l)])).

Record EmergencyReq := mkEmergencyReq { er_name : option jsstr; er_email : option json; er_id : jsstr }.

Definition emergency_entry (now : Z) (q : EmergencyReq) (name : jsstr) (wait : Z) : json :=
  obj [("id", str_field (er_id q)); ("requesterName", str_field (slice0 100 (trim name)));
       ("requesterEmail", str_field (slice0 200 (toLowerCase (trim (or_empty (as_string (er_email q)))))));
       ("requestedAt", Some (JNum (Int now))); ("status", Some (JStr (js "pending")));
       ("grantExpiresAt", Some (JNum (Int (now + wait * HOUR))))]%string.

(** POST /api/emergency/request/:token, open to everyone. *)
Definition request_emergency (now : Z) (req : Req) (token : jsstr) (q : EmergencyReq) : H S reply :=
  ok ← rate (checkEmergencyRate (getClientIp req) now);
  _ ← stop_if (negb ok) (RErr 429 "too_many_requests");
  _ ← stop_if (negb (is_hex64 token)) (RErr 400 "invalid_token");
  match er_name q with
  | Some ((_ :: _) as name) =>
      _ ← stop_if (match er_email q with
                   | None | Some JNull | Some (JStr []) => false
                   | Some (JStr e) => (len e >? 320) || negb (looks_like_email e)
                   | Some _ => true
                   end) (RErr 400 "invalid_email");
      owner ← gets (λ s, List.find (λ u, token_matches token (readUserBlob (u_id u) "emergency" JNull s)) (users s));
      match owner with
      | None => stop (RErr 404 "not_found")
      | Some u =>
          cfg ← gets (readUserBlob (u_id u) "emergency" JNull);
          let wait := default 0 (js_number (prop "waitPeriodHours" cfg)) in
          l ← gets (requests_of (u_id u));
          _ ← writeUserBlob (u_id u) "emergency_requests" (JArr (l ++ [emergency_entry now q name wait]));
          mret (RJson (JObj [(js "ok", JBool true); (js "waitPeriodHours", JNum (Int wait))]))
      end
  | _ => stop (RErr 400 "invalid_name")
  end.

(** The first request with the id, answered. *)
Definition answer (now : Z) (grant : bool) (r : json) : json :=
  JObj (put (js "respondedAt") (JNum (Int now))
         (put (js "status") (JStr (if grant then js "granted" else js "denied")) (fields_of r))).

(** POST /api/vault/emergency/respond *)
Definition respond_emergency (now : Z) (cookie : option jsstr) (c : Csrf) (requestId : jsstr) (action : option bool) : H S reply :=
  a ← guarded now cookie c;
  match requestId, action with
  | _ :: _, Some grant =>
      l ← gets (requests_of (au_id a));
      if existsb (has_field "id" requestId) l then
        _ ← writeUserBlob (au_id a) "emergency_requests" (JArr (update_first (has_field "id" requestId) (answer now grant) l));
        mret ROk
      else stop (RErr 404 "not_found")
  | _, _ => stop (RErr 400 "invalid_params")
  end.

(** ** Wipe and audit log *)

(** POST /api/vault/wipe *)
Definition wipe (now : Z) (cookie : option jsstr) (c : Csrf) (meanwhile : Server S → Server S) (password : option jsstr) : H S reply :=
  a ← guarded now cookie c;
  with_password now a meanwhile password (mret tt) (λ _, _ ← performServerWipe (au_id a); mret ROk).

(** GET /api/audit/events *)
Definition audit_events (now : Z) (cookie : option jsstr) (limit offset since : Z) (action : option jsstr) : H S reply :=
  a ← requireAuth now cookie;
  l ← gets (loadAuditLog audit_key (au_id a));
  let '(page, total) := list_events limit offset since action l in
  mret (RJson (JObj [(js "ok", JBool true); (js "events", JArr page); (js "total", JNum (Int total))])).

(** DELETE /api/audit/events: a marker replaces the log. *)
Definition clear_audit (now : Z) (cookie : option jsstr) (c : Csrf) (meanwhile : Server S → Server S) (id : jsstr) (req : Req)
    (password : option jsstr) : H S reply :=
  a ← guarded now cookie c;
  with_password now a meanwhile password
    (appendAuditEvent (au_id a) (short_event "audit_clear_rejected" (getClientIp req) false))
    (λ _, _ ← saveAuditLog (au_id a)
                [obj [("id", str_field id); ("ts", Some (JNum (Int now))); ("action", Some (JStr (js "audit_cleared")));
                      ("ip", str_field (getClientIp req)); ("success", Some (JBool true))]%string];
          mret ROk).
End routes.

(** * Theorems on the vault routes *)

Section vault.
Context {S : Type} {HS : StateStore S} {SH : ServerHash} {SP : ServerPassword} {TG : TotpGenerator} {JW : Jwe}
        {JC : JsCase} {SE : ServerEnv}.
Implicit Types s : Server S.

(** ** Shares *)

Definition served (r : reply) : bool := match r with RJson _ => true | _ => false end.

(** The share can not be opened any more. *)
Definition closed (id : jsstr) s : Prop :=
  match shareIndex s !! id with
  | Some owner => match shareFiles s !! (owner, id) with Some r => sh_singleView r && sh_viewed r = true | None => True end
  | None => True
  end.

(** The share, if there is one, may be opened once. *)
Definition single (id : jsstr) s : Prop :=
  match shareIndex s !! id with
  | Some owner => match shareFiles s !! (owner, id) with Some r => sh_singleView r = true | None => True end
  | None => True
  end.

Lemma closed_single id s : closed id s → single id s.
Proof.
  unfold closed, single. destruct (shareIndex s !! id); [|done]. destruct (shareFiles s !! _); [|done].
  intros Hc. by apply andb_prop in Hc as [? _].
Qed.

(** One request to open a share. *)
Lemma open_share_step now req id' id s :
  wp (open_share now req id')
     (λ r s', (closed id s → closed id s' ∧ (id' = id → served r = false)) ∧
              (single id s → single id s' ∧ (id' = id → served r = true → closed id s')))
     (λ r s', served r = false ∧ (closed id s → closed id s') ∧ (single id s → single id s')) s.
Proof.
  unfold open_share, rate. do 2 wp_step.
  match goal with |- context [set_store ?st s] => set (s1 := set_store st s) end.
  assert (Hc : closed id s → closed id s1) by done. assert (Hs : single id s → single id s1) by done.
  assert (Hse : (shareIndex s1, shareFiles s1) = (shareIndex s, shareFiles s)) by done. clearbody s1.
  wp_step. wp_step; [done|]. wp_step. wp_step; [done|]. do 2 wp_step.
  destruct (shareIndex s1 !! id') as [[|c owner]|] eqn:Eo; [by apply wp_stop| |by apply wp_stop].
  do 2 wp_step. destruct (shareFiles s1 !! (c :: owner, id')) as [r|] eqn:Er; [|by apply wp_stop].
  apply wp_if; intros Ex.
  { wp_step. wp_step. wp_step. split; [done|]. unfold closed, single in *. cbn [shareIndex shareFiles set_shareIndex set_shareFiles].
    destruct (decide (id = id')) as [->|Hne]; [rewrite !lookup_delete_eq; tauto|].
    rewrite !(lookup_delete_ne _ id') by done.
    destruct (shareIndex s1 !! id) as [o|]; [|tauto]. rewrite (lookup_delete_ne _ (c :: owner, id')) by congruence. tauto. }
  destruct (sh_singleView r) eqn:Esv.
  - destruct (sh_viewed r) eqn:Evw; [by apply wp_stop|]. wp_step. wp_step. wp_step.
    unfold closed, single in *. cbn [shareIndex shareFiles set_shareFiles].
    destruct (decide (id = id')) as [->|Hne].
    + rewrite Eo in *. rewrite lookup_insert_eq. rewrite Er in *. cbn [sh_singleView sh_viewed view].
      rewrite Esv, ?Evw in *. cbn [andb] in *. split; [intros Hx; by specialize (Hc Hx)|auto].
    + destruct (shareIndex s1 !! id) as [o|]; [rewrite (lookup_insert_ne _ (c :: owner, id')) by congruence|];
        (split; intros Hx; (split; [first [exact (Hc Hx)|exact (Hs Hx)]|by intros ->])).
  - apply wp_ret. unfold closed, single in *. split; intros Hx.
    + split; [exact (Hc Hx)|]. intros ->. specialize (Hc Hx). rewrite Eo, Er in Hc. by rewrite Esv in Hc.
    + split; [exact (Hs Hx)|]. intros ->. specialize (Hs Hx). rewrite Eo, Er in Hs. congruence.
Qed.

(** Requests to open shares, one after the other, with their replies. *)
Fixpoint open_all (reqs : list (Z * Req * jsstr)) s : Server S * list (jsstr * reply) :=
  match reqs with
  | [] => (s, [])
  | (now, req, id) :: reqs' =>
      let '(s, r) := run (open_share now req id) s in
      let '(s, l) := open_all reqs' s in (s, (id, r) :: l)
  end.

Definition times_served (id : jsstr) (l : list (jsstr * reply)) : Z :=
  len (List.filter (λ x, str_eqb x.1 id && served x.2) l).

Lemma open_all_closed id reqs s : closed id s → times_served id (open_all reqs s).2 = 0.
Proof.
  revert s. induction reqs as [|[[now req] id'] reqs IH]; intros s Hc; [done|]. cbn [open_all].
  pose proof (open_share_step now req id' id s) as Hw. unfold wp, run in *.
  destruct (open_share now req id' s) as [s' [r|r]].
  - destruct Hw as [Hw _]. destruct (Hw Hc) as [Hc' Hn]. specialize (IH s' Hc'). destruct (open_all reqs s') as [s2 l].
    unfold times_served in *. cbn [snd List.filter fst] in *. destruct (str_eqb id' id) eqn:E; [|done].
    apply str_eqb_eq in E. rewrite (Hn E). done.
  - destruct Hw as (Hn & Hw & _). specialize (IH s' (Hw Hc)). destruct (open_all reqs s') as [s2 l].
    unfold times_served in *. cbn [snd List.filter fst] in *. rewrite Hn, andb_false_r. done.
Qed.

Lemma open_all_single id reqs s : single id s → times_served id (open_all reqs s).2 <= 1.
Proof.
  revert s. induction reqs as [|[[now req] id'] reqs IH]; intros s Hs; [done|]. cbn [open_all].
  pose proof (open_share_step now req id' id s) as Hw. unfold wp, run in *.
  destruct (open_share now req id' s) as [s' [r|r]].
  - destruct Hw as [_ Hw]. destruct (Hw Hs) as [Hs' Hcl]. specialize (IH s' Hs'). pose proof (open_all_closed id reqs s') as Hz.
    destruct (open_all reqs s') as [s2 l]. unfold times_served in *. cbn [snd List.filter fst] in *.
    destruct (str_eqb id' id && served r)%bool eqn:E; [|done]. to_prop. apply str_eqb_eq in H.
    rewrite len_cons, Hz by (by apply Hcl). done.
  - destruct Hw as (Hn & _ & Hw). specialize (IH s' (Hw Hs)). destruct (open_all reqs s') as [s2 l].
    unfold times_served in *. cbn [snd List.filter fst] in *. rewrite Hn, andb_false_r. done.
Qed.
End vault.
