(* ===== verification/MailRoutes.v ===== *)
(** * Mail servers and their diagnostics

    [web/lib/smtpConfig.js], [web/routes/auth/smtp.js], the transport of [sendOtpEmail]
    ([web/routes/auth/utils.js]), the expiry mail of [web/routes/vaultRoutes.js] and the
    DNS check of [web/server.js].

    The resolver ([Dns]) and the connection to a mail server are arguments; every
    transport a handler opens is part of its result.  Ports are decimal integers: other
    texts that [Number] reads are no ports. *)
From S2P Require Import Prelude JsRuntime JsText Json JsDyn Base64 PasswordHealth VaultPage FileCrypto StateStore RateLimiter SsrfGuard ServerState ServerLogic ServerAudit LoginRoute AccountRoutes LoginSpec VaultRoutes.

(** ** Searching records *)

(** [[A-Za-z0-9_]] *)
Definition is_word (c : Z) : bool := is_upper c || is_lower c || is_digit c || (c =? 95).
Definition is_letter (c : Z) : bool := is_upper c || is_lower c.

(** A literal of lower-case ASCII at the start, whatever the case of the text. *)
Definition starts_ci (p : string) (s : jsstr) : bool := starts_with (js p) (lower_ascii s).

(** The rest of the text after [/\bp/i], at the first place where [ok] accepts it;
    [w] tells whether a word character comes before. *)
Fixpoint after_word (p : string) (ok : jsstr → bool) (w : bool) (s : jsstr) : option jsstr :=
  match s with
  | [] => None
  | c :: s' =>
      if negb w && starts_ci p s && ok (drop (String.length p) s) then Some (drop (String.length p) s)
      else after_word p ok (is_word c) s'
  end.

Fixpoint take_class (cls : Z → bool) (s : jsstr) : jsstr :=
  match s with c :: s' => if cls c then c :: take_class cls s' else [] | [] => [] end.

(** [s.match(/\bp(cls+)/i)?.[1]] *)
Definition match_word (p : string) (cls : Z → bool) (s : jsstr) : option jsstr :=
  take_class cls <$> after_word p (λ r, match r with c :: _ => cls c | [] => false end) false s.

(** [/\bp/i.test(s)] *)
Definition test_word (p : string) (s : jsstr) : bool := bool_decide (is_Some (after_word p (λ _, true) false s)).

(** ** Configuration of the process ([lib/smtpConfig.js]) *)

Definition ALL_TESTS : list jsstr := map js ["spf"; "dkim"; "dmarc"; "bimi"; "vmc"]%string.

(** The value of [PROTOCOL_MAP[rawProtocol] ?? 'starttls']: a name of the table, or what
    every object inherits. *)
Inductive Proto := ProtoName (s : jsstr) | ProtoInherited (k : jsstr).

Definition protocol_of (raw : jsstr) : Proto :=
  if str_eqb raw (js "smtp") then ProtoName (js "smtp")
  else if str_eqb raw (js "ssl/tls") || str_eqb raw (js "ssl_tls") then ProtoName (js "ssl_tls")
  else if str_eqb raw (js "starttls") then ProtoName (js "starttls")
  else if existsb (str_eqb raw) INHERITED then ProtoInherited raw
  else ProtoName (js "starttls").

(** [DEFAULT_PORT[protocol] ?? 587] *)
Definition default_port (p : Proto) : Z :=
  match p with
  | ProtoName s => if str_eqb s (js "ssl_tls") then 465 else if str_eqb s (js "smtp") then 25 else 587
  | ProtoInherited _ => 587
  end.

Record TransportOpts := mkOpts { to_secure : bool; to_requireTLS : bool }.

Definition smtpTransportOpts (p : Proto) : TransportOpts :=
  match p with
  | ProtoName s => if str_eqb s (js "ssl_tls") then mkOpts true false
                   else if str_eqb s (js "starttls") then mkOpts false true else mkOpts false false
  | ProtoInherited _ => mkOpts false false
  end.

(** The variables [SMTP_*] of the environment. *)
Record SmtpEnv := mkSmtpEnv {
  se_host : option jsstr; se_protocol : option jsstr; se_port : option jsstr; se_email : option jsstr;
  se_password : option jsstr; se_test : option jsstr; se_reject : option jsstr }.

Record SmtpConfig := mkSmtp { sc_host : jsstr; sc_port : Z; sc_protocol : Proto; sc_username : jsstr; sc_password : jsstr }.

Section mail.
Context {JC : JsCase}.

Definition getEnvSmtpConfig (e : SmtpEnv) : option SmtpConfig :=
  let host := trim (or_else (se_host e) []) in
  if str_empty host then None
  else
    let protocol := protocol_of (toLowerCase (trim (or_else (se_protocol e) (js "STARTTLS")))) in
    let port := match parseInt10 (or_else (se_port e) []) with
                | Some n => if n =? 0 then default_port protocol else n
                | None => default_port protocol
                end in
    Some (mkSmtp host port protocol (trim (or_else (se_email e) [])) (trim (or_else (se_password e) []))).

(** [set.add(x)] *)
Definition add_test (x : jsstr) (l : list jsstr) : list jsstr := if existsb (str_eqb x) l then l else l ++ [x].

(** [raw] is the argument, [env] the variable [SMTP_TEST]. *)
Definition parseSmtpTestFilter (env raw : option jsstr) : list jsstr :=
  let text := match raw with Some r => r | None => default (js "full") env end in
  let val := toLowerCase (trim text) in
  if str_empty val || str_eqb val (js "full") then ALL_TESTS
  else if str_eqb val (js "none") then []
  else fold_left (λ result token,
         let t := trim token in
         if str_eqb t (js "dmark") then add_test (js "dmarc") result
         else if existsb (str_eqb t) ALL_TESTS then add_test t result else result) (split_unit 59 val) [].

Definition has_test (k : string) (filter : list jsstr) : bool := existsb (str_eqb (js k)) filter.

(** ** The resolver and the mail server *)

(** [resolveMx] (priority and name) and [resolveTxt]; [None] when they reject. *)
Record Dns := mkDns {
  resolveMx : jsstr → option (list (Z * jsstr));
  resolveTxt : jsstr → option (list (list jsstr)) }.

(** The options of [nodemailer.createTransport]; the port is [None] for NaN. *)
Record Transport := mkTransport {
  tr_host : jsstr; tr_port : option Z; tr_secure : bool; tr_requireTLS : bool; tr_user : jsstr; tr_pass : jsstr;
  tr_rejectUnauthorized : bool }.

(** The last two labels of a host. *)
Definition mail_domain (host : jsstr) : jsstr :=
  let parts := split_unit 46 host in
  if 2 <=? len parts then join_unit (js ".") (drop (length parts - 2) parts) else host.

(** [records?.flat().find(r => r.startsWith(p))] *)
Definition find_record (p : string) (recs : option (list (list jsstr))) : option jsstr :=
  recs ≫= λ r, List.find (starts_with (js p)) (concat r).

(** ** The check at the start of the process *)

Definition DKIM_STARTUP : list jsstr := map js ["google"; "default"; "selector1"; "selector2"; "k1"; "dkim"; "mail"]%string.

Definition pass_text (s : string) : jsstr := 10003 :: 32 :: js s.
Definition fail_text (s : string) : jsstr := 10007 :: 32 :: js s.

(** One line of the report per test of the filter.  The reads never reject: their errors
    are caught one by one, so the handler of the enclosing [try] is not reached. *)
Definition dns_results (d : Dns) (filter : list jsstr) (domain : jsstr) : list jsstr :=
  let txt := if has_test "spf" filter || has_test "dkim" filter then resolveTxt d domain else None in
  let dmarcR := if has_test "dmarc" filter then resolveTxt d (js "_dmarc." ++ domain) else None in
  let bimiR := if has_test "bimi" filter || has_test "vmc" filter then resolveTxt d (js "default._bimi." ++ domain) else None in
  let bimi := find_record "v=BIMI1" bimiR in
  (if has_test "spf" filter then
     [match find_record "v=spf1" txt with Some (_ :: _) => pass_text "SPF" | _ => fail_text "SPF (no record)" end] else []) ++
  (if has_test "dkim" filter then
     [if existsb (λ s, bool_decide (is_Some (resolveTxt d (s ++ js "._domainkey." ++ domain)))) DKIM_STARTUP
      then pass_text "DKIM" else fail_text "DKIM (no common selector found)"] else []) ++
  (if has_test "dmarc" filter then
     [match find_record "v=DMARC1" dmarcR with
      | Some r => pass_text "DMARC (p=" ++ default (js "?") (match_word "p=" is_letter r) ++ js ")"
      | None => fail_text "DMARC (no record)"
      end] else []) ++
  (if has_test "bimi" filter then [match bimi with Some _ => pass_text "BIMI" | None => fail_text "BIMI (no record)" end] else []) ++
  (if has_test "vmc" filter then
     [if match bimi with Some r => test_word "a=https" r | None => false end
      then pass_text "VMC" else fail_text "VMC (no a= field in BIMI record)"] else []).

Definition env_transport (e : SmtpEnv) (cfg : SmtpConfig) : Transport :=
  let o := smtpTransportOpts (sc_protocol cfg) in
  mkTransport (sc_host cfg) (Some (sc_port cfg)) (to_secure o) (to_requireTLS o) (sc_username cfg) (sc_password cfg)
    (negb (bool_decide (se_reject e = Some (js "0")))).

(** [verify] is the outcome of the connection: [None] or the text of its error.  The
    result is the report and the transport that was opened. *)
Definition validateEnvSmtp (d : Dns) (verify : Transport → option jsstr) (e : SmtpEnv) : option (list jsstr * Transport) :=
  cfg ← getEnvSmtpConfig e;
  let filter := parseSmtpTestFilter (se_test e) None in
  match filter with
  | [] => None
  | _ =>
      let t := env_transport e cfg in
      Some (dns_results d filter (mail_domain (sc_host cfg)) ++
            [match verify t with
             | None => pass_text "SMTP connection"
             | Some err => fail_text "SMTP connection (" ++ err ++ js ")"
             end], t)
  end.

(** ** POST /api/auth/smtp-check *)

(** What a failed connection reports. *)
Record MailError := mkMailError { me_code : option jsstr; me_responseCode : option Z }.

(** [e.code ?? e.responseCode?.toString() ?? 'connection_failed'] *)
Definition error_text (e : MailError) : jsstr :=
  match me_code e with
  | Some c => c
  | None => match me_responseCode e with Some n => dec n | None => js "connection_failed" end
  end.

(** [fd[0-9a-f]{2}:] *)
Definition unique_local (s : jsstr) : bool :=
  match lower_ascii s with
  | 102 :: 100 :: a :: b :: 58 :: _ => is_hex a && is_hex b
  | _ => false
  end.

(** [BLOCKED_HOST_RE] *)
Definition blocked_host (s : jsstr) : bool :=
  starts_ci "localhost" s || starts_ci "127." s || starts_ci "10." s ||
  (starts_ci "172." s && rfc1918_second (drop 4 s)) ||
  starts_ci "192.168." s || starts_ci "::1" s || starts_ci "169.254." s || unique_local s || starts_ci "fc00:" s.

Definition DKIM_SELECTORS : list jsstr :=
  map js ["google"; "default"; "selector1"; "selector2"; "k1"; "k2"; "k3"; "mail"; "dkim"; "smtp"; "email"; "s1"; "s2";
          "zoho"; "zmail"; "zm1"; "zm2"; "1024"; "2048"; "protonmail"; "protonmail2"; "protonmail3";
          "amazonses"; "postmark"; "mandrill"; "cm"; "mimecast"; "dkim2"; "sig1"; "everlytickey1"; "everlytickey2"]%string.

(** [record.includes('v=DKIM1') || (record.includes('p=') && record.includes('k='))] *)
Definition dkim_record (r : jsstr) : bool :=
  includes (js "v=DKIM1") r || (includes (js "p=") r && includes (js "k=") r).

(** The probes of all selectors, in the order of the list; the first that matches. *)
Fixpoint first_dkim (d : Dns) (domain : jsstr) (selectors : list jsstr) : option (jsstr * jsstr) :=
  match selectors with
  | [] => None
  | s :: l =>
      match resolveTxt d (s ++ js "._domainkey." ++ domain) with
      | Some txt => let record := concat (concat txt) in
                    if dkim_record record then Some (s, record) else first_dkim d domain l
      | None => first_dkim d domain l
      end
  end.

Definition str_or_null (o : option jsstr) : json := match o with Some s => JStr s | None => JNull end.
Definition found (b : bool) : jsstr * json := (js "found", JBool b).

Definition by_priority (l : list (Z * jsstr)) : list (Z * jsstr) := sort_rows (λ a b, a.1 - b.1) l.

(** The parts of the answer. *)
Definition mx_part (mx : option (list (Z * jsstr))) : json :=
  match mx with
  | Some ((_ :: _) as l) =>
      JObj [found true; (js "records", JArr (map (λ r, JObj [(js "priority", JNum (Int r.1)); (js "exchange", JStr r.2)])
                                             (take 5 (by_priority l))))]
  | _ => JObj [found false; (js "records", JArr [])]
  end.

Definition spf_part (on : bool) (txt : option (list (list jsstr))) : json :=
  match (if on then find_record "v=spf1" txt else None) with
  | Some r => JObj [found true; (js "record", JStr r)]
  | None => JObj [found false; (js "record", JNull)]
  end.

Definition dkim_part (on : bool) (r : option (jsstr * jsstr)) : json :=
  match (if on then r else None) with
  | Some (selector, record) =>
      JObj [found true; (js "selector", JStr selector);
            (js "record", JStr (if len record >? 120 then take 120 record ++ [8230] else record))]
  | None => JObj [found false; (js "selector", JNull); (js "record", JNull)]
  end.

Definition dmarc_part (on : bool) (txt : option (list (list jsstr))) : json :=
  match (if on then find_record "v=DMARC1" txt else None) with
  | Some r => JObj [found true; (js "record", JStr r); (js "policy", str_or_null (match_word "p=" is_letter r));
                    (js "pct", match match_word "pct=" is_digit r with Some p => JNum (Int (dec_value p)) | None => JNull end)]
  | None => JObj [found false; (js "record", JNull); (js "policy", JNull); (js "pct", JNull)]
  end.

Definition bimi_part (on : bool) (txt : option (list (list jsstr))) : json :=
  match (if on then find_record "v=BIMI1" txt else None) with
  | Some r =>
      let url := match match_word "a=" (λ c, negb (c =? 59)) r with Some a => trim a | None => [] end in
      JObj [found true; (js "record", JStr r); (js "hasVmc", JBool (negb (str_empty url)));
            (js "vmcUrl", if str_empty url then JNull else JStr url)]
  | None => JObj [found false; (js "record", JNull); (js "hasVmc", JBool false); (js "vmcUrl", JNull)]
  end.

Definition smtp_part (ok : bool) (error : option jsstr) : json :=
  JObj [(js "ok", JBool ok); (js "error", str_or_null error)].

(** [Number(port) || 465] *)
Definition port_or (v : option json) (n : Z) : Z :=
  match js_number v with Some p => if p =? 0 then n else p | None => n end.

Definition is_ssl_tls (v : option json) : bool := bool_decide (v = Some (JStr (js "ssl_tls"))).

(** [String(v)] of a property. *)
Definition text_of (v : option json) : jsstr := match v with Some v => to_text v | None => js "undefined" end.

Definition check_transport (host : jsstr) (body : json) : Transport :=
  mkTransport host (Some (port_or (prop "port" body) 465)) (is_ssl_tls (prop "protocol" body)) false
    (text_of (prop "username" body)) (text_of (prop "password" body)) false.

(** The answer and the transport that was opened, if any. *)
Definition check_result (d : Dns) (verify : Transport → option MailError) (env : option jsstr) (host : jsstr) (body : json)
    : json * option Transport :=
  let domain := mail_domain host in
  let filter := parseSmtpTestFilter env (Some match as_string (prop "tests" body) with
                                              | Some t => t
                                              | None => default (js "full") env
                                              end) in
  let mx := resolveMx d domain in
  let mx_found := match mx with Some (_ :: _) => true | _ => false end in
  let opened := if mx_found && truthy (prop "password" body) then Some (check_transport host body) else None in
  let smtp := match opened with
              | Some t => match verify t with None => smtp_part true None | Some e => smtp_part false (Some (error_text e)) end
              | None => smtp_part false (if mx_found then None else Some (js "no_mx_records"))
              end in
  (JObj [(js "domain", JStr domain); (js "mx", mx_part mx); (js "spf", spf_part (has_test "spf" filter) (resolveTxt d domain));
         (js "dkim", dkim_part (has_test "dkim" filter) (first_dkim d domain DKIM_SELECTORS));
         (js "dmarc", dmarc_part (has_test "dmarc" filter) (resolveTxt d (js "_dmarc." ++ domain)));
         (js "bimi", bimi_part (has_test "bimi" filter) (resolveTxt d (js "default._bimi." ++ domain)));
         (js "smtp", smtp)], opened).

Section routes.
Context {S : Type} {HS : StateStore S} {JW : Jwe} {SE : ServerEnv}.

Definition smtp_check (now : Z) (cookie : option jsstr) (c : Csrf) (d : Dns) (verify : Transport → option MailError)
    (env : option jsstr) (body : json) : H S (reply * option Transport) :=
  _ ← guarded now cookie c;
  match as_string (prop "host" body) with
  | None => stop (RErr 400 "invalid_input")
  | Some host =>
      _ ← stop_if (str_empty host || negb (truthy (prop "port" body)) || negb (truthy (prop "username" body)))
            (RErr 400 "invalid_input");
      let smtpHost := toLowerCase (trim host) in
      _ ← stop_if (blocked_host smtpHost) (RErr 400 "invalid_smtp_host");
      let '(v, opened) := check_result d verify env smtpHost body in
      mret (RJson v, opened)
  end.

(** ** POST /api/send-expiry-notification *)

Record Mail := mkMail { ml_from : jsstr; ml_to : jsstr; ml_subject : jsstr; ml_text : jsstr }.

(** [/[\r\n]/.test(s)] *)
Definition has_line_break (s : jsstr) : bool := existsb (λ c, (c =? 13) || (c =? 10)) s.

(** One line per credential that has a name. *)
Definition expiry_line (c : json) : option jsstr :=
  s ← as_string (prop "service" c);
  Some (8226 :: 32 :: s ++ js " (every " ++ text_of (prop "value" c) ++ [32] ++ text_of (prop "unit" c) ++ js ")").

Definition expiry_mail (username to_ : jsstr) (creds : list json) : Mail :=
  mkMail username to_ (js "PWDnow " ++ 8212 :: js " Password Expiry Alert")
    (js "The following credentials in your vault have expired:" ++ [10; 10] ++ join_unit [10] (omap expiry_line creds) ++
     [10; 10] ++ js "Please update them at your earliest convenience.").

Definition expiry_transport (host : jsstr) (smtp : option json) : Transport :=
  mkTransport host (js_number (opt_prop "port" smtp)) (is_ssl_tls (opt_prop "protocol" smtp)) false
    (text_of (opt_prop "username" smtp)) (text_of (opt_prop "password" smtp)) true.

Definition sent_reply (n : Z) : reply := RJson (JObj [(js "ok", JBool true); (js "sent", JNum (Int n))]).

(** [lookup] is the resolver of the guard, [send] whether the mail server takes the mail.
    The mail and its transport are part of the result. *)
Definition send_expiry (now : Z) (cookie : option jsstr) (c : Csrf) (lookup : jsstr → option (list (jsstr * Z)))
    (send : Transport → Mail → bool) (body : json) : H S (reply * option (Transport * Mail)) :=
  _ ← guarded now cookie c;
  let smtp := prop "smtp" body in
  let bad := RErr 400 "invalid_input" in
  _ ← stop_if (negb (truthy (opt_prop "host" smtp) && truthy (opt_prop "port" smtp) && truthy (opt_prop "username" smtp) &&
                     truthy (opt_prop "password" smtp))) bad;
  match prop "credentials" body, as_string (prop "toEmail" body) with
  | Some (JArr creds), Some toEmail =>
      _ ← stop_if (str_empty toEmail || (len toEmail >? 320) || has_line_break toEmail ||
                   has_line_break (text_of (opt_prop "username" smtp))) bad;
      match creds with
      | [] => mret (sent_reply 0, None)
      | _ =>
          let smtpHost := toLowerCase (trim (text_of (opt_prop "host" smtp))) in
          _ ← stop_if (negb (resolvesToPublicHost lookup smtpHost)) (RErr 400 "invalid_smtp_host");
          let t := expiry_transport smtpHost smtp in
          let m := expiry_mail (text_of (opt_prop "username" smtp)) toEmail creds in
          mret (if send t m then sent_reply (len creds) else RErr 502 "smtp_error", Some (t, m))
      end
  | _, _ => stop bad
  end.

(** ** GET /api/system/dns-check *)

(** [/^[a-zA-Z0-9._-]{1,253}$/] *)
Definition domain_ok (s : jsstr) : bool :=
  (1 <=? len s) && (len s <=? 253) && forallb (λ c, is_word c || (c =? 46) || (c =? 45)) s.

Definition DNS_SELECTORS : list jsstr :=
  map js ["mail"; "default"; "google"; "selector1"; "selector2"; "zoho"; "zmail"; "zm1"; "zm2"; "1024"; "2048";
          "k1"; "k2"; "k3"; "dkim"; "smtp"; "email"; "s1"; "s2"; "protonmail"; "protonmail2"; "protonmail3";
          "amazonses"; "postmark"; "mandrill"; "cm"; "mimecast"; "dkim2"; "sig1"; "everlytickey1"; "everlytickey2"]%string.

(** [/a=[^\s;]+\.pem/i] *)
Definition pem_class (c : Z) : bool := negb (is_space c) && negb (c =? 59).
Fixpoint pem_field (s : jsstr) : bool :=
  match s with
  | [] => false
  | _ :: s' => (starts_ci "a=" s && includes (js ".pem") (lower_ascii (drop 1 (take_class pem_class (drop 2 s))))) || pem_field s'
  end.

(** [r.value.some(r => r.join('').toLowerCase().startsWith(p))] *)
Definition some_record (p : string) (recs : option (list (list jsstr))) : bool :=
  match recs with Some l => existsb (λ r, starts_with (js p) (toLowerCase (concat r))) l | None => false end.

Definition dns_answer (d : Dns) (domain : jsstr) : json :=
  let bimiTxt := match resolveTxt d (js "default._bimi." ++ domain) with Some l => concat (concat l) | None => [] end in
  let bimi := starts_with (js "v=bimi1") (toLowerCase bimiTxt) in
  JObj [(js "domain", JStr domain);
        (js "mx", JArr match resolveMx d domain with Some l => map (λ r, JStr r.2) (by_priority l) | None => [] end);
        (js "spf", JBool (some_record "v=spf1" (resolveTxt d domain)));
        (js "dmarc", JBool (some_record "v=dmarc1" (resolveTxt d (js "_dmarc." ++ domain))));
        (js "dkim", JBool (existsb (λ sel, match resolveTxt d (sel ++ js "._domainkey." ++ domain) with
                                           | Some l => existsb (λ txt, dkim_record (concat txt)) l
                                           | None => false
                                           end) DNS_SELECTORS));
        (js "bimi", JBool bimi); (js "vmc", JBool (bimi && pem_field bimiTxt))].

Definition dns_check (now : Z) (ip : jsstr) (d : Dns) (domain : option jsstr) : H S reply :=
  ok ← rate (checkDnsRate ip now);
  _ ← stop_if (negb ok) (RErr 429 "too_many_requests");
  match domain with
  | Some s => if domain_ok s then mret (RJson (dns_answer d (trim (toLowerCase s)))) else stop (RErr 400 "Invalid domain")
  | None => stop (RErr 400 "Invalid domain")
  end.
End routes.

(** ** The transport of one-time passwords ([sendOtpEmail]) *)

(** [None] when nothing is sent. *)
Definition otp_transport (cfg : json) : option Transport :=
  if truthy (prop "host" cfg) && truthy (prop "username" cfg) && truthy (prop "password" cfg) then
    Some (mkTransport (trim (text_of (prop "host" cfg))) (Some (port_or (prop "port" cfg) 465)) (is_ssl_tls (prop "protocol" cfg))
            false (text_of (prop "username" cfg)) (text_of (prop "password" cfg)) false)
  else None.
End mail.
