(* ===== verification/ClientApi.v ===== *)
(** * Requests of the page ([web/src/utils/api.ts])

    The token in the cookies, the wrapper around [fetch], and what the server makes of
    the requests it sends. *)
From S2P Require Import Prelude JsRuntime JsText Base64 Json JsonSpec ServerState.

(** ** The cookie *)

Definition CSRF_NAME : jsstr := js "_pwd_csrf=".

(** The name at the start of [s], and the value up to the next semicolon. *)
Fixpoint until_semicolon (s : jsstr) : jsstr :=
  match s with c :: s' => if c =? 59 then [] else c :: until_semicolon s' | [] => [] end.

Definition csrf_at (s : jsstr) : option jsstr :=
  if starts_with CSRF_NAME s then Some (until_semicolon (drop (length CSRF_NAME) s)) else None.

(** The first semicolon that is followed, after white space, by the token. *)
Fixpoint csrf_after (s : jsstr) : option jsstr :=
  match s with
  | [] => None
  | c :: s' =>
      if c =? 59 then match csrf_at (trim_start s') with Some v => Some v | None => csrf_after s' end
      else csrf_after s'
  end.

Definition csrf_match (cookie : jsstr) : option jsstr :=
  match csrf_at cookie with Some v => Some v | None => csrf_after cookie end.

Definition getCsrfToken (cookie : jsstr) : jsstr := default [] (csrf_match cookie).

Definition hasServerSession (cookie : jsstr) : bool := bool_decide (is_Some (csrf_match cookie)).

(** ** [apiFetch] *)

Record RequestInit := mkInit { ri_method : option jsstr; ri_headers : list (jsstr * jsstr); ri_body : option jsstr }.

Record Request := mkRequest {
  rq_url : jsstr; rq_method : option jsstr; rq_headers : list (jsstr * jsstr); rq_body : option jsstr }.

(** A response; the text is [None] when reading it fails. *)
Record Response := mkResponse { rs_status : Z; rs_text : option jsstr }.

Inductive fetch_error := NetworkError | ApiError (status : Z) (data : json) | BadBody.

(** [Headers]: names without regard to case, [set] replaces. *)
Definition header_is (name : jsstr) (h : jsstr * jsstr) : bool := str_eqb (map ascii_lower_unit h.1) (map ascii_lower_unit name).
Definition has_header (name : jsstr) (hs : list (jsstr * jsstr)) : bool := existsb (header_is name) hs.
Definition set_header (name value : jsstr) (hs : list (jsstr * jsstr)) : list (jsstr * jsstr) :=
  List.filter (λ h, negb (header_is name h)) hs ++ [(name, value)].
Definition get_header (name : jsstr) (hs : list (jsstr * jsstr)) : option jsstr := snd <$> List.find (header_is name) hs.

(** Upper case matters for [GET] and [HEAD] only, whose letters come from no unit outside
    ASCII. *)
Definition mutating (i : RequestInit) : bool :=
  let method := map ascii_upper_unit (default (js "GET") (ri_method i)) in
  negb (str_eqb method (js "GET")) && negb (str_eqb method (js "HEAD")).

Definition request_of (cookie : jsstr) (url : jsstr) (i : RequestInit) : Request :=
  let headers := match ri_body i with
                 | Some _ => if has_header (js "Content-Type") (ri_headers i) then ri_headers i
                             else set_header (js "Content-Type") (js "application/json") (ri_headers i)
                 | None => ri_headers i
                 end in
  let headers := if mutating i
                 then let token := getCsrfToken cookie in
                      if str_empty token then headers else set_header (js "X-CSRF-Token") token headers
                 else headers in
  mkRequest url (ri_method i) headers (ri_body i).

Definition ok_status (n : Z) : bool := (200 <=? n) && (n <=? 299).

Section fetch.
Context `{JsFloat}.

(** [ApiError.data]: the parsed message, [{}] when it is no JSON. *)
Definition error_data (message : jsstr) : json := default (JObj []) (parse message).

(** What the caller of [apiFetch] gets from a response; [None] is [undefined]. *)
Definition read_response (res : Response) : result fetch_error (option json) :=
  if negb (ok_status (rs_status res)) then Throw (ApiError (rs_status res) (error_data (default [] (rs_text res))))
  else if rs_status res =? 204 then Ok None
  else match rs_text res ≫= parse with Some v => Ok (Some v) | None => Throw BadBody end.

(** [fetch] of the browser: [None] when it throws; the world [W] is the server. *)
Definition apiFetch {W} (fetch : Request → W → W * option Response) (cookie url : jsstr) (opts : RequestInit) (w : W)
    : W * result fetch_error (option json) :=
  match fetch (request_of cookie url opts) w with
  | (w, None) => (w, Throw NetworkError)
  | (w, Some res) => (w, read_response res)
  end.
End fetch.

(** ** The answers of the server *)

(** Status and body the handlers of shares, vault data and sessions send; of an error the
    field the page reads. *)
Definition answer_json (r : reply) : option (Z * json) :=
  match r with
  | RErr n e => Some (n, JObj [(js "error", JStr (js e))])
  | ROk => Some (200, JObj [(js "ok", JBool true)])
  | RJson v => Some (200, v)
  | _ => None
  end.

Definition response_of (r : reply) : option Response :=
  (λ '(n, v), mkResponse n (Some (stringify v))) <$> answer_json r.

(** ** Lemmas *)

(** The text of [document.cookie] for the cookies [l]. *)
Definition cookie_text (kv : jsstr * jsstr) : jsstr := kv.1 ++ [61] ++ kv.2.
Definition document_cookie (l : list (jsstr * jsstr)) : jsstr := join_unit (js "; ") (map cookie_text l).

(** Names and values as browsers store them. *)
Definition cookie_ok (kv : jsstr * jsstr) : Prop :=
  (59 ∉ kv.1) ∧ (59 ∉ kv.2) ∧ (61 ∉ kv.1) ∧ (∀ c s, kv.1 = c :: s → is_space c = false) ∧ kv.1 ≠ [].

Definition find_cookie (name : jsstr) (l : list (jsstr * jsstr)) : option jsstr :=
  snd <$> List.find (λ kv, str_eqb kv.1 name) l.

Lemma until_semicolon_stop v s : 59 ∉ v → until_semicolon (v ++ 59 :: s) = v.
Proof.
  induction v as [|c v IH]; [done|]. intros [Hc Hv]%not_elem_of_cons. cbn [Datatypes.app until_semicolon].
  rewrite (proj2 (Z.eqb_neq c 59)) by congruence. by rewrite IH.
Qed.

Lemma until_semicolon_all v : 59 ∉ v → until_semicolon v = v.
Proof.
  induction v as [|c v IH]; [done|]. intros [Hc Hv]%not_elem_of_cons. cbn [until_semicolon].
  rewrite (proj2 (Z.eqb_neq c 59)) by congruence. by rewrite IH.
Qed.

Lemma csrf_after_skip v s : 59 ∉ v → csrf_after (v ++ s) = csrf_after s.
Proof.
  induction v as [|c v IH]; [done|]. intros [Hc Hv]%not_elem_of_cons. cbn [Datatypes.app csrf_after].
  rewrite (proj2 (Z.eqb_neq c 59)) by congruence. by apply IH.
Qed.

(** Two texts up to their first [=]. *)
Lemma split_at_eq (a b s t : jsstr) : 61 ∉ a → 61 ∉ b → a ++ 61 :: s = b ++ 61 :: t → a = b ∧ s = t.
Proof.
  revert b. induction a as [|x a IH]; intros [|y b]; cbn [Datatypes.app].
  - intros _ _ [= ->]. done.
  - intros _ Hb [= <- _]. exfalso. apply Hb, elem_of_cons. by left.
  - intros Ha _ [= -> _]. exfalso. apply Ha, elem_of_cons. by left.
  - intros [_ Ha]%not_elem_of_cons [_ Hb]%not_elem_of_cons [= -> Heq]. by destruct (IH b Ha Hb Heq) as [-> ->].
Qed.

Definition CSRF : jsstr := js "_pwd_csrf".

(** The pattern at the start of a cookie. *)
Lemma csrf_at_cookie kv rest :
  cookie_ok kv → rest = [] ∨ (∃ s, rest = 59 :: s) →
  csrf_at (cookie_text kv ++ rest) = if str_eqb kv.1 CSRF then Some kv.2 else None.
Proof.
  intros (H1 & H2 & H3 & _) Hrest. unfold csrf_at, cookie_text. change CSRF_NAME with (CSRF ++ [61]).
  destruct (str_eqb kv.1 CSRF) eqn:E.
  - apply str_eqb_eq in E. rewrite E, app_assoc, <- app_assoc.
    assert (Hs : starts_with (CSRF ++ [61]) ((CSRF ++ [61]) ++ kv.2 ++ rest) = true) by (apply starts_with_spec; eauto).
    rewrite Hs, drop_app_length. f_equal. destruct Hrest as [-> | [s ->]]; [rewrite app_nil_r; by apply until_semicolon_all|by apply until_semicolon_stop].
  - destruct (starts_with (CSRF ++ [61]) _) eqn:Es; [|done]. apply starts_with_spec in Es as [t Ht].
    rewrite <- !app_assoc in Ht. apply split_at_eq in Ht as [Hk _]; [|done|].
    + by rewrite Hk, (proj2 (str_eqb_eq _ _) eq_refl) in E.
    + apply has_unit_false. reflexivity.
Qed.

Lemma cookie_text_clean kv : cookie_ok kv → 59 ∉ cookie_text kv.
Proof.
  intros (H1 & H2 & _). unfold cookie_text. rewrite !elem_of_app. intros [?|[Hc|?]]; [done| |done].
  by apply list_elem_of_singleton in Hc.
Qed.

Lemma cookie_text_start kv s : cookie_ok kv → trim_start (cookie_text kv ++ s) = cookie_text kv ++ s.
Proof.
  intros (_ & _ & _ & Hsp & Hne). unfold cookie_text. destruct kv.1 as [|c n]; [done|].
  cbn [Datatypes.app trim_start]. by rewrite (Hsp c n eq_refl).
Qed.

Lemma document_cookie_cons kv l :
  document_cookie (kv :: l) = cookie_text kv ++ concat (map (λ x, js "; " ++ cookie_text x) l).
Proof.
  unfold document_cookie. revert kv. induction l as [|x l IH]; intros kv; [by rewrite app_nil_r|].
  cbn [map concat]. change (join_unit _ (cookie_text kv :: _)) with (cookie_text kv ++ js "; " ++ join_unit (js "; ") (map cookie_text (x :: l))).
  by rewrite IH, <- !app_assoc.
Qed.

Lemma tail_shape l : concat (map (λ x, js "; " ++ cookie_text x) l) = [] ∨ ∃ s, concat (map (λ x, js "; " ++ cookie_text x) l) = 59 :: s.
Proof. destruct l as [|x l]; [by left|right]. eexists. reflexivity. Qed.

Lemma csrf_after_tail l :
  Forall cookie_ok l → csrf_after (concat (map (λ x, js "; " ++ cookie_text x) l)) = find_cookie CSRF l.
Proof.
  induction 1 as [|kv l Hkv Hl IH]; [done|]. cbn [map concat]. rewrite <- app_assoc.
  change (js "; " ++ ?x) with (59 :: 32 :: x). cbn [csrf_after]. cbn [Z.eqb Pos.eqb].
  change (trim_start (32 :: ?x)) with (trim_start x). rewrite cookie_text_start, csrf_at_cookie by (done || apply tail_shape).
  unfold find_cookie. cbn [List.find]. destruct (str_eqb kv.1 CSRF); [done|].
  rewrite csrf_after_skip by (by apply cookie_text_clean). exact IH.
Qed.

Lemma header_is_refl name v : header_is name (name, v) = true.
Proof. by apply str_eqb_eq. Qed.

Lemma get_set_header name v hs : get_header name (set_header name v hs) = Some v.
Proof.
  unfold get_header, set_header. induction hs as [|h hs IH]; cbn [List.filter Datatypes.app List.find].
  - by rewrite header_is_refl.
  - destruct (header_is name h) eqn:E; cbn [negb Datatypes.app List.find]; [done|]. by rewrite E.
Qed.

Lemma csrf_is_the_cookie_eq l :
  Forall cookie_ok l →
  getCsrfToken (document_cookie l) = default [] (find_cookie CSRF l) ∧
  hasServerSession (document_cookie l) = bool_decide (is_Some (find_cookie CSRF l)).
Proof.
  intros Hl. unfold getCsrfToken, hasServerSession.
  assert (E : csrf_match (document_cookie l) = find_cookie CSRF l); [|by rewrite E].
  destruct Hl as [|kv l Hkv Hl]; [done|]. rewrite document_cookie_cons. unfold csrf_match.
  rewrite csrf_at_cookie by (done || apply tail_shape). unfold find_cookie at 1. cbn [List.find].
  destruct (str_eqb kv.1 CSRF) eqn:E; [done|].
  rewrite csrf_after_skip, csrf_after_tail by (done || by apply cookie_text_clean). done.
Qed.

Lemma find_set_other name v hs :
  header_is (js "X-CSRF-Token") (name, v) = false →
  List.find (header_is (js "X-CSRF-Token")) (set_header name v hs) = List.find (header_is (js "X-CSRF-Token")) hs.
Proof.
  intros Hn. unfold set_header. induction hs as [|h hs IH]; cbn [List.filter Datatypes.app List.find]; [by rewrite Hn|].
  destruct (header_is name h) eqn:E; cbn [negb Datatypes.app List.find].
  - rewrite IH. destruct (header_is (js "X-CSRF-Token") h) eqn:Ex; [|done]. exfalso.
    unfold header_is in E, Ex, Hn. apply str_eqb_eq in E, Ex. cbn [fst] in Hn. rewrite <- E, Ex in Hn.
    by rewrite (proj2 (str_eqb_eq _ _) eq_refl) in Hn.
  - by rewrite IH.
Qed.

Lemma csrf_header_ok l v url i m :
  Forall cookie_ok l → find_cookie CSRF l = Some v → v ≠ [] → ri_method i = Some (js m) →
  In m ["POST"; "PUT"; "PATCH"; "DELETE"]%string →
  csrf_ok (mkCsrf m (get_header (js "X-CSRF-Token") (rq_headers (request_of (document_cookie l) url i))) (Some v)) = true.
Proof.
  intros Hl Hv Hne Hm Hin. unfold request_of. assert (Hmut : mutating i = true).
  { unfold mutating. rewrite Hm. by destruct Hin as [<-|[<-|[<-|[<-|[]]]]]. }
  rewrite Hmut, (proj1 (csrf_is_the_cookie_eq l Hl)), Hv. destruct v as [|c v]; [done|]. cbn [from_option id str_empty rq_headers].
  rewrite get_set_header. unfold csrf_ok. cbn [csrf_method csrf_header csrf_cookie].
  destruct (negb _); [done|]. by apply bool_decide_eq_true_2.
Qed.

Module ApiSpec.

(** The page reads its token from the cookie of that name, wherever it stands among the
    others, and takes a server session for present exactly when there is such a cookie. *)
Theorem csrf_is_the_cookie l :
  Forall cookie_ok l →
  getCsrfToken (document_cookie l) = default [] (find_cookie CSRF l) ∧
  hasServerSession (document_cookie l) = bool_decide (is_Some (find_cookie CSRF l)).
Proof.
  exact (csrf_is_the_cookie_eq l).
Qed.

Lemma csrf_is_the_cookie_witness :
  getCsrfToken (document_cookie [(js "lang", js "de"); (js "x_pwd_csrf", js "no"); (CSRF, js "t0k3n")]) = js "t0k3n".
Proof.
  refine (proj1 (csrf_is_the_cookie [(js "lang", js "de"); (js "x_pwd_csrf", js "no"); (CSRF, js "t0k3n")] _)).
  repeat constructor; try (apply has_unit_false; reflexivity); try discriminate; intros c s [= <- _]; reflexivity.
Defined.

(** The double-submit check lets the page through: with the token cookie set, every
    request [apiFetch] sends with a method the check covers passes it, whatever headers the
    caller gave; and a request that only reads carries no token the caller did not give. *)
Theorem page_passes_csrf l v url i m :
  Forall cookie_ok l → find_cookie CSRF l = Some v → v ≠ [] →
  let sent := get_header (js "X-CSRF-Token") (rq_headers (request_of (document_cookie l) url i)) in
  (ri_method i = Some (js m) → In m ["POST"; "PUT"; "PATCH"; "DELETE"]%string → csrf_ok (mkCsrf m sent (Some v)) = true) ∧
  (mutating i = false → sent = get_header (js "X-CSRF-Token") (ri_headers i)).
Proof.
  intros Hl Hv Hne sent. unfold sent, request_of. split.
  - intros Hm Hin. by apply (csrf_header_ok l v url i m).
  - intros ->. cbn [rq_headers]. destruct (ri_body i); [|done]. destruct (has_header (js "Content-Type") (ri_headers i)) eqn:E; [done|].
    unfold get_header. f_equal. by apply find_set_other.
Qed.

End ApiSpec.
