(* ===== verification/AccountMachine.v ===== *)
(** * The account machine

    What the routes promise about users and sessions, apart from how they do it:
    an abstract machine whose steps update one user, add or remove one, open one
    session or close some; every handler refines it ([handle_refines]), so its
    invariants hold of the server after any sequence of requests, whatever other
    requests run while one of them waits for a slow hash. *)
From S2P Require Import Prelude JsRuntime JsText Json Base64 FileCrypto StateStore RateLimiter ServerState ServerLogic SsrfGuard ServerAudit LoginRoute AccountRoutes VaultRoutes.

(** ** The machine *)

Definition accounts : Type := list User * gmap jsstr (list Session).

(** A user is well formed: the failures of an armed account are below its limit, the
    log of fingerprints is within its bounds; when [plain] is set, no second factor
    is enforced. *)
Record user_ok (plain : bool) (u : User) : Prop := {
  ok_count : 0 <= u_duressFailureCount u;
  ok_armed m : u_duressEnforce u = Some m → u_duressFailureCount u < clamp_attempts m;
  ok_log : len (u_fingerprintLog u) <= FINGERPRINT_LOG_CAP;
  ok_log_ids : NoDup (map fe_id (u_fingerprintLog u));
  ok_plain : plain = true → u_mfaTotp u = false ∧ u_mfaEmail u = false;
}.

(** An update keeps the identity of the user and what is well formed. *)
Definition user_change (plain : bool) (u u' : User) : Prop :=
  u_id u' = u_id u ∧ u_emailHash u' = u_emailHash u ∧ (user_ok plain u → user_ok plain u').

(** One step; [drawn] are the session ids that may be drawn. *)
Inductive astep (drawn : jsstr → Prop) (plain : bool) : accounts → accounts → Prop :=
| AUpdate us ss id u u' :
    List.find (by_id id) us = Some u → user_change plain u u' →
    astep drawn plain (us, ss) (update_first (by_id id) (λ _, u') us, ss)
| AInsert us ss u :
    existsb (by_hash (u_emailHash u)) us = false → user_ok plain u → astep drawn plain (us, ss) (us ++ [u], ss)
| ADelete us ss id : astep drawn plain (us, ss) (remove_first (by_id id) us, ss)
| AOpen us ss uid x :
    drawn (s_jti x) → s_isCurrent x = true →
    astep drawn plain (us, ss) (us, <[uid := add_session (s_jti x) x (default [] (ss !! uid))]> ss)
| AClose us ss uid p : astep drawn plain (us, ss) (us, <[uid := List.filter p (default [] (ss !! uid))]> ss)
| AForget us ss uid : astep drawn plain (us, ss) (us, delete uid ss).

Abbreviation asteps drawn plain := (rtc (astep drawn plain)).

(** ** Its invariants *)

Record sessions_ok (l : list Session) : Prop := {
  ok_few : len l <= 20;
  ok_jtis : NoDup (map s_jti l);
  ok_current : len (List.filter s_isCurrent l) <= 1;
}.

Record accounts_ok (plain : bool) (a : accounts) : Prop := {
  ok_users : Forall (user_ok plain) a.1;
  ok_hashes : NoDup (map u_emailHash a.1);
  ok_sessions : map_Forall (λ _, sessions_ok) a.2;
}.

Lemma Forall_update {A} (P : A → Prop) p x l : Forall P l → P x → Forall P (update_first p (λ _, x) l).
Proof. induction 1 as [|y l Hy Hl IH]; intros Hx; [constructor|]. cbn. destruct (p y); auto. Qed.

Lemma remove_first_sublist {A} (p : A → bool) l : sublist (remove_first p l) l.
Proof. induction l as [|x l IH]; [constructor|]. cbn. destruct (p x); [by apply sublist_cons|by apply sublist_skip]. Qed.

Lemma filter_sublist {A} (p : A → bool) l : sublist (List.filter p l) l.
Proof. induction l as [|x l IH]; [constructor|]. cbn. destruct (p x); by constructor. Qed.

Lemma filter_sublist_mono {A} (p : A → bool) k l : sublist k l → sublist (List.filter p k) (List.filter p l).
Proof.
  induction 1 as [|x k l _ IH|x k l _ IH]; cbn; [constructor| |]; (destruct (p x); [|exact IH]).
  - by apply sublist_skip.
  - by apply sublist_cons.
Qed.

Lemma sessions_sublist l k : sublist k l → sessions_ok l → sessions_ok k.
Proof.
  intros Hk [Hf Hj Hc]. split.
  - apply sublist_length in Hk. unfold len in *. lia.
  - eapply sublist_NoDup; [exact Hj|]. by apply (fmap_sublist s_jti).
  - pose proof (filter_sublist_mono s_isCurrent _ _ Hk) as Hs. apply sublist_length in Hs. unfold len in *. lia.
Qed.

Lemma sessions_nil : sessions_ok [].
Proof. split; [done|constructor|done]. Qed.

(** Opening a session keeps the list short, its ids apart and one entry current. *)
Lemma sessions_add x l : s_isCurrent x = true → sessions_ok l → sessions_ok (add_session (s_jti x) x l).
Proof.
  intros Hcur Hl. unfold add_session. cbv zeta.
  set (old := map not_current (List.filter (λ y, negb (str_eqb (s_jti y) (s_jti x))) l)).
  assert (Ho : NoDup (map s_jti (old ++ [x])) ∧ List.filter s_isCurrent (old ++ [x]) = [x]).
  { assert (Hj : map s_jti old = map s_jti (List.filter (λ y, negb (str_eqb (s_jti y) (s_jti x))) l)) by (unfold old; rewrite map_map; reflexivity).
    split.
    - rewrite map_app, Hj. apply NoDup_app. split_and!; [|intros j Hin|apply NoDup_singleton].
      + eapply sublist_NoDup; [apply (ok_jtis l Hl)|]. apply (fmap_sublist s_jti), filter_sublist.
      + cbn. rewrite list_elem_of_singleton. intros ->. apply list_elem_of_In, in_map_iff in Hin as (y & Hy & Hin).
        apply filter_In in Hin as [_ Hin]. by rewrite (proj2 (str_eqb_eq _ _) Hy) in Hin.
    - rewrite List.filter_app. cbn. rewrite Hcur. unfold old.
      assert (List.filter s_isCurrent (map not_current (List.filter (λ y, negb (str_eqb (s_jti y) (s_jti x))) l)) = []) as ->; [|done].
      clear. induction (List.filter _ l) as [|y k IH]; [done|exact IH]. }
  destruct Ho as [Hn Hc]. destruct (Z.gtb_spec (len (old ++ [x])) 20) as [Hgt|Hle].
  - set (n := Z.to_nat _).
    assert (Hs : sublist (drop n (old ++ [x])) (old ++ [x])) by (apply sublist_drop).
    split.
    + unfold n, len in *. rewrite length_drop. lia.
    + eapply sublist_NoDup; [exact Hn|]. by apply (fmap_sublist s_jti).
    + pose proof (filter_sublist_mono s_isCurrent _ _ Hs) as Hs'.
      rewrite Hc in Hs'. apply sublist_length in Hs'. unfold len. cbn in Hs'. lia.
  - split; [lia|done|]. by rewrite Hc.
Qed.

Lemma existsb_hash h us : existsb (by_hash h) us = false → h ∉ map u_emailHash us.
Proof.
  intros He Hin. apply list_elem_of_In, in_map_iff in Hin as (u & Hu & Hin). assert (existsb (by_hash h) us = true); [|congruence].
  apply existsb_exists. exists u. split; [done|]. by apply str_eqb_eq.
Qed.

(** Every step keeps accounts well formed. *)
Lemma astep_ok drawn plain a a' : astep drawn plain a a' → accounts_ok plain a → accounts_ok plain a'.
Proof.
  intros Hs [Hu Hh Hse]. destruct Hs as [us ss id u u' Hf (Hid & Heh & Hok)|us ss u He Hok|us ss id|us ss uid x _ Hc|us ss uid p|us ss uid];
    cbn [fst snd] in *; split; cbn [fst snd]; try done.
  - apply Forall_update; [done|]. apply Hok. rewrite Forall_forall in Hu. apply Hu. apply find_some in Hf as [Hin _]. by apply list_elem_of_In.
  - clear -Hf Heh Hh. apply (eq_ind _ NoDup Hh). symmetry. induction us as [|x us IH]; [done|]. cbn [List.find update_first map] in *.
    destruct (by_id id x); [injection Hf as ->; cbn; by rewrite Heh|]. cbn. f_equal. apply NoDup_cons in Hh as [_ Hh]. by apply IH.
  - apply Forall_app. auto.
  - rewrite map_app. apply NoDup_app. split_and!; [done| |apply NoDup_singleton]. intros h Hin. cbn. rewrite list_elem_of_singleton.
    intros ->. by apply existsb_hash in He.
  - rewrite Forall_forall in *. intros u Hin. apply Hu. eapply sublist_subseteq; [apply remove_first_sublist|done].
  - eapply sublist_NoDup; [exact Hh|]. apply (fmap_sublist u_emailHash), remove_first_sublist.
  - apply map_Forall_insert_2; [|done]. apply sessions_add; [done|]. destruct (ss !! uid) as [l|] eqn:E; [by apply (Hse uid)|apply sessions_nil].
  - apply map_Forall_insert_2; [|done]. apply (sessions_sublist (default [] (ss !! uid))); [apply filter_sublist|].
    destruct (ss !! uid) as [l|] eqn:E; [by apply (Hse uid)|apply sessions_nil].
  - by apply map_Forall_delete.
Qed.

Lemma asteps_ok drawn plain a a' : asteps drawn plain a a' → accounts_ok plain a → accounts_ok plain a'.
Proof. induction 1; eauto using astep_ok. Qed.

(** A session id that is gone stays gone while it is not drawn again. *)
Definition gone (uid jti : jsstr) (a : accounts) : Prop := Forall (λ x, s_jti x ≠ jti) (default [] (a.2 !! uid)).

Lemma Forall_sublist' {A} (P : A → Prop) k l : sublist k l → Forall P l → Forall P k.
Proof. intros Hs. rewrite !Forall_forall. intros Hl x Hx. apply Hl. by eapply sublist_subseteq. Qed.

Lemma astep_gone (drawn : jsstr → Prop) plain uid jti a a' :
  ¬ drawn jti → astep drawn plain a a' → gone uid jti a → gone uid jti a'.
Proof.
  intros Hd Hs Hg. destruct Hs as [| | |us ss uid' x Hx _|us ss uid' p|us ss uid']; try exact Hg; unfold gone in *; cbn [fst snd] in *.
  - destruct (decide (uid' = uid)) as [->|]; [rewrite lookup_insert_eq|by rewrite lookup_insert_ne by done]. cbn [default from_option id].
    unfold add_session. cbv zeta. set (l := default [] (ss !! uid)) in *.
    assert (Hf : Forall (λ y, s_jti y ≠ jti) (map not_current (List.filter (λ y, negb (str_eqb (s_jti y) (s_jti x))) l) ++ [x])).
    { apply Forall_app. split; [|constructor; [by intros <-|done]]. apply Forall_map.
      apply (Forall_sublist' _ _ l); [apply filter_sublist|]. exact Hg. }
    destruct (_ >? 20); [|done]. by eapply Forall_sublist'; [apply sublist_drop|].
  - destruct (decide (uid' = uid)) as [->|]; [rewrite lookup_insert_eq|by rewrite lookup_insert_ne by done]. cbn [default from_option id].
    eapply Forall_sublist'; [apply filter_sublist|done].
  - destruct (decide (uid' = uid)) as [->|]; [by rewrite lookup_delete_eq; constructor|by rewrite lookup_delete_ne by done].
Qed.

Lemma asteps_gone (drawn : jsstr → Prop) plain uid jti a a' :
  ¬ drawn jti → asteps drawn plain a a' → gone uid jti a → gone uid jti a'.
Proof. intros Hd. induction 1; eauto using astep_gone. Qed.
