(* ===== verification/AccountRefine.v ===== *)
(** * The routes refine the account machine

    Requests as data, the handler of each, and sequences of them; what a handler
    does to users and sessions is a run of the machine of [AccountMachine]. *)
From S2P Require Import Prelude JsRuntime JsText Json Base64 FileCrypto StateStore RateLimiter ServerState ServerLogic SsrfGuard ServerAudit LoginRoute AccountRoutes VaultRoutes MailRoutes AccountMachine.

(** ** Requests *)

#[local] Set Warnings "-register-all".

(** The requests that change state or are behind both guards; [during] are the requests
    the server answers while one waits for the hash of a password. *)
Inductive request :=
| QLogin (now : Z) (rnd : Rand) (during : list request) (q : LoginReq)
| QFinish (now : Z) (rnd : Rand) (q : FinishReq)
| QRegister (now : Z) (rnd : Rand) (during : list request) (q : RegisterReq)
| QRevokeOthers (now : Z) (cookie : option jsstr) (c : Csrf)
| QLogout (now : Z) (cookie : option jsstr) (c : Csrf) (q : LoginReq)
| QPassword (now : Z) (rnd : Rand) (cookie : option jsstr) (c : Csrf) (during : list request) (old new : option jsstr) (q : LoginReq)
| QVerifyPassword (now : Z) (cookie : option jsstr) (c : Csrf) (during : list request) (r : Req) (password : option jsstr)
| QRecoveryKey (now : Z) (rnd : Rand) (cookie : option jsstr) (c : Csrf) (during : list request) (key pass : option jsstr)
| QHints (now : Z) (cookie : option jsstr) (c : Csrf) (hints : json)
| QReadHints (now : Z) (r : Req) (email : option jsstr)
| QSalt (now : Z) (cookie : option jsstr) (c : Csrf) (salt : option jsstr)
| QFingerprint (now : Z) (cookie : option jsstr) (c : Csrf) (target : jsstr)
| QSendSetup (now : Z) (rnd : Rand) (cookie : option jsstr) (c : Csrf) (toEmail : option jsstr)
| QVerifySetup (now : Z) (cookie : option jsstr) (c : Csrf) (code : option jsstr)
| QPut (now : Z) (cookie : option jsstr) (c : Csrf) (name : string) (limit : option Z) (body : json)
| QClear (now : Z) (cookie : option jsstr) (c : Csrf) (name : string)
| QArm (now : Z) (cookie : option jsstr) (c : Csrf) (armed : option bool) (maxAttempts : Z)
| QDisarm (now : Z) (cookie : option jsstr) (c : Csrf)
| QMfa (now : Z) (cookie : option jsstr) (c : Csrf) (body : json) (q : LoginReq)
| QSmtp (now : Z) (cookie : option jsstr) (c : Csrf) (lookup : jsstr → option (list (jsstr * Z))) (body : json)
| QNoSmtp (now : Z) (cookie : option jsstr) (c : Csrf)
| QSmtpCheck (now : Z) (cookie : option jsstr) (c : Csrf) (d : Dns) (verify : Transport → option MailError) (env : option jsstr) (body : json)
| QExpiryMail (now : Z) (cookie : option jsstr) (c : Csrf) (lookup : jsstr → option (list (jsstr * Z)))
    (send : Transport → Mail → bool) (body : json)
| QDnsCheck (now : Z) (ip : jsstr) (d : Dns) (domain : option jsstr)
| QShare (now : Z) (cookie : option jsstr) (c : Csrf) (id : jsstr) (body : json) (q : LoginReq)
| QRevokeShare (now : Z) (cookie : option jsstr) (c : Csrf) (id : jsstr) (q : LoginReq)
| QOpenShare (now : Z) (r : Req) (id : jsstr)
| QEmergency (now : Z) (cookie : option jsstr) (c : Csrf) (during : list request) (token : jsstr) (body : json)
| QNoEmergency (now : Z) (cookie : option jsstr) (c : Csrf)
| QAskEmergency (now : Z) (r : Req) (token : jsstr) (q : EmergencyReq)
| QAnswerEmergency (now : Z) (cookie : option jsstr) (c : Csrf) (id : jsstr) (grant : option bool)
| QWipe (now : Z) (cookie : option jsstr) (c : Csrf) (during : list request) (password : option jsstr)
| QClearAudit (now : Z) (cookie : option jsstr) (c : Csrf) (during : list request) (id : jsstr) (r : Req) (password : option jsstr).

(** The requests answered while [r] waits. *)
Definition meanwhile (r : request) : list request :=
  match r with
  | QLogin _ _ during _ | QRegister _ _ during _ | QPassword _ _ _ _ during _ _ _ | QVerifyPassword _ _ _ during _ _
  | QRecoveryKey _ _ _ _ during _ _ | QEmergency _ _ _ during _ _ | QWipe _ _ _ during _ | QClearAudit _ _ _ during _ _ _ => during
  | _ => []
  end.

(** An induction principle that reaches them. *)
Fixpoint request_nested (P : request → Prop) (IH : ∀ r, Forall P (meanwhile r) → P r) (r : request) : P r :=
  let go := fix go rs : Forall P rs :=
    match rs with [] => Forall_nil_2 _ | r :: rs => Forall_cons_2 _ _ _ (request_nested P IH r) (go rs) end in
  IH r match r return Forall P (meanwhile r) with
       | QLogin _ _ during _ | QRegister _ _ during _ | QPassword _ _ _ _ during _ _ _ | QVerifyPassword _ _ _ during _ _
       | QRecoveryKey _ _ _ _ during _ _ | QEmergency _ _ _ during _ _ | QWipe _ _ _ during _ | QClearAudit _ _ _ during _ _ _ => go during
       | _ => Forall_nil_2 _
       end.

(** The session ids a request may draw, with those of the requests during it. *)
Fixpoint draws (r : request) : list jsstr :=
  match r with
  | QFinish _ rnd _ => [rd_jti rnd]
  | QLogin _ rnd during _ | QRegister _ rnd during _ => rd_jti rnd :: concat (map draws during)
  | QPassword _ _ _ _ during _ _ _ | QVerifyPassword _ _ _ during _ _ | QRecoveryKey _ _ _ _ during _ _
  | QEmergency _ _ _ during _ _ | QWipe _ _ _ during _ | QClearAudit _ _ _ during _ _ _ => concat (map draws during)
  | _ => []
  end.

Lemma draws_during r j : j ∈ concat (map draws (meanwhile r)) → j ∈ draws r.
Proof. destruct r; cbn [draws meanwhile map concat]; intros Hj; first [exact Hj | right; exact Hj | by apply not_elem_of_nil in Hj]. Qed.

(** The request, and those during it, change no enforced second factor: the bodies
    of PUT /api/vault/mfa have no [enforce]. *)
Fixpoint no_enforce (r : request) : bool :=
  match r with
  | QMfa _ _ _ body _ => negb (is_object (prop "enforce" body))
  | QLogin _ _ during _ | QRegister _ _ during _ | QPassword _ _ _ _ during _ _ _ | QVerifyPassword _ _ _ during _ _
  | QRecoveryKey _ _ _ _ during _ _ | QEmergency _ _ _ during _ _ | QWipe _ _ _ during _ | QClearAudit _ _ _ during _ _ _ =>
      forallb no_enforce during
  | _ => true
  end.

Lemma no_enforce_during r : no_enforce r = true → forallb no_enforce (meanwhile r) = true.
Proof. by destruct r. Qed.

Section machine.
Context {S : Type} {HS : StateStore S} {SH : ServerHash} {SP : ServerPassword} {TG : TotpGenerator} {JW : Jwe}
        {JC : JsCase} {SE : ServerEnv}.
Implicit Types s : Server S.

Fixpoint handle (r : request) : H S reply :=
  let all rs s := fold_left (λ s r, (run (handle r) s).1) rs s in
  match r with
  | QLogin now rnd during q => login_during now rnd (all during) q
  | QFinish now rnd q => login_finish now rnd q
  | QRegister now rnd during q => register now rnd (all during) q
  | QRevokeOthers now k c => revoke_others now k c
  | QLogout now k c q => logout now k c q
  | QPassword now rnd k c during old new q => change_password now rnd k c (all during) old new q
  | QVerifyPassword now k c during r pw => verify_password now k c (all during) r pw
  | QRecoveryKey now rnd k c during key pw => set_recovery_key now rnd k c (all during) key pw
  | QHints now k c hints => update_hints now k c hints
  | QReadHints now r email => read_hints now r email
  | QSalt now k c salt => crypto_salt now k c salt
  | QFingerprint now k c t => delete_fingerprint now k c t
  | QSendSetup now rnd k c e => send_setup_otp now rnd k c e
  | QVerifySetup now k c code => verify_setup_otp now k c code
  | QPut now k c name limit body => put_blob now k c name limit body
  | QClear now k c name => clear_blob now k c name
  | QArm now k c armed m => put_duress_enforce now k c armed m
  | QDisarm now k c => delete_duress_enforce now k c
  | QMfa now k c body q => put_mfa now k c body q
  | QSmtp now k c lookup body => put_smtp now k c lookup body
  | QNoSmtp now k c => delete_smtp now k c
  | QSmtpCheck now k c d verify env body => r ← smtp_check now k c d verify env body; mret r.1
  | QExpiryMail now k c lookup send body => r ← send_expiry now k c lookup send body; mret r.1
  | QDnsCheck now ip d domain => dns_check now ip d domain
  | QShare now k c id body q => create_share now k c id body q
  | QRevokeShare now k c id q => revoke_share now k c id q
  | QOpenShare now r id => open_share now r id
  | QEmergency now k c during token body => put_emergency now k c (all during) token body
  | QNoEmergency now k c => delete_emergency now k c
  | QAskEmergency now r token q => request_emergency now r token q
  | QAnswerEmergency now k c id g => respond_emergency now k c id g
  | QWipe now k c during pw => wipe now k c (all during) pw
  | QClearAudit now k c during id r pw => clear_audit now k c (all during) id r pw
  end.

Definition run_all (rs : list request) s : Server S := fold_left (λ s r, (run (handle r) s).1) rs s.

Definition accounts_of s : accounts := (users s, sessions s).

(** ** Steps of handlers *)

Section steps.
Context (drawn : jsstr → Prop) (plain : bool).

Definition evolves s s' : Prop := asteps drawn plain (accounts_of s) (accounts_of s').

#[local] Instance evolves_preorder : PreOrder evolves.
Proof. split; [intros s; apply rtc_refl|intros s1 s2 s3 Ha Hb; exact (transitivity (R := rtc (astep drawn plain)) Ha Hb)]. Qed.

Abbreviation ev := (stable evolves).

Lemma ev_quiet f : (∀ s, accounts_of (f s) = accounts_of s) → ev (modify (S := S) f).
Proof. intros Hf. apply stable_modify. intros s. unfold evolves. rewrite Hf. apply rtc_refl. Qed.

Lemma ev_store s st : evolves s (set_store st s).
Proof. apply rtc_refl. Qed.

Lemma ev_audit uid e : ev (appendAuditEvent (S := S) uid e).
Proof. apply ev_quiet. intros s. by destruct (_ <? 5000). Qed.

Lemma ev_update id fn : (∀ u u', fn u = Some u' → user_change plain u u') → ev (update_id (S := S) id fn).
Proof.
  intros Hfn s. unfold update_id. destruct (find_id id s) as [u|] eqn:E; [|apply rtc_refl].
  destruct (fn u) as [u'|] eqn:Ef; [|apply rtc_refl]. apply rtc_once, AUpdate with u; [exact E|by apply Hfn].
Qed.

Lemma ev_insert u : user_ok plain u → ev (insert_user (S := S) u).
Proof.
  intros Hu s. unfold insert_user. destruct (existsb _ _) eqn:E; [apply rtc_refl|]. by apply rtc_once, AInsert.
Qed.

Lemma ev_close {A} uid p (k : H S A) :
  ev k → ev (l ← gets (loadSessions uid); _ ← saveSessions uid (List.filter p l); k).
Proof.
  intros Hk s. unfold mbind, H_bind, gets, saveSessions, modify. etransitivity; [|apply Hk].
  apply rtc_once, AClose.
Qed.

Lemma ev_open now rnd uid q : drawn (rd_jti rnd) → ev (open_session (S := S) now rnd uid q).
Proof.
  intros Hd s. unfold open_session, recordSession, mbind, H_bind, gets, saveSessions, modify, mret, H_ret.
  apply rtc_once. unfold accounts_of. cbn [users sessions set_sessions fst].
  apply (AOpen drawn plain (users s) (sessions s) uid (mkSession (rd_jti rnd) _ _ _ true)); done.
Qed.

Lemma ev_wipe uid : ev (performServerWipe (S := S) uid).
Proof.
  intros s. unfold performServerWipe, mbind, H_bind, delete_id, modify. eapply rtc_l; [apply (AForget _ _ _ _ uid)|].
  apply rtc_once, ADelete.
Qed.

(** ** Changes of users *)

Lemma change_refl u : user_change plain u u.
Proof. done. Qed.
Lemma change_trans u v w : user_change plain u v → user_change plain v w → user_change plain u w.
Proof. intros (? & ? & ?) (? & ? & ?). split_and!; [congruence|congruence|auto]. Qed.

(** A change of other fields. *)
Lemma change_other u u' :
  u_id u' = u_id u → u_emailHash u' = u_emailHash u → u_duressEnforce u' = u_duressEnforce u →
  u_duressFailureCount u' = u_duressFailureCount u → u_fingerprintLog u' = u_fingerprintLog u →
  u_mfaTotp u' = u_mfaTotp u → u_mfaEmail u' = u_mfaEmail u → user_change plain u u'.
Proof. intros ? ? Ed Ec Ef Et Ee. split_and!; [done..|]. intros []. split; rewrite ?Ed, ?Ec, ?Ef, ?Et, ?Ee; done. Qed.

Lemma clamp_pos m : 1 <= clamp_attempts m.
Proof. unfold clamp_attempts. lia. Qed.

Lemma change_duress_reset e u : user_change plain u (set_duress e 0 u).
Proof. split_and!; [done..|]. intros []. split; try done. intros m _. pose proof (clamp_pos m). cbn. lia. Qed.

Lemma change_count fu n fu' : count_duress fu = Remaining n fu' → user_change plain fu fu'.
Proof.
  unfold count_duress. destruct (u_duressEnforce fu) as [m|] eqn:Em; [|done]. cbv zeta.
  destruct (Z.geb_spec (u_duressFailureCount fu + 1) (clamp_attempts m)); [done|]. intros [= _ <-].
  split_and!; [done..|]. intros []. split; try done; cbn; [lia|]. intros m' Hm'. assert (m' = m) as -> by congruence. lia.
Qed.

Lemma change_log q cid now b u : user_change plain u (log_fingerprint q cid now b u).
Proof.
  split_and!; [done..|]. intros [? ? Hl Hi ?].
  destruct (merge_log_ok _ (makeFingerprintLogEntry cid (lq_fp q) (lq_req q) b now) Hl Hi) as (? & ? & _). by split.
Qed.

Lemma change_forget p u : user_change plain u (set_fingerprintLog (List.filter p (u_fingerprintLog u)) u).
Proof.
  split_and!; [done..|]. intros [? ? Hl Hi ?]. pose proof (filter_sublist p (u_fingerprintLog u)) as Hs. split; try done; cbn.
  - apply sublist_length in Hs. unfold len in *. lia.
  - eapply sublist_NoDup; [exact Hi|]. by apply (fmap_sublist fe_id).
Qed.

Lemma change_after_login q cid now snap c h u : user_change plain u (after_login q cid now snap c h u).
Proof.
  unfold after_login. cbv zeta. eapply change_trans; [|apply change_log].
  set (u1 := if c then _ else u). assert (H1 : user_change plain u u1) by (subst u1; destruct c; by apply change_other).
  set (u2 := match h with Some _ => _ | None => u1 end).
  assert (H2 : user_change plain u1 u2) by (subst u2; destruct h; [destruct (decide _)|]; by apply change_other).
  eapply change_trans; [exact H1|]. eapply change_trans; [exact H2|].
  destruct (_ >? 0); [apply change_duress_reset|done].
Qed.

Lemma change_mfa body u : (plain = true → is_object (prop "enforce" body) = false) → user_change plain u (apply_mfa body u).
Proof.
  intros Hp. unfold apply_mfa. split_and!; [done..|]. intros [? ? ? ? Hpl]. split; try done.
  intros Ht. cbn. rewrite (Hp Ht). by apply Hpl.
Qed.

Lemma new_user_ok id h pw salt : user_ok plain (new_user id h pw salt).
Proof. split; cbn; [done|done|done|constructor|done]. Qed.

(** ** Handlers *)

#[local] Hint Resolve ev_store ev_audit ev_wipe change_refl change_log change_duress_reset change_forget change_after_login : core.

Lemma ev_blob uid name v : ev (writeUserBlob (S := S) uid name v).
Proof. by apply ev_quiet. Qed.

Ltac ev_step :=
  lazymatch goal with
  | |- ev (gets (loadSessions _) ≫= _) => first [apply ev_close | stable_step]
  | |- ev (appendAuditEvent _ _) => apply ev_audit
  | |- ev (writeUserBlob _ _ _) => apply ev_blob
  | |- ev (performServerWipe _) => apply ev_wipe
  | |- ev (open_session _ _ _ _) => apply ev_open; solve [auto]
  | |- ev (modify _) => apply ev_quiet; solve [intros ?; reflexivity]
  | |- ev (update_id _ _) =>
      apply ev_update; let Hu := fresh in intros ? ? Hu; injection Hu as <-; solve [auto | by apply change_other]
  | |- ev _ => stable_step
  | |- evolves _ (set_store _ _) => apply ev_store
  | |- PreOrder _ => exact evolves_preorder
  | |- ∀ _, _ => intros; apply ev_store
  end.
Ltac ev_steps := repeat ev_step.

Lemma ev_auth now cookie : ev (requireAuth (S := S) now cookie).
Proof. intros s. unfold requireAuth. destruct (authMiddleware _ _ _); apply rtc_refl. Qed.

Lemma ev_guarded now cookie c : ev (guarded (S := S) now cookie c).
Proof. unfold guarded, requireCsrf. stable_step; [apply ev_auth|]. ev_steps. Qed.

Lemma ev_locked now uid : ev (isMfaLocked (S := S) now uid).
Proof. unfold isMfaLocked. ev_steps. Qed.
Lemma ev_record now uid : ev (recordMfaFailure (S := S) now uid).
Proof. unfold recordMfaFailure. ev_steps. Qed.
Lemma ev_clear uid : ev (clearMfaFailure (S := S) uid).
Proof. unfold clearMfaFailure. ev_steps. Qed.
Lemma ev_authenticate now u pw : ev (authenticate (S := S) now u pw).
Proof. unfold authenticate. ev_steps. Qed.
Lemma ev_rate f : ev (rate (S := S) f).
Proof. unfold rate. ev_steps. Qed.

Lemma ev_with_password now a during pw m k :
  (∀ s, evolves s (during s)) → ev m → (∀ u, ev (k u)) → ev (with_password (S := S) now a during pw m k).
Proof.
  intros Hdur Hm Hk. unfold with_password. ev_steps; auto using ev_locked, ev_clear, ev_record.
Qed.

Lemma ev_duress_failure armed uid : ev (duress_failure (S := S) armed uid).
Proof.
  unfold duress_failure. apply stable_if; [|ev_steps]. intros s. unfold mbind, H_bind, gets. cbn.
  destruct (find_id uid s) as [u|] eqn:Eu; [|apply rtc_refl]. cbn. destruct (count_duress u) as [| |n fu'] eqn:Ec; [apply rtc_refl..|].
  cbn. unfold update_id. rewrite Eu. cbn. apply rtc_once, AUpdate with u; [exact Eu|by apply (change_count _ n)].
Qed.

Lemma ev_failed now q armed uid cid : ev (failed_user (S := S) now q armed uid cid).
Proof. unfold failed_user. ev_steps. apply ev_duress_failure. Qed.

Lemma ev_mail now rnd uid token : ev (mail_login_code (S := S) now rnd uid token).
Proof. unfold mail_login_code, storeEmailOtp, withMfaPendingLock, sendOtpEmail. ev_steps. Qed.

Lemma ev_verified now rnd q cid m u : drawn (rd_jti rnd) → ev (login_verified (S := S) now rnd q cid m u).
Proof. intros Hd. unfold login_verified, issueMfaToken, withMfaPendingLock. ev_steps; auto using ev_locked, ev_mail. Qed.

Lemma ev_login now rnd during q : drawn (rd_jti rnd) → (∀ s, evolves s (during s)) → ev (login_during (S := S) now rnd during q).
Proof.
  intros Hd Hdur. unfold login_during, login_with, login_blocked, login_failed, upgrade_hash.
  ev_steps; auto using ev_authenticate, ev_failed, ev_verified.
Qed.

Lemma ev_consume now token : ev (consumeMfaToken (S := S) now token).
Proof.
  unfold consumeMfaToken, withMfaPendingLock. ev_step; [ev_steps|]. intros s. destruct (take_entry _ _ _). apply rtc_refl.
Qed.

Lemma ev_consume_mail now token : ev (consumeEmailOtp (S := S) now token).
Proof.
  unfold consumeEmailOtp, withMfaPendingLock. ev_step; [ev_steps|]. intros s. destruct (take_entry _ _ _). apply rtc_refl.
Qed.

Lemma ev_totp now secret code : ev (verifyTotpCode (S := S) now secret code).
Proof. intros s. unfold verifyTotpCode. destruct (is_otp_code code); [|apply rtc_refl]. destruct (try_drifts _ _ _ _ _ _). apply rtc_refl. Qed.

Lemma ev_finish now rnd q : drawn (rd_jti rnd) → ev (login_finish (S := S) now rnd q).
Proof.
  intros Hd. unfold login_finish, check_second_factor, check_email_code, mfa_failed.
  ev_steps; auto using ev_consume, ev_consume_mail, ev_totp, ev_locked, ev_record, ev_clear.
Qed.

(** Handlers behind the session and the token. *)
Ltac ev_handler := ev_steps; auto using ev_auth, ev_guarded, ev_locked, ev_record, ev_clear, ev_rate.

Lemma ev_register now rnd during q :
  drawn (rd_jti rnd) → (∀ s, evolves s (during s)) → ev (register (S := S) now rnd during q).
Proof.
  intros Hd Hdur. unfold register. ev_handler; first [by apply stable_modify|apply ev_insert, new_user_ok].
Qed.

Lemma ev_revoke_others now k c : ev (revoke_others (S := S) now k c).
Proof. unfold revoke_others. ev_handler. Qed.

Lemma ev_logout now k c q : ev (logout (S := S) now k c q).
Proof. unfold logout, requireCsrf. ev_handler. Qed.

Lemma ev_password now rnd k c during old new q :
  (∀ s, evolves s (during s)) → ev (change_password (S := S) now rnd k c during old new q).
Proof.
  intros Hdur. unfold change_password, need_string. ev_handler; try by apply stable_modify.
  intros s. apply rtc_once.
  replace (accounts_of (saveSessions (au_id a) [] s).1) with (users s, <[au_id a := List.filter (λ _, false) (default [] (sessions s !! au_id a))]> (sessions s)).
  - apply AClose.
  - unfold accounts_of. cbn. do 2 f_equal. by induction (default [] _).
Qed.

Lemma ev_verify now k c during r pw : (∀ s, evolves s (during s)) → ev (verify_password (S := S) now k c during r pw).
Proof.
  intros Hdur.  unfold verify_password. ev_handler. intros s.
  match goal with |- context [verifyPassword now ?h ?p ?t s] => assert (Hv : ev (verifyPassword (S := S) now h p t)) by ev_steps end.
  specialize (Hv s). by destruct (verifyPassword _ _ _ _ s) as [s' [x|x]].
Qed.

Lemma ev_recovery now rnd k c during key pw :
  (∀ s, evolves s (during s)) → ev (set_recovery_key (S := S) now rnd k c during key pw).
Proof. intros Hdur. unfold set_recovery_key, need_string. ev_handler. Qed.

Lemma ev_fingerprint now k c t : ev (delete_fingerprint (S := S) now k c t).
Proof. unfold delete_fingerprint. ev_handler. apply ev_update. intros u u'. destruct (_ =? _)%nat; [done|]. intros [= <-]. auto. Qed.

Lemma ev_salt now k c salt : ev (crypto_salt (S := S) now k c salt).
Proof.
  unfold crypto_salt, need_string. ev_handler. apply ev_update. intros u u' [= <-].
  destruct (u_cryptoSalt u) as [[|x y]|]; by apply change_other.
Qed.

Lemma ev_mfa now k c body q :
  (plain = true → is_object (prop "enforce" body) = false) → ev (put_mfa (S := S) now k c body q).
Proof.
  intros Hp. unfold put_mfa. ev_handler. apply ev_update. intros u u' [= <-]. by apply change_mfa.
Qed.

Lemma ev_revoke_share now k c id q : ev (revoke_share (S := S) now k c id q).
Proof. unfold revoke_share. ev_handler. apply ev_quiet. intros s. by match goal with |- context [match ?x with _ => _ end] => destruct x end. Qed.

Lemma ev_clear_audit now k c during id r pw : (∀ s, evolves s (during s)) → ev (clear_audit (S := S) now k c during id r pw).
Proof. intros Hdur. unfold clear_audit, saveAuditLog. ev_step; [apply ev_guarded|]. apply ev_with_password; [done| |intros u]; ev_handler. Qed.

Lemma ev_emergency now k c during token body : (∀ s, evolves s (during s)) → ev (put_emergency (S := S) now k c during token body).
Proof.
  intros Hdur.  unfold put_emergency. ev_handler. apply ev_with_password; [done| |intros u]; ev_handler.
Qed.

Lemma ev_wipe_route now k c during pw : (∀ s, evolves s (during s)) → ev (wipe (S := S) now k c during pw).
Proof. intros Hdur. unfold wipe. ev_step; [apply ev_guarded|]. apply ev_with_password; [done| |intros u]; ev_handler. Qed.

(** The handlers that change no user and no session, or a field of one user. *)
Lemma ev_hints now k c hints : ev (update_hints (S := S) now k c hints).
Proof. unfold update_hints. ev_handler. Qed.
Lemma ev_read_hints now r email : ev (read_hints (S := S) now r email).
Proof. unfold read_hints. ev_handler. Qed.
Lemma ev_send_setup now rnd k c e : ev (send_setup_otp (S := S) now rnd k c e).
Proof. unfold send_setup_otp, sendOtpEmail. ev_handler. Qed.
Lemma ev_verify_setup now k c code : ev (verify_setup_otp (S := S) now k c code).
Proof. unfold verify_setup_otp. ev_handler. Qed.
Lemma ev_put now k c name limit body : ev (put_blob (S := S) now k c name limit body).
Proof. unfold put_blob. ev_handler. Qed.
Lemma ev_clear_blob now k c name : ev (clear_blob (S := S) now k c name).
Proof. unfold clear_blob. ev_handler. Qed.
Lemma ev_arm now k c armed m : ev (put_duress_enforce (S := S) now k c armed m).
Proof. unfold put_duress_enforce. ev_handler. Qed.
Lemma ev_disarm now k c : ev (delete_duress_enforce (S := S) now k c).
Proof. unfold delete_duress_enforce. ev_handler. Qed.
Lemma ev_smtp now k c lookup body : ev (put_smtp (S := S) now k c lookup body).
Proof. unfold put_smtp. ev_handler. Qed.
Lemma ev_no_smtp now k c : ev (delete_smtp (S := S) now k c).
Proof. unfold delete_smtp. ev_handler. Qed.
Lemma ev_smtp_check now k c d verify env body : ev (r ← smtp_check (S := S) now k c d verify env body; mret r.1).
Proof. unfold smtp_check. ev_handler. Qed.
Lemma ev_expiry now k c lookup send body : ev (r ← send_expiry (S := S) now k c lookup send body; mret r.1).
Proof. unfold send_expiry. ev_handler. Qed.
Lemma ev_dns now ip d domain : ev (dns_check (S := S) now ip d domain).
Proof. unfold dns_check. ev_handler. Qed.
Lemma ev_share now k c id body q : ev (create_share (S := S) now k c id body q).
Proof. unfold create_share. ev_handler. Qed.
Lemma ev_open_share now r id : ev (open_share (S := S) now r id).
Proof. unfold open_share. ev_handler. Qed.
Lemma ev_no_emergency now k c : ev (delete_emergency (S := S) now k c).
Proof. unfold delete_emergency. ev_handler. Qed.
Lemma ev_ask now r token q : ev (request_emergency (S := S) now r token q).
Proof. unfold request_emergency. ev_handler. Qed.
Lemma ev_answer now k c id g : ev (respond_emergency (S := S) now k c id g).
Proof. unfold respond_emergency. ev_handler. Qed.

Lemma ev_all rs :
  Forall (λ r, ev (handle r)) rs → ∀ s, evolves s (run_all rs s).
Proof.
  induction 1 as [|r rs Hr _ IH]; intros s; [apply rtc_refl|]. cbn [run_all fold_left].
  etransitivity; [|apply IH]. by apply stable_run.
Qed.
End steps.

(** The lemma of each handler. *)
Ltac ev_route Hd Hdur :=
  lazymatch goal with
  | |- stable _ (login_during _ _ _ _) => apply ev_login; [apply Hd; left|exact Hdur]
  | |- stable _ (register _ _ _ _) => apply ev_register; [apply Hd; left|exact Hdur]
  | |- stable _ (login_finish _ _ _) => apply ev_finish, Hd; left
  | |- stable _ (change_password _ _ _ _ _ _ _ _) => exact (ev_password _ _ _ _ _ _ _ _ _ _ Hdur)
  | |- stable _ (verify_password _ _ _ _ _ _) => exact (ev_verify _ _ _ _ _ _ _ _ Hdur)
  | |- stable _ (set_recovery_key _ _ _ _ _ _ _) => exact (ev_recovery _ _ _ _ _ _ _ _ _ Hdur)
  | |- stable _ (clear_audit _ _ _ _ _ _ _) => exact (ev_clear_audit _ _ _ _ _ _ _ _ _ Hdur)
  | |- stable _ (put_emergency _ _ _ _ _ _) => exact (ev_emergency _ _ _ _ _ _ _ _ Hdur)
  | |- stable _ (wipe _ _ _ _ _) => exact (ev_wipe_route _ _ _ _ _ _ _ Hdur)
  | |- stable _ (revoke_others _ _ _) => apply ev_revoke_others
  | |- stable _ (logout _ _ _ _) => apply ev_logout
  | |- stable _ (crypto_salt _ _ _ _) => apply ev_salt
  | |- stable _ (delete_fingerprint _ _ _ _) => apply ev_fingerprint
  | |- stable _ (revoke_share _ _ _ _ _) => apply ev_revoke_share
  | |- stable _ (update_hints _ _ _ _) => apply ev_hints
  | |- stable _ (read_hints _ _ _) => apply ev_read_hints
  | |- stable _ (send_setup_otp _ _ _ _ _) => apply ev_send_setup
  | |- stable _ (verify_setup_otp _ _ _ _) => apply ev_verify_setup
  | |- stable _ (put_blob _ _ _ _ _ _) => apply ev_put
  | |- stable _ (clear_blob _ _ _ _) => apply ev_clear_blob
  | |- stable _ (put_duress_enforce _ _ _ _ _) => apply ev_arm
  | |- stable _ (delete_duress_enforce _ _ _) => apply ev_disarm
  | |- stable _ (put_smtp _ _ _ _ _) => apply ev_smtp
  | |- stable _ (delete_smtp _ _ _) => apply ev_no_smtp
  | |- stable _ (smtp_check _ _ _ _ _ _ _ ≫= _) => apply ev_smtp_check
  | |- stable _ (send_expiry _ _ _ _ _ _ ≫= _) => apply ev_expiry
  | |- stable _ (dns_check _ _ _ _) => apply ev_dns
  | |- stable _ (create_share _ _ _ _ _ _) => apply ev_share
  | |- stable _ (open_share _ _ _) => apply ev_open_share
  | |- stable _ (delete_emergency _ _ _) => apply ev_no_emergency
  | |- stable _ (request_emergency _ _ _ _) => apply ev_ask
  | |- stable _ (respond_emergency _ _ _ _ _) => apply ev_answer
  end.

Lemma during_refines (drawn : jsstr → Prop) plain rs :
  (∀ j, j ∈ concat (map draws rs) → drawn j) → (plain = true → forallb no_enforce rs = true) →
  Forall (λ r, (∀ j, j ∈ draws r → drawn j) → (plain = true → no_enforce r = true) → stable (evolves drawn plain) (handle r)) rs →
  Forall (λ r, stable (evolves drawn plain) (handle r)) rs.
Proof.
  intros Hd Hp Hr. rewrite Forall_forall in *. intros r Hin. apply Hr; [done| |].
  - intros j Hj. apply Hd. apply list_elem_of_In, in_concat. exists (draws r). apply list_elem_of_In in Hin, Hj. split; [by apply in_map|done].
  - intros Ht. specialize (Hp Ht). rewrite forallb_forall in Hp. by apply Hp, list_elem_of_In.
Qed.

(** Every handler is a run of the machine. *)
Lemma handle_refines (drawn : jsstr → Prop) plain r :
  (∀ j, j ∈ draws r → drawn j) → (plain = true → no_enforce r = true) → stable (evolves drawn plain) (handle r).
Proof.
  revert r. refine (request_nested _ _). intros r IH Hd Hp.
  assert (Hdur : ∀ s, evolves drawn plain s (run_all (meanwhile r) s)).
  { apply ev_all, during_refines; [|intros Ht; by apply no_enforce_during, Hp|exact IH]. intros j Hj. by apply Hd, draws_during. }
  destruct r; cbn [handle meanwhile draws] in *; try solve [ev_route Hd Hdur].
  apply ev_mfa. intros Ht. specialize (Hp Ht). cbn in Hp. by destruct (is_object _).
Qed.

(** A sequence of requests is a run of the machine. *)
Lemma run_all_refines (drawn : jsstr → Prop) plain rs s :
  (∀ j, j ∈ concat (map draws rs) → drawn j) → (plain = true → forallb no_enforce rs = true) →
  asteps drawn plain (accounts_of s) (accounts_of (run_all rs s)).
Proof.
  intros Hd Hp. apply (ev_all drawn plain), during_refines; [done..|]. apply Forall_true. intros r. apply handle_refines.
Qed.
End machine.
