(* ===== verification/ServerToy.v ===== *)
(** * A concrete server for witnesses

    Instances of the library parameters that evaluate: hashes that spell their
    input, one-time passwords that spell their period, readable session tokens. *)
From S2P Require Import Prelude JsRuntime JsText Json Base64 FileCrypto StateStore RateLimiter ServerState ServerLogic LoginRoute AccountRoutes.

(** What the session tokens guarantee. *)
Class JweLaws {JW : Jwe} := {
  jwe_open_seal now sub jti exp : now <= exp * 1000 → jwe_open now (jwe_seal sub jti exp) = Some (sub, jti, exp);
  jwe_open_same now now' t x y : jwe_open now t = Some x → jwe_open now' t = Some y → x = y;
}.

Module Toy.
#[export] Instance hash : ServerHash := {| sha256_hex d := js "h" ++ d; hmac_sha256_hex k d := k ++ d |}.

#[export] Instance password : ServerPassword := {|
  argon2_hash p salt := js "$argon2id$" ++ p;
  argon2_verify h p := if starts_with (js "$argon2id$") h then Some (str_eqb h (js "$argon2id$" ++ p)) else None;
  scrypt_hash p salt := p;
  pbkdf2_sha512_1M p salt := p |}.

#[export] Instance totp : TotpGenerator := {| totp_generate secret ts := dec (100000 + ts / 30000 mod 900000) |}.

Definition seal (sub jti : jsstr) (exp : Z) : jsstr := len sub :: len jti :: exp :: sub ++ jti.
Definition open (now : Z) (t : jsstr) : option (jsstr * jsstr * Z) :=
  match t with
  | n :: m :: exp :: r =>
      if (now <=? exp * 1000) && (len r =? n + m) then Some (take (Z.to_nat n) r, drop (Z.to_nat n) r, exp) else None
  | _ => None
  end.

#[export] Instance jwe : Jwe := {| jwe_seal := seal; jwe_open := open |}.

#[export] Instance jwe_laws : JweLaws.
Proof.
  split.
  - intros now sub jti exp He. cbn. rewrite (proj2 (Z.leb_le _ _)), len_app, (proj2 (Z.eqb_eq _ _)) by done. cbn [andb].
    unfold len. rewrite Nat2Z.id, take_app_length, drop_app_length. done.
  - intros now now' t x y. cbn. unfold open. destruct t as [|n [|m [|exp r]]]; try done.
    destruct (_ && _)%bool; [|done]. destruct (_ && _)%bool; [|done]. congruence.
Qed.

#[export] Instance env : ServerEnv := {| zod_email e := includes (js "@") e; MASTER_KEY := js "m"; envSmtp := None;
  env_SHARE_TTL_MS := None; env_SETUP_OTP_MAX_ATTEMPTS := None |}.

Abbreviation server := (Server InMemory.store).

Definition hash_of (p : string) : jsstr := js "$argon2id$" ++ js p.
Definition email : jsstr := js "a@b.c".
Definition email_hash : jsstr := hashEmail MASTER_KEY email.

(** A user with the given flags. *)
Definition user (totp email : bool) (secret : option jsstr) (duress : option Z) : User :=
  mkUser (js "u1") email_hash (Some (hash_of "secret")) None None None None None None None 0 duress 0 [] totp email secret None.

Definition other : User :=
  mkUser (js "u2") (js "x") (Some (hash_of "other")) None None None None None None None 0 None 0 [] false false None None.

Definition start (u : User) : server :=
  mkServer [u; other] ∅ ∅ ∅ ∅ ∅ ∅ {[(js "u1", js "folders") := JNull; (js "u2", js "folders") := JNull]} [] [] ∅ ∅.

Definition req : Req := mkReq (Some (js "203.0.113.5")) None (Some (js "Firefox/128.0 Linux")).
Definition ctx : SessionCtx := mkSessionCtx None (js "2025-01-01") None.
Definition attempt (password : string) : LoginReq := mkLoginReq req email (js password) None ctx JNull (JArr []).
Definition rnd : Rand := mkRand (js "jti1") (js "csrf") (js "aabb") (js "123456") [].
Definition now : Z := 1700000000000.

Definition csrf : Csrf := mkCsrf "POST" (Some (js "c")) (Some (js "c")).
End Toy.
