(* ===== verification/AccountClaims.v ===== *)
(** * Requests of one user leave the others alone

    A request behind [requireAuth] and [requireCsrf] is refused without effect when
    the cookie or the token is not accepted, and otherwise touches what belongs to
    the user of the cookie only. *)
From S2P Require Import Prelude JsRuntime JsText Json Base64 FileCrypto StateStore RateLimiter ServerState ServerLogic SsrfGuard ServerAudit LoginRoute AccountRoutes AccountMachine AccountRefine ServerToy LoginSpec VaultRoutes MailRoutes.

(** The guard of a request: the time, the cookie and the CSRF tokens.  Logout runs
    without a session too. *)
Definition guard_of (r : request) : option (Z * option jsstr * Csrf) :=
  match r with
  | QRevokeOthers now k c | QPassword now _ k c _ _ _ _ | QVerifyPassword now k c _ _ _ | QRecoveryKey now _ k c _ _ _ | QHints now k c _
  | QSalt now k c _ | QFingerprint now k c _ | QSendSetup now _ k c _ | QVerifySetup now k c _ | QPut now k c _ _ _ | QClear now k c _
  | QArm now k c _ _ | QDisarm now k c | QMfa now k c _ _ | QSmtp now k c _ _ | QNoSmtp now k c | QSmtpCheck now k c _ _ _ _
  | QExpiryMail now k c _ _ _ | QShare now k c _ _ _ | QRevokeShare now k c _ _
  | QEmergency now k c _ _ _ | QNoEmergency now k c | QAnswerEmergency now k c _ _ | QWipe now k c _ _ | QClearAudit now k c _ _ _ _ =>
      Some (now, k, c)
  | _ => None
  end.

Section isolation.
Context {S : Type} {HS : StateStore S} {SH : ServerHash} {SP : ServerPassword} {TG : TotpGenerator} {JW : Jwe}
        {JC : JsCase} {SE : ServerEnv}.
Implicit Types s : Server S.

(** The shares: their index names the user whose file it is. *)
Definition shares_indexed s : Prop := ∀ o id, is_Some (shareFiles s !! (o, id)) → shareIndex s !! id = Some o.

(** The id drawn for a share is new. *)
Definition new_share (r : request) s : Prop :=
  match r with QShare _ _ _ id _ _ => shareIndex s !! id = None | _ => True end.

(** *** Refusal *)

(** A handler whose first action is the guard. *)
Definition behind {A} (now : Z) (k : option jsstr) (c : Csrf) (m : H S A) : Prop :=
  ∃ B (f : AuthUser → H S B) (g : B → H S A), m = (guarded now k c ≫= f) ≫= g ∨ ∃ f, m = guarded now k c ≫= f.

Lemma behind_refused {A} now k c (m : H S A) s :
  behind now k c m → authMiddleware now k s = None ∨ csrf_ok c = false →
  m s = (s, Throw match authMiddleware now k s with Some _ => RErr 403 "csrf" | None => RErr 401 "unauthenticated" end).
Proof.
  intros (B & f & g & Hm) Hr. unfold guarded, requireAuth, requireCsrf, stop_if, mbind, H_bind in Hm.
  assert (Hc : authMiddleware now k s = None ∨ (∃ a, authMiddleware now k s = Some a) ∧ csrf_ok c = false).
  { destruct (authMiddleware now k s) as [a|] eqn:E; [right|by left]. destruct Hr; [done|]. eauto. }
  destruct Hm as [->|[f' ->]]; destruct Hc as [->|[[a ->] ->]]; done.
Qed.

Lemma guard_behind r now k c : guard_of r = Some (now, k, c) → behind now k c (handle (S := S) r).
Proof.
  destruct r; try discriminate; cbn [guard_of]; intros [= -> -> ->]; cbn [handle];
    first [ eexists unit, (λ _, mret tt), (λ _, stop ROk); right; eexists; reflexivity | eexists _, _, _; left; reflexivity ].
Qed.

(** *** Isolation *)

Context {HSP : StateStoreSpec S}.

(** The second-factor counters of [k] read the same from [now] on. *)
Definition counters_kept (k : jsstr) (now : Z) (st st' : S) : Prop :=
  ∀ n, now <= n → peek st' n (mfa_fail_key k) = peek st n (mfa_fail_key k) ∧ peek st' n (mfa_lock_key k) = peek st n (mfa_lock_key k).

(** What belongs to [k] is as before, and so are the tokens, codes and periods that no
    request behind the guards may touch. *)
Record untouched (k : jsstr) (now : Z) s s' : Prop := {
  un_user : find_id k s' = find_id k s;
  un_sessions : sessions s' !! k = sessions s !! k;
  un_blobs name : blobs s' !! (k, name) = blobs s !! (k, name);
  un_files id : shareFiles s' !! (k, id) = shareFiles s !! (k, id);
  un_index id : shareIndex s' !! id = Some k ↔ shareIndex s !! id = Some k;
  un_setup : setupOtps s' !! k = setupOtps s !! k;
  un_tokens : tokens s' = tokens s;
  un_codes : emailOtps s' = emailOtps s;
  un_totp : usedTotp s' = usedTotp s;
  un_events : List.filter (λ e, str_eqb e.1 k) (auditQueue s') = List.filter (λ e, str_eqb e.1 k) (auditQueue s);
  un_counters : counters_kept k now (store s) (store s');
}.

(** ... but for what other requests, answered in between, do. *)
Definition apart (k : jsstr) (now : Z) (during : Server S → Server S) : Server S → Server S → Prop :=
  rtc (λ s s', untouched k now s s' ∨ s' = during s).

#[local] Instance counters_preorder k now : PreOrder (counters_kept k now).
Proof.
  split; [by intros st n Hn|]. intros s1 s2 s3 H1 H2 n Hn. destruct (H1 n Hn) as [E1 E2]. destruct (H2 n Hn) as [-> ->]. done.
Qed.

#[local] Instance untouched_preorder k now : PreOrder (untouched k now).
Proof.
  split; [intros s; by split|]. intros s1 s2 s3 [A1 A2 A3 A4 A5 A6 A7 A8 A9 A10 A11] [B1 B2 B3 B4 B5 B6 B7 B8 B9 B10 B11].
  split; [congruence|congruence|intros x; by rewrite B3|intros x; by rewrite B4|intros x; by rewrite B5|congruence..|by etransitivity].
Qed.

#[local] Instance apart_preorder k now during : PreOrder (apart k now during).
Proof. split; [intros s; apply rtc_refl|intros s1 s2 s3 Ha Hb; exact (transitivity (R := rtc _) Ha Hb)]. Qed.

(** Without other requests nothing is touched. *)
Lemma apart_alone k now s s' : apart k now (run_all []) s s' → untouched k now s s'.
Proof. induction 1 as [s|s1 s2 s3 [Hu| ->] _ IH]; [reflexivity|by etransitivity|exact IH]. Qed.

(** *** The store *)

Ltac key_ne := let He := fresh in intros He; apply (f_equal (λ l, (l !! 0%nat, l !! 4%nat))) in He; vm_compute in He; discriminate He.

Lemma kept_other k now (st st' : S) :
  (∀ n k', now <= n → k' = mfa_fail_key k ∨ k' = mfa_lock_key k → peek st' n k' = peek st n k') → counters_kept k now st st'.
Proof. intros Hk n Hn. split; apply Hk; auto. Qed.

Lemma kept_get k now key (st : S) : counters_kept k now st (store_get now key st).1.
Proof. apply kept_other. intros n k' Hn _. by apply get_spec. Qed.

Lemma kept_rate k now key max window (st : S) :
  key ≠ mfa_fail_key k → key ≠ mfa_lock_key k → counters_kept k now st (check_rate key max window now st).1.
Proof.
  intros H1 H2. unfold check_rate. destruct (store_incrExpire now key window st) as [st' n0] eqn:E. cbn [fst].
  apply kept_other. intros n k' Hn Hk. replace st' with (store_incrExpire now key window st).1 by (by rewrite E).
  apply incr_frame; [|done]. destruct Hk as [-> | ->]; congruence.
Qed.

Lemma kept_del k now key (st : S) : key ≠ mfa_fail_key k → key ≠ mfa_lock_key k → counters_kept k now st (store_del key st).
Proof. intros H1 H2. apply kept_other. intros n k' Hn Hk. apply del_spec. destruct Hk as [-> | ->]; congruence. Qed.

Lemma mfa_keys_differ uid k : uid ≠ k →
  mfa_fail_key uid ≠ mfa_fail_key k ∧ mfa_fail_key uid ≠ mfa_lock_key k ∧ mfa_lock_key uid ≠ mfa_fail_key k ∧ mfa_lock_key uid ≠ mfa_lock_key k.
Proof. intros Hne. split_and!; try (intros E; by apply app_inv_head in E); key_ne. Qed.

Section other.
Context (k : jsstr) (now : Z) (Hnow : 0 <= now) (during : Server S → Server S).

Abbreviation iso := (stable (apart k now during)).

Lemma touched s s' : untouched k now s s' → apart k now during s s'.
Proof. intros Hu. apply rtc_once. by left. Qed.

Lemma iso_modify f : (∀ s, untouched k now s (f s)) → iso (modify (S := S) f).
Proof. intros Hf s. apply touched, Hf. Qed.

Lemma iso_during : iso (modify (S := S) during).
Proof. intros s. apply rtc_once. by right. Qed.

Lemma untouched_store s st : counters_kept k now (store s) st → untouched k now s (set_store st s).
Proof. intros Hk. by split. Qed.

Lemma iso_on_store {A} (f : S → S * A) : (∀ st, counters_kept k now st (f st).1) → iso (on_store f).
Proof.
  intros Hf s. unfold on_store. pose proof (Hf (store s)) as Hk. destruct (f (store s)) as [st a].
  by apply touched, untouched_store.
Qed.

Lemma iso_on_store_ f : (∀ st, counters_kept k now st (f st)) → iso (on_store_ (S := S) f).
Proof. intros Hf s. by apply touched, untouched_store. Qed.

Lemma iso_gate {A} (m : H S A) : iso m → iso (argon2_gate now m).
Proof.
  intros Hm. unfold argon2_gate. apply stable_bind; [typeclasses eauto| |].
  { apply iso_on_store. intros st. apply kept_other. intros n k' Hn Hk. apply incr_frame; [|done]. destruct Hk as [-> | ->]; key_ne. }
  assert (Hd : ∀ st : S, counters_kept k now st (store_decr now (js "argon2:active") st).1).
  { intros st. apply kept_other. intros n k' Hn Hk. apply decr_frame; [|done]. destruct Hk as [-> | ->]; key_ne. }
  intros count. apply stable_if.
  - apply stable_bind; [typeclasses eauto|by apply iso_on_store|]. intros ?. apply stable_stop; typeclasses eauto.
  - intros s. specialize (Hm s). destruct (m s) as [s' r]. specialize (Hd (store s')). destruct (store_decr _ _ _) as [st x].
    cbn [fst] in *. etransitivity; [exact Hm|]. by apply touched, untouched_store.
Qed.

(** *** Operations on what another user has *)

Lemma filter_event uid e l : uid ≠ k → List.filter (λ x : jsstr * json, str_eqb x.1 k) (l ++ [(uid, e)]) = List.filter (λ x, str_eqb x.1 k) l.
Proof.
  intros Hne. rewrite List.filter_app. cbn. destruct (str_eqb uid k) eqn:E; [by apply str_eqb_eq in E|]. apply app_nil_r.
Qed.

Lemma un_audit uid e s : uid ≠ k → untouched k now s (appendAuditEvent uid e s).1.
Proof.
  intros Hne. unfold appendAuditEvent, modify. cbn [fst]. destruct (_ <? 5000); [|reflexivity]. split; try done. by apply filter_event.
Qed.

Lemma iso_audit uid e : uid ≠ k → iso (appendAuditEvent (S := S) uid e).
Proof. intros Hne s. by apply touched, un_audit. Qed.

Lemma iso_blob uid name v : uid ≠ k → iso (writeUserBlob (S := S) uid name v).
Proof. intros Hne. apply iso_modify. intros s. split; try done. intros n. cbn. by rewrite lookup_insert_ne by congruence. Qed.

Lemma iso_update uid fn :
  uid ≠ k → (∀ u u', fn u = Some u' → u_id u' = u_id u) → iso (update_id (S := S) uid fn).
Proof.
  intros Hne Hfn s. unfold update_id. destruct (find_id uid s) as [u|] eqn:E; [|reflexivity].
  destruct (fn u) as [u'|] eqn:Ef; [|reflexivity]. apply touched.
  split; try done. cbn. apply find_update_other; [done|]. apply find_id_id in E as [E _]. by rewrite (Hfn u u' Ef), E.
Qed.

Lemma find_remove_other uid us : uid ≠ k → List.find (by_id k) (remove_first (by_id uid) us) = List.find (by_id k) us.
Proof.
  intros Hne. induction us as [|u us IH]; [done|]. cbn [remove_first List.find]. destruct (by_id uid u) eqn:E.
  - apply by_id_eq in E. destruct (by_id k u) eqn:E'; [apply by_id_eq in E'; congruence|done].
  - cbn [List.find]. by rewrite IH.
Qed.

Lemma filter_other {V} (m : gmap (jsstr * jsstr) V) uid x : uid ≠ k → filter (λ kv, kv.1.1 ≠ uid) m !! (k, x) = m !! (k, x).
Proof.
  intros Hne. destruct (m !! (k, x)) as [v|] eqn:E; [by apply map_lookup_filter_Some|]. apply map_lookup_filter_None_2. by left.
Qed.

Lemma iso_wipe uid : uid ≠ k → iso (performServerWipe (S := S) uid).
Proof.
  intros Hne s. apply touched. unfold performServerWipe, mbind, H_bind, modify, delete_id. split; try done; cbn.
  - by apply find_remove_other.
  - by rewrite lookup_delete_ne.
  - intros x. by apply filter_other.
  - intros x. by apply filter_other.
Qed.

Lemma iso_sessions uid l : uid ≠ k → iso (saveSessions (S := S) uid l).
Proof. intros Hne. apply iso_modify. intros s. split; try done. cbn. by rewrite lookup_insert_ne. Qed.

Lemma iso_setup uid e : uid ≠ k → iso (modify (S := S) (λ s, set_setupOtps (<[uid := e]> (setupOtps s)) s)).
Proof. intros Hne. apply iso_modify. intros s. split; try done. cbn. by rewrite lookup_insert_ne. Qed.
Lemma iso_unset uid : uid ≠ k → iso (modify (S := S) (λ s, set_setupOtps (delete uid (setupOtps s)) s)).
Proof. intros Hne. apply iso_modify. intros s. split; try done. cbn. by rewrite lookup_delete_ne. Qed.
Lemma iso_unblob uid name : uid ≠ k → iso (modify (S := S) (λ s, set_blobs (delete (uid, name) (blobs s)) s)).
Proof. intros Hne. apply iso_modify. intros s. split; try done. intros x. cbn. by rewrite lookup_delete_ne by congruence. Qed.
Lemma iso_outbox x : iso (modify (S := S) (λ s, set_outbox (outbox s ++ [x]) s)).
Proof. apply iso_modify. intros s. by split. Qed.

(** What reads the user of the session knows its id. *)
Lemma iso_find {A} uid (f : option User → H S A) :
  iso (f None) → (∀ u, u_id u = uid → iso (f (Some u))) → iso (gets (find_id uid) ≫= f).
Proof.
  intros Hn Hs s. unfold mbind, H_bind, gets. destruct (find_id uid s) as [u|] eqn:E; [|apply Hn].
  apply Hs. by apply find_id_id in E as [E _].
Qed.

Lemma iso_locked uid : iso (isMfaLocked (S := S) now uid).
Proof.
  unfold isMfaLocked. apply stable_bind; [typeclasses eauto| |intros v; apply stable_ret; typeclasses eauto].
  apply iso_on_store. intros st. apply kept_get.
Qed.

Lemma iso_clear uid : uid ≠ k → iso (clearMfaFailure (S := S) uid).
Proof.
  intros Hne. destruct (mfa_keys_differ uid k Hne) as (? & ? & ? & ?). unfold clearMfaFailure.
  apply stable_bind; [typeclasses eauto| |intros _]; apply iso_on_store_; intros st; by apply kept_del.
Qed.

Lemma iso_record uid : uid ≠ k → iso (recordMfaFailure (S := S) now uid).
Proof.
  intros Hne. destruct (mfa_keys_differ uid k Hne) as (? & ? & ? & ?). unfold recordMfaFailure.
  apply stable_bind; [typeclasses eauto| |intros count; apply stable_if].
  - apply iso_on_store. intros st. apply kept_other. intros n k' Hn Hk. apply incr_frame; [|done]. destruct Hk as [-> | ->]; congruence.
  - apply stable_bind; [typeclasses eauto| |intros _]; apply iso_on_store_; intros st; [|by apply kept_del].
    apply kept_other. intros n k' Hn Hk. apply set_spec; [done|done|]. destruct Hk as [-> | ->]; congruence.
  - apply stable_ret; typeclasses eauto.
Qed.

Lemma iso_rate key max window :
  key ≠ mfa_fail_key k → key ≠ mfa_lock_key k → iso (rate (S := S) (check_rate key max window now)).
Proof.
  intros H1 H2. apply iso_on_store. intros st. pose proof (kept_rate k now key max window st H1 H2) as Hk.
  by destruct (check_rate key max window now st) as [st' [ok hd]].
Qed.

Lemma iso_reset h : iso (on_store_ (S := S) (resetAccountFailures h)).
Proof. apply iso_on_store_. intros st. apply kept_del; key_ne. Qed.
Lemma iso_reset_fp h : iso (on_store_ (S := S) (resetFingerprintFailures h)).
Proof. apply iso_on_store_. intros st. apply kept_del; key_ne. Qed.

Ltac not_k := solve [auto | congruence].

Ltac iso_step :=
  lazymatch goal with
  | |- iso (gets (find_id _) ≫= _) => apply iso_find; [|intros ? ?]
  | |- iso (appendAuditEvent _ _) => apply iso_audit; not_k
  | |- iso (writeUserBlob _ _ _) => apply iso_blob; not_k
  | |- iso (performServerWipe _) => apply iso_wipe; not_k
  | |- iso (saveSessions _ _) => apply iso_sessions; not_k
  | |- iso (update_id _ _) => apply iso_update; [not_k|let Hu := fresh in intros ? ? Hu; injection Hu as <-; solve [done]]
  | |- iso (modify _) => first [apply iso_during | apply iso_setup; not_k | apply iso_unset; not_k | apply iso_outbox | apply iso_unblob; not_k]
  | |- iso (verifyPassword _ _ _ _) => apply iso_gate
  | |- iso (hashPassword _ _ _) => apply iso_gate
  | |- iso (isMfaLocked _ _) => apply iso_locked
  | |- iso (clearMfaFailure _) => apply iso_clear; not_k
  | |- iso (recordMfaFailure _ _) => apply iso_record; not_k
  | |- iso (rate (checkLoginRate _ _)) => apply iso_rate; key_ne
  | |- iso (rate (checkShareCreateRate _ _)) => apply iso_rate; key_ne
  | |- iso (on_store_ (resetAccountFailures _)) => apply iso_reset
  | |- iso (on_store_ (resetFingerprintFailures _)) => apply iso_reset_fp
  | |- iso _ => stable_step
  | |- PreOrder _ => exact (apart_preorder k now during)
  end.
Ltac iso_steps := repeat iso_step.

(** A guarded handler is isolated when what follows the guard is. *)
Definition isolated {A} (cookie : option jsstr) (m : H S A) : Prop :=
  ∀ s, (∀ a, authMiddleware now cookie s = Some a → au_id a ≠ k) → apart k now during s (m s).1.

Lemma isolated_guarded {A} cookie c (f : AuthUser → H S A) :
  (∀ a, au_id a ≠ k → iso (f a)) → isolated cookie (guarded now cookie c ≫= f).
Proof.
  intros Hf s Hs. unfold guarded, requireAuth, requireCsrf, stop_if, mbind, H_bind.
  destruct (authMiddleware now cookie s) as [a|]; [|reflexivity]. destruct (negb _); [reflexivity|]. by apply Hf, Hs.
Qed.

Lemma isolated_then {A B} cookie (m : H S A) (g : A → H S B) :
  isolated cookie m → (∀ x, iso (g x)) → isolated cookie (m ≫= g).
Proof.
  intros Hm Hg s Hs. specialize (Hm s Hs). unfold mbind, H_bind. destruct (m s) as [s' [x|r]]; [|done].
  etransitivity; [exact Hm|apply Hg].
Qed.

Lemma iso_with_password a pw m f :
  au_id a ≠ k → iso m → (∀ u, u_id u = au_id a → iso (f u)) → iso (with_password (S := S) now a during pw m f).
Proof. intros Ha Hm Hf. unfold with_password. iso_steps; auto. Qed.

Ltac iso_handler := apply isolated_guarded; intros a Ha; iso_steps.

Lemma isolated_revoke_others ck c : isolated ck (revoke_others (S := S) now ck c).
Proof. unfold revoke_others. iso_handler. Qed.
Lemma isolated_verify_password ck c r pw : isolated ck (verify_password (S := S) now ck c during r pw).
Proof.
  unfold verify_password. iso_handler. intros s.
  match goal with |- context [verifyPassword now ?h ?p ?t s] => assert (Hv : iso (verifyPassword (S := S) now h p t)) by iso_steps end.
  specialize (Hv s). by destruct (verifyPassword _ _ _ _ s) as [s' [x|x]].
Qed.
Lemma isolated_update_hints ck c hints : isolated ck (update_hints (S := S) now ck c hints).
Proof. unfold update_hints. iso_handler. Qed.
Lemma isolated_crypto_salt ck c salt : isolated ck (crypto_salt (S := S) now ck c salt).
Proof.
  unfold crypto_salt, need_string. iso_handler. apply iso_update; [done|]. intros u u' [= <-]. by destruct (u_cryptoSalt u) as [[|x y]|].
Qed.
Lemma isolated_delete_fingerprint ck c t : isolated ck (delete_fingerprint (S := S) now ck c t).
Proof.
  unfold delete_fingerprint. iso_handler. apply iso_update; [done|]. intros u u'. destruct (_ =? _)%nat; [done|]. by intros [= <-].
Qed.
Lemma isolated_send_setup_otp rnd ck c e : isolated ck (send_setup_otp (S := S) now rnd ck c e).
Proof. unfold send_setup_otp, sendOtpEmail. iso_handler. Qed.
Lemma isolated_verify_setup_otp ck c code : isolated ck (verify_setup_otp (S := S) now ck c code).
Proof. unfold verify_setup_otp. iso_handler. Qed.
Lemma isolated_put_blob ck c name limit body : isolated ck (put_blob (S := S) now ck c name limit body).
Proof. unfold put_blob. iso_handler. Qed.
Lemma isolated_clear_blob ck c name : isolated ck (clear_blob (S := S) now ck c name).
Proof. unfold clear_blob. iso_handler. Qed.
Lemma isolated_put_duress_enforce ck c armed m : isolated ck (put_duress_enforce (S := S) now ck c armed m).
Proof. unfold put_duress_enforce. iso_handler. Qed.
Lemma isolated_delete_duress_enforce ck c : isolated ck (delete_duress_enforce (S := S) now ck c).
Proof. unfold delete_duress_enforce. iso_handler. Qed.
Lemma isolated_put_mfa ck c body q : isolated ck (put_mfa (S := S) now ck c body q).
Proof. unfold put_mfa. iso_handler. Qed.
Lemma isolated_put_smtp ck c lookup body : isolated ck (put_smtp (S := S) now ck c lookup body).
Proof. unfold put_smtp. iso_handler. Qed.
Lemma isolated_delete_smtp ck c : isolated ck (delete_smtp (S := S) now ck c).
Proof. unfold delete_smtp. iso_handler. Qed.
Lemma isolated_smtp_check ck c d verify env body :
  isolated ck (r ← smtp_check (S := S) now ck c d verify env body; mret r.1).
Proof. apply isolated_then; [|intros x; iso_steps]. unfold smtp_check. iso_handler. Qed.
Lemma isolated_send_expiry ck c lookup send body :
  isolated ck (r ← send_expiry (S := S) now ck c lookup send body; mret r.1).
Proof. apply isolated_then; [|intros x; iso_steps]. unfold send_expiry. iso_handler. Qed.
Lemma isolated_put_emergency ck c token body : isolated ck (put_emergency (S := S) now ck c during token body).
Proof. unfold put_emergency. iso_handler. apply iso_with_password; [done| |intros u Hu]; iso_steps. Qed.
Lemma isolated_delete_emergency ck c : isolated ck (delete_emergency (S := S) now ck c).
Proof. unfold delete_emergency. iso_handler. Qed.
Lemma isolated_respond_emergency ck c id g : isolated ck (respond_emergency (S := S) now ck c id g).
Proof. unfold respond_emergency. iso_handler. Qed.
Lemma isolated_wipe ck c pw : isolated ck (wipe (S := S) now ck c during pw).
Proof. unfold wipe. iso_handler. apply iso_with_password; [done| |intros u Hu]; iso_steps. Qed.
Lemma isolated_clear_audit ck c id r pw : isolated ck (clear_audit (S := S) now ck c during id r pw).
Proof. unfold clear_audit, saveAuditLog. iso_handler. apply iso_with_password; [done| |intros u Hu]; iso_steps. Qed.
Lemma isolated_change_password rnd ck c old new q : isolated ck (change_password (S := S) now rnd ck c during old new q).
Proof. unfold change_password, need_string. iso_handler. Qed.
Lemma isolated_set_recovery_key rnd ck c key pw : isolated ck (set_recovery_key (S := S) now rnd ck c during key pw).
Proof. unfold set_recovery_key, need_string. iso_handler. Qed.

(** The routes of shares, whose ids are one space for all users. *)
Lemma isolated_share ck c id body q s :
  shareIndex s !! id = None → (∀ a, authMiddleware now ck s = Some a → au_id a ≠ k) →
  apart k now during s (create_share now ck c id body q s).1.
Proof.
  intros Hid Ha. apply touched. unfold create_share, guarded, requireAuth, requireCsrf, stop_if, rate, on_store, mbind, H_bind.
  destruct (authMiddleware now ck s) as [a|]; [|reflexivity]. specialize (Ha a eq_refl). destruct (negb (csrf_ok c)); [reflexivity|]. cbn [mret H_ret].
  pose proof (kept_rate k now (js "rl:sharecreate:" ++ au_id a) SHARE_CREATE_MAX_PER_WINDOW SHARE_CREATE_WINDOW_MS (store s)
    ltac:(key_ne) ltac:(key_ne)) as Hk. fold (checkShareCreateRate (au_id a) now (store s)) in Hk.
  unfold checkShareCreateRate in *. destruct (check_rate _ _ _ _ _) as [st [ok hd]]. cbn [fst] in Hk.
  pose proof (untouched_store s st Hk) as Hst. destruct ok; [|exact Hst]. cbn [negb].
  destruct (as_string (prop "encryptedBlob" body)) as [[|b0 blob]|]; [exact Hst| |exact Hst].
  destruct (as_string (prop "iv" body)) as [[|i0 iv]|]; [exact Hst| |exact Hst].
  etransitivity; [exact Hst|]. unfold modify at 1 2.
  match goal with |- context [appendAuditEvent ?u ?e ?s2] => pose proof (un_audit u e s2 Ha) as Hau; destruct (appendAuditEvent u e s2) as [s3 [x|x]] end;
    cbn [fst mret H_ret] in *; (etransitivity; [|exact Hau]); split; try done; cbn.
  all: intros x'; try (by rewrite lookup_insert_ne by congruence).
  all: destruct (decide (x' = id)) as [->|Hne]; [rewrite lookup_insert_eq, Hid; split; congruence|by rewrite lookup_insert_ne].
Qed.

Lemma isolated_revoke ck c id q s :
  shares_indexed s → (∀ a, authMiddleware now ck s = Some a → au_id a ≠ k) → apart k now during s (revoke_share now ck c id q s).1.
Proof.
  intros Hs Ha. apply touched. unfold revoke_share, guarded, requireAuth, requireCsrf, stop_if, gets, mbind, H_bind.
  destruct (authMiddleware now ck s) as [a|]; [|reflexivity]. specialize (Ha a eq_refl). destruct (negb (csrf_ok c)); [reflexivity|]. cbn [mret H_ret].
  destruct (negb (is_share_id id)); [reflexivity|]. unfold modify at 1.
  match goal with |- context [appendAuditEvent ?u ?e ?s2] => pose proof (un_audit u e s2 Ha) as Hau; destruct (appendAuditEvent u e s2) as [s3 [x|x]] end;
    cbn [fst mret H_ret] in *; (etransitivity; [|exact Hau]); (destruct (shareFiles s !! (au_id a, id)) as [r|] eqn:Er; [|reflexivity]);
    (split; try done; cbn; intros x'; try (by rewrite lookup_delete_ne by congruence)).
  all: destruct (decide (x' = id)) as [->|Hne]; [rewrite lookup_delete_eq, (Hs (au_id a) id) by (by rewrite Er); split; congruence|by rewrite lookup_delete_ne].
Qed.
End other.

(** The lemma of each handler. *)
Ltac iso_route :=
  lazymatch goal with
  | |- isolated _ _ _ _ (revoke_others _ _ _) => apply isolated_revoke_others
  | |- isolated _ _ _ _ (verify_password _ _ _ _ _ _) => apply isolated_verify_password
  | |- isolated _ _ _ _ (update_hints _ _ _ _) => apply isolated_update_hints
  | |- isolated _ _ _ _ (crypto_salt _ _ _ _) => apply isolated_crypto_salt
  | |- isolated _ _ _ _ (delete_fingerprint _ _ _ _) => apply isolated_delete_fingerprint
  | |- isolated _ _ _ _ (send_setup_otp _ _ _ _ _) => apply isolated_send_setup_otp
  | |- isolated _ _ _ _ (verify_setup_otp _ _ _ _) => apply isolated_verify_setup_otp
  | |- isolated _ _ _ _ (put_blob _ _ _ _ _ _) => apply isolated_put_blob
  | |- isolated _ _ _ _ (clear_blob _ _ _ _) => apply isolated_clear_blob
  | |- isolated _ _ _ _ (put_duress_enforce _ _ _ _ _) => apply isolated_put_duress_enforce
  | |- isolated _ _ _ _ (delete_duress_enforce _ _ _) => apply isolated_delete_duress_enforce
  | |- isolated _ _ _ _ (put_mfa _ _ _ _ _) => apply isolated_put_mfa
  | |- isolated _ _ _ _ (put_smtp _ _ _ _ _) => apply isolated_put_smtp
  | |- isolated _ _ _ _ (delete_smtp _ _ _) => apply isolated_delete_smtp
  | |- isolated _ _ _ _ (smtp_check _ _ _ _ _ _ _ ≫= _) => apply isolated_smtp_check
  | |- isolated _ _ _ _ (send_expiry _ _ _ _ _ _ ≫= _) => apply isolated_send_expiry
  | |- isolated _ _ _ _ (put_emergency _ _ _ _ _ _) => apply isolated_put_emergency
  | |- isolated _ _ _ _ (delete_emergency _ _ _) => apply isolated_delete_emergency
  | |- isolated _ _ _ _ (respond_emergency _ _ _ _ _) => apply isolated_respond_emergency
  | |- isolated _ _ _ _ (wipe _ _ _ _ _) => apply isolated_wipe
  | |- isolated _ _ _ _ (clear_audit _ _ _ _ _ _ _) => apply isolated_clear_audit
  | |- isolated _ _ _ _ (change_password _ _ _ _ _ _ _ _) => apply isolated_change_password
  | |- isolated _ _ _ _ (set_recovery_key _ _ _ _ _ _ _) => apply isolated_set_recovery_key
  end; assumption.

Lemma guarded_isolated r k now ck c s :
  guard_of r = Some (now, ck, c) → 0 <= now → shares_indexed s → new_share r s →
  (∀ a, authMiddleware now ck s = Some a → au_id a ≠ k) → apart k now (run_all (meanwhile r)) s (handle r s).1.
Proof.
  intros Hg Hn Hs Hid Ha. destruct r; try discriminate Hg; cbn [guard_of] in Hg; injection Hg as -> -> ->; cbn [handle meanwhile new_share] in *;
    first [by apply isolated_share | by apply isolated_revoke | revert s Hs Hid Ha; intros s _ _; revert s;
      match goal with |- ∀ s, _ → apart ?k ?now ?d s (?m s).1 => change (isolated k now d ck m) end; iso_route].
Qed.
End isolation.

(** * What the account machine gives the server *)

Section revocation.
Context {S : Type} {HS : StateStore S} {SH : ServerHash} {SP : ServerPassword} {TG : TotpGenerator} {JW : Jwe}
        {JL : JweLaws} {JC : JsCase} {SE : ServerEnv}.
Implicit Types s : Server S.

(** The server before the first registration. *)
Definition fresh_server (st : S) : Server S := mkServer [] ∅ st ∅ ∅ ∅ ∅ ∅ [] [] ∅ ∅.

Lemma fresh_ok plain st : accounts_ok plain (accounts_of (fresh_server st)).
Proof. split; cbn; [constructor|constructor|apply map_Forall_empty]. Qed.

(** Sequences of requests lead to well-formed accounts. *)
Lemma run_all_ok rs st : accounts_ok (forallb no_enforce rs) (accounts_of (run_all rs (fresh_server st))).
Proof.
  eapply asteps_ok; [|apply fresh_ok]. apply (run_all_refines (λ j, j ∈ concat (map draws rs))); [intros j Hj; exact Hj|done].
Qed.

(** What an accepted cookie says. *)
Lemma auth_inv now tok s a :
  authMiddleware now (Some tok) s = Some a → ∃ e, jwe_open now tok = Some (au_id a, au_jti a, e).
Proof.
  unfold authMiddleware. cbn. destruct (str_empty tok); [done|]. destruct (jwe_open now tok) as [[[sub jti] e]|]; [|done].
  cbn. destruct (find_id sub s) as [u|] eqn:Eu; [|done]. cbn. destruct (existsb _ _); [|done]. intros [= <-]. cbn.
  apply find_id_id in Eu as [-> _]. by exists e.
Qed.

(** The cookie of a session that is gone is refused. *)
Lemma gone_refused now now' tok uid jti e s :
  jwe_open now tok = Some (uid, jti, e) → gone uid jti (accounts_of s) → authMiddleware now' (Some tok) s = None.
Proof.
  intros Ho Hg. unfold authMiddleware. cbn. destruct (str_empty tok); [done|].
  destruct (jwe_open now' tok) as [[[sub j] x]|] eqn:E; [|done]. pose proof (jwe_open_same _ _ _ _ _ Ho E) as [= <- <- <-].
  cbn. destruct (find_id uid s) as [u|] eqn:Eu; [|done]. cbn. apply find_id_id in Eu as [-> _].
  destruct (existsb _ _) eqn:Ex; [|done]. apply existsb_exists in Ex as (y & Hin & Hy). apply str_eqb_eq in Hy.
  unfold gone in Hg. rewrite Forall_forall in Hg. destruct (Hg y); [by apply list_elem_of_In|done].
Qed.

(** ... and stays refused while the id is not drawn again. *)
Lemma gone_refused_after now now' tok uid jti e rs s :
  jwe_open now tok = Some (uid, jti, e) → gone uid jti (accounts_of s) → jti ∉ concat (map draws rs) →
  authMiddleware now' (Some tok) (run_all rs s) = None.
Proof.
  intros Ho Hg Hd. eapply gone_refused; [exact Ho|]. revert Hg.
  apply (asteps_gone (λ j, j ∈ concat (map draws rs)) false _ _ _ _ Hd). by apply run_all_refines.
Qed.

Lemma gone_filter uid jti p us l ss :
  (∀ x, p x = true → s_jti x ≠ jti) → gone uid jti (us, <[uid := List.filter p l]> ss).
Proof.
  intros Hp. unfold gone. cbn [snd]. rewrite lookup_insert_eq. cbn. rewrite Forall_forall. intros x Hx.
  apply list_elem_of_In, filter_In in Hx as [_ Hx]. by apply Hp.
Qed.


(** The three ways to end sessions. *)
Lemma logout_gone now tok c q s a :
  authMiddleware now (Some tok) s = Some a → csrf_ok c = true → gone (au_id a) (au_jti a) (accounts_of (run (logout now (Some tok) c q) s).1).
Proof.
  intros Ha Hc. apply (wp_run (logout now (Some tok) c q) (λ _ s', gone (au_id a) (au_jti a) (accounts_of s'))).
  unfold logout, requireCsrf. wp_step. wp_step. rewrite Ha, Hc. wp_step. wp_step; [done|]. wp_steps.
  match goal with |- context [if ?b then _ else _] => destruct b end; refine (gone_filter _ _ _ _ _ _ _); intros x Hx Hj;
    by rewrite (proj2 (str_eqb_eq _ _) Hj) in Hx.
Qed.

Lemma revoke_others_gone now tok c s a jti :
  authMiddleware now (Some tok) s = Some a → csrf_ok c = true → jti ≠ au_jti a →
  gone (au_id a) jti (accounts_of (run (revoke_others now (Some tok) c) s).1).
Proof.
  intros Ha Hc Hj. apply (wp_run (revoke_others now (Some tok) c) (λ _ s', gone (au_id a) jti (accounts_of s'))).
  unfold revoke_others, guarded, requireCsrf. wp_step. wp_step. unfold wp at 1, requireAuth. rewrite Ha. rewrite Hc.
  wp_step. wp_step; [done|]. wp_step. wp_step. wp_step. destruct (find_id _ _); wp_steps; refine (gone_filter _ _ _ _ _ _ _);
    intros x Hx <-; by apply str_eqb_eq in Hx.
Qed.

Lemma password_gone now rnd tok c during old new q s a jti :
  authMiddleware now (Some tok) s = Some a → (run (change_password now rnd (Some tok) c during old new q) s).2 = ROk →
  gone (au_id a) jti (accounts_of (run (change_password now rnd (Some tok) c during old new q) s).1).
Proof.
  intros Ha. apply (wp_run (change_password now rnd (Some tok) c during old new q) (λ r s', r = ROk → gone (au_id a) jti (accounts_of s'))).
  unfold change_password, guarded, requireCsrf, need_string. wp_step. wp_step. unfold wp at 1, requireAuth. rewrite Ha.
  wp_step. wp_step; [done|]. wp_step. wp_step. destruct old as [old|]; [|done]. do 2 wp_step. destruct new as [new|]; [|done].
  wp_step. wp_step. wp_step; [done|]. wp_step. wp_step. destruct (find_id (au_id a) s) as [u|]; [|done].
  wp_step. wp_step; [|naive_solver]. wp_step. wp_step; [done|]. wp_step. wp_step; [|done]. wp_step. wp_step. wp_step. wp_step.
  destruct (find_id (au_id a) (during _)) as [u'|] eqn:Eu; [|done]. wp_step. wp_step; [done|]. wp_step. wp_step. rewrite Eu. wp_steps.
  intros _. match goal with |- context [if ?b then _ else _] => destruct b end; unfold gone; cbn; rewrite lookup_insert_eq; constructor.
Qed.
End revocation.

(** The body of [saveMfaConfigToServer]. *)
Definition saveMfaConfigToServer_body (encData : jsstr) : json := JObj [(js "data", JStr encData)].

(** The body of the form in [EmergencyAccessModal]. *)
Definition emergency_form_body (contactEmail : jsstr) (waitPeriodHours : Z) : json :=
  JObj [(js "contactEmail", JStr contactEmail); (js "waitPeriodHours", JNum (Int waitPeriodHours))].

Module AccountSpec.
Section claims.
Context {S : Type} {HS : StateStore S} {SH : ServerHash} {SP : ServerPassword} {TG : TotpGenerator} {JW : Jwe}
        {JC : JsCase} {SE : ServerEnv}.
Implicit Types s : Server S.

(** C3: Every sequence of requests changes users and sessions by steps of the account
    machine only: updates that keep a user's identity and well-formedness, insertions
    under a free index, deletions, sessions opened with a drawn id, sessions closed.  This
    includes the requests that are answered while one waits for the hash of a password
    (a login, a registration, a change of the password or of the recovery key, and the
    routes that ask for the password again: check, emergency access, wipe, audit log). *)
Theorem routes_refine_accounts rs s :
  asteps (λ j, j ∈ concat (map draws rs)) (forallb no_enforce rs) (accounts_of s) (accounts_of (run_all rs s)).
Proof. apply run_all_refines; [intros j Hj; exact Hj|done]. Qed.

(** C4: After any sequence of requests to a fresh server no e-mail index is held
    twice, every armed account has failed fewer times than its limit, every log of
    fingerprints has at most 32 entries and no id twice, and every user has at most
    twenty sessions with different ids, at most one of them current. *)
Theorem accounts_invariant rs st : accounts_ok (forallb no_enforce rs) (accounts_of (run_all rs (fresh_server st))).
Proof. apply run_all_ok. Qed.

(** C6: Every POST, PUT or DELETE request behind both guards, the session and the CSRF
    token ([guard_of] lists them), without a live session or without matching tokens
    changes nothing at all and is answered with 401 or 403. *)
Theorem guards_refuse r now ck c s :
  guard_of r = Some (now, ck, c) → authMiddleware now ck s = None ∨ csrf_ok c = false →
  run (handle r) s =
    (s, match authMiddleware now ck s with Some _ => RErr 403 "csrf" | None => RErr 401 "unauthenticated" end).
Proof. intros Hg Hr. unfold run. by rewrite (behind_refused now ck c) by (done || by apply guard_behind). Qed.

(** C5: A request behind the guards touches nothing that belongs to a user other than the
    one of its session: the record, sessions, resources, shares and the entries of the
    share index, pending codes, queued audit events and second-factor counters of that
    user stay as they were, and so do all partial tokens, mailed codes and used periods.
    Only requests answered while it waits for a hash may change them in between.  The
    index is as the routes of shares keep it, and the id of a new share is not in it. *)
Theorem users_isolated {HSP : StateStoreSpec S} r now ck c k s :
  guard_of r = Some (now, ck, c) → 0 <= now → shares_indexed s → new_share r s →
  (∀ a, authMiddleware now ck s = Some a → au_id a ≠ k) →
  apart k now (run_all (meanwhile r)) s (run (handle r) s).1 ∧
  (meanwhile r = [] → untouched k now s (run (handle r) s).1).
Proof.
  intros Hg Hn Hi Hs Hk. pose proof (guarded_isolated r k now ck c s Hg Hn Hi Hs Hk) as Hu.
  assert (Hr : (run (handle r) s).1 = (handle r s).1) by (unfold run; by destruct (handle r s) as [s' [x|x]]).
  rewrite Hr. split; [done|]. intros Hm. rewrite Hm in Hu. by apply apart_alone.
Qed.

(** C7: After a logout the cookie is refused for good, after "revoke others" those
    of every other session, after a change of the password every cookie of the
    user: whatever requests follow, as long as no session id is drawn twice. *)
Theorem sessions_end_for_good {JL : JweLaws} now tok c a s rs :
  authMiddleware now (Some tok) s = Some a → csrf_ok c = true →
  (∀ q now', au_jti a ∉ concat (map draws rs) →
     authMiddleware now' (Some tok) (run_all rs (run (logout now (Some tok) c q) s).1) = None) ∧
  (∀ tok' t jti e now', jwe_open t tok' = Some (au_id a, jti, e) → jti ∉ concat (map draws rs) → jti ≠ au_jti a →
     authMiddleware now' (Some tok') (run_all rs (run (revoke_others now (Some tok) c) s).1) = None) ∧
  (∀ rnd during old new q tok' t jti e now',
     jwe_open t tok' = Some (au_id a, jti, e) → jti ∉ concat (map draws rs) →
     (run (change_password now rnd (Some tok) c during old new q) s).2 = ROk →
     authMiddleware now' (Some tok') (run_all rs (run (change_password now rnd (Some tok) c during old new q) s).1) = None).
Proof.
  intros Ha Hc. split_and!.
  - intros q now' Hj. destruct (auth_inv _ _ _ _ Ha) as [e He]. eapply gone_refused_after; [exact He|by apply logout_gone|done].
  - intros tok' t jti e now' Ho Hj Hne. eapply gone_refused_after; [exact Ho|by apply revoke_others_gone|done].
  - intros rnd during old new q tok' t jti e now' Ho Hj Hr. eapply gone_refused_after; [exact Ho|by apply password_gone|done].
Qed.

(** The client's save of the MFA settings sends no [enforce]; after requests
    that send none, no login asks for a second factor. *)
Theorem client_mfa_never_asked rs st now rnd q t ms :
  forallb no_enforce rs = true →
  (∀ now ck c d q, no_enforce (QMfa now ck c (saveMfaConfigToServer_body d) q) = true) ∧
  (run (login now rnd q) (run_all rs (fresh_server st))).2 ≠ RPartial t ms.
Proof.
  intros Hrs. split; [done|]. set (s := run_all rs (fresh_server st)).
  pose proof (wp_run _ (λ r s', login_post now q s r s') s (wp_login now rnd q s)) as Hp. intros Hr. rewrite Hr in Hp.
  destruct Hp as (_ & _ & v & fu & _ & Hf & -> & Hms). apply Hms.
  pose proof (run_all_ok rs st) as Hok. rewrite Hrs in Hok. pose proof (ok_users _ _ Hok) as Hu. apply find_id_id in Hf as [_ Hf]. rewrite Forall_forall in Hu.
  destruct (ok_plain _ _ (Hu fu Hf) eq_refl) as [Ht He]. unfold mfa_methods. by rewrite Ht, He.
Qed.

(** A share that may be viewed once is served at most once, whoever asks and
    whenever. *)
Theorem single_view_once id reqs s : single id s → times_served id (open_all reqs s).2 <= 1.
Proof. apply open_all_single. Qed.

(** The form that sets up emergency access sends no password, so the server
    answers 400 and stores nothing, whoever is logged in. *)
Theorem emergency_form_rejected now ck c during token email hours s :
  let '(s', r) := run (put_emergency now ck c during token (emergency_form_body email hours)) s in
  s' = s ∧ (r = RErr 401 "unauthenticated" ∨ r = RErr 403 "csrf" ∨ r = RErr 400 "password_required").
Proof.
  unfold run, put_emergency, guarded, requireAuth, requireCsrf, stop_if, mbind, H_bind.
  destruct (authMiddleware now ck s); [destruct (negb _)|]; (split; [reflexivity|]); [right; left|right; right|left]; reflexivity.
Qed.
End claims.

Import Toy.

(** A registration, with a login during it, and what follows. *)
Definition joining : RegisterReq := mkRegisterReq (attempt "a long password") (js "A") (js "B") None (js "n1").
Definition joined : server := run_all [QRegister now rnd [QLogin now rnd [] (attempt "x")] joining] (fresh_server ∅).
Definition cookie : jsstr := issueJwt now (js "jti1") (js "n1").

Lemma guards_refuse_witness :
  run (handle (QWipe now None csrf [] (Some (js "p")))) joined = (joined, RErr 401 "unauthenticated") ∧
  run (handle (QWipe now (Some cookie) (mkCsrf "POST" None None) [] (Some (js "p")))) joined = (joined, RErr 403 "csrf").
Proof.
  split.
  - refine (guards_refuse (QWipe now None csrf [] (Some (js "p"))) now None csrf joined eq_refl _). by left.
  - refine (eq_trans (guards_refuse (QWipe now (Some cookie) (mkCsrf "POST" None None) [] (Some (js "p"))) now (Some cookie)
      (mkCsrf "POST" None None) joined eq_refl (or_intror eq_refl)) _).
    apply (f_equal (pair joined)). vm_compute. reflexivity.
Defined.

(** A user whose share another one may not touch. *)
Definition secret_body : json := JObj [(js "encryptedBlob", JStr (js "b")); (js "iv", JStr (js "i"))].
Definition secret_id (n : Z) : jsstr := replicate 31 48 ++ [48 + n].
Definition second : RegisterReq :=
  mkRegisterReq (mkLoginReq req (js "c@d.e") (js "another password") None ctx JNull (JArr [])) (js "C") (js "D") None (js "n2").
Definition rnd2 : Rand := mkRand (js "jti2") (js "csrf") (js "aabb") (js "123456") [].
Definition cookie2 : jsstr := issueJwt now (js "jti2") (js "n2").
Definition sharing : server :=
  run_all [QRegister now rnd2 [] second; QShare now (Some cookie2) csrf (secret_id 2) secret_body (attempt "");
           QShare now (Some cookie) csrf (secret_id 1) secret_body (attempt "")] joined.

Lemma sharing_indexed : shares_indexed sharing.
Proof.
  assert (Hf : map_Forall (λ k _, shareIndex sharing !! k.2 = Some k.1) (shareFiles sharing))
    by (apply (bool_decide_unpack _); vm_compute; exact I).
  intros o id [x Hx]. exact (Hf (o, id) x Hx).
Qed.

Lemma users_isolated_witness :
  shareIndex sharing !! secret_id 2 = Some (js "n2") ∧
  untouched (js "n2") now sharing (run (handle (QRevokeShare now (Some cookie) csrf (secret_id 1) (attempt ""))) sharing).1 ∧
  (run (handle (QRevokeShare now (Some cookie) csrf (secret_id 1) (attempt ""))) sharing).2 = ROk ∧
  apart (js "n2") now (run_all [QLogout now (Some cookie2) csrf (attempt "")]) sharing
    (run (handle (QWipe now (Some cookie) csrf [QLogout now (Some cookie2) csrf (attempt "")] (Some (js "a long password")))) sharing).1.
Proof.
  assert (Ha : ∀ a, authMiddleware now (Some cookie) sharing = Some a → au_id a ≠ js "n2").
  { intros a Ha. vm_compute in Ha. injection Ha as <-. vm_compute. discriminate. }
  split; [vm_compute; reflexivity|]. split; [|split; [vm_compute; reflexivity|]].
  - exact (proj2 (users_isolated (QRevokeShare now (Some cookie) csrf (secret_id 1) (attempt "")) now (Some cookie) csrf (js "n2") sharing
      eq_refl ltac:(vm_compute; discriminate) sharing_indexed I Ha) eq_refl).
  - exact (proj1 (users_isolated (QWipe now (Some cookie) csrf [QLogout now (Some cookie2) csrf (attempt "")] (Some (js "a long password")))
      now (Some cookie) csrf (js "n2") sharing eq_refl ltac:(vm_compute; discriminate) sharing_indexed I Ha)).
Defined.

(** A login with the old password that is checked while the password is changed still
    opens a session, which outlives the end of all sessions. *)
Definition stale_login : request :=
  QLogin now rnd2 [QPassword now rnd (Some cookie) csrf [] (Some (js "a long password")) (Some (js "a new password")) (attempt "")]
    (attempt "a long password").

Example login_outlives_change :
  (run (handle stale_login) joined).2 = RSession (issueJwt now (js "jti2") (js "n1")) (js "csrf") None ∧
  authMiddleware now (Some cookie) (run (handle stale_login) joined).1 = None ∧
  is_Some (authMiddleware now (Some (issueJwt now (js "jti2") (js "n1"))) (run (handle stale_login) joined).1) ∧
  (run (login now rnd2 (attempt "a long password")) (run (handle stale_login) joined).1).2 = RInvalid None false.
Proof. split_and!; [vm_compute; reflexivity|vm_compute; reflexivity|eexists; vm_compute; reflexivity|vm_compute; reflexivity]. Qed.

Lemma sessions_end_for_good_witness :
  authMiddleware now (Some cookie) joined = Some (mkAuthUser (js "n1") email_hash (js "jti1") (now / 1000 + JWE_TTL_SECONDS)) ∧
  authMiddleware now (Some cookie) (run (logout now (Some cookie) csrf (attempt "")) joined).1 = None.
Proof.
  assert (Ha : authMiddleware now (Some cookie) joined = Some (mkAuthUser (js "n1") email_hash (js "jti1") (now / 1000 + JWE_TTL_SECONDS)))
    by (vm_compute; reflexivity).
  split; [exact Ha|]. destruct (sessions_end_for_good now cookie csrf _ joined [] Ha eq_refl) as [Hl _].
  exact (Hl (attempt "") now (not_elem_of_nil _)).
Defined.

Lemma client_mfa_never_asked_witness :
  let rs := [QRegister now rnd [] joining; QMfa now (Some cookie) csrf (saveMfaConfigToServer_body (js "ciphertext")) (attempt "")] in
  forallb no_enforce rs = true ∧
  (run (login now rnd (attempt "a long password")) (run_all rs (fresh_server ∅))).2 ≠ RPartial (js "aabb") ["totp"%string].
Proof.
  intros rs. assert (Hrs : forallb no_enforce rs = true) by (vm_compute; reflexivity). split; [exact Hrs|].
  exact (proj2 (client_mfa_never_asked rs ∅ now rnd (attempt "a long password") (js "aabb") ["totp"%string] Hrs)).
Defined.

Lemma single_view_once_witness :
  let id := js "0123456789abcdef0123456789abcdef" in
  let body := JObj [(js "encryptedBlob", JStr (js "b")); (js "iv", JStr (js "i")); (js "singleView", JBool true)] in
  let s := (run (create_share now (Some cookie) csrf id body (attempt "")) joined).1 in
  times_served id (open_all [(now, req, id); (now, req, id)] s).2 <= 1 ∧ times_served id (open_all [(now, req, id)] s).2 = 1.
Proof.
  intros id body s. split; [|vm_compute; reflexivity].
  apply (single_view_once id [(now, req, id); (now, req, id)] s). vm_compute. reflexivity.
Defined.
End AccountSpec.
