(* ===== verification/Sharing.v ===== *)
(** * Sharing a credential ([web/src/components/ShareModal.tsx],
      [web/src/pages/ShareView.tsx], [web/src/pages/Settings/SharesModal.tsx])

    The dialog that makes a link, the page that opens it and the list of links, over the
    routes of the server ([VaultRoutes]) through [apiFetch].  A credential is the object it
    is in the program, since all of it is sent. *)
From S2P Require Import Prelude JsRuntime JsText Base64 Json JsonSpec FileCrypto StateStore RateLimiter ServerState ServerLogic LoginRoute AccountRoutes LoginSpec VaultRoutes ReimportSpec ClientApi JsDyn JsObject ServerToy AccountClaims.

(** ** [encodeURIComponent] and [decodeURIComponent] *)

Definition is_unreserved (c : Z) : bool :=
  is_digit c || is_upper c || is_lower c || existsb (Z.eqb c) (js "-_.!~*'()").

Definition hex_upper (n : Z) : Z := if n <? 10 then 48 + n else 55 + n.
Definition percent (b : Z) : jsstr := [37; hex_upper (b / 16); hex_upper (b mod 16)].

Definition encode_scalar (c : Z) : jsstr :=
  if is_unreserved c then [c] else concat (map percent (utf8_scalar c)).

(** [None]: it throws on an unpaired surrogate. *)
Definition encodeURIComponent (s : jsstr) : option jsstr :=
  if well_formed s then Some (concat (map encode_scalar (to_scalars s))) else None.

Definition hex_value (c : Z) : option Z :=
  if is_digit c then Some (c - 48)
  else if (65 <=? c) && (c <=? 70) then Some (c - 55)
  else if (97 <=? c) && (c <=? 102) then Some (c - 87) else None.

(** The byte of a triple [%XY] at the start, and the rest. *)
Definition octet (s : jsstr) : option (Z * jsstr) :=
  match s with
  | p :: a :: b :: s' => if p =? 37 then x ← hex_value a; y ← hex_value b; Some (16 * x + y, s') else None
  | _ => None
  end.

(** [n] further bytes of a sequence. *)
Fixpoint continuation (n : nat) (s : jsstr) : option (bytes * jsstr) :=
  match n with
  | O => Some ([], s)
  | S n => '(b, s') ← octet s;
           if (128 <=? b) && (b <? 192) then '(bs, s'') ← continuation n s'; Some (b :: bs, s'') else None
  end.

Definition sequence_length (b : Z) : option nat :=
  if b <? 128 then Some 0%nat
  else if (192 <=? b) && (b <? 224) then Some 1%nat
  else if (224 <=? b) && (b <? 240) then Some 2%nat
  else if (240 <=? b) && (b <? 248) then Some 3%nat else None.

(** The text of the bytes, when they encode one scalar value in the shortest way. *)
Definition decode_octets (bs : bytes) : option jsstr :=
  match utf8_run utf8_init bs with
  | [c] => if bool_decide (utf8_scalar c = bs) then Some (of_scalar c) else None
  | _ => None
  end.

(** [None]: it throws.  One unit of fuel per unit of text. *)
Fixpoint decode_uri (fuel : nat) (s : jsstr) : option jsstr :=
  match fuel with
  | O => Some []
  | S fuel =>
      match s with
      | [] => Some []
      | c :: s' =>
          if c =? 37 then
            '(b, s1) ← octet s;
            n ← sequence_length b;
            '(bs, s2) ← continuation n s1;
            t ← decode_octets (b :: bs);
            r ← decode_uri fuel s2;
            Some (t ++ r)
          else r ← decode_uri fuel s'; Some (c :: r)
      end
  end.

Definition decodeURIComponent (s : jsstr) : option jsstr := decode_uri (length s) s.

(** ** Encryption *)

(** AES-GCM of the browser, without additional data. *)
Class ShareCrypto := {
  sc_encrypt : bytes → bytes → bytes → bytes;             (* key, iv, plaintext *)
  sc_decrypt : bytes → bytes → bytes → option bytes;      (* importing the key fails, or the tag *)
}.

(** A key has 32 bytes and an iv 12. *)
Class ShareCryptoLaws (C : ShareCrypto) := {
  sc_round k iv p : length k = 32%nat → length iv = 12%nat → Bytes p → sc_decrypt k iv (sc_encrypt k iv p) = Some p;
  sc_bytes k iv p : Bytes p → Bytes (sc_encrypt k iv p);
  sc_longer k iv p : sc_encrypt k iv p ≠ [];              (* the tag *)
}.

Inductive TTL := OneHour | OneDay | OneWeek.
Definition ttl_text (t : TTL) : jsstr := js match t with OneHour => "1h" | OneDay => "24h" | OneWeek => "7d" end.

Section client.
Context {JF : JsFloat} {SC : ShareCrypto}.

Record EncryptedShare := mkEncrypted { es_blob : jsstr; es_iv : jsstr; es_key : jsstr }.

(** [None]: the ciphertext has more bytes than the engine accepts arguments. *)
Definition encryptCredential (max_args : Z) (rawKey iv : bytes) (cred : json) : option EncryptedShare :=
  let ciphertext := sc_encrypt rawKey iv (utf8_encode (stringify cred)) in
  if len ciphertext >? max_args then None else Some (mkEncrypted (btoa ciphertext) (btoa iv) (btoa rawKey)).

Definition decryptCredential (encryptedBlob ivBase64 keyBase64 : jsstr) : option json :=
  rawKey ← atob keyBase64;
  iv ← atob ivBase64;
  ct ← atob encryptedBlob;
  pt ← sc_decrypt rawKey iv ct;
  parse (utf8_decode pt).

(** ** The dialog *)

Record ShareModal := mkShareModal {
  sm_ttl : TTL; sm_singleView : bool; sm_shareUrl : jsstr; sm_busy : bool; sm_error : bool }.
Definition share_modal : ShareModal := mkShareModal OneDay false [] false false.

Definition share_body (m : ShareModal) (e : EncryptedShare) (cred : json) : json :=
  obj [("encryptedBlob", str_field (es_blob e)); ("iv", str_field (es_iv e)); ("ttl", str_field (ttl_text (sm_ttl m)));
       ("singleView", Some (JBool (sm_singleView m))); ("label", prop "service" cred)]%string.

Definition share_url (origin shareId keyBase64 : jsstr) : option jsstr :=
  (λ k, origin ++ js "/share/" ++ shareId ++ js "#" ++ k) <$> encodeURIComponent keyBase64.

(** [`${data.shareId}`] for a text. *)
Definition created_url (origin : jsstr) (e : EncryptedShare) (data : option json) : option jsstr :=
  v ← data;
  if truthy (prop "ok" v) then id ← as_string (prop "shareId" v); share_url origin id (es_key e) else None.

Definition createShare {W} (fetch : Request → W → W * option Response) (cookie origin : jsstr) (max_args : Z) (rawKey iv : bytes)
    (cred : json) (m : ShareModal) (w : W) : ShareModal * W :=
  let failed := mkShareModal (sm_ttl m) (sm_singleView m) (sm_shareUrl m) false true in
  match encryptCredential max_args rawKey iv cred with
  | None => (failed, w)
  | Some e =>
      let opts := mkInit (Some (js "POST")) [] (Some (stringify (share_body m e cred))) in
      match apiFetch fetch cookie (js "/api/vault/shares") opts w with
      | (w, Throw _) => (failed, w)
      | (w, Ok data) =>
          match created_url origin e data with
          | Some url => (mkShareModal (sm_ttl m) (sm_singleView m) url false false, w)
          | None => (failed, w)
          end
      end
  end.

(** "Create another share" *)
Definition another_share (m : ShareModal) : ShareModal := mkShareModal (sm_ttl m) false [] (sm_busy m) (sm_error m).

(** ** The page of a link *)

Inductive PageState := SLoading | SDecrypting | SSuccess | SExpired | SAlreadyViewed | SError.

Record ShareView := mkShareView {
  sv_state : PageState; sv_credential : option json; sv_expiresAt : option json; sv_isSingleView : bool }.
Definition share_view : ShareView := mkShareView SLoading None None false.

Definition set_state (st : PageState) (v : ShareView) : ShareView :=
  mkShareView st (sv_credential v) (sv_expiresAt v) (sv_isSingleView v).

(** The answer of the server; texts are what it sends for blob and iv. *)
Definition show_share (keyBase64 : jsstr) (data : option json) (v : ShareView) : ShareView :=
  match data with
  | None => set_state SError v
  | Some d =>
      if negb (truthy (prop "ok" d)) then set_state SError v
      else
        let v := mkShareView SDecrypting (sv_credential v) (prop "expiresAt" d)
                   (match prop "singleView" d with Some x => truthy (Some x) | None => false end) in
        match as_string (prop "encryptedBlob" d), as_string (prop "iv" d) with
        | Some blob, Some iv =>
            match decryptCredential blob iv keyBase64 with
            | Some cred => mkShareView SSuccess (Some cred) (sv_expiresAt v) (sv_isSingleView v)
            | None => set_state SError v
            end
        | _, _ => set_state SError v
        end
  end.

(** The effect of the page; [hash] is [window.location.hash]. *)
Definition load_share {W} (fetch : Request → W → W * option Response) (cookie hash shareId : jsstr) (v : ShareView) (w : W)
    : ShareView * W :=
  match decodeURIComponent (drop 1 hash) with
  | None | Some [] => (set_state SError v, w)
  | Some keyBase64 =>
      match apiFetch fetch cookie (js "/api/share/" ++ shareId) (mkInit None [] None) w with
      | (w, Throw (ApiError 410 data)) =>
          (set_state (if bool_decide (prop "error" data = Some (JStr (js "already_viewed"))) then SAlreadyViewed else SExpired) v, w)
      | (w, Throw _) => (set_state SError v, w)
      | (w, Ok data) => (show_share keyBase64 data v, w)
      end
  end.

(** ** The list of links *)

Record SharesModal := mkSharesModal { sl_shares : list json; sl_confirming : bool }.

Definition share_is (id : jsstr) (s : json) : bool := bool_decide (prop "id" s = Some (JStr id)).

Definition refreshShares {W} (fetch : Request → W → W * option Response) (cookie : jsstr) (m : SharesModal) (w : W) : SharesModal * W :=
  match apiFetch fetch cookie (js "/api/vault/shares") (mkInit None [] None) w with
  | (w, Ok (Some data)) =>
      match prop "shares" data with
      | Some (JArr l) => (if truthy (prop "ok" data) then mkSharesModal l (sl_confirming m) else m, w)
      | _ => (m, w)
      end
  | (w, _) => (m, w)
  end.

Definition revoke_request {W} (fetch : Request → W → W * option Response) (cookie id : jsstr) (w : W)
    : W * result fetch_error (option json) :=
  apiFetch fetch cookie (js "/api/vault/shares/" ++ id) (mkInit (Some (js "DELETE")) [] None) w.

Definition handleRevoke {W} (fetch : Request → W → W * option Response) (cookie id : jsstr) (m : SharesModal) (w : W) : SharesModal * W :=
  match revoke_request fetch cookie id w with
  | (w, Ok _) => (mkSharesModal (List.filter (λ s, negb (share_is id s)) (sl_shares m)) (sl_confirming m), w)
  | (w, Throw _) => (m, w)
  end.

(** All requests are sent; [Promise.all] fails with the first that fails. *)
Fixpoint revoke_each {W} (fetch : Request → W → W * option Response) (cookie : jsstr) (ids : list jsstr) (w : W) : W * bool :=
  match ids with
  | [] => (w, true)
  | id :: ids =>
      let '(w, r) := revoke_request fetch cookie id w in
      let '(w, ok) := revoke_each fetch cookie ids w in
      (w, match r with Ok _ => ok | Throw _ => false end)
  end.

Definition handleRevokeAll {W} (fetch : Request → W → W * option Response) (cookie : jsstr) (m : SharesModal) (w : W) : SharesModal * W :=
  if negb (sl_confirming m) then (mkSharesModal (sl_shares m) true, w)
  else
    let '(w, ok) := revoke_each fetch cookie (omap (λ s, as_string (prop "id" s)) (sl_shares m)) w in
    (mkSharesModal (if ok then [] else sl_shares m) false, w).

(** The text for the time left: [None] when it is over, then hours, then days. *)
Inductive Remaining := Hours (h : Z) | Days (d : Z).
Definition formatExpiry (now expiresAt : Z) : option Remaining :=
  let diff := expiresAt - now in
  if diff <=? 0 then None
  else let h := diff / 3600000 in if h <? 24 then Some (Hours h) else Some (Days (h / 24)).
End client.

(** ** [decodeURIComponent] inverts [encodeURIComponent] *)

Lemma hex_value_upper n : 0 <= n < 16 → hex_value (hex_upper n) = Some n.
Proof.
  intros Hn. assert (Hall : Forall (λ n, hex_value (hex_upper n) = Some n) (seqZ 0 16)) by (apply (bool_decide_unpack _); by vm_compute).
  rewrite Forall_forall in Hall. apply Hall, elem_of_seqZ. lia.
Qed.

Lemma octet_percent b r : 0 <= b < 256 → octet (percent b ++ r) = Some (b, r).
Proof.
  intros Hb. unfold percent. cbn [Datatypes.app octet]. rewrite Z.eqb_refl.
  rewrite !hex_value_upper by lia. cbn [mbind option_bind]. do 2 f_equal. lia.
Qed.

Lemma continuation_percents bs r :
  Forall (λ b, 128 <= b < 192) bs → continuation (length bs) (concat (map percent bs) ++ r) = Some (bs, r).
Proof.
  induction 1 as [|b bs Hb Hbs IH]; [done|]. cbn [length map concat continuation]. rewrite <- app_assoc, octet_percent by lia.
  cbn [mbind option_bind]. rewrite (proj2 (Z.leb_le 128 b)), (proj2 (Z.ltb_lt b 192)) by lia. cbn [andb]. by rewrite IH.
Qed.

(** The first byte of a scalar value tells how many follow. *)
Lemma utf8_scalar_shape c :
  is_scalar c → ∃ b bs, utf8_scalar c = b :: bs ∧ 0 <= b < 256 ∧ sequence_length b = Some (length bs) ∧ Forall (λ b, 128 <= b < 192) bs.
Proof.
  intros [Hc _]. unfold utf8_scalar, sequence_length.
  destruct (Z.ltb_spec c 0x80); [|destruct (Z.ltb_spec c 0x800); [|destruct (Z.ltb_spec c 0x10000)]];
    eexists _, _; (split; [reflexivity|]); (split; [lia|]); (split; [|repeat constructor; lia]);
    repeat first [rewrite (proj2 (Z.ltb_lt _ _)) by lia|rewrite (proj2 (Z.ltb_ge _ _)) by lia
                 |rewrite (proj2 (Z.leb_le _ _)) by lia|rewrite (proj2 (Z.leb_gt _ _)) by lia]; reflexivity.
Qed.

Lemma decode_octets_scalar c : is_scalar c → decode_octets (utf8_scalar c) = Some (of_scalar c).
Proof.
  intros Hc. unfold decode_octets. rewrite <- (app_nil_r (utf8_scalar c)) at 1. rewrite utf8_run_scalar by done.
  cbn [utf8_run needed utf8_init]. by rewrite bool_decide_eq_true_2.
Qed.

Lemma unreserved_ascii c : is_unreserved c = true → 0 <= c < 128 ∧ c ≠ 37.
Proof.
  unfold is_unreserved, is_digit, is_upper, is_lower. intros Hc. apply orb_prop in Hc as [Hc|Hc]; [to_prop; lia|].
  apply existsb_exists in Hc as (x & Hx & Hc). apply Z.eqb_eq in Hc as ->. cbn in Hx. lia.
Qed.

Lemma encode_scalar_nonnil c : is_scalar c → (1 <= length (encode_scalar c))%nat.
Proof.
  intros Hc. unfold encode_scalar. destruct (is_unreserved c); [done|].
  destruct (utf8_scalar_shape c Hc) as (b & bs & -> & _). cbn. lia.
Qed.

Lemma decode_encode_scalars cs fuel :
  Forall is_scalar cs → (length (concat (map encode_scalar cs)) <= fuel)%nat →
  decode_uri fuel (concat (map encode_scalar cs)) = Some (of_scalars cs).
Proof.
  intros Hcs. revert fuel. induction Hcs as [|c cs Hc Hcs IH]; intros fuel Hf; [by destruct fuel|].
  cbn [map concat] in *. rewrite length_app in Hf. pose proof (encode_scalar_nonnil c Hc) as Hlen.
  destruct fuel as [|fuel]; [lia|]. unfold encode_scalar at 1. destruct (is_unreserved c) eqn:Hu.
  - destruct (unreserved_ascii c Hu) as [Hr Hne]. cbn [Datatypes.app decode_uri]. rewrite (proj2 (Z.eqb_neq c 37)) by done.
    rewrite IH by (unfold encode_scalar in Hf at 1; rewrite Hu in Hf; cbn [length] in Hf; lia). cbn [mbind option_bind].
    unfold of_scalars. cbn [map concat]. unfold of_scalar at 2. by rewrite (proj2 (Z.ltb_lt c _)) by lia.
  - destruct (utf8_scalar_shape c Hc) as (b & bs & E & Hb & Hs & Hbs). rewrite E. cbn [map concat]. rewrite <- app_assoc.
    unfold percent at 1. cbn [Datatypes.app decode_uri]. rewrite Z.eqb_refl. change (37 :: hex_upper (b / 16) :: hex_upper (b mod 16) :: ?r) with (percent b ++ r).
    rewrite octet_percent by done. cbn [mbind option_bind]. rewrite Hs. cbn [mbind option_bind].
    rewrite continuation_percents by done. cbn [mbind option_bind]. rewrite <- E, decode_octets_scalar by done. cbn [mbind option_bind].
    rewrite IH by lia. reflexivity.
Qed.

Lemma uri_roundtrip s t : encodeURIComponent s = Some t → decodeURIComponent t = Some s.
Proof.
  unfold encodeURIComponent, decodeURIComponent. destruct (well_formed s) eqn:Hw; [|done]. intros [= <-].
  rewrite decode_encode_scalars by (done || by apply to_scalars_scalar). by rewrite of_to_scalars.
Qed.

(** ** Over the routes of the server *)

Section routes.
Context {S : Type} {HS : StateStore S} {SH : ServerHash} {SP : ServerPassword} {JW : Jwe} {JF : JsFloat} {SE : ServerEnv}.

(** The routes as [fetch] reaches them: the body is parsed, the header of the token is
    compared with the cookie [csrfCookie]. *)
Definition csrf_of (method : string) (csrfCookie : option jsstr) (rq : Request) : Csrf :=
  mkCsrf method (get_header (js "X-CSRF-Token") (rq_headers rq)) csrfCookie.

Definition post_share (now : Z) (cookie csrfCookie : option jsstr) (shareId : jsstr) (q : LoginReq) (rq : Request) (s : Server S)
    : Server S * option Response :=
  match rq_body rq ≫= parse with
  | Some body => let '(s, r) := run (create_share now cookie (csrf_of "POST" csrfCookie rq) shareId body q) s in (s, response_of r)
  | None => (s, Some (mkResponse 400 None))
  end.

Definition get_share (now : Z) (req : Req) (shareId : jsstr) (rq : Request) (s : Server S) : Server S * option Response :=
  let '(s, r) := run (open_share now req shareId) s in (s, response_of r).

Definition delete_share (now : Z) (cookie csrfCookie : option jsstr) (shareId : jsstr) (q : LoginReq) (rq : Request) (s : Server S)
    : Server S * option Response :=
  let '(s, r) := run (revoke_share now cookie (csrf_of "DELETE" csrfCookie rq) shareId q) s in (s, response_of r).

Definition expired (now : Z) (r : Share) : bool := past now (sh_expiresAt r).

(** What opening a link that exists answers. *)
Lemma open_share_run now req id s owner r :
  (checkEmergencyRate (getClientIp req) now (store s)).2.1 = true → is_share_id id = true →
  shareIndex s !! id = Some owner → owner ≠ [] → shareFiles s !! (owner, id) = Some r →
  ∃ s', shareIndex s' = (if expired now r then delete id (shareIndex s) else shareIndex s) ∧
    shareFiles s' = (if expired now r then delete (owner, id) (shareFiles s)
                     else if sh_singleView r && negb (sh_viewed r) then <[(owner, id) := view r]> (shareFiles s) else shareFiles s) ∧
    run (open_share now req id) s =
      (s', if expired now r then RErr 410 "expired"
           else if sh_singleView r then if sh_viewed r then RErr 410 "already_viewed" else RJson (share_json (view r))
           else RJson (share_json r)).
Proof.
  intros Hrate Hid Hi Ho Hf. unfold run, open_share, rate, on_store, mbind, H_bind, stop_if, gets, expired.
  destruct (checkEmergencyRate (getClientIp req) now (store s)) as [st [ok hd]]. cbn [snd fst] in Hrate. subst ok. rewrite Hid.
  cbn [negb shareIndex shareFiles set_store]. rewrite Hi. destruct owner as [|c o]; [done|]. cbn [shareFiles set_store]. rewrite Hf.
  destruct (past now (sh_expiresAt r)); [eexists; (split; [|split; [|reflexivity]]; reflexivity)|].
  destruct (sh_singleView r); [destruct (sh_viewed r)|]; eexists; (split; [|split; [|reflexivity]]; reflexivity).
Qed.

Lemma create_share_run now cookie c id body q s a blob iv :
  authMiddleware now cookie s = Some a → csrf_ok c = true → (checkShareCreateRate (au_id a) now (store s)).2.1 = true →
  as_string (prop "encryptedBlob" body) = Some blob → blob ≠ [] → as_string (prop "iv" body) = Some iv → iv ≠ [] →
  ∃ s', shareIndex s' = <[id := au_id a]> (shareIndex s) ∧
    shareFiles s' = <[(au_id a, id) := mkShare (slice0 100 (or_empty (as_string (prop "label" body)))) blob iv now
      (share_expiry now (as_string (prop "ttl" body))) (truthy (prop "singleView" body)) false]> (shareFiles s) ∧
    run (create_share now cookie c id body q) s = (s', RJson (obj [("ok", Some (JBool true)); ("shareId", str_field id)]%string)).
Proof.
  intros Ha Hc Hrate Hb Hbn Hi Hin. unfold run, create_share, guarded, requireAuth, requireCsrf, rate, on_store, mbind, H_bind, stop_if, gets.
  rewrite Ha, Hc. cbn [negb mret H_ret].
  destruct (checkShareCreateRate (au_id a) now (store s)) as [st [ok hd]]. cbn [snd fst] in Hrate. subst ok. cbn [negb].
  rewrite Hb, Hi. destruct blob as [|b0 blob]; [done|]. destruct iv as [|i0 iv]; [done|].
  unfold appendAuditEvent, modify. cbn [mret H_ret]. destruct (_ <? 5000); eexists; (split; [|split; [|reflexivity]]; reflexivity).
Qed.

Lemma revoke_share_run now cookie c id q (s : Server S) a :
  authMiddleware now cookie s = Some a → csrf_ok c = true → is_share_id id = true →
  ∃ s', run (revoke_share now cookie c id q) s = (s', ROk) ∧
    (is_Some (shareFiles s !! (au_id a, id)) → shareIndex s' !! id = None).
Proof.
  intros Ha Hc Hid. unfold run, revoke_share, guarded, requireAuth, requireCsrf, mbind, H_bind, stop_if, gets.
  rewrite Ha, Hc, Hid. cbn [negb mret H_ret]. unfold appendAuditEvent, modify. cbn [mret H_ret].
  eexists. split; [reflexivity|]. intros [r ->]. destruct (_ <? 5000); apply lookup_delete_eq.
Qed.
End routes.

(** ** Values on the way *)

Section values.
Context {JF : JsFloat}.

Lemma btoa_ascii bs : Bytes bs → forallb is_ascii (btoa bs) = true.
Proof.
  intros Hb. rewrite btoa_split, forallb_app, btoa_chars_vals. apply andb_true_intro. split.
  - apply forallb_forall. intros c Hc. apply in_map_iff in Hc as (v & <- & Hv). pose proof (btoa_vals_range bs Hb) as HF.
    rewrite List.Forall_forall in HF. specialize (HF v Hv). apply b64_char_ascii in HF. unfold is_ascii. lia.
  - by induction (btoa_pad bs).
Qed.

Lemma ascii_text_ok s : forallb is_ascii s = true → text_ok s = true ∧ well_formed s = true.
Proof.
  intros Hs. split; [|rewrite <- (app_nil_r s); by rewrite well_formed_ascii].
  unfold text_ok. rewrite forallb_forall in Hs |- *. intros c Hc. specialize (Hs c Hc). unfold is_ascii in Hs. lia.
Qed.

Lemma share_id_text s : is_share_id s = true → text_ok s = true.
Proof.
  intros [Hs _]%andb_prop. unfold text_ok. rewrite forallb_forall in Hs |- *. intros c Hc. specialize (Hs c Hc). unfold is_digit in Hs. lia.
Qed.

Lemma prop_json_ok k v x : json_ok v = true → prop k v = Some x → json_ok x = true.
Proof.
  destruct v as [| | | | |l]; try done. cbn [json_ok prop]. intros [_ Hl]%andb_prop Hx%lookup_key_Some.
  rewrite forallb_forall in Hl. specialize (Hl _ (proj1 (list_elem_of_In _ _) Hx)). by apply andb_prop in Hl as [_ ?].
Qed.

Lemma share_body_ok m e cred :
  text_ok (es_blob e) = true → text_ok (es_iv e) = true → json_ok cred = true → json_ok (share_body m e cred) = true.
Proof.
  intros Hb Hi Hc. unfold share_body. destruct (prop "service" cred) as [x|] eqn:Ex.
  - change (obj _) with (obj_ [("encryptedBlob", JStr (es_blob e)); ("iv", JStr (es_iv e)); ("ttl", JStr (ttl_text (sm_ttl m)));
      ("singleView", JBool (sm_singleView m)); ("label", x)]%string).
    rewrite json_ok_obj by (by vm_compute). cbn [forallb snd json_ok]. rewrite Hb, Hi, (prop_json_ok _ _ _ Hc Ex). by destruct (sm_ttl m).
  - change (obj _) with (obj_ [("encryptedBlob", JStr (es_blob e)); ("iv", JStr (es_iv e)); ("ttl", JStr (ttl_text (sm_ttl m)));
      ("singleView", JBool (sm_singleView m))]%string).
    rewrite json_ok_obj by (by vm_compute). cbn [forallb snd json_ok]. rewrite Hb, Hi. by destruct (sm_ttl m).
Qed.

(** When a link of the dialog expires; the day is what the server's environment makes it. *)
Definition chosen_expiry {SE : ServerEnv} (now : Z) (t : TTL) : Expiry :=
  match t with OneHour => ExpiresAt (now + HOUR) | OneDay => expires_in now day_ttl | OneWeek => ExpiresAt (now + 168 * HOUR) end.

Definition safe_expiry (e : Expiry) : bool := match e with ExpiresAt n => Z.abs n <=? MAX_SAFE | _ => true end.

Lemma share_body_props {SE : ServerEnv} now m e cred :
  as_string (prop "encryptedBlob" (share_body m e cred)) = Some (es_blob e) ∧
  as_string (prop "iv" (share_body m e cred)) = Some (es_iv e) ∧
  share_expiry now (as_string (prop "ttl" (share_body m e cred))) = chosen_expiry now (sm_ttl m) ∧
  truthy (prop "singleView" (share_body m e cred)) = sm_singleView m.
Proof. unfold share_body. destruct (prop "service" cred); destruct m as [[] [] ? ? ?]; by split_and!. Qed.

Lemma share_json_ok r :
  text_ok (sh_encryptedBlob r) = true → text_ok (sh_iv r) = true → safe_expiry (sh_expiresAt r) = true → json_ok (share_json r) = true.
Proof.
  intros Hb Hi Hs. unfold share_json. destruct (sh_expiresAt r) as [e| |].
  - change (obj _) with (obj_ [("ok", JBool true); ("encryptedBlob", JStr (sh_encryptedBlob r)); ("iv", JStr (sh_iv r));
      ("expiresAt", JNum (Int e)); ("singleView", JBool (sh_singleView r))]%string).
    rewrite json_ok_obj by (by vm_compute). cbn [forallb snd json_ok num_ok safe_expiry] in *. rewrite Hb, Hi. lia.
  - change (obj _) with (obj_ [("ok", JBool true); ("encryptedBlob", JStr (sh_encryptedBlob r)); ("iv", JStr (sh_iv r));
      ("expiresAt", JNull); ("singleView", JBool (sh_singleView r))]%string).
    rewrite json_ok_obj by (by vm_compute). cbn [forallb snd json_ok]. by rewrite Hb, Hi.
  - change (obj _) with (obj_ [("ok", JBool true); ("encryptedBlob", JStr (sh_encryptedBlob r)); ("iv", JStr (sh_iv r));
      ("singleView", JBool (sh_singleView r))]%string).
    rewrite json_ok_obj by (by vm_compute). cbn [forallb snd json_ok]. by rewrite Hb, Hi.
Qed.

(** The text of a value survives UTF-8. *)
Lemma stringify_transportable v : json_ok v = true → transportable (stringify v) = true.
Proof.
  intros Hv. unfold transportable. rewrite <- (app_nil_r (stringify v)) at 1. rewrite neutral_stringify by done.
  unfold stringify. by rewrite no_bom_ser.
Qed.

Lemma stringify_encoded v : json_ok v = true → Bytes (utf8_encode (stringify v)) ∧ utf8_decode (utf8_encode (stringify v)) = stringify v.
Proof.
  intros Hv. pose proof (stringify_transportable v Hv) as Ht. split; [|by apply utf8_roundtrip].
  apply utf8_encode_bytes, well_formed_u16. by apply andb_prop in Ht as [? _].
Qed.

(** Reading the answer of the server. *)
Lemma read_json v : json_ok v = true → read_response (mkResponse 200 (Some (stringify v))) = Ok (Some v).
Proof. intros Hv. unfold read_response. cbn [rs_status rs_text]. cbn -[parse stringify]. by rewrite parse_stringify. Qed.

Lemma error_json_ok e : text_ok (js e) = true → json_ok (JObj [(js "error", JStr (js e))]) = true.
Proof. intros He. change (JObj _) with (obj_ [("error"%string, JStr (js e))]). rewrite json_ok_obj by (by vm_compute). cbn. by rewrite He. Qed.

Lemma read_error n e :
  ok_status n = false → text_ok (js e) = true →
  read_response (mkResponse n (Some (stringify (JObj [(js "error", JStr (js e))])))) = Throw (ApiError n (JObj [(js "error", JStr (js e))])).
Proof.
  intros Hn He. unfold read_response, error_data. cbn [rs_status rs_text]. rewrite Hn. cbn [negb].
  cbn [from_option id]. rewrite parse_stringify by (by apply error_json_ok). done.
Qed.
End values.

Section sharing.
Context {S : Type} {HS : StateStore S} {SH : ServerHash} {SP : ServerPassword} {JW : Jwe} {JF : JsFloat} {SE : ServerEnv}
        {SC : ShareCrypto} {SL : ShareCryptoLaws SC}.

(** What a created link stands for in the state of the server. *)
Definition stored_share (a : AuthUser) (id : jsstr) (r : Share) (s : Server S) : Prop :=
  shareIndex s !! id = Some (au_id a) ∧ shareFiles s !! (au_id a, id) = Some r.

(** Record [r] holds the credential under the key of the link. *)
Definition holds_share (rawKey : bytes) (cred : json) (single : bool) (expires : Expiry) (r : Share) : Prop :=
  text_ok (sh_encryptedBlob r) = true ∧ text_ok (sh_iv r) = true ∧
  decryptCredential (sh_encryptedBlob r) (sh_iv r) (btoa rawKey) = Some cred ∧
  sh_expiresAt r = expires ∧ sh_singleView r = single.

Lemma encrypt_decrypt max_args rawKey iv cred e :
  Bytes rawKey → length rawKey = 32%nat → Bytes iv → length iv = 12%nat → json_ok cred = true →
  encryptCredential max_args rawKey iv cred = Some e →
  es_key e = btoa rawKey ∧ text_ok (es_blob e) = true ∧ text_ok (es_iv e) = true ∧ es_blob e ≠ [] ∧ es_iv e ≠ [] ∧
  decryptCredential (es_blob e) (es_iv e) (btoa rawKey) = Some cred.
Proof.
  intros Hk Hlk Hi Hli Hc. unfold encryptCredential. destruct (_ >? _); [done|]. intros [= <-]. cbn [es_key es_blob es_iv].
  assert (Hp : Bytes (utf8_encode (stringify cred))) by (by apply stringify_encoded).
  pose proof (sc_bytes rawKey iv _ Hp) as Hct.
  assert (Hne : ∀ bs, bs ≠ [] → btoa bs ≠ []) by (intros [|? [|? [|? ?]]]; done).
  split; [done|]. split; [by apply ascii_text_ok, btoa_ascii|]. split; [by apply ascii_text_ok, btoa_ascii|].
  split; [apply Hne, sc_longer|]. split; [apply Hne; by destruct iv|].
  unfold decryptCredential. rewrite !atob_btoa by done. cbn [mbind option_bind]. rewrite sc_round by done. cbn [mbind option_bind].
  rewrite (proj2 (stringify_encoded cred Hc)). by apply parse_stringify.
Qed.

(** Creating a link stores the credential under its key, and the link carries the key. *)
Lemma create_stores jar v now cookie q id a s origin max_args rawKey iv cred m :
  Forall cookie_ok jar → find_cookie CSRF jar = Some v → v ≠ [] →
  authMiddleware now cookie s = Some a → (checkShareCreateRate (au_id a) now (store s)).2.1 = true → is_share_id id = true →
  Bytes rawKey → length rawKey = 32%nat → Bytes iv → length iv = 12%nat → json_ok cred = true →
  len (sc_encrypt rawKey iv (utf8_encode (stringify cred))) <= max_args →
  ∃ k s', encodeURIComponent (btoa rawKey) = Some k ∧
    createShare (post_share now cookie (Some v) id q) (document_cookie jar) origin max_args rawKey iv cred m s =
      (mkShareModal (sm_ttl m) (sm_singleView m) (origin ++ js "/share/" ++ id ++ js "#" ++ k) false false, s') ∧
    ∃ r, stored_share a id r s' ∧ sh_viewed r = false ∧ holds_share rawKey cred (sm_singleView m) (chosen_expiry now (sm_ttl m)) r.
Proof.
  intros Hjar Hv Hvn Ha Hrate Hid Hk Hlk Hi Hli Hc Hmax.
  assert (Hwf : well_formed (btoa rawKey) = true) by (by apply ascii_text_ok, btoa_ascii).
  destruct (encodeURIComponent (btoa rawKey)) as [k|] eqn:Ek; [|unfold encodeURIComponent in Ek; by rewrite Hwf in Ek].
  destruct (encryptCredential max_args rawKey iv cred) as [e|] eqn:Ee.
  2:{ exfalso. unfold encryptCredential in Ee. destruct (_ >? _) eqn:Eg in Ee; [to_prop; lia|done]. }
  destruct (encrypt_decrypt _ _ _ _ _ Hk Hlk Hi Hli Hc Ee) as (Hek & Hb & Hiv & Hbn & Hin & Hdec).
  set (opts := mkInit (Some (js "POST")) [] (Some (stringify (share_body m e cred)))).
  assert (Hcsrf : csrf_ok (csrf_of "POST" (Some v) (request_of (document_cookie jar) (js "/api/vault/shares") opts)) = true).
  { apply (csrf_header_ok jar v _ _ "POST"); try done. by left. }
  destruct (share_body_props now m e cred) as (Pb & Pi & Pt & Ps).
  destruct (create_share_run now cookie _ id (share_body m e cred) q s a _ _ Ha Hcsrf Hrate Pb Hbn Pi Hin) as (s' & Hsi & Hsf & Hrun).
  exists k, s'. split; [done|]. split.
  - unfold createShare. rewrite Ee. fold opts. unfold apiFetch, post_share.
    change (rq_body (request_of _ _ opts)) with (Some (stringify (share_body m e cred))). cbn [mbind option_bind].
    rewrite parse_stringify by (by apply share_body_ok). rewrite Hrun.
    change (response_of (RJson ?x)) with (Some (mkResponse 200 (Some (stringify x)))). cbv beta iota.
    change (obj _) with (obj_ [("ok", JBool true); ("shareId", JStr id)]%string).
    rewrite read_json by (rewrite json_ok_obj by (by vm_compute); cbn; by rewrite share_id_text).
    unfold created_url. cbn [mbind option_bind].
    change (truthy (prop "ok" (obj_ _))) with true. change (as_string (prop "shareId" (obj_ _))) with (Some id).
    cbn [mbind option_bind]. unfold share_url. rewrite Hek, Ek. done.
  - eexists. split; [split; [by rewrite Hsi, lookup_insert_eq|by rewrite Hsf, lookup_insert_eq]|].
    split; [done|]. rewrite Pt, Ps. split_and!; done.
Qed.

(** Opening a link to a stored share. *)
Lemma open_stored a id r rawKey k cred single expires now req c (s : Server S) :
  Bytes rawKey → length rawKey = 32%nat → encodeURIComponent (btoa rawKey) = Some k →
  au_id a ≠ [] → is_share_id id = true → stored_share a id r s → holds_share rawKey cred single expires r → safe_expiry expires = true →
  (checkEmergencyRate (getClientIp req) now (store s)).2.1 = true →
  ∃ v s', load_share (get_share now req id) c (35 :: k) id share_view s = (v, s') ∧
    if past now expires then sv_state v = SExpired ∧ sv_credential v = None ∧ shareIndex s' !! id = None
    else if single && sh_viewed r then sv_state v = SAlreadyViewed ∧ sv_credential v = None ∧ stored_share a id r s'
    else sv_state v = SSuccess ∧ sv_credential v = Some cred ∧ sv_isSingleView v = single ∧
         stored_share a id (if single then view r else r) s'.
Proof.
  intros Hk Hlk Ek Ha Hid [Hsi Hsf] (Hb & Hi & Hdec & He & Hsv) Hsafe Hrate.
  destruct (open_share_run now req id s (au_id a) r Hrate Hid Hsi Ha Hsf) as (s' & Hsi' & Hsf' & Hrun).
  unfold load_share. change (drop 1 (35 :: k)) with k. rewrite (uri_roundtrip _ _ Ek).
  assert (Hkey : ∃ c0 t, btoa rawKey = c0 :: t) by (destruct rawKey as [|? [|? [|? ?]]]; (discriminate Hlk || by eexists _, _)).
  destruct Hkey as (c0 & t & Hkey). rewrite Hkey. rewrite <- Hkey. unfold apiFetch, get_share. rewrite Hrun.
  assert (Hexp : expired now r = past now expires) by (unfold expired; by rewrite He). rewrite Hexp in *. rewrite Hsv in *.
  destruct (past now expires).
  { change (response_of (RErr ?n ?x)) with (Some (mkResponse n (Some (stringify (JObj [(js "error", JStr (js x))]))))). cbv beta iota.
    rewrite read_error by (by vm_compute). eexists _, _. split; [reflexivity|]. split; [by vm_compute|]. split; [done|].
    by rewrite Hsi', lookup_delete_eq. }
  assert (Hshow : ∀ r', sh_encryptedBlob r' = sh_encryptedBlob r → sh_iv r' = sh_iv r → sh_expiresAt r' = sh_expiresAt r →
    ∃ v, show_share (btoa rawKey) (Some (share_json r')) share_view = v ∧
      sv_state v = SSuccess ∧ sv_credential v = Some cred ∧ sv_isSingleView v = sh_singleView r').
  { intros r' E1 E2 E3. eexists. split; [reflexivity|]. unfold show_share.
    change (truthy (prop "ok" (share_json r'))) with true. cbn [negb].
    change (as_string (prop "encryptedBlob" (share_json r'))) with (Some (sh_encryptedBlob r')).
    change (as_string (prop "iv" (share_json r'))) with (Some (sh_iv r')).
    replace (prop "singleView" (share_json r')) with (Some (JBool (sh_singleView r'))) by (unfold share_json; rewrite E3, He; by destruct expires).
    rewrite E1, E2, Hdec. split; [done|]. split; [done|]. cbn. by destruct (sh_singleView r'). }
  assert (Hserved : ∀ r', sh_encryptedBlob r' = sh_encryptedBlob r → sh_iv r' = sh_iv r → sh_expiresAt r' = sh_expiresAt r →
    read_response (mkResponse 200 (Some (stringify (share_json r')))) = Ok (Some (share_json r'))).
  { intros r' E1 E2 E3. apply read_json, share_json_ok; congruence. }
  destruct single; cbn [andb]; [destruct (sh_viewed r) eqn:Evw; cbn [andb negb] in *|].
  - change (response_of (RErr ?n ?x)) with (Some (mkResponse n (Some (stringify (JObj [(js "error", JStr (js x))]))))). cbv beta iota.
    rewrite read_error by (by vm_compute). eexists _, _. split; [reflexivity|]. split; [by vm_compute|]. split; [done|].
    split; [by rewrite Hsi'|by rewrite Hsf'].
  - change (response_of (RJson ?x)) with (Some (mkResponse 200 (Some (stringify x)))). cbv beta iota. rewrite Hserved by done.
    destruct (Hshow (view r) eq_refl eq_refl eq_refl) as (v & Hv & H1 & H2 & H3). rewrite Hv. eexists _, _. split; [reflexivity|].
    split; [done|]. split; [done|]. split; [by rewrite H3; cbn|]. split; [by rewrite Hsi'|]. by rewrite Hsf', lookup_insert_eq.
  - change (response_of (RJson ?x)) with (Some (mkResponse 200 (Some (stringify x)))). cbv beta iota. rewrite Hserved by done.
    destruct (Hshow r eq_refl eq_refl eq_refl) as (v & Hv & H1 & H2 & H3). rewrite Hv. eexists _, _. split; [reflexivity|].
    split; [done|]. split; [done|]. split; [congruence|]. split; [by rewrite Hsi'|by rewrite Hsf'].
Qed.

(** A link whose share is gone. *)
Lemma open_share_gone now req id (s : Server S) :
  shareIndex s !! id = None →
  ∃ s' n e, run (open_share now req id) s = (s', RErr n e) ∧
    In (n, e) [(429, "too_many_requests"); (400, "invalid_id"); (404, "not_found")]%string.
Proof.
  intros Hi. unfold run, open_share, rate, on_store, mbind, H_bind, stop_if, gets.
  destruct (checkEmergencyRate (getClientIp req) now (store s)) as [st [ok hd]].
  destruct ok; [|eexists _, _, _; split; [reflexivity|by left]]. cbn [negb].
  destruct (is_share_id id); [|eexists _, _, _; split; [reflexivity|right; by left]]. cbn [negb shareIndex set_store]. rewrite Hi.
  eexists _, _, _. split; [reflexivity|]. right. right. by left.
Qed.

Lemma open_gone id k key now req c (s : Server S) :
  encodeURIComponent key = Some k → shareIndex s !! id = None →
  ∃ v s', load_share (get_share now req id) c (35 :: k) id share_view s = (v, s') ∧ sv_state v = SError ∧ sv_credential v = None.
Proof.
  intros Ek Hi. unfold load_share. change (drop 1 (35 :: k)) with k. rewrite (uri_roundtrip _ _ Ek).
  destruct key as [|c0 t]; [eexists _, _; split; [reflexivity|done]|].
  destruct (open_share_gone now req id s Hi) as (s' & n & e & Hrun & Hin). unfold apiFetch, get_share. rewrite Hrun.
  change (response_of (RErr n e)) with (Some (mkResponse n (Some (stringify (JObj [(js "error", JStr (js e))]))))). cbv beta iota.
  destruct Hin as [[= <- <-]|[[= <- <-]|[[= <- <-]|[]]]]; rewrite read_error by (by vm_compute); eexists _, _; (split; [reflexivity|done]).
Qed.

End sharing.

Module ShareSpec.
Section claims.
Context {S : Type} {HS : StateStore S} {SH : ServerHash} {SP : ServerPassword} {JW : Jwe} {JF : JsFloat} {SE : ServerEnv}
        {SC : ShareCrypto} {SL : ShareCryptoLaws SC}.

(** C12: A link made by the dialog gives back the credential.  The request of a logged-in
    page passes the checks of the server, and the page of the link, opened in any later
    state that still has the share, shows exactly the credential until the chosen time is
    over (a day is what the environment of the server makes it), and says that the link
    has expired after it; a link for one view says so the
    second time and shows nothing. *)
Theorem share_link_opens jar v now cookie q id a (s : Server S) origin max_args rawKey iv cred m :
  Forall cookie_ok jar → find_cookie CSRF jar = Some v → v ≠ [] →
  authMiddleware now cookie s = Some a → au_id a ≠ [] →
  (checkShareCreateRate (au_id a) now (store s)).2.1 = true → is_share_id id = true →
  Bytes rawKey → length rawKey = 32%nat → Bytes iv → length iv = 12%nat → json_ok cred = true →
  len (sc_encrypt rawKey iv (utf8_encode (stringify cred))) <= max_args →
  let expires := chosen_expiry now (sm_ttl m) in
  safe_expiry expires = true →
  ∃ k s1,
    createShare (post_share now cookie (Some v) id q) (document_cookie jar) origin max_args rawKey iv cred m s =
      (mkShareModal (sm_ttl m) (sm_singleView m) (origin ++ js "/share/" ++ id ++ js "#" ++ k) false false, s1) ∧
    ∀ now2 req c (s2 : Server S),
      shareIndex s2 !! id = shareIndex s1 !! id → shareFiles s2 !! (au_id a, id) = shareFiles s1 !! (au_id a, id) →
      (checkEmergencyRate (getClientIp req) now2 (store s2)).2.1 = true →
      let '(page, s3) := load_share (get_share now2 req id) c (35 :: k) id share_view s2 in
      if past now2 expires then sv_state page = SExpired ∧ sv_credential page = None
      else sv_state page = SSuccess ∧ sv_credential page = Some cred ∧ sv_isSingleView page = sm_singleView m ∧
        ∀ now3 req3 c3, past now3 expires = false → (checkEmergencyRate (getClientIp req3) now3 (store s3)).2.1 = true →
          let '(page3, _) := load_share (get_share now3 req3 id) c3 (35 :: k) id share_view s3 in
          if sm_singleView m then sv_state page3 = SAlreadyViewed ∧ sv_credential page3 = None
          else sv_state page3 = SSuccess ∧ sv_credential page3 = Some cred.
Proof.
  intros Hjar Hv Hvn Ha Han Hrate Hid Hk Hlk Hi Hli Hc Hmax expires Hsafe.
  destruct (create_stores jar v now cookie q id a s origin max_args rawKey iv cred m Hjar Hv Hvn Ha Hrate Hid Hk Hlk Hi Hli Hc Hmax)
    as (k & s1 & Ek & Hcr & r & [Hsi Hsf] & Hvw & Hh).
  exists k, s1. split; [done|]. intros now2 req c s2 Esi Esf Hr2.
  assert (Hst : stored_share a id r s2) by (split; congruence).
  destruct (open_stored a id r rawKey k cred _ _ now2 req c s2 Hk Hlk Ek Han Hid Hst Hh Hsafe Hr2) as (page & s3 & -> & Hp).
  fold expires in Hp. destruct (past now2 expires); [by destruct Hp as (? & ? & _)|]. rewrite Hvw, andb_false_r in Hp.
  destruct Hp as (? & ? & ? & Hst3). split; [done|]. split; [done|]. split; [done|]. intros now3 req3 c3 Hn3 Hr3.
  assert (Hh3 : holds_share rawKey cred (sm_singleView m) expires (if sm_singleView m then view r else r)) by (destruct (sm_singleView m); exact Hh).
  destruct (open_stored a id _ rawKey k cred _ _ now3 req3 c3 s3 Hk Hlk Ek Han Hid Hst3 Hh3 Hsafe Hr3) as (page3 & s4 & -> & Hp3).
  rewrite Hn3 in Hp3. destruct (sm_singleView m); cbn [andb view sh_viewed] in Hp3; by destruct Hp3 as (? & ? & _).
Qed.

(** A revoked link is dead: once the list has revoked a share of the user, it is off the
    list, and its link shows an error in every later state that has no such share. *)
Theorem revoked_link_dead jar v now cookie q id a (s : Server S) m key k :
  Forall cookie_ok jar → find_cookie CSRF jar = Some v → v ≠ [] →
  authMiddleware now cookie s = Some a → is_share_id id = true → is_Some (shareFiles s !! (au_id a, id)) →
  encodeURIComponent key = Some k →
  let '(m', s') := handleRevoke (delete_share now cookie (Some v) id q) (document_cookie jar) id m s in
  sl_shares m' = List.filter (λ x, negb (share_is id x)) (sl_shares m) ∧
  ∀ now2 req c (s2 : Server S), shareIndex s2 !! id = shareIndex s' !! id →
    let '(page, _) := load_share (get_share now2 req id) c (35 :: k) id share_view s2 in
    sv_state page = SError ∧ sv_credential page = None.
Proof.
  intros Hjar Hv Hvn Ha Hid Hsome Ek. unfold handleRevoke, revoke_request, apiFetch, delete_share.
  match goal with |- context [revoke_share now cookie ?c id q] => assert (Hc : csrf_ok c = true) end.
  { apply (csrf_header_ok jar v _ _ "DELETE"); try done. right; right; right; by left. }
  destruct (revoke_share_run now cookie _ id q s a Ha Hc Hid) as (s' & -> & Hgone). specialize (Hgone Hsome).
  change (response_of ROk) with (Some (mkResponse 200 (Some (stringify (JObj [(js "ok", JBool true)]))))). cbv beta iota.
  rewrite read_json by (by vm_compute). split; [done|]. intros now2 req c s2 Hi. rewrite Hgone in Hi.
  by destruct (open_gone id k key now2 req c s2 Ek Hi) as (page & s3 & -> & ? & ?).
Qed.
End claims.

Import Toy AccountSpec.

(** A cipher for witnesses. *)
Definition toy_share : ShareCrypto :=
  {| sc_encrypt k iv p := 1 :: p; sc_decrypt k iv c := match c with x :: p => if x =? 1 then Some p else None | [] => None end |}.
#[export] Existing Instance toy_share.
#[export] Instance toy_share_laws : ShareCryptoLaws toy_share.
Proof. split; [done| |done]. intros k iv p Hp. constructor; [unfold is_byte; lia|done]. Qed.
Definition toy_float : JsFloat := {| to_number := Float |}.
#[export] Existing Instance toy_float.

Definition toy_id : jsstr := js "0123456789abcdef0123456789abcdef".
Definition toy_cred : json := JObj [(js "id", JNum (Int 7)); (js "service", JStr (js "Mail")); (js "password", JStr (js "p#1"))].
Definition toy_jar : list (jsstr * jsstr) := [(js "lang", js "de"); (CSRF, js "c")].
Lemma toy_jar_ok : Forall cookie_ok toy_jar.
Proof. repeat constructor; try (apply has_unit_false; reflexivity); try discriminate; intros c s [= <- _]; reflexivity. Qed.

Lemma share_link_opens_witness :
  ∃ k s1,
    createShare (post_share now (Some cookie) (Some (js "c")) toy_id (attempt "x")) (document_cookie toy_jar) (js "https://x") 65536
      (replicate 32 7) (replicate 12 9) toy_cred (mkShareModal OneHour true [] false false) joined =
      (mkShareModal OneHour true (js "https://x" ++ js "/share/" ++ toy_id ++ js "#" ++ k) false false, s1) ∧
    let '(page, _) := load_share (get_share (now + 5) req toy_id) [] (35 :: k) toy_id share_view s1 in
    sv_state page = SSuccess ∧ sv_credential page = Some toy_cred.
Proof.
  destruct (share_link_opens toy_jar (js "c") now (Some cookie) (attempt "x") toy_id
    (mkAuthUser (js "n1") email_hash (js "jti1") (1700086400)) joined (js "https://x") 65536 (replicate 32 7) (replicate 12 9) toy_cred
    (mkShareModal OneHour true [] false false)) as (k & s1 & Hc & Ho).
  - exact toy_jar_ok.
  - reflexivity.
  - discriminate.
  - vm_compute. reflexivity.
  - discriminate.
  - vm_compute. reflexivity.
  - vm_compute. reflexivity.
  - by apply Forall_replicate.
  - reflexivity.
  - by apply Forall_replicate.
  - reflexivity.
  - vm_compute. reflexivity.
  - vm_compute. discriminate.
  - vm_compute. reflexivity.
  - exists k, s1. split; [exact Hc|].
    assert (Hrate : (checkEmergencyRate (getClientIp req) (now + 5) (store s1)).2.1 = true).
    { pose proof (f_equal (λ x, store x.2) Hc) as Hs. cbn [snd] in Hs. rewrite <- Hs. vm_compute. reflexivity. }
    specialize (Ho (now + 5) req [] s1 eq_refl eq_refl Hrate).
    destruct (load_share _ _ _ _ _ s1) as [page s3]. destruct Ho as (H1 & H2 & _). exact (conj H1 H2).
Defined.
End ShareSpec.
