(* ===== verification/AccountPages.v ===== *)
(** * Creating an account ([web/src/pages/Register.tsx], [web/src/pages/ForgotPassword.tsx])

    The registration form over daemon and server, and the form for a forgotten password.
    The keys are those of [Keystore], the server is the route of [AccountRoutes] through
    [apiFetch]. *)
From S2P Require Import Prelude JsRuntime JsText Base64 Json JsonSpec JsDyn JsObject FileCrypto StateStore RateLimiter ServerState ServerLogic LoginRoute AccountRoutes ReimportSpec ClientApi CardUtils CryptoUtils Mfa MfaSetup Keystore SecurityModes LoginPage LoginPageSpec ServerToy AccountClaims.

(** ** Rules of the form *)

Definition is_local_unit (c : Z) : bool := is_digit c || is_upper c || is_lower c || existsb (Z.eqb c) (js "._%+-").
Definition is_domain_unit (c : Z) : bool := is_digit c || is_upper c || is_lower c || existsb (Z.eqb c) (js ".-").
Definition is_letter (c : Z) : bool := is_upper c || is_lower c.

(** A name, a dot and a last label of at least two letters; no letter is a dot, so the
    last dot is the one before it. *)
Fixpoint domain_ok (before : bool) (s : jsstr) : bool :=
  match s with
  | [] => false
  | c :: s' =>
      (before && (c =? 46) && forallb is_letter s' && (2 <=? len s')) || (is_domain_unit c && domain_ok true s')
  end.

Fixpoint after_local (before : bool) (s : jsstr) : bool :=
  match s with
  | [] => false
  | c :: s' => if c =? 64 then before && domain_ok false s' else is_local_unit c && after_local true s'
  end.

Definition validateEmail (email : jsstr) : bool := after_local false email.

Definition has_special (s : jsstr) : bool := existsb (λ c, negb (is_digit c || is_upper c || is_lower c)) s.

(** [.] does not match the ends of lines. *)
Definition is_dot (c : Z) : bool := negb (existsb (Z.eqb c) [10; 13; 0x2028; 0x2029]).
Definition one_unit_repeated (s : jsstr) : bool :=
  match s with c :: (_ :: _) as s' => is_dot c && forallb (Z.eqb c) s | _ => false end.

Definition starts_ci (p : string) (s : jsstr) : bool := starts_with (js p) (lower_ascii s).

Definition WEAK_PATTERNS (s : jsstr) : bool :=
  one_unit_repeated s || existsb (λ p, starts_ci p s) ["0123456789"; "12345678901"; "abcdefghij"]%string
  || existsb (λ p, starts_ci p s) ["password"; "letmein"; "welcome"; "qwerty"]%string.

(** [charCodeAt(i) || 0] *)
Definition unit_at (s : jsstr) (i : nat) : Z := nth i s 0.

Fixpoint mismatch_loop (a b : jsstr) (i n : nat) (mismatch : Z) : Z :=
  match n with
  | O => mismatch
  | S n => mismatch_loop a b (S i) n (Z.lor mismatch (Z.lxor (unit_at a i) (unit_at b i)))
  end.

Definition mismatch (a b : jsstr) : Z :=
  mismatch_loop a b 0 (max (length a) (length b)) (if len a =? len b then 0 else 1).

(** The rules shown below the field; the last is unknown while the lookup runs. *)
Definition passwordRules (password : jsstr) (hibpChecking : bool) (hibpStatus : option bool) : list (option bool) :=
  [Some (12 <=? len password); Some (has_special password);
   Some ((0 <? len password) && negb (WEAK_PATTERNS password)); if hibpChecking then None else hibpStatus].

(** ** The registration *)

Inductive RegisterError :=
| ErrEmail | ErrRequired | ErrLength | ErrSpecial | ErrWeak | ErrMatch | ErrPwned | ErrTaken | ErrServer (text : jsstr) | ErrUnexpected.

Record RegisterPage := mkRegisterPage {
  rp_firstName : jsstr; rp_lastName : jsstr; rp_company : jsstr; rp_email : jsstr; rp_password : jsstr; rp_confirm : jsstr;
  rp_error : option RegisterError; rp_loading : bool; rp_vault : bool  (* navigated to the vault *) }.

Definition done_with (p : RegisterPage) (e : option RegisterError) (loading vault : bool) : RegisterPage :=
  mkRegisterPage (rp_firstName p) (rp_lastName p) (rp_company p) (rp_email p) (rp_password p) (rp_confirm p) e loading vault.

(** The checks before anything is sent. *)
Definition register_checks (p : RegisterPage) : option RegisterError :=
  if negb (validateEmail (rp_email p)) then Some ErrEmail
  else if str_empty (rp_firstName p) || str_empty (rp_lastName p) || str_empty (rp_password p) then Some ErrRequired
  else if len (rp_password p) <? 12 then Some ErrLength
  else if negb (has_special (rp_password p)) then Some ErrSpecial
  else if WEAK_PATTERNS (rp_password p) then Some ErrWeak
  else if negb (mismatch (rp_password p) (rp_confirm p) =? 0) then Some ErrMatch
  else None.

(** What the daemon answers to [register]: the token of the unlocked vault, or the
    message of its error. *)
Record RegisterEnv := mkRegisterEnv {
  re_hibp : option bool;                   (* found in a breach; [None]: not reachable *)
  re_filter : option bool;                 (* the filter of the daemon *)
  re_daemon : result jsstr jsstr;
  re_rand : bytes; re_uuid : jsstr;
  re_subtle : bool }.                      (* WebCrypto is there *)

(** [pwned] of the first lookup that answers; neither blocks when both fail. *)
Definition breached (e : RegisterEnv) : bool := default (default false (re_filter e)) (re_hibp e).

Definition says_exists (msg : jsstr) : bool :=
  includes (js "already exists") msg || includes (js "409") msg || includes (js "Item already exists") msg.

Section register.
Context {JF : JsFloat} {KD : KeyDerivation} {A2 : Argon2}.

Definition store_key (e : RegisterEnv) (password salt : jsstr) (t : Keystore.tab) : Keystore.tab :=
  if re_subtle e then storeLocalKey (deriveLocalKey password salt) 1 t else t.

Definition register_body (p : RegisterPage) (salt : jsstr) : json :=
  obj_ [("email", JStr (rp_email p)); ("password", JStr (rp_password p)); ("firstName", JStr (rp_firstName p));
        ("lastName", JStr (rp_lastName p)); ("cryptoSalt", JStr salt)]%string.

Definition server_error (data : json) : RegisterError :=
  if bool_decide (prop "error" data = Some (JStr (js "email_taken"))) then ErrTaken
  else match prop "error" data with Some (JStr ((_ :: _) as s)) => ErrServer s | _ => ErrUnexpected end.

Definition handleRegister {W} (fetch : Request → W → W * option Response) (cookie : jsstr) (e : RegisterEnv) (p : RegisterPage)
    (b : Browser) (w : W) : RegisterPage * Browser * W :=
  match register_checks p with
  | Some err => (done_with p (Some err) (rp_loading p) (rp_vault p), b, w)
  | None =>
      if breached e then (done_with p (Some ErrPwned) (rp_loading p) (rp_vault p), b, w)
      else
        match re_daemon e with
        | Ok token =>
            let '(ss, salt) := getOrCreateLocalKeySalt (re_rand e) (b_salts b) in
            (done_with p None true true,
             set_salts (set_tab b (store_key e (rp_password p) salt (Keystore.store token (b_tab b)))) ss (b_salt_legacy b), w)
        | Throw msg =>
            if says_exists msg then (done_with p (Some ErrTaken) false (rp_vault p), b, w)
            else
              let '(ss, salt) := getOrCreateLocalKeySalt (re_rand e) (b_salts b) in
              let b := set_salts b ss (b_salt_legacy b) in
              let opts := mkInit (Some (js "POST")) [] (Some (stringify (register_body p salt))) in
              match apiFetch fetch cookie (js "/api/auth/register") opts w with
              | (w, Ok _) =>
                  (done_with p None false true,
                   set_tab b (store_key e (rp_password p) salt (Keystore.store (re_uuid e) (b_tab b))), w)
              | (w, Throw (ApiError _ data)) => (done_with p (Some (server_error data)) false (rp_vault p), b, w)
              | (w, Throw _) => (done_with p (Some ErrUnexpected) false (rp_vault p), b, w)
              end
        end
  end.
End register.

(** ** The form for a forgotten password *)

Inductive ForgotError := ForgotInvalidEmail | ForgotNoSmtp.
Record ForgotPage := mkForgotPage { fg_email : jsstr; fg_success : bool; fg_error : option ForgotError }.

(** [config]: the entry [email_server_config] of [localStorage].  No request is made. *)
Definition forgot_submit (config : option jsstr) (p : ForgotPage) : ForgotPage :=
  if negb (validateEmail (fg_email p)) then mkForgotPage (fg_email p) (fg_success p) (Some ForgotInvalidEmail)
  else match config with
       | Some (_ :: _) => mkForgotPage (fg_email p) true None
       | _ => mkForgotPage (fg_email p) (fg_success p) (Some ForgotNoSmtp)
       end.

(** ** Over the route of the server *)

Section route.
Context {S : Type} {HS : StateStore S} {SH : ServerHash} {SP : ServerPassword} {JW : Jwe} {SE : ServerEnv} {JC : JsCase} {JF : JsFloat}.

(** What the handler reads of the request; [q] has the rest, with the id that is drawn. *)
Definition register_req (q : RegisterReq) (body : json) : option RegisterReq :=
  email ← as_string (prop "email" body);
  password ← as_string (prop "password" body);
  firstName ← as_string (prop "firstName" body);
  lastName ← as_string (prop "lastName" body);
  salt ← (match prop "cryptoSalt" body with None => Some None | Some (JStr s) => Some (Some s) | Some _ => None end);
  let l := rg_login q in
  Some (mkRegisterReq (mkLoginReq (lq_req l) email password (lq_fp l) (lq_ctx l) (lq_ipInfo l) (lq_riskFlags l)) firstName lastName salt (rg_id q)).

(** A session is answered with [{ ok: true }] and its cookies. *)
Definition register_response (r : reply) : option Response :=
  match r with RSession _ _ _ => response_of ROk | _ => response_of r end.

Definition post_register (now : Z) (rnd : Rand) (meanwhile : Server S → Server S) (q : RegisterReq) (rq : Request) (s : Server S)
    : Server S * option Response :=
  match (t ← rq_body rq; body ← parse t; register_req q body) with
  | Some q => let '(s, r) := ServerState.run (AccountRoutes.register now rnd meanwhile q) s in (s, register_response r)
  | None =>
      let '(s, r) := ServerState.run (ok ← rate (checkRegisterRate (getClientIp (lq_req (rg_login q))) now);
                                      _ ← stop_if (negb ok) (RErr 429 "too_many_requests"); stop (RErr 400 "invalid_input")) s in
      (s, response_of r)
  end.

(** The account a registration leaves. *)
Definition registered (q : RegisterReq) (r : reply) (s : Server S) : Prop :=
  match r with
  | RSession _ _ _ => ∃ u, find_hash (hashEmail MASTER_KEY (lq_email (rg_login q))) s = Some u ∧
      u_cryptoSalt u = rg_cryptoSalt q ≫= or_undefined
  | _ => True
  end.

Lemma find_hash_new h u (l : list User) : existsb (by_hash h) l = false → by_hash h u = true → List.find (by_hash h) (l ++ [u]) = Some u.
Proof.
  induction l as [|x l IH]; cbn [existsb Datatypes.app List.find]; [by intros _ ->|]. intros [Hx Hl]%orb_false_iff Hu. by rewrite Hx, IH.
Qed.

Lemma wp_register_account now rnd meanwhile q s :
  wp (AccountRoutes.register now rnd meanwhile q) (registered q) (registered q) s.
Proof.
  unfold AccountRoutes.register, rate, insert_user, open_session, recordSession. wp_step. wp_step. wp_step. wp_step; [done|].
  wp_step. wp_step; [done|]. wp_step. wp_step. wp_step. wp_step; [done|]. wp_step. wp_step; [|done].
  wp_step. wp_step. wp_step. unfold wp at 1.
  destruct (existsb _ _) eqn:Eh; cbn beta iota.
  - wp_step. wp_step; done.
  - wp_step. wp_step; [done|]. repeat wp_step. unfold registered.
    eexists. split; [exact (find_hash_new _ _ _ Eh (proj2 (str_eqb_eq _ _) eq_refl))|reflexivity].
Qed.
End route.

(** ** Lemmas *)

Lemma mismatch_loop_zero a b n i m :
  mismatch_loop a b i n m = 0 ↔ m = 0 ∧ ∀ j, (i <= j < i + n)%nat → unit_at a j = unit_at b j.
Proof.
  revert i m. induction n as [|n IH]; intros i m; cbn [mismatch_loop].
  - split; [|by intros [? _]]. intros ->. split; [done|]. intros j. lia.
  - rewrite IH, Z.lor_eq_0_iff, Z.lxor_eq_0_iff. split.
    + intros [[Hm Hi] Hj]. split; [done|]. intros j Hr. destruct (decide (j = i)) as [->|]; [done|]. apply Hj. lia.
    + intros [Hm Hj]. split; [split; [done|apply Hj; lia]|]. intros j Hr. apply Hj. lia.
Qed.

(** The comparison of the form finds every difference. *)
Lemma mismatch_equal a b : mismatch a b = 0 ↔ a = b.
Proof.
  unfold mismatch. rewrite mismatch_loop_zero. split.
  - intros [Hl Hu]. destruct (Z.eqb_spec (len a) (len b)) as [Hlen|]; [|done]. unfold len in Hlen.
    apply (nth_ext a b 0 0); [lia|]. intros j Hj. apply Hu. lia.
  - intros ->. by rewrite Z.eqb_refl.
Qed.

Section keys.
Context {KD : KeyDerivation} {A2 : Argon2}.

(** The vault key after a login the server accepts with the salt [s]. *)
Lemma login_v1 e p b a s p' b' tasks ts :
  submits e p b → le_server e = Some a → accepts a → server_salt a = Some s → le_subtle e = true →
  handleLogin e p b = (p', b', tasks) → localKeyV1 (mem (run_tasks ts (b_tab b'))) = Some (encKey (deriveV1Only (lp_password p) s)).
Proof.
  intros Hsub Hserv (Hst & Hok & Herr & Hpt) Hs Hsubtle Hr. rewrite (submits_server e p b a) in Hr by done.
  set (b0 := with_cookie _ _) in Hr. assert (F := server_login_frame (started p) e (own_salt e b) a b0 Hpt). rewrite Hr in F.
  cbn [fst snd] in F. destruct F as (Ft & _ & _). destruct (run_tasks_v1 ts (b_tab b')) as (_ & -> & _). rewrite Ft.
  by destruct (server_keys_v1 (started p) e (own_salt e b) a b0 s Hs Hsubtle) as (-> & _).
Qed.

Lemma store_key_v1 e password salt token (t : Keystore.tab) :
  re_subtle e = true → localKeyV1 (mem (store_key e password salt (Keystore.store token t))) = Some (encKey (deriveV1Only password salt)).
Proof. intros He. unfold store_key. rewrite He. done. Qed.
End keys.

Section bodies.
Context {JF : JsFloat}.

Lemma register_body_ok p salt :
  forallb text_ok [rp_email p; rp_password p; rp_firstName p; rp_lastName p; salt] = true → json_ok (register_body p salt) = true.
Proof.
  intros Ht. unfold register_body. rewrite json_ok_obj by (by vm_compute). cbn [forallb snd json_ok] in *. done.
Qed.

(** The request the handler sees. *)
Definition sent_req (q : RegisterReq) (p : RegisterPage) (salt : jsstr) : RegisterReq :=
  let l := rg_login q in
  mkRegisterReq (mkLoginReq (lq_req l) (rp_email p) (rp_password p) (lq_fp l) (lq_ctx l) (lq_ipInfo l) (lq_riskFlags l))
    (rp_firstName p) (rp_lastName p) (Some salt) (rg_id q).

Lemma register_req_body q p salt : register_req q (register_body p salt) = Some (sent_req q p salt).
Proof. reflexivity. Qed.

Lemma read_ok : read_response (mkResponse 200 (Some (stringify (JObj [(js "ok", JBool true)])))) = Ok (Some (JObj [(js "ok", JBool true)])).
Proof. unfold read_response. cbn -[parse stringify]. by rewrite parse_stringify. Qed.

Context {S : Type} {HS : StateStore S} {SH : ServerHash} {SP : ServerPassword} {JW : Jwe} {SE : ServerEnv} {JC : JsCase}.

Lemma request_body cookie url i : rq_body (request_of cookie url i) = ri_body i.
Proof. reflexivity. Qed.

Lemma response_ok : response_of ROk = Some (mkResponse 200 (Some (stringify (JObj [(js "ok", JBool true)])))).
Proof. reflexivity. Qed.

Lemma post_register_parsed now rnd meanwhile q rq (s : Server S) body :
  rq_body rq ≫= parse = Some body →
  post_register now rnd meanwhile q rq s =
    match register_req q body with
    | Some q => let '(s, r) := ServerState.run (AccountRoutes.register now rnd meanwhile q) s in (s, register_response r)
    | None => post_register now rnd meanwhile q rq s
    end.
Proof. intros Hb. unfold post_register. destruct (rq_body rq) as [t|]; [|done]. cbn [mbind option_bind] in *. rewrite Hb. cbn [mbind option_bind]. by destruct (register_req q body).
Qed.

(** A registration the server accepts, as the page sees it. *)
Lemma register_accepted now rnd meanwhile q p salt cookie (s s' : Server S) t csrf vs :
  forallb text_ok [rp_email p; rp_password p; rp_firstName p; rp_lastName p; salt] = true →
  ServerState.run (AccountRoutes.register now rnd meanwhile (sent_req q p salt)) s = (s', RSession t csrf vs) →
  apiFetch (post_register now rnd meanwhile q) cookie (js "/api/auth/register")
    (mkInit (Some (js "POST")) [] (Some (stringify (register_body p salt)))) s = (s', Ok (Some (JObj [(js "ok", JBool true)]))).
Proof.
  intros Ht Hrun. unfold apiFetch. rewrite (post_register_parsed now rnd meanwhile q _ s (register_body p salt)).
  - rewrite register_req_body, Hrun. change (register_response (RSession t csrf vs)) with (response_of ROk).
    rewrite response_ok. by rewrite read_ok.
  - rewrite request_body. cbn [ri_body mbind option_bind]. apply parse_stringify, register_body_ok, Ht.
Qed.
End bodies.

Module PagesSpec.
Section claims.
Context {S : Type} {HS : StateStore S} {SH : ServerHash} {SP : ServerPassword} {JW : Jwe} {SE : ServerEnv} {JC : JsCase} {JF : JsFloat}
        {KD : KeyDerivation} {A2 : Argon2}.

(** C11: What is stored after a registration can be read after every later login.  When
    the server accepts the registration the page sends, the tab has the vault key of the
    password and of the salt of the browser, and the account carries that salt; a login
    on any browser, in any state and with whatever salts of its own, that the server
    accepts with the salt of the account ends with the same vault key, also after any of
    its background work. *)
Theorem registered_key_found_again now rnd meanwhile q e p b (s : Server S) cookie msg t csrf vs :
  register_checks p = None → breached e = false → re_daemon e = Throw msg → says_exists msg = false → re_subtle e = true →
  let salt := (getOrCreateLocalKeySalt (re_rand e) (b_salts b)).2 in
  is_hex32 salt = true → forallb text_ok [rp_email p; rp_password p; rp_firstName p; rp_lastName p; salt] = true →
  (ServerState.run (AccountRoutes.register now rnd meanwhile (sent_req q p salt)) s).2 = RSession t csrf vs →
  let '(p', b', s') := handleRegister (post_register now rnd meanwhile q) cookie e p b s in
  rp_vault p' = true ∧ rp_error p' = None ∧ localKeyV1 (mem (b_tab b')) = Some (encKey (deriveV1Only (rp_password p) salt)) ∧
  ∃ u, find_hash (hashEmail MASTER_KEY (rp_email p)) s' = Some u ∧
    ∀ e2 p2 b2 a p3 b3 tasks ts,
      lp_password p2 = rp_password p → submits e2 p2 b2 → le_server e2 = Some a → accepts a → la_salt a = u_cryptoSalt u →
      le_subtle e2 = true → handleLogin e2 p2 b2 = (p3, b3, tasks) →
      localKeyV1 (mem (run_tasks ts (b_tab b3))) = localKeyV1 (mem (b_tab b')).
Proof.
  intros Hck Hbr Hd Hex Hsub salt Hhex Ht Hrun. unfold handleRegister. rewrite Hck, Hbr, Hd, Hex. unfold salt in *. clear salt.
  destruct (getOrCreateLocalKeySalt (re_rand e) (b_salts b)) as [ss salt]. cbn [snd] in *.
  pose proof (wp_run _ (registered (sent_req q p salt)) s (wp_register_account now rnd meanwhile (sent_req q p salt) s)) as Hreg.
  destruct (ServerState.run _ s) as [s' r] eqn:Er. cbn [fst snd] in *. subst r.
  rewrite (register_accepted now rnd meanwhile q p salt cookie s s' t csrf vs Ht Er).
  split; [done|]. split; [done|]. cbn [set_tab b_tab set_salts]. rewrite store_key_v1 by done. split; [done|].
  destruct Hreg as (u & Hu & Hs). exists u. split; [exact Hu|]. intros e2 p2 b2 a p3 b3 tasks ts Hpw Hs2 Ha Hacc Hla Hsub2 Hlog.
  rewrite <- Hpw. apply (login_v1 e2 p2 b2 a salt p3 b3 tasks ts Hs2 Ha Hacc); [|done|done]. unfold server_salt. rewrite Hla, Hs.
  cbn [sent_req rg_cryptoSalt mbind option_bind]. destruct salt as [|c0 r]; [done|]. cbn [or_undefined truthy_text]. by rewrite Hhex.
Qed.

(** The form lets nothing through that the rules shown below it do not allow, and with a
    clean password every failed check is one of them or the comparison. *)
Theorem checks_are_the_rules p status :
  register_checks p = None →
  rp_password p = rp_confirm p ∧ Forall (λ r, r = Some true) (take 3 (passwordRules (rp_password p) false status)) ∧
  12 <= len (rp_password p) ∧ rp_firstName p ≠ [] ∧ rp_lastName p ≠ [].
Proof.
  unfold register_checks. destruct (validateEmail _); [|done]. cbn [negb].
  destruct (rp_firstName p) as [|? ?]; [done|]. destruct (rp_lastName p) as [|? ?]; [done|]. destruct (rp_password p) as [|c t] eqn:Ep; [done|].
  cbn [str_empty orb]. rewrite <- Ep in *. destruct (Z.ltb_spec (len (rp_password p)) 12); [done|].
  destruct (has_special (rp_password p)) eqn:Es; [|done]. destruct (WEAK_PATTERNS (rp_password p)) eqn:Ew; [done|]. cbn [negb].
  destruct (Z.eqb_spec (mismatch (rp_password p) (rp_confirm p)) 0) as [Hm|]; [|done]. intros _.
  apply mismatch_equal in Hm. split; [done|]. split; [|done].
  unfold passwordRules. rewrite Es, Ew. cbn [take negb]. rewrite (proj2 (Z.leb_le 12 _)), (proj2 (Z.ltb_lt 0 _)) by lia. by repeat constructor.
Qed.

(** The form for a forgotten password reports success without asking anybody: whatever
    address is entered, the server is not involved, and the report depends only on an
    entry of this browser. *)
Theorem forgot_never_sends config p :
  fg_success (forgot_submit config p) = true →
  fg_success p = true ∨ (validateEmail (fg_email p) = true ∧ ∃ c s, config = Some (c :: s)).
Proof.
  unfold forgot_submit. destruct (validateEmail _); cbn [negb]; [|by left]. destruct config as [[|c s]|]; cbn; eauto.
Qed.
End claims.

Import Toy AccountSpec.

Definition new_page : RegisterPage :=
  mkRegisterPage (js "A") (js "B") [] (js "a@b.co") (js "long enough, mostly") (js "long enough, mostly") None false false.
Definition offline_env : RegisterEnv := mkRegisterEnv (Some false) None (Throw (js "daemon unreachable")) (zeros 16) (js "uuid") true.
Definition old_salt : Browser :=
  mkBrowser (Keystore.mkTab Keystore.no_keys None true []) (mkSalts None (Some SALT)) None no_modes None None ∅.
Definition as_registered : LoginPage :=
  mkLogin StepMethod (js "a@b.co") (rp_password new_page) None false ByTotp false None None true true getLoginHints (empty_boxes 6) None AtLogin.
Definition asked : RegisterReq := mkRegisterReq (attempt "") [] [] None (js "n7").
Definition page_float : JsFloat := {| to_number := Float |}.
#[export] Existing Instance page_float.

Lemma registered_key_found_again_witness :
  let '(p', b', _) := handleRegister (post_register now rnd (λ s, s) asked) [] offline_env new_page old_salt (fresh_server ∅) in
  rp_vault p' = true ∧
  localKeyV1 (mem (b_tab (handleLogin (env_with 1000 positive None) as_registered old_browser).1.2)) = localKeyV1 (mem (b_tab b')).
Proof.
  pose proof (registered_key_found_again now rnd (λ s, s) asked offline_env new_page old_salt (fresh_server ∅) [] (js "daemon unreachable")
    (issueJwt now (js "jti1") (js "n7")) (js "csrf") None ltac:(vm_compute; reflexivity) ltac:(vm_compute; reflexivity) eq_refl ltac:(vm_compute; reflexivity) eq_refl
    ltac:(vm_compute; reflexivity) ltac:(vm_compute; reflexivity) ltac:(vm_compute; reflexivity)) as H.
  destruct (handleRegister _ _ _ _ _ _) as [[p' b'] s'] eqn:E. destruct H as (Hv & _ & _ & u & Hu & Hl). split; [exact Hv|].
  apply (Hl (env_with 1000 positive None) as_registered old_browser positive
    (handleLogin (env_with 1000 positive None) as_registered old_browser).1.1
    (handleLogin (env_with 1000 positive None) as_registered old_browser).1.2
    (handleLogin (env_with 1000 positive None) as_registered old_browser).2 []).
  - reflexivity.
  - split_and!; try reflexivity. left. reflexivity.
  - reflexivity.
  - split_and!; try reflexivity; discriminate.
  - pose proof (f_equal (λ x, u_cryptoSalt <$> find_hash (hashEmail MASTER_KEY (js "a@b.co")) x.2) E) as Hs. cbn [snd] in Hs.
    change (rp_email new_page) with (js "a@b.co") in Hu. rewrite Hu in Hs. cbn [fmap option_fmap option_map] in Hs.
    match type of Hs with ?x = _ => assert (Hc : x = Some (Some SALT)) by (vm_compute; reflexivity); rewrite Hc in Hs end.
    injection Hs as <-. reflexivity.
  - reflexivity.
  - apply triple_eta.
Defined.
End PagesSpec.
