(* ===== verification/AppSession.v ===== *)
(** * The session of the page ([web/src/layouts/AppLayout.tsx],
      [web/src/context/UserContext.tsx], [web/src/components/Sidebar.tsx],
      [web/src/components/Header.tsx], [web/src/utils/sessionTracker.ts],
      [web/src/pages/Settings/hooks/useSecurityModes.ts], [web/src/context/NotificationContext.tsx])

    The frame around the pages of the application: the check for keys when it is opened,
    the lock after inactivity, leaving when the session is gone, logging out, the list of
    sessions and the notifications the browser keeps. *)
From Stdlib Require Import Sorting.Sorted.
From S2P Require Import Prelude JsRuntime JsText Base64 Json JsonSpec JsDyn JsObject CryptoUtils Types PasswordHealth Keystore VaultSync LocalCrypto ReimportSpec ServerState ClientApi Sharing.

(** ** State *)

(** [sh_lockMs]: [None] is [NaN]; [sh_timer]: when the timer that is set runs out.
    [sh_left]: the frame has been left for the login page. *)
Record Shell := mkShell {
  sh_tab : Keystore.tab; sh_csrf : bool; sh_mfaCache : bool; sh_restoring : bool;
  sh_lockMs : option Z; sh_timer : option Z; sh_left : bool }.

Definition with_tab (s : Shell) (t : Keystore.tab) : Shell :=
  mkShell t (sh_csrf s) (sh_mfaCache s) (sh_restoring s) (sh_lockMs s) (sh_timer s) (sh_left s).
Definition with_timer (s : Shell) (d : option Z) : Shell :=
  mkShell (sh_tab s) (sh_csrf s) (sh_mfaCache s) (sh_restoring s) (sh_lockMs s) d (sh_left s).

(** [navigate('/login')]: the frame is unmounted and its timer cleared. *)
Definition leave (s : Shell) : Shell :=
  mkShell (sh_tab s) (sh_csrf s) (sh_mfaCache s) (sh_restoring s) (sh_lockMs s) None true.

(** ** Lock after inactivity *)

(** The value of [session_lock_timeout]. *)
Definition lock_ms (v : option jsstr) : option Z :=
  let v := default (js "300000") v in if str_eqb v (js "off") then Some 0 else parseInt10 v.

(** [setTimeout(f, ms)]: the delay is a 32-bit integer, at least 0. *)
Definition delay (ms : Z) : Z := Z.max 0 (to_int32 ms).

Definition scheduleTimer (now : Z) (s : Shell) : Shell :=
  with_timer s (match sh_lockMs s with Some ms => if ms =? 0 then None else Some (now + delay ms) | None => None end).

Definition onSettingChange (val : jsstr) (now : Z) (s : Shell) : Shell :=
  scheduleTimer now (mkShell (sh_tab s) (sh_csrf s) (sh_mfaCache s) (sh_restoring s) (lock_ms (Some val)) (sh_timer s) (sh_left s)).

(** [performLock], and [performLogout] of the sidebar and the header: the server clears
    the cookies when it can be reached. *)
Definition performLock (reached : bool) (s : Shell) : Shell :=
  leave (mkShell (Keystore.clear (sh_tab s)) (sh_csrf s && negb reached) false (sh_restoring s) (sh_lockMs s) (sh_timer s) (sh_left s)).

(** The button of the sidebar; [None]: it asks first, since changes wait to be sent. *)
Definition handleLogout (pendingSyncCount : Z) (reached : bool) (s : Shell) : option Shell :=
  if 0 <? pendingSyncCount then None else Some (performLock reached s).

(** ** Opening the frame *)

(** [keyStore.getLocalKey(v) !== null] after the keys are restored. *)
Definition hasLocalKeys (t : Keystore.tab) : bool :=
  bool_decide (is_Some (localKeyV1 (mem t))) || bool_decide (is_Some (localKeyV2 (mem t))).
Definition hasToken (t : Keystore.tab) : bool := bool_decide (is_Some (k_token (mem t))).

(** The effect that guards the frame. *)
Definition guard (loaded : bool) (s : Shell) : Shell :=
  if sh_restoring s then s
  else if negb (hasToken (sh_tab s)) && (negb (sh_csrf s) || negb (hasLocalKeys (sh_tab s))) then leave s
  else if sh_csrf s then
    mkShell (sh_tab s) (sh_csrf s) (sh_mfaCache s || loaded) (sh_restoring s) (sh_lockMs s) (sh_timer s) (sh_left s)
  else s.

(** [restoreAsync().finally(...)] *)
Definition restored (s : Shell) : Shell :=
  mkShell (restoreAsync (sh_tab s)) (sh_csrf s) (sh_mfaCache s) false (sh_lockMs s) (sh_timer s) (sh_left s).

(** The first rendering and its effects, in their order: restoring is started, the guard
    runs, the timer is set.  The guard depends on [navigate], which stays the same, so it
    does not run again when the keys are restored. *)
Definition mount (v : option jsstr) (now : Z) (t : Keystore.tab) (csrf mfaCache loaded : bool) : Shell :=
  scheduleTimer now (guard loaded (mkShell t csrf mfaCache true (lock_ms v) None false)).

(** ** Validation *)

Definition handleVisibility (s : Shell) : Shell :=
  if negb (sh_csrf s) && negb (hasToken (sh_tab s)) then leave (with_tab s (Keystore.clear (sh_tab s))) else s.

Definition handleSessionInvalid (s : Shell) : Shell := leave (with_tab s (Keystore.clear (sh_tab s))).

(** ** The profile *)

Record UserProfile := mkUserProfile {
  up_firstName : jsstr; up_lastName : jsstr; up_email : jsstr; up_photoUrl : option bytes;
  up_passwordChangedAt : option json; up_recoveryKeyGeneratedAt : option json }.

Definition or_empty_text (v : option json) : jsstr := match v with Some (JStr s) => s | _ => [] end.

(** [data && data.authenticated && data.user]: the texts the server sends. *)
Definition me_profile (data : option json) (p : UserProfile) : option UserProfile :=
  d ← data;
  if negb (truthy (prop "authenticated" d)) then None
  else match prop "user" d with
       | Some (JObj u as user) =>
           Some (mkUserProfile (or_empty_text (prop "firstName" user)) (or_empty_text (prop "lastName" user))
                   (or_empty_text (prop "email" user)) (up_photoUrl p) (prop "passwordChangedAt" user)
                   (prop "recoveryKeyGeneratedAt" user))
       | _ => None
       end.

(** What the daemon answers: the profile with its picture, or an error that says the
    session has expired or not. *)
Inductive DaemonProfile := DProfile (firstName lastName email : jsstr) (pic : bytes) (changedAt : option json) | DFailed (expired : bool).

(** [me]: the answer of [/api/auth/me], [None] when the request fails in any way. *)
Definition reloadProfile (d : DaemonProfile) (me : option json) (p : UserProfile) (s : Shell) : UserProfile * Shell :=
  match d with
  | DProfile firstName lastName email pic changedAt =>
      (mkUserProfile firstName lastName email (if 0 <? len pic then Some pic else None) changedAt (up_recoveryKeyGeneratedAt p), s)
  | DFailed expired =>
      if expired && negb (sh_csrf s) then (p, handleSessionInvalid s)
      else match me_profile me p with
           | Some p => (p, s)
           | None => (p, handleSessionInvalid s)
           end
  end.

(** ** Events of the frame *)

Inductive shell_event :=
| EActivity (now : Z)                        (* a key, the mouse, a touch *)
| ESetting (val : jsstr) (now : Z)           (* the setting of the lock is changed *)
| EElapse (now : Z) (reached : bool)         (* the browser runs the timers that are due *)
| ERestored
| EVisible
| EInvalid
| EJob (i : nat)                             (* a step of a running [persistToSessionStorage] *)
| EKeys (o : Keystore.op).                   (* a key is stored, as by a derivation that has ended *)

(** The timer and the listeners of a frame that has been left are gone; the key store
    outlives it: what runs there goes on, and the next page restores the keys again. *)
Definition shell_step (s : Shell) (e : shell_event) : Shell :=
  match e with
  | EJob i => with_tab s (step_job i (sh_tab s))
  | EKeys o => with_tab s (apply_op o (sh_tab s))
  | ERestored => restored s
  | _ =>
  if sh_left s then s
  else match e with
       | EActivity now => scheduleTimer now s
       | ESetting val now => onSettingChange val now s
       | EElapse now reached => match sh_timer s with Some d => if d <=? now then performLock reached s else s | None => s end
       | EVisible => handleVisibility s
       | EInvalid => handleSessionInvalid s
       | _ => s
       end
  end.
Definition shell_run (s : Shell) (l : list shell_event) : Shell := fold_left shell_step l s.

(** ** The sessions the browser keeps ([sessionTracker.ts]) *)

Record LoginSession := mkLoginSession {
  ls_id : jsstr; ls_timestamp : Z; ls_deviceName : jsstr; ls_ip : jsstr; ls_userAgent : jsstr; ls_isCurrent : bool }.

Definition SESSIONS_KEY : jsstr := js "login_sessions".

Definition detectOSFromUA (ua : jsstr) (unknown : jsstr) : jsstr :=
  if has_ci "macintosh" ua || has_ci "mac os x" ua then js "macOS"
  else if has_ci "windows nt 10" ua then js "Windows 10/11"
  else if has_ci "windows" ua then js "Windows"
  else if has_ci "iphone" ua || has_ci "ipad" ua then js "iOS"
  else if has_ci "android" ua then js "Android"
  else if has_ci "linux" ua then js "Linux" else unknown.

Definition detectBrowserFromUA (brave : bool) (ua : jsstr) (unknown : jsstr) : jsstr :=
  if brave then js "Brave"
  else if has_ci "vivaldi" ua then js "Vivaldi"
  else if has_ci "edg/" ua then js "Edge"
  else if has_ci "opr/" ua || has_ci "opera" ua then js "Opera"
  else if has_digit "chrome/" ua && negb (has_ci "chromium" ua) then js "Chrome"
  else if has_digit "firefox/" ua then js "Firefox"
  else if has_digit "safari/" ua then js "Safari" else unknown.

Definition session_json (x : LoginSession) : json :=
  obj_ [("id", JStr (ls_id x)); ("timestamp", JNum (Int (ls_timestamp x))); ("deviceName", JStr (ls_deviceName x)); ("ip", JStr (ls_ip x));
        ("userAgent", JStr (ls_userAgent x)); ("isCurrent", JBool (ls_isCurrent x))]%string.

(** The objects the module writes. *)
Definition session_of (v : json) : option LoginSession :=
  match prop "id" v, prop "timestamp" v, prop "deviceName" v, prop "ip" v, prop "userAgent" v, prop "isCurrent" v with
  | Some (JStr id), Some (JNum (Int t)), Some (JStr d), Some (JStr ip), Some (JStr ua), Some (JBool c) => Some (mkLoginSession id t d ip ua c)
  | _, _, _, _, _, _ => None
  end.

(** The stable sort by falling time. *)
Fixpoint insert_session (x : LoginSession) (l : list LoginSession) : list LoginSession :=
  match l with
  | [] => [x]
  | y :: l' => if ls_timestamp y <? ls_timestamp x then x :: l else y :: insert_session x l'
  end.
Definition sort_desc (l : list LoginSession) : list LoginSession := fold_left (λ acc x, insert_session x acc) l [].

Definition not_current (x : LoginSession) : LoginSession :=
  mkLoginSession (ls_id x) (ls_timestamp x) (ls_deviceName x) (ls_ip x) (ls_userAgent x) false.

(** [existing.length > 19 ? existing.slice(existing.length - 19) : existing] *)
Definition trimmed (l : list LoginSession) : list LoginSession := if 19 <? len l then drop (length l - 19) l else l.

Definition add_login (x : LoginSession) (l : list LoginSession) : list LoginSession := map not_current (trimmed l) ++ [x].

Section tracker.
Context {C : SessionCrypto} {JF : JsFloat}.

(** [None]: the text is no list of sessions, which this module never writes. *)
Definition readSessions (k : SecureKeyStore) (st : storage) : option (list LoginSession) :=
  match readDecryptedLocal k SESSIONS_KEY st with
  | None | Some [] => Some []
  | Some raw => match parse raw with
                | None => Some []
                | Some (JArr l) => mapM session_of l
                | Some _ => None
                end
  end.

Definition write_sessions (k : SecureKeyStore) (iv : bytes) (l : list LoginSession) (st : storage) : storage :=
  writeEncryptedLocal k iv SESSIONS_KEY (stringify (JArr (map session_json l))) st.

(** [ip]: the answer of [/api/my-ip], the name of the host without one. *)
Definition shown_ip (hostname : jsstr) (answer : option jsstr) : jsstr :=
  let ip := match answer with Some ((_ :: _) as ip) => ip | _ => hostname end in
  if str_empty ip || str_eqb ip (js "localhost") || str_eqb ip (js "::1") then js "127.0.0.1" else ip.

Definition new_session (uuid : jsstr) (now : Z) (brave : bool) (ua hostname : jsstr) (answer : option jsstr) (unknownOS unknownBrowser : jsstr)
    : LoginSession :=
  mkLoginSession uuid now (detectOSFromUA ua unknownOS ++ js " - " ++ detectBrowserFromUA brave ua unknownBrowser)
    (shown_ip hostname answer) ua true.

Definition recordSession (k : SecureKeyStore) (iv : bytes) (x : LoginSession) (st : storage) : option storage :=
  existing ← readSessions k st; Some (write_sessions k iv (add_login x existing) st).

(** [server]: the answer of [/api/auth/sessions] when there is a session on the server. *)
Definition getSessions (k : SecureKeyStore) (server : option (list LoginSession)) (st : storage) : option (list LoginSession) :=
  match server with
  | Some ((_ :: _) as l) => Some (sort_desc l)
  | _ => sort_desc <$> readSessions k st
  end.

Definition clearOtherSessions (k : SecureKeyStore) (iv : bytes) (st : storage) : option storage :=
  sessions ← readSessions k st; Some (write_sessions k iv (List.filter ls_isCurrent sessions) st).

Definition clearAllSessions (st : storage) : storage := delete SESSIONS_KEY st.
End tracker.

Inductive Ago := ActiveNow | MinsAgo (n : Z) | HoursAgo (n : Z) | DaysAgo (n : Z).
Definition formatSessionTime (now timestamp : Z) : Ago :=
  let diff := now - timestamp in
  let mins := diff / 60000 in let hours := diff / 3600000 in let days := diff / 86400000 in
  if mins <? 1 then ActiveNow else if mins <? 60 then MinsAgo mins else if hours <? 24 then HoursAgo hours else DaysAgo days.

(** ** Notifications ([NotificationContext.tsx]) *)

Definition NOTIF_KEY : jsstr := js "vault_notifications".

(** A notification is the object it is in the program. *)
Record Notifications := mkNotifications { nf_list : list json; nf_loaded : bool }.

Definition set_props (l : list (jsstr * json)) (v : json) : json :=
  match v with JObj o => JObj (JsObject.spread o l) | _ => v end.

Definition unreadCount (n : Notifications) : Z := len (List.filter (λ v, negb (truthy (prop "read" v))) (nf_list n)).

Definition addNotification (uuid : jsstr) (now : Z) (v : json) (n : Notifications) : Notifications :=
  mkNotifications (set_props [(js "id", JStr uuid); (js "timestamp", JNum (Int now)); (js "read", JBool false)] v :: nf_list n) (nf_loaded n).

Definition mark_read (v : json) : json := set_props [(js "read", JBool true)] v.

Definition markAsRead (id : jsstr) (n : Notifications) : Notifications :=
  mkNotifications (map (λ v, if bool_decide (prop "id" v = Some (JStr id)) then mark_read v else v) (nf_list n)) (nf_loaded n).

Definition markAllAsRead (n : Notifications) : Notifications := mkNotifications (map mark_read (nf_list n)) (nf_loaded n).

Definition clearNotifications (n : Notifications) : Notifications := mkNotifications [] (nf_loaded n).

Section notifications.
Context {C : SessionCrypto} {JF : JsFloat}.

(** What is stored, when it can be read and is a list, which is what this module writes. *)
Definition stored_notifications (k : SecureKeyStore) (st : storage) : option (list json) :=
  match readDecryptedLocal k NOTIF_KEY st with
  | Some ((_ :: _) as raw) => match parse raw with Some (JArr l) => Some l | _ => None end
  | _ => None
  end.

(** The effect of the first rendering, and the handler of [demoKeyAvailable]. *)
Definition load_notifications (k : SecureKeyStore) (st : storage) (n : Notifications) : Notifications :=
  mkNotifications (default (nf_list n) (stored_notifications k st)) true.
Definition reload_notifications (k : SecureKeyStore) (st : storage) (n : Notifications) : Notifications :=
  mkNotifications (default (nf_list n) (stored_notifications k st)) (nf_loaded n).

(** The effect on every change. *)
Definition persist_notifications (k : SecureKeyStore) (iv : bytes) (n : Notifications) (st : storage) : storage :=
  if nf_loaded n then writeEncryptedLocal k iv NOTIF_KEY (stringify (JArr (nf_list n))) st else st.

(** The handler of [daemonUnlocked]. *)
Definition drop_notifications (st : storage) : storage := delete NOTIF_KEY st.
End notifications.

(** ** Properties of the lock *)

(** The reference: when was the last sign of the user, and is it long enough ago at some
    moment the browser looks? *)
Definition due (ms : option Z) (last t : Z) : bool :=
  match ms with Some m => negb (m =? 0) && (last + delay m <=? t) | None => false end.











(** ** Properties of the list of sessions *)

Definition session_ok (x : LoginSession) : bool :=
  text_ok (ls_id x) && text_ok (ls_deviceName x) && text_ok (ls_ip x) && text_ok (ls_userAgent x) && (Z.abs (ls_timestamp x) <=? MAX_SAFE).

Section sessions.
Context {C : SessionCrypto} {L : SessionCryptoLaws C} {JF : JsFloat}.

Lemma session_json_ok x : session_ok x = true → json_ok (session_json x) = true.
Proof.
  intros Hx. unfold session_ok in Hx. unfold session_json. rewrite json_ok_obj by (by vm_compute). cbn [forallb snd json_ok num_ok].
  repeat (apply andb_prop in Hx as [Hx ?]). by repeat match goal with Hb : ?b = true |- context [?b] => rewrite Hb end.
Qed.

Lemma sessions_json_ok l : forallb session_ok l = true → json_ok (JArr (map session_json l)) = true.
Proof.
  intros Hl. cbn [json_ok]. rewrite forallb_forall in Hl |- *. intros v (x & <- & Hx)%in_map_iff. by apply session_json_ok, Hl.
Qed.

Lemma session_of_json x : session_of (session_json x) = Some x.
Proof. by destruct x. Qed.

Lemma sessions_of_json l : mapM session_of (map session_json l) = Some l.
Proof. induction l as [|x l IH]; [done|]. cbn [map mapM mbind option_bind]. rewrite session_of_json. cbn. by rewrite IH. Qed.

(** A list that fits is read back. *)
Definition fits (k : SecureKeyStore) (iv : bytes) (l : list LoginSession) : Prop :=
  ∃ ck2 salt, localKeyV2 k = Some ck2 ∧ v2Salt k = Some salt ∧ length salt = 16%nat ∧ Bytes salt ∧ length iv = 12%nat ∧ Bytes iv ∧
    12 + len (gcm_encrypt ck2 iv (header_of salt ++ SESSIONS_KEY) (utf8_encode (stringify (JArr (map session_json l))))) <= spread_limit.

Lemma sessions_roundtrip k iv l st :
  fits k iv l → forallb session_ok l = true → readSessions k (write_sessions k iv l st) = Some l.
Proof.
  intros (ck2 & salt & Hk & Hs & Hls & Hbs & Hli & Hbi & Hlim) Hl. pose proof (sessions_json_ok l Hl) as Hok.
  unfold readSessions, write_sessions.
  destruct (LocalSpec.local_roundtrip k ck2 salt iv SESSIONS_KEY (stringify (JArr (map session_json l))) st Hk Hs Hls Hbs Hli Hbi
    ltac:(by vm_compute) (stringify_transportable _ Hok) Hlim) as [-> _].
  destruct (stringify (JArr (map session_json l))) as [|c t] eqn:E; [by destruct l|]. rewrite <- E.
  rewrite parse_stringify by done. apply sessions_of_json.
Qed.

Lemma trimmed_length l : (length (trimmed l) <= 19)%nat.
Proof. unfold trimmed, len. destruct (Z.ltb_spec 19 (Z.of_nat (length l))); [rewrite length_drop|]; lia. Qed.

Lemma trimmed_ok l : forallb session_ok l = true → forallb session_ok (map not_current (trimmed l)) = true.
Proof.
  intros Hl. rewrite forallb_forall in Hl |- *. intros y (x & <- & Hx)%in_map_iff. change (session_ok (not_current x)) with (session_ok x).
  apply Hl. unfold trimmed in Hx. destruct (19 <? len l); [|done].
  rewrite <- (take_drop (length l - 19) l). apply in_or_app. by right.
Qed.

Lemma add_login_current x l : ls_isCurrent x = true → List.filter ls_isCurrent (add_login x l) = [x].
Proof.
  intros Hx. unfold add_login. rewrite List.filter_app. cbn [List.filter]. rewrite Hx.
  assert (E : List.filter ls_isCurrent (map not_current (trimmed l)) = []) by (by induction (trimmed l)). by rewrite E.
Qed.

Lemma insert_session_perm x l : insert_session x l ≡ₚ x :: l.
Proof.
  induction l as [|y l IH]; [done|]. cbn [insert_session]. destruct (_ <? _); [done|]. rewrite IH. apply Permutation_swap.
Qed.

Lemma sort_desc_perm l : sort_desc l ≡ₚ l.
Proof.
  unfold sort_desc. assert (H0 : ∀ acc, fold_left (λ acc x, insert_session x acc) l acc ≡ₚ acc ++ l); [|by rewrite H0].
  induction l as [|x l IH]; intros acc; [by rewrite app_nil_r|]. cbn [fold_left]. rewrite IH, insert_session_perm.
  by rewrite <- Permutation_middle.
Qed.

Definition later (x y : LoginSession) : Prop := ls_timestamp y <= ls_timestamp x.

Lemma insert_session_sorted x l : Sorted later l → Sorted later (insert_session x l).
Proof.
  induction 1 as [|y l Hl IH Hd]; cbn [insert_session]; [by repeat constructor|].
  destruct (Z.ltb_spec (ls_timestamp y) (ls_timestamp x)).
  - constructor; [by constructor|]. constructor. unfold later. lia.
  - constructor; [done|]. destruct l as [|z l]; cbn [insert_session]; [by constructor|].
    destruct (Z.ltb_spec (ls_timestamp z) (ls_timestamp x)); constructor; [unfold later; lia|by inversion Hd].
Qed.

Lemma sort_desc_sorted l : Sorted later (sort_desc l).
Proof.
  unfold sort_desc. assert (H0 : ∀ acc, Sorted later acc → Sorted later (fold_left (λ acc x, insert_session x acc) l acc)); [|by apply H0].
  induction l as [|x l IH]; intros acc Ha; [done|]. by apply IH, insert_session_sorted.
Qed.

(** A token of another key is not read. *)
Lemma read_v2_wrong {W : WrongKeyFails C} k key ck ck' iv aad p sk header :
  localKeyV2 k = Some ck' → ck ≠ ck' → Bytes header → Bytes iv → length iv = 12%nat → aad_of header key = Some aad →
  read_v2 k key (join_unit [46] (token_parts sk header (iv ++ gcm_encrypt ck iv aad p))) = None.
Proof.
  intros Hk Hne Hh Hi Hl Ha. set (ct := gcm_encrypt ck iv aad p). assert (Hic : Bytes (iv ++ ct)) by (apply Bytes_app; split; [done|apply gcm_bytes]).
  unfold read_v2. rewrite split_join_unit; [|by destruct sk|by apply token_parts_clean].
  assert (Hn : (len (token_parts sk header (iv ++ ct)) <? 3) = false) by (by destruct sk). rewrite Hn.
  change (part (token_parts sk header (iv ++ ct)) 1) with (bufToB64url header).
  change (part (token_parts sk header (iv ++ ct)) 2) with (bufToB64url (iv ++ ct)).
  unfold fromB64u. rewrite !b64url_roundtrip by done. cbn [mbind option_bind]. destruct (negb _); [done|].
  match goal with |- mbind _ ?m = None => destruct m as [[]|]; cbn [mbind option_bind negb]; try done end.
  rewrite Hk. cbn [mbind option_bind]. rewrite Ha. cbn [mbind option_bind].
  assert (slice (iv ++ ct) 0 12 = iv) as -> by (unfold slice; by rewrite drop_0, Nat.sub_0_r, take_app_length' by lia).
  rewrite drop_app_length' by lia. unfold ct. by rewrite wrong_key.
Qed.
End sessions.

Module SessionSpec.



(** A copy that is being written when the page locks is written after it: the token and the
    keys are back in the session storage, and the next page that restores them has them. *)
Example lock_race :
  let t := Keystore.mkTab (mkKeyStore (Some [1]) (Some [2]) None None None None None None) None true [] in
  let l := [EKeys (OLocalKey [3] 2); EJob 0; EJob 0; EElapse 400000 true; EJob 0; EJob 0; ERestored] in
  let s := shell_run (mount None 1000 t true true true) l in
  sh_left s = true ∧ is_Some (session (sh_tab s)) ∧ k_token (mem (sh_tab s)) = Some [1] ∧
  localKeyV1 (mem (sh_tab s)) = Some [2].
Proof. cbv zeta. split; [reflexivity|]. split; [by eexists|]. split; reflexivity. Qed.

(** The settings the page offers are the times they say. *)
Theorem lock_setting_exact n last t :
  0 < n < 2 ^ 31 → due (lock_ms (Some (dec n))) last t = (last + n <=? t) ∧ due (lock_ms (Some (js "off"))) last t = false.
Proof.
  intros Hn. split; [|done]. unfold lock_ms. cbn [from_option id].
  assert (Hne : str_eqb (dec n) (js "off") = false).
  { apply bool_decide_eq_false_2. intros Heq. pose proof (parseInt10_dec n ltac:(lia)) as Hp. by rewrite Heq in Hp. }
  rewrite Hne, parseInt10_dec by lia. unfold due, delay. rewrite to_int32_id by lia.
  rewrite (proj2 (Z.eqb_neq n 0)), Z.max_r by lia. done.
Qed.

(** The guard of the frame never acts: it runs once, while the keys are being restored,
    and does nothing then; without token, cookie and keys the frame stays open, although
    the guard, run afterwards, would leave it. *)
Theorem guard_never_acts v now t csrf mfaCache loaded :
  sh_left (shell_step (mount v now t csrf mfaCache loaded) ERestored) = false ∧
  (csrf = false → hasToken (restoreAsync t) = false →
   sh_left (guard loaded (shell_step (mount v now t csrf mfaCache loaded) ERestored)) = true).
Proof.
  split; [done|]. intros -> Ht. unfold guard. cbn [shell_step mount guard scheduleTimer with_timer sh_left sh_restoring restored sh_tab sh_csrf].
  by rewrite Ht.
Qed.

(** A request for the profile that fails, for want of a network too, ends the session of
    a page that is not connected to the daemon: the keys are gone. *)
Theorem offline_profile_logs_out expired p s :
  reloadProfile (DFailed expired) None p s = (p, handleSessionInvalid s) ∧ sh_left (handleSessionInvalid s) = true ∧
  localKeyV1 (mem (sh_tab (handleSessionInvalid s))) = None.
Proof. unfold reloadProfile. by destruct (expired && negb (sh_csrf s)). Qed.

Section claims.
Context {C : SessionCrypto} {L : SessionCryptoLaws C} {JF : JsFloat}.

(** Recording a login keeps the last nineteen sessions and adds the new one, which alone
    is current; the page then lists all of them, the newest first; and ending the other
    sessions leaves this one. *)
Theorem sessions_recorded k iv iv' x l st :
  readSessions k st = Some l → forallb session_ok (x :: l) = true → ls_isCurrent x = true → fits k iv (add_login x l) → fits k iv' [x] →
  ∃ st' shown, recordSession k iv x st = Some st' ∧ readSessions k st' = Some (add_login x l) ∧ (length (add_login x l) <= 20)%nat ∧
    getSessions k None st' = Some shown ∧ shown ≡ₚ add_login x l ∧ Sorted later shown ∧
    ∃ st'', clearOtherSessions k iv' st' = Some st'' ∧ readSessions k st'' = Some [x].
Proof.
  intros Hr Hok Hx Hf Hf'. cbn [forallb] in Hok. apply andb_prop in Hok as [Hx1 Hl].
  assert (Hadd : forallb session_ok (add_login x l) = true).
  { unfold add_login. rewrite forallb_app. rewrite trimmed_ok by done. cbn [forallb]. by rewrite Hx1. }
  pose proof (sessions_roundtrip k iv (add_login x l) st Hf Hadd) as Hrd.
  eexists _, _. unfold recordSession. rewrite Hr. cbn [mbind option_bind]. split; [reflexivity|]. split; [exact Hrd|].
  split; [unfold add_login; rewrite length_app, length_map; cbn [length]; pose proof (trimmed_length l); lia|].
  unfold getSessions, clearOtherSessions. rewrite Hrd. split; [reflexivity|]. split; [apply sort_desc_perm|]. split; [apply sort_desc_sorted|].
  cbn [mbind option_bind]. eexists. split; [reflexivity|]. rewrite add_login_current by done.
  apply sessions_roundtrip; [done|]. cbn [forallb]. by rewrite Hx1.
Qed.

(** Notifications are kept: what a change stores is what the next load with the same keys
    shows.  But what can not be read is overwritten: when the key of the stored ones is not
    there while they are loaded, as after a login whose second key is still being derived,
    the first notification added afterwards is all that is stored. *)
Theorem notifications_persist k0 k ck2 salt iv n st uuid now v :
  localKeyV2 k = Some ck2 → v2Salt k = Some salt → length salt = 16%nat → Bytes salt → length iv = 12%nat → Bytes iv →
  let n0 := mkNotifications [] false in
  let n1 := addNotification uuid now v (load_notifications k0 st n0) in
  (∀ m, nf_loaded m = true → json_ok (JArr (nf_list m)) = true →
     12 + len (gcm_encrypt ck2 iv (header_of salt ++ NOTIF_KEY) (utf8_encode (stringify (JArr (nf_list m))))) <= spread_limit →
     nf_list (load_notifications k (persist_notifications k iv m st) n) = nf_list m) ∧
  (stored_notifications k0 st = None → nf_loaded n1 = true ∧
     nf_list n1 = [set_props [(js "id", JStr uuid); (js "timestamp", JNum (Int now)); (js "read", JBool false)] v]).
Proof.
  intros Hk Hs Hls Hbs Hli Hbi n0 n1. split.
  - intros m Hm Hok Hlim. unfold load_notifications, persist_notifications, stored_notifications. rewrite Hm. cbn [nf_list].
    destruct (LocalSpec.local_roundtrip k ck2 salt iv NOTIF_KEY (stringify (JArr (nf_list m))) st Hk Hs Hls Hbs Hli Hbi
      ltac:(by vm_compute) (stringify_transportable _ Hok) Hlim) as [-> _].
    destruct (stringify (JArr (nf_list m))) as [|c t] eqn:E; [by destruct (nf_list m)|]. rewrite <- E. by rewrite parse_stringify.
  - intros Hn. unfold n1, load_notifications, addNotification. cbn [nf_list nf_loaded n0]. by rewrite Hn.
Qed.

(** The list starts over with every login: it is encrypted under a key bound to the token
    of the login, so after the next one, under another key, nothing of it is read, and
    recording that login leaves it as the only session. *)
Theorem history_restarts {W : WrongKeyFails C} k k' ck' iv iv' l x st :
  fits k iv l → fits k' iv' [x] → localKeyV2 k' = Some ck' → localKeyV2 k ≠ Some ck' → forallb session_ok [x] = true →
  ∃ st', recordSession k' iv' x (write_sessions k iv l st) = Some st' ∧ readSessions k' st' = Some [x].
Proof.
  intros (ck & salt & Hk & Hs & Hls & Hbs & Hli & Hbi & Hlim) Hf Hk' Hne Hx.
  assert (Hr : readSessions k' (write_sessions k iv l st) = Some []).
  { unfold readSessions, write_sessions, writeEncryptedLocal. rewrite Hk, Hs.
    rewrite v2_token_eq by (done || (unfold len in *; rewrite length_app; lia)).
    unfold readDecryptedLocal. rewrite lookup_insert_eq. set (tok := join_unit [46] _).
    assert (Hp : starts_with V2_PREFIX tok = true) by (unfold tok; by destruct (sigKeyV2 k)).
    destruct tok as [|c tok'] eqn:E; [done|]. rewrite Hp, <- E. unfold tok.
    rewrite (read_v2_wrong k' SESSIONS_KEY ck ck'); [done|done|congruence|by apply v2_header_bytes|done|done|by apply aad_ascii]. }
  unfold recordSession. rewrite Hr. cbn [mbind option_bind]. eexists. split; [reflexivity|]. by apply sessions_roundtrip.
Qed.
End claims.
End SessionSpec.
