(* ===== verification/EmergencyPages.v ===== *)
(** * Emergency access ([web/src/pages/EmergencyRequest.tsx],
      [web/src/components/EmergencyAccessModal.tsx])

    The page on which a contact asks for access and the dialog of the owner, over the
    routes of the server ([VaultRoutes]) through [apiFetch]. *)
From S2P Require Import Prelude JsRuntime JsText Base64 Json JsonSpec JsDyn JsObject FileCrypto StateStore RateLimiter ServerState ServerLogic LoginRoute AccountRoutes LoginSpec ServerAudit VaultRoutes ReimportSpec ClientApi ServerToy AccountClaims Sharing.

Section pages.
Context {JF : JsFloat} {W : Type} (fetch : Request → W → W * option Response) (cookie : jsstr).

(** ** The page of the contact *)

Inductive AskState := AForm | ASubmitting | ASuccess | AError (notFound : bool).
Record AskPage := mkAskPage { ak_name : jsstr; ak_email : jsstr; ak_state : AskState; ak_waitHours : option json }.

Definition ask_body (p : AskPage) : json :=
  obj_ [("requesterName", JStr (trim (ak_name p))); ("requesterEmail", JStr (trim (ak_email p)))]%string.

Definition error_is (e : string) (v : json) : bool := bool_decide (prop "error" v = Some (JStr (js e))).

(** [`${token}`]; an answer without [ok] throws its [error] as a message. *)
Definition ask_submit (token : jsstr) (p : AskPage) (w : W) : AskPage * W :=
  if str_empty (trim (ak_name p)) then (p, w)
  else
    let opts := mkInit (Some (js "POST")) [] (Some (stringify (ask_body p))) in
    let failed b := mkAskPage (ak_name p) (ak_email p) (AError b) (ak_waitHours p) in
    match apiFetch fetch cookie (js "/api/emergency/request/" ++ token) opts w with
    | (w, Ok (Some data)) =>
        if truthy (prop "ok" data) then
          (mkAskPage (ak_name p) (ak_email p) ASuccess (match prop "waitPeriodHours" data with Some JNull | None => None | Some x => Some x end), w)
        else (failed (error_is "not_found" data), w)
    | (w, Ok None) => (failed false, w)
    | (w, Throw (ApiError _ data)) => (failed (error_is "not_found" data), w)
    | (w, Throw _) => (failed false, w)
    end.

(** ** The dialog of the owner *)

Inductive EmergencyStep := EmLoading | EmSetup | EmConfigured | EmRequests.
Record EmergencyModal := mkEmergencyModal {
  em_step : EmergencyStep; em_config : option json; em_requests : list json; em_email : jsstr; em_waitHours : Z; em_error : bool }.

Definition array_of (v : option json) : list json := match v with Some (JArr l) => l | _ => [] end.
Definition config_of (v : option json) : option json := match v with Some JNull | None => None | Some c => Some c end.

(** The effect: both answers, or the set-up. *)
Definition emergency_load (m : EmergencyModal) (w : W) : EmergencyModal * W :=
  let setup := mkEmergencyModal EmSetup (em_config m) (em_requests m) (em_email m) (em_waitHours m) (em_error m) in
  let '(w, cfg) := apiFetch fetch cookie (js "/api/vault/emergency") (mkInit (Some (js "GET")) [] None) w in
  let '(w, reqs) := apiFetch fetch cookie (js "/api/vault/emergency/requests") (mkInit (Some (js "GET")) [] None) w in
  match cfg, reqs with
  | Ok (Some c), Ok (Some r) =>
      let config := config_of (prop "config" c) in
      (mkEmergencyModal (if truthy (config ≫= prop "enabled") then EmConfigured else EmSetup) config (array_of (prop "requests" r))
         (em_email m) (em_waitHours m) (em_error m), w)
  | _, _ => (setup, w)
  end.

Definition emergency_body (m : EmergencyModal) : json :=
  obj_ [("contactEmail", JStr (em_email m)); ("waitPeriodHours", JNum (Int (em_waitHours m)))]%string.

Definition emergency_save (m : EmergencyModal) (w : W) : EmergencyModal * W :=
  let failed := mkEmergencyModal (em_step m) (em_config m) (em_requests m) (em_email m) (em_waitHours m) true in
  if str_empty (trim (em_email m)) || negb (includes (js "@") (em_email m)) then (failed, w)
  else
    match apiFetch fetch cookie (js "/api/vault/emergency") (mkInit (Some (js "POST")) [] (Some (stringify (emergency_body m)))) w with
    | (w, Ok (Some r)) => (mkEmergencyModal EmConfigured (config_of (prop "config" r)) (em_requests m) (em_email m) (em_waitHours m) false, w)
    | (w, _) => (failed, w)
    end.

Definition emergency_disable (m : EmergencyModal) (w : W) : EmergencyModal * W :=
  match apiFetch fetch cookie (js "/api/vault/emergency") (mkInit (Some (js "DELETE")) [] None) w with
  | (w, Ok _) => (mkEmergencyModal EmSetup None (em_requests m) [] (em_waitHours m) (em_error m), w)
  | (w, Throw _) => (m, w)
  end.

Definition has_id (id : jsstr) (r : json) : bool := bool_decide (prop "id" r = Some (JStr id)).
Definition with_status (grant : bool) (r : json) : json :=
  match r with
  | JObj l => JObj (Json.put (js "status") (JStr (if grant then js "granted" else js "denied")) l)
  | _ => r
  end.

Definition handleRespond (reqId : jsstr) (grant : bool) (m : EmergencyModal) (w : W) : EmergencyModal * W :=
  let body := obj_ [("requestId", JStr reqId); ("action", JStr (js (if grant then "grant" else "deny")))]%string in
  match apiFetch fetch cookie (js "/api/vault/emergency/respond") (mkInit (Some (js "POST")) [] (Some (stringify body))) w with
  | (w, Ok _) =>
      (mkEmergencyModal (em_step m) (em_config m) (map (λ r, if has_id reqId r then with_status grant r else r) (em_requests m))
         (em_email m) (em_waitHours m) (em_error m), w)
  | (w, Throw _) => (m, w)
  end.

(** [`.../emergency/request/${config.token}`] *)
Definition shareLink (origin : jsstr) (m : EmergencyModal) : jsstr :=
  match em_config m with
  | Some c => origin ++ js "/emergency/request/" ++ match prop "token" c with Some (JStr t) => t | _ => js "undefined" end
  | None => []
  end.
Definition pendingCount (m : EmergencyModal) : Z := len (List.filter (λ r, bool_decide (prop "status" r = Some (JStr (js "pending")))) (em_requests m)).
End pages.

(** ** Over the routes of the server *)

Section routes.
Context {S : Type} {HS : StateStore S} {SH : ServerHash} {SP : ServerPassword} {JW : Jwe} {JC : JsCase} {JF : JsFloat}.

Definition post_request (now : Z) (req : Req) (token id : jsstr) (rq : Request) (s : Server S) : Server S * option Response :=
  match rq_body rq ≫= parse with
  | Some body =>
      let '(s, r) := run (request_emergency now req token (mkEmergencyReq (as_string (prop "requesterName" body)) (prop "requesterEmail" body) id)) s in
      (s, response_of r)
  | None => (s, Some (mkResponse 400 None))
  end.

(** The owner of a link. *)
Definition owner_of (token : jsstr) (s : Server S) : option User :=
  List.find (λ u, token_matches token (readUserBlob (u_id u) "emergency" JNull s)) (users s).

Lemma ask_body_ok p : text_ok (trim (ak_name p)) = true → text_ok (trim (ak_email p)) = true → json_ok (ask_body p) = true.
Proof. intros Hn He. unfold ask_body. rewrite json_ok_obj by (by vm_compute). cbn [forallb snd json_ok]. by rewrite Hn, He. Qed.

Lemma request_run now req token q (s : Server S) name u :
  (checkEmergencyRate (getClientIp req) now (store s)).2.1 = true → is_hex64 token = true → er_name q = Some name → name ≠ [] →
  (∃ e, er_email q = Some (JStr e) ∧ (e = [] ∨ len e <= 320 ∧ looks_like_email e = true)) →
  owner_of token s = Some u →
  let wait := default 0 (js_number (prop "waitPeriodHours" (readUserBlob (u_id u) "emergency" JNull s))) in
  ∃ s', run (request_emergency now req token q) s =
      (s', RJson (JObj [(js "ok", JBool true); (js "waitPeriodHours", JNum (Int wait))])) ∧
    requests_of (u_id u) s' = requests_of (u_id u) s ++ [emergency_entry now q name wait] ∧
    ∀ uid, uid ≠ u_id u → requests_of uid s' = requests_of uid s.
Proof.
  intros Hrate Htok Hn Hne (e & He & Hev) Ho wait. unfold run, request_emergency, rate, on_store, mbind, H_bind, stop_if, gets.
  destruct (checkEmergencyRate (getClientIp req) now (store s)) as [st [ok hd]]. cbn [fst snd] in Hrate. subst ok. rewrite Htok, Hn.
  destruct name as [|c name]; [done|]. rewrite He. cbn [negb].
  assert (Hok : (match e with [] => false | _ :: _ => (len e >? 320) || negb (looks_like_email e) end) = false).
  { destruct e as [|x e]; [done|]. destruct Hev as [|[Hl Hem]]; [done|]. rewrite Hem, orb_false_r. rewrite Z.gtb_ltb. apply Z.ltb_ge. lia. }
  rewrite Hok. change (List.find _ (users (set_store st s))) with (owner_of token s). rewrite Ho.
  eexists. split; [reflexivity|]. unfold writeUserBlob, modify, requests_of, readUserBlob. cbn [fst].
  split.
  - cbn [blobs set_blobs set_store]. by rewrite lookup_insert_eq.
  - intros uid Hu. cbn [blobs set_blobs set_store]. by rewrite lookup_insert_ne by congruence.
Qed.
End routes.

Module EmergencySpec.
Section claims.
Context {S : Type} {HS : StateStore S} {SH : ServerHash} {SP : ServerPassword} {JW : Jwe} {JC : JsCase} {JF : JsFloat}.

(** A request of a contact arrives: with the link of an owner, a name and no or a
    plausible address, the page reports success with the waiting time of the owner, and
    the owner has one more request, pending, with the name and address of the form; the
    requests of everybody else stay. *)
Theorem emergency_request_arrives now req token id cookie p (s : Server S) u :
  trim (ak_name p) ≠ [] → text_ok (trim (ak_name p)) = true → text_ok (trim (ak_email p)) = true →
  trim (ak_email p) = [] ∨ (len (trim (ak_email p)) <= 320 ∧ looks_like_email (trim (ak_email p)) = true) →
  is_hex64 token = true → (checkEmergencyRate (getClientIp req) now (store s)).2.1 = true → owner_of token s = Some u →
  let wait := default 0 (js_number (prop "waitPeriodHours" (readUserBlob (u_id u) "emergency" JNull s))) in
  Z.abs wait <= MAX_SAFE →
  let q := mkEmergencyReq (Some (trim (ak_name p))) (Some (JStr (trim (ak_email p)))) id in
  let '(p', s') := ask_submit (post_request now req token id) cookie token p s in
  ak_state p' = ASuccess ∧ ak_waitHours p' = Some (JNum (Int wait)) ∧
  requests_of (u_id u) s' = requests_of (u_id u) s ++ [emergency_entry now q (trim (ak_name p)) wait] ∧
  ∀ uid, uid ≠ u_id u → requests_of uid s' = requests_of uid s.
Proof.
  intros Hn Ht1 Ht2 He Htok Hrate Ho wait Hw q. unfold ask_submit.
  destruct (trim (ak_name p)) as [|c0 nm] eqn:En; [done|]. cbn [str_empty]. unfold apiFetch, post_request.
  assert (Hbody : rq_body (request_of cookie (js "/api/emergency/request/" ++ token)
    (mkInit (Some (js "POST")) [] (Some (stringify (ask_body p))))) ≫= parse = Some (ask_body p)).
  { change (parse (stringify (ask_body p)) = Some (ask_body p)). apply parse_stringify, ask_body_ok; congruence. }
  rewrite Hbody. change (prop "requesterEmail" (ask_body p)) with (Some (JStr (trim (ak_email p)))).
  change (as_string (prop "requesterName" (ask_body p))) with (Some (trim (ak_name p))). rewrite En. fold q.
  destruct (request_run now req token q s (c0 :: nm) u Hrate Htok eq_refl ltac:(done)) as (s' & -> & Hr & Hoth); [|done|].
  { eexists. split; [reflexivity|]. exact He. }
  change (response_of (RJson ?x)) with (Some (mkResponse 200 (Some (stringify x)))). cbv beta iota. fold wait.
  change (JObj [(js "ok", JBool true); (js "waitPeriodHours", JNum (Int wait))]) with (obj_ [("ok", JBool true); ("waitPeriodHours", JNum (Int wait))]%string).
  rewrite read_json by (rewrite json_ok_obj by (by vm_compute); cbn [forallb snd json_ok num_ok]; lia).
  by split_and!.
Qed.

(** The link shown right after the set-up is broken: the server leaves the token out of
    its answer, and the dialog builds the link from that answer. *)
Theorem new_link_has_no_token origin m now hours email token :
  shareLink origin (mkEmergencyModal EmConfigured (config_of (Some (JObj (without "token"
    (fields_of (emergency_config now hours email token)))))) (em_requests m) (em_email m) (em_waitHours m) false) =
  origin ++ js "/emergency/request/undefined".
Proof. reflexivity. Qed.
End claims.

Import Toy AccountSpec.

Definition hex_token : jsstr := concat (replicate 8 (js "01234567")).
Definition with_contact : server :=
  set_blobs (<[(js "n1", js "emergency") := emergency_config 0 48 (js "c@d.e") hex_token]> (blobs joined)) joined.
Definition asking : AskPage := mkAskPage (js " Ann ") (js "ann@x.org") AForm None.
Definition em_float : JsFloat := {| to_number := Float |}.
#[export] Existing Instance em_float.

Lemma emergency_request_arrives_witness :
  let '(p', s') := ask_submit (post_request now req hex_token (js "r1")) [] hex_token asking with_contact in
  ak_state p' = ASuccess ∧ ak_waitHours p' = Some (JNum (Int 48)) ∧ length (requests_of (js "n1") s') = 1%nat.
Proof.
  destruct (owner_of hex_token with_contact) as [u|] eqn:Eu; [|vm_compute in Eu; discriminate Eu].
  assert (Hid : u_id u = js "n1").
  { pose proof (f_equal (fmap u_id) Eu) as Hf. cbn [fmap option_fmap option_map] in Hf.
    match type of Hf with ?x = _ => assert (Hc : x = Some (js "n1")) by (vm_compute; reflexivity); rewrite Hc in Hf end. by injection Hf as <-. }
  pose proof (emergency_request_arrives now req hex_token (js "r1") [] asking with_contact u) as H. rewrite Hid in H. cbv zeta in H.
  assert (P1 : trim (ak_name asking) ≠ []) by (vm_compute; discriminate). specialize (H P1).
  assert (P2 : text_ok (trim (ak_name asking)) = true) by (vm_compute; reflexivity). specialize (H P2).
  assert (P3 : text_ok (trim (ak_email asking)) = true) by (vm_compute; reflexivity). specialize (H P3).
  assert (P4 : len (trim (ak_email asking)) <= 320) by (vm_compute; discriminate).
  assert (P5 : looks_like_email (trim (ak_email asking)) = true) by (vm_compute; reflexivity). specialize (H (or_intror (conj P4 P5))).
  assert (P6 : is_hex64 hex_token = true) by (vm_compute; reflexivity). specialize (H P6).
  assert (P7 : (checkEmergencyRate (getClientIp req) now (store with_contact)).2.1 = true) by (vm_compute; reflexivity).
  specialize (H P7 Eu).
  assert (P8 : default 0 (js_number (prop "waitPeriodHours" (readUserBlob (js "n1") "emergency" JNull with_contact))) = 48) by (vm_compute; reflexivity).
  rewrite P8 in H. assert (P9 : Z.abs 48 <= MAX_SAFE) by (vm_compute; discriminate). specialize (H P9).
  assert (P10 : requests_of (js "n1") with_contact = []) by (vm_compute; reflexivity). rewrite P10 in H.
  destruct (ask_submit _ _ _ _ _) as [p' s']. destruct H as (H1 & H2 & H3 & _).
  split; [exact H1|]. split; [exact H2|]. by rewrite H3.
Defined.
End EmergencySpec.
