(* ===== verification/MailSpec.v ===== *)
(** * Theorems on mail servers and their diagnostics

    What the routes of [MailRoutes] connect to, send and reveal. *)
From S2P Require Import Prelude JsRuntime JsText Json JsDyn Base64 PasswordHealth VaultPage FileCrypto StateStore RateLimiter SsrfGuard ServerState ServerLogic ServerAudit LoginRoute AccountRoutes LoginSpec VaultRoutes MailRoutes ServerToy AccountClaims.

(** * Theorems on mail servers *)

Module MailSpec.

(** ** Searches *)

Lemma take_class_split cls s : ∃ r, s = take_class cls s ++ r.
Proof.
  induction s as [|c s [r IH]]; [by exists []|]. cbn. destruct (cls c); [|by exists (c :: s)].
  exists r. cbn. by rewrite <- IH.
Qed.

Lemma take_class_all cls s : forallb cls (take_class cls s) = true.
Proof. induction s as [|c s IH]; [done|]. cbn. destruct (cls c) eqn:E; [|done]. cbn. by rewrite E. Qed.

Lemma after_word_split p ok w s r :
  after_word p ok w s = Some r →
  ∃ pre, s = pre ++ take (String.length p) (drop (length pre) s) ++ r ∧ ok r = true ∧ starts_ci p (drop (length pre) s) = true ∧
         match last pre with Some c => is_word c = false | None => w = false end.
Proof.
  revert w. induction s as [|c s IH]; intros w; [done|]. cbn [after_word].
  destruct (negb w && starts_ci p (c :: s) && ok (drop (String.length p) (c :: s))) eqn:E.
  - intros [= <-]. apply andb_true_iff in E as [[Hw Hp]%andb_true_iff Hok]. exists []. cbn [length drop app last].
    by rewrite take_drop, negb_true_iff in *.
  - intros (pre & Hs & Hok & Hp & Hw)%IH. exists (c :: pre). cbn [length drop app]. rewrite <- Hs. repeat split; try done.
    destruct pre as [|z pre]; [done|]. cbn [last]. destruct (last (z :: pre)) eqn:El; [done|]. by apply last_None in El.
Qed.

(** A field that is found stands in the record behind its name, which begins a word,
    is not empty and has the characters of its class only. *)
Theorem match_word_sound p cls s v :
  match_word p cls s = Some v →
  v ≠ [] ∧ forallb cls v = true ∧
  ∃ pre rest, s = pre ++ take (String.length p) (drop (length pre) s) ++ v ++ rest ∧
              starts_ci p (drop (length pre) s) = true ∧ from_option (λ c, is_word c = false) True (last pre).
Proof.
  unfold match_word. destruct (after_word _ _ _ s) as [r|] eqn:E; [|done]. intros [= <-].
  apply after_word_split in E as (pre & Hs & Hok & Hp & Hw). destruct (take_class_split cls r) as [rest Hr]. split; [|split].
  - destruct r as [|c r]; [done|]. cbn. by rewrite Hok.
  - apply take_class_all.
  - exists pre, rest. rewrite <- Hr. split; [done|]. split; [done|]. by destruct (last pre).
Qed.

(** ** The configuration of the process *)

Lemma add_test_in x y l : y ∈ add_test x l ↔ y = x ∨ y ∈ l.
Proof.
  unfold add_test. destruct (existsb (str_eqb x) l) eqn:E; [|set_solver].
  apply existsb_exists in E as (z & Hz & ->%bool_decide_eq_true). apply list_elem_of_In in Hz. set_solver.
Qed.

Lemma add_test_nodup x l : NoDup l → NoDup (add_test x l).
Proof.
  intros Hl. unfold add_test. destruct (existsb (str_eqb x) l) eqn:E; [done|]. apply NoDup_app. split; [done|]. split; [|apply NoDup_singleton].
  intros y Hy ->%list_elem_of_singleton. apply not_true_iff_false in E. apply E. apply existsb_exists.
  exists x. split; [by apply list_elem_of_In|]. by apply bool_decide_eq_true.
Qed.

Lemma all_tests_nodup : NoDup ALL_TESTS.
Proof. apply (bool_decide_unpack _). vm_compute. exact I. Qed.

(** The filter holds names of tests only, each once, whatever the text. *)
Theorem filter_well_formed {JC : JsCase} env raw :
  NoDup (parseSmtpTestFilter env raw) ∧ ∀ t, t ∈ parseSmtpTestFilter env raw → t ∈ ALL_TESTS.
Proof.
  unfold parseSmtpTestFilter. cbv zeta. generalize (toLowerCase (trim match raw with Some r => r | None => default (js "full") env end)).
  intros val. destruct (str_empty val || str_eqb val (js "full")); [by split; [apply all_tests_nodup|]|].
  destruct (str_eqb val (js "none")); [split; [apply NoDup_nil_2|set_solver]|].
  induction (split_unit 59 val) as [|t l IH] using rev_ind; [split; [apply NoDup_nil_2|set_solver]|].
  rewrite fold_left_app. cbn [fold_left]. destruct IH as [IH1 IH2].
  destruct (str_eqb (trim t) (js "dmark")).
  { split; [by apply add_test_nodup|]. intros y [->|Hy]%add_test_in; [|by apply IH2]. apply (bool_decide_unpack _). vm_compute. exact I. }
  destruct (existsb (str_eqb (trim t)) ALL_TESTS) eqn:E; [|done].
  split; [by apply add_test_nodup|]. intros y [->|Hy]%add_test_in; [|by apply IH2].
  apply existsb_exists in E as (z & Hz & ->%bool_decide_eq_true). by apply list_elem_of_In.
Qed.

(** A configuration has a host and a port other than 0; a connection that starts without
    encryption upgrades it unless the protocol is plain [smtp] or an inherited name. *)
Theorem env_config_well_formed {JC : JsCase} e cfg :
  getEnvSmtpConfig e = Some cfg →
  sc_host cfg ≠ [] ∧ sc_port cfg ≠ 0 ∧
  (tr_secure (env_transport e cfg) || tr_requireTLS (env_transport e cfg) = false →
   sc_protocol cfg = ProtoName (js "smtp") ∨ ∃ k, sc_protocol cfg = ProtoInherited k).
Proof.
  unfold getEnvSmtpConfig. cbv zeta. destruct (trim (or_else (se_host e) [])) as [|c h]; [done|]. cbn [str_empty]. intros [= <-].
  unfold env_transport. cbn [sc_host sc_port sc_protocol sc_username sc_password tr_secure tr_requireTLS].
  generalize (toLowerCase (trim (or_else (se_protocol e) (js "STARTTLS")))). intros raw. split; [done|]. split.
  - assert (Hd : default_port (protocol_of raw) ≠ 0) by (unfold protocol_of; repeat case_match; vm_compute; discriminate).
    destruct (parseInt10 _) as [n|]; [|done]. destruct (Z.eqb_spec n 0); done.
  - unfold protocol_of. repeat case_match; cbn; eauto; vm_compute; discriminate.
Qed.

(** ** The guards of the handlers *)

Section guards.
Context {JC : JsCase} {S : Type} {HS : StateStore S} {JW : Jwe} {SE : ServerEnv}.

(** What a handler behind the guard does. *)
Lemma guarded_bind {A} now ck c (f : AuthUser → H S A) (s : Server S) :
  (guarded now ck c ≫= f) s =
  match authMiddleware now ck s with
  | Some a => if csrf_ok c then f a s else (s, Throw (RErr 403 "csrf"))
  | None => (s, Throw (RErr 401 "unauthenticated"))
  end.
Proof.
  unfold guarded, requireAuth, requireCsrf, stop_if, mbind, H_bind.
  destruct (authMiddleware now ck s); [|done]. by destruct (csrf_ok c).
Qed.

Lemma stop_if_bind {A} b r (f : unit → H S A) (s : Server S) : (stop_if b r ≫= f) s = if b then (s, Throw r) else f tt s.
Proof. unfold stop_if, mbind, H_bind. by destruct b. Qed.

(** An expiry mail is sent for a signed-in user with the CSRF token only, over a
    verified connection to a host the guard accepts; its sender is the user of the mail
    server, and neither address can start a new header. *)
Theorem expiry_mail_guarded now ck c lookup send body (s s' : Server S) r t m :
  send_expiry now ck c lookup send body s = (s', Ok (r, Some (t, m))) →
  s' = s ∧ is_Some (authMiddleware now ck s) ∧ csrf_ok c = true ∧ resolvesToPublicHost lookup (tr_host t) = true ∧
  tr_rejectUnauthorized t = true ∧ ml_from m = tr_user t ∧ has_line_break (ml_from m) = false ∧ has_line_break (ml_to m) = false ∧
  (send t m = false → r = RErr 502 "smtp_error").
Proof.
  unfold send_expiry. rewrite guarded_bind. destruct (authMiddleware now ck s) as [a|]; [|done]. destruct (csrf_ok c) eqn:Ec; [|done].
  cbv zeta. rewrite stop_if_bind. destruct (negb _); [done|].
  destruct (prop "credentials" body) as [[| | | |creds|]|]; try done. destruct (as_string (prop "toEmail" body)) as [to_|]; [|done].
  rewrite stop_if_bind. destruct (_ || _ || _ || _) eqn:Eb; [done|]. destruct creds as [|x creds]; [done|].
  rewrite stop_if_bind. destruct (resolvesToPublicHost _ _) eqn:Eg; [|done]. cbn [negb]. unfold mret, H_ret. intros [= <- <- <- <-].
  apply orb_false_iff in Eb as [[_ E2]%orb_false_iff E1].
  repeat split; try done. by intros ->.
Qed.

(** The check of a mail server connects to any host that is not spelled as an internal
    address and whose domain has mail records: what the host resolves to is not looked
    at, and the certificate is not verified. *)
Theorem smtp_check_unguarded now ck c d verify env body (s : Server S) a host mx :
  authMiddleware now ck s = Some a → csrf_ok c = true →
  prop "host" body = Some (JStr host) → host ≠ [] → truthy (prop "port" body) = true → truthy (prop "username" body) = true →
  truthy (prop "password" body) = true → blocked_host (toLowerCase (trim host)) = false →
  resolveMx d (mail_domain (toLowerCase (trim host))) = Some mx → mx ≠ [] →
  ∃ v t, smtp_check now ck c d verify env body s = (s, Ok (RJson v, Some t)) ∧
         tr_host t = toLowerCase (trim host) ∧ tr_rejectUnauthorized t = false.
Proof.
  intros Ha Hc Hh Hne Hp Hu Hw Hb Hmx Hmx'. unfold smtp_check. rewrite guarded_bind, Ha, Hc, Hh. cbn [as_string].
  rewrite stop_if_bind, Hp, Hu. destruct host as [|x host]; [done|]. cbn [str_empty orb negb]. cbv zeta. rewrite stop_if_bind, Hb.
  unfold check_result. cbv zeta. rewrite Hmx, Hw. destruct mx; [done|]. cbn [andb].
  eexists _, _. split; [reflexivity|]. done.
Qed.

Lemma check_opened d verify env host body t :
  (check_result d verify env host body).2 = Some t →
  truthy (prop "password" body) = true ∧ t = check_transport host body ∧ ∃ x l, resolveMx d (mail_domain host) = Some (x :: l).
Proof.
  unfold check_result. cbv zeta. cbn [snd]. destruct (resolveMx d _) as [[|x l]|]; try done. cbn [andb].
  destruct (truthy _); [|done]. intros [= <-]. eauto.
Qed.

(** No connection is opened without mail records of the domain or without a password,
    nor to a private address of the blocks the pattern lists. *)
Theorem smtp_check_connects_only now ck c d verify env body (s s' : Server S) r t :
  smtp_check now ck c d verify env body s = (s', Ok (r, Some t)) →
  s' = s ∧ is_Some (authMiddleware now ck s) ∧ csrf_ok c = true ∧ blocked_host (tr_host t) = false ∧
  truthy (prop "password" body) = true ∧ ∃ x l, resolveMx d (mail_domain (tr_host t)) = Some (x :: l).
Proof.
  unfold smtp_check. rewrite guarded_bind. destruct (authMiddleware now ck s) as [a|]; [|done]. destruct (csrf_ok c) eqn:Ec; [|done].
  destruct (as_string _) as [host|]; [|done]. rewrite stop_if_bind. destruct (_ || _); [done|]. cbv zeta. rewrite stop_if_bind.
  destruct (blocked_host _) eqn:Eb; [done|].
  destruct (check_result _ _ _ _ _) as [v o] eqn:Er. apply (f_equal snd) in Er. cbn [snd] in Er. unfold mret, H_ret. intros [= <- <- ->].
  apply check_opened in Er as (Hp & -> & x & l & Hm). cbn [tr_host check_transport]. repeat split; eauto.
Qed.
End guards.

(** The pattern refuses the private addresses of the guard but those of [0.0.0.0/8] and
    [100.64.0.0/10]. *)
Theorem blocked_private h :
  lower_ascii h = h → isPrivateV4 h = true → starts_with (js "0.") h = false → starts_with (js "100.") h = false →
  blocked_host h = true.
Proof.
  intros Hl. unfold isPrivateV4, blocked_host, starts_ci. rewrite Hl. intros Hp H0 H1. rewrite H0, H1 in Hp. cbn [orb andb] in Hp.
  rewrite !orb_true_iff in *. intuition congruence.
Qed.

Lemma slips_through : map blocked_host [js "0.0.0.0"; js "100.64.0.1"; js "fe80::1"; js "::ffff:10.0.0.1"] = [false; false; false; false].
Proof. vm_compute. reflexivity. Qed.

(** ** The DNS check *)

(** The names that belong to a domain. *)
Definition under (domain name : jsstr) : Prop := ∃ p, name = p ++ domain.

Definition agree (domain : jsstr) (d1 d2 : Dns) : Prop :=
  ∀ n, under domain n → resolveMx d1 n = resolveMx d2 n ∧ resolveTxt d1 n = resolveTxt d2 n.

Lemma existsb_ext' {A} (f g : A → bool) l : (∀ x, f x = g x) → existsb f l = existsb g l.
Proof. intros Hf. induction l as [|x l IH]; [done|]. cbn. by rewrite Hf, IH. Qed.

(** The public check learns nothing but names of the domain that was asked for. *)
Theorem dns_check_confined {JC : JsCase} {S : Type} {HS : StateStore S} now ip d1 d2 domain (s : Server S) :
  agree (trim (toLowerCase domain)) d1 d2 → dns_check now ip d1 (Some domain) s = dns_check now ip d2 (Some domain) s.
Proof.
  intros Ha. unfold dns_check. assert (dns_answer d1 (trim (toLowerCase domain)) = dns_answer d2 (trim (toLowerCase domain))) as ->; [|done].
  set (n := trim (toLowerCase domain)) in *.
  assert (Hu : ∀ p q, resolveTxt d1 (p ++ q ++ n) = resolveTxt d2 (p ++ q ++ n)).
  { intros p q. apply Ha. exists (p ++ q). by rewrite app_assoc. }
  assert (Hn : resolveMx d1 n = resolveMx d2 n ∧ resolveTxt d1 n = resolveTxt d2 n) by (apply Ha; by exists []). destruct Hn as [Hm Ht].
  pose proof (Hu [] (js "_dmarc.")) as Hd. pose proof (Hu [] (js "default._bimi.")) as Hb. cbn [app] in Hd, Hb.
  unfold dns_answer. rewrite Hm, Ht, Hd, Hb.
  rewrite (existsb_ext' _ (λ sel, match resolveTxt d2 (sel ++ js "._domainkey." ++ n) with
                                   | Some l => existsb (λ txt, dkim_record (concat txt)) l
                                   | None => false
                                   end)); [done|]. intros sel. by rewrite (Hu sel (js "._domainkey.")).
Qed.

(** ** Concrete requests *)

Import Toy AccountSpec.

Definition rebound_lookup (h : jsstr) : option (list (jsstr * Z)) :=
  if str_eqb h (js "intra.evil.org") then Some [(js "10.0.0.1", 4)] else Some [(js "203.0.113.9", 4)].

Definition evil_dns : Dns :=
  mkDns (λ n, if str_eqb n (js "evil.org") then Some [(10, js "mx.evil.org")] else None) (λ _, None).

Definition check_body : json :=
  obj_ [("host", JStr (js "intra.evil.org")); ("port", JNum (Int 25)); ("username", JStr (js "u")); ("password", JStr (js "p"))]%string.

Lemma smtp_check_unguarded_witness :
  resolvesToPublicHost rebound_lookup (js "intra.evil.org") = false ∧
  ∃ v t, smtp_check now (Some cookie) csrf evil_dns (λ _, None) None check_body joined = (joined, Ok (RJson v, Some t)) ∧
         tr_host t = js "intra.evil.org".
Proof.
  split; [vm_compute; reflexivity|].
  pose proof (smtp_check_unguarded now (Some cookie) csrf evil_dns (λ _, None) None check_body joined
    (mkAuthUser (js "n1") email_hash (js "jti1") (now / 1000 + JWE_TTL_SECONDS)) (js "intra.evil.org") [(10, js "mx.evil.org")]) as H.
  assert (P1 : authMiddleware now (Some cookie) joined = Some (mkAuthUser (js "n1") email_hash (js "jti1") (now / 1000 + JWE_TTL_SECONDS)))
    by (vm_compute; reflexivity). specialize (H P1).
  assert (P2 : csrf_ok csrf = true) by (vm_compute; reflexivity). specialize (H P2).
  assert (P3 : prop "host" check_body = Some (JStr (js "intra.evil.org"))) by (vm_compute; reflexivity). specialize (H P3).
  assert (P4 : js "intra.evil.org" ≠ []) by (vm_compute; discriminate). specialize (H P4).
  assert (P5 : truthy (prop "port" check_body) = true) by (vm_compute; reflexivity). specialize (H P5).
  assert (P6 : truthy (prop "username" check_body) = true) by (vm_compute; reflexivity). specialize (H P6).
  assert (P7 : truthy (prop "password" check_body) = true) by (vm_compute; reflexivity). specialize (H P7).
  assert (Eh : toLowerCase (trim (js "intra.evil.org")) = js "intra.evil.org") by (vm_compute; reflexivity). rewrite Eh in H.
  assert (P8 : blocked_host (js "intra.evil.org") = false) by (vm_compute; reflexivity). specialize (H P8).
  assert (P9 : resolveMx evil_dns (mail_domain (js "intra.evil.org")) = Some [(10, js "mx.evil.org")]) by (vm_compute; reflexivity).
  specialize (H P9). destruct H as (v & t & H1 & H2 & _); [discriminate|]. exists v, t. split; [exact H1|exact H2].
Defined.

Definition expiry_body : json :=
  obj_ [("smtp", obj_ [("host", JStr (js " MAIL.evil.org")); ("port", JNum (Int 465)); ("protocol", JStr (js "ssl_tls"));
                       ("username", JStr (js "u@evil.org")); ("password", JStr (js "p"))]);
        ("credentials", JArr [obj_ [("service", JStr (js "bank")); ("value", JNum (Int 90)); ("unit", JStr (js "days"))]; JNull]);
        ("toEmail", JStr (js "me@x.org"))]%string.

Lemma expiry_mail_guarded_witness :
  match send_expiry now (Some cookie) csrf rebound_lookup (λ _ _, true) expiry_body joined with
  | (_, Ok (_, Some (t, m))) =>
      tr_host t = js "mail.evil.org" ∧ resolvesToPublicHost rebound_lookup (tr_host t) = true ∧ ml_from m = js "u@evil.org"
  | _ => False
  end.
Proof.
  assert (Hs : ∃ r t m, (send_expiry now (Some cookie) csrf rebound_lookup (λ _ _, true) expiry_body joined).2 = Ok (r, Some (t, m)) ∧
                        tr_host t = js "mail.evil.org" ∧ ml_from m = js "u@evil.org").
  { eexists _, _, _. split; [vm_compute; reflexivity|]. split; vm_compute; reflexivity. }
  destruct Hs as (r & t & m & Hr & Ht & Hm).
  destruct (send_expiry now (Some cookie) csrf rebound_lookup (λ _ _, true) expiry_body joined) as [s' x] eqn:E.
  cbn [snd] in Hr. subst x. pose proof (expiry_mail_guarded _ _ _ _ _ _ _ _ _ _ _ E) as (_ & _ & _ & Hg & _).
  split; [exact Ht|]. split; [exact Hg|exact Hm].
Defined.
End MailSpec.
