(* ===== verification/ModesPage.v ===== *)
(** * Duress and travel mode in the settings
      ([web/src/pages/Settings/SecurityModesSection.tsx])

    The two dialogs over the configuration store of [SecurityModes] and the vault of
    [VaultSync].  [Client] is both; [reloadLocal] reads the configuration of travel mode
    and the collections again.  A hash that fails is an argument. *)
From S2P Require Import Prelude JsRuntime JsText Types CryptoUtils VaultSync VaultSyncSpec SecurityModes SecurityModesSpec.

(** ** The client behind the page *)

Record Client := mkClient { cl_modes : store; cl_app : app }.

(** The view of travel mode that a load applies. *)
Definition see_travel (c : TravelModeConfig) (a : app) : app :=
  let w := a_world a in
  with_world a (mkWorld (w_keys w) (w_session w) (w_server w) (w_outbox w) (w_local w) (mkTravel (t_active c) (hiddenFolderIds c)) (w_engine w)).

(** The outcomes of the three reads of a load and the generated values. *)
Record Load := mkLoad { ld_folders : net; ld_credentials : net; ld_assets : net; ld_uuids : nat → nat → jsstr; ld_uuid : jsstr }.

(** [reloadLocal()]: [performLoad], which reads the configuration of travel mode along
    with the collections. *)
Definition reloadLocal (daemonToken hasToken : bool) (l : Load) (c : Client) : Client :=
  if daemonToken then c
  else let '(s, cfg) := getTravelModeConfigAsync (cl_modes c) (ld_uuid l) in
       mkClient s (performLoad (see_travel cfg (cl_app c)) false hasToken (ld_uuids l) (ld_folders l) (ld_credentials l) (ld_assets l)).

Inductive FormError := PasswordTooShort | PasswordMismatch | NoFolder | WrongPassword | ArmFailed.

(** ** Duress mode *)

Record DuressForm := mkDuressForm {
  df_config : DuressModeConfig; df_open : bool; df_step : Z; df_password : jsstr; df_confirm : jsstr; df_max : Z;
  df_error : option FormError; df_warning : option sync_error }.

Definition df_with_error (f : DuressForm) (e : option FormError) : DuressForm :=
  mkDuressForm (df_config f) (df_open f) (df_step f) (df_password f) (df_confirm f) (df_max f) e (df_warning f).
Definition df_armed (f : DuressForm) (c : DuressModeConfig) (w : option sync_error) : DuressForm :=
  mkDuressForm c (df_open f) 3 (df_password f) (df_confirm f) (df_max f) (df_error f) w.

(** The button that opens the dialog. *)
Definition open_duress (f : DuressForm) : DuressForm := mkDuressForm (df_config f) true 1 [] [] (df_max f) None None.

Definition type_duress (v : jsstr) (f : DuressForm) : DuressForm :=
  mkDuressForm (df_config f) (df_open f) (df_step f) v (df_confirm f) (df_max f) None (df_warning f).
Definition type_duress_confirm (v : jsstr) (f : DuressForm) : DuressForm :=
  mkDuressForm (df_config f) (df_open f) (df_step f) (df_password f) v (df_max f) None (df_warning f).

(** The list of attempts, disabled while armed. *)
Definition choose_max (n : Z) (f : DuressForm) : DuressForm :=
  if armed (df_config f) then f
  else mkDuressForm (df_config f) (df_open f) (df_step f) (df_password f) (df_confirm f) n (df_error f) (df_warning f).

Section duress.
Context `{Argon2}.

(** [handleArmDuress]; [hashFails]: the hash throws before anything is stored. *)
Definition handleArmDuress (uuid : jsstr) (saltBytes : bytes) (hashFails : bool) (f : DuressForm) (s : store) : DuressForm * store :=
  if len (df_password f) <? 8 then (df_with_error f (Some PasswordTooShort), s)
  else if negb (str_eqb (df_password f) (df_confirm f)) then (df_with_error f (Some PasswordMismatch), s)
  else
    let f := mkDuressForm (df_config f) (df_open f) (df_step f) (df_password f) (df_confirm f) (df_max f) (df_error f) None in
    if hashFails then (df_with_error f (Some ArmFailed), s)
    else let '(s, r) := armDuressMode s saltBytes (df_password f) (df_max f) in
         (df_armed f (getDuressModeConfig s uuid) (match r with Ok _ => None | Throw e => Some e end), s).

(** The button of the dialog: the first step only looks at the length. *)
Definition next_duress (uuid : jsstr) (saltBytes : bytes) (hashFails : bool) (f : DuressForm) (s : store) : DuressForm * store :=
  if df_step f =? 1 then
    if len (df_password f) <? 8 then (df_with_error f (Some PasswordTooShort), s)
    else (mkDuressForm (df_config f) (df_open f) 2 (df_password f) (df_confirm f) (df_max f) None (df_warning f), s)
  else handleArmDuress uuid saltBytes hashFails f s.

Definition handleDisarmDuress (uuid : jsstr) (f : DuressForm) (s : store) : DuressForm * store :=
  let s := disarmDuressMode s in
  (mkDuressForm (getDuressModeConfig s uuid) false (df_step f) (df_password f) (df_confirm f) (df_max f) (df_error f) (df_warning f), s).
End duress.

(** ** Travel mode *)

Record TravelForm := mkTravelForm {
  tf_config : TravelModeConfig; tf_open : bool; tf_step : Z; tf_hidden : list jsstr; tf_password : jsstr; tf_confirm : jsstr;
  tf_error : option FormError; tf_disableOpen : bool; tf_disablePw : jsstr; tf_disableError : option FormError }.

Definition tf_set (f : TravelForm) (step : Z) (hidden : list jsstr) (pw confirm : jsstr) (e : option FormError) : TravelForm :=
  mkTravelForm (tf_config f) (tf_open f) step hidden pw confirm e (tf_disableOpen f) (tf_disablePw f) (tf_disableError f).
Definition tf_with_error (f : TravelForm) (e : option FormError) : TravelForm :=
  tf_set f (tf_step f) (tf_hidden f) (tf_password f) (tf_confirm f) e.

Definition open_travel (f : TravelForm) : TravelForm :=
  mkTravelForm (tf_config f) true 1 [] [] [] None (tf_disableOpen f) (tf_disablePw f) (tf_disableError f).
Definition open_disable (f : TravelForm) : TravelForm :=
  mkTravelForm (tf_config f) (tf_open f) (tf_step f) (tf_hidden f) (tf_password f) (tf_confirm f) (tf_error f) true [] None.

Definition toggleTravelFolder (id : jsstr) (f : TravelForm) : TravelForm :=
  tf_set f (tf_step f)
    (if existsb (str_eqb id) (tf_hidden f) then List.filter (λ x, negb (str_eqb x id)) (tf_hidden f) else tf_hidden f ++ [id])
    (tf_password f) (tf_confirm f) (tf_error f).

Definition type_travel (v : jsstr) (f : TravelForm) : TravelForm := tf_set f (tf_step f) (tf_hidden f) v (tf_confirm f) None.
Definition type_travel_confirm (v : jsstr) (f : TravelForm) : TravelForm := tf_set f (tf_step f) (tf_hidden f) (tf_password f) v None.
Definition type_disable (v : jsstr) (f : TravelForm) : TravelForm :=
  mkTravelForm (tf_config f) (tf_open f) (tf_step f) (tf_hidden f) (tf_password f) (tf_confirm f) (tf_error f) (tf_disableOpen f) v None.

(** The first thing wrong with the form. *)
Definition password_error (pw confirm : jsstr) : option FormError :=
  if len pw <? 8 then Some PasswordTooShort else if negb (str_eqb pw confirm) then Some PasswordMismatch else None.

(** The buttons that lead from step 1 to 2 and from 2 to 3. *)
Definition next_travel (f : TravelForm) : TravelForm :=
  if tf_step f =? 1 then
    match tf_hidden f with
    | [] => tf_with_error f (Some NoFolder)
    | _ => tf_set f 2 (tf_hidden f) (tf_password f) (tf_confirm f) None
    end
  else match password_error (tf_password f) (tf_confirm f) with
       | Some e => tf_with_error f (Some e)
       | None => tf_set f 3 (tf_hidden f) (tf_password f) (tf_confirm f) None
       end.

Definition tf_with_config (f : TravelForm) (c : TravelModeConfig) (step : Z) (disableOpen : bool) : TravelForm :=
  mkTravelForm c (tf_open f) step (tf_hidden f) (tf_password f) (tf_confirm f) (tf_error f) disableOpen (tf_disablePw f) (tf_disableError f).

Section travel.
Context `{TravelCrypto}.

(** [handleEnableTravel]; what [enableTravelMode] returns is not used. *)
Definition handleEnableTravel (daemonToken hasToken : bool) (uuid saltUuid : jsstr) (iv : bytes) (l : Load) (f : TravelForm) (c : Client)
    : TravelForm * Client :=
  match tf_hidden f with
  | [] => (tf_with_error f (Some NoFolder), c)
  | _ =>
      match password_error (tf_password f) (tf_confirm f) with
      | Some e => (tf_with_error f (Some e), c)
      | None =>
          let '(s, _) := enableTravelMode (cl_modes c) saltUuid iv (tf_password f) (tf_hidden f)
                           (a_credentials (cl_app c)) (a_folders (cl_app c)) in
          (tf_with_config f (getTravelModeConfig s uuid) 4 (tf_disableOpen f),
           reloadLocal daemonToken hasToken l (mkClient s (cl_app c)))
      end
  end.

(** [handleDisableTravel]; of the result only [ok] is used. *)
Definition handleDisableTravel (daemonToken hasToken : bool) (uuid uuid1 uuid2 : jsstr) (l : Load) (f : TravelForm) (c : Client)
    : TravelForm * Client :=
  let '(s, (ok, _, _)) := disableTravelMode (cl_modes c) uuid1 uuid2 (tf_disablePw f) (a_credentials (cl_app c)) (a_folders (cl_app c)) in
  let c := mkClient s (cl_app c) in
  if negb ok then
    (mkTravelForm (tf_config f) (tf_open f) (tf_step f) (tf_hidden f) (tf_password f) (tf_confirm f) (tf_error f) (tf_disableOpen f)
       (tf_disablePw f) (Some WrongPassword), c)
  else (tf_with_config f (getTravelModeConfig s uuid) (tf_step f) false, reloadLocal daemonToken hasToken l c).
End travel.

(** The effect on mount: both configurations from the server. *)
Definition sync_on_mount (uuid1 uuid2 : jsstr) (d : DuressForm) (t : TravelForm) (s : store) : DuressForm * TravelForm * store :=
  let '(s, dc) := getDuressModeConfigFull s uuid1 in
  let '(s, tc) := getTravelModeConfigAsync s uuid2 in
  (mkDuressForm dc (df_open d) (df_step d) (df_password d) (df_confirm d) (df_max d) (df_error d) (df_warning d),
   tf_with_config t tc (tf_step t) (tf_disableOpen t), s).

(** * Theorems on the dialogs *)

Module ModesPageSpec.
Import SyncSpec ModesSpec.

(** ** Loads *)

Definition visible {A} (f : A → jsstr) (cfg : TravelModeConfig) (l : list A) : list A :=
  if t_active cfg then filter (λ x, f x ∉ hiddenFolderIds cfg) l else l.

Definition online (uuids : nat → nat → jsstr) (uuid : jsstr) : Load := mkLoad Online Online Online uuids uuid.

Lemma read_online w k r p : live w k → server_doc w r = Encrypted (Seal k p) → _localRead w r Online = (w, RValue p).
Proof. intros [Hs Hk _] Hd. unfold _localRead. by rewrite Hs, Hd, (decrypt_k1 _ k). Qed.

Lemma read_any w k r : live w k → ∃ x, _localRead w r Online = (w, x).
Proof.
  intros [Hs Hk _]. unfold _localRead. rewrite Hs. destruct (server_doc w r) as [s|p]; [|eauto].
  destruct (decryptFromServer _ s); eauto.
Qed.

(** What a load shows, for the configuration of travel mode it read. *)
Lemma load_screen a k cfg uuids cs fs :
  live (a_world a) k → server_doc (a_world a) credentials = Encrypted (Seal k (PCreds cs)) →
  server_doc (a_world a) folders = Encrypted (Seal k (PFolders fs)) →
  let a' := performLoad (see_travel cfg a) false true uuids Online Online Online in
  a_credentials a' = visible c_folderId cfg (dedup_credentials [] uuids cs) ∧
  a_folders a' = visible f_id cfg (dedup_folders [] uuids fs) ∧
  a_world a' = a_world (see_travel cfg a) ∧ a_daemonConnected a' = a_daemonConnected a.
Proof.
  intros Hl Hc Hf. cbv zeta.
  assert (Hl' : live (a_world (see_travel cfg a)) k) by (destruct Hl; by split).
  assert (Hc' : server_doc (a_world (see_travel cfg a)) credentials = Encrypted (Seal k (PCreds cs))) by exact Hc.
  assert (Hf' : server_doc (a_world (see_travel cfg a)) folders = Encrypted (Seal k (PFolders fs))) by exact Hf.
  destruct (read_any _ k asset_holder Hl') as [xa Ha]. pose proof (live_session _ _ Hl') as Hs.
  unfold performLoad. rewrite (read_online _ k _ _ Hl' Hc'), (read_online _ k _ _ Hl' Hf'), Ha, Hs. cbn [andb orb negb].
  rewrite Hs. cbn [andb loadLocalFolders loadLocalCredentials]. unfold visible.
  change (tv_active (w_travel (a_world (see_travel cfg a)))) with (t_active cfg).
  change (tv_hidden (w_travel (a_world (see_travel cfg a)))) with (hiddenFolderIds cfg).
  destruct (t_active cfg); cbn [fmap option_fmap option_map]; by destruct (loadLocalAssetHolder xa).
Qed.

(** A load with the server reached shows the vault through the configuration that is on
    the server. *)
Lemma reload_screen s a k cfg uuids uuid rest cs fs :
  s_session s = true → nets s = Online :: rest → srv_travel s = Some cfg →
  live (a_world a) k → server_doc (a_world a) credentials = Encrypted (Seal k (PCreds cs)) →
  server_doc (a_world a) folders = Encrypted (Seal k (PFolders fs)) →
  let c' := reloadLocal false true (online uuids uuid) (mkClient s a) in
  cl_modes c' = SecurityModes.set_travel (set_nets s rest) (Some (Plain cfg)) ∧
  a_credentials (cl_app c') = visible c_folderId cfg (dedup_credentials [] uuids cs) ∧
  a_folders (cl_app c') = visible f_id cfg (dedup_folders [] uuids fs) ∧
  live (a_world (cl_app c')) k ∧ w_server (a_world (cl_app c')) = w_server (a_world a) ∧
  a_daemonConnected (cl_app c') = a_daemonConnected a.
Proof.
  intros Hs Hn Ht Hl Hc Hf. cbv zeta. unfold reloadLocal. cbn [cl_modes cl_app online ld_uuid ld_uuids ld_folders ld_credentials ld_assets].
  assert (getTravelModeConfigAsync s uuid = (SecurityModes.set_travel (set_nets s rest) (Some (Plain cfg)), cfg)) as ->.
  { unfold getTravelModeConfigAsync, request. rewrite Hs, Hn. cbn [hd tl set_nets srv_travel]. by rewrite Ht. }
  destruct (load_screen a k cfg uuids cs fs Hl Hc Hf) as (H1 & H2 & H3 & H4). cbn [cl_modes cl_app].
  rewrite H3. split; [done|]. split; [done|]. split; [done|]. split; [by destruct Hl|]. done.
Qed.

(** ** Turning travel mode on and off with the server reached *)

Section travel.
Context `{TL : TravelLaws}.

Definition travel_cfg (pw salt : jsstr) (iv : bytes) (ids : list jsstr) : TravelModeConfig :=
  mkTravelCfg true (Some (hashPassword pw salt)) ids salt (bytesToHex iv) (Some 2).

Lemma enable_online s salt iv pw ids cs fs rest :
  s_session s = true → nets s = Online :: Online :: rest →
  let s' := (enableTravelMode s salt iv pw ids cs fs).1 in
  s_session s' = true ∧ nets s' = rest ∧ srv_travel s' = Some (travel_cfg pw salt iv ids) ∧
  travel_vault s' = Some (mkEnvelope (bytesToHex iv) (bytesToHex (seal (deriveTravelKeyBytes pw salt 2) iv
    (List.filter (λ c, is_hidden ids (c_folderId c)) cs, List.filter (λ f, is_hidden ids (f_id f)) fs)))).
Proof.
  intros Hs Hn. cbv zeta. destruct (enable_effect s salt iv pw ids cs fs) as (_ & H2 & H3 & H4 & H5). cbv zeta in *.
  rewrite H2, (H4 Hs), Hn, H5, H3 by (done || by rewrite Hn). done.
Qed.

Lemma disable_online s uuid1 uuid2 pw salt iv ids cs fs p rest :
  s_session s = true → nets s = Online :: Online :: Online :: Online :: rest →
  srv_travel s = Some (travel_cfg pw salt iv ids) → Bytes iv →
  travel_vault s = Some (mkEnvelope (bytesToHex iv) (bytesToHex (seal (deriveTravelKeyBytes pw salt 2) iv p))) →
  let '(s', r) := disableTravelMode s uuid1 uuid2 pw cs fs in
  r = (true, cs ++ p.1, fs ++ p.2) ∧ s_session s' = true ∧ nets s' = rest ∧
  srv_travel s' = Some (mkTravelCfg false None [] uuid2 [] None) ∧ travel_vault s' = None ∧ srv_travel_vault s' = None.
Proof.
  intros Hs Hn Ht Hiv Hv. destruct s as [ss csrf lo du sn sd se tr st tv stv ns]. cbn in Hs, Hv, Ht, Hn. subst.
  unfold disableTravelMode. cbn [getTravelModeConfigAsync s_session request nets hd tl set_nets srv_travel SecurityModes.set_travel].
  destruct (hashPassword_cons pw salt) as (c & h & E). cbn [travel_cfg t_passwordHash t_active t_salt kdf_version]. rewrite E. cbn [negb].
  rewrite <- E, (proj2 (timingSafeEqual_hex _ _ (hashPassword_hex _ _) (hashPassword_hex _ _)) eq_refl). cbn [negb].
  unfold find_envelope. cbn [travel_vault SecurityModes.set_travel set_nets]. unfold open_envelope. cbn [e_iv e_ct]. rewrite !hex_roundtrip by (done || apply seal_bytes).
  change (kdf_or_1 (Some 2)) with 2. rewrite unseal_seal. destruct p as [hc hf]. cbn. by split_and!.
Qed.

(** The client while travel mode is on: [p] is sealed in the envelope, [cs] and [fs] are
    the collections on the server. *)
Record travelling (c : Client) (k : Z) (pw salt : jsstr) (iv : bytes) (ids : list jsstr) (p : list Credential * list Folder)
    (cs : list Credential) (fs : list Folder) (rest : list net) : Prop := {
  tr_session : s_session (cl_modes c) = true;
  tr_nets : nets (cl_modes c) = rest;
  tr_cfg : srv_travel (cl_modes c) = Some (travel_cfg pw salt iv ids);
  tr_vault : travel_vault (cl_modes c) =
    Some (mkEnvelope (bytesToHex iv) (bytesToHex (seal (deriveTravelKeyBytes pw salt 2) iv p)));
  tr_live : live (a_world (cl_app c)) k;
  tr_creds : server_doc (a_world (cl_app c)) credentials = Encrypted (Seal k (PCreds cs));
  tr_folders : server_doc (a_world (cl_app c)) folders = Encrypted (Seal k (PFolders fs)) }.

Lemma enable_page s a k salt iv uuid uuids u1 f cs fs rest :
  s_session s = true → nets s = Online :: Online :: Online :: rest →
  live (a_world a) k → server_doc (a_world a) credentials = Encrypted (Seal k (PCreds cs)) →
  server_doc (a_world a) folders = Encrypted (Seal k (PFolders fs)) →
  tf_hidden f ≠ [] → password_error (tf_password f) (tf_confirm f) = None →
  let '(f1, c1) := handleEnableTravel false true uuid salt iv (online uuids u1) f (mkClient s a) in
  tf_step f1 = 4 ∧
  (∃ p, travelling c1 k (tf_password f) salt iv (tf_hidden f) p cs fs rest) ∧
  a_credentials (cl_app c1) = filter (λ x, c_folderId x ∉ tf_hidden f) (dedup_credentials [] uuids cs) ∧
  a_folders (cl_app c1) = filter (λ x, f_id x ∉ tf_hidden f) (dedup_folders [] uuids fs) ∧
  w_server (a_world (cl_app c1)) = w_server (a_world a) ∧ a_daemonConnected (cl_app c1) = a_daemonConnected a.
Proof.
  intros Hs Hn Hl Hc Hf Hh Hp. unfold handleEnableTravel. destruct (tf_hidden f) as [|i ids] eqn:Ei; [done|]. rewrite Hp.
  cbn [cl_modes cl_app].
  pose proof (enable_online s salt iv (tf_password f) (i :: ids) (a_credentials a) (a_folders a) _ Hs Hn) as (H1 & H2 & H3 & H4).
  destruct (enableTravelMode _ _ _ _ _ _ _) as [s1 v]. cbn [fst] in *.
  destruct (reload_screen s1 a k _ uuids u1 rest cs fs H1 H2 H3 Hl Hc Hf) as (R1 & R2 & R3 & R4 & R5 & R6).
  split; [done|]. split; [|split_and!; done]. eexists. split; try rewrite R1; try done; try exact H4.
  all: unfold server_doc; by rewrite R5.
Qed.

Lemma disable_page c k pw salt iv ids p cs fs uuid uuid1 uuid2 uuids u2 f rest :
  travelling c k pw salt iv ids p cs fs (Online :: Online :: Online :: Online :: Online :: rest) → Bytes iv → tf_disablePw f = pw →
  let '(f', c') := handleDisableTravel false true uuid uuid1 uuid2 (online uuids u2) f c in
  tf_disableOpen f' = false ∧ travel_vault (cl_modes c') = None ∧ srv_travel_vault (cl_modes c') = None ∧
  a_credentials (cl_app c') = dedup_credentials [] uuids cs ∧ a_folders (cl_app c') = dedup_folders [] uuids fs ∧
  w_server (a_world (cl_app c')) = w_server (a_world (cl_app c)).
Proof.
  intros [Hs Hn Ht Hv Hl Hc Hf] Hiv <-. unfold handleDisableTravel.
  pose proof (disable_online _ uuid1 uuid2 _ _ _ _ (a_credentials (cl_app c)) (a_folders (cl_app c)) _ _ Hs Hn Ht Hiv Hv) as Hd.
  destruct (disableTravelMode _ _ _ _ _ _) as [s' r]. destruct Hd as (-> & D1 & D2 & D3 & D4 & D5). cbn [negb].
  destruct (reload_screen s' (cl_app c) k _ uuids u2 rest cs fs D1 D2 D3 Hl Hc Hf) as (R1 & R2 & R3 & R4 & R5 & R6).
  rewrite R1, R2, R3, R5. by split_and!.
Qed.

(** Travel mode only filters the screen.  Turned on, exactly the folders that were not
    chosen and their credentials are shown while the collections on the server stay as
    they are; turned off with the same password and no edit in between, everything is
    shown again. *)
Theorem travel_screen_roundtrip s a k salt iv uuid uuid1 uuid2 uuids u1 u2 f g cs fs rest :
  s_session s = true → nets s = replicate 8 Online ++ rest → Bytes iv →
  live (a_world a) k → server_doc (a_world a) credentials = Encrypted (Seal k (PCreds cs)) →
  server_doc (a_world a) folders = Encrypted (Seal k (PFolders fs)) →
  tf_hidden f ≠ [] → password_error (tf_password f) (tf_confirm f) = None → tf_disablePw g = tf_password f →
  let '(f1, c1) := handleEnableTravel false true uuid salt iv (online uuids u1) f (mkClient s a) in
  let '(f2, c2) := handleDisableTravel false true uuid uuid1 uuid2 (online uuids u2) g c1 in
  tf_step f1 = 4 ∧ tf_disableOpen f2 = false ∧
  a_credentials (cl_app c1) = filter (λ x, c_folderId x ∉ tf_hidden f) (dedup_credentials [] uuids cs) ∧
  a_folders (cl_app c1) = filter (λ x, f_id x ∉ tf_hidden f) (dedup_folders [] uuids fs) ∧
  a_credentials (cl_app c2) = dedup_credentials [] uuids cs ∧ a_folders (cl_app c2) = dedup_folders [] uuids fs ∧
  w_server (a_world (cl_app c1)) = w_server (a_world a) ∧ w_server (a_world (cl_app c2)) = w_server (a_world a).
Proof.
  intros Hs Hn Hiv Hl Hc Hf Hh Hp Hg. pose proof (enable_page s a k salt iv uuid uuids u1 f cs fs _ Hs Hn Hl Hc Hf Hh Hp) as He.
  destruct (handleEnableTravel _ _ _ _ _ _ _ _) as [f1 c1]. destruct He as (E1 & [p E2] & E3 & E4 & E5 & _).
  pose proof (disable_page c1 k _ _ _ _ _ _ _ uuid uuid1 uuid2 uuids u2 g rest E2 Hiv Hg) as Hd.
  destruct (handleDisableTravel _ _ _ _ _ _ _ _) as [f2 c2]. destruct Hd as (D1 & _ & _ & D2 & D3 & D4).
  rewrite D4. by split_and!.
Qed.

Lemma dedup_folder_ids (ids : list jsstr) uuids l : ∀ seen,
  Forall (λ x, c_folderId x ∉ ids) l → Forall (λ x, c_folderId x ∉ ids) (dedup_credentials seen uuids l).
Proof. induction l as [|x l IH]; intros seen Hl; [done|]. inversion Hl; subst. constructor; [by destruct x|]. by apply IH. Qed.

(** C15: one edit while travel mode is on loses the hidden credentials for good.  The edit
    writes what is on the screen over the collection on the server; turning travel mode
    off deletes both copies of the envelope and drops what it had taken out of it: no
    credential of a hidden folder is left on the screen or on the server. *)
Theorem travel_edit_lost_for_good s a k salt iv uuid uuid1 uuid2 uuids u1 u2 f g cs fs c now rest :
  s_session s = true → nets s = replicate 8 Online ++ rest → Bytes iv → a_daemonConnected a = false →
  live (a_world a) k → server_doc (a_world a) credentials = Encrypted (Seal k (PCreds cs)) →
  server_doc (a_world a) folders = Encrypted (Seal k (PFolders fs)) →
  tf_hidden f ≠ [] → password_error (tf_password f) (tf_confirm f) = None → tf_disablePw g = tf_password f →
  c_folderId c ∉ tf_hidden f →
  let '(f1, c1) := handleEnableTravel false true uuid salt iv (online uuids u1) f (mkClient s a) in
  let '(a2, r) := run_op (cl_app c1) (OAddCred c) Online now in
  let '(f3, c3) := handleDisableTravel false true uuid uuid1 uuid2 (online uuids u2) g (mkClient (cl_modes c1) a2) in
  r = Ok tt ∧ tf_disableOpen f3 = false ∧
  Forall (λ x, c_folderId x ∉ tf_hidden f) (a_credentials (cl_app c3)) ∧
  (∃ l, server_doc (a_world (cl_app c3)) credentials = Encrypted (Seal k (PCreds l)) ∧ Forall (λ x, c_folderId x ∉ tf_hidden f) l) ∧
  travel_vault (cl_modes c3) = None ∧ srv_travel_vault (cl_modes c3) = None.
Proof.
  intros Hs Hn Hiv Hda Hl Hc Hf Hh Hp Hg Hv. pose proof (enable_page s a k salt iv uuid uuids u1 f cs fs _ Hs Hn Hl Hc Hf Hh Hp) as He.
  destruct (handleEnableTravel _ _ _ _ _ _ _ _) as [f1 c1]. destruct He as (E1 & [p E2] & E3 & _ & _ & E6).
  destruct E2 as [T1 T2 T3 T4 T5 T6 T7]. rewrite run_op_eq by congruence. cbn [op_resource ui edit a_credentials with_credentials].
  rewrite E3. set (l := _ ++ [c]).
  assert (Hl' : Forall (λ x, c_folderId x ∉ tf_hidden f) l).
  { apply Forall_app. split; [|by constructor]. apply Forall_forall. intros x Hx. by apply list_elem_of_filter in Hx as [? _]. }
  destruct (write_online (a_world (cl_app c1)) k credentials (PCreds l) now T5) as (w' & -> & Hw1 & _ & Hw2 & _).
  match goal with |- context [mkClient (cl_modes c1) ?x] => set (a2 := x) end.
  assert (Ht : travelling (mkClient (cl_modes c1) a2) k (tf_password f) salt iv (tf_hidden f) p l fs
                 (Online :: Online :: Online :: Online :: Online :: rest)).
  { split; try done; cbn [cl_app a2 a_world with_world]; unfold server_doc; rewrite Hw2.
    - by rewrite lookup_insert_eq.
    - rewrite lookup_insert_ne by done. exact T7. }
  pose proof (disable_page _ k _ _ _ _ _ _ _ uuid uuid1 uuid2 uuids u2 g rest Ht Hiv Hg) as Hd.
  destruct (handleDisableTravel _ _ _ _ _ _ _ _) as [f3 c3]. destruct Hd as (D1 & D2 & D3 & D4 & _ & D5).
  split; [done|]. split; [done|]. rewrite D4. split; [by apply dedup_folder_ids|]. split; [|by split].
  exists l. split; [|done]. unfold server_doc. rewrite D5. apply Ht.
Qed.
End travel.

(** ** Arming *)

(** After arming the dialog says so, and it warns exactly when a session exists and the
    server did not take the flag it enforces. *)
Theorem arm_page_honest `{Argon2} uuid saltBytes f s :
  password_error (df_password f) (df_confirm f) = None →
  let '(f', s') := handleArmDuress uuid saltBytes false f s in
  df_step f' = 3 ∧ armed (df_config f') = true ∧
  (df_warning f' = None → s_session s = false ∨ srv_enforce s' = Some (df_max f)) ∧
  (df_warning f' ≠ None → s_session s = true ∧ srv_enforce s' = srv_enforce s).
Proof.
  unfold password_error, handleArmDuress. destruct (_ <? 8); [done|]. destruct (str_eqb _ _); [|done]. cbn [negb]. intros _.
  cbn [df_password df_max]. unfold armDuressMode. generalize (phc_string (bytesToHex saltBytes)
    (bytesToHex (argon2 (utf8_encode (df_password f)) saltBytes (256 * 1024) 3 1))) as phc. intros phc.
  destruct s as [[] [] lo du sn sd se tr st tv stv ns]; destruct ns as [|[| |n] [|[| |n'] rest]]; cbn; split_and!; auto; done.
Qed.

(** ** Witnesses *)

Definition page_form : TravelForm :=
  mkTravelForm (defaultTravelConfig []) true 3 [js "work"] (js "longpassword") (js "longpassword") None false (js "longpassword") None.
Definition page_net : store := demo_session (replicate 8 Online).

Lemma travel_screen_roundtrip_witness :
  let '(_, c1) := @handleEnableTravel demo_travel false true [] (js "u") (seqZ 0 12) (online s_uuids []) page_form (mkClient page_net s_online) in
  let '(_, c2) := @handleDisableTravel demo_travel false true [] [] [] (online s_uuids []) page_form c1 in
  a_credentials (cl_app c1) = [] ∧ a_credentials (cl_app c2) = [s_cred "c1" "work"].
Proof.
  pose proof (@travel_screen_roundtrip demo_travel demo_travel_laws page_net s_online 7 (js "u") (seqZ 0 12) [] [] [] s_uuids [] []
    page_form page_form [s_cred "c1" "work"] [s_folder] [] eq_refl eq_refl) as H.
  assert (P1 : Bytes (seqZ 0 12)) by (apply (bool_decide_unpack _); vm_compute; exact I).
  assert (P2 : tf_hidden page_form ≠ []) by discriminate.
  assert (P3 : password_error (tf_password page_form) (tf_confirm page_form) = None) by (vm_compute; reflexivity).
  specialize (H P1 s_online_live eq_refl eq_refl P2 P3 eq_refl).
  destruct (handleEnableTravel _ _ _ _ _ _ _ _) as [f1 c1]. destruct (handleDisableTravel _ _ _ _ _ _ _ _) as [f2 c2].
  destruct H as (_ & _ & H1 & _ & H2 & _). rewrite H1, H2. split; vm_compute; reflexivity.
Defined.

Lemma travel_edit_lost_for_good_witness :
  let '(_, c1) := @handleEnableTravel demo_travel false true [] (js "u") (seqZ 0 12) (online s_uuids []) page_form (mkClient page_net s_online) in
  let '(a2, r) := run_op (cl_app c1) (OAddCred (s_cred "c2" "home")) Online 9 in
  let '(_, c3) := @handleDisableTravel demo_travel false true [] [] [] (online s_uuids []) page_form (mkClient (cl_modes c1) a2) in
  r = Ok tt ∧ (∃ l, server_doc (a_world (cl_app c3)) credentials = Encrypted (Seal 7 (PCreds l)) ∧ Forall (λ x, c_folderId x ∉ [js "work"]) l) ∧
  travel_vault (cl_modes c3) = None ∧ srv_travel_vault (cl_modes c3) = None.
Proof.
  pose proof (@travel_edit_lost_for_good demo_travel demo_travel_laws page_net s_online 7 (js "u") (seqZ 0 12) [] [] [] s_uuids [] []
    page_form page_form [s_cred "c1" "work"] [s_folder] (s_cred "c2" "home") 9 [] eq_refl eq_refl) as H.
  assert (P1 : Bytes (seqZ 0 12)) by (apply (bool_decide_unpack _); vm_compute; exact I).
  assert (P2 : tf_hidden page_form ≠ []) by discriminate.
  assert (P3 : password_error (tf_password page_form) (tf_confirm page_form) = None) by (vm_compute; reflexivity).
  assert (P4 : c_folderId (s_cred "c2" "home") ∉ tf_hidden page_form) by (apply (bool_decide_unpack _); vm_compute; exact I).
  specialize (H P1 eq_refl s_online_live eq_refl eq_refl P2 P3 eq_refl P4).
  destruct (handleEnableTravel _ _ _ _ _ _ _ _) as [f1 c1]. destruct (run_op _ _ _ _) as [a2 r].
  destruct (handleDisableTravel _ _ _ _ _ _ _ _) as [f2 c2]. destruct H as (H1 & _ & _ & H2 & H3).
  split; [exact H1|]. split; [exact H2|exact H3].
Defined.
End ModesPageSpec.
