(* ===== verification/AuthClaims.v ===== *)
(** * What the authentication routes guarantee, and where they do not *)
From Stdlib Require Import Sorted.
From S2P Require Import Prelude JsRuntime JsText Json Base64 FileCrypto StateStore RateLimiter ServerState ServerLogic SsrfGuard ServerAudit LoginRoute AccountRoutes ServerToy LoginSpec VaultRoutes.

(** ** One-time passwords of the server *)

Section server_totp.
Context {S : Type} {SH : ServerHash} {TG : TotpGenerator}.
Implicit Types s : Server S.

(** A verification, or a run of the timer that forgets old periods. *)
Inductive totp_event := Verify (now : Z) (secret code : jsstr) | Collect (now : Z).

Definition time_of (e : totp_event) : Z := match e with Verify t _ _ => t | Collect t => t end.

(** The period whose password is the code, in the order the code tries them. *)
Fixpoint period_of (ds : list Z) (now : Z) (secret code : jsstr) : option Z :=
  match ds with
  | [] => None
  | d :: ds => if str_eqb (totp_generate secret (now + d)) code then Some ((now + d) / 30000) else period_of ds now secret code
  end.

(** The secrets and periods accepted in a run. *)
Fixpoint accepted (es : list totp_event) s : list (jsstr * Z) :=
  match es with
  | [] => []
  | Collect t :: es => accepted es (totp_gc t s)
  | Verify t secret code :: es =>
      match verifyTotpCode t secret code s with
      | (s', Ok true) => match period_of [-30000; 0; 30000] t secret code with
                         | Some p => (sha256_hex (utf8_encode secret), p) :: accepted es s'
                         | None => accepted es s'
                         end
      | (s', _) => accepted es s'
      end
  end.

(** The period is remembered, or too old to be accepted again. *)
Definition spent (now : Z) s (hp : jsstr * Z) : Prop :=
  hp.2 ∈ default ∅ (usedTotp s !! hp.1) ∨ hp.2 < now / 30000 - 1.

Lemma period_of_range now secret code p : period_of [-30000; 0; 30000] now secret code = Some p → now / 30000 - 1 <= p.
Proof. cbn [period_of]. repeat (destruct (str_eqb _ _); [intros [= <-]; lia|]). done. Qed.

Lemma try_drifts_result ds now secret code h used :
  match period_of ds now secret code with
  | None => try_drifts ds now secret code h used = (used, false)
  | Some p => (try_drifts ds now secret code h used).2 = bool_decide (p ∉ default ∅ (used !! h)) ∧
              ∀ h' p', p' ∈ default ∅ (used !! h') ∨ ((h', p') = (h, p)) → p' ∈ default ∅ ((try_drifts ds now secret code h used).1 !! h')
  end.
Proof.
  induction ds as [|d ds IH]; [done|]. cbn [period_of try_drifts]. destruct (str_eqb _ _); [|exact IH].
  destruct (decide _) as [Hin|Hnin]; cbn [fst snd].
  - split; [by rewrite bool_decide_false; [|tauto]|]. intros h' p' Hp.
    destruct (decide (h' = h)) as [->|]; [rewrite lookup_insert_eq|rewrite lookup_insert_ne by done]; cbn [default from_option id].
    + destruct Hp as [?|[= ->]]; done.
    + destruct Hp as [?|[= -> _]]; done.
  - split; [by rewrite bool_decide_true|]. intros h' p' Hp.
    destruct (decide (h' = h)) as [->|]; [rewrite lookup_insert_eq|rewrite lookup_insert_ne by done]; cbn [default from_option id].
    + destruct Hp as [?|[= ->]]; set_solver.
    + destruct Hp as [?|[= -> _]]; done.
Qed.

Lemma verify_keeps_spent now now' secret code s hp :
  now <= now' → spent now s hp → spent now' (verifyTotpCode now' secret code s).1 hp.
Proof.
  intros Hn [Hs|Hs]; [|right; lia]. left. destruct hp as [h p]. cbn [fst snd] in *. unfold verifyTotpCode.
  destruct (is_otp_code code); [|done].
  pose proof (try_drifts_result [-30000; 0; 30000] now' secret code (sha256_hex (utf8_encode secret)) (usedTotp s)) as Ht.
  destruct (try_drifts _ _ _ _ _ _) as [used ok]. cbn [fst snd usedTotp set_usedTotp] in *.
  destruct (period_of _ _ _ _); [apply Ht; auto|by injection Ht as -> _].
Qed.

Lemma collect_keeps_spent now now' s hp : now <= now' → spent now s hp → spent now' (totp_gc now' s) hp.
Proof.
  intros Hn [Hs|Hs]; [|right; lia]. destruct hp as [h p]. cbn [fst snd] in *.
  destruct (Z_lt_le_dec p (now' / 30000 - 1)); [right; done|]. left. cbn [totp_gc usedTotp set_usedTotp fst snd].
  destruct (usedTotp s !! h) as [ps|] eqn:E; [|set_solver]. cbn in Hs.
  assert (Hf : p ∈ filter (λ p, now' / 30000 - 4 <= p) ps) by (apply elem_of_filter; split; [lia|done]).
  rewrite (proj2 (map_lookup_filter_Some _ _ h (filter (λ p, now' / 30000 - 4 <= p) ps))); [exact Hf|].
  split; [by rewrite lookup_fmap, E|]. cbn. set_solver.
Qed.

Lemma accepted_fresh es s now old :
  StronglySorted Z.le (now :: map time_of es) → (∀ hp, hp ∈ old → spent now s hp) → NoDup old →
  NoDup (old ++ accepted es s).
Proof.
  revert s now old. induction es as [|e es IH]; intros s now old Hs Hold Hn; [by rewrite app_nil_r|].
  inversion Hs as [|? ? Hs' Hall]; subst. inversion Hall as [|? ? Hle Hall']; subst. destruct e as [t secret code|t]; cbn [accepted time_of] in *.
  - pose proof (λ hp Hp, verify_keeps_spent now t secret code s hp Hle (Hold hp Hp)) as Hkeep.
    pose proof (try_drifts_result [-30000; 0; 30000] t secret code (sha256_hex (utf8_encode secret)) (usedTotp s)) as Ht.
    unfold verifyTotpCode in *. destruct (is_otp_code code); [|by apply (IH s t)].
    destruct (try_drifts _ _ _ _ _ _) as [used ok]. cbn [fst snd] in *.
    destruct (period_of _ t secret code) as [p|] eqn:Ep.
    + destruct Ht as [-> Hu]. destruct (bool_decide _) eqn:Eb; [|by apply (IH _ t)].
      apply bool_decide_eq_true in Eb. rewrite cons_middle, app_assoc.
      apply (IH _ t); [done| |].
      * intros hp Hp. apply elem_of_app in Hp as [Hp|Hp]; [by apply Hkeep|]. apply list_elem_of_singleton in Hp as ->.
        left. cbn. apply Hu. by right.
      * apply NoDup_app. split_and!; [done| |apply NoDup_singleton]. intros hp Hp Hin. apply list_elem_of_singleton in Hin as ->.
        destruct (Hold _ Hp) as [Hx|Hx]; cbn in Hx; [done|]. apply period_of_range in Ep. lia.
    + injection Ht as -> ->. by apply (IH _ t).
  - apply (IH _ t); [done| |done]. intros hp Hp. apply (collect_keeps_spent now); auto.
Qed.
End server_totp.

(** ** Claims *)

Module AuthSpec.
Section claims.
Context {S : Type} {HS : StateStore S} {SH : ServerHash} {SP : ServerPassword} {TG : TotpGenerator} {JW : Jwe}
        {JC : JsCase} {SE : ServerEnv}.
Implicit Types s : Server S.

(** C2: A login opens a session only for the right password (or an unexpired
    recovery key) of a user on whom no second factor is enforced; with one enforced
    it answers with a partial token and opens no session; it calls the credentials
    invalid only when they are; every other answer leaves sessions and pending
    tokens as they were. *)
Theorem login_sound now rnd q s : login_post now q s (run (login now rnd q) s).2 (run (login now rnd q) s).1.
Proof. apply (wp_run _ (λ r s', login_post now q s r s')), wp_login. Qed.

(** C8: The second step opens a session only for a pending, unexpired partial token
    and only when the request holds what this step asks the user for ([asked]): when a
    one-time password is enforced and its secret stored, an unused code of one of the
    three periods around now; otherwise, when mail is enforced, the mailed code before it
    expires; otherwise nothing is asked, also when a one-time password is enforced and
    no secret is stored ([totp_without_secret_bypassed]). *)
Theorem finish_sound now rnd q s : finish_post now q s (run (login_finish now rnd q) s).2 (run (login_finish now rnd q) s).1.
Proof.
  apply (wp_run _ (λ r s', finish_post now q s r s')).
  eapply wp_mono; [apply finish_aux|intros r s' [Hp _]; exact Hp|intros r s' [Hp _]; exact Hp].
Qed.

(** Whatever the first attempt with a partial token answers, a second one with
    the same token is refused. *)
Theorem partial_token_single_use now now' rnd rnd' l l' token tc ec tc' ec' s :
  (run (login_finish now' rnd' (mkFinishReq l' (Some token) tc' ec'))
       (run (login_finish now rnd (mkFinishReq l (Some token) tc ec)) s).1).2 = RErr 401 "invalid_or_expired_mfa_token".
Proof.
  set (q := mkFinishReq l (Some token) tc ec). set (s1 := (run (login_finish now rnd q) s).1).
  assert (Hgone : tokens s1 !! token_hash token = None).
  { apply (wp_run (login_finish now rnd q) (λ r s', tokens s' !! token_hash token = None)).
    eapply wp_mono; [apply finish_aux|intros r s' [_ Hp]; by apply Hp|intros r s' [_ Hp]; by apply Hp]. }
  clearbody s1. clear -Hgone. unfold run, login_finish. cbn [fq_partialToken].
  unfold mbind, H_bind, consumeMfaToken, withMfaPendingLock, modify, mbind, H_bind. cbv beta iota.
  cbn [tokens set_tokens set_emailOtps]. unfold take_entry.
  assert (unexpired now' (tokens s1) !! token_hash token = None) as ->; [|done].
  apply map_lookup_filter_None_2. by left.
Qed.

(** A pending token that has not expired is handed out. *)
Lemma wp_consume now token uid e Q E s :
  tokens s !! token_hash token = Some (uid, e) → now <= e → (∀ m o, Q (Some uid) (set_tokens m (set_emailOtps o s))) →
  wp (consumeMfaToken now token) Q E s.
Proof.
  intros Ht He HQ. unfold consumeMfaToken, withMfaPendingLock. wp_step. wp_step. unfold wp, take_entry.
  cbn [tokens set_tokens set_emailOtps]. unfold unexpired.
  rewrite (proj2 (map_lookup_filter_Some _ (tokens s) (token_hash token) (uid, e))) by done.
  rewrite Z.gtb_ltb, (proj2 (Z.ltb_ge e now)) by done. apply (HQ _ _).
Qed.

(** C25: No code is accepted twice for its period: in every run of verifications and
    collections at non-decreasing times each secret and period are accepted at most
    once. *)
Theorem server_totp_no_replay now es s :
  StronglySorted Z.le (now :: map time_of es) → NoDup (accepted es s).
Proof. intros Hs. apply (accepted_fresh es s now []); [done|set_solver|constructor]. Qed.

(** A user with enforced TOTP but no stored secret, which PUT /api/vault/mfa
    leaves when it gets [enforce.totp] without [serverSecret], gets a session in the
    second step without any code. *)
Theorem totp_without_secret_bypassed now rnd l token uid e u s :
  uid ≠ [] → tokens s !! token_hash token = Some (uid, e) → now <= e → find_id uid s = Some u →
  u_mfaTotp u = true → u_mfaTotpSecret u = None → u_mfaEmail u = false →
  (store_get now (mfa_lock_key (u_id u)) (store s)).2 = None →
  (run (login_finish now rnd (mkFinishReq l (Some token) None None)) s).2
    = RSession (issueJwt now (rd_jti rnd) uid) (rd_csrf rnd) (u_cryptoSalt u).
Proof.
  intros Hne Ht He Hu Htotp Hsec Hmail Hlock.
  apply (wp_run _ (λ r _, r = RSession (issueJwt now (rd_jti rnd) uid) (rd_csrf rnd) (u_cryptoSalt u))).
  unfold login_finish. cbn [fq_partialToken]. wp_step. apply (wp_consume now token uid e); [done..|]. intros m o.
  destruct uid as [|c uid]; [done|]. wp_step. wp_step. change (find_id (c :: uid) (set_tokens m (set_emailOtps o s))) with (find_id (c :: uid) s).
  rewrite Hu. unfold isMfaLocked. do 3 wp_step. cbn [store set_store set_tokens set_emailOtps]. rewrite Hlock. do 2 wp_step. wp_step; [done|].
  unfold check_second_factor. wp_step. rewrite Htotp, Hsec, Hmail. wp_steps.
  unfold clearMfaFailure, open_session, recordSession. by wp_steps.
Qed.

(** A login never destroys the data of a user who is not the armed account it
    tries: the user, every resource and every share stay. *)
Theorem login_spares_others now rnd q s k :
  (∀ v, find_hash (hashEmail MASTER_KEY (lq_email q)) s = Some v → is_armed (Some v) = true → k ≠ u_id v) →
  let s' := (run (login now rnd q) s).1 in
  (k ∈ map u_id (users s) → k ∈ map u_id (users s')) ∧
  (∀ name, blobs s' !! (k, name) = blobs s !! (k, name)) ∧
  ∀ id, shareFiles s' !! (k, id) = shareFiles s !! (k, id).
Proof. intros Hk. by apply stable_login. Qed.

(** The state after a number of wrong passwords, and the reply to the last. *)
Fixpoint wrong (n : nat) (now : Z) (q : LoginReq) (uid cid : jsstr) s : Server S * result reply reply :=
  match n with
  | O => (s, Throw ROk)
  | 1%nat => failed_user now q true uid cid s
  | Datatypes.S n => failed_user now q true uid cid (wrong n now q uid cid s).1
  end.

Lemma wrong_step n now q uid cid s :
  (0 < n)%nat → wrong (Datatypes.S n) now q uid cid s = failed_user now q true uid cid (wrong n now q uid cid s).1.
Proof. by destruct n. Qed.

Lemma wrong_armed now q uid cid m s n :
  armed_at uid m 0 s → Z.of_nat n < clamp_attempts m → (0 < n)%nat →
  armed_at uid m (Z.of_nat n) (wrong n now q uid cid s).1 ∧ blobs (wrong n now q uid cid s).1 = blobs s.
Proof.
  intros Ha. induction n as [|n IH]; [lia|]. intros Hlt _. destruct n as [|n].
  - destruct (failed_user_counts now q uid cid m 0 s Ha) as (s' & E & Hk & _). cbn [wrong]. rewrite E. apply Hk. lia.
  - rewrite wrong_step by lia. destruct IH as [Ha' Hb]; [lia|lia|].
    destruct (failed_user_counts now q uid cid m _ _ Ha') as (s' & E & Hk & _). rewrite E. cbn [fst].
    replace (Z.of_nat (Datatypes.S (Datatypes.S n))) with (Z.of_nat (Datatypes.S n) + 1) by lia.
    destruct Hk as [Hk1 Hk2]; [lia|]. split; [done|]. by rewrite Hk2.
Qed.

(** From an armed account with no failure so far, each wrong password up to one
    before the limit answers how many are left and destroys nothing, and the one at
    the limit wipes: the user, its sessions and its resources are gone. *)
Theorem server_duress_countdown now q uid cid m s n :
  armed_at uid m 0 s → (0 < n)%nat →
  (Z.of_nat n < clamp_attempts m →
     (wrong n now q uid cid s).2 = Ok (RInvalid (Some (clamp_attempts m - Z.of_nat n)) false) ∧
     blobs (wrong n now q uid cid s).1 = blobs s) ∧
  (Z.of_nat n = clamp_attempts m → NoDup (map u_id (users (wrong (n - 1) now q uid cid s).1)) →
     let s' := (wrong n now q uid cid s).1 in
     (wrong n now q uid cid s).2 = Ok (RInvalid None true) ∧
     find_id uid s' = None ∧ sessions s' !! uid = None ∧ ∀ name, blobs s' !! (uid, name) = None).
Proof.
  intros Ha Hn. split; intros Hc.
  - split; [|by apply (wrong_armed now q uid cid m s n)]. destruct n as [|n]; [lia|].
    assert (Hp : ∃ s0, armed_at uid m (Z.of_nat n) s0 ∧ wrong (Datatypes.S n) now q uid cid s = failed_user now q true uid cid s0).
    { destruct n as [|n]; [by exists s|]. eexists. split; [apply (wrong_armed now q uid cid m s (Datatypes.S n)); [done|lia|lia]|].
      by apply wrong_step; lia. }
    destruct Hp as (s0 & Ha0 & ->). destruct (failed_user_counts now q uid cid m _ s0 Ha0) as (s' & E & _). rewrite E. cbn [snd].
    rewrite Z.geb_leb, (proj2 (Z.leb_gt _ _)) by lia. do 3 f_equal. lia.
  - intros Hnd s'. destruct n as [|n]; [lia|]. rewrite Nat.sub_1_r in Hnd. cbn [pred] in Hnd.
    assert (Hp : ∃ s0, armed_at uid m (Z.of_nat n) s0 ∧ NoDup (map u_id (users s0)) ∧
      wrong (Datatypes.S n) now q uid cid s = failed_user now q true uid cid s0).
    { destruct n as [|n]; [by exists s|]. eexists. split_and!; [apply (wrong_armed now q uid cid m s (Datatypes.S n)); [done|lia|lia]|exact Hnd|].
      by apply wrong_step; lia. }
    destruct Hp as (s0 & Ha0 & Hnd0 & E0). destruct (failed_user_counts now q uid cid m _ s0 Ha0) as (s1 & E & _ & Hw).
    unfold s'. rewrite E0, E. cbn [fst snd]. rewrite Z.geb_leb, (proj2 (Z.leb_le _ _)) by lia.
    split; [done|]. apply Hw; [lia|done].
Qed.
End claims.

Import Toy.

Lemma server_totp_no_replay_witness :
  NoDup (accepted [Verify now (js "s") (js "766666"); Verify (now + 5000) (js "s") (js "766666"); Collect (now + 60000)]
    (start (user true false (Some (js "s")) None))).
Proof. apply (server_totp_no_replay now). repeat constructor; cbn; unfold now; lia. Defined.

Lemma totp_without_secret_bypassed_witness :
  let s := (run (login now rnd (attempt "secret")) (start (user true false None None))).1 in
  (run (login_finish (now + 1000) rnd (mkFinishReq (attempt "") (Some (js "aabb")) None None)) s).2
    = RSession (issueJwt (now + 1000) (js "jti1") (js "u1")) (js "csrf") None.
Proof.
  intros s. refine (totp_without_secret_bypassed (now + 1000) rnd (attempt "") (js "aabb") (js "u1") (now + 300000)
    (log_fingerprint (attempt "secret") (deriveClientIdentity req None) now true (user true false None None)) s _ _ _ _ _ _ _ _);
    try (vm_compute; reflexivity); vm_compute; discriminate.
Defined.

Lemma login_spares_others_witness :
  let s' := (run (login now rnd (attempt "wrong")) (start (user false false None (Some 1)))).1 in
  (js "u2" ∈ map u_id (users (start (user false false None (Some 1)))) → js "u2" ∈ map u_id (users s')) ∧
  (∀ name, blobs s' !! (js "u2", name) = blobs (start (user false false None (Some 1))) !! (js "u2", name)) ∧
  ∀ id, shareFiles s' !! (js "u2", id) = shareFiles (start (user false false None (Some 1))) !! (js "u2", id).
Proof.
  apply (login_spares_others now rnd (attempt "wrong") (start (user false false None (Some 1))) (js "u2")).
  intros v Hv _. vm_compute in Hv. injection Hv as <-. vm_compute. discriminate.
Defined.

Lemma server_duress_countdown_witness :
  let s := start (user false false None (Some 3)) in
  let w n := wrong n now (attempt "wrong") (js "u1") (js "cid") s in
  (w 2%nat).2 = Ok (RInvalid (Some 1) false) ∧ (w 3%nat).2 = Ok (RInvalid None true) ∧ find_id (js "u1") (w 3%nat).1 = None.
Proof.
  intros s w.
  assert (Ha : armed_at (js "u1") 3 0 s) by (exists (user false false None (Some 3)); vm_compute; auto).
  destruct (server_duress_countdown now (attempt "wrong") (js "u1") (js "cid") 3 s 2 Ha ltac:(lia)) as [H2 _].
  destruct (server_duress_countdown now (attempt "wrong") (js "u1") (js "cid") 3 s 3 Ha ltac:(lia)) as [_ H3].
  destruct (H2 ltac:(vm_compute; reflexivity)) as [E2 _].
  destruct (H3 eq_refl ltac:(apply (bool_decide_unpack _); vm_compute; exact I)) as (E3 & Hf & _).
  exact (conj E2 (conj E3 Hf)).
Defined.
End AuthSpec.
