(* ===== verification/Kms.v ===== *)
(** * Key management of the server
    ([web/lib/kms/kmsProvider.js], [localDevKms.js], [selfHostKms.js], [vaultTransitKms.js])

    A provider wraps the data key of a user.  [Kms] is the interface of
    [kmsProvider.js] with its contract [KmsLaws]; the three providers are instances,
    the remote one over the answers of its service.  The key file of a self-hosted
    server is generated, checked and loaded as [selfHostKms.js] does. *)
From S2P Require Import Prelude JsRuntime JsText Json JsonSpec Base64 FileCrypto.

(** ** The interface *)

Class Kms := {
  wrapDek : bytes → bytes → option (bytes * jsstr);   (* nonce, key: the wrapped key and the key id *)
  unwrapDek : bytes → jsstr → option bytes;           (* [None]: the provider throws *)
}.

(** "wrap(dek) then unwrap(wrapped, keyId) returns a Buffer byte-equal to dek" *)
Class KmsLaws `{Kms} := {
  kms_roundtrip nonce dek w id :
    length nonce = 12%nat → length dek = 32%nat → Bytes dek → wrapDek nonce dek = Some (w, id) → unwrapDek w id = Some dek
}.

(** ** Buffers from text *)

(** [Buffer.from(s, 'base64')]: both alphabets, other characters skipped, up to the first [=]. *)
Definition buf_b64_value (c : Z) : option Z :=
  if c =? 45 then Some 62 else if c =? 95 then Some 63 else b64_value c.
Fixpoint until_eq (s : jsstr) : jsstr :=
  match s with c :: s' => if c =? 61 then [] else c :: until_eq s' | [] => [] end.
Definition buffer_from_base64 (s : jsstr) : bytes := decode_groups (omap buf_b64_value (until_eq s)).

(** [Buffer.from(s, 'hex')]: up to the first pair that is not hexadecimal. *)
Fixpoint buffer_from_hex (s : jsstr) : bytes :=
  match s with
  | a :: b :: s' => if is_hex a && is_hex b then (hex_value a * 16 + hex_value b) :: buffer_from_hex s' else []
  | _ => []
  end.

Lemma until_eq_app s n : 61 ∉ s → until_eq (s ++ replicate n 61) = s.
Proof.
  induction s as [|c s IH]; cbn; intros Hs; [by destruct n|]. apply not_elem_of_cons in Hs as [Hc Hs].
  destruct (Z.eqb_spec c 61); [congruence|]. by rewrite IH.
Qed.

Lemma omap_buf_b64 vs : Forall (λ v, 0 <= v < 64) vs → omap buf_b64_value (map b64_char vs) = vs.
Proof.
  induction 1 as [|v vs Hv _ IH]; [done|]. destruct (b64_char_ascii v Hv) as (_ & _ & H1 & H2).
  assert (E : buf_b64_value (b64_char v) = Some v).
  { unfold buf_b64_value. by rewrite (proj2 (Z.eqb_neq _ 45)), (proj2 (Z.eqb_neq _ 95)), b64_value_char. }
  change (omap buf_b64_value (map b64_char (v :: vs))) with
    (match buf_b64_value (b64_char v) with Some y => y :: omap buf_b64_value (map b64_char vs) | None => omap buf_b64_value (map b64_char vs) end).
  by rewrite E, IH.
Qed.

Lemma buffer_base64_roundtrip bs : Bytes bs → buffer_from_base64 (btoa bs) = bs.
Proof.
  intros Hb. unfold buffer_from_base64. rewrite btoa_split, until_eq_app by (by apply btoa_chars_no_eq).
  rewrite btoa_chars_vals, omap_buf_b64 by (by apply btoa_vals_range). by apply decode_groups_vals.
Qed.

(** ** The local providers *)

(** [iv || tag || ciphertext] under a key: the format of every blob of the server. *)
Definition seal `{NodeCrypto} (key iv p : bytes) : bytes := let '(ct, tag) := gcm_encrypt key iv p in iv ++ tag ++ ct.
Definition unseal `{NodeCrypto} (key blob : bytes) : option bytes :=
  gcm_decrypt key (take 12 blob) (drop 28 blob) (slice blob 12 28).

Lemma seal_layout `{NodeCryptoLaws} key iv p :
  length iv = 12%nat →
  take 12 (seal key iv p) = iv ∧ drop 28 (seal key iv p) = (gcm_encrypt key iv p).1 ∧
  slice (seal key iv p) 12 28 = (gcm_encrypt key iv p).2.
Proof.
  intros Hiv. unfold seal. pose proof (gcm_tag_length key iv p) as Ht. destruct (gcm_encrypt key iv p) as [ct tag].
  cbn [fst snd] in *. split_and!.
  - by rewrite take_app_length' by done.
  - rewrite app_assoc. apply drop_app_length'. rewrite length_app. lia.
  - unfold slice. rewrite (drop_app_length' iv) by (by rewrite Hiv). by rewrite take_app_length' by (by rewrite Ht).
Qed.

Lemma unseal_seal `{NodeCryptoLaws} key iv p : length iv = 12%nat → unseal key (seal key iv p) = Some p.
Proof. intros Hiv. unfold unseal. destruct (seal_layout key iv p Hiv) as (-> & -> & ->). apply gcm_roundtrip. Qed.

Section local.
Context `{NodeCrypto} (masterKey : bytes) (keyId : jsstr).

Definition aes_wrapDek (iv dek : bytes) : option (bytes * jsstr) := Some (seal masterKey iv dek, keyId).
Definition aes_unwrapDek (wrapped : bytes) (_ : jsstr) : option bytes := unseal masterKey wrapped.
End local.

(** The constructors throw unless the key has 32 bytes. *)
Definition LocalDevKmsProvider `{NodeCrypto} (masterKey : bytes) : option Kms :=
  if len masterKey =? 32 then
    Some {| wrapDek := aes_wrapDek masterKey (js "local-dev:v1"); unwrapDek := aes_unwrapDek masterKey |}
  else None.

Definition SelfHostKmsProvider `{NodeCrypto} (masterKey : bytes) : option Kms :=
  if len masterKey =? 32 then
    Some {| wrapDek := aes_wrapDek masterKey (js "selfhost:v1"); unwrapDek := aes_unwrapDek masterKey |}
  else None.

(** ** The remote provider *)

(** The transit service: base64 text to a ciphertext text and back; [None]: no answer,
    or one that is not 2xx. *)
Class TransitService := {
  transit_encrypt : bytes → jsstr → option jsstr;   (* the service's own nonce, [plaintext] *)
  transit_decrypt : jsstr → option jsstr;
}.

(** What it documents: its ciphertexts are printable ASCII, and it decrypts them. *)
Class TransitLaws `{TransitService} := {
  transit_ascii n p c : transit_encrypt n p = Some c → forallb is_ascii c = true;
  transit_roundtrip n p c : transit_encrypt n p = Some c → transit_decrypt c = Some p
}.

(** [ciphertext.split(':')[1] || 'v?'] *)
Definition key_version (ciphertext : jsstr) : jsstr :=
  match split_unit 58 ciphertext with _ :: (c :: v) :: _ => c :: v | _ => js "v?" end.

Definition transit_wrapDek `{TransitService} (keyName : jsstr) (nonce dek : bytes) : option (bytes * jsstr) :=
  c ← transit_encrypt nonce (btoa dek); Some (utf8_encode c, keyName ++ js ":" ++ key_version c).

Definition transit_unwrapDek `{TransitService} (wrapped : bytes) (_ : jsstr) : option bytes :=
  p ← transit_decrypt (buf_utf8 wrapped);
  let dek := buffer_from_base64 p in
  if len dek =? 32 then Some dek else None.

(** The constructor throws when one of the three settings is missing or empty. *)
Definition VaultTransitKmsProvider `{TransitService} (addr token keyName : option jsstr) : option Kms :=
  match addr, token, keyName with
  | Some (_ :: _), Some (_ :: _), Some (c :: k) =>
      Some {| wrapDek := transit_wrapDek (c :: k); unwrapDek := transit_unwrapDek |}
  | _, _, _ => None
  end.

Lemma aes_kms_laws `{NodeCryptoLaws} key id :
  @KmsLaws {| wrapDek := aes_wrapDek key id; unwrapDek := aes_unwrapDek key |}.
Proof.
  split. intros nonce dek w i Hn Hd Hb. cbn. unfold aes_wrapDek, aes_unwrapDek. intros [= <- <-]. by apply unseal_seal.
Qed.

Lemma local_kms_laws `{NodeCryptoLaws} key k : LocalDevKmsProvider key = Some k → @KmsLaws k.
Proof. unfold LocalDevKmsProvider. case_match; [|done]. intros [= <-]. apply aes_kms_laws. Qed.

Lemma selfhost_kms_laws `{NodeCryptoLaws} key k : SelfHostKmsProvider key = Some k → @KmsLaws k.
Proof. unfold SelfHostKmsProvider. case_match; [|done]. intros [= <-]. apply aes_kms_laws. Qed.

Lemma buf_utf8_ascii s : forallb is_ascii s = true → buf_utf8 (utf8_encode s) = s.
Proof.
  intros Hs. assert (Hw : well_formed s = true) by (rewrite <- (app_nil_r s); by rewrite well_formed_ascii).
  unfold buf_utf8, utf8_encode. rewrite utf8_run_scalars by (by apply to_scalars_scalar). by apply of_to_scalars.
Qed.

Lemma transit_kms_laws `{TransitLaws} addr token name k : VaultTransitKmsProvider addr token name = Some k → @KmsLaws k.
Proof.
  unfold VaultTransitKmsProvider. destruct addr as [[]|], token as [[]|], name as [[|c n]|]; try done. intros [= <-].
  split. intros nonce dek w i Hn Hd Hb. cbn. unfold transit_wrapDek, transit_unwrapDek.
  destruct (transit_encrypt nonce (btoa dek)) as [ct|] eqn:E; [|done]. cbn. intros [= <- <-].
  rewrite buf_utf8_ascii by (by eapply transit_ascii). rewrite (transit_roundtrip _ _ _ E). cbn.
  rewrite buffer_base64_roundtrip by done. unfold len. by rewrite Hd.
Qed.

(** ** The key file of a self-hosted server *)

(** Owner, mode and contents of a file. *)
Record KeyFile := mkKeyFile { kf_mode : Z; kf_uid : Z; kf_bytes : bytes }.

(** [argon2.hash] with [SELF_HOST_KDF_OPTS] on the UTF-8 passphrase and a salt: 32 raw bytes. *)
Class SelfHostKdf := { selfhost_kdf : bytes → bytes → bytes }.

Section keyfile.
Context `{NodeCrypto} `{SelfHostKdf}.

(** [salt(16) || iv(12) || tag(16) || ciphertext(32)] *)
Definition _wrapMasterKeyWithPassphrase (salt iv masterKey : bytes) (passphrase : jsstr) : bytes :=
  let kek := selfhost_kdf (utf8_encode passphrase) salt in
  let '(ct, tag) := gcm_encrypt kek iv masterKey in
  salt ++ iv ++ tag ++ ct.

Definition _unwrapMasterKeyWithPassphrase (raw : bytes) (passphrase : jsstr) : option bytes :=
  if negb (len raw =? 76) then None
  else
    let kek := selfhost_kdf (utf8_encode passphrase) (slice raw 0 16) in
    gcm_decrypt kek (slice raw 16 28) (slice raw 44 76) (slice raw 28 44).

(** A passphrase that is absent or empty counts as none.  [chmodSync] sets the mode
    to octal 600 of a regular file; the test below is on the bits of octal 077. *)
Definition has_passphrase (p : option jsstr) : option jsstr := match p with Some (c :: s) => Some (c :: s) | _ => None end.

Definition generateSelfHostMasterKeyFile (uid : Z) (salt iv masterKey : bytes) (passphrase : option jsstr) : KeyFile :=
  mkKeyFile 0x8180 uid
    (match has_passphrase passphrase with
     | Some p => _wrapMasterKeyWithPassphrase salt iv masterKey p
     | None => masterKey
     end).

(** [getuid]: absent on platforms without users.  [None]: an error. *)
Definition loadSelfHostMasterKey (getuid : option Z) (passphrase : option jsstr) (file : option KeyFile) : option bytes :=
  st ← file;
  if negb (Z.land (kf_mode st) 0x3F =? 0) then None
  else if match getuid with Some uid => negb (kf_uid st =? uid) | None => false end then None
  else match has_passphrase passphrase with
  | None => if negb (len (kf_bytes st) =? 32) then None else Some (kf_bytes st)
  | Some p => _unwrapMasterKeyWithPassphrase (kf_bytes st) p
  end.

Definition createSelfHostKmsProvider (getuid : option Z) (passphrase : option jsstr) (file : option KeyFile) : option Kms :=
  masterKey ← loadSelfHostMasterKey getuid passphrase file; SelfHostKmsProvider masterKey.

(** ** The choice of the provider *)

(** The settings [createKmsProvider] reads. *)
Record KmsEnv := mkKmsEnv {
  KMS_PROVIDER : option jsstr; VAULT_ADDR : option jsstr; VAULT_TOKEN : option jsstr; VAULT_TRANSIT_KEY : option jsstr;
  LOCAL_KMS_KEY : option jsstr; SELF_HOST_KMS_KEY_PATH : option jsstr; SELF_HOST_KMS_PASSPHRASE : option jsstr }.

Definition or_else (o : option jsstr) (d : jsstr) : jsstr := default d (has_passphrase o).

Definition createKmsProvider `{TransitService} `{JsCase} (provider : option jsstr) (env : KmsEnv)
    (getuid : option Z) (files : jsstr → option KeyFile) : option Kms :=
  let kind := toLowerCase (or_else provider (or_else (KMS_PROVIDER env) (js "local"))) in
  if str_eqb kind (js "vault") then
    VaultTransitKmsProvider (VAULT_ADDR env) (VAULT_TOKEN env) (Some (or_else (VAULT_TRANSIT_KEY env) (js "pwdnow-dek")))
  else if str_eqb kind (js "local") then
    match has_passphrase (LOCAL_KMS_KEY env) with
    | Some hex => if negb (len (buffer_from_hex hex) =? 32) then None else LocalDevKmsProvider (buffer_from_hex hex)
    | None => None
    end
  else if str_eqb kind (js "selfhost") then
    match has_passphrase (SELF_HOST_KMS_KEY_PATH env) with
    | Some path => createSelfHostKmsProvider getuid (has_passphrase (SELF_HOST_KMS_PASSPHRASE env)) (files path)
    | None => None
    end
  else None.
End keyfile.

(** ** Theorems *)

Section laws.
Context `{NodeCryptoLaws} `{SelfHostKdf}.

(** Lengths AES-GCM keeps. *)
Definition gcm_keeps_length : Prop := ∀ k iv p, length (gcm_encrypt k iv p).1 = length p.

Lemma wrap_layout salt iv key p :
  gcm_keeps_length → length salt = 16%nat → length iv = 12%nat → length key = 32%nat →
  let f := _wrapMasterKeyWithPassphrase salt iv key p in
  let r := gcm_encrypt (selfhost_kdf (utf8_encode p) salt) iv key in
  len f = 76 ∧ slice f 0 16 = salt ∧ slice f 16 28 = iv ∧ slice f 28 44 = r.2 ∧ slice f 44 76 = r.1.
Proof.
  intros Hl Hs Hi Hk f r. subst f. unfold _wrapMasterKeyWithPassphrase.
  pose proof (gcm_tag_length (selfhost_kdf (utf8_encode p) salt) iv key) as Ht.
  pose proof (Hl (selfhost_kdf (utf8_encode p) salt) iv key) as Hc. fold r in Ht, Hc |- *. destruct r as [ct tag].
  cbn [fst snd] in *. unfold slice. assert (length ct = 32%nat) as Hct by lia.
  split_and!.
  - unfold len. rewrite !length_app. lia.
  - cbn [drop]. apply take_app_length'. lia.
  - rewrite (drop_app_length' salt) by lia. apply take_app_length'. lia.
  - rewrite (app_assoc salt), (drop_app_length' (salt ++ iv)) by (rewrite length_app; lia). apply take_app_length'. lia.
  - rewrite (app_assoc salt), (app_assoc _ tag), (drop_app_length' ((salt ++ iv) ++ tag)) by (rewrite !length_app; lia).
    apply take_ge. lia.
Qed.

(** The key file the server generates is the one it loads: with the passphrase it was
    generated with, or without one; any other file mode that lets group or others read
    it, or another owner, is refused. *)
Theorem key_file_roundtrip uid salt iv key passphrase :
  gcm_keeps_length → length salt = 16%nat → length iv = 12%nat → length key = 32%nat →
  let f := generateSelfHostMasterKeyFile uid salt iv key passphrase in
  loadSelfHostMasterKey (Some uid) passphrase (Some f) = Some key ∧
  (∀ uid', uid' ≠ uid → loadSelfHostMasterKey (Some uid') passphrase (Some f) = None) ∧
  (∀ mode, Z.land mode 0x3F ≠ 0 → loadSelfHostMasterKey (Some uid) passphrase (Some (mkKeyFile mode uid (kf_bytes f))) = None).
Proof.
  intros Hl Hs Hi Hk f. subst f. unfold generateSelfHostMasterKeyFile, loadSelfHostMasterKey. cbn [mbind option_bind kf_mode kf_uid kf_bytes].
  change (Z.land 0x8180 0x3F =? 0) with true. cbn [negb]. rewrite Z.eqb_refl. cbn [negb]. split_and!.
  - destruct (has_passphrase passphrase) as [p|] eqn:E.
    + unfold _unwrapMasterKeyWithPassphrase. destruct (wrap_layout salt iv key p Hl Hs Hi Hk) as (-> & -> & -> & -> & ->).
      change (76 =? 76) with true. cbn [negb]. apply gcm_roundtrip.
    + unfold len. rewrite Hk. done.
  - intros uid' Hu. by rewrite (proj2 (Z.eqb_neq uid uid')).
  - intros mode Hm. by rewrite (proj2 (Z.eqb_neq (Z.land mode 0x3F) 0)).
Qed.
End laws.

(** Every provider the settings select meets the contract of the interface. *)
Theorem every_provider_unwraps `{NodeCryptoLaws} `{SelfHostKdf} `{TransitLaws} `{JsCase} provider env getuid files k :
  createKmsProvider provider env getuid files = Some k → @KmsLaws k.
Proof.
  unfold createKmsProvider, createSelfHostKmsProvider. repeat case_match; try done.
  - by apply transit_kms_laws.
  - by apply local_kms_laws.
  - destruct (loadSelfHostMasterKey _ _ _); [|done]. by apply selfhost_kms_laws.
Qed.
