(* ===== verification/PgRepository.v ===== *)
(** * The repository over PostgreSQL, and the one that writes to two back ends
    ([web/lib/envelope.js], [web/lib/postgresVaultRepository.js], [web/lib/db/pool.js],
    [web/lib/dualWriteVaultRepository.js], [web/migrations/1718000000000_init-saas-schema.js])

    [Pg] is the two tables with their constraints, and the cache of data keys in the
    memory of the server.  An operation is a state transformer that may throw; a
    transaction that throws puts the tables back and leaves the cache. *)
From S2P Require Import Prelude JsRuntime JsText Json JsObject Base64 FileCrypto Kms.

(** ** Users *)

(** A user object: the promoted fields with their types and the other properties in
    enumeration order.  [None]: no such property; [Some None]: [null]. *)
Record User := mkUser {
  u_id : jsstr; u_emailHash : jsstr; u_passwordHash : jsstr;
  u_wrappedDek : option bytes; u_kmsKeyId : option jsstr; u_wrapMode : option jsstr;
  u_pwWrapSalt : option (option bytes); u_cryptoSalt : option (option jsstr);
  u_status : option jsstr; u_createdAt : option Z;
  u_flex : list (jsstr * json) }.

Definition PROMOTED : list jsstr :=
  map js ["id"; "emailHash"; "passwordHash"; "wrappedDek"; "kmsKeyId"; "wrapMode"; "pwWrapSalt"; "cryptoSalt"; "status"; "createdAt"]%string.

Definition SENSITIVE_META_KEYS : list jsstr :=
  map js ["mfaTotpSecret"; "recoveryKeyHash"; "recoveryKeySalt"; "duressEnforce"]%string.

Definition mem (k : jsstr) (l : list jsstr) : bool := existsb (str_eqb k) l.

(** ** Tables *)

Record Row := mkRow {
  email_hmac : jsstr; password_hash : jsstr; wrapped_dek : bytes; kms_key_id : jsstr; wrap_mode : jsstr;
  pw_wrap_salt : option bytes; crypto_salt : option jsstr; status : jsstr; meta : json; created_at : Z }.

Record Item := mkItem { ciphertext : bytes; version : Z; updated_at : Z }.

Record Pg := mkPg { users : gmap jsstr Row; vault_items : gmap (jsstr * jsstr) Item; dek_cache : gmap jsstr bytes }.

Definition set_users (s : Pg) (u : gmap jsstr Row) : Pg := mkPg u (vault_items s) (dek_cache s).
Definition set_items (s : Pg) (i : gmap (jsstr * jsstr) Item) : Pg := mkPg (users s) i (dek_cache s).
Definition set_cache (s : Pg) (c : gmap jsstr bytes) : Pg := mkPg (users s) (vault_items s) c.

Inductive PgErr :=
| UserExists | UserNotFound | NotNullViolation | IntegerOutOfRange | BadJsonb | KmsError | DecryptError | CallbackError (e : jsstr).

(** What a [jsonb] column gives back for a JSON value; [None]: it refuses the value. *)
Class Jsonb := { jsonb : json → option json }.

(** ** State transformers *)

Definition P (A : Type) : Type := Pg → Pg * result PgErr A.
#[export] Instance P_ret : MRet P := λ A a s, (s, Ok a).
#[export] Instance P_bind : MBind P := λ A B f m s,
  match m s with (s, Ok a) => f a s | (s, Throw e) => (s, Throw e) end.
Definition throw {A} (e : PgErr) : P A := λ s, (s, Throw e).
Definition get : P Pg := λ s, (s, Ok s).
Definition modify (f : Pg → Pg) : P unit := λ s, (f s, Ok tt).

(** [withTx]: a throw rolls the tables back. *)
Definition withTx {A} (fn : P A) : P A := λ s,
  match fn s with
  | (s', Ok a) => (s', Ok a)
  | (s', Throw e) => (mkPg (users s) (vault_items s) (dek_cache s'), Throw e)
  end.

(** What an operation takes from outside: the clock of the database, random bytes (the
    data key and nonce for a new user, the [iv] of the encryption for a user) and whether
    the key management answers. *)
Record Env := mkEnv { e_now : Z; e_dek : bytes; e_nonce : bytes; e_iv : jsstr → bytes; e_kms : bool }.

Section pg.
Context `{NodeCrypto} `{JsFloat} `{Kms} `{Jsonb}.

(** ** The envelope *)

(** [newUserDek]: [None] when the key management throws. *)
Definition newUserDek (e : Env) : option (bytes * jsstr) := if e_kms e then wrapDek (e_nonce e) (e_dek e) else None.

Definition _dek (e : Env) (u : User) : P bytes := λ s,
  match dek_cache s !! u_id u with
  | Some dek => (s, Ok dek)
  | None =>
      match (if e_kms e then w ← u_wrappedDek u; k ← u_kmsKeyId u; unwrapDek w k else None) with
      | Some dek => (set_cache s (<[u_id u := dek]> (dek_cache s)), Ok dek)
      | None => (s, Throw KmsError)
      end
  end.

(** The timer of a cache entry. *)
Definition evict (id : jsstr) (s : Pg) : Pg := set_cache s (delete id (dek_cache s)).

Definition encryptResource (e : Env) (u : User) (value : json) : P bytes :=
  dek ← _dek e u;
  mret (seal dek (e_iv e (u_id u)) (utf8_encode (stringify value))).

Definition decryptResource (e : Env) (u : User) (blob : bytes) : P json :=
  dek ← _dek e u;
  match pt ← unseal dek blob; parse (buf_utf8 pt) with Some v => mret v | None => throw DecryptError end.

(** ** Rows and users *)

Definition members (v : json) : list (jsstr * json) := match v with JObj l => l | _ => [] end.

Definition without_promoted (l : list (jsstr * json)) : list (jsstr * json) := List.filter (λ kv, negb (mem kv.1 PROMOTED)) l.

(** The promoted fields of a row. *)
Definition base (id : jsstr) (r : Row) (flex : list (jsstr * json)) : User :=
  mkUser id (email_hmac r) (password_hash r) (Some (wrapped_dek r)) (Some (kms_key_id r)) (Some (wrap_mode r))
    (Some (pw_wrap_salt r)) (Some (crypto_salt r)) (Some (status r)) (Some (created_at r)) flex.

Definition SEALED : jsstr := js "_sealed".

(** [_sealed] when it is truthy; [Buffer.from] of what is not a text throws or gives no blob. *)
Definition sealed_blob (m : list (jsstr * json)) : option (option bytes) :=
  match lookup_key SEALED m with
  | Some (JStr (c :: s)) => Some (Some (buffer_from_base64 (c :: s)))
  | o => if truthy o then Some None else None
  end.

Definition rowToUser (e : Env) (id : jsstr) (r : Row) : P User :=
  let m := members (meta r) in
  let restMeta := List.filter (λ kv, negb (str_eqb kv.1 SEALED)) m in
  sealed ← match sealed_blob m with
           | None => mret []
           | Some None => throw DecryptError
           | Some (Some blob) => v ← decryptResource e (base id r []) blob; mret (members v)
           end;
  mret (base id r (without_promoted (spread restMeta sealed))).

(** The two objects [userToMeta] fills. *)
Definition open_fields (u : User) : list (jsstr * json) :=
  build (List.filter (λ kv, negb (mem kv.1 PROMOTED) && negb (mem kv.1 SENSITIVE_META_KEYS)) (u_flex u)).
Definition sealed_fields (u : User) : list (jsstr * json) :=
  build (List.filter (λ kv, negb (mem kv.1 PROMOTED) && mem kv.1 SENSITIVE_META_KEYS) (u_flex u)).

Definition userToMeta (e : Env) (u : User) : P (list (jsstr * json)) :=
  match sealed_fields u with
  | [] => mret (open_fields u)
  | sealed => blob ← encryptResource e u (JObj sealed); mret (put SEALED (JStr (btoa blob)) (open_fields u))
  end.

(** [JSON.stringify(meta)] stored in the column. *)
Definition to_jsonb (m : list (jsstr * json)) : P json :=
  match jsonb (JObj m) with Some v => mret v | None => throw BadJsonb end.

(** ** Operations on users *)

Definition findUserById (e : Env) (id : jsstr) : P (option User) :=
  s ← get;
  match users s !! id with
  | Some r => u ← rowToUser e id r; mret (Some u)
  | None => mret None
  end.

(** The column is unique, so a scan in any order finds the row. *)
Definition row_by_email (emailHash : jsstr) (t : gmap jsstr Row) : option (jsstr * Row) :=
  List.find (λ kv, str_eqb emailHash (email_hmac kv.2)) (map_to_list t).

Definition findUserByEmailHash (e : Env) (emailHash : jsstr) : P (option User) :=
  s ← get;
  match row_by_email emailHash (users s) with
  | Some (id, r) => u ← rowToUser e id r; mret (Some u)
  | None => mret None
  end.

(** The user with the key of the new row. *)
Definition with_dek (u : User) (w : bytes) (k : jsstr) : User :=
  mkUser (u_id u) (u_emailHash u) (u_passwordHash u) (Some w) (Some k) (u_wrapMode u) (u_pwWrapSalt u) (u_cryptoSalt u)
    (u_status u) (u_createdAt u) (u_flex u).

(** Primary key and unique index. *)
Definition conflicts (u : User) (t : gmap jsstr Row) : bool :=
  bool_decide (is_Some (t !! u_id u)) || bool_decide (is_Some (row_by_email (u_emailHash u) t)).

Definition insertUser (e : Env) (u : User) : P jsstr :=
  match newUserDek e with
  | None => throw KmsError
  | Some (w, k) =>
      m ← userToMeta e (with_dek u w k);
      m ← to_jsonb m;
      s ← get;
      if conflicts u (users s) then throw UserExists
      else
        _ ← modify (λ s, set_users s (<[u_id u :=
              mkRow (u_emailHash u) (u_passwordHash u) w k (js "kms") None (default None (u_cryptoSalt u)) (js "active") m (e_now e)]>
              (users s)));
        mret (u_id u)
  end.

(** How a callback on a user ends. *)
Inductive upd := Changed (u : User) | Unchanged | Threw (e : jsstr).

(** [UPDATE users SET ... WHERE id=$1] *)
Definition update_row (e : Env) (id : jsstr) (u : User) : P unit :=
  m ← userToMeta e u;
  m ← to_jsonb m;
  match u_wrapMode u with
  | None => throw NotNullViolation
  | Some wm =>
      modify (λ s, set_users s (alter (λ r,
        mkRow (email_hmac r) (u_passwordHash u) (wrapped_dek r) (kms_key_id r) wm (default None (u_pwWrapSalt u))
          (default None (u_cryptoSalt u)) (default (js "active") (u_status u)) m (created_at r)) id (users s)))
  end.

(** [None]: no row; [Some false]: not written. *)
Definition updateUserById (e : Env) (id : jsstr) (fn : User → upd) : P (option bool) :=
  withTx (
    s ← get;
    match users s !! id with
    | None => mret None
    | Some r =>
        u ← rowToUser e id r;
        match fn u with
        | Unchanged => mret (Some false)
        | Threw err => throw (CallbackError err)
        | Changed u' => _ ← update_row e id u'; mret (Some true)
        end
    end).

(** [ON DELETE CASCADE] *)
Definition delete_row (id : jsstr) (s : Pg) : Pg :=
  mkPg (delete id (users s)) (filter (λ kv, kv.1.1 ≠ id) (vault_items s)) (dek_cache s).

Definition deleteUserById (id : jsstr) : P unit := modify (delete_row id).

Fixpoint all_users (e : Env) (rows : list (jsstr * Row)) : P (list User) :=
  match rows with
  | [] => mret []
  | (id, r) :: rows => u ← rowToUser e id r; us ← all_users e rows; mret (u :: us)
  end.

#[export] Instance User_eq_dec : EqDecision User.
Proof. solve_decision. Defined.

(** [before.get(u.id) !== JSON.stringify(u)] *)
Definition is_same (before : list User) (u : User) : bool :=
  match List.find (λ b, str_eqb (u_id b) (u_id u)) (reverse before) with Some b => bool_decide (b = u) | None => false end.

Fixpoint write_changed (e : Env) (before : list User) (us : list User) : P unit :=
  match us with
  | [] => mret tt
  | u :: us => _ ← (if is_same before u then mret tt else update_row e (u_id u) u); write_changed e before us
  end.

(** The callback gives the changed list, or [None] for [false]. *)
Definition withUserTransaction (e : Env) (fn : list User → option (list User)) : P bool :=
  withTx (
    s ← get;
    us ← all_users e (map_to_list (users s));
    match fn us with
    | None => mret false
    | Some us' => _ ← write_changed e us us'; mret true
    end).

(** ** Resources *)

Definition getResource (e : Env) (uid name : jsstr) : P json :=
  o ← findUserById e uid;
  match o with
  | None => mret JNull
  | Some u =>
      s ← get;
      match vault_items s !! (uid, name) with
      | None => mret JNull
      | Some i => decryptResource e u (ciphertext i)
      end
  end.

Definition MAX_INT4 : Z := 2 ^ 31 - 1.

Definition setResource (e : Env) (uid name : jsstr) (value : json) : P unit :=
  o ← findUserById e uid;
  match o with
  | None => throw UserNotFound
  | Some u =>
      blob ← encryptResource e u value;
      s ← get;
      match vault_items s !! (uid, name) with
      | None => modify (λ s, set_items s (<[(uid, name) := mkItem blob 1 (e_now e)]> (vault_items s)))
      | Some i =>
          if MAX_INT4 <? version i + 1 then throw IntegerOutOfRange
          else modify (λ s, set_items s (<[(uid, name) := mkItem blob (version i + 1) (e_now e)]> (vault_items s)))
      end
  end.

Definition deleteResource (uid name : jsstr) : P unit := modify (λ s, set_items s (delete (uid, name) (vault_items s))).

Definition deleteUserData (uid : jsstr) : P unit := modify (delete_row uid).

(** [?? []] *)
Definition loadSessions (e : Env) (uid : jsstr) : P json :=
  v ← getResource e uid (js "sessions"); mret (match v with JNull => JArr [] | v => v end).
Definition saveSessions (e : Env) (uid : jsstr) (l : json) : P unit := setResource e uid (js "sessions") l.
End pg.
