(* ===== verification/PgRepositorySpec.v ===== *)
(** * Theorems on the PostgreSQL repository

    The repository implements a map of users and a map of resources: the relation
    [rel] ties rows, sealed fields, blobs and cached keys to them, every operation
    keeps it and answers what the maps give, or says that the key management is down. *)
From S2P Require Import Prelude JsRuntime JsText Json JsonSpec JsObject Base64 FileCrypto Kms PgRepository.

(** ** What the libraries promise *)

(** No text of a value holds a NUL or an unpaired surrogate, which [jsonb] refuses. *)
Definition plain_text (s : jsstr) : bool := well_formed s && forallb (λ c, negb (c =? 0)) s.
Fixpoint plain (v : json) : bool :=
  match v with
  | JNull | JBool _ | JNum _ => true
  | JStr s => plain_text s
  | JArr l => forallb plain l
  | JObj l => forallb (λ kv, plain_text kv.1 && plain kv.2) l
  end.

(** A [jsonb] column takes plain values and gives them back up to the order of properties. *)
Class JsonbLaws `{JsFloat} `{Jsonb} := {
  jsonb_total v : json_ok v = true → plain v = true → is_Some (jsonb v);
  jsonb_equiv v w : json_ok v = true → plain v = true → jsonb v = Some w → w ≡ v ∧ json_ok w = true ∧ plain w = true
}.

(** AES-GCM of bytes gives bytes. *)
Class NodeBytes `{NodeCrypto} := {
  gcm_bytes k iv p : Bytes k → Bytes iv → Bytes p → Bytes (gcm_encrypt k iv p).1 ∧ Bytes (gcm_encrypt k iv p).2
}.

(** ** Well-formed users *)

Section wf.
Context `{JsFloat}.

Definition val_ok (v : json) : bool := json_ok v && plain v.

(** Names that are not promoted, not [_sealed] and no array index. *)
Definition name_ok (k : jsstr) : bool :=
  text_ok k && plain_text k && negb (mem k PROMOTED) && negb (str_eqb k SEALED) && bool_decide (index_of_key k = None).

Definition props_ok (l : list (jsstr * json)) : Prop :=
  NoDup (map fst l) ∧ Forall (λ kv, name_ok kv.1 = true ∧ val_ok kv.2 = true) l.

Definition user_ok (u : User) : Prop := props_ok (u_flex u).
End wf.

#[export] Instance user_equiv : Equiv User := λ a b,
  u_id a = u_id b ∧ u_emailHash a = u_emailHash b ∧ u_passwordHash a = u_passwordHash b ∧
  u_wrappedDek a = u_wrappedDek b ∧ u_kmsKeyId a = u_kmsKeyId b ∧ u_wrapMode a = u_wrapMode b ∧
  u_pwWrapSalt a = u_pwWrapSalt b ∧ u_cryptoSalt a = u_cryptoSalt b ∧ u_status a = u_status b ∧
  u_createdAt a = u_createdAt b ∧ u_flex a ≡ u_flex b.

#[export] Instance user_equivalence : Equivalence (≡@{User}).
Proof.
  split.
  - intros a. by repeat split.
  - intros a b (? & ? & ? & ? & ? & ? & ? & ? & ? & ? & ?). by repeat split.
  - intros a b c (? & ? & ? & ? & ? & ? & ? & ? & ? & ? & Hab) (? & ? & ? & ? & ? & ? & ? & ? & ? & ? & Hbc).
    repeat split; try congruence. by rewrite Hab.
Qed.

#[export] Instance upd_equiv : Equiv upd := λ a b,
  match a, b with
  | Changed u, Changed v => u ≡ v
  | Unchanged, Unchanged => True
  | Threw e, Threw f => e = f
  | _, _ => False
  end.

(** ** The abstract repository *)

Record Repo := mkRepo { a_users : gmap jsstr User; a_res : gmap (jsstr * jsstr) json }.

Definition empty_repo : Repo := mkRepo ∅ ∅.

Inductive op :=
| FindId (id : jsstr) | FindEmail (h : jsstr) | Insert (u : User) | Update (id : jsstr) (fn : User → upd) | DeleteUser (id : jsstr)
| GetRes (uid name : jsstr) | SetRes (uid name : jsstr) (v : json) | DeleteRes (uid name : jsstr) | DeleteData (uid : jsstr)
| Evict (id : jsstr).

Inductive answer :=
| AUser (o : option User) | AId (id : jsstr) | AWritten (o : option bool) | AValue (v : json) | ADone | AErr (e : PgErr).

#[export] Instance answer_equiv : Equiv answer := λ a b,
  match a, b with
  | AUser u, AUser v => u ≡ v
  | AValue v, AValue w => v ≡ w
  | AId _, AId _ | AWritten _, AWritten _ | ADone, ADone | AErr _, AErr _ => a = b
  | _, _ => False
  end.

Section abstract.
Context `{Kms}.

(** The user a new row stands for. *)
Definition stored (e : Env) (u : User) (w : bytes) (k : jsstr) : User :=
  mkUser (u_id u) (u_emailHash u) (u_passwordHash u) (Some w) (Some k) (Some (js "kms")) (Some None)
    (Some (default None (u_cryptoSalt u))) (Some (js "active")) (Some (e_now e)) (u_flex u).

(** What an update keeps of the old user [u] and takes of the new one. *)
Definition rewritten (u u' : User) (wm : jsstr) : User :=
  mkUser (u_id u) (u_emailHash u) (u_passwordHash u') (u_wrappedDek u) (u_kmsKeyId u) (Some wm)
    (Some (default None (u_pwWrapSalt u'))) (Some (default None (u_cryptoSalt u'))) (Some (default (js "active") (u_status u')))
    (u_createdAt u) (u_flex u').

Definition user_by_email (h : jsstr) (us : gmap jsstr User) : option (jsstr * User) :=
  List.find (λ kv, str_eqb h (u_emailHash kv.2)) (map_to_list us).

Definition drop_user (id : jsstr) (a : Repo) : Repo :=
  mkRepo (delete id (a_users a)) (filter (λ kv, kv.1.1 ≠ id) (a_res a)).

Definition repo_do (e : Env) (o : op) (a : Repo) : Repo * answer :=
  match o with
  | FindId id => (a, AUser (a_users a !! id))
  | FindEmail h => (a, AUser (snd <$> user_by_email h (a_users a)))
  | Insert u =>
      if bool_decide (is_Some (a_users a !! u_id u)) || bool_decide (is_Some (user_by_email (u_emailHash u) (a_users a)))
      then (a, AErr UserExists)
      else match wrapDek (e_nonce e) (e_dek e) with
           | Some (w, k) => (mkRepo (<[u_id u := stored e u w k]> (a_users a)) (a_res a), AId (u_id u))
           | None => (a, AErr KmsError)
           end
  | Update id fn =>
      match a_users a !! id with
      | None => (a, AWritten None)
      | Some u => match fn u with
                  | Unchanged => (a, AWritten (Some false))
                  | Threw err => (a, AErr (CallbackError err))
                  | Changed u' => match u_wrapMode u' with
                                  | None => (a, AErr NotNullViolation)
                                  | Some wm => (mkRepo (<[id := rewritten u u' wm]> (a_users a)) (a_res a), AWritten (Some true))
                                  end
                  end
      end
  | DeleteUser id | DeleteData id => (drop_user id a, ADone)
  | GetRes uid name => (a, AValue (default JNull (a_res a !! (uid, name))))
  | SetRes uid name v =>
      match a_users a !! uid with
      | None => (a, AErr UserNotFound)
      | Some _ => (mkRepo (a_users a) (<[(uid, name) := v]> (a_res a)), ADone)
      end
  | DeleteRes uid name => (mkRepo (a_users a) (delete (uid, name) (a_res a)), ADone)
  | Evict _ => (a, ADone)
  end.

(** One operation: it is done, or the key management does not answer and nothing changes. *)
Inductive repo_step (e : Env) (o : op) (a : Repo) : Repo → answer → Prop :=
| Served a' r : repo_do e o a = (a', r) → repo_step e o a a' r
| Unserved : e_kms e = false ∨ wrapDek (e_nonce e) (e_dek e) = None → repo_step e o a a (AErr KmsError).
End abstract.

(** ** Reading and writing rows *)

Section rows.
Context `{NodeCrypto} `{!NodeCryptoLaws} `{!NodeBytes} `{JsFloat} `{Kms} `{Jsonb} `{!JsonbLaws}.

Definition unsealed (dek blob : bytes) : option json := pt ← unseal dek blob; parse (buf_utf8 pt).

Lemma unsealed_seal dek iv v :
  length iv = 12%nat → json_ok v = true → unsealed dek (seal dek iv (utf8_encode (stringify v))) = Some v.
Proof.
  intros Hiv Hv. unfold unsealed. rewrite unseal_seal by done. cbn. rewrite buf_utf8_stringify by done. by apply parse_stringify.
Qed.

(** What the [meta] column of a row holds of the flexible fields [l]. *)
Definition meta_ok (dek : bytes) (v : json) (l : list (jsstr * json)) : Prop :=
  ∃ ml, v = JObj ml ∧ json_ok v = true ∧ plain v = true ∧
  (∀ k, k ≠ SEALED → lookup_key k ml ≡ if mem k SENSITIVE_META_KEYS then None else lookup_key k l) ∧
  match lookup_key SEALED ml with
  | None => ∀ k, mem k SENSITIVE_META_KEYS = true → lookup_key k l = None
  | Some v => ∃ blob sl, v = JStr (btoa blob) ∧ Bytes blob ∧ blob ≠ [] ∧ unsealed dek blob = Some (JObj sl) ∧ props_ok sl ∧
      ∀ k, lookup_key k sl ≡ if mem k SENSITIVE_META_KEYS then lookup_key k l else None
  end.

#[export] Instance meta_ok_proper dek v : Proper ((≡) ==> impl) (meta_ok dek v).
Proof.
  intros l l' Hl (ml & Hv & Hj & Hp & Ho & Hs). exists ml. split_and!; [done..| |].
  - intros k Hk. rewrite (Ho k Hk). destruct (mem k _); [done|]. apply Hl.
  - destruct (lookup_key SEALED ml) as [w|].
    + destruct Hs as (blob & sl & Hw & Hb & Hn & Hu & Hok & Hsl). exists blob, sl. split_and!; [done..|]. intros k.
      rewrite (Hsl k). destruct (mem k _); [|done]. apply Hl.
    + intros k Hk. assert (E := Hl k). rewrite (Hs k Hk) in E. by inv E.
Qed.

(** Storing in the column keeps it. *)
Lemma meta_ok_jsonb dek v w l : meta_ok dek v l → jsonb v = Some w → meta_ok dek w l.
Proof.
  intros (ml & -> & Hj & Hp & Ho & Hs) Hw. destruct (jsonb_equiv _ _ Hj Hp Hw) as (He & Hj' & Hp'). symmetry in He.
  apply obj_equiv_inv in He as (ml' & -> & Hm). exists ml'. split_and!; [done..| |].
  - intros k Hk. rewrite <- (Hm k). by apply Ho.
  - assert (E := Hm SEALED). destruct (lookup_key SEALED ml) as [x|], (lookup_key SEALED ml') as [y|]; try by inv E.
    destruct Hs as (blob & sl & -> & Hs). exists blob, sl. split; [|done]. inv E. by apply str_equiv_inv.
Qed.

(** ** Computations that only fill the cache *)

Definition cached (id : jsstr) (dek : bytes) (s : Pg) : Pg := set_cache s (<[id := dek]> (dek_cache s)).

Definition reads (e : Env) (id : jsstr) (dek : bytes) {A} (m : P A) (s : Pg) (Q : A → Prop) : Prop :=
  ∃ s', (s' = s ∨ s' = cached id dek s) ∧
  ((∃ a, m s = (s', Ok a) ∧ Q a) ∨ (m s = (s', Throw KmsError) ∧ e_kms e = false)).

Lemma cached_cached id dek s : cached id dek (cached id dek s) = cached id dek s.
Proof. unfold cached, set_cache. cbn. by rewrite insert_insert_eq. Qed.

Lemma reads_ret e id dek {A} (a : A) s (Q : A → Prop) : Q a → reads e id dek (mret a) s Q.
Proof. intros Hq. exists s. split; [by left|]. left. by exists a. Qed.

Lemma reads_bind e id dek {A B} (m : P A) (f : A → P B) s (Q : A → Prop) (R : B → Prop) :
  reads e id dek m s Q → (∀ s' a, s' = s ∨ s' = cached id dek s → Q a → reads e id dek (f a) s' R) → reads e id dek (m ≫= f) s R.
Proof.
  intros (s1 & Hs1 & [(a & Hm & Hq)|[Hm He]]) Hf.
  - destruct (Hf s1 a Hs1 Hq) as (s2 & Hs2 & Hr). exists s2. split.
    { destruct Hs1 as [->| ->], Hs2 as [->| ->]; rewrite ?cached_cached; auto. }
    unfold mbind, P_bind. rewrite Hm. exact Hr.
  - exists s1. split; [done|]. right. unfold mbind, P_bind. by rewrite Hm.
Qed.

Lemma reads_mono e id dek {A} (m : P A) s (Q R : A → Prop) :
  (∀ a, Q a → R a) → reads e id dek m s Q → reads e id dek m s R.
Proof. intros Hqr (s' & Hs & [(a & Hm & Hq)|Hm]); exists s'; (split; [done|]); eauto. Qed.

(** The key of [u] is [dek], also where it is cached. *)
Definition keyed (id : jsstr) (dek : bytes) (u : User) (s : Pg) : Prop :=
  (∀ d, dek_cache s !! id = Some d → d = dek) ∧ u_id u = id ∧
  (w ← u_wrappedDek u; k ← u_kmsKeyId u; unwrapDek w k) = Some dek.

Lemma keyed_cached id dek u s s' : keyed id dek u s → s' = s ∨ s' = cached id dek s → keyed id dek u s'.
Proof.
  intros (Hc & Hi & Hk) [->| ->]; split_and!; try done. cbn. intros d. rewrite lookup_insert_eq. by intros [= <-].
Qed.

Lemma dek_reads e id dek u s : keyed id dek u s → reads e id dek (_dek e u) s (λ d, d = dek).
Proof.
  intros (Hc & <- & Hk). unfold reads, _dek. destruct (dek_cache s !! u_id u) as [d|] eqn:E.
  - rewrite (Hc d eq_refl). exists s. split; [by left|]. left. by eexists.
  - destruct (e_kms e) eqn:Ee.
    + rewrite Hk. exists (cached (u_id u) dek s). split; [by right|]. left. by eexists.
    + exists s. split; [by left|]. by right.
Qed.

Definition env_ok (e : Env) : Prop :=
  length (e_nonce e) = 12%nat ∧ length (e_dek e) = 32%nat ∧ Bytes (e_dek e) ∧
  ∀ id, length (e_iv e id) = 12%nat ∧ Bytes (e_iv e id).

Lemma stringify_bytes v : json_ok v = true → Bytes (utf8_encode (stringify v)).
Proof.
  intros Hv. apply utf8_encode_bytes, well_formed_u16. rewrite <- (app_nil_r (stringify v)). by rewrite neutral_stringify.
Qed.

Lemma encrypt_reads e id dek u s v :
  env_ok e → keyed id dek u s → Bytes dek → json_ok v = true →
  reads e id dek (encryptResource e u v) s (λ b, Bytes b ∧ b ≠ [] ∧ unsealed dek b = Some v).
Proof.
  intros (_ & _ & _ & Hiv) Hk Hb Hv. unfold encryptResource. eapply reads_bind; [by apply dek_reads|].
  intros s' d _ ->. apply reads_ret. destruct (Hiv (u_id u)) as [Hl Hib]. split_and!.
  - unfold seal. destruct (gcm_bytes dek (e_iv e (u_id u)) (utf8_encode (stringify v)) Hb Hib (stringify_bytes v Hv)) as [H1' H2'].
    destruct (gcm_encrypt _ _ _). rewrite !Bytes_app. done.
  - unfold seal. destruct (gcm_encrypt _ _ _). by destruct (e_iv e (u_id u)).
  - by apply unsealed_seal.
Qed.

Lemma decrypt_reads e id dek u s b v :
  keyed id dek u s → unsealed dek b = Some v → reads e id dek (decryptResource e u b) s (λ v', v' = v).
Proof.
  intros Hk Hu. unfold decryptResource. eapply reads_bind; [by apply dek_reads|]. intros s' d _ ->.
  unfold unsealed in Hu. rewrite Hu. by apply reads_ret.
Qed.

(** ** Fields *)

Lemma keys_filter (p : jsstr → bool) (l : list (jsstr * json)) :
  NoDup (map fst l) → NoDup (map fst (List.filter (λ kv, p kv.1) l)).
Proof.
  induction l as [|[k v] l IH]; cbn; [done|]. intros [Hk Hn]%NoDup_cons. destruct (p k); cbn; [|by apply IH].
  constructor; [|by apply IH]. intros Hin. apply Hk. apply list_elem_of_fmap in Hin as ([k' v'] & -> & Hin).
  apply list_elem_of_fmap. exists (k', v'). split; [done|]. apply list_elem_of_In, filter_In in Hin as [Hin _].
  by apply list_elem_of_In.
Qed.

Lemma filter_Forall {A} (p : A → bool) (Q : A → Prop) l : Forall Q l → Forall Q (List.filter p l).
Proof. induction 1; cbn; [done|]. destruct (p x); by repeat constructor. Qed.

Lemma props_ok_filter (p : jsstr → bool) l : props_ok l → props_ok (List.filter (λ kv, p kv.1) l).
Proof. intros [Hn Hf]. split; [by apply keys_filter|by apply filter_Forall]. Qed.

Lemma name_ok_inv k : name_ok k = true →
  text_ok k = true ∧ plain_text k = true ∧ mem k PROMOTED = false ∧ k ≠ SEALED ∧ index_of_key k = None.
Proof.
  unfold name_ok. rewrite !andb_true_iff, !negb_true_iff, bool_decide_eq_true. intros ((((?&?)&?)&E)&?). split_and!; try done.
  intros ->. unfold str_eqb in E. by rewrite bool_decide_true in E.
Qed.

(** A fresh object with well-formed properties is their list. *)
Lemma props_ok_build l : props_ok l → build l = l.
Proof.
  intros [Hn Hf]. apply build_keys; [done|]. eapply Forall_impl; [exact Hf|]. cbn. intros kv [Hk _]. by destruct (name_ok_inv _ Hk) as (_ & _ & _ & _ & ?).
Qed.

Lemma props_ok_json l : props_ok l → json_ok (JObj l) = true ∧ plain (JObj l) = true.
Proof.
  intros Hl. assert (Hb := props_ok_build l Hl). destruct Hl as [Hn Hf]. cbn [json_ok plain]. rewrite bool_decide_true by done.
  cbn [andb]. clear Hb Hn. induction Hf as [|[k v] l [Hk Hv] _ [IH1 IH2]]; [done|]. cbn [forallb fst snd] in *.
  apply name_ok_inv in Hk as (-> & -> & _). unfold val_ok in Hv. apply andb_prop in Hv as [-> ->]. done.
Qed.

Lemma json_ok_props l : json_ok (JObj l) = true → plain (JObj l) = true →
  NoDup (map fst l) ∧ Forall (λ kv, val_ok kv.2 = true) l.
Proof.
  cbn [json_ok plain]. rewrite andb_true_iff, bool_decide_eq_true. intros [Hb Hj] Hp. split; [rewrite <- Hb; apply build_NoDup|].
  clear Hb. induction l as [|[k v] l IH]; [constructor|]. cbn in *. to_prop. constructor; [|by apply IH]. cbn. unfold val_ok.
  by rewrite andb_true_iff.
Qed.

Lemma plain_ascii s : forallb (λ c, (0 <? c) && is_ascii c) s = true → plain_text s = true.
Proof.
  intros Hs. unfold plain_text. rewrite andb_true_iff. split.
  - rewrite <- (app_nil_r s). rewrite well_formed_ascii; [done|]. rewrite forallb_forall in *. intros c Hc. specialize (Hs c Hc). by to_prop.
  - rewrite forallb_forall in *. intros c Hc. specialize (Hs c Hc). to_prop. rewrite (proj2 (Z.eqb_neq c 0)) by lia. done.
Qed.

Lemma btoa_ok bs : Bytes bs → text_ok (btoa bs) = true ∧ plain_text (btoa bs) = true.
Proof.
  intros Hb. assert (Hc : Forall (λ c, 43 <= c <= 122) (btoa bs)).
  { rewrite btoa_split, btoa_chars_vals. apply Forall_app. split.
    - apply btoa_vals_range in Hb. induction Hb as [|v vs Hv _ IH]; constructor; [|done]. by apply b64_char_ascii.
    - apply Forall_replicate. lia. }
  rewrite List.Forall_forall in Hc. split.
  - unfold text_ok. rewrite forallb_forall. intros c Hi. specialize (Hc c Hi). rewrite (proj2 (Z.leb_le 0 c)), (proj2 (Z.ltb_lt c 65536)) by lia. done.
  - apply plain_ascii. rewrite forallb_forall. intros c Hi. specialize (Hc c Hi). unfold is_ascii.
    rewrite (proj2 (Z.ltb_lt 0 c)) by lia. cbn. rewrite andb_true_iff, Z.leb_le, Z.ltb_lt. lia.
Qed.

Lemma open_fields_eq u : user_ok u → open_fields u = List.filter (λ kv, negb (mem kv.1 PROMOTED) && negb (mem kv.1 SENSITIVE_META_KEYS)) (u_flex u).
Proof. intros Hu. apply props_ok_build, (props_ok_filter (λ k, negb (mem k PROMOTED) && negb (mem k SENSITIVE_META_KEYS))), Hu. Qed.

Lemma sealed_fields_eq u : user_ok u → sealed_fields u = List.filter (λ kv, negb (mem kv.1 PROMOTED) && mem kv.1 SENSITIVE_META_KEYS) (u_flex u).
Proof. intros Hu. apply props_ok_build, (props_ok_filter (λ k, negb (mem k PROMOTED) && mem k SENSITIVE_META_KEYS)), Hu. Qed.

Lemma sensitive_not_promoted k : mem k SENSITIVE_META_KEYS = true → mem k PROMOTED = false.
Proof.
  unfold mem, SENSITIVE_META_KEYS. cbn [existsb map]. rewrite !orb_true_iff. intros [E|[E|[E|[E|E]]]]; [..|done];
    apply str_eqb_eq in E as ->; by vm_compute.
Qed.

Lemma lookup_promoted u k : user_ok u → mem k PROMOTED = true → lookup_key k (u_flex u) = None.
Proof.
  intros [_ Hf] Hk. destruct (lookup_key k (u_flex u)) as [v|] eqn:E; [|done]. apply lookup_key_Some in E.
  rewrite Forall_forall in Hf. apply Hf in E as [E _]. apply name_ok_inv in E as (_ & _ & E & _). cbn [fst] in E. congruence.
Qed.

Lemma lookup_open u k :
  user_ok u → lookup_key k (open_fields u) = if mem k SENSITIVE_META_KEYS then None else lookup_key k (u_flex u).
Proof.
  intros Hu. rewrite open_fields_eq by done. rewrite (lookup_filter (λ k, negb (mem k PROMOTED) && negb (mem k SENSITIVE_META_KEYS))).
  destruct (mem k SENSITIVE_META_KEYS); [by rewrite andb_false_r|]. destruct (mem k PROMOTED) eqn:E; cbn; [|done].
  by rewrite lookup_promoted.
Qed.

Lemma lookup_sealed u k :
  user_ok u → lookup_key k (sealed_fields u) = if mem k SENSITIVE_META_KEYS then lookup_key k (u_flex u) else None.
Proof.
  intros Hu. rewrite sealed_fields_eq by done. rewrite (lookup_filter (λ k, negb (mem k PROMOTED) && mem k SENSITIVE_META_KEYS)).
  destruct (mem k SENSITIVE_META_KEYS) eqn:E; [|by rewrite andb_false_r]. by rewrite sensitive_not_promoted.
Qed.

Lemma sealed_fields_ok u : user_ok u → props_ok (sealed_fields u).
Proof.
  intros Hu. rewrite sealed_fields_eq by done. by apply (props_ok_filter (λ k, negb (mem k PROMOTED) && mem k SENSITIVE_META_KEYS)).
Qed.

Lemma open_ok u : user_ok u → props_ok (open_fields u).
Proof.
  intros Hu. rewrite open_fields_eq by done.
  by apply (props_ok_filter (λ k, negb (mem k PROMOTED) && negb (mem k SENSITIVE_META_KEYS))).
Qed.

Lemma lookup_SEALED l : props_ok l → lookup_key SEALED l = None.
Proof.
  intros [_ Hf]. destruct (lookup_key SEALED l) as [v|] eqn:E; [|done]. apply lookup_key_Some in E.
  rewrite Forall_forall in Hf. apply Hf in E as [E _]. by apply name_ok_inv in E as (_ & _ & _ & ? & _).
Qed.

(** With the sealed text added the object is still one [jsonb] takes. *)
Lemma sealed_json l blob :
  props_ok l → Bytes blob → json_ok (JObj (put SEALED (JStr (btoa blob)) l)) = true ∧ plain (JObj (put SEALED (JStr (btoa blob)) l)) = true.
Proof.
  intros Hl Hb. rewrite put_absent by (done || by apply lookup_SEALED). destruct (btoa_ok blob Hb) as [Ht Hp].
  destruct (props_ok_json l Hl) as [Hj Hpl]. cbn [json_ok plain] in *. rewrite !forallb_app. cbn [forallb fst snd json_ok plain].
  apply andb_prop in Hj as [_ ->]. rewrite Hpl, Ht, Hp. split; [|done]. rewrite bool_decide_true; [done|].
  apply build_keys.
  - rewrite map_app. cbn. rewrite (Permutation_app_comm _ [SEALED]). constructor; [|apply Hl].
    by apply lookup_key_None, lookup_SEALED.
  - apply Forall_app. split; [|by repeat constructor]. destruct Hl as [_ Hf]. eapply Forall_impl; [exact Hf|]. cbn.
    intros kv [Hk _]. by destruct (name_ok_inv _ Hk) as (_ & _ & _ & _ & ?).
Qed.

Lemma userToMeta_reads e id dek u s :
  env_ok e → keyed id dek u s → Bytes dek → user_ok u →
  reads e id dek (userToMeta e u) s (λ m, meta_ok dek (JObj m) (u_flex u)).
Proof.
  intros He Hk Hb Hu. unfold userToMeta. assert (Hs := lookup_sealed u). assert (Hso := sealed_fields_ok u Hu).
  destruct (sealed_fields u) as [|kv sl] eqn:E.
  - apply reads_ret. exists (open_fields u). destruct (props_ok_json _ (open_ok u Hu)) as [Hj Hp]. split_and!; try done.
    + intros k _. by rewrite lookup_open.
    + rewrite lookup_SEALED by (by apply open_ok). intros k Hm. specialize (Hs k Hu). rewrite Hm in Hs. done.
  - eapply reads_bind; [apply encrypt_reads; [done..|]; by apply props_ok_json in Hso as [? _]|].
    intros s' blob _ (Hbb & Hne & Hun). apply reads_ret. exists (put SEALED (JStr (btoa blob)) (open_fields u)).
    destruct (sealed_json (open_fields u) blob (open_ok u Hu) Hbb) as [Hj Hp]. split_and!; try done.
    + intros k Hk'. rewrite lookup_put. destruct (str_eqb k SEALED) eqn:E'; [by apply str_eqb_eq in E'|]. by rewrite lookup_open.
    + rewrite lookup_put, (proj2 (str_eqb_eq SEALED SEALED)) by done. exists blob, (kv :: sl). split_and!; try done.
      intros k. by rewrite Hs.
Qed.

(** ** Rows *)

Definition key_of (r : Row) : option bytes := unwrapDek (wrapped_dek r) (kms_key_id r).

Definition row_ok (id : jsstr) (r : Row) (u : User) : Prop :=
  u = base id r (u_flex u) ∧ user_ok u ∧ ∃ dek, Bytes dek ∧ key_of r = Some dek ∧ meta_ok dek (meta r) (u_flex u).

(** The fields read from a column that stands for [l] are [l]. *)
Lemma read_fields ml sl l :
  NoDup (map fst ml) → NoDup (map fst sl) → (∀ k, k ≠ SEALED → lookup_key k ml ≡ if mem k SENSITIVE_META_KEYS then None else lookup_key k l) →
  (∀ k, lookup_key k sl ≡ if mem k SENSITIVE_META_KEYS then lookup_key k l else None) → props_ok l →
  without_promoted (spread (List.filter (λ kv, negb (str_eqb kv.1 SEALED)) ml) sl) ≡ l.
Proof.
  intros Hnm Hns Hm Hs Hl k. unfold without_promoted. rewrite (lookup_filter (λ k, negb (mem k PROMOTED))).
  destruct (mem k PROMOTED) eqn:Ep; cbn [negb]; [by rewrite (lookup_promoted (mkUser [] [] [] None None None None None None None l))|].
  rewrite lookup_spread by done. rewrite (lookup_filter (λ k, negb (str_eqb k SEALED))).
  assert (Hk := Hs k). destruct (lookup_key k sl) as [x|].
  - destruct (mem k SENSITIVE_META_KEYS); [exact Hk|by inv Hk].
  - destruct (str_eqb k SEALED) eqn:E; cbn [negb].
    + apply str_eqb_eq in E as ->. by rewrite lookup_SEALED.
    + assert (Hk' := Hm k). specialize (Hk' ltac:(intros ->; unfold str_eqb in E; by rewrite bool_decide_true in E)). etrans; [exact Hk'|].
      destruct (mem k SENSITIVE_META_KEYS); [exact Hk|done].
Qed.

(** Properties that agree with well-formed ones are well formed if their values are. *)
Lemma props_ok_equiv l l' : props_ok l → l' ≡ l → NoDup (map fst l') → Forall (λ kv, val_ok kv.2 = true) l' → props_ok l'.
Proof.
  intros [_ Hf] He Hn Hv. split; [done|]. rewrite Forall_forall in *. intros [k v] Hin. split; [|by apply (Hv (k, v))].
  cbn. assert (E := He k). rewrite (lookup_key_elem k v) in E by done. destruct (lookup_key k l) as [w|] eqn:El; [|by inv E].
  apply lookup_key_Some in El. by apply Hf in El as [? _].
Qed.

Lemma read_vals ml sl :
  Forall (λ kv, val_ok kv.2 = true) ml → Forall (λ kv, val_ok kv.2 = true) sl →
  Forall (λ kv, val_ok kv.2 = true) (without_promoted (spread (List.filter (λ kv, negb (str_eqb kv.1 SEALED)) ml) sl)).
Proof. intros. by apply filter_Forall, spread_Forall; [apply filter_Forall|]. Qed.

Lemma read_NoDup ml sl :
  NoDup (map fst ml) → NoDup (map fst (without_promoted (spread (List.filter (λ kv, negb (str_eqb kv.1 SEALED)) ml) sl))).
Proof.
  intros. apply (keys_filter (λ k, negb (mem k PROMOTED))), spread_NoDup, (keys_filter (λ k, negb (str_eqb k SEALED))). done.
Qed.

Lemma rowToUser_reads e id r u s dek :
  row_ok id r u → key_of r = Some dek → (∀ d, dek_cache s !! id = Some d → d = dek) →
  reads e id dek (rowToUser e id r) s (λ u', u' ≡ u ∧ user_ok u' ∧ u' = base id r (u_flex u')).
Proof.
  intros (Hu & Hok & dek' & Hb & Hk' & ml & Em & Hj & Hp & Ho & Hs) Hk Hc. rewrite Hk in Hk'. injection Hk' as <-.
  unfold rowToUser. rewrite Em. rewrite Em in Hj, Hp. cbn [members]. destruct (json_ok_props _ Hj Hp) as [Hn Hv].
  assert (Hkd : ∀ s', s' = s ∨ s' = cached id dek s → keyed id dek (base id r []) s').
  { intros s' Hs'. apply (keyed_cached id dek _ s); [|done]. split_and!; [done|done|]. cbn. exact Hk. }
  eapply (reads_bind e id dek _ _ s (λ sl, props_ok sl ∧ ∀ k, lookup_key k sl ≡ if mem k SENSITIVE_META_KEYS then lookup_key k (u_flex u) else None)).
  - unfold sealed_blob. destruct (lookup_key SEALED ml) as [v|].
    + destruct Hs as (blob & sl & -> & Hbb & Hne & Hun & Hsl & Hl). assert (Hnb : ∃ c t, btoa blob = c :: t).
      { destruct blob as [|a [|b [|c blob]]]; [done|..]; cbn; eauto. }
      destruct Hnb as (c & t & Ec). assert (Hd := buffer_base64_roundtrip blob Hbb). rewrite Ec in Hd |- *. rewrite Hd.
      eapply reads_bind; [apply decrypt_reads; [apply Hkd; by left|done]|]. intros s' v Hs' ->. by apply reads_ret.
    + apply reads_ret. split; [by split; constructor|]. intros k. cbn [lookup_key]. destruct (mem k _) eqn:E; [by rewrite Hs|done].
  - intros s' sl Hs' [Hsl Hl]. apply reads_ret. cbn [u_flex base].
    assert (He : without_promoted (spread (List.filter (λ kv, negb (str_eqb kv.1 SEALED)) ml) sl) ≡ u_flex u)
      by (apply read_fields; [done|apply Hsl|done..|apply Hok]).
    split_and!; [|by eapply props_ok_equiv; [apply Hok|done|by apply read_NoDup|apply read_vals; [done|]; eapply Forall_impl; [apply Hsl|]; by intros ? [] ]|done].
    rewrite Hu. by repeat split.
Qed.
End rows.
