(* ===== verification/PgSimulation.v ===== *)
(** * The PostgreSQL repository implements the abstract one

    The simulation between [Pg] and [Repo]: one lemma per operation, and the theorem
    that every sequence of operations from an empty database answers as the maps do. *)
From S2P Require Import Prelude JsRuntime JsText Json JsonSpec JsObject Base64 FileCrypto Kms PgRepository PgRepositorySpec.

Section run.
Context `{NodeCrypto} `{JsFloat} `{Kms} `{Jsonb}.

Definition ans {A} (f : A → answer) (r : Pg * result PgErr A) : Pg * answer :=
  (r.1, match r.2 with Ok a => f a | Throw e => AErr e end).

Definition pg_do (e : Env) (o : op) (s : Pg) : Pg * answer :=
  match o with
  | FindId id => ans AUser (findUserById e id s)
  | FindEmail h => ans AUser (findUserByEmailHash e h s)
  | Insert u => ans AId (insertUser e u s)
  | Update id fn => ans AWritten (updateUserById e id fn s)
  | DeleteUser id => ans (λ _, ADone) (deleteUserById id s)
  | GetRes uid name => ans AValue (getResource e uid name s)
  | SetRes uid name v => ans (λ _, ADone) (setResource e uid name v s)
  | DeleteRes uid name => ans (λ _, ADone) (deleteResource uid name s)
  | DeleteData uid => ans (λ _, ADone) (deleteUserData uid s)
  | Evict id => (evict id s, ADone)
  end.

Fixpoint pg_run (ops : list (Env * op)) (s : Pg) : Pg * list answer :=
  match ops with
  | [] => (s, [])
  | (e, o) :: ops => let '(s, r) := pg_do e o s in let '(s, rs) := pg_run ops s in (s, r :: rs)
  end.

Inductive repo_run : list (Env * op) → Repo → list answer → Repo → Prop :=
| run_nil a : repo_run [] a [] a
| run_cons e o ops a a' a'' r rs : repo_step e o a a' r → repo_run ops a' rs a'' → repo_run ((e, o) :: ops) a (r :: rs) a''.
End run.

Definition empty_pg : Pg := mkPg ∅ ∅ ∅.

(** The ids an operation may add. *)
Definition new_ids (o : op) : list jsstr := match o with Insert u => [u_id u] | _ => [] end.

Section sim.
Context `{NodeCrypto} `{!NodeCryptoLaws} `{!NodeBytes} `{JsFloat} `{Kms} `{!KmsLaws} `{Jsonb} `{!JsonbLaws}.

(** Callbacks respect the equivalence, keep users well formed and leave id and key alone. *)
Definition fn_ok (id : jsstr) (fn : User → upd) : Prop :=
  Proper ((≡) ==> (≡)) fn ∧
  ∀ u u', user_ok u → u_id u = id → fn u = Changed u' →
    user_ok u' ∧ u_id u' = u_id u ∧ u_wrappedDek u' = u_wrappedDek u ∧ u_kmsKeyId u' = u_kmsKeyId u.

Definition op_ok (o : op) : Prop :=
  match o with
  | Insert u => user_ok u
  | Update id fn => fn_ok id fn
  | SetRes _ _ v => json_ok v = true
  | _ => True
  end.

Definition item_ok (n : Z) (s : Pg) (uid : jsstr) (i : Item) (v : json) : Prop :=
  ∃ r dek, users s !! uid = Some r ∧ key_of r = Some dek ∧ unsealed dek (ciphertext i) = Some v ∧ 1 <= version i <= n.

Record rel (n : Z) (seen : list jsstr) (s : Pg) (a : Repo) : Prop := {
  rel_users id : option_Forall2 (row_ok id) (users s !! id) (a_users a !! id);
  rel_items uid name : option_Forall2 (item_ok n s uid) (vault_items s !! (uid, name)) (a_res a !! (uid, name));
  rel_cache id r dek : users s !! id = Some r → dek_cache s !! id = Some dek → key_of r = Some dek;
  rel_email id id' u u' : a_users a !! id = Some u → a_users a !! id' = Some u' → u_emailHash u = u_emailHash u' → id = id';
  rel_seen id : is_Some (users s !! id) ∨ is_Some (dek_cache s !! id) → id ∈ seen
}.

Definition simulates (e : Env) (o : op) (n : Z) (seen : list jsstr) (s : Pg) (a : Repo) : Prop :=
  ∃ a' r, repo_step e o a a' r ∧ (pg_do e o s).2 ≡ r ∧ rel (n + 1) (new_ids o ++ seen) (pg_do e o s).1 a'.

Lemma rel_mono n seen seen' s a : rel n seen s a → seen ⊆ seen' → rel (n + 1) seen' s a.
Proof.
  intros [Hu Hi Hc He Hs] Hsub. split; auto.
  - intros uid name. destruct (Hi uid name) as [i v (r & dek & ? & ? & ? & ?)|]; constructor. exists r, dek. split_and!; try done; lia.
Qed.

Lemma rel_cached n seen s a id r dek :
  rel n seen s a → users s !! id = Some r → key_of r = Some dek → rel n seen (cached id dek s) a.
Proof.
  intros [Hu Hi Hc He Hs] Hr Hk. split; try done.
  - intros id' r' dek' Hr' Hd. cbn in *. destruct (decide (id' = id)) as [->|].
    + rewrite lookup_insert_eq in Hd. congruence.
    + rewrite lookup_insert_ne in Hd by done. by eapply Hc.
  - intros id' [Hr'|Hd]; cbn in *; [auto|]. destruct (decide (id' = id)) as [->|]; [apply Hs; left; by eexists|].
    rewrite lookup_insert_ne in Hd by done. auto.
Qed.

Lemma rel_row n seen s a id r :
  rel n seen s a → users s !! id = Some r →
  ∃ u dek, a_users a !! id = Some u ∧ row_ok id r u ∧ key_of r = Some dek ∧ Bytes dek ∧ ∀ d, dek_cache s !! id = Some d → d = dek.
Proof.
  intros R Hr. assert (Ho := rel_users _ _ _ _ R id). rewrite Hr in Ho. destruct (a_users a !! id) as [u|]; [|by inv Ho].
  assert (Hrow : row_ok id r u) by (by inv Ho). destruct (Hrow) as (_ & _ & dek & Hb & Hk & _). exists u, dek. split_and!; try done.
  intros d Hd. assert (E := rel_cache _ _ _ _ R id r d Hr Hd). congruence.
Qed.

Lemma rel_none n seen s a id : rel n seen s a → users s !! id = None → a_users a !! id = None.
Proof. intros R Hr. assert (Ho := rel_users _ _ _ _ R id). rewrite Hr in Ho. by inv Ho. Qed.

(** After a computation that reads the row of [id]. *)
Lemma reads_rel n seen s a id r dek e {A} (m : P A) (Q : A → Prop) :
  rel n seen s a → users s !! id = Some r → key_of r = Some dek → reads e id dek m s Q →
  ∃ s', rel n seen s' a ∧ users s' = users s ∧ vault_items s' = vault_items s ∧ (∀ d, dek_cache s !! id = Some d → d = dek) ∧
  (∀ d, dek_cache s' !! id = Some d → d = dek) ∧
  ((∃ x, m s = (s', Ok x) ∧ Q x) ∨ (m s = (s', Throw KmsError) ∧ e_kms e = false)).
Proof.
  intros R Hr Hk (s' & Hs & Hm). assert (Hc : ∀ d, dek_cache s !! id = Some d → d = dek).
  { intros d Hd. assert (E := rel_cache _ _ _ _ R id r d Hr Hd). congruence. }
  exists s'. destruct Hs as [->| ->]; split_and!; try done; [by eapply rel_cached|].
  cbn. intros d. rewrite lookup_insert_eq. by intros [= <-].
Qed.

Lemma bind_ok {A B} (m : P A) (f : A → P B) s s' x : m s = (s', Ok x) → (m ≫= f) s = f x s'.
Proof. intros E. unfold mbind, P_bind. by rewrite E. Qed.

Lemma bind_throw {A B} (m : P A) (f : A → P B) s s' err : m s = (s', Throw err) → (m ≫= f) s = (s', Throw err).
Proof. intros E. unfold mbind, P_bind. by rewrite E. Qed.

(** Reading a user. *)
Lemma find_rel n seen s a e id :
  rel n seen s a →
  ∃ s', rel n seen s' a ∧ users s' = users s ∧ vault_items s' = vault_items s ∧
  ((∃ o, findUserById e id s = (s', Ok o) ∧ o ≡ a_users a !! id ∧ ∀ u, o = Some u → ∃ r, users s !! id = Some r ∧ u = base id r (u_flex u)) ∨
   (findUserById e id s = (s', Throw KmsError) ∧ e_kms e = false)).
Proof.
  intros R. unfold findUserById. rewrite (bind_ok get _ s s s) by done. destruct (users s !! id) as [r|] eqn:Er.
  - destruct (rel_row _ _ _ _ _ _ R Er) as (u & dek & Ha & Hrow & Hk & Hb & Hc).
    destruct (reads_rel _ _ _ _ _ _ _ e _ _ R Er Hk (rowToUser_reads e id r u s dek Hrow Hk Hc)) as (s' & R' & Hu & Hi & _ & _ & Hm).
    exists s'. split_and!; [done..|]. destruct Hm as [(u' & Hm & He & _ & Hbase)|[Hm He]].
    + left. exists (Some u'). rewrite (bind_ok _ _ _ _ _ Hm). split_and!; [done|rewrite Ha; by constructor|]. intros ? [= <-]. eauto.
    + right. by rewrite (bind_throw _ _ _ _ _ Hm).
  - exists s. split_and!; [done..|]. left. exists None. split_and!; [done| |done]. by rewrite (rel_none _ _ _ _ _ R Er).
Qed.

Ltac served := eexists _, _; split; [apply Served; reflexivity|].
Ltac served_by E := eexists _, _; split; [apply Served; cbn [repo_do]; rewrite E; reflexivity|].
Ltac unserved := eexists _, _; split; [apply Unserved; by auto|].

Lemma sim_find n seen s a e id : rel n seen s a → simulates e (FindId id) n seen s a.
Proof.
  intros R. destruct (find_rel _ _ _ _ e id R) as (s' & R' & _ & _ & [(o & Hf & Ho & _)|[Hf He]]); unfold simulates; cbn [pg_do]; rewrite Hf.
  - served. split; [exact Ho|]. by eapply rel_mono.
  - unserved. split; [done|]. by eapply rel_mono.
Qed.

Lemma by_email n seen s a h :
  rel n seen s a →
  match row_by_email h (users s), user_by_email h (a_users a) with
  | Some (id, r), Some (id', u) => id' = id ∧ users s !! id = Some r ∧ a_users a !! id = Some u
  | None, None => True
  | _, _ => False
  end.
Proof.
  intros R. unfold row_by_email, user_by_email.
  destruct (List.find _ (map_to_list (users s))) as [[id r]|] eqn:E1, (List.find _ (map_to_list (a_users a))) as [[id' u]|] eqn:E2; try done.
  - apply find_some in E1 as [I1 M1], E2 as [I2 M2]. apply list_elem_of_In, elem_of_map_to_list in I1, I2.
    destruct (rel_row _ _ _ _ _ _ R I1) as (u1 & dek & Hu1 & (Hb & _) & _). cbn in M1, M2. apply str_eqb_eq in M1, M2.
    assert (id' = id) as ->; [|by split_and!]. eapply (rel_email _ _ _ _ R); [done..|]. rewrite Hb. cbn. congruence.
  - apply find_some in E1 as [I1 M1]. apply list_elem_of_In, elem_of_map_to_list in I1. cbn in M1. apply str_eqb_eq in M1.
    destruct (rel_row _ _ _ _ _ _ R I1) as (u1 & dek & Hu1 & (Hb & _) & _).
    apply elem_of_map_to_list, list_elem_of_In in Hu1. apply (find_none _ _ E2) in Hu1. cbn in Hu1.
    rewrite Hb in Hu1. cbn in Hu1. by rewrite (proj2 (str_eqb_eq _ _)) in Hu1.
  - apply find_some in E2 as [I2 M2]. apply list_elem_of_In, elem_of_map_to_list in I2. cbn in M2. apply str_eqb_eq in M2.
    assert (Ho := rel_users _ _ _ _ R id'). rewrite I2 in Ho. destruct (users s !! id') as [r|] eqn:Er; [|by inv Ho].
    assert (Hrow : row_ok id' r u) by (by inv Ho). destruct Hrow as [Hb _].
    apply elem_of_map_to_list, list_elem_of_In in Er. apply (find_none _ _ E1) in Er. cbn in Er. rewrite M2, Hb in Er. cbn in Er.
    by rewrite (proj2 (str_eqb_eq _ _)) in Er.
Qed.

Lemma sim_find_email n seen s a e h : rel n seen s a → simulates e (FindEmail h) n seen s a.
Proof.
  intros R. assert (Hm := by_email _ _ _ _ h R). unfold simulates. cbn [pg_do new_ids Datatypes.app].
  unfold findUserByEmailHash. rewrite (bind_ok get _ s s s) by done.
  destruct (row_by_email h (users s)) as [[id r]|], (user_by_email h (a_users a)) as [[id' u]|] eqn:E2; try done.
  - destruct Hm as (-> & Er & Ea). destruct (rel_row _ _ _ _ _ _ R Er) as (u0 & dek & Ha & Hrow & Hk & Hb & Hc).
    assert (u0 = u) as -> by congruence.
    destruct (reads_rel _ _ _ _ _ _ _ e _ _ R Er Hk (rowToUser_reads e id r u s dek Hrow Hk Hc)) as (s' & R' & _ & _ & _ & _ & [(u' & Hf & He & _)|[Hf He]]).
    + rewrite (bind_ok _ _ _ _ _ Hf). served. cbn. rewrite E2. split; [by constructor|]. by eapply rel_mono.
    + rewrite (bind_throw _ _ _ _ _ Hf). unserved. split; [done|]. by eapply rel_mono.
  - served. cbn. rewrite E2. split; [constructor|]. by eapply rel_mono.
Qed.

Lemma rel_drop n seen s a id : rel n seen s a → rel n seen (delete_row id s) (drop_user id a).
Proof.
  intros [Hu Hi Hc He Hs]. unfold delete_row, drop_user. split; cbn.
  - intros id'. destruct (decide (id' = id)) as [->|]; [rewrite !lookup_delete_eq; constructor|]. by rewrite !lookup_delete_ne.
  - intros uid name. rewrite !map_lookup_filter. cbn. destruct (decide (uid = id)) as [->|Hne].
    { destruct (vault_items s !! (id, name)), (a_res a !! (id, name)); cbn; rewrite ?option_guard_False by (by intros []); constructor. }
    destruct (Hi uid name) as [i v (r & dek & ? & ? & ? & ?)|]; cbn; [|constructor]. rewrite !option_guard_True by done.
    constructor. exists r, dek. cbn. by rewrite lookup_delete_ne.
  - intros id' r dek Hr Hd. apply lookup_delete_Some in Hr as [? Hr]. by eapply Hc.
  - intros id1 id2 u1 u2 E1 E2. apply lookup_delete_Some in E1 as [? E1], E2 as [? E2]. by eapply He.
  - intros id' [[r Hr]|Hd]; [|auto]. apply lookup_delete_Some in Hr as [? Hr]. apply Hs. left. by eexists.
Qed.

Lemma sim_delete n seen s a e id : rel n seen s a → simulates e (DeleteUser id) n seen s a.
Proof. intros R. served. split; [done|]. eapply rel_mono; [by apply rel_drop|done]. Qed.

Lemma sim_delete_data n seen s a e id : rel n seen s a → simulates e (DeleteData id) n seen s a.
Proof. intros R. served. split; [done|]. eapply rel_mono; [by apply rel_drop|done]. Qed.

Lemma sim_delete_res n seen s a e uid name : rel n seen s a → simulates e (DeleteRes uid name) n seen s a.
Proof.
  intros R. served. split; [done|]. eapply rel_mono; [|done]. destruct R as [Hu Hi Hc He Hs]. split; try done.
  intros uid' name'. cbn. destruct (decide ((uid', name') = (uid, name))) as [[= -> ->]|].
  - rewrite !lookup_delete_eq. constructor.
  - rewrite !lookup_delete_ne by congruence. apply Hi.
Qed.

Lemma sim_evict n seen s a e id : rel n seen s a → simulates e (Evict id) n seen s a.
Proof.
  intros R. served. split; [done|]. eapply rel_mono; [|done]. destruct R as [Hu Hi Hc He Hs]. split; try done; cbn.
  - intros id' r dek Hr Hd. apply lookup_delete_Some in Hd as [? Hd]. by eapply Hc.
  - intros id' [Hr|[d Hd]]; [auto|]. apply lookup_delete_Some in Hd as [? Hd]. apply Hs. right. by eexists.
Qed.

Lemma sim_get n seen s a e uid name : rel n seen s a → simulates e (GetRes uid name) n seen s a.
Proof.
  intros R. destruct (find_rel _ _ _ _ e uid R) as (s1 & R1 & Hu & Hi & Hf). unfold simulates. cbn [pg_do new_ids Datatypes.app].
  unfold getResource. destruct Hf as [(o & Hf & Ho & Hb)|[Hf He]].
  2: { rewrite (bind_throw _ _ _ _ _ Hf). unserved. split; [done|]. by eapply rel_mono. }
  rewrite (bind_ok _ _ _ _ _ Hf). assert (Hit := rel_items _ _ _ _ R1 uid name). destruct o as [u|].
  - rewrite (bind_ok get _ s1 s1 s1) by done. destruct (vault_items s1 !! (uid, name)) as [i|] eqn:Ei.
    + destruct (a_res a !! (uid, name)) as [v|] eqn:Ea; [|by inv Hit]. assert (Hio : item_ok n s1 uid i v) by (by inv Hit).
      destruct Hio as (r & dek & Hr & Hk & Hun & _). destruct (Hb u eq_refl) as (r' & Hr' & Hbu).
      assert (r' = r) as -> by (rewrite Hu in Hr; congruence).
      assert (Hkd : keyed uid dek u s1).
      { split_and!; [|by rewrite Hbu|by rewrite Hbu]. intros d Hd. assert (E := rel_cache _ _ _ _ R1 _ _ _ Hr Hd). congruence. }
      destruct (reads_rel _ _ _ _ _ _ _ e _ _ R1 Hr Hk (decrypt_reads e uid dek u s1 _ v Hkd Hun)) as (s2 & R2 & _ & _ & _ & _ & [(x & Hd & ->)|[Hd He]]); rewrite Hd.
      * served. cbn. rewrite Ea. split; [done|]. by eapply rel_mono.
      * unserved. split; [done|]. by eapply rel_mono.
    + assert (Ea : a_res a !! (uid, name) = None) by (destruct (a_res a !! (uid, name)); [by inv Hit|done]).
      served. cbn. rewrite Ea. split; [done|]. by eapply rel_mono.
  - assert (Ea : a_res a !! (uid, name) = None).
    { destruct (a_res a !! (uid, name)) as [v|]; [|done]. destruct (vault_items s1 !! (uid, name)) as [i|]; [|by inv Hit].
      assert (Hio : item_ok n s1 uid i v) by (by inv Hit). destruct Hio as (r & dek & Hr & _).
      destruct (rel_row _ _ _ _ _ _ R1 Hr) as (u & _ & Hau & _). rewrite Hau in Ho. by inv Ho. }
    served. cbn. rewrite Ea. split; [done|]. by eapply rel_mono.
Qed.

Lemma rel_set n seen s a uid name blob v r dek ver now :
  rel n seen s a → users s !! uid = Some r → key_of r = Some dek → unsealed dek blob = Some v → 1 <= ver <= n + 1 →
  rel (n + 1) seen (set_items s (<[(uid, name) := mkItem blob ver now]> (vault_items s)))
    (mkRepo (a_users a) (<[(uid, name) := v]> (a_res a))).
Proof.
  intros R Hr Hk Hun Hv. assert (R' := rel_mono _ _ _ _ _ R (reflexivity seen)). destruct R' as [Hu Hi Hc He Hs]. split; try done.
  intros uid' name'. cbn. destruct (decide ((uid', name') = (uid, name))) as [[= -> ->]|].
  - rewrite !lookup_insert_eq. constructor. by exists r, dek.
  - rewrite !lookup_insert_ne by congruence. apply Hi.
Qed.

Lemma sim_set n seen s a e uid name v :
  env_ok e → 0 <= n < MAX_INT4 → json_ok v = true → rel n seen s a → simulates e (SetRes uid name v) n seen s a.
Proof.
  intros Henv Hn Hv R. destruct (find_rel _ _ _ _ e uid R) as (s1 & R1 & Hu & Hi & Hf). unfold simulates. cbn [pg_do new_ids Datatypes.app].
  unfold setResource. destruct Hf as [(o & Hf & Ho & Hb)|[Hf He]].
  2: { rewrite (bind_throw _ _ _ _ _ Hf). unserved. split; [done|]. by eapply rel_mono. }
  rewrite (bind_ok _ _ _ _ _ Hf). destruct o as [u|].
  2: { assert (Ea : a_users a !! uid = None) by (destruct (a_users a !! uid); [by inv Ho|done]).
       served_by Ea. split; [done|]. by eapply rel_mono. }
  destruct (a_users a !! uid) as [au|] eqn:Ea; [|by inv Ho]. destruct (Hb u eq_refl) as (r & Hr & Hbu). rewrite <- Hu in Hr.
  destruct (rel_row _ _ _ _ _ _ R1 Hr) as (_ & dek & _ & _ & Hk & Hdb & Hc).
  assert (Hkd : keyed uid dek u s1) by (split_and!; [done|by rewrite Hbu|by rewrite Hbu]).
  destruct (reads_rel _ _ _ _ _ _ _ e _ _ R1 Hr Hk (encrypt_reads e uid dek u s1 v Henv Hkd Hdb Hv)) as (s2 & R2 & Hu2 & Hi2 & _ & _ & [(b & Hd & _ & _ & Hun)|[Hd He]]).
  2: { rewrite (bind_throw _ _ _ _ _ Hd). unserved. split; [done|]. by eapply rel_mono. }
  rewrite (bind_ok _ _ _ _ _ Hd), (bind_ok get _ s2 s2 s2) by done. rewrite <- Hu2 in Hr.
  destruct (vault_items s2 !! (uid, name)) as [i|] eqn:Ei.
  - assert (Hit := rel_items _ _ _ _ R2 uid name). rewrite Ei in Hit. destruct (a_res a !! (uid, name)) as [v0|]; [|by inv Hit].
    assert (Hio : item_ok n s2 uid i v0) by (by inv Hit). destruct Hio as (r' & dek' & _ & _ & _ & Hver).
    rewrite (proj2 (Z.ltb_ge _ _)) by lia. served_by Ea. split; [done|]. eapply rel_set; [done..|lia].
  - served_by Ea. split; [done|]. eapply rel_set; [done..|lia].
Qed.

(** Replacing or adding the row of a user whose key stays. *)
Lemma rel_row_insert n seen s a id r u :
  rel n seen s a → row_ok id r u → (∀ dek, dek_cache s !! id = Some dek → key_of r = Some dek) →
  (∀ r', users s !! id = Some r' → key_of r = key_of r') →
  (∀ id' u', a_users a !! id' = Some u' → u_emailHash u' = u_emailHash u → id' = id) → id ∈ seen →
  rel n seen (set_users s (<[id := r]> (users s))) (mkRepo (<[id := u]> (a_users a)) (a_res a)).
Proof.
  intros [Hu Hi Hc He Hs] Hrow Hcd Hkey Hem Hin. split; cbn.
  - intros id'. destruct (decide (id' = id)) as [->|]; [rewrite !lookup_insert_eq; by constructor|]. by rewrite !lookup_insert_ne.
  - intros uid name. destruct (Hi uid name) as [i v (r' & dek & Hr' & Hk & Hun & Hv)|]; constructor.
    destruct (decide (uid = id)) as [->|].
    + exists r, dek. cbn. rewrite lookup_insert_eq, (Hkey _ Hr'). split_and!; try done; lia.
    + exists r', dek. cbn. by rewrite lookup_insert_ne.
  - intros id' r' dek Hr' Hd. destruct (decide (id' = id)) as [->|].
    + rewrite lookup_insert_eq in Hr'. injection Hr' as <-. by apply Hcd.
    + rewrite lookup_insert_ne in Hr' by done. by eapply Hc.
  - intros id1 id2 u1 u2 E1 E2 Eh. destruct (decide (id1 = id)) as [->|], (decide (id2 = id)) as [->|]; try done.
    + rewrite lookup_insert_eq in E1. rewrite lookup_insert_ne in E2 by done. injection E1 as ->. symmetry. by eapply Hem.
    + rewrite lookup_insert_eq in E2. rewrite lookup_insert_ne in E1 by done. injection E2 as ->. by eapply Hem.
    + rewrite lookup_insert_ne in E1, E2 by done. by eapply He.
  - intros id' [Hr'|Hd]; [|auto]. destruct (decide (id' = id)) as [->|]; [done|]. rewrite lookup_insert_ne in Hr' by done. auto.
Qed.

Lemma to_jsonb_ok dek m l s : meta_ok dek (JObj m) l → ∃ w, to_jsonb m s = (s, Ok w) ∧ meta_ok dek w l.
Proof.
  intros Hm. destruct (Hm) as (ml & _ & Hj & Hp & _). destruct (jsonb_total _ Hj Hp) as [w Hw]. exists w. unfold to_jsonb. rewrite Hw.
  split; [done|]. by eapply meta_ok_jsonb.
Qed.

Lemma conflicts_rel n seen s a u :
  rel n seen s a → conflicts u (users s) =
  bool_decide (is_Some (a_users a !! u_id u)) || bool_decide (is_Some (user_by_email (u_emailHash u) (a_users a))).
Proof.
  intros R. unfold conflicts. f_equal; apply bool_decide_ext.
  - assert (Ho := rel_users _ _ _ _ R (u_id u)). destruct (users s !! u_id u), (a_users a !! u_id u); try by inv Ho.
  - assert (Hm := by_email _ _ _ _ (u_emailHash u) R). destruct (row_by_email _ _) as [[]|], (user_by_email _ _) as [[]|]; try done.
Qed.

Lemma sim_insert n seen s a e u :
  env_ok e → user_ok u → u_id u ∉ seen → rel n seen s a → simulates e (Insert u) n seen s a.
Proof.
  intros Henv Huo Hfresh R. unfold simulates. cbn [pg_do new_ids]. unfold insertUser, newUserDek.
  assert (Rm : rel (n + 1) ([u_id u] ++ seen) s a) by (eapply rel_mono; [done|set_solver]).
  destruct (e_kms e) eqn:Ek; [|unserved; by split]. destruct (wrapDek (e_nonce e) (e_dek e)) as [[w k]|] eqn:Ew; [|unserved; by split].
  destruct (Henv) as (Hnon & Hlen & Hbd & Hiv). assert (Hun := kms_roundtrip _ _ _ _ Hnon Hlen Hbd Ew).
  assert (Hnc : dek_cache s !! u_id u = None).
  { destruct (dek_cache s !! u_id u) as [d|] eqn:E; [|done]. exfalso. apply Hfresh, (rel_seen _ _ _ _ R). right. by eexists. }
  assert (Hnu : users s !! u_id u = None).
  { destruct (users s !! u_id u) as [d|] eqn:E; [|done]. exfalso. apply Hfresh, (rel_seen _ _ _ _ R). left. by eexists. }
  assert (Hkd : keyed (u_id u) (e_dek e) (with_dek u w k) s) by (split_and!; [by rewrite Hnc|done|done]).
  destruct (userToMeta_reads e (u_id u) (e_dek e) (with_dek u w k) s Henv Hkd Hbd Huo) as (s1 & Hs1 & [(m & Hm & Hmo)|[_ ?]]); [|congruence].
  rewrite (bind_ok _ _ _ _ _ Hm). destruct (to_jsonb_ok _ _ _ s1 Hmo) as (mv & Hj & Hmv). rewrite (bind_ok _ _ _ _ _ Hj), (bind_ok get _ s1 s1 s1) by done.
  assert (Hus : users s1 = users s) by (by destruct Hs1 as [->| ->]).
  assert (R1 : rel (n + 1) ([u_id u] ++ seen) s1 a).
  { destruct Hs1 as [->| ->]; [done|]. destruct Rm as [Ru Ri Rc Re Rs]. split; try done; cbn.
    - intros id r dek Hr Hd. rewrite lookup_insert_ne in Hd by (intros <-; congruence). by eapply Rc.
    - intros id [Hr|Hd]; [by apply Rs; left|]. destruct (decide (id = u_id u)) as [->|]; [set_solver|].
      rewrite lookup_insert_ne in Hd by done. apply Rs. by right. }
  rewrite (conflicts_rel _ _ _ _ u R1).
  destruct (bool_decide (is_Some (a_users a !! u_id u)) || bool_decide (is_Some (user_by_email (u_emailHash u) (a_users a)))) eqn:Ec.
  { served_by Ec. by split. }
  eexists _, _. split; [apply Served; cbn [repo_do]; rewrite Ec, Ew; reflexivity|]. split; [done|].
  set (r := mkRow _ _ _ _ _ _ _ _ _ _). change (_, Ok _).1 with (set_users s1 (<[u_id u := r]> (users s1))).
  apply rel_row_insert; [done| | | | |set_solver].
  - split_and!; [done|done|]. by exists (e_dek e).
  - intros dek Hd. unfold key_of, r. cbn. rewrite Hun. destruct Hs1 as [->| ->]; cbn in Hd; [congruence|].
    rewrite lookup_insert_eq in Hd. congruence.
  - rewrite Hus. congruence.
  - intros id' u' Hu' Heq. exfalso. apply orb_false_elim in Ec as [_ Ec]. apply bool_decide_eq_false in Ec. apply Ec.
    unfold user_by_email. destruct (List.find _ _) as [kv|] eqn:Ef; [by eexists|].
    apply elem_of_map_to_list, list_elem_of_In in Hu'. apply (find_none _ _ Ef) in Hu'. cbn in Hu', Heq.
    rewrite Heq in Hu'. by rewrite (proj2 (str_eqb_eq _ _)) in Hu'.
Qed.

Lemma withTx_ok {A} (m : P A) s s' x : m s = (s', Ok x) → withTx m s = (s', Ok x).
Proof. intros E. unfold withTx. by rewrite E. Qed.

(** A throw puts back tables the computation did not change anyway. *)
Lemma withTx_throw {A} (m : P A) s s' err :
  m s = (s', Throw err) → users s' = users s → vault_items s' = vault_items s → withTx m s = (s', Throw err).
Proof. intros E Hu Hi. unfold withTx. rewrite E. destruct s'; cbn in *; subst. done. Qed.

(** Writing back a changed user. *)
Lemma update_rel n seen s a e id r u u1 dek :
  env_ok e → rel n seen s a → users s !! id = Some r → row_ok id r u → key_of r = Some dek → Bytes dek →
  user_ok u1 → u_id u1 = id → u_wrappedDek u1 = Some (wrapped_dek r) → u_kmsKeyId u1 = Some (kms_key_id r) →
  (∃ s', rel n seen s' a ∧ users s' = users s ∧ vault_items s' = vault_items s ∧
     ((update_row e id u1 s = (s', Throw KmsError) ∧ e_kms e = false) ∨
      (update_row e id u1 s = (s', Throw NotNullViolation) ∧ u_wrapMode u1 = None))) ∨
  ∃ s' wm, u_wrapMode u1 = Some wm ∧ update_row e id u1 s = (s', Ok tt) ∧
    ∀ u', u' ≡ u1 → user_ok u' → rel n seen s' (mkRepo (<[id := rewritten u u' wm]> (a_users a)) (a_res a)).
Proof.
  intros Henv R Hr Hrow Hk Hb Hu1 Hid Hw Hki. unfold update_row.
  assert (Hkd : keyed id dek u1 s).
  { split_and!; [|done|by rewrite Hw, Hki]. intros d Hd. assert (E := rel_cache _ _ _ _ R _ _ _ Hr Hd). congruence. }
  destruct (reads_rel _ _ _ _ _ _ _ e _ _ R Hr Hk (userToMeta_reads e id dek u1 s Henv Hkd Hb Hu1)) as (s1 & R1 & Hus & Hit & _ & Hc1 & [(m & Hm & Hmo)|[Hm He]]).
  2: { left. exists s1. rewrite (bind_throw _ _ _ _ _ Hm). split_and!; auto. }
  rewrite (bind_ok _ _ _ _ _ Hm). destruct (to_jsonb_ok _ _ _ s1 Hmo) as (mv & Hj & Hmv). rewrite (bind_ok _ _ _ _ _ Hj).
  destruct (u_wrapMode u1) as [wm|] eqn:Ewm; [|left; exists s1; split_and!; auto].
  right. eexists _, wm. split; [done|]. split; [reflexivity|]. intros u' (_ & _ & Hph & _ & _ & Hwm & Hps & Hcs & Hst & _ & Hfl) Huo.
  rewrite <- Hus in Hr. assert (Ha := rel_row _ _ _ _ _ _ R1 Hr). destruct Ha as (au & _ & Hau & Haub & _).
  destruct Hrow as (Hbase & Hok & _). set (f := λ r, _). replace (alter f id (users s1)) with (<[id := f r]> (users s1)).
  2: { apply map_eq. intros j. destruct (decide (j = id)) as [->|].
       - rewrite lookup_insert_eq, lookup_alter_eq, Hr. done.
       - by rewrite lookup_insert_ne, lookup_alter_ne. }
  apply rel_row_insert; [done| | | | |].
  - split_and!; [|done|].
    + unfold rewritten, base. cbn. rewrite Hbase. cbn. by rewrite <- Hph, <- Hps, <- Hcs, <- Hst.
    + exists dek. split_and!; [done|done|]. cbn. by eapply meta_ok_proper; [symmetry; exact Hfl|].
  - intros d Hd. rewrite (Hc1 d Hd). exact Hk.
  - intros r' Hr'. rewrite Hr in Hr'. by injection Hr' as <-.
  - intros id' x Hx Heq. eapply (rel_email _ _ _ _ R1); [exact Hx|exact Hau|]. cbn in Heq. rewrite Heq.
    destruct Haub as [-> _]. rewrite Hbase. done.
  - apply (rel_seen _ _ _ _ R1). left. by eexists.
Qed.

Lemma sim_update n seen s a e id fn :
  env_ok e → fn_ok id fn → rel n seen s a → simulates e (Update id fn) n seen s a.
Proof.
  intros Henv [Hpr Hfn] R. unfold simulates. cbn [pg_do new_ids Datatypes.app]. unfold updateUserById.
  set (body := get ≫= _). assert (Eb : body s = match users s !! id with None => mret None | Some r => u ← rowToUser e id r;
    match fn u with Unchanged => mret (Some false) | Threw err => throw (CallbackError err)
    | Changed u' => _ ← update_row e id u'; mret (Some true) end end s) by reflexivity.
  destruct (users s !! id) as [r|] eqn:Er.
  2: { rewrite (withTx_ok _ _ _ _ Eb). served_by (rel_none _ _ _ _ _ R Er). split; [done|]. by eapply rel_mono. }
  destruct (rel_row _ _ _ _ _ _ R Er) as (u & dek & Ha & Hrow & Hk & Hb & Hc).
  destruct (reads_rel _ _ _ _ _ _ _ e _ _ R Er Hk (rowToUser_reads e id r u s dek Hrow Hk Hc)) as (s1 & R1 & Hus & Hit & _ & _ & [(u1 & Hf & Heq & Hok1 & Hb1)|[Hf He]]).
  2: { rewrite (bind_throw _ _ _ _ _ Hf) in Eb. rewrite (withTx_throw _ _ _ _ Eb Hus Hit). unserved. split; [done|]. by eapply rel_mono. }
  rewrite (bind_ok _ _ _ _ _ Hf) in Eb. assert (Hfe := Hpr _ _ Heq). destruct (fn u1) as [u1'| |err] eqn:Ef1, (fn u) as [u'| |err'] eqn:Ef; try done.
  - destruct (Hfn _ _ Hok1 ltac:(by rewrite Hb1) Ef1) as (Hok1' & Hid & Hw & Hki). assert (Huo : user_ok u) by apply Hrow.
    destruct (Hfn _ _ Huo ltac:(by rewrite (proj1 Hrow)) Ef) as (Hok' & _). rewrite Hb1 in Hid, Hw, Hki. cbn in Hid, Hw, Hki.
    assert (Hr1 : users s1 !! id = Some r) by (by rewrite Hus).
    destruct (update_rel _ _ _ _ _ _ _ _ _ _ Henv R1 Hr1 Hrow Hk Hb Hok1' Hid Hw Hki) as [(s2 & R2 & Hu2 & Hi2 & [[Hup He]|[Hup Hwm]])|(s2 & wm & Hwm & Hup & R2)].
    + rewrite (bind_throw _ _ _ _ _ Hup) in Eb. rewrite (withTx_throw _ _ _ _ Eb) by congruence. unserved. split; [done|]. by eapply rel_mono.
    + rewrite (bind_throw _ _ _ _ _ Hup) in Eb. rewrite (withTx_throw _ _ _ _ Eb) by congruence.
      assert (Hwm' : u_wrapMode u' = None) by (destruct Hfe as (_ & _ & _ & _ & _ & <- & _); done).
      eexists _, _. split; [apply Served; cbn [repo_do]; rewrite Ha, Ef, Hwm'; reflexivity|]. split; [done|]. by eapply rel_mono.
    + rewrite (bind_ok _ _ _ _ _ Hup) in Eb. rewrite (withTx_ok _ _ _ _ Eb).
      assert (Hwm' : u_wrapMode u' = Some wm) by (destruct Hfe as (_ & _ & _ & _ & _ & <- & _); done).
      eexists _, _. split; [apply Served; cbn [repo_do]; rewrite Ha, Ef, Hwm'; reflexivity|]. split; [done|].
      eapply rel_mono; [|done]. apply R2; [by symmetry|done].
  - rewrite (withTx_ok _ _ _ _ Eb). eexists _, _. split; [apply Served; cbn [repo_do]; rewrite Ha, Ef; reflexivity|]. split; [done|]. by eapply rel_mono.
  - cbn in Hfe. subst err'. rewrite (withTx_throw _ _ _ _ Eb Hus Hit).
    eexists _, _. split; [apply Served; cbn [repo_do]; rewrite Ha, Ef; reflexivity|]. split; [done|]. by eapply rel_mono.
Qed.

Lemma pg_do_simulates n seen s a e o :
  env_ok e → op_ok o → 0 <= n < MAX_INT4 → Forall (λ id, id ∉ seen) (new_ids o) → rel n seen s a → simulates e o n seen s a.
Proof.
  intros He Ho Hn Hf R. destruct o; cbn in Ho.
  - by apply sim_find.
  - by apply sim_find_email.
  - apply Forall_cons_iff in Hf as [Hf _]. by apply sim_insert.
  - by apply sim_update.
  - by apply sim_delete.
  - by apply sim_get.
  - by apply sim_set.
  - by apply sim_delete_res.
  - by apply sim_delete_data.
  - by apply sim_evict.
Qed.

Lemma pg_run_simulates ops n seen s a :
  Forall (λ eo, env_ok eo.1 ∧ op_ok eo.2) ops → 0 <= n → n + len ops <= MAX_INT4 →
  NoDup (concat (map (λ eo, new_ids eo.2) ops)) → (∀ id, id ∈ concat (map (λ eo, new_ids eo.2) ops) → id ∉ seen) → rel n seen s a →
  ∃ a' rs seen', repo_run ops a rs a' ∧ Forall2 (≡) (pg_run ops s).2 rs ∧ rel (n + len ops) seen' (pg_run ops s).1 a'.
Proof.
  intros Hall. revert n seen s a. induction Hall as [|[e o] ops [He Ho] _ IH]; intros n seen s a Hn Hl Hnd Hfr R.
  - exists a, [], seen. rewrite len_nil, Z.add_0_r. by split_and!; [constructor|constructor|].
  - rewrite len_cons in Hl |- *. cbn [map concat snd] in Hnd, Hfr. apply NoDup_app in Hnd as (Hnd1 & Hdis & Hnd2).
    assert (0 <= len ops) by (unfold len; lia).
    assert (Hs : simulates e o n seen s a).
    { apply pg_do_simulates; try done; [lia|]. apply Forall_forall. intros id Hid. apply Hfr. set_solver. }
    destruct Hs as (a1 & r & Hst & Hr & R1). destruct (IH (n + 1) (new_ids o ++ seen) (pg_do e o s).1 a1) as (a2 & rs & seen2 & Hrun & Hrs & R2).
    + lia.
    + lia.
    + done.
    + intros id Hid. specialize (Hfr id). specialize (Hdis id). set_solver.
    + done.
    + exists a2, (r :: rs), seen2. cbn [pg_run]. destruct (pg_do e o s) as [s1 r1]. cbn [fst snd] in *. destruct (pg_run ops s1) as [s2 rs2]. cbn [fst snd] in *.
      split_and!; [by econstructor|by constructor|]. by replace (n + (1 + len ops)) with (n + 1 + len ops) by lia.
Qed.
End sim.

(** ** Concrete instances *)

Module ToyPg.
Import ToyNode.
#[export] Instance node_bytes : NodeBytes.
Proof.
  split. intros k iv p Hk _ Hp. cbn [gcm_encrypt node fst snd]. split; [done|]. unfold tag. apply Bytes_take, Bytes_app. split; [done|apply Bytes_zeros].
Qed.
Definition master : bytes := replicate 32 7.
#[export] Instance kms : Kms := {| wrapDek := aes_wrapDek master (js "local-dev:v1"); unwrapDek := aes_unwrapDek master |}.
#[export] Instance kms_laws : KmsLaws := aes_kms_laws master (js "local-dev:v1").
#[export] Instance column : Jsonb := {| jsonb := Some |}.
#[export] Instance column_laws : JsonbLaws.
Proof. split; cbn; [by eexists|]. by intros v w Hj Hp [= <-]. Qed.

Definition env (now : Z) (k : Z) : Env := mkEnv now (replicate 32 k) (replicate 12 1) (λ _, replicate 12 2) true.
Definition env_down : Env := mkEnv 0 (replicate 32 1) (replicate 12 1) (λ _, replicate 12 2) false.

Lemma env_is_ok now k : 0 <= k < 256 → env_ok (env now k).
Proof.
  intros Hk. split_and!; [done|done|by apply Forall_replicate|]. intros id. split; [done|]. by apply (bool_decide_unpack _); vm_compute.
Qed.

(** A user as registration makes it, here with a recovery key. *)
Definition alice : User :=
  mkUser (js "a1") (js "hmac-a") (js "hash") None None None None (Some (Some (js "salt"))) None (Some 5)
    [(js "recoveryKeyHash", JStr (js "r")); (js "loginHints", JObj [(js "totp", JBool true)])].
Definition bob : User := mkUser (js "b1") (js "hmac-b") (js "hash") None None None None (Some None) None (Some 6) [].

Lemma alice_ok : user_ok alice.
Proof.
  split; [by apply (bool_decide_unpack _); vm_compute|]. repeat (apply Forall_cons; split; [split; by vm_compute|]). constructor.
Qed.

(** [u.passwordHash = hash] *)
Definition new_hash (u : User) : upd :=
  Changed (mkUser (u_id u) (u_emailHash u) (js "new") (u_wrappedDek u) (u_kmsKeyId u) (u_wrapMode u) (u_pwWrapSalt u) (u_cryptoSalt u)
    (u_status u) (u_createdAt u) (u_flex u)).

Lemma new_hash_ok id : fn_ok id new_hash.
Proof.
  split.
  - intros u v (E1 & E2 & E3 & E4 & E5 & E6 & E7 & E8 & E9 & E10 & Ef). by repeat split.
  - intros u u' Hu Hid [= <-]. done.
Qed.

Definition session : list (Env * op) :=
  [(env 1 1, Insert alice); (env 2 2, SetRes (js "a1") (js "folders") (JArr [])); (env 3 3, Evict (js "a1"));
   (env_down, FindId (js "a1")); (env 4 4, Update (js "a1") new_hash); (env 5 5, GetRes (js "a1") (js "folders"));
   (env 6 6, FindEmail (js "hmac-a"))].

(** The answers, evaluated: the creation time is that of the database. *)
Example session_answers : (pg_run session empty_pg).2 =
  let u := mkUser (js "a1") (js "hmac-a") (js "new") (Some (seal master (replicate 12 1) (replicate 32 1))) (Some (js "local-dev:v1")) (Some (js "kms"))
             (Some None) (Some (Some (js "salt"))) (Some (js "active")) (Some 1)
             [(js "loginHints", JObj [(js "totp", JBool true)]); (js "recoveryKeyHash", JStr (js "r"))] in
  [AId (js "a1"); ADone; ADone; AErr KmsError; AWritten (Some true); AValue (JArr []); AUser (Some u)].
Proof. by vm_compute. Qed.

(** A user deleted and registered again under the same id within the life of a cached key
    is encrypted with the old key and can not be read once that key is gone. *)
Example reused_id_unreadable : (pg_run [(env 1 1, Insert alice); (env 2 2, DeleteUser (js "a1")); (env 3 3, Insert alice); (env 4 4, Evict (js "a1"));
    (env 5 5, FindId (js "a1"))] empty_pg).2 = [AId (js "a1"); ADone; AId (js "a1"); ADone; AErr DecryptError].
Proof. by vm_compute. Qed.
End ToyPg.

Module PgSpec.
(** C23: every sequence of operations on a fresh PostgreSQL repository, cache evictions
    included, answers as a map of users and a map of resources do (values up to the order
    of properties), except that an operation may fail without effect while the key
    management is down; no id is registered twice, and a row is written fewer than 2^31 times. *)
Theorem pg_refines `{NodeCrypto} `{!NodeCryptoLaws} `{!NodeBytes} `{JsFloat} `{Kms} `{!KmsLaws} `{Jsonb} `{!JsonbLaws} ops :
  Forall (λ eo, env_ok eo.1 ∧ op_ok eo.2) ops → len ops <= MAX_INT4 → NoDup (concat (map (λ eo, new_ids eo.2) ops)) →
  ∃ a rs, repo_run ops empty_repo rs a ∧ Forall2 (≡) (pg_run ops empty_pg).2 rs.
Proof.
  intros Hok Hl Hn. destruct (pg_run_simulates ops 0 [] empty_pg empty_repo) as (a & rs & _ & Hrun & Hrs & _); try done.
  - set_solver.
  - split; cbn; try done; [intros; constructor|intros; constructor|]. intros id [[]|[]]; done.
  - eauto.
Qed.

Import ToyNode ToyPg.

Lemma pg_refines_witness : ∃ a rs, repo_run ToyPg.session empty_repo rs a ∧ Forall2 (≡) (pg_run ToyPg.session empty_pg).2 rs.
Proof.
  apply (pg_refines ToyPg.session).
  - repeat (apply Forall_cons; split; [split; [first [by apply ToyPg.env_is_ok|split_and!; [done|done| |intros id; split; [done|]]; by apply (bool_decide_unpack _); vm_compute]|]|]).
    all: first [done|apply ToyPg.alice_ok|apply ToyPg.new_hash_ok|constructor].
  - by vm_compute.
  - by apply (bool_decide_unpack _); vm_compute.
Defined.
End PgSpec.
