(* ===== verification/DualWrite.v ===== *)
(** * Writing to two back ends ([web/lib/dualWriteVaultRepository.js])

    [Repository] is the interface every back end offers to the routes; the
    PostgreSQL repository is an instance, and the dual one is built from any two. *)
From S2P Require Import Prelude JsRuntime JsText Json JsonSpec JsObject Base64 FileCrypto Kms PgRepository PgRepositorySpec PgSimulation.

(** ** The interface *)

Definition Op (S A : Type) : Type := Env → S → S * result PgErr A.

Class Repository (S : Type) := {
  r_findUserByEmailHash : jsstr → Op S (option User);
  r_findUserById : jsstr → Op S (option User);
  r_insertUser : User → Op S jsstr;
  r_updateUserById : jsstr → (User → upd) → Op S (option bool);
  r_deleteUserById : jsstr → Op S unit;
  r_loadSessions : jsstr → Op S json;
  r_saveSessions : jsstr → json → Op S unit;
  r_getResource : jsstr → jsstr → Op S json;
  r_setResource : jsstr → jsstr → json → Op S unit;
  r_deleteResource : jsstr → jsstr → Op S unit;
  r_deleteUserData : jsstr → Op S unit;
  r_withUserTransaction : (list User → option (list User)) → Op S bool;
}.

Definition pg_repository `{NodeCrypto} `{JsFloat} `{Kms} `{Jsonb} : Repository Pg := {|
  r_findUserByEmailHash h e := findUserByEmailHash e h;
  r_findUserById id e := findUserById e id;
  r_insertUser u e := insertUser e u;
  r_updateUserById id fn e := updateUserById e id fn;
  r_deleteUserById id e := deleteUserById id;
  r_loadSessions uid e := loadSessions e uid;
  r_saveSessions uid l e := saveSessions e uid l;
  r_getResource uid name e := getResource e uid name;
  r_setResource uid name v e := setResource e uid name v;
  r_deleteResource uid name e := deleteResource uid name;
  r_deleteUserData uid e := deleteUserData uid;
  r_withUserTransaction fn e := withUserTransaction e fn |}.
#[export] Existing Instance pg_repository.

(** ** The dual repository *)

(** The callback of the mirrored update: every property of [updated] but the two the
    secondary owns is assigned to its user. *)
Definition copy_fields (updated u : User) : upd :=
  let keep {A} (new old : option A) := match new with Some x => Some x | None => old end in
  Changed (mkUser (u_id updated) (u_emailHash updated) (u_passwordHash updated) (u_wrappedDek u) (u_kmsKeyId u)
    (keep (u_wrapMode updated) (u_wrapMode u)) (keep (u_pwWrapSalt updated) (u_pwWrapSalt u))
    (keep (u_cryptoSalt updated) (u_cryptoSalt u)) (keep (u_status updated) (u_status u)) (keep (u_createdAt updated) (u_createdAt u))
    (spread (u_flex u) (u_flex updated))).

Section dual.
Context {A B : Type} `{RA : Repository A} `{RB : Repository B}.

(** [_mirror]: what the secondary throws is logged and forgotten. *)
Definition mirror {X} (e : Env) (o : Op B X) (b : B) : B := (o e b).1.

(** A write goes to the primary and, when that returned, to the mirror. *)
Definition dual_write {X Y} (o : Op A X) (o' : Op B Y) (e e' : Env) (s : A * B) : (A * B) * result PgErr X :=
  match o e s.1 with
  | (a, Ok x) => ((a, mirror e' o' s.2), Ok x)
  | (a, Throw err) => ((a, s.2), Throw err)
  end.

Definition dual_read {X} (o : Op A X) (e : Env) (s : A * B) : (A * B) * result PgErr X :=
  let '(a, r) := o e s.1 in ((a, s.2), r).

(** The mirrored update reads the user of the primary again. *)
Definition dual_update (id : jsstr) (fn : User → upd) (e e' : Env) (s : A * B) : (A * B) * result PgErr (option bool) :=
  match r_updateUserById id fn e s.1 with
  | (a, Throw err) => ((a, s.2), Throw err)
  | (a, Ok x) =>
      let '(a, found) := r_findUserById id e a in
      ((a, match found with
           | Ok (Some updated) => mirror e' (r_updateUserById id (copy_fields updated)) s.2
           | _ => s.2
           end), Ok x)
  end.
End dual.

(** ** Calls *)

Inductive call :=
| CFindEmail (h : jsstr) | CFindId (id : jsstr) | CInsert (u : User) | CUpdate (id : jsstr) (fn : User → upd) | CDeleteUser (id : jsstr)
| CLoad (uid : jsstr) | CSave (uid : jsstr) (l : json) | CGet (uid name : jsstr) | CSet (uid name : jsstr) (v : json)
| CDelete (uid name : jsstr) | CDeleteData (uid : jsstr) | CTransaction (fn : list User → option (list User)).

Inductive reply :=
| RUser (o : option User) | RId (id : jsstr) | RWritten (o : option bool) | RValue (v : json) | RUnit | RBool (b : bool) | RErr (e : PgErr).

Definition rep {S X} (f : X → reply) (r : S * result PgErr X) : S * reply :=
  (r.1, match r.2 with Ok x => f x | Throw e => RErr e end).

Definition single {S} `{Repository S} (c : call) (e : Env) (s : S) : S * reply :=
  match c with
  | CFindEmail h => rep RUser (r_findUserByEmailHash h e s)
  | CFindId id => rep RUser (r_findUserById id e s)
  | CInsert u => rep RId (r_insertUser u e s)
  | CUpdate id fn => rep RWritten (r_updateUserById id fn e s)
  | CDeleteUser id => rep (λ _, RUnit) (r_deleteUserById id e s)
  | CLoad uid => rep RValue (r_loadSessions uid e s)
  | CSave uid l => rep (λ _, RUnit) (r_saveSessions uid l e s)
  | CGet uid name => rep RValue (r_getResource uid name e s)
  | CSet uid name v => rep (λ _, RUnit) (r_setResource uid name v e s)
  | CDelete uid name => rep (λ _, RUnit) (r_deleteResource uid name e s)
  | CDeleteData uid => rep (λ _, RUnit) (r_deleteUserData uid e s)
  | CTransaction fn => rep RBool (r_withUserTransaction fn e s)
  end.

(** The methods of [DualWriteVaultRepository]. *)
Definition dual {A B} `{Repository A} `{Repository B} (c : call) (e e' : Env) (s : A * B) : (A * B) * reply :=
  match c with
  | CFindEmail h => rep RUser (dual_read (r_findUserByEmailHash h) e s)
  | CFindId id => rep RUser (dual_read (r_findUserById id) e s)
  | CInsert u => rep RId (dual_write (r_insertUser u) (r_insertUser u) e e' s)
  | CUpdate id fn => rep RWritten (dual_update id fn e e' s)
  | CDeleteUser id => rep (λ _, RUnit) (dual_write (r_deleteUserById id) (r_deleteUserById id) e e' s)
  | CLoad uid => rep RValue (dual_read (r_loadSessions uid) e s)
  | CSave uid l => rep (λ _, RUnit) (dual_write (r_saveSessions uid l) (r_saveSessions uid l) e e' s)
  | CGet uid name => rep RValue (dual_read (r_getResource uid name) e s)
  | CSet uid name v => rep (λ _, RUnit) (dual_write (r_setResource uid name v) (r_setResource uid name v) e e' s)
  | CDelete uid name => rep (λ _, RUnit) (dual_write (r_deleteResource uid name) (r_deleteResource uid name) e e' s)
  | CDeleteData uid => rep (λ _, RUnit) (dual_write (r_deleteUserData uid) (r_deleteUserData uid) e e' s)
  | CTransaction fn => rep RBool (dual_read (r_withUserTransaction fn) e s)
  end.

Fixpoint single_run {S} `{Repository S} (cs : list (call * Env * Env)) (s : S) : S * list reply :=
  match cs with
  | [] => (s, [])
  | (c, e, _) :: cs => let '(s, r) := single c e s in let '(s, rs) := single_run cs s in (s, r :: rs)
  end.

Fixpoint dual_run {A B} `{Repository A} `{Repository B} (cs : list (call * Env * Env)) (s : A * B) : (A * B) * list reply :=
  match cs with
  | [] => (s, [])
  | (c, e, e') :: cs => let '(s, r) := dual c e e' s in let '(s, rs) := dual_run cs s in (s, r :: rs)
  end.

(** ** The file repository, on what its files hold *)

Record FileRepo := mkFileRepo { f_users : list User; f_res : gmap (jsstr * jsstr) json }.

Definition has_id (id : jsstr) (u : User) : bool := str_eqb (u_id u) id.
Definition user_of (id : jsstr) (f : FileRepo) : option User := List.find (has_id id) (f_users f).
Definition set_f_users (f : FileRepo) (us : list User) : FileRepo := mkFileRepo us (f_res f).

Definition file_repository : Repository FileRepo := {|
  r_findUserByEmailHash h _ f := (f, Ok (List.find (λ u, str_eqb (u_emailHash u) h) (f_users f)));
  r_findUserById id _ f := (f, Ok (user_of id f));
  r_insertUser u _ f :=
    if existsb (λ v, str_eqb (u_emailHash v) (u_emailHash u)) (f_users f) then (f, Throw UserExists)
    else (set_f_users f (f_users f ++ [u]), Ok (u_id u));
  r_updateUserById id fn _ f :=
    match user_of id f with
    | None => (f, Ok None)
    | Some u => match fn u with
                | Unchanged => (f, Ok (Some false))
                | Threw err => (f, Throw (CallbackError err))
                | Changed u' => (set_f_users f (update_first (has_id id) (λ _, u') (f_users f)), Ok (Some true))
                end
    end;
  r_deleteUserById id _ f := (set_f_users f (remove_first (has_id id) (f_users f)), Ok tt);
  r_loadSessions uid _ f := (f, Ok (default (JArr []) (f_res f !! (uid, js "sessions"))));
  r_saveSessions uid l _ f := (mkFileRepo (f_users f) (<[(uid, js "sessions") := l]> (f_res f)), Ok tt);
  r_getResource uid name _ f := (f, Ok (default JNull (f_res f !! (uid, name))));
  r_setResource uid name v _ f := (mkFileRepo (f_users f) (<[(uid, name) := v]> (f_res f)), Ok tt);
  r_deleteResource uid name _ f := (mkFileRepo (f_users f) (delete (uid, name) (f_res f)), Ok tt);
  r_deleteUserData uid _ f := (mkFileRepo (f_users f) (filter (λ kv, kv.1.1 ≠ uid) (f_res f)), Ok tt);
  r_withUserTransaction fn _ f := match fn (f_users f) with None => (f, Ok false) | Some us => (set_f_users f us, Ok true) end |}.
#[export] Existing Instance file_repository.

(** ** The primary decides *)

(** A repository whose look-up by id leaves its state alone. *)
Class PureFind (S : Type) `{Repository S} := find_pure id e (s : S) : (r_findUserById id e s).1 = s.

#[export] Instance file_pure : PureFind FileRepo.
Proof. by intros id e s. Qed.

Section follows.
Context {A B : Type} `{RA : Repository A} `{!PureFind A} `{RB : Repository B}.

Lemma dual_step_primary c e e' (s : A * B) :
  (dual c e e' s).1.1 = (single c e s.1).1 ∧ (dual c e e' s).2 = (single c e s.1).2.
Proof.
  destruct s as [a b]. destruct c; cbn [dual single]; unfold dual_read, dual_write, dual_update, rep; cbn [fst snd];
    try (match goal with |- context [?m e a] => by destruct (m e a) as [a' [x|err]] end).
  destruct (r_updateUserById id fn e a) as [a' [x|err]] eqn:E; [|done]. cbn.
  assert (Hp := find_pure id e a'). destruct (r_findUserById id e a') as [a'' found]. cbn in Hp. by subst.
Qed.

Lemma dual_run_primary cs (s : A * B) :
  (dual_run cs s).1.1 = (single_run cs s.1).1 ∧ (dual_run cs s).2 = (single_run cs s.1).2.
Proof.
  revert s. induction cs as [|[[c e] e'] cs IH]; intros s; [done|]. cbn [dual_run single_run].
  destruct (dual_step_primary c e e' s) as [Ha Hr]. destruct (dual c e e' s) as [s1 r], (single c e s.1) as [a1 r']. cbn [fst snd] in *. subst.
  destruct (IH s1) as [Ha Hr]. destruct (dual_run cs s1) as [s2 rs], (single_run cs s1.1) as [a2 rs']. cbn [fst snd] in *. by subst.
Qed.
End follows.

Module DualSpec.
(** Whatever the mirror does, and also when each of its writes fails, the primary of the
    dual repository ends as it would alone and every call is answered as the primary
    answers it; the pair has the same answers for every other mirror. *)
Theorem dual_follows_primary {A B C} `{RA : Repository A} `{!PureFind A} `{RB : Repository B} `{RC : Repository C} cs (a : A) (b : B) (c : C) :
  (dual_run cs (a, b)).1.1 = (single_run cs a).1 ∧ (dual_run cs (a, b)).2 = (single_run cs a).2 ∧
  (dual_run cs (a, c)).2 = (dual_run cs (a, b)).2.
Proof.
  destruct (dual_run_primary cs (a, b)) as [H1 H2], (dual_run_primary cs (a, c)) as [_ H3]. cbn [fst snd] in *.
  by rewrite H1, H2, H3.
Qed.
End DualSpec.

(** * What the mirror of the dual repository holds

    The primary is the file repository, the mirror PostgreSQL.  [mirrors] relates the
    two: every user of the primary is in the mirror with all its fields, and their
    resources are the same. *)

(** ** Users *)

Definition agrees {A} (new old : option A) : Prop := ∀ x, new = Some x → old = Some x.

(** The mirror's user [v] has every field of the primary's user [u]. *)
Definition covers (u v : User) : Prop :=
  u_id v = u_id u ∧ u_emailHash v = u_emailHash u ∧ u_passwordHash v = u_passwordHash u ∧
  agrees (u_wrapMode u) (u_wrapMode v) ∧ agrees (u_pwWrapSalt u) (u_pwWrapSalt v) ∧ agrees (u_cryptoSalt u) (u_cryptoSalt v) ∧
  agrees (u_status u) (u_status v) ∧ ∀ k x, lookup_key k (u_flex u) = Some x → lookup_key k (u_flex v) ≡ Some x.

Section mirror.
Context `{NodeCrypto} `{!NodeCryptoLaws} `{!NodeBytes} `{JsFloat} `{Kms} `{!KmsLaws} `{Jsonb} `{!JsonbLaws}.

(** Users as the routes make them: the fields PostgreSQL owns are not set. *)
Definition plain_user (u : User) : Prop :=
  user_ok u ∧ u_wrapMode u = None ∧ u_pwWrapSalt u = None ∧ u_status u = None.

(** Callbacks of the routes. *)
Definition route_fn (id : jsstr) (fn : User → upd) : Prop :=
  ∀ u u', plain_user u → u_id u = id → fn u = Changed u' → plain_user u' ∧ u_id u' = id ∧ u_emailHash u' = u_emailHash u.

(** The key management answers. *)
Definition up (e : Env) : Prop := env_ok e ∧ e_kms e = true ∧ is_Some (wrapDek (e_nonce e) (e_dek e)).

Definition call_ok (seen : list jsstr) (c : call) : Prop :=
  match c with
  | CInsert u => plain_user u ∧ u_id u ∉ seen
  | CUpdate id fn => route_fn id fn
  | CSave uid v | CSet uid _ v => json_ok v = true ∧ uid ∈ seen
  | CTransaction fn => ∀ us, fn us = None
  | CDeleteData _ => False
  | _ => True
  end.

Definition call_ids (c : call) : list jsstr := match c with CInsert u => [u_id u] | _ => [] end.

Record mirrors (seen : list jsstr) (f : FileRepo) (a : Repo) : Prop := {
  mi_seen id : id ∉ seen → user_of id f = None ∧ ∀ name, f_res f !! (id, name) = None ∧ a_res a !! (id, name) = None;
  mi_users id : match user_of id f, a_users a !! id with Some u, Some v => covers u v | None, None => True | _, _ => False end;
  mi_res id name : is_Some (user_of id f) → f_res f !! (id, name) = a_res a !! (id, name);
  mi_plain : Forall plain_user (f_users f);
  mi_ids : NoDup (map u_id (f_users f))
}.

(** ** Lists of users *)

Lemma user_of_In id f u : user_of id f = Some u → u ∈ f_users f ∧ u_id u = id.
Proof. intros Hf. apply find_some in Hf as [Hi Hp]. unfold has_id in Hp. apply str_eqb_eq in Hp. by rewrite list_elem_of_In. Qed.

Lemma user_of_elem id f u : NoDup (map u_id (f_users f)) → u ∈ f_users f → u_id u = id → user_of id f = Some u.
Proof.
  unfold user_of. induction (f_users f) as [|v us IH]; cbn; intros Hn Hin Hid; [set_solver|]. apply NoDup_cons in Hn as [Hv Hn].
  unfold has_id at 1. apply elem_of_cons in Hin as [->|Hin].
  - by rewrite (proj2 (str_eqb_eq _ _)).
  - destruct (str_eqb (u_id v) id) eqn:E; [|by apply IH]. apply str_eqb_eq in E. exfalso. apply Hv. rewrite E, <- Hid.
    apply list_elem_of_fmap. eauto.
Qed.

Lemma find_app_new id us u : u_id u ∉ map u_id us →
  List.find (has_id id) (us ++ [u]) = if str_eqb (u_id u) id then Some u else List.find (has_id id) us.
Proof.
  induction us as [|v us IH]; cbn; intros Hn; [by unfold has_id; destruct (str_eqb _ _)|]. apply not_elem_of_cons in Hn as [Hv Hn].
  unfold has_id at 1 3. destruct (str_eqb (u_id v) id) eqn:E; [|by apply IH]. destruct (str_eqb (u_id u) id) eqn:E'; [|done].
  apply str_eqb_eq in E, E'. congruence.
Qed.

Lemma find_updated id id' u' us : u_id u' = id →
  List.find (has_id id') (update_first (has_id id) (λ _, u') us) =
  if str_eqb id id' then (match List.find (has_id id) us with Some _ => Some u' | None => None end) else List.find (has_id id') us.
Proof.
  intros Hid. induction us as [|v us IH]; cbn; [by destruct (str_eqb id id')|]. destruct (has_id id v) eqn:Ev; cbn.
  - destruct (str_eqb id id') eqn:E.
    + apply str_eqb_eq in E as <-. unfold has_id. by rewrite (proj2 (str_eqb_eq _ _)).
    + unfold has_id. rewrite Hid, E. unfold has_id in Ev. apply str_eqb_eq in Ev. by rewrite Ev, E.
  - rewrite IH. destruct (str_eqb id id') eqn:E; [|done]. apply str_eqb_eq in E as <-. by rewrite Ev.
Qed.

Lemma ids_update id u' us : u_id u' = id → map u_id (update_first (has_id id) (λ _, u') us) = map u_id us.
Proof.
  intros Hid. induction us as [|v us IH]; cbn; [done|]. destruct (has_id id v) eqn:E; cbn; [|by rewrite IH].
  unfold has_id in E. apply str_eqb_eq in E. congruence.
Qed.

Lemma find_remove id id' us : NoDup (map u_id us) →
  List.find (has_id id') (remove_first (has_id id) us) = if str_eqb id id' then None else List.find (has_id id') us.
Proof.
  induction us as [|v us IH]; cbn; intros Hn; [by destruct (str_eqb id id')|]. apply NoDup_cons in Hn as [Hv Hn].
  destruct (has_id id v) eqn:Ev; cbn.
  - unfold has_id in Ev. apply str_eqb_eq in Ev. destruct (str_eqb id id') eqn:E.
    + apply str_eqb_eq in E as <-. destruct (List.find (has_id id) us) as [u|] eqn:Ef; [|done]. exfalso. apply Hv.
      apply find_some in Ef as [Hi Hp]. unfold has_id in Hp. apply str_eqb_eq in Hp. rewrite Ev, <- Hp. apply list_elem_of_fmap.
      exists u. by rewrite list_elem_of_In.
    + unfold has_id. by rewrite Ev, E.
  - rewrite IH by done. destruct (str_eqb id id') eqn:E; [|done]. apply str_eqb_eq in E as <-. by rewrite Ev.
Qed.

Lemma remove_subset {X} (p : X → bool) l x : x ∈ remove_first p l → x ∈ l.
Proof. induction l as [|y l IH]; cbn; [done|]. destruct (p y); set_solver. Qed.

Lemma ids_remove id us : NoDup (map u_id us) → NoDup (map u_id (remove_first (has_id id) us)).
Proof.
  induction us as [|v us IH]; cbn; [done|]. intros [Hv Hn]%NoDup_cons. destruct (has_id id v); cbn; [done|]. constructor; [|by apply IH].
  intros Hin. apply Hv. apply list_elem_of_fmap in Hin as (u & -> & Hin). apply list_elem_of_fmap. exists u. split; [done|].
  by eapply remove_subset.
Qed.

(** ** One call *)

#[local] Arguments user_of : simpl never.

Lemma covers_equiv u v w : covers u v → w ≡ v → covers u w.
Proof.
  intros (H1' & H2' & H3' & H4' & H5' & H6' & H7' & Hf) (E1 & E2 & E3 & _ & _ & E4 & E5 & E6 & E7 & _ & Ef). unfold covers.
  rewrite E1, E2, E3, E4, E5, E6, E7. split_and!; try done. intros k x Hk. rewrite (Ef k). by apply Hf.
Qed.

Lemma mirrors_mono seen seen' f a : mirrors seen f a → seen ⊆ seen' → mirrors seen' f a.
Proof. intros [Hs Hu Hr Hp Hn] Hsub. split; try done. intros id Hid. apply Hs. set_solver. Qed.

Lemma served n seen s a e o : up e → simulates e o n seen s a → rel (n + 1) (new_ids o ++ seen) (pg_do e o s).1 (repo_do e o a).1.
Proof.
  intros (_ & Hk & Hw) (a' & r & Hst & _ & R). destruct Hst as [a' r Hd|[He|He]]; [|congruence|rewrite He in Hw; by inv Hw].
  rewrite Hd. exact R.
Qed.

Lemma props_ok_spread l l' : props_ok l → props_ok l' → props_ok (spread l l').
Proof. intros [Hn Hf] [_ Hf']. split; [by apply spread_NoDup|by apply spread_Forall]. Qed.

Lemma copy_ok updated : user_ok updated → fn_ok (u_id updated) (copy_fields updated).
Proof.
  intros Hu. split.
  - intros v w (E1 & E2 & E3 & E4 & E5 & E6 & E7 & E8 & E9 & E10 & Ef). unfold copy_fields. cbn. rewrite E4, E5, E6, E7, E8, E9, E10.
    repeat split; try done. cbn. intros k. rewrite !lookup_spread by apply Hu. destruct (lookup_key k (u_flex updated)); [done|]. apply Ef.
  - intros u u' Hok Hid [= <-]. cbn. split_and!; try done. by apply props_ok_spread.
Qed.

(** The mirrored update brings the user of the mirror up to date. *)
Lemma copy_covers v updated wm :
  plain_user updated → u_id v = u_id updated → u_emailHash v = u_emailHash updated → u_wrapMode v = Some wm →
  ∃ v', copy_fields updated v = Changed v' ∧ u_wrapMode v' = Some wm ∧ covers updated (rewritten v v' wm).
Proof.
  intros ((Hn & _) & Hw & Hs & Hst) Hid He Hwm. eexists. split; [reflexivity|]. cbn [u_wrapMode]. rewrite Hw. split; [done|].
  unfold covers, agrees. cbn. rewrite Hw, Hs, Hst. split_and!; try done.
  - by intros x ->.
  - intros k x Hk. rewrite lookup_spread by done. by rewrite Hk.
Qed.

Lemma mirrors_insert seen f a u e w k :
  mirrors seen f a → plain_user u → u_id u ∉ seen →
  mirrors (u_id u :: seen) (set_f_users f (f_users f ++ [u])) (mkRepo (<[u_id u := stored e u w k]> (a_users a)) (a_res a)).
Proof.
  intros [Hs Hu Hr Hp Hn] Hpl Hfr. destruct (Hs _ Hfr) as [Hnone Hnores].
  assert (Hnid : u_id u ∉ map u_id (f_users f)).
  { intros Hin. apply list_elem_of_fmap in Hin as (v & E & Hin). symmetry in E. by rewrite (user_of_elem _ f v Hn Hin E) in Hnone. }
  assert (Hof : ∀ id, user_of id (mkFileRepo (f_users f ++ [u]) (f_res f)) = if str_eqb (u_id u) id then Some u else user_of id f)
    by (intros id; unfold user_of; cbn; by apply find_app_new).
  split; cbn.
  - intros id [Hid Hid']%not_elem_of_cons. rewrite Hof. destruct (str_eqb (u_id u) id) eqn:E; [by apply str_eqb_eq in E|]. by apply Hs.
  - intros id. rewrite Hof. destruct (str_eqb (u_id u) id) eqn:E.
    + apply str_eqb_eq in E as <-. rewrite lookup_insert_eq. destruct Hpl as (_ & Hw & Hps & Hst). unfold covers, agrees. cbn.
      rewrite Hw, Hps, Hst. split_and!; try done; [by intros x ->|]. by intros k' x ->.
    + rewrite lookup_insert_ne by (intros <-; unfold str_eqb in E; by rewrite bool_decide_true in E). apply Hu.
  - intros id name. rewrite Hof. destruct (str_eqb (u_id u) id) eqn:E; [|apply Hr]. apply str_eqb_eq in E as <-. intros _.
    destruct (Hnores name) as [-> ->]. done.
  - apply Forall_app. split; [done|]. by apply Forall_cons; split; [|constructor].
  - rewrite map_app. cbn. apply NoDup_app. split_and!; [done|set_solver|]. constructor; [set_solver|constructor].
Qed.

Lemma mirrors_update seen f a id u v upd wm v' :
  mirrors seen f a → user_of id f = Some u → a_users a !! id = Some v → plain_user upd → u_id upd = id →
  covers upd (rewritten v v' wm) →
  mirrors seen (set_f_users f (update_first (has_id id) (λ _, upd) (f_users f))) (mkRepo (<[id := rewritten v v' wm]> (a_users a)) (a_res a)).
Proof.
  intros [Hs Hu Hr Hp Hn] Hf Ha Hpl Hid Hc.
  assert (Hof : ∀ id', user_of id' (mkFileRepo (update_first (has_id id) (λ _, upd) (f_users f)) (f_res f)) = if str_eqb id id' then Some upd else user_of id' f).
  { intros id'. unfold user_of. cbn. rewrite find_updated by done. unfold user_of in Hf. by rewrite Hf. }
  split; cbn.
  - intros id' Hid'. rewrite Hof. destruct (str_eqb id id') eqn:E; [|by apply Hs]. apply str_eqb_eq in E as <-.
    destruct (Hs id Hid') as [E _]. congruence.
  - intros id'. rewrite Hof. destruct (str_eqb id id') eqn:E.
    + apply str_eqb_eq in E as <-. by rewrite lookup_insert_eq.
    + rewrite lookup_insert_ne by (intros <-; unfold str_eqb in E; by rewrite bool_decide_true in E). apply Hu.
  - intros id' name. rewrite Hof. destruct (str_eqb id id') eqn:E; [|apply Hr]. apply str_eqb_eq in E as <-. intros _. apply Hr. by rewrite Hf.
  - clear -Hp Hpl. induction Hp as [|x l Hx Hp IH]; cbn; [constructor|]. destruct (has_id id x); by constructor.
  - by rewrite ids_update.
Qed.

Lemma mirrors_delete seen f a id :
  mirrors seen f a → mirrors seen (set_f_users f (remove_first (has_id id) (f_users f))) (drop_user id a).
Proof.
  intros [Hs Hu Hr Hp Hn].
  assert (Hof : ∀ id', user_of id' (mkFileRepo (remove_first (has_id id) (f_users f)) (f_res f)) = if str_eqb id id' then None else user_of id' f)
    by (intros id'; unfold user_of; cbn; by rewrite find_remove).
  split; cbn.
  - intros id' Hid'. destruct (Hs id' Hid') as [Hno Hres]. rewrite Hof, Hno. split; [by destruct (str_eqb id id')|]. intros name.
    destruct (Hres name) as [-> Ha]. split; [done|]. rewrite map_lookup_filter, Ha. done.
  - intros id'. rewrite Hof. destruct (str_eqb id id') eqn:E.
    + apply str_eqb_eq in E as <-. by rewrite lookup_delete_eq.
    + rewrite lookup_delete_ne by (intros <-; unfold str_eqb in E; by rewrite bool_decide_true in E). apply Hu.
  - intros id' name. rewrite Hof. destruct (str_eqb id id') eqn:E; [by intros []|]. intros Hsome. rewrite map_lookup_filter, (Hr id' name Hsome).
    destruct (a_res a !! (id', name)); [|done]. cbn. rewrite option_guard_True; [done|]. cbn. intros ->. unfold str_eqb in E. by rewrite bool_decide_true in E.
  - rewrite Forall_forall in *. intros x Hx. apply Hp. by eapply remove_subset.
  - by apply ids_remove.
Qed.

Lemma mirrors_set seen f a uid name v :
  mirrors seen f a → uid ∈ seen →
  mirrors seen (mkFileRepo (f_users f) (<[(uid, name) := v]> (f_res f)))
    (match a_users a !! uid with None => a | Some _ => mkRepo (a_users a) (<[(uid, name) := v]> (a_res a)) end).
Proof.
  intros [Hs Hu Hr Hp Hn] Hin. assert (Hau := Hu uid). destruct (a_users a !! uid) as [av|] eqn:Ea.
  - split; try done; cbn.
    + intros id Hid. destruct (Hs id Hid) as [Hno Hres]. split; [done|]. intros name'. by rewrite !lookup_insert_ne by (intros [= -> ->]; done).
    + intros id name' Hsome. destruct (decide ((id, name') = (uid, name))) as [->|]; [by rewrite !lookup_insert_eq|].
      rewrite !lookup_insert_ne by congruence. by apply Hr.
  - split; try done; cbn.
    + intros id Hid. destruct (Hs id Hid) as [Hno Hres]. split; [done|]. intros name'. by rewrite !lookup_insert_ne by (intros [= -> ->]; done).
    + intros id name' Hsome. destruct (decide (id = uid)) as [->|].
      { change (user_of uid _) with (user_of uid f) in Hsome. destruct (user_of uid f); [done|by destruct Hsome]. }
      rewrite !lookup_insert_ne by congruence. by apply Hr.
Qed.

Lemma served_op n seen s a e o :
  up e → op_ok o → 0 <= n < MAX_INT4 → Forall (λ id, id ∉ seen) (new_ids o) → rel n seen s a →
  rel (n + 1) (new_ids o ++ seen) (pg_do e o s).1 (repo_do e o a).1.
Proof. intros Hup Ho Hn Hf R. apply served; [done|]. by apply pg_do_simulates; [apply Hup|..]. Qed.

(** What one call of the dual repository leaves. *)
Definition step_ok (seen : list jsstr) (n : Z) (c : call) (e e' : Env) (f : FileRepo) (s : Pg) : Prop :=
  let r := (dual c e e' (f, s)).1 in
  ∃ a', rel (n + 1) (call_ids c ++ seen) r.2 a' ∧ mirrors (call_ids c ++ seen) r.1 a'.

Section step.
Context (seen : list jsstr) (n : Z) (e e' : Env) (f : FileRepo) (s : Pg) (a : Repo).
Hypothesis (Hup : up e') (Hn : 0 <= n < MAX_INT4) (R : rel n seen s a) (M : mirrors seen f a).

Lemma step_unchanged : ∃ a', rel (n + 1) seen s a' ∧ mirrors seen f a'.
Proof. exists a. split; [by eapply rel_mono|done]. Qed.

Lemma step_insert u : plain_user u → u_id u ∉ seen → step_ok seen n (CInsert u) e e' f s.
Proof.
  intros Hpl Hfr. unfold step_ok. cbn [dual call_ids Datatypes.app]. unfold rep, dual_write. cbn [r_insertUser file_repository fst snd].
  destruct (existsb _ _) eqn:Ex; cbn [fst snd].
  - exists a. split; [eapply rel_mono; [exact R|set_solver]|]. eapply mirrors_mono; [exact M|set_solver].
  - assert (R' := served_op n seen s a e' (Insert u) Hup (proj1 Hpl) Hn ltac:(apply Forall_cons; split; [done|constructor]) R).
    destruct (Hup) as (_ & _ & [[w k] Hw]). cbn [repo_do] in R'. destruct (mi_seen _ _ _ M _ Hfr) as [Hnone _].
    assert (Hu := mi_users _ _ _ M (u_id u)). rewrite Hnone in Hu. destruct (a_users a !! u_id u) eqn:Ea; [done|].
    rewrite (bool_decide_false (is_Some (None : option User))) in R' by (by intros []). cbn [orb] in R'.
    assert (He : user_by_email (u_emailHash u) (a_users a) = None).
    { unfold user_by_email. destruct (List.find _ _) as [[id v]|] eqn:Ef; [|done]. exfalso. apply find_some in Ef as [Hi Hp].
      apply list_elem_of_In, elem_of_map_to_list in Hi. cbn in Hp. apply str_eqb_eq in Hp. assert (Hv := mi_users _ _ _ M id).
      rewrite Hi in Hv. destruct (user_of id f) as [u0|] eqn:Eu; [|done]. apply user_of_In in Eu as [Hin _].
      destruct Hv as (_ & Hem & _). apply not_true_iff_false in Ex. apply Ex. apply existsb_exists. exists u0.
      rewrite <- list_elem_of_In. split; [done|]. apply str_eqb_eq. congruence. }
    rewrite He in R'. rewrite (bool_decide_false (is_Some (None : option (jsstr * User)))) in R' by (by intros []).
    rewrite Hw in R'. cbn [fst] in R'. eexists. split; [exact R'|]. by apply mirrors_insert.
Qed.

(** Both with a change and without one the user of the primary is copied. *)
Lemma step_copy id u upd f' :
  user_of id f = Some u → plain_user upd → u_id upd = id → u_emailHash upd = u_emailHash u →
  (f' = f ∧ upd = u ∨ f' = set_f_users f (update_first (has_id id) (λ _, upd) (f_users f))) →
  ∃ a', rel (n + 1) seen (mirror e' (r_updateUserById id (copy_fields upd)) s) a' ∧ mirrors seen f' a'.
Proof.
  intros Hf Hpl Hid Hem Hf'. assert (Hv := mi_users _ _ _ M id). rewrite Hf in Hv. destruct (a_users a !! id) as [v|] eqn:Ea; [|done].
  assert (Hwm : ∃ wm, u_wrapMode v = Some wm).
  { assert (Ho := rel_users _ _ _ _ R id). rewrite Ea in Ho. destruct (users s !! id) as [r|]; [|by inv Ho].
    assert (Hrow : row_ok id r v) by (by inv Ho). destruct Hrow as [-> _]. by eexists. }
  destruct Hwm as [wm Hwm]. destruct (user_of_In _ _ _ Hf) as [_ Hidu]. destruct (Hv) as (Hvid & Hvem & _).
  destruct (copy_covers v upd wm Hpl ltac:(congruence) ltac:(congruence) Hwm) as (v' & Hc & Hwm' & Hcov).
  assert (Hco := copy_ok upd (proj1 Hpl)). rewrite Hid in Hco.
  assert (R' := served_op n seen s a e' (Update id (copy_fields upd)) Hup Hco Hn ltac:(constructor) R).
  cbn [repo_do] in R'. rewrite Ea, Hc, Hwm' in R'. eexists. split; [exact R'|].
  assert (Hmu := mirrors_update seen f a id u v upd wm v' M Hf Ea Hpl Hid Hcov).
  destruct Hf' as [[-> ->]| ->]; [|done]. destruct Hmu as [Ms Mu Mr Mp Mn].
  assert (Hsame : set_f_users f (update_first (has_id id) (λ _, u) (f_users f)) = f).
  { destruct f as [us res]. cbn. unfold set_f_users. cbn. f_equal. unfold user_of in Hf. cbn in Hf. clear -Hf.
    induction us as [|x us IH]; cbn in *; [done|]. destruct (has_id id x); [congruence|]. by rewrite IH. }
  rewrite Hsame in Ms, Mu, Mr, Mp, Mn. by split.
Qed.

Lemma step_update id fn : route_fn id fn → step_ok seen n (CUpdate id fn) e e' f s.
Proof.
  intros Hfn. unfold step_ok. cbn [dual call_ids Datatypes.app]. unfold rep, dual_update. cbn [r_updateUserById r_findUserById file_repository fst snd].
  destruct (user_of id f) as [u|] eqn:Ef.
  2: { cbn [r_findUserById file_repository fst snd]. rewrite Ef. cbn [fst snd]. exact step_unchanged. }
  destruct (user_of_In _ _ _ Ef) as [Hin Hid]. assert (Hpl : plain_user u).
  { assert (Hp := mi_plain _ _ _ M). rewrite Forall_forall in Hp. by apply Hp. }
  destruct (fn u) as [u'| |err] eqn:Efn.
  - destruct (Hfn _ _ Hpl Hid Efn) as (Hpl' & Hid' & Hem'). cbn [r_findUserById file_repository fst snd].
    assert (Eu : user_of id (set_f_users f (update_first (has_id id) (λ _, u') (f_users f))) = Some u').
    { unfold user_of. cbn. rewrite find_updated by done. rewrite (proj2 (str_eqb_eq id id)) by done. unfold user_of in Ef. by rewrite Ef. }
    rewrite Eu. cbn [fst snd]. eapply step_copy; [done..|by right].
  - cbn [r_findUserById file_repository fst snd]. rewrite Ef. cbn [fst snd]. eapply step_copy; [done..|by left].
  - exact step_unchanged.
Qed.

Lemma step_set uid name v : json_ok v = true → uid ∈ seen → step_ok seen n (CSet uid name v) e e' f s.
Proof.
  intros Hv Hin. assert (R' := served_op n seen s a e' (SetRes uid name v) Hup Hv Hn ltac:(constructor) R).
  assert (Hm := mirrors_set seen f a uid name v M Hin). eexists. split; [exact R'|]. cbn [repo_do]. by destruct (a_users a !! uid).
Qed.

Lemma step_call c : call_ok seen c → step_ok seen n c e e' f s.
Proof.
  intros Hc. destruct c; cbn in Hc; try exact step_unchanged.
  - destruct Hc. by apply step_insert.
  - by apply step_update.
  - eexists. split; [exact (served_op n seen s a e' (DeleteUser id) Hup I Hn ltac:(constructor) R)|]. by apply mirrors_delete.
  - destruct Hc. by apply (step_set uid (js "sessions")).
  - destruct Hc. by apply step_set.
  - eexists. split; [exact (served_op n seen s a e' (DeleteRes uid name) Hup I Hn ltac:(constructor) R)|].
    destruct M as [Ms Mu Mr Mp Mn]. split; try done; cbn.
    + intros id Hid. destruct (Ms id Hid) as [Hno Hres]. split; [done|]. intros name'. destruct (Hres name') as [H1' H2'].
      split; apply lookup_delete_None; auto.
    + intros id name' Hsome. destruct (decide ((id, name') = (uid, name))) as [->|]; [by rewrite !lookup_delete_eq|].
      rewrite !lookup_delete_ne by congruence. by apply Mr.
  - done.
  - unfold step_ok. cbn [dual call_ids Datatypes.app]. unfold rep, dual_read. cbn [r_withUserTransaction file_repository fst snd].
    rewrite (Hc (f_users f)). exact step_unchanged.
Qed.
End step.

(** ** Sequences of calls *)

Fixpoint calls_ok (seen : list jsstr) (cs : list (call * Env * Env)) : Prop :=
  match cs with
  | [] => True
  | (c, _, e') :: cs => up e' ∧ call_ok seen c ∧ calls_ok (call_ids c ++ seen) cs
  end.

Lemma run_mirrors cs seen n f s a :
  calls_ok seen cs → 0 <= n → n + len cs <= MAX_INT4 → rel n seen s a → mirrors seen f a →
  let r := (dual_run cs (f, s)).1 in ∃ a' seen', rel (n + len cs) seen' r.2 a' ∧ mirrors seen' r.1 a'.
Proof.
  revert seen n f s a. induction cs as [|[[c e] e'] cs IH]; intros seen n f s a Hok Hn Hl R M r; subst r.
  - rewrite len_nil, Z.add_0_r. cbn. eauto.
  - rewrite len_cons in Hl |- *. destruct Hok as (Hup & Hc & Hok). assert (0 <= len cs) by (unfold len; lia).
    destruct (step_call seen n e e' f s a Hup ltac:(lia) R M c Hc) as (a1 & R1 & M1). cbn [dual_run].
    destruct (dual c e e' (f, s)) as [[f1 s1] rp]. cbn [fst snd] in *.
    destruct (IH (call_ids c ++ seen) (n + 1) f1 s1 a1 Hok ltac:(lia) ltac:(lia) R1 M1) as (a2 & seen2 & R2 & M2).
    destruct (dual_run cs (f1, s1)) as [r2 rs]. cbn [fst snd] in *. exists a2, seen2.
    by replace (n + (1 + len cs)) with (n + 1 + len cs) by lia.
Qed.
End mirror.

(** ** Concrete calls *)

Module ToyDual.
Import ToyNode ToyPg.

Definition empty_file : FileRepo := mkFileRepo [] ∅.

Lemma alice_plain : plain_user alice.
Proof. split; [apply alice_ok|done]. Qed.

Lemma env_up now k : 0 <= k < 256 → up (env now k).
Proof. intros Hk. split; [by apply env_is_ok|]. split; [done|by eexists]. Qed.

(** [delete u.recoveryKeyHash] and [u.passwordHash = hash] *)
Definition drop_recovery (u : User) : upd :=
  Changed (mkUser (u_id u) (u_emailHash u) (u_passwordHash u) (u_wrappedDek u) (u_kmsKeyId u) (u_wrapMode u) (u_pwWrapSalt u)
    (u_cryptoSalt u) (u_status u) (u_createdAt u) (List.filter (λ kv, negb (str_eqb kv.1 (js "recoveryKeyHash"))) (u_flex u))).

Definition calls : list (call * Env * Env) :=
  [(CInsert alice, env 1 1, env 1 1); (CSet (js "a1") (js "folders") (JArr []), env 2 2, env 2 2); (CUpdate (js "a1") new_hash, env 3 3, env 3 3)].

(** A field the primary removes stays in the mirror. *)
Example removed_field_stays :
  let s := (dual_run (calls ++ [(CUpdate (js "a1") drop_recovery, env 4 4, env 4 4)]) (empty_file, empty_pg)).1 in
  (lookup_key (js "recoveryKeyHash") ∘ u_flex <$> user_of (js "a1") s.1) = Some None ∧
  match (findUserById (env 5 5) (js "a1") s.2).2 with
  | Ok (Some v) => lookup_key (js "recoveryKeyHash") (u_flex v) = Some (JStr (js "r"))
  | _ => False
  end.
Proof. by vm_compute. Qed.

(** Removing the data of a user removes the account from the mirror. *)
Example delete_data_drops_account :
  let s := (dual_run (calls ++ [(CDeleteData (js "a1"), env 4 4, env 4 4)]) (empty_file, empty_pg)).1 in
  bool_decide (is_Some (user_of (js "a1") s.1)) = true ∧ (findUserById (env 5 5) (js "a1") s.2).2 = Ok None.
Proof. by vm_compute. Qed.

(** A transaction that adds a user to the list stores it in the files and fails on PostgreSQL. *)
Example pushed_user_refused :
  let push us := Some (us ++ [bob]) in
  bool_decide (is_Some (user_of (js "b1") (r_withUserTransaction push (env 1 1) empty_file).1)) = true ∧
  (withUserTransaction (env 1 1) push empty_pg).2 = Throw NotNullViolation.
Proof. by vm_compute. Qed.

Lemma new_hash_route id : route_fn id new_hash.
Proof. intros u u' (Hok & Hr) Hid [= <-]. split; [by split|]. done. Qed.
End ToyDual.

Module MirrorSpec.
(** C24: for any calls of the dual repository over fresh files and a fresh database,
    whether or not the database answers, the answers and the files are those of the file
    repository alone.  And the mirror is complete for the calls the routes make of
    accounts and data, as [calls_ok] lists them: users are inserted with fresh ids, changed
    by the functions of the routes and deleted, resources of inserted users are written
    and removed, transactions change nothing, [deleteUserData] is not called (it drops
    the mirrored account, [delete_data_drops_account]), and the database and the key
    management answer.  After those, every user of the files is found in the mirror with
    the same credentials, all fields it has in the files, and the same resources. *)
Theorem mirror_complete `{NodeCrypto} `{!NodeCryptoLaws} `{!NodeBytes} `{JsFloat} `{Kms} `{!KmsLaws} `{Jsonb} `{!JsonbLaws} cs e :
  let r := dual_run cs (ToyDual.empty_file, empty_pg) in
  r.1.1 = (single_run cs ToyDual.empty_file).1 ∧ r.2 = (single_run cs ToyDual.empty_file).2 ∧
  (calls_ok [] cs → len cs <= MAX_INT4 → up e → ∀ id u, user_of id r.1.1 = Some u →
    (∃ v, (findUserById e id r.1.2).2 = Ok (Some v) ∧ covers u v) ∧
    ∀ name, ∃ w, (getResource e id name r.1.2).2 = Ok w ∧ w ≡ default JNull (f_res r.1.1 !! (id, name))).
Proof.
  intros r. destruct (dual_run_primary cs (ToyDual.empty_file, empty_pg)) as [Hp Ha]. split_and!; [done|done|].
  intros Hok Hl Hup.
  intros id u Hu. destruct (run_mirrors cs [] 0 ToyDual.empty_file empty_pg empty_repo) as (a & seen & R & M); try done.
  { split; cbn; try done; [intros; constructor|intros; constructor|]. intros id' [[]|[]]; done. }
  { split; cbn; try done; constructor. }
  fold r in R, M. destruct (Hup) as (_ & Hk & _). assert (Hv := mi_users _ _ _ M id). rewrite Hu in Hv.
  destruct (a_users a !! id) as [v|] eqn:Ea; [|done]. split.
  - destruct (find_rel _ _ _ _ e id R) as (s' & _ & _ & _ & [(o & Hf & Ho & _)|[_ ?]]); [|congruence]. rewrite Ea in Ho.
    destruct o as [v'|]; [|by inv Ho]. rewrite Hf. exists v'. split; [done|]. eapply covers_equiv; [done|]. by inv Ho.
  - intros name. destruct (sim_get _ _ _ _ e id name R) as (a' & rs & Hst & Heq & _).
    destruct Hst as [a' rs Hd|[?|?]]; [|congruence|by destruct Hup as (_ & _ & [? ?]); congruence]. cbn in Hd. injection Hd as <- <-.
    rewrite (mi_res _ _ _ M id name) by (by eexists). cbn [pg_do] in Heq. unfold ans in Heq. cbn in Heq.
    destruct (getResource e id name r.1.2) as [s' [w|err]]; cbn in *; [|done]. by exists w.
Qed.

Import ToyNode ToyPg.

Lemma mirror_complete_witness :
  let r := dual_run ToyDual.calls (ToyDual.empty_file, empty_pg) in
  r.1.1 = (single_run ToyDual.calls ToyDual.empty_file).1 ∧ r.2 = (single_run ToyDual.calls ToyDual.empty_file).2 ∧
  ∀ id u, user_of id r.1.1 = Some u →
    (∃ v, (findUserById (env 9 9) id r.1.2).2 = Ok (Some v) ∧ covers u v) ∧
    ∀ name, ∃ w, (getResource (env 9 9) id name r.1.2).2 = Ok w ∧ w ≡ default JNull (f_res r.1.1 !! (id, name)).
Proof.
  destruct (mirror_complete ToyDual.calls (env 9 9)) as (H1 & H2 & H3).
  cbv zeta. split; [exact H1|]. split; [exact H2|]. clear H1 H2. refine (H3 _ _ _); clear H3.
  - repeat (split; [by apply ToyDual.env_up|split]); cbn.
    + split; [apply ToyDual.alice_plain|set_solver].
    + split; [done|set_solver].
    + apply ToyDual.new_hash_route.
    + done.
  - by vm_compute.
  - by apply ToyDual.env_up.
Defined.
End MirrorSpec.
